(* ===== verification/_CoqProject ===== *)
-Q . S2P
Prelude.v
Session.v
Env.v
Time.v
Locks.v
Sim.v
IoRead.v
IoReadProofs.v
Framing.v
IoWrite.v
IoWriteProofs.v
IoWriteSafe.v
IoTheorems.v
Capabilities.v
CapabilitiesProofs.v
Handshake.v
RpcLock.v
PsQueue.v
PollSession.v
PollProofs.v
PollSafe.v
PollBalance.v
PollServe.v
ClientRecv.v
ClientTheorems.v
Errors.v
SessionFree.v
FreeProofs.v
PollClear.v
PtrArray.v
SshOpts.v
SshOptsProofs.v
TlsOpts.v
TlsOptsProofs.v
TlsVerify.v
TlsVerifyProofs.v
Sockets.v
SocketsProofs.v
Endpoints.v
EndpointsProofs.v
EndpointsOps.v
EndpointsTheorems.v
CallHome.v
CallHomeProofs.v
Connect.v
UserDb.v
SshAuth.v
SshAuthProofs.v
SshChannels.v
ClientRpc.v
ClientRpcProofs.v
SendRpc.v
SendRpcProofs.v
RpcTheorems.v
SshCliOpts.v
SshCliOptsProofs.v
SshPrompt.v
SshClient.v
SshPromptProofs.v
SshClientProofs.v
ModuleInfo.v
ModuleInfoProofs.v
Schemas.v
SchemasProofs.v
TlsCliOpts.v
TlsCliProofs.v
ClientCtx.v
ClientCtxProofs.v
ClientConnect.v
ClientConnectProofs.v
SshStart.v
SshStartProofs.v
TlsStart.v
TlsStartProofs.v
Accept.v
AcceptProofs.v
ChThread.v
AcceptChannel.v
ServerInit.v
Replies.v
