(* ===== verification/Prelude.v ===== *)
(** * libnetconf2: a verification development

    libnetconf2 (src/) is a C library for NETCONF clients and servers.  A session
    exchanges XML messages over a pair of descriptors, a UNIX socket, an SSH channel
    (libssh) or TLS (OpenSSL).  A server listens on endpoints, or connects to clients
    itself (Call Home), authenticates its peer, exchanges hello messages, and serves
    RPCs of many sessions from many threads; a client sends RPCs and receives replies
    and notifications.

    ** How the code is modelled

    Every function is a Rocq function of the same name.  Functions with effects are
    computations [M S A := S → outcome (A * S)] over an explicit state (this file).
    An outcome is [Done] with a value, [Crash] for what C leaves undefined and for
    failed assertions (accesses outside of a buffer, uses of freed memory, NULL given
    to strcmp), or [NoFuel] for a loop that needs more rounds than its fuel and for a
    thread that waits for a lock it holds itself.  Machine integers are [Z] with their
    wrap-around written out ([u8], [u16], [u32], [u64], [i32]); strings are [bytes],
    lists of [ascii]; NULL is [None]; union members are constructors.  Code outside of
    src/ - the system, libc, libssh, OpenSSL, libyang, PAM, callbacks of the
    application - is a parameter: type classes of operations on a state [W] ([Env],
    [SockEnv], [ConnEnv], [SshKeys], [SshAuthEnv], [CrlEnv], [X509], [Printer],
    [HelloParser], [RpcEnv], [ClientEnv], [LyDup], [LyBuild], [KeyFileEnv], [TtyEnv], [HostKeyEnv],
    [SshCliEnv], [TlsCliEnv], [LySchema], [ReplyData], [BuildConstants], [ConnectEnv], [UserDb], [PeerEnv], [TmpFileEnv],
    [SshBindEnv], [TlsSrvEnv], [RwlockEnv], [ReplyEnv], [ChEnv]), and separate classes of laws
    for what theorems rely on ([EnvLaws], [Reliable], [SockLaws], [ConnLaws], [AuthDb], [LyBuildLaws], [Memory], [TtyLaws],
    [TtyRestores], [SaidLaws], [AuthLog], [TlsHandshake], [TlsNet], [TmpFileLaws], [TlsAccept], [SchemaLaws]).  Sim.v, SocketsProofs.v,
    SshPromptProofs.v, TlsCliProofs.v and TlsStartProofs.v define concrete environments that satisfy the laws; witnesses of theorems
    are evaluated in them.  Other threads are a step relation (RpcLock.v, PsQueue.v), a function that is applied whenever this
    thread holds no lock (ChThread.v), or the answers of the locks.

    Proofs use weakest preconditions: [wpx F m Q s] says that [m] from [s] does not
    crash, ends in [Q], and may run out of fuel only if [F] holds; [wp] is total and
    [wlp] partial.  Statements of the form [∃ ..., f ... = Done ...] are total.

    ** Files and sources

    - Session.v: src/netconf.h, src/session.h and src/session_p.h, the enumerations and
      [struct nc_session]; the getters of src/session.c.
    - Env.v, Time.v, Locks.v: the environment; the timespec helpers, the
      constructor of sessions and the IO and message locks of src/session.c.
    - IoRead.v, Framing.v, IoWrite.v: src/io.c, reading and writing of messages with the
      end-tag and the chunked framing; IoReadProofs.v, IoWriteProofs.v, IoWriteSafe.v
      and IoTheorems.v show that messages read are the messages written, that reading
      always ends, that writing never leaves its buffer.
    - Capabilities.v, CapabilitiesProofs.v, Handshake.v: the hello exchange of
      src/session.c: capabilities advertised and received, and that both sides agree on
      the version.
    - RpcLock.v: [nc_session_rpc_lock] as a step relation of any number of threads, with
      exclusion and absence of lost wake-ups.
    - PsQueue.v: the queue of threads of a pollsession and the turns they
      take; PollSession.v and PollProofs.v, PollSafe.v, PollBalance.v, PollServe.v,
      PollClear.v: [nc_ps_poll] and the processing of RPCs of src/session_server.c; a
      round leaves all locks as it found them and an RPC that arrives is answered.
    - SessionFree.v, FreeProofs.v: [nc_session_free] with the ring of NETCONF sessions on
      one SSH session.
    - ClientRecv.v, ClientTheorems.v: receiving in src/session_client.c and the notification thread; replies and
      notifications are delivered in order, each once.
    - Errors.v: rpc-error trees of src/messages_server.c against RFC 6241.
    - PtrArray.v: arrays of C strings with their freed and uninitialised
      slots; lists with distinct keys as maps.
    - SshOpts.v, SshOptsProofs.v, TlsOpts.v, TlsOptsProofs.v: options of
      endpoints in src/session_server_ssh.c and src/session_server_tls.c; host keys
      are a list, cert-to-name entries an ordered map.
    - TlsVerify.v, TlsVerifyProofs.v: the verification callback and cert-to-name of
      src/session_server_tls.c; what an accepted client has shown.
    - Sockets.v, SocketsProofs.v: listening and accepting in
      src/session_server.c; no descriptor is lost, no event is forgotten.
    - Endpoints.v, EndpointsProofs.v, EndpointsOps.v, EndpointsTheorems.v: the endpoints
      of a server, a map from names to endpoints with their sockets.
    - CallHome.v, CallHomeProofs.v: Call Home clients, their locks and settings; ChThread.v: the thread of a client, which
      connects its endpoints in turn, waits for the end of each session, and holds no lock while it sleeps or waits.
    - Connect.v: [nc_sock_connect] of src/session_client.c and who owns its sockets.
    - SshAuth.v, SshAuthProofs.v, SshChannels.v: authentication of SSH clients and
      further channels in src/session_server_ssh.c; a client gets in only with
      credentials of the user it named, and new sessions join the ring.
    - ClientRpc.v, ClientRpcProofs.v: the RPC objects of src/messages_client.c on a heap
      with failing allocations; SendRpc.v, SendRpcProofs.v: [nc_send_rpc] of
      src/session_client.c, which builds their trees; RpcTheorems.v: objects neither
      leak nor are freed twice, they are sent whole or not at all, and the peer reads
      the message that the arguments of the constructor stand for.
    - SshCliOpts.v, SshCliOptsProofs.v: the SSH options of a client in
      src/session_client_ssh.c, with the invariant of their representation.
    - SshPrompt.v, SshClient.v: questions to the user on the terminal, the check of host
      keys, the authentication of a client and the opening of its channel;
      SshPromptProofs.v, with a user at a terminal and a server, and
      SshClientProofs.v: terminals are restored, host keys are accepted for a reason, credentials are shown
      only to accepted hosts and by the enabled methods.
    - ModuleInfo.v, ModuleInfoProofs.v: what a client of src/session_client.c learns of the modules of a server, from its
      capabilities - exactly the modules that the server advertised - or from its ietf-yang-library data.
    - Schemas.v, SchemasProofs.v: the libyang context of a session and its modules, from files, with get-schema or from the
      callback of the user, up to [nc_ctx_check_and_fill]; the settings of the context are restored.
    - TlsCliOpts.v, TlsCliProofs.v: src/session_client_tls.c, options, SSL contexts, revocation lists and the
      verification of a server.
    - ClientCtx.v, ClientCtxProofs.v: the contexts of client threads in src/session_client.c, shared and released with their last
      user, and the sockets for Call Home.
    - ClientConnect.v, ClientConnectProofs.v: the functions that put a session of a client together, over descriptors,
      UNIX sockets, SSH, TLS and Call Home; what a TLS connection was checked for.
    - UserDb.v: [nc_getpwuid] of src/io.c.
    - SshStart.v, SshStartProofs.v: [nc_accept_ssh_session] of src/session_server_ssh.c, host keys in temporary files, the key
      exchange, authentication and the first channel; no private key stays in a file, and who is logged in.
    - TlsStart.v, TlsStartProofs.v: [nc_accept_tls_session] of src/session_server_tls.c, the SSL context of an endpoint and the handshake
      with the callbacks of TlsVerify.v; what an accepted client has shown.
    - Accept.v, AcceptProofs.v: [nc_accept], [nc_accept_inout] and [nc_connect_ch_endpt] of src/session_server.c, which put a session of a
      server together from the sockets, the transports and the hello exchange; the user of a session was vouched for by its transport.
    - AcceptChannel.v: sessions on further channels of an SSH connection, [nc_session_accept_ssh_channel] and [nc_ps_accept_ssh_channel].
    - ServerInit.v: [nc_server_init], [nc_server_destroy] and the functions that set callbacks; what is left of a server that was stopped.
    - Replies.v: the replies and notifications of src/messages_server.c on a heap, and the default callback for <get-schema>, which
      answers every request and leaks nothing.

    ** What the theorems show

    Theorems numbered C1 to C40 are the properties of the library.  Round trips and
    agreement: messages, versions, lists of modules.  Safety: locks and queues of many
    threads, buffers, sockets, authentication of SSH and TLS clients and of servers, the users of accepted sessions, private keys
    in files, settings and contexts of a client.  Refinement:
    endpoints, cert-to-name entries, the pollsession queue and the client's message
    queue implement maps and lists; an RPC of a client is the tree of its arguments.
    Functional behaviour: polling, further channels, <get-schema>, notifications of a client, the end of a server.
    Types: the options of a client stay well-formed.  Termination and liveness: reading, the RPC lock, Call Home endpoints.
    Where the code does not do what it should, a theorem, not always a numbered one,
    states what it does instead:
    a missed end tag, a chunk size that overflows, a freed host key that stays, an
    endpoint that survives its deletion, a lock that is never released, authentication
    methods that are announced but not enforced, a common name taken from elsewhere, a
    filter that gets lost, a host key accepted unchecked, a success without authentication, the oldest revision
    loaded for the newest, submodules that are never found, a session that blocks after a refused channel, a Call Home client that
    answers late, callback data that are freed twice, a notification without a time.

    ** Fuel

    Loops whose number of rounds depends on the environment (reading, waiting,
    retrying) take fuel.  Theorems that a function ends give a bound in terms of the
    timeouts, the messages or the number of sessions, or are proved without fuel;
    safety theorems hold for every amount of fuel.  Loops over arrays and lists recurse
    on the number of elements.

    ** Not modelled

    - What libyang does with data: parsing, printing and checking trees are parameters, and so are libssh, OpenSSL, PAM,
      the system and the callbacks of the application.
    - The initialisation and cleanup of libssh and OpenSSL as a whole (nc_init, nc_destroy, nc_thread_destroy and the functions
      below them in src/session.c): calls of these libraries without a state of the program.
    - Releasing memory of strings and of the transport libraries in nc_session_free, nc_ps_free and free_module_info,
      except where a theorem is about a use after it; messages for the log, which includes the names of SSH messages in
      nc_sshcb_msg, nc_server_tls_accept_check and nc_client_tls_connect_check, and src/log.c.
    - The variants of the TLS code for OpenSSL before 1.1.0, which are not compiled with a current one, and compat/. *)

From Stdlib Require Import ZArith Ascii String Lia.
From stdpp Require Import base list strings gmap numbers.

Abbreviation bytes := (list ascii).

Declare Scope nc_scope.
Delimit Scope nc_scope with nc.
Open Scope nc_scope.
Open Scope Z_scope.

(** A C string literal as the list of its bytes (the terminating NUL left out). *)
Definition str (s : string) : bytes := list_ascii_of_string s.
Arguments str _%_string_scope : simpl never.

(** ** Outcomes of C code

    A run of a function ends with a value, runs out of the fuel that bounds its
    loops, or performs an access outside of an allocated buffer, a failed
    [assert] or another operation the C standard leaves undefined. *)

Inductive outcome (A : Type) : Type :=
| Done (a : A)
| NoFuel
| Crash.
Arguments Done {A} a.
Arguments NoFuel {A}.
Arguments Crash {A}.

(** State-passing computations over a state type [S]. *)
Definition M (S A : Type) : Type := S → outcome (A * S).

#[export] Instance M_ret S : MRet (M S) := λ A a s, Done (a, s).

#[export] Instance M_bind S : MBind (M S) := λ A B k m s,
  match m s with
  | Done (a, s') => k a s'
  | NoFuel => NoFuel
  | Crash => Crash
  end.

Definition no_fuel {S A} : M S A := λ _, NoFuel.
Definition crash {S A} : M S A := λ _, Crash.
Definition gets {S A} (f : S → A) : M S A := λ s, Done (f s, s).
Definition modify {S} (f : S → S) : M S unit := λ s, Done (tt, f s).

(** [assert(b)] of the C code, also used for the bounds of a buffer access. *)
Definition guarded {S} (b : bool) : M S unit :=
  if b then mret tt else crash.

(** Weakest preconditions.  [wpx F m Q s] holds when [m] started in [s] ends
    with a value and a state satisfying [Q]; it never crashes, and it may run
    out of fuel only when [F] holds. *)
Definition wpx {S A} (F : Prop) (m : M S A) (Q : A → S → Prop) (s : S) : Prop :=
  match m s with
  | Done (a, s') => Q a s'
  | NoFuel => F
  | Crash => False
  end.

Abbreviation wp := (wpx False).
Abbreviation wlp := (wpx True).

Section wp_rules.
Context {S : Type} (F : Prop).

Lemma wpx_ret {A} (a : A) (Q : A → S → Prop) s :
  Q a s → wpx F (mret a) Q s.
Proof. done. Qed.

Lemma wpx_bind {A B} (m : M S A) (k : A → M S B) (Q : B → S → Prop) s :
  wpx F m (λ a s', wpx F (k a) Q s') s → wpx F (mbind k m) Q s.
Proof.
  unfold wpx, mbind, M_bind. by destruct (m s) as [[a s']| |].
Qed.

Lemma wpx_bind_inv {A B} (m : M S A) (k : A → M S B) (Q : B → S → Prop) s :
  wpx F (mbind k m) Q s → wpx F m (λ a s', wpx F (k a) Q s') s.
Proof.
  unfold wpx, mbind, M_bind. by destruct (m s) as [[a s']| |].
Qed.

Lemma wpx_gets {A} (f : S → A) (Q : A → S → Prop) s :
  Q (f s) s → wpx F (gets f) Q s.
Proof. done. Qed.

Lemma wpx_modify (f : S → S) (Q : unit → S → Prop) s :
  Q tt (f s) → wpx F (modify f) Q s.
Proof. done. Qed.

Lemma wpx_guarded (b : bool) (Q : unit → S → Prop) s :
  b = true → Q tt s → wpx F (guarded b) Q s.
Proof. by intros ->. Qed.

Lemma wpx_no_fuel {A} (Q : A → S → Prop) s :
  F → wpx F no_fuel Q s.
Proof. done. Qed.

Lemma wpx_mono {A} (m : M S A) (Q Q' : A → S → Prop) s :
  wpx F m Q s → (∀ a s', Q a s' → Q' a s') → wpx F m Q' s.
Proof. unfold wpx. destruct (m s) as [[a s']| |]; eauto. Qed.

Lemma wpx_and {A} (m : M S A) (Q Q' : A → S → Prop) s :
  wpx F m Q s → wpx F m Q' s → wpx F m (λ a s', Q a s' ∧ Q' a s') s.
Proof. unfold wpx. destruct (m s) as [[a s']| |]; eauto. Qed.

Lemma wpx_Done {A} (m : M S A) (Q : A → S → Prop) s a s' :
  wpx F m Q s → m s = Done (a, s') → Q a s'.
Proof. unfold wpx. intros H E. by rewrite E in H. Qed.

(** The run itself may be remembered. *)
Lemma wpx_run {A} (m : M S A) (Q : A → S → Prop) s :
  wpx F m Q s → wpx F m (λ a s', m s = Done (a, s') ∧ Q a s') s.
Proof. unfold wpx. by destruct (m s) as [[a s']| |]. Qed.
End wp_rules.

Lemma wp_total {S A} (m : M S A) (Q : A → S → Prop) s :
  wp m Q s ↔ ∃ a s', m s = Done (a, s') ∧ Q a s'.
Proof.
  unfold wpx. split.
  - destruct (m s) as [[a s']| |]; [eauto|done..].
  - by intros (a & s' & -> & ?).
Qed.

Lemma wp_wpx {S A} F (m : M S A) (Q : A → S → Prop) s :
  wp m Q s → wpx F m Q s.
Proof. unfold wpx. destruct (m s) as [[a s']| |]; done. Qed.

(** One step of symbolic execution. *)
Ltac wp_step :=
  lazymatch goal with
  | |- wpx _ (mbind _ _) _ _ => apply wpx_bind
  | |- wpx _ (mret _) _ _ => apply wpx_ret
  | |- wpx _ (gets _) _ _ => apply wpx_gets; cbn beta
  | |- wpx _ (modify _) _ _ => apply wpx_modify; cbn beta
  | |- wpx _ (guarded _) _ _ => apply wpx_guarded
  | |- wpx _ (if ?b then _ else _) _ _ => destruct b eqn:?
  | |- wpx _ (match ?b with _ => _ end) _ _ => destruct b eqn:?
  end.

(** ** Machine integers *)

Definition u8 (z : Z) : Z := z mod 2 ^ 8.
Definition u16 (z : Z) : Z := z mod 2 ^ 16.
Definition u32 (z : Z) : Z := z mod 2 ^ 32.
Definition u64 (z : Z) : Z := z mod 2 ^ 64.
Definition i32 (z : Z) : Z := (z + 2 ^ 31) mod 2 ^ 32 - 2 ^ 31.
Definition i64 (z : Z) : Z := (z + 2 ^ 63) mod 2 ^ 64 - 2 ^ 63.

Definition UINT32_MAX : Z := 2 ^ 32 - 1.
Definition ULONG_MAX : Z := 2 ^ 64 - 1.
Definition LLONG_MAX : Z := 2 ^ 63 - 1.
Definition LLONG_MIN : Z := - 2 ^ 63.

Lemma u64_small z : 0 ≤ z < 2 ^ 64 → u64 z = z.
Proof. apply Z.mod_small. Qed.

Lemma u32_small z : 0 ≤ z < 2 ^ 32 → u32 z = z.
Proof. apply Z.mod_small. Qed.

Lemma u16_small z : 0 ≤ z < 2 ^ 16 → u16 z = z.
Proof. apply Z.mod_small. Qed.

Lemma u8_small z : 0 ≤ z < 2 ^ 8 → u8 z = z.
Proof. apply Z.mod_small. Qed.

Lemma i32_small z : - 2 ^ 31 ≤ z < 2 ^ 31 → i32 z = z.
Proof. intros ?. unfold i32. rewrite Z.mod_small; lia. Qed.

Lemma i64_small z : - 2 ^ 63 ≤ z < 2 ^ 63 → i64 z = z.
Proof. intros ?. unfold i64. rewrite Z.mod_small; lia. Qed.

Lemma u64_bound z : 0 ≤ u64 z < 2 ^ 64.
Proof. apply Z.mod_pos_bound. lia. Qed.

Lemma i32_bound z : - 2 ^ 31 ≤ i32 z < 2 ^ 31.
Proof. unfold i32. pose proof (Z.mod_pos_bound (z + 2 ^ 31) (2 ^ 32)). lia. Qed.

(** Length of a list as an integer, as [strlen] and the buffer sizes use it. *)
Definition zlen {A} (l : list A) : Z := Z.of_nat (length l).

Lemma zlen_nonneg {A} (l : list A) : 0 ≤ zlen l.
Proof. unfold zlen. lia. Qed.

Lemma zlen_app {A} (l k : list A) : zlen (l ++ k) = zlen l + zlen k.
Proof. unfold zlen. rewrite length_app. lia. Qed.

Lemma zlen_nil_inv {A} (l : list A) : zlen l = 0 → l = [].
Proof. unfold zlen. destruct l; simpl; [done|lia]. Qed.

Lemma zlen_cons {A} (x : A) l : zlen (x :: l) = 1 + zlen l.
Proof. unfold zlen. simpl. lia. Qed.

Definition ztake {A} (n : Z) (l : list A) : list A := take (Z.to_nat n) l.
Definition zdrop {A} (n : Z) (l : list A) : list A := drop (Z.to_nat n) l.

Lemma ztake_zdrop {A} n (l : list A) : ztake n l ++ zdrop n l = l.
Proof. apply take_drop. Qed.

Lemma zlen_ztake {A} n (l : list A) : 0 ≤ n ≤ zlen l → zlen (ztake n l) = n.
Proof. unfold zlen, ztake. intros ?. rewrite length_take. lia. Qed.

Lemma zlen_zdrop {A} n (l : list A) : 0 ≤ n ≤ zlen l → zlen (zdrop n l) = zlen l - n.
Proof. unfold zlen, zdrop. intros ?. rewrite length_drop. lia. Qed.

Lemma ztake_app {A} (l k : list A) : ztake (zlen l) (l ++ k) = l.
Proof. unfold ztake, zlen. rewrite Nat2Z.id. by rewrite take_app_length. Qed.

Lemma zdrop_app {A} (l k : list A) : zdrop (zlen l) (l ++ k) = k.
Proof. unfold zdrop, zlen. rewrite Nat2Z.id. by rewrite drop_app_length. Qed.

Lemma ztake_all {A} n (l : list A) : zlen l ≤ n → ztake n l = l.
Proof. unfold ztake, zlen. intros ?. apply take_ge. lia. Qed.

Create HintDb nc.
#[export] Hint Rewrite @zlen_app @zlen_cons @ztake_app @zdrop_app : nc.
#[export] Hint Resolve @zlen_nonneg : nc.

(** ** C strings *)

(** [strncmp(a, b, n) == 0] on strings without embedded NUL bytes. *)
Definition strncmp_eq (a b : bytes) (n : nat) : bool := bool_decide (take n a = take n b).

(** [strcmp(a, b) == 0]. *)
Definition strcmp_eq (a b : bytes) : bool := bool_decide (a = b).

(** [isspace] in the C locale. *)
Definition isspace (c : ascii) : bool :=
  let n := N_of_ascii c in ((n =? 32) || ((9 <=? n) && (n <=? 13)))%N.

Definition isdigit (c : ascii) : bool :=
  let n := N_of_ascii c in ((48 <=? n) && (n <=? 57))%N.

Definition digit_val (c : ascii) : Z := Z.of_N (N_of_ascii c) - 48.
Definition digit_of (d : Z) : ascii := ascii_of_N (Z.to_N (d + 48)).

(** Longest prefix satisfying a test, and the rest. *)
Fixpoint span {A} (p : A → bool) (l : list A) : list A * list A :=
  match l with
  | [] => ([], [])
  | x :: l' => if p x then let (a, b) := span p l' in (x :: a, b) else ([], l)
  end.

(** Value of a string of decimal digits. *)
Definition digits_val (v : Z) (l : bytes) : Z :=
  fold_left (λ v c, v * 10 + digit_val c) l v.

(** An optional sign, as the [strto*] functions read it. *)
Definition take_sign (s : bytes) : bool * bytes :=
  match s with
  | c :: s' =>
    if decide (c = "-"%char) then (true, s')
    else if decide (c = "+"%char) then (false, s') else (false, s)
  | [] => (false, [])
  end.

(** [strtoul(s, NULL, 10)]: white space, a sign, digits; the value saturates at
    [ULONG_MAX] and a minus sign negates it modulo 2^64. *)
Definition strtoul (s : bytes) : Z :=
  let (_, s1) := span isspace s in
  let (neg, s2) := take_sign s1 in
  let (ds, _) := span isdigit s2 in
  let v := digits_val 0 ds in
  if ULONG_MAX <? v then ULONG_MAX else if neg then u64 (- v) else v.

(** [strtoll(s, &end, 10)]: the value, saturated, and the text left at [end]
    ([end] is [s] itself when there are no digits). *)
Definition strtoll (s : bytes) : Z * bytes :=
  let (_, s1) := span isspace s in
  let (neg, s2) := take_sign s1 in
  let (ds, rest) := span isdigit s2 in
  match ds with
  | [] => (0, s)
  | _ =>
    let v := if neg then - digits_val 0 ds else digits_val 0 ds in
    (Z.max LLONG_MIN (Z.min LLONG_MAX v), rest)
  end.

(** [sprintf("%zu", n)]: 20 digits are enough for a 64-bit value. *)
Fixpoint dec_go (fuel : nat) (n : Z) (acc : bytes) : bytes :=
  match fuel with
  | O => acc
  | S f =>
    let acc' := digit_of (n mod 10) :: acc in
    if n <? 10 then acc' else dec_go f (n / 10) acc'
  end.

Definition print_dec (n : Z) : bytes := dec_go 20 n [].
Arguments print_dec : simpl never.

Lemma digit_of_isdigit d : 0 ≤ d < 10 → isdigit (digit_of d) = true.
Proof.
  intros Hd. assert (d = 0 ∨ d = 1 ∨ d = 2 ∨ d = 3 ∨ d = 4 ∨ d = 5 ∨ d = 6 ∨ d = 7 ∨ d = 8 ∨ d = 9)
    as Hc by lia.
  by repeat (destruct Hc as [->|Hc]; [reflexivity|]); subst.
Qed.

Lemma digit_val_of d : 0 ≤ d < 10 → digit_val (digit_of d) = d.
Proof.
  intros Hd. unfold digit_val, digit_of. rewrite N_ascii_embedding; lia.
Qed.

Lemma digits_val_app v a b : digits_val v (a ++ b) = digits_val (digits_val v a) b.
Proof. unfold digits_val. by rewrite fold_left_app. Qed.

Lemma dec_go_spec fuel n acc :
  0 ≤ n < 10 ^ Z.of_nat fuel → (0 < fuel)%nat →
  ∃ ds, dec_go fuel n acc = ds ++ acc ∧ ds ≠ [] ∧
        Forall (λ c, isdigit c = true) ds ∧ digits_val 0 ds = n.
Proof.
  revert n acc. induction fuel as [|fuel IH]; intros n acc Hn Hf; [lia|].
  cbn [dec_go]. pose proof (Z.mod_pos_bound n 10 ltac:(lia)) as Hm.
  destruct (n <? 10) eqn:E.
  - apply Z.ltb_lt in E. rewrite Z.mod_small by lia. exists [digit_of n].
    repeat split; [done| |].
    + constructor; [apply digit_of_isdigit; lia|done].
    + cbn. rewrite digit_val_of; lia.
  - apply Z.ltb_ge in E.
    assert (Hp : 10 ^ Z.of_nat (S fuel) = 10 * 10 ^ Z.of_nat fuel).
    { rewrite Nat2Z.inj_succ, Z.pow_succ_r; lia. }
    assert (Hq : 0 ≤ n / 10 < 10 ^ Z.of_nat fuel).
    { split; [apply Z.div_pos; lia|]. apply Z.div_lt_upper_bound; lia. }
    assert ((0 < fuel)%nat).
    { destruct fuel; [|lia]. simpl in *. lia. }
    destruct (IH (n / 10) (digit_of (n mod 10) :: acc)) as (ds & -> & ? & ? & Hv); [done..|].
    exists (ds ++ [digit_of (n mod 10)]). repeat split.
    + by rewrite <- app_assoc.
    + by destruct ds.
    + apply Forall_app; split; [done|]. constructor; [by apply digit_of_isdigit|done].
    + rewrite digits_val_app, Hv. cbn. rewrite digit_val_of by done.
      pose proof (Z.div_mod n 10). lia.
Qed.

Lemma print_dec_spec n :
  0 ≤ n < 2 ^ 64 →
  print_dec n ≠ [] ∧ Forall (λ c, isdigit c = true) (print_dec n) ∧
  digits_val 0 (print_dec n) = n.
Proof.
  intros Hn. destruct (dec_go_spec 20 n []) as (ds & E & ? & ? & ?); [|lia|].
  { split; [lia|]. apply Z.lt_le_trans with (2 ^ 64); [lia|]. by vm_compute. }
  unfold print_dec. by rewrite E, app_nil_r.
Qed.

Lemma span_all {A} (p : A → bool) a b :
  Forall (λ x, p x = true) a → (match b with [] => True | x :: _ => p x = false end) →
  span p (a ++ b) = (a, b).
Proof.
  induction 1 as [|x a Hx _ IH]; intros Hb; simpl.
  - destruct b as [|y b]; [done|]. simpl. by rewrite Hb.
  - by rewrite Hx, IH.
Qed.

Lemma span_app {A} (p : A → bool) l : (span p l).1 ++ (span p l).2 = l.
Proof.
  induction l as [|x l IH]; [done|]. simpl. destruct (p x); [|done].
  destruct (span p l); simpl in *. by rewrite IH.
Qed.

Lemma isdigit_not_space c : isdigit c = true → isspace c = false.
Proof.
  unfold isdigit, isspace. intros H%andb_true_iff. destruct H as [H1 H2].
  apply N.leb_le in H1, H2. apply orb_false_iff. split.
  - apply N.eqb_neq. lia.
  - apply andb_false_iff. right. apply N.leb_gt. lia.
Qed.

Lemma isdigit_not_sign c : isdigit c = true → c ≠ "-"%char ∧ c ≠ "+"%char.
Proof. by split; intros ->. Qed.

Lemma digits_val_nonneg v ds :
  0 ≤ v → Forall (λ c, isdigit c = true) ds → 0 ≤ digits_val v ds.
Proof.
  intros Hv H. revert v Hv. induction H as [|c ds Hc _ IH]; intros v Hv; [done|].
  cbn. apply IH. unfold isdigit, digit_val in *. apply andb_true_iff in Hc as [Hc%N.leb_le _]. lia.
Qed.

Lemma span_forall {A} (p : A → bool) l : Forall (λ x, p x = true) (span p l).1.
Proof.
  induction l as [|x l IH]; simpl; [done|]. destruct (p x) eqn:E; [|done].
  destruct (span p l). simpl in *. by constructor.
Qed.

Lemma strtoul_bound s : 0 ≤ strtoul s < 2 ^ 64.
Proof.
  unfold strtoul. destruct (span isspace s) as [? s1]. destruct (take_sign s1) as [neg s2].
  pose proof (span_forall isdigit s2) as H. destruct (span isdigit s2) as [ds ?].
  pose proof (digits_val_nonneg 0 ds ltac:(lia) H).
  destruct (ULONG_MAX <? _) eqn:E; [unfold ULONG_MAX; lia|].
  destruct neg; [apply u64_bound|]. unfold ULONG_MAX in *. lia.
Qed.

(** Printing a number and reading it back, whatever non-digit follows. *)
Lemma strtoul_print_dec n rest :
  0 ≤ n < 2 ^ 64 → (match rest with [] => True | c :: _ => isdigit c = false end) →
  strtoul (print_dec n ++ rest) = n.
Proof.
  intros Hn Hrest. destruct (print_dec_spec n Hn) as (Hne & Hd & Hv).
  unfold strtoul. destruct (print_dec n) as [|c ds] eqn:E; [done|].
  pose proof (Forall_inv Hd) as Hc. simpl in Hc.
  assert (span isspace ((c :: ds) ++ rest) = ([], (c :: ds) ++ rest)) as ->.
  { simpl. by rewrite isdigit_not_space. }
  destruct (isdigit_not_sign c Hc) as [H1 H2].
  assert (take_sign ((c :: ds) ++ rest) = (false, (c :: ds) ++ rest)) as ->.
  { simpl. by rewrite !decide_False. }
  rewrite (span_all isdigit (c :: ds) rest Hd Hrest), Hv.
  assert (ULONG_MAX <? n = false) as ->; [|done].
  apply Z.ltb_ge. unfold ULONG_MAX. lia.
Qed.
