(* ===== verification/Session.v ===== *)
(** * The NETCONF session

    Data of src/netconf.h, src/session.h and src/session_p.h: the enumerations
    the library uses and [struct nc_session], with the field accessors of
    src/session.c.  A union of the C structure is an inductive type
    ([transport]) or, for the side-dependent part [opts], a pair of records of
    which the one selected by [side] is used. *)

From S2P Require Import Prelude.
From Stdlib Require Import ZArith Ascii String Lia.
From stdpp Require Import base list strings gmap numbers.
Open Scope Z_scope.

Inductive NC_SESSION_TERM_REASON :=
| NC_SESSION_TERM_ERR
| NC_SESSION_TERM_NONE
| NC_SESSION_TERM_CLOSED
| NC_SESSION_TERM_KILLED
| NC_SESSION_TERM_DROPPED
| NC_SESSION_TERM_TIMEOUT
| NC_SESSION_TERM_BADHELLO
| NC_SESSION_TERM_OTHER.

Inductive NC_MSG_TYPE :=
| NC_MSG_ERROR
| NC_MSG_WOULDBLOCK
| NC_MSG_NONE
| NC_MSG_HELLO
| NC_MSG_BAD_HELLO
| NC_MSG_RPC
| NC_MSG_REPLY
| NC_MSG_REPLY_ERR_MSGID
| NC_MSG_NOTIF.

Inductive NC_STATUS :=
| NC_STATUS_ERR
| NC_STATUS_STARTING
| NC_STATUS_CLOSING
| NC_STATUS_INVALID
| NC_STATUS_RUNNING.

Inductive NC_SIDE := NC_CLIENT | NC_SERVER.
Inductive NC_VERSION := NC_VERSION_10 | NC_VERSION_11.

Inductive NC_WD_MODE :=
| NC_WD_UNKNOWN
| NC_WD_ALL
| NC_WD_ALL_TAG
| NC_WD_TRIM
| NC_WD_EXPLICIT.

Inductive NC_SSH_KEY_TYPE :=
| NC_SSH_KEY_UNKNOWN
| NC_SSH_KEY_DSA
| NC_SSH_KEY_RSA
| NC_SSH_KEY_ECDSA.

Inductive NC_TRANSPORT_IMPL :=
| NC_TI_NONE
| NC_TI_FD
| NC_TI_UNIX
| NC_TI_LIBSSH
| NC_TI_OPENSSL.

#[export] Instance NC_SESSION_TERM_REASON_eq_dec : EqDecision NC_SESSION_TERM_REASON.
Proof. solve_decision. Defined.
#[export] Instance NC_MSG_TYPE_eq_dec : EqDecision NC_MSG_TYPE.
Proof. solve_decision. Defined.
#[export] Instance NC_STATUS_eq_dec : EqDecision NC_STATUS.
Proof. solve_decision. Defined.
#[export] Instance NC_SIDE_eq_dec : EqDecision NC_SIDE.
Proof. solve_decision. Defined.
#[export] Instance NC_VERSION_eq_dec : EqDecision NC_VERSION.
Proof. solve_decision. Defined.
#[export] Instance NC_WD_MODE_eq_dec : EqDecision NC_WD_MODE.
Proof. solve_decision. Defined.
#[export] Instance NC_SSH_KEY_TYPE_eq_dec : EqDecision NC_SSH_KEY_TYPE.
Proof. solve_decision. Defined.
#[export] Instance NC_TRANSPORT_IMPL_eq_dec : EqDecision NC_TRANSPORT_IMPL.
Proof. solve_decision. Defined.

(** [ti_type] and the union [ti]; the libssh variant says whether the channel is
    set and holds the link of the ring of NETCONF sessions on one SSH session. *)
Inductive transport :=
| TiNone
| TiFd (fd_in fd_out : Z)
| TiUnix (sock : Z)
| TiLibssh (channel : bool) (next : option positive)
| TiOpenssl.

Definition ti_type_of (t : transport) : NC_TRANSPORT_IMPL :=
  match t with
  | TiNone => NC_TI_NONE
  | TiFd _ _ => NC_TI_FD
  | TiUnix _ => NC_TI_UNIX
  | TiLibssh _ _ => NC_TI_LIBSSH
  | TiOpenssl => NC_TI_OPENSSL
  end.

(** A received message kept for later ([struct nc_msg_cont]). *)
Record nc_msg_cont := MsgCont { mc_msg : bytes; mc_type : NC_MSG_TYPE }.

(** [opts.client]; [msgs_held] is the state of the mutex [msgs_lock]. *)
Record client_opts := ClientOpts {
  msgid : Z;
  cpblts : option (list bytes);
  msgs : list nc_msg_cont;
  msgs_held : bool;
  ntf_thread_count : Z;
  ntf_thread_running : Z;
}.

(** [opts.server] *)
Record server_opts := ServerOpts {
  session_start : Z;
  last_rpc : Z;
  ntf_status : Z;
  rpc_inuse : bool;
  ssh_auth_attempts : Z;
}.

(** [struct nc_session].  [io_lock] is the pointer to the input/output mutex:
    [None] for [NULL], otherwise whether the mutex is locked by the caller. *)
Record nc_session := Session {
  status : NC_STATUS;
  term_reason : NC_SESSION_TERM_REASON;
  killed_by : Z;
  side : NC_SIDE;
  id : Z;
  version : NC_VERSION;
  ti : transport;
  io_lock : option bool;
  username : option bytes;
  host : option bytes;
  port : Z;
  path : option bytes;
  flags : Z;
  client : client_opts;
  server : server_opts;
}.

Definition NC_SESSION_SHAREDCTX : Z := 0x01.
Definition NC_SESSION_CALLHOME : Z := 0x02.
Definition NC_SESSION_CH_THREAD : Z := 0x04.
Definition NC_SESSION_CLIENT_NOT_STRICT : Z := 0x08.
Definition NC_SESSION_SSH_AUTHENTICATED : Z := 0x10.
Definition NC_SESSION_SSH_SUBSYS_NETCONF : Z := 0x20.
Definition NC_SESSION_SSH_NEW_MSG : Z := 0x40.
Definition NC_SESSION_SSH_MSG_CB : Z := 0x80.

(** ** Field updates *)

Definition set_status (x : NC_STATUS) (s : nc_session) : nc_session :=
  Session x (term_reason s) (killed_by s) (side s) (id s) (version s) (ti s) (io_lock s)
    (username s) (host s) (port s) (path s) (flags s) (client s) (server s).

Definition set_term_reason (x : NC_SESSION_TERM_REASON) (s : nc_session) : nc_session :=
  Session (status s) x (killed_by s) (side s) (id s) (version s) (ti s) (io_lock s)
    (username s) (host s) (port s) (path s) (flags s) (client s) (server s).

Definition set_killed_by (x : Z) (s : nc_session) : nc_session :=
  Session (status s) (term_reason s) x (side s) (id s) (version s) (ti s) (io_lock s)
    (username s) (host s) (port s) (path s) (flags s) (client s) (server s).

Definition set_id (x : Z) (s : nc_session) : nc_session :=
  Session (status s) (term_reason s) (killed_by s) (side s) x (version s) (ti s) (io_lock s)
    (username s) (host s) (port s) (path s) (flags s) (client s) (server s).

Definition set_version (x : NC_VERSION) (s : nc_session) : nc_session :=
  Session (status s) (term_reason s) (killed_by s) (side s) (id s) x (ti s) (io_lock s)
    (username s) (host s) (port s) (path s) (flags s) (client s) (server s).

Definition set_io_lock (x : option bool) (s : nc_session) : nc_session :=
  Session (status s) (term_reason s) (killed_by s) (side s) (id s) (version s) (ti s) x
    (username s) (host s) (port s) (path s) (flags s) (client s) (server s).

Definition set_flags (x : Z) (s : nc_session) : nc_session :=
  Session (status s) (term_reason s) (killed_by s) (side s) (id s) (version s) (ti s) (io_lock s)
    (username s) (host s) (port s) (path s) x (client s) (server s).

Definition set_client (x : client_opts) (s : nc_session) : nc_session :=
  Session (status s) (term_reason s) (killed_by s) (side s) (id s) (version s) (ti s) (io_lock s)
    (username s) (host s) (port s) (path s) (flags s) x (server s).

Definition set_server (x : server_opts) (s : nc_session) : nc_session :=
  Session (status s) (term_reason s) (killed_by s) (side s) (id s) (version s) (ti s) (io_lock s)
    (username s) (host s) (port s) (path s) (flags s) (client s) x.

Definition set_msgid (x : Z) (s : nc_session) : nc_session :=
  set_client (ClientOpts x (cpblts (client s)) (msgs (client s)) (msgs_held (client s))
    (ntf_thread_count (client s)) (ntf_thread_running (client s))) s.

Definition set_cpblts (x : option (list bytes)) (s : nc_session) : nc_session :=
  set_client (ClientOpts (msgid (client s)) x (msgs (client s)) (msgs_held (client s))
    (ntf_thread_count (client s)) (ntf_thread_running (client s))) s.

Definition set_msgs (x : list nc_msg_cont) (s : nc_session) : nc_session :=
  set_client (ClientOpts (msgid (client s)) (cpblts (client s)) x (msgs_held (client s))
    (ntf_thread_count (client s)) (ntf_thread_running (client s))) s.

Definition set_msgs_held (x : bool) (s : nc_session) : nc_session :=
  set_client (ClientOpts (msgid (client s)) (cpblts (client s)) (msgs (client s)) x
    (ntf_thread_count (client s)) (ntf_thread_running (client s))) s.

Definition set_thread_running (x : Z) (s : nc_session) : nc_session :=
  set_client (ClientOpts (msgid (client s)) (cpblts (client s)) (msgs (client s)) (msgs_held (client s))
    (ntf_thread_count (client s)) x) s.

Definition set_thread_count (x : Z) (s : nc_session) : nc_session :=
  set_client (ClientOpts (msgid (client s)) (cpblts (client s)) (msgs (client s)) (msgs_held (client s))
    x (ntf_thread_running (client s))) s.

Definition set_last_rpc (x : Z) (s : nc_session) : nc_session :=
  set_server (ServerOpts (session_start (server s)) x (ntf_status (server s))
    (rpc_inuse (server s)) (ssh_auth_attempts (server s))) s.

Definition set_ntf_status (x : Z) (s : nc_session) : nc_session :=
  set_server (ServerOpts (session_start (server s)) (last_rpc (server s)) x
    (rpc_inuse (server s)) (ssh_auth_attempts (server s))) s.

Definition set_rpc_inuse (x : bool) (s : nc_session) : nc_session :=
  set_server (ServerOpts (session_start (server s)) (last_rpc (server s)) (ntf_status (server s))
    x (ssh_auth_attempts (server s))) s.

(** [session->status = NC_STATUS_INVALID; session->term_reason = reason]. *)
Definition invalidate (reason : NC_SESSION_TERM_REASON) (s : nc_session) : nc_session :=
  set_term_reason reason (set_status NC_STATUS_INVALID s).

(** The guard of every function that communicates on a session. *)
Definition status_ok (s : nc_session) : bool :=
  bool_decide (status s = NC_STATUS_RUNNING) || bool_decide (status s = NC_STATUS_STARTING).

(** ** Accessors of src/session.c

    A [NULL] session is [None]. *)

Definition nc_session_get_status (s : option nc_session) : NC_STATUS :=
  match s with None => NC_STATUS_ERR | Some s => status s end.

Definition nc_session_get_term_reason (s : option nc_session) : NC_SESSION_TERM_REASON :=
  match s with None => NC_SESSION_TERM_ERR | Some s => term_reason s end.

Definition nc_session_get_killed_by (s : option nc_session) : Z :=
  match s with None => 0 | Some s => killed_by s end.

Definition nc_session_get_id (s : option nc_session) : Z :=
  match s with None => 0 | Some s => id s end.

Definition nc_session_get_version (s : option nc_session) : Z :=
  match s with
  | None => -1
  | Some s => match version s with NC_VERSION_10 => 0 | NC_VERSION_11 => 1 end
  end.

Definition nc_session_get_ti (s : option nc_session) : NC_TRANSPORT_IMPL :=
  match s with None => NC_TI_NONE | Some s => ti_type_of (ti s) end.

Definition nc_session_get_username (s : option nc_session) : option bytes :=
  match s with None => None | Some s => username s end.

Definition nc_session_get_host (s : option nc_session) : option bytes :=
  match s with None => None | Some s => host s end.

Definition nc_session_get_path (s : option nc_session) : option bytes :=
  match s with
  | None => None
  | Some s =>
    match ti_type_of (ti s) with
    | NC_TI_UNIX => path s
    | _ => None
    end
  end.

Definition nc_session_get_port (s : option nc_session) : Z :=
  match s with None => 0 | Some s => port s end.

Definition nc_keytype2str (type : NC_SSH_KEY_TYPE) : option bytes :=
  match type with
  | NC_SSH_KEY_DSA => Some (str "DSA")
  | NC_SSH_KEY_RSA => Some (str "RSA")
  | NC_SSH_KEY_ECDSA => Some (str "EC")
  | NC_SSH_KEY_UNKNOWN => None
  end.

(** A session as [calloc] leaves it: every field is zero, so the status is
    STARTING, the version 1.0 and the transport NONE. *)
Definition zero_session : nc_session :=
  Session NC_STATUS_STARTING NC_SESSION_TERM_NONE 0 NC_CLIENT 0 NC_VERSION_10 TiNone None
    None None 0 None 0
    (ClientOpts 0 None [] false 0 0)
    (ServerOpts 0 0 0 false 0).

Definition set_side (x : NC_SIDE) (s : nc_session) : nc_session :=
  Session (status s) (term_reason s) (killed_by s) x (id s) (version s) (ti s) (io_lock s)
    (username s) (host s) (port s) (path s) (flags s) (client s) (server s).

Lemma status_ok_spec s :
  status_ok s = true ↔ status s = NC_STATUS_RUNNING ∨ status s = NC_STATUS_STARTING.
Proof. unfold status_ok. by rewrite orb_true_iff, !bool_decide_eq_true. Qed.

Lemma invalidate_not_ok r s : status_ok (invalidate r s) = false.
Proof. done. Qed.
#[export] Hint Rewrite invalidate_not_ok : nc.
