(* ===== verification/Env.v ===== *)
(** * The environment of the library

    What the operating system, libc, libssh and OpenSSL do is not code of the
    repository: it is a parameter of the model.  An environment is a state type
    [W] with one operation per external function the sources call, returning the
    documented results of that function and the environment's next state.  The
    laws the proofs rely on are separate classes; each states documented
    behaviour of the functions concerned. *)

From S2P Require Import Prelude.
From Stdlib Require Import ZArith Ascii String Lia.
From stdpp Require Import base list strings gmap numbers.
Open Scope Z_scope.

Record timespec := Timespec { tv_sec : Z; tv_nsec : Z }.

(** Time in nanoseconds. *)
Definition ts_ns (ts : timespec) : Z := tv_sec ts * 1000000000 + tv_nsec ts.

Definition ts_normal (ts : timespec) : Prop := 0 ≤ tv_nsec ts < 1000000000.

(** [read(fd, buf, n)]: bytes (never zero of them), end of file, or an errno. *)
Inductive rd_result :=
| RdData (bs : bytes)
| RdEof
| RdEagain
| RdEintr
| RdErrno.

(** [ssh_channel_read(..., n, 0)]: bytes, no bytes, [SSH_AGAIN], [SSH_ERROR]. *)
Inductive ssh_rd_result :=
| SshData (bs : bytes)
| SshNothing
| SshAgain
| SshError.

(** [SSL_read(ssl, buf, n)]: bytes, or the code of [SSL_get_error]. *)
Inductive ssl_error :=
| SSL_ERROR_WANT_READ
| SSL_ERROR_WANT_WRITE
| SSL_ERROR_ZERO_RETURN
| SSL_ERROR_SYSCALL
| SSL_ERROR_SSL
| SSL_ERROR_OTHER.

Inductive ssl_rd_result :=
| SslData (bs : bytes)
| SslFail (e : ssl_error).

(** [poll]: interrupted, failed, or [ret] with the flags of [revents]. *)
Inductive poll_result :=
| PollEintr
| PollErrno
| PollRet (ret : Z) (pollin pollhup pollerr pollnval : bool).

(** [ssh_channel_poll_timeout] *)
Inductive ssh_poll_result :=
| SshPollError
| SshPollEof
| SshPollRet (n : Z).

(** [write(fd, buf, n)]: the number of bytes taken, or an errno. *)
Inductive wr_result :=
| WrTook (n : Z)
| WrEagain
| WrEintr
| WrErrno.

(** [ssh_channel_write]: the number of bytes taken, or [SSH_ERROR]. *)
Inductive ssh_wr_result :=
| SshTook (n : Z)
| SshWrError.

(** [SSL_write]: the number of bytes taken (at least one), or an error code. *)
Inductive ssl_wr_result :=
| SslTook (n : Z)
| SslWrFail (e : ssl_error).

(** The mutexes and condition variables the sources name. *)
Inductive lock_name :=
| L_io
| L_msgs
| L_rpc
| L_ntf_status
| L_ps
| L_ch
| L_authkey.

(** Results of the pthread functions. *)
Definition EBUSY : Z := 16.
Definition ETIMEDOUT : Z := 110.
Definition EINVAL : Z := 22.

Class Env (W : Type) := {
  clock_mono : W → option timespec * W;
  clock_real : W → option timespec * W;
  usleep : Z → W → W;
  malloc_ok : Z → W → bool * W;
  sys_read : Z → Z → W → rd_result * W;
  ssh_channel_read : Z → W → ssh_rd_result * W;
  ssh_channel_is_eof : W → bool * W;
  ssh_channel_is_closed : W → bool * W;
  ssl_read : Z → W → ssl_rd_result * W;
  sys_poll : Z → Z → W → poll_result * W;
  ssh_channel_poll_timeout : Z → W → ssh_poll_result * W;
  ssh_is_connected : W → bool * W;
  ssl_pending : W → Z * W;
  ssl_get_fd : W → Z * W;
  sys_write : Z → bytes → W → wr_result * W;
  ssh_channel_write : bytes → W → ssh_wr_result * W;
  ssl_write : bytes → W → ssl_wr_result * W;
  ly_in_new_memory : bytes → W → bool * W;
  lyd_new_opaq2 : bytes → W → bool * W;
  mutex_lock : lock_name → W → Z * W;
  mutex_timedlock : lock_name → timespec → W → Z * W;
  mutex_trylock : lock_name → W → Z * W;
  mutex_unlock : lock_name → W → Z * W;
  cond_timedwait : lock_name → timespec → W → Z * W;
  cond_wait : lock_name → W → Z * W;
}.

(** An operation of the environment as a computation. *)
Definition call {W A} (f : W → A * W) : M W A := λ w, Done (f w).

(** The same on a state that pairs the environment with something else. *)
Definition on_env {S W A} (m : M W A) : M (S * W) A := λ s,
  match m s.2 with
  | Done (a, w') => Done (a, (s.1, w'))
  | NoFuel => NoFuel
  | Crash => Crash
  end.

Lemma wpx_on_env {S W A} F (m : M W A) (Q : A → S * W → Prop) s w :
  wpx F m (λ a w', Q a (s, w')) w → wpx F (on_env m) Q (s, w).
Proof. unfold wpx, on_env. simpl. by destruct (m w) as [[]| |]. Qed.

Lemma wpx_call {W A} F (f : W → A * W) (Q : A → W → Prop) w :
  Q (f w).1 (f w).2 → wpx F (call f) Q w.
Proof. unfold wpx, call. by destruct (f w). Qed.

(** ** Laws *)

(** Longest duration of one call other than a lock, in nanoseconds (2^28 ms,
    about three days): it keeps time differences within the 32-bit milliseconds
    of the code. *)
Definition DELTA : Z := 2 ^ 28 * 1000000.

(** An environment seen from one session: [inq] is what the peer has sent and
    the library has not read yet, [outq] is what the library has written,
    [now] is the monotonic time in nanoseconds. *)
Class EnvLaws (W : Type) `{!Env W} := {
  now : W → Z;
  inq : W → bytes;
  outq : W → bytes;
  clock_mono_law w : ∃ ts w', clock_mono w = (Some ts, w') ∧ ts_normal ts ∧
    now w ≤ ts_ns ts ≤ now w' ∧ now w' ≤ now w + DELTA ∧
    inq w' = inq w ∧ outq w' = outq w;
  clock_real_law w : ∃ ts w', clock_real w = (Some ts, w') ∧ ts_normal ts ∧
    now w ≤ now w' ≤ now w + DELTA ∧ inq w' = inq w ∧ outq w' = outq w;
  usleep_law n w : now w ≤ now (usleep n w) ≤ now w + DELTA ∧
    inq (usleep n w) = inq w ∧ outq (usleep n w) = outq w;
  malloc_law n w : now w ≤ now (malloc_ok n w).2 ≤ now w + DELTA ∧
    inq (malloc_ok n w).2 = inq w ∧ outq (malloc_ok n w).2 = outq w;
  malloc_huge n w : 2 ^ 63 ≤ n → (malloc_ok n w).1 = false;
  ly_in_law n w : now w ≤ now (ly_in_new_memory n w).2 ≤ now w + DELTA ∧
    inq (ly_in_new_memory n w).2 = inq w ∧ outq (ly_in_new_memory n w).2 = outq w;
  lyd_new_law n w : now w ≤ now (lyd_new_opaq2 n w).2 ∧
    inq (lyd_new_opaq2 n w).2 = inq w ∧ outq (lyd_new_opaq2 n w).2 = outq w;
  sys_read_law fd n w :
    let (r, w') := sys_read fd n w in
    now w < now w' ≤ now w + DELTA ∧ outq w' = outq w ∧
    match r with
    | RdData bs => 0 < zlen bs ≤ n ∧ inq w = bs ++ inq w'
    | _ => inq w' = inq w
    end;
  ssh_read_law n w :
    let (r, w') := ssh_channel_read n w in
    now w < now w' ≤ now w + DELTA ∧ outq w' = outq w ∧
    match r with
    | SshData bs => 0 < zlen bs ≤ n ∧ inq w = bs ++ inq w'
    | _ => inq w' = inq w
    end;
  ssl_read_law n w :
    let (r, w') := ssl_read n w in
    now w < now w' ≤ now w + DELTA ∧ outq w' = outq w ∧
    match r with
    | SslData bs => 0 < zlen bs ≤ n ∧ inq w = bs ++ inq w'
    | _ => inq w' = inq w
    end;
  ssh_eof_law w : now w ≤ now (ssh_channel_is_eof w).2 ≤ now w + DELTA ∧
    inq (ssh_channel_is_eof w).2 = inq w ∧ outq (ssh_channel_is_eof w).2 = outq w;
  ssh_closed_law w : now w ≤ now (ssh_channel_is_closed w).2 ≤ now w + DELTA ∧
    inq (ssh_channel_is_closed w).2 = inq w ∧ outq (ssh_channel_is_closed w).2 = outq w;
  poll_law fd t w : now w ≤ now (sys_poll fd t w).2 ∧
    inq (sys_poll fd t w).2 = inq w ∧ outq (sys_poll fd t w).2 = outq w;
  ssh_poll_law t w : now w ≤ now (ssh_channel_poll_timeout t w).2 ∧
    inq (ssh_channel_poll_timeout t w).2 = inq w ∧
    outq (ssh_channel_poll_timeout t w).2 = outq w;
  ssh_conn_law w : now w ≤ now (ssh_is_connected w).2 ∧
    inq (ssh_is_connected w).2 = inq w ∧ outq (ssh_is_connected w).2 = outq w;
  ssl_pending_law w : now w ≤ now (ssl_pending w).2 ∧
    inq (ssl_pending w).2 = inq w ∧ outq (ssl_pending w).2 = outq w;
  ssl_fd_law w : now w ≤ now (ssl_get_fd w).2 ∧
    inq (ssl_get_fd w).2 = inq w ∧ outq (ssl_get_fd w).2 = outq w;
  sys_write_law fd bs w :
    let (r, w') := sys_write fd bs w in
    now w ≤ now w' ∧ inq w' = inq w ∧
    match r with
    | WrTook n => 0 ≤ n ≤ zlen bs ∧ outq w' = outq w ++ ztake n bs
    | _ => outq w' = outq w
    end;
  ssh_write_law bs w :
    let (r, w') := ssh_channel_write bs w in
    now w ≤ now w' ∧ inq w' = inq w ∧
    match r with
    | SshTook n => 0 ≤ n ≤ zlen bs ∧ outq w' = outq w ++ ztake n bs
    | _ => outq w' = outq w
    end;
  ssl_write_law bs w :
    let (r, w') := ssl_write bs w in
    now w ≤ now w' ∧ inq w' = inq w ∧
    match r with
    | SslTook n => 0 < n ≤ zlen bs ∧ outq w' = outq w ++ ztake n bs
    | _ => outq w' = outq w
    end;
  lock_law l w : now w ≤ now (mutex_lock l w).2 ∧
    inq (mutex_lock l w).2 = inq w ∧ outq (mutex_lock l w).2 = outq w;
  timedlock_law l ts w : now w ≤ now (mutex_timedlock l ts w).2 ∧
    inq (mutex_timedlock l ts w).2 = inq w ∧ outq (mutex_timedlock l ts w).2 = outq w;
  trylock_law l w : now w ≤ now (mutex_trylock l w).2 ∧
    inq (mutex_trylock l w).2 = inq w ∧ outq (mutex_trylock l w).2 = outq w;
  unlock_law l w : now w ≤ now (mutex_unlock l w).2 ∧
    inq (mutex_unlock l w).2 = inq w ∧ outq (mutex_unlock l w).2 = outq w;
  unlock_ok l w : (mutex_unlock l w).1 = 0;
}.

(** A transport that works: data sent by the peer arrives without an error in
    between, data written is taken, the connection is up, allocations of up to
    2^32 bytes succeed and an uncontended mutex is acquired. *)
Class Reliable (W : Type) `{EL : EnvLaws W} := {
  rel_sys_read fd n w : 0 < n → inq w ≠ [] → ∃ bs, (sys_read fd n w).1 = RdData bs;
  rel_ssh_read n w : 0 < n → inq w ≠ [] → ∃ bs, (ssh_channel_read n w).1 = SshData bs;
  rel_ssl_read n w : 0 < n → inq w ≠ [] → ∃ bs, (ssl_read n w).1 = SslData bs;
  rel_malloc n w : 0 < n ≤ 2 ^ 32 → (malloc_ok n w).1 = true;
  rel_ly_in bs w : (ly_in_new_memory bs w).1 = true;
  rel_lyd_new bs w : (lyd_new_opaq2 bs w).1 = true;
  rel_sys_write fd bs w : bs ≠ [] → ∃ n, (sys_write fd bs w).1 = WrTook n ∧ 0 < n;
  rel_ssh_write bs w : bs ≠ [] → ∃ n, (ssh_channel_write bs w).1 = SshTook n ∧ 0 < n;
  rel_ssl_write bs w : bs ≠ [] → ∃ n, (ssl_write bs w).1 = SslTook n;
  rel_eof w : (ssh_channel_is_eof w).1 = false;
  rel_closed w : (ssh_channel_is_closed w).1 = false;
  rel_ssh_conn w : (ssh_is_connected w).1 = true;
  rel_ssl_fd w : 0 ≤ (ssl_get_fd w).1;
  rel_poll fd t w : ∃ ret i, (sys_poll fd t w).1 = PollRet ret i false false false ∧ 0 ≤ ret;
  rel_poll_in fd t w : inq w ≠ [] →
    ∃ ret, (sys_poll fd t w).1 = PollRet ret true false false false ∧ 0 < ret;
  rel_ssh_poll t w : inq w ≠ [] →
    ∃ n, (ssh_channel_poll_timeout t w).1 = SshPollRet n ∧ 0 < n;
  rel_lock l w : (mutex_lock l w).1 = 0;
  rel_timedlock l ts w : (mutex_timedlock l ts w).1 = 0;
  rel_trylock l w : (mutex_trylock l w).1 = 0;
}.
