(* ===== verification/Time.v ===== *)
(** * Time arithmetic

    The timeout helpers of src/session.c ([nc_gettimespec_real_add],
    [nc_gettimespec_mono_add], [nc_difftimespec_real_cur],
    [nc_difftimespec_mono_cur]) over the clocks of the environment.  A failing
    clock leaves the caller's structure uninitialised, which the callers read:
    it is a crash of the model. *)

From S2P Require Import Prelude Env.
From Stdlib Require Import ZArith Ascii String Lia.
From stdpp Require Import base list strings gmap numbers.
Open Scope Z_scope.

(** The common tail of the two [..._add] functions: add [msec] milliseconds and
    normalise the nanoseconds, between the two assertions of the code. *)
Definition timespec_in_range (ts : timespec) : bool :=
  (0 <=? tv_nsec ts) && (tv_nsec ts <? 1000000000).

Definition timespec_add {S} (ts : timespec) (msec : Z) : M S timespec :=
  if msec =? 0 then mret ts
  else
    _ ← guarded (timespec_in_range ts);
    let sec := tv_sec ts + msec / 1000 in
    let nsec := tv_nsec ts + (msec mod 1000) * 1000000 in
    let ts' :=
      if 1000000000 <=? nsec then Timespec (sec + 1) (nsec - 1000000000)
      else if nsec <? 0 then Timespec (sec - 1) (nsec + 1000000000)
      else Timespec sec nsec in
    _ ← guarded (timespec_in_range ts');
    mret ts'.

Section time.
Context {W : Type} `{!Env W}.

Definition nc_gettimespec_real_add (msec : Z) : M W timespec :=
  ts ← call clock_real;
  match ts with
  | None => crash
  | Some ts => timespec_add ts msec
  end.

Definition nc_gettimespec_mono_add (msec : Z) : M W timespec :=
  ts ← call clock_mono;
  match ts with
  | None => crash
  | Some ts => timespec_add ts msec
  end.

(** [nsec_diff / 1000000L] truncates toward zero and is converted to [int32_t]. *)
Definition timespec_diff_msec (ts cur : timespec) : Z :=
  i32 (Z.quot ((tv_sec ts - tv_sec cur) * 1000000000 + (tv_nsec ts - tv_nsec cur)) 1000000).

Definition nc_difftimespec_real_cur (ts : timespec) : M W Z :=
  cur ← nc_gettimespec_real_add 0;
  mret (timespec_diff_msec ts cur).

Definition nc_difftimespec_mono_cur (ts : timespec) : M W Z :=
  cur ← nc_gettimespec_mono_add 0;
  mret (timespec_diff_msec ts cur).
End time.

(** ** Properties *)

Lemma timespec_in_range_spec ts : timespec_in_range ts = true ↔ ts_normal ts.
Proof. unfold timespec_in_range, ts_normal. rewrite andb_true_iff. lia. Qed.

Lemma timespec_diff_ns ts cur :
  timespec_diff_msec ts cur = i32 (Z.quot (ts_ns ts - ts_ns cur) 1000000).
Proof. unfold timespec_diff_msec, ts_ns. do 2 f_equal. lia. Qed.

(** The sum is normalised and exact, and neither assertion fails. *)
Lemma timespec_add_spec {S} F (ts : timespec) msec (s : S) Q :
  ts_normal ts → 0 ≤ msec →
  (∀ ts', ts_normal ts' → ts_ns ts' = ts_ns ts + msec * 1000000 → Q ts' s) →
  wpx F (timespec_add ts msec) Q s.
Proof.
  intros Hts Hm HQ. unfold timespec_add. destruct (msec =? 0) eqn:E.
  { apply HQ; [done|]. lia. }
  wp_step. wp_step; [by apply timespec_in_range_spec|].
  unfold ts_normal, ts_ns in *.
  pose proof (Z.mod_pos_bound msec 1000). pose proof (Z.div_mod msec 1000).
  wp_step. wp_step.
  - apply timespec_in_range_spec. unfold ts_normal.
    destruct (_ <=? _) eqn:?; simpl; [lia|]. destruct (_ <? 0) eqn:?; simpl; lia.
  - apply wpx_ret, HQ; destruct (_ <=? _) eqn:?; simpl; try lia;
      destruct (_ <? 0) eqn:?; simpl; lia.
Qed.

(** A deadline set [msec] ahead is [msec] away at the instant it was set. *)
Lemma timespec_diff_add ts ts' msec :
  0 ≤ msec < 2 ^ 31 → ts_ns ts' = ts_ns ts + msec * 1000000 →
  timespec_diff_msec ts' ts = msec.
Proof.
  intros Hm E. rewrite timespec_diff_ns, E.
  replace (ts_ns ts + msec * 1000000 - ts_ns ts) with (msec * 1000000) by lia.
  rewrite Z.quot_mul by lia. apply i32_small. lia.
Qed.

(** A deadline less than 2^31 ms ahead has elapsed, by the code's test [< 1],
    exactly when less than one millisecond is left. *)
Lemma timespec_diff_elapsed ts cur :
  ts_ns ts - ts_ns cur < 2 ^ 31 * 1000000 →
  - 2 ^ 31 * 1000000 < ts_ns ts - ts_ns cur →
  timespec_diff_msec ts cur < 1 ↔ ts_ns ts - ts_ns cur < 1000000.
Proof.
  intros H1 H2. rewrite timespec_diff_ns.
  set (d := ts_ns ts - ts_ns cur) in *.
  destruct (decide (0 ≤ d)) as [Hd|Hd].
  - rewrite Z.quot_div_nonneg by lia.
    assert (0 ≤ d / 1000000 < 2 ^ 31).
    { split; [apply Z.div_pos; lia|apply Z.div_lt_upper_bound; lia]. }
    rewrite i32_small by lia. split; intros.
    + pose proof (Z.div_mod d 1000000). pose proof (Z.mod_pos_bound d 1000000). lia.
    + rewrite Z.div_small; lia.
  - assert (Hq : Z.quot d 1000000 = - ((- d) / 1000000)).
    { rewrite <- (Z.opp_involutive d) at 1. rewrite Z.quot_opp_l by lia.
      by rewrite Z.quot_div_nonneg by lia. }
    assert (0 ≤ (- d) / 1000000 < 2 ^ 31).
    { split; [apply Z.div_pos; lia|apply Z.div_lt_upper_bound; lia]. }
    rewrite Hq, i32_small by lia. lia.
Qed.
