(* ===== verification/Locks.v ===== *)
(** * Session construction and session locks

    [nc_new_session], the input/output lock and the client's message-queue lock
    of src/session.c.  A session mutex is a default pthread mutex: unlocking one
    the caller does not hold is undefined (a crash of the model), and locking one
    it already holds times out, or blocks for ever without a timeout. *)

From S2P Require Import Prelude Session Env Time.
From Stdlib Require Import ZArith Ascii String Lia.
From stdpp Require Import base list strings gmap numbers.
Open Scope Z_scope.

Inductive lock_kind := KLock | KTrylock | KTimedlock (abstime : timespec).

Section locks.
Context {W : Type} `{!Env W}.

(** State of a function that works on one session. *)
Abbreviation SM := (M (nc_session * W)).

Definition ses : SM nc_session := gets fst.
Definition upd_ses (f : nc_session → nc_session) : SM unit :=
  modify (λ s, (f s.1, s.2)).

Definition env {A} (m : M W A) : SM A := on_env m.
Definition envcall {A} (f : W → A * W) : SM A := on_env (call f).

(** The pthread call for a mutex whose current state is [held]. *)
Definition pthread_acquire (l : lock_name) (k : lock_kind) (held : option bool)
    (locked : SM unit) : SM Z :=
  match held with
  | None => crash
  | Some true =>
    match k with
    | KLock => no_fuel
    | KTrylock => mret EBUSY
    | KTimedlock _ => mret ETIMEDOUT
    end
  | Some false =>
    r ← envcall (match k with
                 | KLock => mutex_lock l
                 | KTrylock => mutex_trylock l
                 | KTimedlock ts => mutex_timedlock l ts
                 end);
    if r =? 0 then _ ← locked; mret r else mret r
  end.

(** [pthread_mutex_unlock]; the mutex is released when the call succeeds. *)
Definition pthread_release (l : lock_name) (held : option bool) (unlocked : SM unit) : SM Z :=
  match held with
  | Some true =>
    r ← envcall (mutex_unlock l);
    if r =? 0 then _ ← unlocked; mret r else mret r
  | _ => crash
  end.

(** The mapping of a pthread result to 1, 0 (timeout) or -1 (error). *)
Definition lock_ret (r : Z) : Z :=
  if r =? 0 then 1
  else if (r =? EBUSY) || (r =? ETIMEDOUT) then 0 else -1.

Definition nc_new_session (sd : NC_SIDE) (shared_ti : bool) : M W (option nc_session) :=
  ok ← call (malloc_ok 1);
  if negb ok then mret None
  else
    let sess := set_side sd zero_session in
    if shared_ti then mret (Some sess)
    else
      ok ← call (malloc_ok 1);
      if negb ok then mret None
      else mret (Some (set_io_lock (Some false) sess)).

Definition nc_session_io_lock (timeout : Z) : SM Z :=
  s ← ses;
  ret ←
    (if 0 <? timeout then
       ts ← env (nc_gettimespec_real_add timeout);
       pthread_acquire L_io (KTimedlock ts) (io_lock s) (upd_ses (set_io_lock (Some true)))
     else if timeout =? 0 then
       pthread_acquire L_io KTrylock (io_lock s) (upd_ses (set_io_lock (Some true)))
     else
       pthread_acquire L_io KLock (io_lock s) (upd_ses (set_io_lock (Some true))));
  mret (lock_ret ret).

Definition nc_session_io_unlock : SM Z :=
  s ← ses;
  ret ← pthread_release L_io (io_lock s) (upd_ses (set_io_lock (Some false)));
  if ret =? 0 then mret 1 else mret (-1).

(** Returns the result and the new value of [*timeout]. *)
Definition nc_session_client_msgs_lock (timeout : Z) : SM (Z * Z) :=
  s ← ses;
  _ ← guarded (bool_decide (side s = NC_CLIENT));
  let held := Some (msgs_held (client s)) in
  let locked := upd_ses (set_msgs_held true) in
  '(ret, timeout) ←
    (if 0 <? timeout then
       ts_start ← env (nc_gettimespec_real_add 0);
       ts_timeout ← env (nc_gettimespec_real_add timeout);
       ret ← pthread_acquire L_msgs (KTimedlock ts_timeout) held locked;
       if ret =? 0 then
         diff_msec ← env (nc_difftimespec_real_cur ts_start);
         mret (ret, timeout - diff_msec)
       else mret (ret, timeout)
     else if timeout =? 0 then
       ret ← pthread_acquire L_msgs KTrylock held locked;
       mret (ret, timeout)
     else
       ret ← pthread_acquire L_msgs KLock held locked;
       mret (ret, timeout));
  mret (lock_ret ret, timeout).

Definition nc_session_client_msgs_unlock : SM Z :=
  s ← ses;
  _ ← guarded (bool_decide (side s = NC_CLIENT));
  ret ← pthread_release L_msgs (Some (msgs_held (client s))) (upd_ses (set_msgs_held false));
  if ret =? 0 then mret 1 else mret (-1).
End locks.

Abbreviation SM W := (M (nc_session * W)).

(** ** Rules for environment calls and session locks

    Proof rules for the operations of [Env], [Time] and [Locks] under the laws
    of the environment, shared by the proofs about input and output. *)

Section laws.
Context {W : Type} `{EL : EnvLaws W}.
Implicit Types (s : nc_session) (w : W).

Lemma wpx_envcall {A} F (f : W → A * W) (Q : A → nc_session * W → Prop) s w :
  Q (f w).1 (s, (f w).2) → wpx F (envcall f) Q (s, w).
Proof. intros H. apply wpx_on_env, wpx_call, H. Qed.

Lemma wpx_ses F (Q : nc_session → nc_session * W → Prop) s w :
  Q s (s, w) → wpx F ses Q (s, w).
Proof. done. Qed.

Lemma wpx_upd_ses F f (Q : unit → nc_session * W → Prop) s w :
  Q tt (f s, w) → wpx F (upd_ses f) Q (s, w).
Proof. done. Qed.

(** The environment moved on without any traffic. *)
Definition quiet w w' : Prop :=
  now w ≤ now w' ≤ now w + DELTA ∧ inq w' = inq w ∧ outq w' = outq w.

Lemma wpx_mono_add F msec s w (Q : timespec → nc_session * W → Prop) :
  0 ≤ msec →
  (∀ ts w', ts_normal ts → now w + msec * 1000000 ≤ ts_ns ts ≤ now w' + msec * 1000000 →
     quiet w w' → Q ts (s, w')) →
  wpx F (env (nc_gettimespec_mono_add msec)) Q (s, w).
Proof.
  intros Hm HQ. apply wpx_on_env. unfold nc_gettimespec_mono_add. apply wpx_bind, wpx_call.
  destruct (clock_mono_law w) as (ts & w' & E & ? & ? & ? & ? & ?).
  rewrite E. simpl. apply timespec_add_spec; [done..|].
  intros ts' ? Hts. apply HQ; [done|lia|]. unfold quiet. repeat split; lia || done.
Qed.

Lemma wpx_real_add F msec s w (Q : timespec → nc_session * W → Prop) :
  0 ≤ msec → (∀ ts w', quiet w w' → Q ts (s, w')) →
  wpx F (env (nc_gettimespec_real_add msec)) Q (s, w).
Proof.
  intros Hm HQ. apply wpx_on_env. unfold nc_gettimespec_real_add. apply wpx_bind, wpx_call.
  destruct (clock_real_law w) as (ts & w' & E & ? & ? & ? & ?).
  rewrite E. simpl. apply timespec_add_spec; [done..|].
  intros ts' ? Hts. apply HQ. unfold quiet. repeat split; lia || done.
Qed.

Lemma wpx_mono_diff F ts s w (Q : Z → nc_session * W → Prop) :
  (∀ cur w', now w ≤ ts_ns cur ≤ now w' → quiet w w' → Q (timespec_diff_msec ts cur) (s, w')) →
  wpx F (env (nc_difftimespec_mono_cur ts)) Q (s, w).
Proof.
  intros HQ. apply wpx_on_env. unfold nc_difftimespec_mono_cur, nc_gettimespec_mono_add.
  apply wpx_bind, wpx_bind, wpx_call.
  destruct (clock_mono_law w) as (cur & w' & E & ? & ? & ? & ? & ?).
  rewrite E. simpl. unfold timespec_add. simpl. apply wpx_ret, wpx_ret, HQ; [lia|].
  unfold quiet. repeat split; lia || done.
Qed.

Lemma wpx_malloc F n s w (Q : bool → nc_session * W → Prop) :
  (∀ b w', quiet w w' → (2 ^ 63 ≤ n → b = false) → b = (malloc_ok n w).1 → Q b (s, w')) →
  wpx F (envcall (malloc_ok n)) Q (s, w).
Proof.
  intros HQ. apply wpx_envcall, HQ; [apply malloc_law|intros; by apply malloc_huge|done].
Qed.

Lemma quiet_refl w : quiet w w.
Proof. unfold quiet, DELTA. repeat split; lia || done. Qed.

(** Nothing was read or written meanwhile. *)
Definition no_traffic w w' : Prop :=
  now w ≤ now w' ∧ inq w' = inq w ∧ outq w' = outq w.

Lemma quiet_no_traffic w w' : quiet w w' → no_traffic w w'.
Proof. intros (? & ? & ?). repeat split; lia || done. Qed.

#[export] Instance no_traffic_preorder : PreOrder no_traffic.
Proof.
  unfold no_traffic. split; [intros w; repeat split; lia|].
  intros w1 w2 w3 (?&?&?) (?&?&?). repeat split; [lia|congruence..].
Qed.

(** ** Session locks *)

Lemma pthread_acquire_spec F l k (upd : nc_session → nc_session) s w :
  wpx F (pthread_acquire l k (Some false) (upd_ses upd))
    (λ r sw, no_traffic w sw.2 ∧ sw.1 = if r =? 0 then upd s else s) (s, w).
Proof.
  unfold pthread_acquire. apply wpx_bind, wpx_envcall.
  assert (no_traffic w (match k with
                 | KLock => mutex_lock l
                 | KTrylock => mutex_trylock l
                 | KTimedlock ts => mutex_timedlock l ts
                 end w).2) as Hw.
  { destruct k; [apply lock_law|apply trylock_law|apply timedlock_law]. }
  revert Hw. generalize (match k with
                 | KLock => mutex_lock l
                 | KTrylock => mutex_trylock l
                 | KTimedlock ts => mutex_timedlock l ts
                 end w). intros [r w'] Hw. simpl in *.
  destruct (r =? 0) eqn:E; unfold wpx; simpl; by rewrite E.
Qed.

Lemma lock_ret_cases r : lock_ret r = 1 ∧ r = 0 ∨ (lock_ret r = 0 ∨ lock_ret r = -1) ∧ r ≠ 0.
Proof.
  unfold lock_ret. destruct (r =? 0) eqn:E.
  - left. split; [done|lia].
  - right. split; [|lia]. destruct (_ || _); auto.
Qed.

Lemma nc_session_io_lock_spec F timeout s w :
  io_lock s = Some false →
  wpx F (nc_session_io_lock timeout)
    (λ r sw, no_traffic w sw.2 ∧
       ((r = 1 ∧ sw.1 = set_io_lock (Some true) s) ∨ ((r = 0 ∨ r = -1) ∧ sw.1 = s))) (s, w).
Proof.
  intros Hs. unfold nc_session_io_lock. apply wpx_bind, wpx_ses. rewrite Hs.
  apply wpx_bind.
  eapply wpx_mono with (Q := λ r sw, no_traffic w sw.2 ∧
    sw.1 = if r =? 0 then set_io_lock (Some true) s else s).
  - destruct (0 <? timeout) eqn:E; [|destruct (timeout =? 0); apply pthread_acquire_spec].
    apply wpx_bind, wpx_real_add; [lia|]. intros ts w1 Hq.
    eapply wpx_mono; [apply pthread_acquire_spec|]. intros r sw [H1 H2]. split; [|done].
    etrans; [by apply quiet_no_traffic|done].
  - intros r [s1 w1] [H1 H2]. apply wpx_ret. split; [done|]. simpl in *.
    destruct (lock_ret_cases r) as [[-> ->]|[H3 H4]]; [by left|right].
    split; [done|]. destruct (r =? 0) eqn:E; [lia|done].
Qed.

Lemma nc_session_io_unlock_spec F s w :
  io_lock s = Some true →
  wpx F nc_session_io_unlock
    (λ r sw, r = 1 ∧ no_traffic w sw.2 ∧ sw.1 = set_io_lock (Some false) s) (s, w).
Proof.
  intros Hs. unfold nc_session_io_unlock. apply wpx_bind, wpx_ses. rewrite Hs.
  unfold pthread_release. apply wpx_bind, wpx_bind, wpx_envcall.
  rewrite unlock_ok. simpl. apply wpx_bind, wpx_upd_ses, wpx_ret, wpx_ret. simpl.
  repeat split; apply unlock_law.
Qed.
End laws.

(** Facts proved for a session with its environment, about the environment. *)
Lemma wpx_on_env_inv {S W A} (s : S) F (m : M W A) (Q : A → W → Prop) w :
  wpx F (on_env m) (λ a sw, Q a sw.2) (s, w) → wpx F m Q w.
Proof. unfold wpx, on_env. simpl. by destruct (m w) as [[]| |]. Qed.
