(* ===== verification/Sim.v ===== *)
(** * A simulated environment

    One concrete environment that satisfies the laws: input and output streams,
    a clock, reads of at most three and writes of at most five bytes at a time.
    Theorems that assume an environment are evaluated on it.  [m0] says whether
    [malloc(0)] returns a pointer, as in glibc, or [NULL], and [up] whether writes
    succeed. *)

From S2P Require Import Prelude Session Env Time Locks.
From Stdlib Require Import ZArith Ascii String Lia.
From stdpp Require Import base list strings gmap numbers.
Open Scope Z_scope.

Record sim (m0 up : bool) := Sim {
  sim_in : bytes;
  sim_out : bytes;
  sim_now : Z;
}.
Arguments Sim {m0 up} sim_in sim_out sim_now.
Arguments sim_in {m0 up} s.
Arguments sim_out {m0 up} s.
Arguments sim_now {m0 up} s.

Definition ts_of (n : Z) : timespec := {| tv_sec := n / 1000000000; tv_nsec := n mod 1000000000 |}.

Section sim.
Context {m0 up : bool}.
Implicit Types w : sim m0 up.

Definition tick (n : Z) w : sim m0 up := Sim (sim_in w) (sim_out w) (sim_now w + n).

Definition sim_read (n : Z) w : bytes * sim m0 up :=
  let k := Z.min 3 n in
  (ztake k (sim_in w), Sim (zdrop k (sim_in w)) (sim_out w) (sim_now w + 1)).

Definition sim_write (bs : bytes) w : Z * sim m0 up :=
  let k := Z.min 5 (zlen bs) in
  (k, Sim (sim_in w) (sim_out w ++ ztake k bs) (sim_now w + 1)).

Definition sim_empty (n : Z) w : bool := (n <=? 0) || (zlen (sim_in w) =? 0).

#[export] Instance sim_env : Env (sim m0 up) := {
  clock_mono w := (Some (ts_of (sim_now w)), w);
  clock_real w := (Some (ts_of (sim_now w)), w);
  usleep n w := tick 100000 w;
  malloc_ok n w := ((if n =? 0 then m0 else true) && (n <? 2 ^ 63), w);
  sys_read fd n w :=
    if sim_empty n w then (RdEagain, tick 1 w) else let (bs, w') := sim_read n w in (RdData bs, w');
  ssh_channel_read n w :=
    if sim_empty n w then (SshAgain, tick 1 w) else let (bs, w') := sim_read n w in (SshData bs, w');
  ssh_channel_is_eof w := (false, w);
  ssh_channel_is_closed w := (false, w);
  ssl_read n w :=
    if sim_empty n w then (SslFail SSL_ERROR_WANT_READ, tick 1 w)
    else let (bs, w') := sim_read n w in (SslData bs, w');
  sys_poll fd t w :=
    if zlen (sim_in w) =? 0 then (PollRet 0 false false false false, w) else (PollRet 1 true false false false, w);
  ssh_channel_poll_timeout t w := (SshPollRet (zlen (sim_in w)), w);
  ssh_is_connected w := (true, w);
  ssl_pending w := (0, w);
  ssl_get_fd w := (3, w);
  sys_write fd bs w :=
    if up then let (n, w') := sim_write bs w in (WrTook n, w') else (WrErrno, w);
  ssh_channel_write bs w :=
    if up then let (n, w') := sim_write bs w in (SshTook n, w') else (SshWrError, w);
  ssl_write bs w :=
    if negb up || (zlen bs =? 0) then (SslWrFail SSL_ERROR_OTHER, w)
    else let (n, w') := sim_write bs w in (SslTook n, w');
  ly_in_new_memory bs w := (true, w);
  lyd_new_opaq2 bs w := (true, w);
  mutex_lock l w := (0, w);
  mutex_timedlock l ts w := (0, w);
  mutex_trylock l w := (0, w);
  mutex_unlock l w := (0, w);
  cond_timedwait l ts w := (0, w);
  cond_wait l w := (0, w);
}.

Lemma ts_of_normal n : ts_normal (ts_of n) ∧ ts_ns (ts_of n) = n.
Proof.
  unfold ts_normal, ts_ns, ts_of. simpl. pose proof (Z.mod_pos_bound n 1000000000).
  pose proof (Z.div_mod n 1000000000). lia.
Qed.

Lemma sim_read_spec n w :
  sim_empty n w = false →
  0 < zlen (sim_read n w).1 ≤ n ∧ sim_in w = (sim_read n w).1 ++ sim_in (sim_read n w).2.
Proof.
  unfold sim_empty, sim_read. intros E. apply orb_false_iff in E as [E1 E2].
  pose proof (zlen_nonneg (sim_in w)). cbn [fst snd sim_in]. rewrite ztake_zdrop. split; [|done].
  unfold ztake. unfold zlen in *. rewrite length_take. lia.
Qed.

Lemma sim_nonempty n w : 0 < n → sim_in w ≠ [] → sim_empty n w = false.
Proof.
  intros Hn Hi. unfold sim_empty. apply orb_false_iff. split; [lia|].
  apply Z.eqb_neq. intros E. by apply zlen_nil_inv in E.
Qed.

Lemma DELTA_pos : 100000 ≤ DELTA.
Proof. by vm_compute. Qed.

#[export] Instance sim_laws : EnvLaws (sim m0 up).
Proof.
  refine {| now := sim_now; inq := sim_in; outq := sim_out |}; pose proof DELTA_pos as HD.
  1, 2: intros w; destruct (ts_of_normal (sim_now w)) as [H1 H2]; exists (ts_of (sim_now w)), w;
    rewrite ?H2; repeat split; try done; try apply H1; lia.
  all: try (intros; simpl; repeat split; lia || done).
  - intros fd n w. simpl. destruct (sim_empty n w) eqn:E; simpl; [repeat split; lia|].
    destruct (sim_read_spec n w E) as [H1 H2]. repeat split; try lia; [apply H1|apply H1|apply H2].
  - intros n w. simpl. destruct (sim_empty n w) eqn:E; simpl; [repeat split; lia|].
    destruct (sim_read_spec n w E) as [H1 H2]. repeat split; try lia; [apply H1|apply H1|apply H2].
  - intros n w. simpl. destruct (sim_empty n w) eqn:E; simpl; [repeat split; lia|].
    destruct (sim_read_spec n w E) as [H1 H2]. repeat split; try lia; [apply H1|apply H1|apply H2].
  - intros fd t w. simpl. destruct (_ =? 0); simpl; repeat split; lia.
  - intros fd bs w. simpl. pose proof (zlen_nonneg bs). destruct up; simpl; repeat split; lia.
  - intros bs w. simpl. pose proof (zlen_nonneg bs). destruct up; simpl; repeat split; lia.
  - intros bs w. simpl. pose proof (zlen_nonneg bs).
    destruct up; simpl; [|repeat split; lia]. destruct (_ =? 0) eqn:E; simpl; repeat split; lia.
Defined.
End sim.

#[export] Instance sim_reliable {m0} : Reliable (sim m0 true).
Proof.
  split; try (intros; simpl; done).
  1-3: intros; simpl in *; rewrite sim_nonempty by done; simpl; eauto.
  all: intros; simpl.
  - replace (n =? 0) with false by lia. simpl. lia.
  - assert (zlen bs ≠ 0) by (intros E; by apply zlen_nil_inv in E). pose proof (zlen_nonneg bs).
    eexists. split; [done|]. lia.
  - assert (zlen bs ≠ 0) by (intros E; by apply zlen_nil_inv in E). pose proof (zlen_nonneg bs).
    eexists. split; [done|]. lia.
  - assert (zlen bs ≠ 0) by (intros E; by apply zlen_nil_inv in E).
    replace (_ =? 0) with false by lia. simpl. eauto.
  - destruct (_ =? 0); simpl; eauto with lia.
  - simpl in *. assert (zlen (sim_in w) ≠ 0) by (intros E; by apply zlen_nil_inv in E).
    replace (_ =? 0) with false by lia. exists 1. split; [done|lia].
  - simpl in *. assert (zlen (sim_in w) ≠ 0) by (intros E; by apply zlen_nil_inv in E).
    pose proof (zlen_nonneg (sim_in w)). eexists. split; [done|]. lia.
Qed.
