(* ===== verification/IoRead.v ===== *)
(** * Reading messages

    The receiving half of src/io.c: [nc_read], [nc_read_chunk], [nc_read_until],
    [nc_read_msg_io], [nc_read_poll], [nc_read_msg_poll_io] and
    [nc_session_is_connected].  Every buffer carries the number of bytes
    allocated for it ([room]); a write outside of it is a crash.  Loops take
    fuel; the termination theorems give the amount that is enough. *)

From S2P Require Import Prelude Session Env Time Locks.
From Stdlib Require Import ZArith Ascii String Lia.
From stdpp Require Import base list strings gmap numbers.
Open Scope Z_scope.

Definition BUFFERSIZE : Z := 512.
Definition NC_TIMEOUT_STEP : Z := 100.
Definition NC_READ_INACT_TIMEOUT : Z := 20.
Definition NC_READ_ACT_TIMEOUT : Z := 300.
Definition NC_VERSION_10_ENDTAG : bytes := str "]]>]]>".
Definition NC_VERSION_10_ENDTAG_LEN : Z := 6.

Definition nl : ascii := ascii_of_N 10.
Definition hash : ascii := "#"%char.

(** A NUL-terminated view of a buffer. *)
Definition cstr (l : bytes) : bytes := (span (λ c, negb (bool_decide (c = ascii_of_N 0))) l).1.

(** What one iteration of the loop of [nc_read] got from the transport: a value
    to return, or the bytes read (none: nothing available yet). *)
Inductive rd_step :=
| StepRet (r : Z)
| StepGot (bs : bytes) (interrupted : bool).

Section read.
Context {W : Type} `{!Env W}.

Definition fail_with (reason : NC_SESSION_TERM_REASON) : SM W rd_step :=
  _ ← upd_ses (invalidate reason);
  mret (StepRet (-1)).

(** The [switch (session->ti_type)] of [nc_read], [left] bytes being wanted. *)
Definition nc_read_switch (left : Z) : SM W rd_step :=
  s ← ses;
  match ti s with
  | TiNone => mret (StepRet 0)
  | TiFd fd _ | TiUnix fd =>
    r ← envcall (sys_read fd left);
    match r with
    | RdData bs => mret (StepGot bs false)
    | RdEagain => mret (StepGot [] false)
    | RdEintr => mret (StepGot [] true)
    | RdErrno => fail_with NC_SESSION_TERM_OTHER
    | RdEof => fail_with NC_SESSION_TERM_DROPPED
    end
  | TiLibssh _ _ =>
    r ← envcall (ssh_channel_read (u32 left));
    match r with
    | SshAgain => mret (StepGot [] false)
    | SshError => fail_with NC_SESSION_TERM_OTHER
    | SshNothing =>
      eof ← envcall ssh_channel_is_eof;
      if eof : bool then fail_with NC_SESSION_TERM_DROPPED else mret (StepGot [] false)
    | SshData bs => mret (StepGot bs false)
    end
  | TiOpenssl =>
    r ← envcall (ssl_read (i32 left));
    match r with
    | SslData bs => mret (StepGot bs false)
    | SslFail SSL_ERROR_WANT_READ | SslFail SSL_ERROR_WANT_WRITE => mret (StepGot [] false)
    | SslFail SSL_ERROR_ZERO_RETURN => fail_with NC_SESSION_TERM_DROPPED
    | SslFail SSL_ERROR_SYSCALL => fail_with NC_SESSION_TERM_OTHER
    | SslFail SSL_ERROR_SSL => fail_with NC_SESSION_TERM_OTHER
    | SslFail SSL_ERROR_OTHER => fail_with NC_SESSION_TERM_OTHER
    end
  end.

(** Nothing was read: wait a step and test the two timeouts. *)
Definition nc_read_elapsed (interrupted : bool) (ts_inact ts_act : timespec) : SM W bool :=
  _ ← (if interrupted then mret tt else envcall (λ w, (tt, usleep NC_TIMEOUT_STEP w)));
  d ← env (nc_difftimespec_mono_cur ts_inact);
  if d <? 1 then mret true
  else
    d ← env (nc_difftimespec_mono_cur ts_act);
    mret (d <? 1).

(** The [do ... while] loop of [nc_read]; [acc] is what the buffer holds. *)
Fixpoint nc_read_loop (fuel : nat) (count inact_timeout : Z) (ts_inact ts_act : timespec)
    (room : Z) (acc : bytes) : SM W (Z * bytes) :=
  match fuel with
  | O => no_fuel
  | S fuel =>
    st ← nc_read_switch (count - zlen acc);
    match st with
    | StepRet r => mret (r, acc)
    | StepGot [] interrupted =>
      elapsed ← nc_read_elapsed interrupted ts_inact ts_act;
      if elapsed : bool then
        _ ← env (nc_difftimespec_mono_cur ts_inact);
        _ ← upd_ses (invalidate NC_SESSION_TERM_OTHER);
        mret (-1, acc)
      else nc_read_loop fuel count inact_timeout ts_inact ts_act room acc
    | StepGot bs _ =>
      let acc := acc ++ bs in
      _ ← guarded (zlen acc <=? room);
      ts_inact ← env (nc_gettimespec_mono_add inact_timeout);
      if zlen acc <? count then
        nc_read_loop fuel count inact_timeout ts_inact ts_act room acc
      else
        _ ← guarded (count <? room);
        mret (zlen acc, acc)
    end
  end.

Definition nc_read (fuel : nat) (count inact_timeout : Z) (ts_act : timespec) (room : Z)
    : SM W (Z * bytes) :=
  s ← ses;
  if negb (status_ok s) then mret (-1, [])
  else if count =? 0 then mret (0, [])
  else
    ts_inact ← env (nc_gettimespec_mono_add inact_timeout);
    nc_read_loop fuel count inact_timeout ts_inact ts_act room [].

Definition nc_read_chunk (fuel : nat) (len inact_timeout : Z) (ts_act : timespec)
    : SM W (Z * bytes) :=
  if len =? 0 then mret (0, [])
  else
    let room := u64 (len + 1) in
    ok ← envcall (malloc_ok room);
    if negb ok then mret (-1, [])
    else
      '(r, chunk) ← nc_read fuel len inact_timeout ts_act room;
      if r <=? 0 then mret (-1, [])
      else
        _ ← guarded (r <? room);
        mret (r, chunk).

(** The [for] loop of [nc_read_until] that looks for the longest usable part of
    the end tag at the end of what was read, starting with length [i]. *)
Fixpoint match_endtag (endtag chunk : bytes) (i matched : nat) : nat :=
  match i with
  | O => matched
  | S i' =>
    if bool_decide (take i (drop matched endtag) = take i (drop (length chunk - i) chunk))
    then (matched + i)%nat
    else match_endtag endtag chunk i' 0
  end.

Fixpoint nc_read_until_loop (fuel fuel_rd : nat) (endtag : bytes) (limit inact_timeout : Z)
    (ts_act : timespec) (size : Z) (matched : nat) (chunk : bytes) : SM W (Z * bytes) :=
  match fuel with
  | O => no_fuel
  | S fuel =>
    let count := zlen chunk in
    let want := zlen endtag - Z.of_nat matched in
    if negb (limit =? 0) && (count =? limit) then mret (-1, [])
    else
      let grow := size <=? count + want in
      let size := if grow then size + BUFFERSIZE else size in
      ok ← (if grow then envcall (malloc_ok (size + 1)) else mret true);
      if negb ok then mret (-1, [])
      else
        '(r, bs) ← nc_read fuel_rd want inact_timeout ts_act (size + 1 - count);
        if negb (r =? want) then mret (-1, [])
        else
          let chunk := chunk ++ bs in
          let matched := match_endtag endtag chunk (length endtag - matched) matched in
          if (matched =? length endtag)%nat then
            _ ← guarded (zlen chunk <? size + 1);
            mret (zlen chunk, chunk)
          else nc_read_until_loop fuel fuel_rd endtag limit inact_timeout ts_act size matched chunk
  end.

Definition nc_read_until (fuel : nat) (endtag : bytes) (limit inact_timeout : Z)
    (ts_act : timespec) : SM W (Z * bytes) :=
  let size := if negb (limit =? 0) && (limit <? BUFFERSIZE) then limit else BUFFERSIZE in
  ok ← envcall (malloc_ok (size + 1));
  if negb ok then mret (-1, [])
  else nc_read_until_loop fuel fuel endtag limit inact_timeout ts_act size 0 [].

(** The chunked framing loop of [nc_read_msg_io]; the result is the value of
    [ret] and the data collected. *)
Fixpoint nc_read_chunks (fuel fuel_rd : nat) (inact_timeout : Z) (ts_act : timespec)
    (data : option bytes) : SM W (Z * bytes) :=
  match fuel with
  | O => no_fuel
  | S fuel =>
    '(r, _) ← nc_read_until fuel_rd (nl :: [hash]) 0 inact_timeout ts_act;
    if i32 r =? -1 then mret (-1, [])
    else
      '(r, chunk) ← nc_read_until fuel_rd [nl] 0 inact_timeout ts_act;
      if i32 r =? -1 then mret (-1, [])
      else if strcmp_eq (cstr chunk) (hash :: [nl]) then
        match data with
        | None => mret (-2, [])
        | Some data => mret (1, data)
        end
      else
        let chunk_len := strtoul (cstr chunk) in
        if chunk_len =? 0 then mret (-2, [])
        else
          '(r, chunk) ← nc_read_chunk fuel_rd chunk_len inact_timeout ts_act;
          if i32 r =? -1 then mret (-1, [])
          else
            let old := default [] data in
            let room := u64 (zlen old + chunk_len + 1) in
            ok ← envcall (malloc_ok room);
            if negb ok then mret (-1, [])
            else
              _ ← guarded (zlen old + chunk_len <? room);
              nc_read_chunks fuel fuel_rd inact_timeout ts_act (Some (old ++ chunk))
  end.

(** Reading one framed message, the [switch (session->version)] part. *)
Definition nc_read_framed (fuel : nat) (inact_timeout : Z) (ts_act : timespec)
    : SM W (Z * bytes) :=
  s ← ses;
  match version s with
  | NC_VERSION_10 =>
    '(r, data) ← nc_read_until fuel NC_VERSION_10_ENDTAG 0 inact_timeout ts_act;
    let r := i32 r in
    if r =? -1 then mret (-1, [])
    else
      _ ← guarded (0 <=? r - NC_VERSION_10_ENDTAG_LEN);
      mret (1, ztake (r - NC_VERSION_10_ENDTAG_LEN) data)
  | NC_VERSION_11 => nc_read_chunks fuel fuel inact_timeout ts_act None
  end.

Definition nc_read_msg_io (fuel : nat) (io_timeout : Z) (passing_io_lock : bool)
    : SM W (Z * option bytes) :=
  let cleanup (io_locked : bool) (ret : Z) : SM W (Z * option bytes) :=
    _ ← (if io_locked then _ ← nc_session_io_unlock; mret tt else mret tt);
    mret (ret, None) in
  s ← ses;
  if negb (status_ok s) then cleanup passing_io_lock (-1)
  else
    ts_act ← env (nc_gettimespec_mono_add (NC_READ_ACT_TIMEOUT * 1000));
    lck ← (if passing_io_lock then mret 1 else nc_session_io_lock io_timeout);
    if lck <? 1 then cleanup false lck
    else
      '(ret, data) ← nc_read_framed fuel (NC_READ_INACT_TIMEOUT * 1000) ts_act;
      if negb (ret =? 1) then cleanup true ret
      else
        _ ← nc_session_io_unlock;
        ok ← envcall (ly_in_new_memory (cstr data));
        if negb ok then cleanup false (-1)
        else mret (1, Some (cstr data)).

(** The common end of [nc_read_poll]: errors and hang-ups invalidate the session. *)
Definition nc_read_poll_result (p : poll_result) : SM W Z :=
  match p with
  | PollEintr | PollErrno =>
    _ ← upd_ses (invalidate NC_SESSION_TERM_OTHER); mret (-1)
  | PollRet ret pollin pollhup pollerr _ =>
    if ret <? 0 then _ ← upd_ses (invalidate NC_SESSION_TERM_OTHER); mret (-1)
    else if pollerr then _ ← upd_ses (invalidate NC_SESSION_TERM_OTHER); mret (-1)
    else if pollhup && negb pollin then
      _ ← upd_ses (invalidate NC_SESSION_TERM_DROPPED); mret (-1)
    else mret ret
  end.

Definition nc_read_poll (io_timeout : Z) : SM W Z :=
  s ← ses;
  if negb (status_ok s) then mret (-1)
  else
    match ti s with
    | TiLibssh _ _ =>
      r ← envcall (ssh_channel_poll_timeout io_timeout);
      match r with
      | SshPollError => _ ← upd_ses (invalidate NC_SESSION_TERM_OTHER); mret (-1)
      | SshPollEof => _ ← upd_ses (invalidate NC_SESSION_TERM_DROPPED); mret (-1)
      | SshPollRet n =>
        if 0 <? n then nc_read_poll_result (PollRet 1 true false false false)
        else nc_read_poll_result (PollRet n false false false false)
      end
    | TiOpenssl =>
      pend ← envcall ssl_pending;
      if negb (pend =? 0) then nc_read_poll_result (PollRet 1 true false false false)
      else
        fd ← envcall ssl_get_fd;
        r ← envcall (sys_poll fd io_timeout);
        nc_read_poll_result r
    | TiFd fd _ | TiUnix fd =>
      r ← envcall (sys_poll fd io_timeout);
      nc_read_poll_result r
    | TiNone => mret (-1)
    end.

Definition nc_read_msg_poll_io (fuel : nat) (io_timeout : Z) : SM W (Z * option bytes) :=
  s ← ses;
  if negb (status_ok s) then mret (-1, None)
  else
    ret ← nc_session_io_lock io_timeout;
    if ret <? 1 then mret (ret, None)
    else
      ret ← nc_read_poll io_timeout;
      if ret <? 1 then
        _ ← nc_session_io_unlock;
        mret (ret, None)
      else nc_read_msg_io fuel io_timeout true.

(** The [poll] loop of [nc_session_is_connected], repeated while interrupted. *)
Fixpoint poll_retry (fuel : nat) (fd : Z) : SM W bool :=
  match fuel with
  | O => no_fuel
  | S fuel =>
    r ← envcall (sys_poll fd 0);
    match r with
    | PollEintr => poll_retry fuel fd
    | PollErrno => mret false
    | PollRet ret _ pollhup pollerr _ =>
      if ret =? -1 then mret false
      else mret (negb ((0 <? ret) && (pollhup || pollerr)))
    end
  end.

Definition nc_session_is_connected (fuel : nat) : SM W bool :=
  s ← ses;
  match ti s with
  | TiNone => mret false
  | TiLibssh _ _ => envcall ssh_is_connected
  | TiFd fd _ | TiUnix fd => if fd =? -1 then mret false else poll_retry fuel fd
  | TiOpenssl =>
    fd ← envcall ssl_get_fd;
    if fd =? -1 then mret false else poll_retry fuel fd
  end.
End read.
