(* ===== verification/IoReadProofs.v ===== *)
(** * Proofs about reading

    Specifications of the functions of [IoRead] under the laws of the
    environment: what is read is what the peer sent, in order; failures
    invalidate the session; buffers are never overrun; every loop ends. *)

From S2P Require Import Prelude Session Env Time Locks IoRead.
From Stdlib Require Import ZArith Ascii String Lia.
From stdpp Require Import base list strings gmap numbers.
Open Scope Z_scope.

Section laws.
Context {W : Type} `{EL : EnvLaws W}.
Implicit Types (s : nc_session) (w : W).

(** ** [nc_read] *)

(** How the session and the environment look after the transport was asked for
    [left] bytes. *)
Definition step_post left s w (st : rd_step) (sw : nc_session * W) : Prop :=
  outq sw.2 = outq w ∧
  match st with
  | StepRet r =>
    inq sw.2 = inq w ∧
    ((r = 0 ∧ ti s = TiNone ∧ sw.1 = s) ∨ (r = -1 ∧ ∃ reason, sw.1 = invalidate reason s))
  | StepGot bs _ =>
    sw.1 = s ∧ zlen bs ≤ left ∧ inq w = bs ++ inq sw.2 ∧ now w < now sw.2 ≤ now w + 2 * DELTA
  end.

Lemma u32_le z : 0 ≤ z → u32 z ≤ z.
Proof. intros. apply Z.mod_le; lia. Qed.

Lemma i32_le z : 0 ≤ z → i32 z ≤ z.
Proof. intros. unfold i32. pose proof (Z.mod_le (z + 2 ^ 31) (2 ^ 32)). lia. Qed.

Ltac step_tac H :=
  unfold wpx, step_post; simpl; rewrite ?H; change (zlen (@nil ascii)) with 0 in *;
  destruct_and?; repeat split; eauto; try congruence; try lia.

Lemma nc_read_switch_spec F left s w :
  0 ≤ left → wpx F (nc_read_switch left) (step_post left s w) (s, w).
Proof.
  intros Hl. unfold nc_read_switch, fail_with. apply wpx_bind, wpx_ses.
  pose proof (u32_le left Hl). pose proof (i32_le left Hl).
  assert (0 < DELTA) by (unfold DELTA; lia).
  destruct (ti s) eqn:Et.
  - apply wpx_ret. split; [done|]. split; [done|]. by left.
  - apply wpx_bind, wpx_envcall. pose proof (sys_read_law fd_in left w) as L.
    destruct (sys_read fd_in left w) as [r w']. simpl. destruct L as (L1 & L2 & L3).
    destruct r; by step_tac L3.
  - apply wpx_bind, wpx_envcall. pose proof (sys_read_law sock left w) as L.
    destruct (sys_read sock left w) as [r w']. simpl. destruct L as (L1 & L2 & L3).
    destruct r; by step_tac L3.
  - apply wpx_bind, wpx_envcall. pose proof (ssh_read_law (u32 left) w) as L.
    destruct (ssh_channel_read (u32 left) w) as [r w']. simpl. destruct L as (L1 & L2 & L3).
    destruct r; [by step_tac L3| |
                 by step_tac L3..].
    apply wpx_bind, wpx_envcall. destruct (ssh_eof_law w') as (E1 & E2 & E3).
    destruct (ssh_channel_is_eof w') as [b w'']. simpl in *.
    destruct b; rewrite ?L3 in E2; by step_tac E2.
  - apply wpx_bind, wpx_envcall. pose proof (ssl_read_law (i32 left) w) as L.
    destruct (ssl_read (i32 left) w) as [r w']. simpl. destruct L as (L1 & L2 & L3).
    destruct r as [|[]]; by step_tac L3.
Qed.

(** Fuel that is enough to read from [w]: every byte may be preceded by one
    iteration per nanosecond of the inactivity timeout. *)
Definition rd_bound (inact : Z) w : Z := (zlen (inq w) + 1) * (inact * 1000000 + 2) + 1.

Lemma nc_read_elapsed_spec F intr ts_inact ts_act inact s w0 w :
  now w0 < now w ≤ now w0 + 2 * DELTA →
  - 3 * DELTA ≤ ts_ns ts_inact - now w0 ≤ inact * 1000000 → inact * 1000000 ≤ DELTA →
  wpx F (nc_read_elapsed intr ts_inact ts_act)
    (λ b sw, sw.1 = s ∧ inq sw.2 = inq w ∧ outq sw.2 = outq w ∧ now w ≤ now sw.2 ∧
       (b = false → now w0 < ts_ns ts_inact ∧ - 3 * DELTA ≤ ts_ns ts_inact - now sw.2)) (s, w).
Proof.
  intros Hw Ht Hi. unfold nc_read_elapsed.
  assert (D1 : 0 < DELTA) by (unfold DELTA; lia).
  assert (D2 : 8 * DELTA = 2 ^ 31 * 1000000) by (unfold DELTA; lia).
  apply wpx_bind. eapply wpx_mono with (Q := λ _ sw, sw.1 = s ∧ quiet w sw.2).
  { destruct intr; [split; [done|apply quiet_refl]|].
    apply wpx_envcall. simpl. split; [done|]. apply usleep_law. }
  intros _ [s1 w1] [E1 Q1]. simpl in E1, Q1. subst s1. unfold quiet in Q1.
  apply wpx_bind, wpx_mono_diff. intros cur w2 Hcur Q2. unfold quiet in Q2.
  pose proof (timespec_diff_elapsed ts_inact cur) as Hel.
  destruct (timespec_diff_msec ts_inact cur <? 1) eqn:E.
  - apply wpx_ret. simpl. destruct Q1 as (? & -> & ->) in Q2 |- *.
    destruct Q2 as (? & -> & ->). repeat split; lia || done.
  - apply Z.ltb_ge in E. apply wpx_bind, wpx_mono_diff. intros cur' w3 _ Q3.
    unfold quiet in Q3. apply wpx_ret. simpl.
    assert (¬ ts_ns ts_inact - ts_ns cur < 1000000).
    { intros Hlt. apply Hel in Hlt; lia. }
    destruct Q1 as (? & Ei & Eo), Q2 as (? & Ei2 & Eo2), Q3 as (? & -> & ->).
    rewrite Ei2, Eo2. repeat split; try done; intros; lia.
Qed.

Lemma nc_read_loop_spec F fuel count inact ts_inact ts_act room acc s w :
  0 ≤ inact → inact * 1000000 ≤ DELTA → zlen acc < count < room →
  - 3 * DELTA ≤ ts_ns ts_inact - now w ≤ inact * 1000000 →
  (F ∨ zlen (inq w) * (inact * 1000000 + 2) + Z.max 0 (ts_ns ts_inact - now w) < Z.of_nat fuel) →
  wpx F (nc_read_loop fuel count inact ts_inact ts_act room acc)
    (λ rb sw, outq sw.2 = outq w ∧ ∃ got, inq w = got ++ inq sw.2 ∧
       ((rb.1 = count ∧ rb.2 = acc ++ got ∧ zlen rb.2 = count ∧ sw.1 = s) ∨
        (rb.1 = -1 ∧ ∃ reason, sw.1 = invalidate reason s) ∨
        (rb.1 = 0 ∧ ti s = TiNone ∧ sw.1 = s))) (s, w).
Proof.
  intros Hi HiD. revert ts_inact acc w.
  assert (D1 : 0 < DELTA) by (unfold DELTA; lia).
  induction fuel as [|fuel IH]; intros ts_inact acc w Hc Ht Hf; cbn [nc_read_loop].
  { apply wpx_no_fuel. destruct Hf as [|Hf]; [done|]. pose proof (zlen_nonneg (inq w)). lia. }
  apply wpx_bind. eapply wpx_mono; [apply nc_read_switch_spec; lia|].
  intros st [s1 w1] [Ho Hst]. simpl in *. destruct st as [r|bs intr].
  { destruct Hst as [Hin Hr]. apply wpx_ret. split; [done|]. exists []. simpl.
    split; [done|]. destruct Hr as [(->&?&->)|(->&?)]; eauto. }
  destruct Hst as (-> & Hbs & Hin & Hnow). destruct bs as [|b bs].
  - apply wpx_bind. eapply wpx_mono; [by eapply nc_read_elapsed_spec|].
    intros [] [s2 w2] (Es & Hi2 & Ho2 & Hn2 & Hb); simpl in *; subst s2.
    + apply wpx_bind, wpx_mono_diff. intros _ w3 _ (_ & Hi3 & Ho3).
      apply wpx_bind, wpx_upd_ses, wpx_ret. simpl.
      split; [congruence|]. exists []. simpl. split; [congruence|]. eauto.
    + destruct (Hb eq_refl) as [Hb1 Hb2]. rewrite Hin, <- Hi2, <- Ho, <- Ho2.
      apply IH; [done|lia|]. destruct Hf as [?|Hf]; [by left|right].
      rewrite Hi2, <- Hin. lia.
  - cbv zeta. set (l := b :: bs) in *.
    assert (Hl : 0 < zlen l) by (unfold l; rewrite zlen_cons; pose proof (zlen_nonneg bs); lia).
    apply wpx_bind, wpx_guarded; [apply Z.leb_le; rewrite zlen_app; lia|].
    apply wpx_bind, wpx_mono_add; [done|]. intros ts w2 _ Hts (Hq & Hi2 & Ho2).
    pose proof (zlen_app acc l) as Hz.
    destruct (zlen (acc ++ l) <? count) eqn:E.
    + apply Z.ltb_lt in E. eapply wpx_mono; [apply IH|].
      * lia.
      * lia.
      * destruct Hf as [?|Hf]; [by left|right]. rewrite Hi2.
        apply (f_equal zlen) in Hin. rewrite zlen_app in Hin.
        pose proof (zlen_nonneg (inq w1)). nia.
      * intros [r bs'] [s3 w3] (Ho3 & got & Hg & Hr). simpl in *.
        split; [congruence|]. exists (l ++ got). rewrite <- app_assoc, <- Hg, Hi2.
        split; [done|]. by rewrite app_assoc.
    + apply Z.ltb_ge in E. apply wpx_bind, wpx_guarded; [apply Z.ltb_lt; lia|].
      apply wpx_ret. simpl. split; [congruence|]. exists l. rewrite Hi2.
      split; [done|]. left. repeat split; lia || done.
Qed.

Lemma nc_read_spec F fuel count inact ts_act room s w :
  0 ≤ count < room → 0 ≤ inact → inact * 1000000 ≤ DELTA →
  (F ∨ rd_bound inact w ≤ Z.of_nat fuel) →
  wpx F (nc_read fuel count inact ts_act room)
    (λ rb sw, outq sw.2 = outq w ∧ ∃ got, inq w = got ++ inq sw.2 ∧
       ((rb.1 = count ∧ rb.2 = got ∧ zlen got = count ∧ sw.1 = s) ∨
        (rb.1 = -1 ∧ ((sw.1 = s ∧ got = [] ∧ status_ok s = false) ∨
                      ∃ reason, sw.1 = invalidate reason s)) ∨
        (rb.1 = 0 ∧ ti s = TiNone ∧ sw.1 = s))) (s, w).
Proof.
  intros Hc Hi HiD Hf. unfold nc_read. apply wpx_bind, wpx_ses.
  destruct (status_ok s) eqn:Es; simpl.
  2: { apply wpx_ret. simpl. split; [done|]. exists []. eauto 10. }
  destruct (count =? 0) eqn:Ec.
  { apply wpx_ret. simpl. split; [done|]. exists []. apply Z.eqb_eq in Ec.
    split; [done|]. left. by subst. }
  apply Z.eqb_neq in Ec. apply wpx_bind, wpx_mono_add; [done|].
  intros ts w1 _ Hts (Hq & Hi1 & Ho1). rewrite <- Hi1, <- Ho1.
  eapply wpx_mono; [apply nc_read_loop_spec|]; [done..| | | |].
  - change (zlen (@nil ascii)) with 0. lia.
  - lia.
  - destruct Hf as [?|Hf]; [by left|right]. unfold rd_bound in Hf.
    rewrite Hi1. lia.
  - intros [r bs] [s2 w2] (Ho2 & got & Hg & Hr). simpl in *.
    split; [done|]. exists got. split; [done|].
    destruct Hr as [(->&->&?&->)|[(->&?)|?]]; eauto 10.
Qed.

(** ** [nc_read_chunk] and [nc_read_until] *)

(** [malloc(0)] returns [NULL], one of the two behaviours the C standard allows. *)
Definition malloc0_null : Prop := ∀ w, (malloc_ok 0 w).1 = false.

Lemma nc_read_chunk_spec F fuel len inact ts_act s w :
  0 ≤ len < 2 ^ 64 → 0 ≤ inact → inact * 1000000 ≤ DELTA →
  (malloc0_null ∨ len ≠ ULONG_MAX) →
  (F ∨ rd_bound inact w ≤ Z.of_nat fuel) →
  wpx F (nc_read_chunk fuel len inact ts_act)
    (λ rb sw, outq sw.2 = outq w ∧ ∃ got, inq w = got ++ inq sw.2 ∧
       ((rb.1 = len ∧ rb.2 = got ∧ zlen got = len ∧ sw.1 = s) ∨
        (rb.1 = -1 ∧ (sw.1 = s ∨ ∃ reason, sw.1 = invalidate reason s)))) (s, w).
Proof.
  intros Hl Hi HiD Hm Hf. unfold nc_read_chunk. destruct (len =? 0) eqn:E.
  { apply Z.eqb_eq in E. subst. apply wpx_ret. split; [done|]. exists []. split; [done|]. left. eauto. }
  apply Z.eqb_neq in E. apply wpx_bind, wpx_malloc. intros b w1 (Hq & Hi1 & Ho1) Hh Hb.
  destruct b; simpl.
  2: { apply wpx_ret. split; [done|]. exists []. simpl. rewrite ?Hi1. eauto. }
  assert (Hlen : len ≠ ULONG_MAX).
  { destruct Hm as [Hm|Hm]; [|done]. intros ->. specialize (Hm w).
    change (u64 (ULONG_MAX + 1)) with 0 in Hb. congruence. }
  assert (Hroom : u64 (len + 1) = len + 1).
  { apply u64_small. unfold ULONG_MAX in *. lia. }
  rewrite Hroom. apply wpx_bind.
  eapply wpx_mono; [apply nc_read_spec; [lia|done|done|]|].
  { destruct Hf as [?|Hf]; [by left|right]. unfold rd_bound in *. by rewrite Hi1. }
  intros [r bs] [s2 w2] (Ho2 & got & Hg & Hr). simpl in *. rewrite Hi1 in Hg.
  destruct Hr as [(-> & -> & Hz & ->)|[(-> & Hr)|(-> & Hr)]].
  - destruct (len <=? 0) eqn:E2; [lia|]. apply wpx_bind, wpx_guarded; [apply Z.ltb_lt; lia|].
    apply wpx_ret. simpl. split; [congruence|]. exists got. eauto 10.
  - simpl. apply wpx_ret. simpl. split; [congruence|]. exists got. split; [done|]. right.
    destruct Hr as [(->&_)|?]; eauto.
  - simpl. apply wpx_ret. simpl. split; [congruence|]. exists got. split; [done|]. right.
    destruct Hr as [_ ->]; eauto.
Qed.

Lemma match_endtag_0 endtag chunk i :
  (i ≤ length endtag)%nat → (i ≤ length chunk)%nat →
  let m := match_endtag endtag chunk i 0 in
  (m ≤ i)%nat ∧ drop (length chunk - m) chunk = take m endtag ∧
  (∀ j, (m < j ≤ i)%nat → drop (length chunk - j) chunk ≠ take j endtag).
Proof.
  intros He Hc. induction i as [|i IH]; cbn [match_endtag].
  { split; [lia|]. split; [|lia]. rewrite Nat.sub_0_r, drop_all. done. }
  rewrite drop_0. rewrite (take_ge (drop _ chunk)) by (rewrite length_drop; lia).
  case_bool_decide as E; cbn [Nat.add].
  - repeat split; [lia|done|lia].
  - destruct IH as (IH1 & IH2 & IH3); [lia..|]. split; [lia|]. split; [done|].
    intros j Hj. destruct (decide (j = S i)) as [->|]; [intros H; by apply E|]. apply IH3. lia.
Qed.

(** After a round of [nc_read_until]: [matched] bytes of the tag end the data,
    and a full match means the data ends with the whole tag. *)
Lemma match_endtag_round endtag chunk bs matched :
  (matched < length endtag)%nat → take matched endtag `suffix_of` chunk →
  length bs = (length endtag - matched)%nat →
  let m := match_endtag endtag (chunk ++ bs) (length endtag - matched) matched in
  take m endtag `suffix_of` chunk ++ bs ∧ (m ≤ length endtag)%nat.
Proof.
  intros Hm [k ->] Hb m. subst m.
  destruct (length endtag - matched)%nat as [|i] eqn:Ei; [lia|]. cbn [match_endtag].
  assert (E : (length ((k ++ take matched endtag) ++ bs) - S i)%nat = length (k ++ take matched endtag)).
  { rewrite !length_app. lia. }
  rewrite E, drop_app_length, (take_ge bs) by lia.
  case_bool_decide as E2.
  - rewrite take_ge in E2 by (rewrite length_drop; lia). split; [|lia].
    rewrite take_ge by lia. exists k. by rewrite <- app_assoc, <- E2, take_drop.
  - destruct (match_endtag_0 endtag ((k ++ take matched endtag) ++ bs) i) as (H1 & H2 & _).
    { lia. } { rewrite !length_app. lia. }
    split; [|lia]. rewrite <- H2. eexists. symmetry. apply take_drop.
Qed.

Lemma nc_read_until_loop_spec F fuel fuel_rd endtag limit inact ts_act size matched chunk s w :
  0 ≤ inact → inact * 1000000 ≤ DELTA → zlen endtag ≤ BUFFERSIZE →
  (matched < length endtag)%nat → take matched endtag `suffix_of` chunk → zlen chunk ≤ size →
  (F ∨ (zlen (inq w) < Z.of_nat fuel ∧ rd_bound inact w ≤ Z.of_nat fuel_rd)) →
  wpx F (nc_read_until_loop fuel fuel_rd endtag limit inact ts_act size matched chunk)
    (λ rb sw, outq sw.2 = outq w ∧ ∃ got, inq w = got ++ inq sw.2 ∧
       ((rb.2 = chunk ++ got ∧ rb.1 = zlen rb.2 ∧ endtag `suffix_of` rb.2 ∧ sw.1 = s) ∨
        (rb.1 = -1 ∧ (sw.1 = s ∨ ∃ reason, sw.1 = invalidate reason s)))) (s, w).
Proof.
  intros Hi HiD Hbs. revert size matched chunk w.
  induction fuel as [|fuel IH]; intros size matched chunk w Hm Hsuf Hsz Hf;
    cbn [nc_read_until_loop].
  { apply wpx_no_fuel. destruct Hf as [?|[Hf _]]; [done|]. pose proof (zlen_nonneg (inq w)). lia. }
  set (want := zlen endtag - Z.of_nat matched).
  assert (Hw : 0 < want ≤ BUFFERSIZE) by (unfold want, zlen in *; lia).
  destruct (negb (limit =? 0) && _).
  { apply wpx_ret. split; [done|]. exists []. simpl. eauto. }
  set (grow := size <=? zlen chunk + want).
  set (size' := if grow then size + BUFFERSIZE else size).
  assert (Hs' : zlen chunk + want ≤ size').
  { unfold size', grow. destruct (_ <=? _) eqn:E; lia. }
  apply wpx_bind. eapply wpx_mono with (Q := λ (_ : bool) sw, sw.1 = s ∧ quiet w sw.2).
  { destruct grow; [|split; [done|apply quiet_refl]].
    apply wpx_malloc. intros. by split. }
  intros ok [s1 w1] [E1 (Hq & Hi1 & Ho1)]. simpl in *. subst s1. destruct ok; simpl.
  2: { apply wpx_ret. split; [done|]. exists []. simpl. rewrite ?Hi1. eauto. }
  apply wpx_bind. eapply wpx_mono; [apply nc_read_spec; [lia|done|done|]|].
  { destruct Hf as [?|[_ Hf]]; [by left|right]. unfold rd_bound in *. by rewrite Hi1. }
  intros [r bs] [s2 w2] (Ho2 & got & Hg & Hr). simpl in *. rewrite Hi1 in Hg.
  destruct (r =? want) eqn:Er; simpl.
  2: { apply Z.eqb_neq in Er. apply wpx_ret. split; [simpl; congruence|]. exists got.
       split; [done|]. right. split; [done|]. simpl.
       destruct Hr as [(?&_)|[(_ & [(->&_)|?])|(_&_&->)]]; [lia|eauto..]. }
  apply Z.eqb_eq in Er. subst r.
  destruct Hr as [(_ & -> & Hz & ->)|[(?&_)|(?&_)]]; [|lia|lia].
  assert (Hlen : length got = (length endtag - matched)%nat) by (unfold want, zlen in Hz; lia).
  pose proof (match_endtag_round endtag chunk got matched Hm Hsuf Hlen) as [Hs Hle].
  set (m := match_endtag endtag (chunk ++ got) (length endtag - matched) matched) in *.
  destruct (m =? length endtag)%nat eqn:Em.
  - apply Nat.eqb_eq in Em. apply wpx_bind, wpx_guarded.
    { apply Z.ltb_lt. rewrite zlen_app. lia. }
    apply wpx_ret. split; [simpl; congruence|]. exists got. split; [done|]. left.
    simpl. repeat split; try done. by rewrite Em, take_ge in Hs by lia.
  - apply Nat.eqb_neq in Em. eapply wpx_mono; [apply IH|].
    + lia.
    + done.
    + rewrite zlen_app. lia.
    + destruct Hf as [?|[Hf1 Hf2]]; [by left|right].
      apply (f_equal zlen) in Hg. rewrite zlen_app in Hg. unfold rd_bound in *. split; [lia|].
      etrans; [|exact Hf2]. apply Z.add_le_mono_r, Z.mul_le_mono_nonneg_r; lia.
    + intros [r' bs'] [s3 w3] (Ho3 & got' & Hg' & Hr'). simpl in *.
      split; [congruence|]. exists (got ++ got'). rewrite <- app_assoc, <- Hg'.
      split; [done|]. by rewrite app_assoc.
Qed.

Lemma nc_read_until_spec F fuel endtag limit inact ts_act s w :
  0 ≤ limit → 0 ≤ inact → inact * 1000000 ≤ DELTA → 0 < zlen endtag ≤ BUFFERSIZE →
  (F ∨ rd_bound inact w ≤ Z.of_nat fuel) →
  wpx F (nc_read_until fuel endtag limit inact ts_act)
    (λ rb sw, outq sw.2 = outq w ∧ ∃ got, inq w = got ++ inq sw.2 ∧
       ((rb = (zlen got, got) ∧ endtag `suffix_of` got ∧ sw.1 = s) ∨
        (rb.1 = -1 ∧ (sw.1 = s ∨ ∃ reason, sw.1 = invalidate reason s)))) (s, w).
Proof.
  intros Hl Hi HiD He Hf. unfold nc_read_until. apply wpx_bind, wpx_malloc.
  intros b w1 (Hq & Hi1 & Ho1) _ _. destruct b; simpl.
  2: { apply wpx_ret. split; [done|]. exists []. simpl. rewrite ?Hi1. eauto. }
  eapply wpx_mono; [apply nc_read_until_loop_spec|].
  - done.
  - done.
  - lia.
  - unfold zlen in He. lia.
  - by exists [].
  - change (zlen (@nil ascii)) with 0. unfold BUFFERSIZE. destruct (_ && _); lia.
  - destruct Hf as [?|Hf]; [by left|right]. unfold rd_bound in *. rewrite Hi1.
    split; [|done]. pose proof (zlen_nonneg (inq w)). nia.
  - intros [r bs] [s2 w2] (Ho2 & got & Hg & Hr). simpl in *.
    split; [congruence|]. exists got. split; [congruence|].
    destruct Hr as [(->&->&?&->)|?]; [left; eauto|right; eauto].
Qed.

(** ** [nc_read_msg_io] *)

(** No chunk header in the stream denotes [ULONG_MAX]. *)
Definition sane_chunks (l : bytes) : Prop :=
  ∀ pre h post, l = pre ++ nl :: hash :: h ++ nl :: post →
    strtoul (cstr (h ++ [nl])) ≠ ULONG_MAX.

Lemma sane_chunks_app got rest : sane_chunks (got ++ rest) → sane_chunks rest.
Proof.
  intros H pre h post ->. apply (H (got ++ pre) h post). by rewrite <- app_assoc.
Qed.

Lemma rd_bound_mono inact w w' got :
  0 ≤ inact → inq w = got ++ inq w' → rd_bound inact w' ≤ rd_bound inact w.
Proof.
  intros Hi E. unfold rd_bound. rewrite E, zlen_app. pose proof (zlen_nonneg got). nia.
Qed.

Lemma suffix_nonempty (a b : bytes) : a `suffix_of` b → zlen a ≤ zlen b.
Proof. intros [k ->]. rewrite zlen_app. pose proof (zlen_nonneg k). lia. Qed.

Lemma nc_read_chunks_spec F fuel fuel_rd inact ts_act data s w :
  0 ≤ inact → inact * 1000000 ≤ DELTA →
  zlen (default [] data) + zlen (inq w) < 2 ^ 31 →
  (malloc0_null ∨ sane_chunks (inq w)) →
  (F ∨ (zlen (inq w) < Z.of_nat fuel ∧ rd_bound inact w ≤ Z.of_nat fuel_rd)) →
  wpx F (nc_read_chunks fuel fuel_rd inact ts_act data)
    (λ rb sw, outq sw.2 = outq w ∧ ∃ got, inq w = got ++ inq sw.2 ∧
       ((rb.1 = 1 ∧ sw.1 = s) ∨ (rb.1 = -2 ∧ sw.1 = s) ∨
        (rb.1 = -1 ∧ (sw.1 = s ∨ ∃ reason, sw.1 = invalidate reason s)))) (s, w).
Proof.
  intros Hi HiD. revert data w.
  induction fuel as [|fuel IH]; intros data w Hlen Hsane Hf; cbn [nc_read_chunks].
  { apply wpx_no_fuel. destruct Hf as [?|[Hf _]]; [done|]. pose proof (zlen_nonneg (inq w)). lia. }
  assert (Hdata : 0 ≤ zlen (default [] data)) by apply zlen_nonneg.
  apply wpx_bind. eapply wpx_mono; [apply nc_read_until_spec; try done|].
  { tauto. }
  intros [r bs] [s1 w1] (Ho1 & g1 & Hg1 & Hr1). simpl in *.
  pose proof (f_equal zlen Hg1) as Hz1. rewrite zlen_app in Hz1.
  pose proof (zlen_nonneg g1). pose proof (zlen_nonneg (inq w1)).
  destruct Hr1 as [([= -> ->] & Hs1 & ->)|(-> & Hr1)].
  2: { simpl. apply wpx_ret. simpl. split; [done|]. exists g1. eauto 10. }
  rewrite i32_small by lia. destruct (zlen g1 =? -1) eqn:E1; [lia|].
  apply wpx_bind. eapply wpx_mono; [apply nc_read_until_spec; try done|].
  { destruct Hf as [?|[_ Hf]]; [by left|right]. etrans; [exact (rd_bound_mono _ _ _ _ Hi Hg1)|done]. }
  intros [r bs] [s2 w2] (Ho2 & g2 & Hg2 & Hr2). simpl in *.
  pose proof (f_equal zlen Hg2) as Hz2. rewrite zlen_app in Hz2.
  pose proof (zlen_nonneg g2). pose proof (zlen_nonneg (inq w2)).
  rewrite Hg2, app_assoc in Hg1.
  destruct Hr2 as [([= -> ->] & Hs2 & ->)|(-> & Hr2)].
  2: { simpl. apply wpx_ret. simpl. split; [congruence|]. exists (g1 ++ g2). eauto 10. }
  rewrite i32_small by lia. destruct (zlen g2 =? -1) eqn:E2; [lia|].
  destruct (strcmp_eq _ _).
  { destruct data; apply wpx_ret; simpl; (split; [congruence|]); exists (g1 ++ g2); eauto 10. }
  destruct (_ =? 0) eqn:E3.
  { apply wpx_ret; simpl; (split; [congruence|]); exists (g1 ++ g2); eauto 10. }
  set (n := strtoul (cstr g2)) in *. assert (Hn : 0 ≤ n < 2 ^ 64) by apply strtoul_bound.
  apply wpx_bind. eapply wpx_mono; [apply nc_read_chunk_spec; try done|].
  { destruct Hsane as [?|Hsane]; [by left|right].
    destruct Hs1 as [k1 ->], Hs2 as [k2 ->]. apply (Hsane k1 k2 (inq w2)).
    rewrite Hg1, <- !app_assoc. done. }
  { destruct Hf as [?|[_ Hf]]; [by left|right]. etrans; [exact (rd_bound_mono _ _ _ _ Hi Hg1)|done]. }
  intros [r bs] [s3 w3] (Ho3 & g3 & Hg3 & Hr3). simpl in *.
  pose proof (f_equal zlen Hg3) as Hz3. rewrite zlen_app in Hz3.
  pose proof (zlen_nonneg g3). pose proof (zlen_nonneg (inq w3)).
  rewrite Hg3, app_assoc in Hg1.
  destruct Hr3 as [(-> & -> & Hz & ->)|(-> & Hr3)].
  2: { simpl. apply wpx_ret. simpl. split; [congruence|]. exists ((g1 ++ g2) ++ g3). eauto 10. }
  rewrite i32_small by lia. destruct (n =? -1) eqn:E4; [lia|].
  apply wpx_bind, wpx_malloc. intros b w4 (_ & Hi4 & Ho4) _ _. destruct b; simpl.
  2: { apply wpx_ret. split; [simpl; congruence|]. exists ((g1 ++ g2) ++ g3).
       rewrite <- Hi4 in Hg1. eauto 10. }
  rewrite u64_small by lia. apply wpx_bind, wpx_guarded; [apply Z.ltb_lt; lia|].
  eapply wpx_mono; [apply IH|].
  - simpl. rewrite zlen_app, Hi4. lia.
  - rewrite Hi4. destruct Hsane as [?|Hsane]; [by left|right].
    rewrite Hg1 in Hsane. by eapply sane_chunks_app.
  - destruct Hf as [?|[Hf1 Hf2]]; [by left|right]. rewrite Hi4. split.
    + apply suffix_nonempty in Hs1. change (zlen (nl :: [hash])) with 2 in Hs1. lia.
    + unfold rd_bound. rewrite Hi4. etrans; [exact (rd_bound_mono _ _ _ _ Hi Hg1)|done].
  - intros [r bs] [s5 w5] (Ho5 & g5 & Hg5 & Hr5). simpl in *.
    split; [congruence|]. exists (((g1 ++ g2) ++ g3) ++ g5).
    rewrite Hi4 in Hg5. rewrite <- app_assoc, <- Hg5. done.
Qed.

Lemma nc_read_framed_spec F fuel inact ts_act s w :
  0 ≤ inact → inact * 1000000 ≤ DELTA → zlen (inq w) < 2 ^ 31 →
  (malloc0_null ∨ sane_chunks (inq w)) → (F ∨ rd_bound inact w ≤ Z.of_nat fuel) →
  wpx F (nc_read_framed fuel inact ts_act)
    (λ rb sw, outq sw.2 = outq w ∧ ∃ got, inq w = got ++ inq sw.2 ∧
       ((rb.1 = 1 ∧ sw.1 = s) ∨ (rb.1 = -2 ∧ sw.1 = s) ∨
        (rb.1 = -1 ∧ (sw.1 = s ∨ ∃ reason, sw.1 = invalidate reason s)))) (s, w).
Proof.
  intros Hi HiD Hlen Hsane Hf. unfold nc_read_framed. apply wpx_bind, wpx_ses.
  destruct (version s).
  - apply wpx_bind. eapply wpx_mono; [by apply nc_read_until_spec|].
    intros [r bs] [s1 w1] (Ho1 & g1 & Hg1 & Hr1). simpl in *.
    pose proof (f_equal zlen Hg1) as Hz1. rewrite zlen_app in Hz1.
    pose proof (zlen_nonneg g1). pose proof (zlen_nonneg (inq w1)).
    destruct Hr1 as [([= -> ->] & Hs1 & ->)|(-> & Hr1)].
    + rewrite i32_small by lia. destruct (zlen g1 =? -1) eqn:E1; [lia|].
      apply suffix_nonempty in Hs1. change (zlen NC_VERSION_10_ENDTAG) with 6 in Hs1.
      apply wpx_bind, wpx_guarded; [apply Z.leb_le; unfold NC_VERSION_10_ENDTAG_LEN; lia|].
      apply wpx_ret. simpl. eauto 10.
    + simpl. apply wpx_ret. simpl. split; [done|]. exists g1. eauto 10.
  - apply nc_read_chunks_spec; try done.
    destruct Hf as [?|Hf]; [by left|right]. split; [|done]. unfold rd_bound in Hf.
    pose proof (zlen_nonneg (inq w)). nia.
Qed.

(** How a reading function leaves the session: untouched, or invalidated. *)
Definition kept_or_invalid s s' : Prop := s' = s ∨ ∃ reason, s' = invalidate reason s.

Lemma set_io_lock_invalidate l r s :
  set_io_lock l (invalidate r s) = invalidate r (set_io_lock l s).
Proof. done. Qed.

Lemma set_io_lock_twice a b s : set_io_lock a (set_io_lock b s) = set_io_lock a s.
Proof. done. Qed.

Lemma set_io_lock_id s l : io_lock s = l → set_io_lock l s = s.
Proof. by intros <-; destruct s. Qed.

(** Result of reading a message: the lock is released, nothing was written, and
    a message is returned exactly with 1. *)
Definition read_msg_post s w (rm : Z * option bytes) (sw : nc_session * W) : Prop :=
  io_lock sw.1 = Some false ∧ outq sw.2 = outq w ∧ (∃ got, inq w = got ++ inq sw.2) ∧
  ((rm.1 = 1 ∧ is_Some rm.2 ∧ sw.1 = set_io_lock (Some false) s) ∨
   ((rm.1 = 0 ∨ rm.1 = -1 ∨ rm.1 = -2) ∧ rm.2 = None ∧
    kept_or_invalid (set_io_lock (Some false) s) sw.1)).

Lemma nc_read_msg_io_spec F fuel timeout (passing : bool) s w :
  io_lock s = Some passing → zlen (inq w) < 2 ^ 31 →
  (malloc0_null ∨ sane_chunks (inq w)) →
  (F ∨ rd_bound (NC_READ_INACT_TIMEOUT * 1000) w ≤ Z.of_nat fuel) →
  wpx F (nc_read_msg_io fuel timeout passing) (read_msg_post s w) (s, w).
Proof.
  intros Hlk Hlen Hsane Hf. unfold nc_read_msg_io.
  (* the cleanup code *)
  assert (Hclean : ∀ (io_locked : bool) ret s1 w1,
    io_lock s1 = Some io_locked → kept_or_invalid (set_io_lock (Some io_locked) s) s1 →
    outq w1 = outq w → (∃ got, inq w = got ++ inq w1) → (ret = 0 ∨ ret = -1 ∨ ret = -2) →
    wpx F (_ ← (if io_locked then _ ← nc_session_io_unlock; mret tt else mret tt);
           mret (ret, None)) (read_msg_post s w) (s1, w1)).
  { intros io_locked ret s1 w1 L1 K1 O1 [got G1] R1. apply wpx_bind. destruct io_locked.
    - apply wpx_bind. eapply wpx_mono; [by apply nc_session_io_unlock_spec|].
      intros r [s2 w2] (_ & (_ & Hi2 & Ho2) & Es). simpl in *. subst s2.
      unfold wpx, read_msg_post; simpl. repeat split; [congruence|exists got; congruence|].
      right. repeat split; [done|]. destruct K1 as [->|[r' ->]]; [by left|right; by exists r'].
    - unfold wpx, read_msg_post; simpl. repeat split; [done..|by exists got|]. right. done. }
  apply wpx_bind, wpx_ses. destruct (status_ok s) eqn:Es; simpl.
  2: { apply (Hclean passing); [done| |done|by exists []|auto]. left. by rewrite set_io_lock_id. }
  apply wpx_bind, wpx_mono_add; [done|]. intros ts w1 _ _ (_ & Hi1 & Ho1).
  apply wpx_bind.
  eapply wpx_mono with (Q := λ r sw, inq sw.2 = inq w ∧ outq sw.2 = outq w ∧
    ((r = 1 ∧ sw.1 = set_io_lock (Some true) s) ∨
     (passing = false ∧ (r = 0 ∨ r = -1) ∧ sw.1 = s))).
  { destruct passing.
    - apply wpx_ret. simpl. rewrite set_io_lock_id by done. auto.
    - eapply wpx_mono; [by apply nc_session_io_lock_spec|].
      intros r [s2 w2] [(_ & Hi2 & Ho2) Hr]. simpl in *. rewrite Hi2, Ho2.
      repeat split; [done..|]. destruct Hr as [?|[? ?]]; auto. }
  intros lck [s2 w2] (Hi2 & Ho2 & Hl). simpl in Hi2, Ho2, Hl.
  destruct Hl as [[-> ->]|(-> & Hr & ->)].
  2: { assert (lck <? 1 = true) as -> by (apply Z.ltb_lt; lia).
       apply (Hclean false); [done|left; by rewrite set_io_lock_id|done| |tauto].
       exists []. by rewrite Hi2. }
  change (1 <? 1) with false. cbv iota.
  apply wpx_bind. eapply wpx_mono; [apply nc_read_framed_spec|].
  { done. } { done. } { by rewrite Hi2. } { by rewrite Hi2. }
  { destruct Hf as [?|Hf]; [by left|right]. unfold rd_bound in *. by rewrite Hi2. }
  intros [ret data] [s3 w3] (Ho3 & got & Hg & Hr). simpl in *. rewrite Hi2 in Hg.
  destruct (ret =? 1) eqn:Er; simpl.
  2: { apply Z.eqb_neq in Er. apply (Hclean true).
       - destruct Hr as [[? ->]|[[? ->]|[? [->|[r ->]]]]]; done.
       - destruct Hr as [[? ->]|[[? ->]|[? [->|[r ->]]]]];
           [by left..|right; by exists r].
       - congruence.
       - by exists got.
       - lia. }
  apply Z.eqb_eq in Er. subst ret.
  destruct Hr as [[_ ->]|[[? _]|[? _]]]; [|lia|lia].
  apply wpx_bind. eapply wpx_mono; [by apply nc_session_io_unlock_spec|].
  intros r [s4 w4] (_ & (_ & Hi4 & Ho4) & Es4). simpl in *. subst s4.
  apply wpx_bind, wpx_envcall. pose proof (ly_in_law (cstr data) w4) as (_ & Hi5 & Ho5).
  destruct (ly_in_new_memory (cstr data) w4) as [ok w5]. simpl in *.
  destruct ok; simpl.
  - apply wpx_ret. unfold read_msg_post. simpl.
    repeat split; [congruence|exists got; congruence|]. left. done.
  - apply (Hclean false); [done|by left|congruence|exists got; congruence|auto].
Qed.

Lemma nc_read_poll_result_spec F p s w :
  wpx F (nc_read_poll_result p)
    (λ r sw, sw.2 = w ∧ ((0 ≤ r ∧ sw.1 = s) ∨ (r = -1 ∧ ∃ reason, sw.1 = invalidate reason s))) (s, w).
Proof.
  unfold nc_read_poll_result, wpx.
  destruct p as [| |ret pi ph pe pn]; simpl; [eauto..|].
  destruct (ret <? 0) eqn:E; simpl; [eauto|]. destruct pe; simpl; [eauto|].
  destruct (ph && negb pi); simpl; [eauto|]. split; [done|]. left. split; [lia|done].
Qed.

Lemma nc_read_poll_spec F timeout s w :
  wpx F (nc_read_poll timeout)
    (λ r sw, no_traffic w sw.2 ∧
       ((0 ≤ r ∧ sw.1 = s) ∨ (r = -1 ∧ kept_or_invalid s sw.1))) (s, w).
Proof.
  assert (Hres : ∀ p w', no_traffic w w' → wpx F (nc_read_poll_result p)
    (λ r sw, no_traffic w sw.2 ∧
       ((0 ≤ r ∧ sw.1 = s) ∨ (r = -1 ∧ kept_or_invalid s sw.1))) (s, w')).
  { intros p w' Hw. eapply wpx_mono; [apply nc_read_poll_result_spec|].
    intros r [s1 w1] [E H]. simpl in *. subst w1. unfold kept_or_invalid.
    split; [done|]. destruct H as [?|[? ?]]; auto. }
  unfold nc_read_poll. apply wpx_bind, wpx_ses. destruct (status_ok s); cbn [negb].
  2: { apply wpx_ret. unfold kept_or_invalid. simpl. split; [done|]. auto. }
  destruct (ti s) as [|fd o|fd|ch nx|].
  - apply wpx_ret. unfold kept_or_invalid. simpl. split; [done|]. auto.
  - apply wpx_bind, wpx_envcall, Hres, poll_law.
  - apply wpx_bind, wpx_envcall, Hres, poll_law.
  - apply wpx_bind, wpx_envcall. pose proof (ssh_poll_law timeout w) as Hw.
    fold (no_traffic w (ssh_channel_poll_timeout timeout w).2) in Hw.
    destruct (ssh_channel_poll_timeout timeout w) as [r w']. cbn [fst snd] in *.
    destruct r as [| |m]; [| |destruct (0 <? m); by apply Hres].
    all: unfold wpx, kept_or_invalid; simpl; split; [done|]; eauto.
  - apply wpx_bind, wpx_envcall. pose proof (ssl_pending_law w) as Hw.
    destruct (ssl_pending w) as [n w']. cbn [fst snd] in *. destruct (n =? 0); cbn [negb]; [|by apply Hres].
    apply wpx_bind, wpx_envcall. pose proof (ssl_fd_law w') as Hw'.
    destruct (ssl_get_fd w') as [fd w'']. cbn [fst snd] in *.
    apply wpx_bind, wpx_envcall, Hres.
    do 2 (etrans; [eassumption|]). apply poll_law.
Qed.

(** Polling and reading: in every environment the function returns, the lock is
    released and the session is unchanged or invalid. *)
Lemma nc_read_msg_poll_io_spec F fuel timeout s w :
  io_lock s = Some false → zlen (inq w) < 2 ^ 31 →
  (malloc0_null ∨ sane_chunks (inq w)) →
  (F ∨ rd_bound (NC_READ_INACT_TIMEOUT * 1000) w ≤ Z.of_nat fuel) →
  wpx F (nc_read_msg_poll_io fuel timeout) (read_msg_post s w) (s, w).
Proof.
  intros Hlk Hlen Hsane Hf. unfold nc_read_msg_poll_io.
  assert (Hfail : ∀ r s1 w1, no_traffic w w1 → (r = 0 ∨ r = -1) → io_lock s1 = Some false →
    kept_or_invalid s s1 → read_msg_post s w (r, None) (s1, w1)).
  { intros r s1 w1 (_ & Hi & Ho) Hr L K. unfold read_msg_post. cbn [fst snd].
    split; [done|]. split; [done|]. split; [by exists []|]. right.
    rewrite set_io_lock_id by done. split; [tauto|done]. }
  apply wpx_bind, wpx_ses. destruct (status_ok s) eqn:Es; cbn [negb].
  2: { apply wpx_ret, Hfail; [done|auto|done|by left]. }
  apply wpx_bind. eapply wpx_mono; [by apply nc_session_io_lock_spec|].
  intros r [s1 w1] [Hw Hr]. cbn [fst snd] in Hw, Hr. destruct Hr as [[-> ->]|[Hr ->]].
  2: { replace (r <? 1) with true by lia. apply wpx_ret, Hfail; [done|done|done|by left]. }
  change (1 <? 1) with false. cbv iota.
  apply wpx_bind. eapply wpx_mono; [apply nc_read_poll_spec|].
  intros r [s2 w2] [Hw2 Hr]. cbn [fst snd] in Hw2, Hr.
  assert (Hw02 : no_traffic w w2) by (by etrans).
  destruct (r <? 1) eqn:E.
  - assert (L2 : io_lock s2 = Some true) by (destruct Hr as [[_ ->]|[_ [->|[? ->]]]]; done).
    apply wpx_bind. eapply wpx_mono; [by apply nc_session_io_unlock_spec|].
    intros u [s3 w3] (_ & Hw3 & Es3). cbn [fst snd] in Hw3, Es3. subst s3. apply wpx_ret, Hfail.
    + by etrans.
    + lia.
    + done.
    + destruct Hr as [[_ ->]|[_ [->|[x ->]]]]; [left|left|right; exists x];
        by rewrite <- (set_io_lock_id s (Some false)) at 2.
  - destruct Hr as [[_ ->]|[-> _]]; [|lia].
    destruct Hw02 as (_ & Hi2 & Ho2).
    eapply wpx_mono; [apply nc_read_msg_io_spec; [done|by rewrite Hi2|by rewrite Hi2|]|].
    + destruct Hf as [?|Hf]; [by left|right]. unfold rd_bound in *. by rewrite Hi2.
    + intros rm sw H. unfold read_msg_post in *. rewrite Hi2, Ho2, !set_io_lock_twice in H. exact H.
Qed.
End laws.
