(* ===== verification/Framing.v ===== *)
(** * Message framing

    The two framings of NETCONF on a byte stream, as pure functions: the end tag
    of version 1.0 and the chunks of version 1.1 (RFC 6242).  [scan_until] is
    [nc_read_until] on a stream that is already there; the theorems say when it
    finds the end tag. *)

From S2P Require Import Prelude Session Env Time Locks IoRead IoReadProofs.
From Stdlib Require Import ZArith Ascii String Lia.
From stdpp Require Import base list strings gmap numbers.
Open Scope Z_scope.

Fixpoint scan_until (fuel : nat) (endtag : bytes) (matched : nat) (chunk stream : bytes)
    : option (bytes * bytes) :=
  match fuel with
  | O => None
  | S fuel =>
    let want := (length endtag - matched)%nat in
    if (length stream <? want)%nat then None
    else
      let chunk := chunk ++ take want stream in
      let matched := match_endtag endtag chunk want matched in
      if (matched =? length endtag)%nat then Some (chunk, drop want stream)
      else scan_until fuel endtag matched chunk (drop want stream)
  end.

(** Framed messages as they appear on the wire. *)
Definition frame10 (msg : bytes) : bytes := msg ++ NC_VERSION_10_ENDTAG.

Definition chunk11 (c : bytes) : bytes :=
  (nl :: [hash]) ++ print_dec (zlen c) ++ [nl] ++ c.

Definition frame11 (chunks : list bytes) : bytes :=
  concat (map chunk11 chunks) ++ (nl :: [hash]) ++ (hash :: [nl]).

(** A message is clear of a tag when the tag does not occur in it and no part of
    the tag's beginning ends it. *)
Definition clear_of (tag msg : bytes) : Prop :=
  (∀ a b, msg ≠ a ++ tag ++ b) ∧
  (∀ j, (0 < j ≤ length tag)%nat → ¬ take j tag `suffix_of` msg).

Lemma suffix_take_app (a b t : bytes) n :
  (length b ≤ n ≤ length t)%nat → take n t `suffix_of` a ++ b → take (n - length b) t `suffix_of` a.
Proof.
  intros Hn [k E].
  assert (Ht : take n t = take (n - length b) t ++ drop (n - length b) (take n t)).
  { rewrite <- (take_drop (n - length b) (take n t)) at 1. f_equal. rewrite take_take. f_equal. lia. }
  rewrite Ht, app_assoc in E.
  apply app_inj_2 in E as [E _]; [by exists k|].
  rewrite length_drop, length_take. lia.
Qed.

Lemma suffix_eq_drop (a b : bytes) :
  a = drop (length b - length a) b → a `suffix_of` b.
Proof. intros ->. eexists. symmetry. apply take_drop. Qed.

Section complete.
Context (tag rest msg : bytes) (Htag : tag ≠ []) (Hclear : clear_of tag msg).

(** The last round, when a beginning of the tag has been recognised. *)
Lemma scan_until_last fuel j chunk :
  (j < length tag)%nat → take j tag `suffix_of` chunk → (0 < fuel)%nat →
  scan_until fuel tag j chunk (drop j tag ++ rest) = Some (chunk ++ drop j tag, rest).
Proof.
  intros Hj Hs Hf. destruct fuel as [|fuel]; [lia|]. cbn [scan_until].
  assert (Hl : length (drop j tag) = (length tag - j)%nat) by apply length_drop.
  rewrite take_app_length', drop_app_length' by done.
  destruct (_ <? _)%nat eqn:E.
  { apply Nat.ltb_lt in E. rewrite length_app in E. lia. }
  assert (Em : match_endtag tag (chunk ++ drop j tag) (length tag - j) j = length tag).
  { destruct (length tag - j)%nat as [|i] eqn:Ei; [lia|]. cbn [match_endtag].
    rewrite length_app, Hl, Nat.add_sub, drop_app_length.
    rewrite bool_decide_true by done. lia. }
  by rewrite Em, Nat.eqb_refl.
Qed.

Lemma scan_until_complete fuel matched chunk c :
  msg = chunk ++ c → (matched < length tag)%nat → take matched tag `suffix_of` chunk →
  (length c + 1 < fuel)%nat →
  scan_until fuel tag matched chunk (c ++ tag ++ rest) = Some (msg ++ tag, rest).
Proof.
  destruct Hclear as [Hin Hsuf].
  revert matched chunk c. induction fuel as [|fuel IH]; intros matched chunk c Hmsg Hm Hs Hf; [lia|].
  destruct c as [|x c].
  { (* at the tag *)
    assert (matched = 0%nat) as ->.
    { destruct matched; [done|]. rewrite app_nil_r in Hmsg. subst.
      exfalso. eapply Hsuf, Hs. lia. }
    rewrite app_nil_r in Hmsg. subst chunk.
    pose proof (scan_until_last (S fuel) 0 msg) as Hl. rewrite drop_0 in Hl.
    apply Hl; [lia|done|lia]. }
  cbn [scan_until]. set (want := (length tag - matched)%nat). set (c' := x :: c) in *.
  assert (Hlc : (0 < length c')%nat) by (subst c'; simpl; lia).
  destruct (_ <? _)%nat eqn:E.
  { apply Nat.ltb_lt in E. rewrite !length_app in E. unfold want in E. lia. }
  clear E. destruct (decide (want ≤ length c')%nat) as [Hw|Hw].
  - (* still inside of the message *)
    rewrite take_app_le, drop_app_le by done.
    assert (Hl : length (take want c') = (length tag - matched)%nat).
    { rewrite length_take. unfold want. lia. }
    pose proof (match_endtag_round tag chunk (take want c') matched Hm Hs Hl) as Hr.
    fold want in Hr. set (m := match_endtag _ _ _ _) in *. destruct Hr as [Hr Hle].
    destruct (m =? length tag)%nat eqn:Em.
    + apply Nat.eqb_eq in Em. rewrite Em, take_ge in Hr by done. destruct Hr as [k Hk].
      exfalso. apply (Hin k (drop want c')).
      rewrite app_assoc, <- Hk, <- app_assoc, take_drop. done.
    + apply Nat.eqb_neq in Em. apply IH; [|lia|done|].
      * by rewrite <- app_assoc, take_drop.
      * rewrite length_drop. unfold want in *. lia.
  - (* the read crosses the end of the message *)
    set (j := (want - length c')%nat).
    assert (Hj : (0 < j < want)%nat) by (unfold j; lia).
    assert (Hwt : (want ≤ length tag)%nat) by (unfold want; lia).
    assert (Et : take want (c' ++ tag ++ rest) = c' ++ take j tag).
    { rewrite take_app_ge, take_app_le by (fold j; lia). done. }
    assert (Ed : drop want (c' ++ tag ++ rest) = drop j tag ++ rest).
    { rewrite drop_app_ge, drop_app_le by (fold j; lia). done. }
    rewrite Et, Ed, app_assoc, <- Hmsg.
    assert (Hlt : length (take j tag) = j) by (rewrite length_take; lia).
    assert (Em : match_endtag tag (msg ++ take j tag) want matched = j).
    { assert (Hcross : ∀ n, (j < n ≤ length tag)%nat → ¬ take n tag `suffix_of` msg ++ take j tag).
      { intros n Hn Hx. apply suffix_take_app in Hx; [|lia]. rewrite Hlt in Hx.
        eapply Hsuf, Hx. lia. }
      destruct want as [|i] eqn:Ei; [lia|]. cbn [match_endtag].
      case_bool_decide as E1.
      - exfalso. apply (Hcross (length tag)); [lia|].
        assert (Hl : length (c' ++ take j tag) = (length tag - matched)%nat).
        { rewrite length_app, Hlt. unfold j. lia. }
        pose proof (match_endtag_round tag chunk (c' ++ take j tag) matched Hm Hs Hl) as Hr.
        rewrite app_assoc, <- Hmsg in Hr.
        replace (length tag - matched)%nat with (S i) in Hr by done.
        cbn [match_endtag] in Hr. rewrite bool_decide_true in Hr by done.
        replace (matched + S i)%nat with (length tag) in Hr by lia. apply Hr.
      - destruct (match_endtag_0 tag (msg ++ take j tag) i) as (H1 & H2 & H3).
        { lia. } { rewrite length_app, Hlt, Hmsg, length_app. lia. }
        set (m := match_endtag tag (msg ++ take j tag) i 0) in *.
        assert (¬ (m < j)%nat).
        { intros Hlt'. apply (H3 j); [lia|].
          rewrite length_app, Hlt, Nat.add_sub, drop_app_length. done. }
        assert (¬ (j < m)%nat); [|lia]. intros Hlt'. apply (Hcross m); [lia|].
        rewrite <- H2. eexists. symmetry. apply take_drop. }
    rewrite Em. destruct (j =? length tag)%nat eqn:E; [apply Nat.eqb_eq in E; lia|].
    rewrite scan_until_last; [|lia|by exists msg|lia].
    by rewrite <- app_assoc, take_drop.
Qed.
End complete.

(** The end tag is found for every message that is clear of it, wherever the
    reads of the code happen to split the stream. *)
Lemma scan_until_found tag msg rest fuel :
  tag ≠ [] → clear_of tag msg → (length msg + 1 < fuel)%nat →
  scan_until fuel tag 0 [] (msg ++ tag ++ rest) = Some (msg ++ tag, rest).
Proof.
  intros Ht Hc Hf. apply (scan_until_complete tag rest msg); try done.
  destruct tag; [done|simpl; lia].
Qed.

Lemma clear_of_nil tag : tag ≠ [] → clear_of tag [].
Proof.
  intros Ht. split.
  - intros a b E. symmetry in E. apply app_eq_nil in E as [_ E].
    by apply app_eq_nil in E as [-> _].
  - intros j Hj [k E]. symmetry in E. apply app_eq_nil in E as [_ E].
    apply (f_equal length) in E. rewrite length_take in E. simpl in E. lia.
Qed.

Lemma clear_of_single x msg : x ∉ msg → clear_of [x] msg.
Proof.
  intros Hx. split.
  - intros a b ->. apply Hx. set_solver.
  - intros j Hj [k ->]. simpl in Hj. replace j with 1%nat in Hx by lia.
    apply Hx, elem_of_app. right. by left.
Qed.

(** ** Reading over a working transport

    When the environment delivers, the functions of [IoRead] compute what the
    pure functions above say. *)

Section reliable.
Context {W : Type} `{RL : Reliable W}.
Implicit Types (s : nc_session) (w : W).

(** A session that can communicate. *)
Definition open_session s : Prop := status_ok s = true ∧ ti s ≠ TiNone.

Lemma nc_read_switch_ok F left s w :
  ti s ≠ TiNone → 0 < left < 2 ^ 31 → inq w ≠ [] →
  wpx F (nc_read_switch left)
    (λ st sw, ∃ bs i, st = StepGot bs i ∧ bs ≠ [] ∧ sw.1 = s ∧ zlen bs ≤ left ∧
       inq w = bs ++ inq sw.2 ∧ outq sw.2 = outq w) (s, w).
Proof.
  intros Ht Hl Hin.
  assert (Hne : ∀ bs : bytes, 0 < zlen bs → bs ≠ []) by (by intros bs ? ->).
  unfold nc_read_switch. apply wpx_bind, wpx_ses.
  destruct (ti s) as [|fd ?|fd|?|]; [done|..]; apply wpx_bind, wpx_envcall.
  1,2: destruct (rel_sys_read fd left w) as [bs E]; [lia|done|];
    pose proof (sys_read_law fd left w) as L;
    destruct (sys_read fd left w) as [r w']; simpl in *; subst r;
    apply wpx_ret; exists bs, false; destruct_and?; repeat split; auto; lia.
  - rewrite u32_small by lia. destruct (rel_ssh_read left w) as [bs E]; [lia|done|].
    pose proof (ssh_read_law left w) as L.
    destruct (ssh_channel_read left w) as [r w']; simpl in *; subst r.
    apply wpx_ret; exists bs, false; destruct_and?; repeat split; auto; lia.
  - rewrite i32_small by lia. destruct (rel_ssl_read left w) as [bs E]; [lia|done|].
    pose proof (ssl_read_law left w) as L.
    destruct (ssl_read left w) as [r w']; simpl in *; subst r.
    apply wpx_ret; exists bs, false; destruct_and?; repeat split; auto; lia.
Qed.

Lemma nc_read_loop_ok F fuel count inact ts_inact ts_act room acc s w :
  ti s ≠ TiNone → 0 ≤ inact → zlen acc < count < room → count < 2 ^ 31 →
  count - zlen acc ≤ zlen (inq w) < Z.of_nat fuel →
  wpx F (nc_read_loop fuel count inact ts_inact ts_act room acc)
    (λ rb sw, rb = (count, acc ++ ztake (count - zlen acc) (inq w)) ∧ sw.1 = s ∧
       inq sw.2 = zdrop (count - zlen acc) (inq w) ∧ outq sw.2 = outq w) (s, w).
Proof.
  intros Ht Hi. revert ts_inact acc w.
  induction fuel as [|fuel IH]; intros ts_inact acc w Hc Hcb Hf; cbn [nc_read_loop].
  { pose proof (zlen_nonneg (inq w)). lia. }
  pose proof (zlen_nonneg acc).
  apply wpx_bind. eapply wpx_mono; [apply nc_read_switch_ok; [done|lia|]|].
  { intros E. rewrite E in Hf. change (zlen (@nil ascii)) with 0 in Hf. lia. }
  intros st [s1 w1] (bs & i & -> & Hne & Es & Hbs & Hin & Ho). simpl in *. subst s1.
  destruct bs as [|b bs]; [done|]. cbv zeta. set (l := b :: bs) in *.
  assert (Hl : 0 < zlen l) by (unfold l; rewrite zlen_cons; pose proof (zlen_nonneg bs); lia).
  apply wpx_bind, wpx_guarded; [apply Z.leb_le; rewrite zlen_app; lia|].
  apply wpx_bind, wpx_mono_add; [done|]. intros ts w2 _ _ (_ & Hi2 & Ho2).
  pose proof (zlen_app acc l) as Hz. rewrite <- Hi2 in Hin.
  pose proof (f_equal zlen Hin) as Hzi. rewrite zlen_app in Hzi.
  assert (Ek : count - zlen acc = zlen l + (count - zlen (acc ++ l))) by lia.
  assert (Etd : ∀ n, 0 ≤ n → ztake (zlen l + n) (inq w) = l ++ ztake n (inq w2) ∧
                     zdrop (zlen l + n) (inq w) = zdrop n (inq w2)).
  { intros n Hn. rewrite Hin. unfold ztake, zdrop, zlen.
    rewrite Z2Nat.inj_add, Nat2Z.id by lia.
    by rewrite take_app_add, drop_app_add. }
  destruct (zlen (acc ++ l) <? count) eqn:E.
  - apply Z.ltb_lt in E. eapply wpx_mono; [apply IH; lia|].
    intros [r bs'] [s3 w3] ([= -> ->] & Es & Hi3 & Ho3). simpl in *. rewrite Ek.
    destruct (Etd (count - zlen (acc ++ l))) as [-> ->]; [lia|].
    repeat split; [by rewrite <- app_assoc|done..|congruence].
  - apply Z.ltb_ge in E. assert (Hc' : zlen (acc ++ l) = count) by lia.
    apply wpx_bind, wpx_guarded; [apply Z.ltb_lt; lia|]. apply wpx_ret. simpl.
    rewrite Ek, Hc', Z.sub_diag. destruct (Etd 0) as [-> ->]; [lia|].
    unfold ztake, zdrop. simpl. rewrite take_0, drop_0, app_nil_r.
    repeat split; congruence.
Qed.

Lemma nc_read_ok F fuel count inact ts_act room s w :
  open_session s → 0 ≤ inact → 0 < count < room → count < 2 ^ 31 →
  count ≤ zlen (inq w) < Z.of_nat fuel →
  wpx F (nc_read fuel count inact ts_act room)
    (λ rb sw, rb = (count, ztake count (inq w)) ∧ sw.1 = s ∧
       inq sw.2 = zdrop count (inq w) ∧ outq sw.2 = outq w) (s, w).
Proof.
  intros [Hs Ht] Hi Hc Hcb Hf. unfold nc_read. apply wpx_bind, wpx_ses. rewrite Hs. simpl.
  destruct (count =? 0) eqn:E; [lia|]. apply wpx_bind, wpx_mono_add; [done|].
  intros ts w1 _ _ (_ & Hi1 & Ho1). rewrite <- Hi1, <- Ho1.
  eapply wpx_mono; [apply nc_read_loop_ok; try done|].
  - change (zlen (@nil ascii)) with 0. rewrite Hi1. lia.
  - intros rb sw H. change (zlen (@nil ascii)) with 0 in H. by rewrite Z.sub_0_r in H.
Qed.

Lemma nc_read_chunk_ok F fuel len inact ts_act s w :
  open_session s → 0 ≤ inact → 0 < len < 2 ^ 31 → len ≤ zlen (inq w) < Z.of_nat fuel →
  wpx F (nc_read_chunk fuel len inact ts_act)
    (λ rb sw, rb = (len, ztake len (inq w)) ∧ sw.1 = s ∧
       inq sw.2 = zdrop len (inq w) ∧ outq sw.2 = outq w) (s, w).
Proof.
  intros Hs Hi Hl Hf. unfold nc_read_chunk. destruct (len =? 0) eqn:E; [lia|].
  rewrite u64_small by lia. apply wpx_bind, wpx_malloc. intros b w1 (_ & Hi1 & Ho1) _ ->.
  rewrite rel_malloc by lia. simpl. apply wpx_bind. rewrite <- Hi1, <- Ho1.
  eapply wpx_mono; [apply nc_read_ok; try done; try lia|]; [rewrite Hi1; lia|].
  intros [r bs] [s2 w2] ([= -> ->] & Es & Hi2 & Ho2). simpl in *.
  destruct (len <=? 0) eqn:E2; [lia|]. apply wpx_bind, wpx_guarded; [apply Z.ltb_lt; lia|].
  apply wpx_ret. done.
Qed.

(** [nc_read_until] does what [scan_until] does. *)
Lemma nc_read_until_loop_ok F fuel sfuel fuel_rd endtag inact ts_act size matched chunk got rest s w :
  open_session s → 0 ≤ inact → zlen endtag ≤ BUFFERSIZE → (matched < length endtag)%nat →
  take matched endtag `suffix_of` chunk → zlen chunk ≤ size ≤ zlen chunk + BUFFERSIZE →
  zlen chunk + zlen (inq w) < 2 ^ 31 → zlen (inq w) < Z.of_nat fuel_rd →
  scan_until sfuel endtag matched chunk (inq w) = Some (got, rest) →
  (sfuel ≤ fuel)%nat →
  wpx F (nc_read_until_loop fuel fuel_rd endtag 0 inact ts_act size matched chunk)
    (λ rb sw, rb = (zlen got, got) ∧ sw.1 = s ∧ inq sw.2 = rest ∧ outq sw.2 = outq w) (s, w).
Proof.
  intros Hs Hi Hb. revert fuel size matched chunk w.
  induction sfuel as [|sfuel IH]; intros fuel size matched chunk w Hm Hsuf Hsz Hlen Hrd Hscan Hf;
    [done|]. destruct fuel as [|fuel]; [lia|].
  cbn [scan_until] in Hscan. cbn [nc_read_until_loop].
  pose proof (zlen_nonneg (inq w)). pose proof (zlen_nonneg chunk).
  assert (Hwn : zlen endtag - Z.of_nat matched = Z.of_nat (length endtag - matched)).
  { unfold zlen. lia. }
  set (want := (length endtag - matched)%nat) in *.
  destruct (length (inq w) <? want)%nat eqn:El; [done|]. apply Nat.ltb_ge in El.
  cbn [Z.eqb negb andb]. rewrite Hwn.
  set (grow := size <=? zlen chunk + Z.of_nat want).
  set (size' := if grow then size + BUFFERSIZE else size).
  assert (Hw : 0 < Z.of_nat want ≤ BUFFERSIZE) by (unfold want, zlen in *; lia).
  assert (Hs' : zlen chunk + Z.of_nat want ≤ size' ≤ zlen chunk + Z.of_nat want + BUFFERSIZE).
  { unfold size', grow. destruct (_ <=? _) eqn:E; lia. }
  assert (Hwi : Z.of_nat want ≤ zlen (inq w)) by (unfold zlen; lia).
  apply wpx_bind. eapply wpx_mono with (Q := λ (ok : bool) sw, ok = true ∧ sw.1 = s ∧ quiet w sw.2).
  { destruct grow; [|split; [done|split; [done|apply quiet_refl]]].
    apply wpx_malloc. intros ? ? ? _ ->. split; [|done]. apply rel_malloc.
    unfold BUFFERSIZE in *. lia. }
  intros ok [s1 w1] (-> & E1 & (_ & Hi1 & Ho1)). simpl in E1, Hi1, Ho1. subst s1. cbn [negb].
  rewrite <- Hi1 in *. rewrite <- Ho1.
  apply wpx_bind. eapply wpx_mono; [apply nc_read_ok; try done; unfold BUFFERSIZE in *; lia|].
  intros [r bs] [s2 w2] ([= -> ->] & Es & Hi2 & Ho2). simpl in Es, Hi2, Ho2. subst s2.
  rewrite Z.eqb_refl. cbn [negb]. unfold ztake, zdrop in *. rewrite Nat2Z.id in *.
  set (bs := take want (inq w1)) in *.
  assert (Hbl : length bs = want) by (unfold bs; rewrite length_take; lia).
  pose proof (match_endtag_round endtag chunk bs matched Hm Hsuf Hbl) as [Hs1 Hle].
  fold want in Hs1, Hle.
  set (m := match_endtag endtag (chunk ++ bs) want matched) in *.
  assert (Hzb : zlen (chunk ++ bs) = zlen chunk + Z.of_nat want).
  { rewrite zlen_app. unfold zlen. lia. }
  destruct (m =? length endtag)%nat eqn:Em.
  - injection Hscan as <- <-. apply wpx_bind, wpx_guarded; [apply Z.ltb_lt; lia|].
    apply wpx_ret. done.
  - apply Nat.eqb_neq in Em. rewrite <- Ho2. apply IH; try done; try lia.
    + rewrite Hi2. unfold zlen in *. rewrite length_drop. lia.
    + rewrite Hi2. unfold zlen in *. rewrite length_drop. lia.
    + by rewrite Hi2.
Qed.

Lemma nc_read_until_ok F fuel endtag inact ts_act msg rest s w :
  open_session s → 0 ≤ inact → 0 < zlen endtag ≤ BUFFERSIZE → clear_of endtag msg →
  inq w = msg ++ endtag ++ rest → zlen (inq w) < 2 ^ 31 → zlen (inq w) < Z.of_nat fuel →
  wpx F (nc_read_until fuel endtag 0 inact ts_act)
    (λ rb sw, rb = (zlen (msg ++ endtag), msg ++ endtag) ∧ sw.1 = s ∧ inq sw.2 = rest ∧
       outq sw.2 = outq w) (s, w).
Proof.
  intros Hs Hi He Hc Hin Hlen Hf. unfold nc_read_until. simpl.
  apply wpx_bind, wpx_malloc. intros b w1 (_ & Hi1 & Ho1) _ ->.
  rewrite rel_malloc by (unfold BUFFERSIZE; lia). simpl. rewrite <- Ho1, <- Hi1 in *.
  apply (nc_read_until_loop_ok F fuel (length msg + 2)); try done.
  - lia.
  - unfold zlen in He. lia.
  - rewrite Hin. apply scan_until_found; [intros ->; unfold zlen in He; simpl in He; lia|done|lia].
  - rewrite Hin in Hf. unfold zlen in *. rewrite !length_app in Hf. lia.
Qed.

(** A chunk size line holds the digits of the size and nothing else. *)
Lemma digits_no_nl n : 0 ≤ n < 2 ^ 64 → nl ∉ print_dec n ∧ ascii_of_N 0 ∉ print_dec n.
Proof.
  intros Hn. destruct (print_dec_spec n Hn) as (_ & Hd & _).
  rewrite list.Forall_forall in Hd. split; intros Hx; by apply Hd in Hx.
Qed.

Lemma cstr_id l : ascii_of_N 0 ∉ l → cstr l = l.
Proof.
  intros Hl. unfold cstr. pose proof (span_all (λ c, negb (bool_decide (c = ascii_of_N 0))) l []) as E.
  rewrite app_nil_r in E. rewrite E; [done| |done].
  apply list.Forall_forall. intros c Hc. rewrite bool_decide_false; [done|]. by intros ->.
Qed.

Definition chunks_ok (chunks : list bytes) : Prop := Forall (λ c, c ≠ []) chunks.

Lemma chunk_header_ok n :
  0 < n < 2 ^ 64 →
  cstr (print_dec n ++ [nl]) = print_dec n ++ [nl] ∧
  strcmp_eq (print_dec n ++ [nl]) (hash :: [nl]) = false ∧
  strtoul (print_dec n ++ [nl]) = n.
Proof.
  intros Hn. destruct (print_dec_spec n ltac:(lia)) as (Hne & Hd & _).
  destruct (digits_no_nl n ltac:(lia)) as [_ H0]. repeat split.
  - apply cstr_id. rewrite elem_of_app. intros [?|Hx]; [done|].
    apply list_elem_of_singleton in Hx. done.
  - unfold strcmp_eq. apply bool_decide_false. intros E.
    destruct (print_dec n) as [|c ds]; [done|]. injection E as -> _.
    by apply Forall_inv in Hd.
  - apply strtoul_print_dec; [lia|done].
Qed.

Lemma nc_read_chunks_ok F fuel fuel_rd inact ts_act data chunks rest s w :
  open_session s → 0 ≤ inact → chunks_ok chunks →
  inq w = frame11 chunks ++ rest →
  zlen (default [] data) + zlen (inq w) < 2 ^ 31 →
  (length chunks < fuel)%nat → zlen (inq w) < Z.of_nat fuel_rd →
  (data ≠ None ∨ chunks ≠ []) →
  wpx F (nc_read_chunks fuel fuel_rd inact ts_act data)
    (λ rb sw, rb = (1, default [] data ++ concat chunks) ∧ sw.1 = s ∧ inq sw.2 = rest ∧
       outq sw.2 = outq w) (s, w).
Proof.
  intros Hs Hi. revert fuel data w. unfold frame11.
  induction chunks as [|c chunks IH]; intros fuel data w Hok Hin Hlen Hf Hrd Hd;
    (destruct fuel as [|fuel]; [simpl in Hf; lia|]); cbn [nc_read_chunks];
    pose proof (zlen_nonneg (default [] data)).
  - (* end of chunks *)
    simpl in Hin. destruct data as [data|]; [|by destruct Hd].
    apply wpx_bind.
    eapply wpx_mono; [apply (nc_read_until_ok F _ _ _ _ [] ((hash :: [nl]) ++ rest)); try done|].
    { by apply clear_of_nil. } { lia. }
    intros [r0 bs0] [s1 w1] ([= -> ->] & Es & Hi1 & Ho1). simpl in Es, Hi1, Ho1. subst s1.
    cbn [app]. change (i32 (zlen (nl :: [hash])) =? -1) with false. cbv iota.
    assert (Hle : zlen (inq w1) ≤ zlen (inq w)).
    { rewrite Hi1, Hin. unfold zlen. simpl. lia. }
    apply wpx_bind.
    eapply wpx_mono; [apply (nc_read_until_ok F _ [nl] _ _ [hash] rest); try done; try lia|].
    { apply clear_of_single. intros Hx. by apply list_elem_of_singleton in Hx. }
    intros [r bs] [s2 w2] ([= -> ->] & Es & Hi2 & Ho2). simpl in Es, Hi2, Ho2. subst s2.
    simpl. apply wpx_ret. simpl. rewrite app_nil_r. repeat split; congruence.
  - cbn [map concat] in Hin. apply Forall_cons_1 in Hok as [Hc Hok].
    unfold chunk11 in Hin at 1. rewrite <- !app_assoc in Hin.
    set (tail := concat (map chunk11 chunks) ++ (nl :: [hash]) ++ (hash :: [nl]) ++ rest) in *.
    pose proof (f_equal zlen Hin) as Hz. rewrite !zlen_app in Hz.
    change (zlen (nl :: [hash])) with 2 in Hz. change (zlen [nl]) with 1 in Hz.
    pose proof (zlen_nonneg tail). pose proof (zlen_nonneg c).
    pose proof (zlen_nonneg (print_dec (zlen c))).
    assert (Hcl : 0 < zlen c).
    { destruct (decide (zlen c = 0)) as [E|]; [by apply zlen_nil_inv in E|lia]. }
    apply wpx_bind.
    eapply wpx_mono; [apply (nc_read_until_ok F _ _ _ _ []
      (print_dec (zlen c) ++ [nl] ++ c ++ tail)); try done|].
    { by apply clear_of_nil. } { lia. }
    intros [r0 bs0] [s1 w1] ([= -> ->] & Es & Hi1 & Ho1). simpl in Es, Ho1. subst s1.
    simpl in Hi1. change (nl :: c ++ tail) with ([nl] ++ c ++ tail) in Hi1.
    cbn [app]. change (i32 (zlen (nl :: [hash])) =? -1) with false. cbv iota.
    pose proof (f_equal zlen Hi1) as Hz1. rewrite !zlen_app in Hz1.
    change (zlen [nl]) with 1 in Hz1.
    apply wpx_bind.
    eapply wpx_mono; [apply (nc_read_until_ok F _ _ _ _ (print_dec (zlen c)) (c ++ tail)); try done; try lia|].
    { apply clear_of_single, digits_no_nl. lia. }
    intros [r bs] [s2 w2] ([= -> ->] & Es & Hi2 & Ho2). simpl in Es, Hi2, Ho2. subst s2.
    rewrite zlen_app. change (zlen [nl]) with 1. rewrite i32_small by lia.
    destruct (_ =? -1) eqn:E; [lia|]. clear E.
    destruct (chunk_header_ok (zlen c)) as (-> & -> & ->); [lia|].
    destruct (zlen c =? 0) eqn:E; [lia|]. clear E.
    pose proof (f_equal zlen Hi2) as Hz2. rewrite zlen_app in Hz2.
    apply wpx_bind. eapply wpx_mono; [apply nc_read_chunk_ok; try done; try lia|].
    intros [r bs] [s3 w3] ([= -> ->] & Es & Hi3 & Ho3). simpl in Es, Hi3, Ho3. subst s3.
    rewrite i32_small by lia. destruct (zlen c =? -1) eqn:E; [lia|]. clear E.
    rewrite Hi2, zdrop_app in Hi3. rewrite Hi2, ztake_app.
    rewrite u64_small by lia. apply wpx_bind, wpx_malloc. intros b w4 (_ & Hi4 & Ho4) _ ->.
    rewrite rel_malloc by lia. cbn [negb]. apply wpx_bind, wpx_guarded; [apply Z.ltb_lt; lia|].
    eapply wpx_mono; [apply IH; try done|].
    + rewrite Hi4, Hi3. unfold tail. by rewrite <- !app_assoc.
    + simpl. rewrite zlen_app, Hi4, Hi3. lia.
    + simpl in Hf. lia.
    + rewrite Hi4, Hi3. lia.
    + by left.
    + intros rb sw (-> & ? & ? & ?). simpl. rewrite <- app_assoc. repeat split; congruence.
Qed.

(** ** Reading whole messages over a working transport *)

(** A message of version 1.0 is clear of the end tag, one of version 1.1 is not
    empty, and neither holds a NUL byte. *)
Definition frameable (v : NC_VERSION) (msg : bytes) : Prop :=
  ascii_of_N 0 ∉ msg ∧
  match v with
  | NC_VERSION_10 => clear_of NC_VERSION_10_ENDTAG msg
  | NC_VERSION_11 => msg ≠ []
  end.

(** The bytes of a message sent in the pieces [cs]. *)
Definition framed (v : NC_VERSION) (cs : list bytes) : bytes :=
  match v with
  | NC_VERSION_10 => frame10 (concat cs)
  | NC_VERSION_11 => frame11 cs
  end.

Lemma chunks_length cs : (length cs ≤ length (concat (map chunk11 cs)))%nat.
Proof. induction cs as [|c cs IH]; simpl; [lia|]. rewrite !length_app. simpl. lia. Qed.

Lemma nc_read_framed_ok F fuel inact ts_act cs rest s w :
  open_session s → 0 ≤ inact → chunks_ok cs → frameable (version s) (concat cs) →
  inq w = framed (version s) cs ++ rest → zlen (inq w) < 2 ^ 31 → zlen (inq w) < Z.of_nat fuel →
  wpx F (nc_read_framed fuel inact ts_act)
    (λ rb sw, rb = (1, concat cs) ∧ sw.1 = s ∧ inq sw.2 = rest ∧ outq sw.2 = outq w) (s, w).
Proof.
  intros Hs Hi Hok [_ Hfr] Hin Hlen Hf. unfold nc_read_framed. apply wpx_bind, wpx_ses.
  destruct (version s); unfold framed, frame10 in Hin.
  - rewrite <- app_assoc in Hin. apply wpx_bind.
    eapply wpx_mono; [eapply (nc_read_until_ok F _ _ _ _ (concat cs) rest); done|].
    intros [r bs] [s1 w1] ([= -> ->] & Es & Hi1 & Ho1). simpl in Es, Hi1, Ho1. subst s1.
    pose proof (f_equal zlen Hin) as Hz. rewrite app_assoc, zlen_app in Hz.
    pose proof (zlen_nonneg rest). pose proof (zlen_nonneg (concat cs ++ NC_VERSION_10_ENDTAG)).
    rewrite i32_small by lia. destruct (_ =? -1) eqn:E; [lia|]. clear E.
    assert (Er : zlen (concat cs ++ NC_VERSION_10_ENDTAG) - NC_VERSION_10_ENDTAG_LEN = zlen (concat cs)).
    { rewrite zlen_app. change (zlen NC_VERSION_10_ENDTAG) with 6. unfold NC_VERSION_10_ENDTAG_LEN. lia. }
    rewrite Er. apply wpx_bind, wpx_guarded; [apply Z.leb_le, zlen_nonneg|].
    apply wpx_ret. simpl. by rewrite ztake_app.
  - eapply wpx_mono; [eapply (nc_read_chunks_ok F _ _ _ _ None cs rest); try done|].
    + pose proof (chunks_length cs). unfold zlen in Hf. rewrite Hin in Hf. unfold frame11 in Hf.
      rewrite !length_app in Hf. lia.
    + right. by intros ->.
    + intros rb sw H. exact H.
Qed.

Lemma nc_read_msg_io_ok F fuel timeout cs rest s w :
  open_session s → io_lock s = Some true → chunks_ok cs → frameable (version s) (concat cs) →
  inq w = framed (version s) cs ++ rest → zlen (inq w) < 2 ^ 31 → zlen (inq w) < Z.of_nat fuel →
  wpx F (nc_read_msg_io fuel timeout true)
    (λ rm sw, rm = (1, Some (concat cs)) ∧ sw.1 = set_io_lock (Some false) s ∧
       inq sw.2 = rest ∧ outq sw.2 = outq w) (s, w).
Proof.
  intros Hs Hl Hok Hfr Hin Hlen Hf. unfold nc_read_msg_io. apply wpx_bind, wpx_ses.
  destruct Hs as [Hst Ht]. rewrite Hst. cbn [negb].
  apply wpx_bind, wpx_mono_add; [done|]. intros ts w1 _ _ (_ & Hi1 & Ho1).
  apply wpx_bind, wpx_ret. change (1 <? 1) with false. cbv iota.
  rewrite <- Hi1 in Hin, Hlen, Hf. rewrite <- Ho1.
  apply wpx_bind. eapply wpx_mono; [eapply nc_read_framed_ok; done|].
  intros [ret data] [s2 w2] ([= -> ->] & Es & Hi2 & Ho2). simpl in Es, Hi2, Ho2. subst s2.
  cbn [Z.eqb negb Pos.eqb]. apply wpx_bind. eapply wpx_mono; [by apply nc_session_io_unlock_spec|].
  intros r [s3 w3] (_ & (_ & Hi3 & Ho3) & Es). simpl in Es, Hi3, Ho3. subst s3.
  rewrite cstr_id by apply Hfr.
  apply wpx_bind, wpx_envcall. rewrite rel_ly_in. cbn [negb]. apply wpx_ret. simpl.
  destruct (ly_in_law (concat cs) w3) as (_ & Hi4 & Ho4). repeat split; congruence.
Qed.

Lemma nc_session_io_lock_ok F timeout s w :
  io_lock s = Some false →
  wpx F (nc_session_io_lock timeout)
    (λ r sw, r = 1 ∧ sw.1 = set_io_lock (Some true) s ∧ no_traffic w sw.2) (s, w).
Proof.
  intros Hl. unfold nc_session_io_lock. apply wpx_bind, wpx_ses. rewrite Hl. unfold pthread_acquire.
  destruct (0 <? timeout) eqn:E; [|destruct (timeout =? 0)].
  - apply wpx_bind, wpx_bind, wpx_real_add; [lia|]. intros ts w1 Hq.
    apply wpx_bind, wpx_envcall. rewrite rel_timedlock. unfold wpx. simpl.
    split; [done|split; [done|]]. etrans; [by apply quiet_no_traffic|apply timedlock_law].
  - apply wpx_bind, wpx_bind, wpx_envcall. rewrite rel_trylock. unfold wpx. simpl.
    split; [done|split; [done|apply trylock_law]].
  - apply wpx_bind, wpx_bind, wpx_envcall. rewrite rel_lock. unfold wpx. simpl.
    split; [done|split; [done|apply lock_law]].
Qed.

Lemma nc_read_poll_ok F timeout s w :
  open_session s → inq w ≠ [] →
  wpx F (nc_read_poll timeout) (λ r sw, 0 < r ∧ sw.1 = s ∧ no_traffic w sw.2) (s, w).
Proof.
  intros [Hst Ht] Hin. unfold nc_read_poll. apply wpx_bind, wpx_ses. rewrite Hst. cbn [negb].
  assert (Hpoll : ∀ fd w1, no_traffic w w1 →
    wpx F (r ← envcall (sys_poll fd timeout); nc_read_poll_result r)
      (λ r sw, 0 < r ∧ sw.1 = s ∧ no_traffic w sw.2) (s, w1)).
  { intros fd w1 Hw. apply wpx_bind, wpx_envcall. pose proof Hw as (_ & Hi & _).
    destruct (rel_poll_in fd timeout w1) as (ret & -> & Hr); [by rewrite Hi|].
    unfold nc_read_poll_result. destruct (ret <? 0) eqn:E; [lia|]. apply wpx_ret.
    split; [done|]. split; [done|]. etrans; [exact Hw|apply poll_law]. }
  destruct (ti s) as [|fd o|fd|ch nx|]; [done|by apply Hpoll|by apply Hpoll| |].
  - apply wpx_bind, wpx_envcall. destruct (rel_ssh_poll timeout w) as (n & -> & Hn); [done|].
    replace (0 <? n) with true by lia. apply wpx_ret. split; [done|]. split; [done|apply ssh_poll_law].
  - apply wpx_bind, wpx_envcall. pose proof (ssl_pending_law w) as Hw.
    destruct (ssl_pending w) as [n w1]. cbn [fst snd] in *. destruct (n =? 0); cbn [negb].
    + apply wpx_bind, wpx_envcall, Hpoll. etrans; [exact Hw|apply ssl_fd_law].
    + apply wpx_ret. done.
Qed.

Lemma framed_nonempty v cs : framed v cs ≠ [].
Proof.
  destruct v; unfold framed, frame10, frame11; intros E; apply (f_equal length) in E;
    rewrite !length_app in E; simpl in E; lia.
Qed.

Lemma nc_read_msg_poll_io_ok F fuel timeout cs rest s w :
  open_session s → io_lock s = Some false → chunks_ok cs → frameable (version s) (concat cs) →
  inq w = framed (version s) cs ++ rest → zlen (inq w) < 2 ^ 31 → zlen (inq w) < Z.of_nat fuel →
  wpx F (nc_read_msg_poll_io fuel timeout)
    (λ rm sw, rm = (1, Some (concat cs)) ∧ sw.1 = s ∧ inq sw.2 = rest ∧ outq sw.2 = outq w) (s, w).
Proof.
  intros Hs Hl Hok Hfr Hin Hlen Hf. unfold nc_read_msg_poll_io. apply wpx_bind, wpx_ses.
  pose proof Hs as [-> _]. cbn [negb].
  apply wpx_bind. eapply wpx_mono; [by apply nc_session_io_lock_ok|].
  intros r [s1 w1] (-> & Es & _ & Hi1 & Ho1). cbn [fst snd] in Es, Hi1, Ho1. subst s1.
  change (1 <? 1) with false. cbv iota. rewrite <- Hi1 in Hin, Hlen, Hf. rewrite <- Ho1.
  apply wpx_bind. eapply wpx_mono; [apply nc_read_poll_ok; [done|]|].
  { rewrite Hin. intros E. apply app_eq_nil in E as [E _]. by apply framed_nonempty in E. }
  intros r [s2 w2] (Hr & Es & _ & Hi2 & Ho2). cbn [fst snd] in Es, Hi2, Ho2. subst s2.
  replace (r <? 1) with false by lia. rewrite <- Hi2 in Hin, Hlen, Hf. rewrite <- Ho2.
  eapply wpx_mono; [by apply (nc_read_msg_io_ok F fuel timeout cs rest (set_io_lock (Some true) s) w2)|].
  intros rm sw (-> & -> & Hi3 & Ho3). split; [done|]. split; [|done].
  change (set_io_lock (Some false) s = s). destruct s; simpl in *; by subst.
Qed.
End reliable.
