(* ===== verification/IoWrite.v ===== *)
(** * Writing messages

    The sending half of src/io.c: [nc_write], the framing of the write callback
    [nc_write_clb] with its 1024-byte buffer, and [nc_write_msg_io].  The data
    tree printer of libyang is a parameter: it yields the pieces it passes to
    the callback and whether it succeeded. *)

From S2P Require Import Prelude Session Env Time Locks IoRead.
From Stdlib Require Import ZArith Ascii String Lia.
From stdpp Require Import base list strings gmap numbers.
Open Scope Z_scope.

Definition WRITE_BUFSIZE : Z := 2 * BUFFERSIZE.

Definition dq : ascii := ascii_of_N 34.
Definition NC_NS_BASE : bytes := str "urn:ietf:params:xml:ns:netconf:base:1.0".
Definition NC_NS_NOTIF : bytes := str "urn:ietf:params:xml:ns:netconf:notification:1.0".

(** One call to the transport: the caller fails, or [c] bytes were taken. *)
Inductive wr_step :=
| WFail
| WTook (c : Z) (interrupted : bool).

(** XML entities of [nc_write_clb]. *)
Definition xml_escape (c : ascii) : bytes :=
  if decide (c = "&"%char) then str "&amp;"
  else if decide (c = "<"%char) then str "&lt;"
  else if decide (c = ">"%char) then str "&gt;"
  else [c].

Section write.
Context {W : Type} `{!Env W}.

(** The [switch (session->ti_type)] of [nc_write] for the rest of the data. *)
Definition nc_write_switch (rest : bytes) : SM W wr_step :=
  s ← ses;
  match ti s with
  | TiFd _ fd | TiUnix fd =>
    r ← envcall (sys_write fd rest);
    match r with
    | WrTook n => mret (WTook n false)
    | WrEagain => mret (WTook 0 false)
    | WrEintr => mret (WTook 0 true)
    | WrErrno => mret WFail
    end
  | TiLibssh _ _ =>
    closed ← envcall ssh_channel_is_closed;
    eof ← (if closed : bool then mret true else envcall ssh_channel_is_eof);
    if eof : bool then
      _ ← envcall ssh_channel_is_closed;
      _ ← upd_ses (invalidate NC_SESSION_TERM_DROPPED);
      mret WFail
    else
      r ← envcall (ssh_channel_write rest);
      match r with
      | SshTook n => mret (WTook n false)
      | SshWrError => mret WFail
      end
  | TiOpenssl =>
    r ← envcall (ssl_write rest);
    match r with
    | SslTook n => mret (WTook n false)
    | SslWrFail SSL_ERROR_WANT_WRITE | SslWrFail SSL_ERROR_WANT_READ => mret (WTook 0 false)
    | SslWrFail SSL_ERROR_ZERO_RETURN => mret WFail
    | SslWrFail SSL_ERROR_SYSCALL => mret WFail
    | SslWrFail SSL_ERROR_SSL => mret WFail
    | SslWrFail SSL_ERROR_OTHER => mret WFail
    end
  | TiNone => mret WFail
  end.

Fixpoint nc_write_loop (fuel : nat) (buf : bytes) (written : Z) : SM W Z :=
  match fuel with
  | O => no_fuel
  | S fuel =>
    st ← nc_write_switch (zdrop written buf);
    match st with
    | WFail => mret (-1)
    | WTook c interrupted =>
      _ ← (if (c =? 0) && negb interrupted
           then envcall (λ w, (tt, usleep NC_TIMEOUT_STEP w)) else mret tt);
      let written := written + c in
      if written <? zlen buf then nc_write_loop fuel buf written
      else mret (i32 written)
    end
  end.

Definition nc_write (fuel : nat) (buf : bytes) : SM W Z :=
  s ← ses;
  if negb (status_ok s) then mret (-1)
  else
    connected ← nc_session_is_connected fuel;
    if negb connected then
      _ ← upd_ses (invalidate NC_SESSION_TERM_DROPPED);
      mret (-1)
    else nc_write_loop fuel buf 0.

(** The header of a chunk, printed into [char chunksize[24]]. *)
Definition chunk_header (count : Z) : bytes := (nl :: [hash]) ++ print_dec count ++ [nl].

Definition nc_write_starttag_and_msg (fuel : nat) (buf : bytes) : SM W Z :=
  s ← ses;
  ret ←
    match version s with
    | NC_VERSION_11 =>
      let header := chunk_header (zlen buf) in
      _ ← guarded (zlen header <? 24);
      nc_write fuel header
    | NC_VERSION_10 => mret 0
    end;
  if ret =? -1 then mret (-1)
  else
    c ← nc_write fuel buf;
    if c =? -1 then mret (-1) else mret (i32 (ret + c)).

Definition nc_write_endtag (fuel : nat) : SM W Z :=
  s ← ses;
  match version s with
  | NC_VERSION_11 => nc_write fuel [nl; hash; hash; nl]
  | NC_VERSION_10 => nc_write fuel (str "]]>]]>")
  end.

(** [struct wclb_arg] is the content of its buffer; its [len] is the length. *)
Definition nc_write_clb_flush (fuel : nat) (wbuf : bytes) : SM W (Z * bytes) :=
  match wbuf with
  | [] => mret (0, [])
  | _ =>
    ret ← nc_write_starttag_and_msg fuel wbuf;
    mret (ret, [])
  end.

(** Appending to the buffer: [memcpy(&warg->buf[warg->len], ...)]. *)
Definition buf_append (wbuf data : bytes) : SM W bytes :=
  _ ← guarded (zlen wbuf + zlen data <=? WRITE_BUFSIZE);
  mret (wbuf ++ data).

(** The loop over the characters of XML content. *)
Fixpoint nc_write_clb_xml (fuel : nat) (wbuf buf : bytes) (ret : Z) : SM W (Z * bytes) :=
  match buf with
  | [] => mret (ret, wbuf)
  | ch :: buf =>
    '(c, wbuf) ← (if WRITE_BUFSIZE <=? zlen wbuf + 5 then nc_write_clb_flush fuel wbuf
                  else mret (0, wbuf));
    if c =? -1 then mret (-1, wbuf)
    else
      wbuf ← buf_append wbuf (xml_escape ch);
      nc_write_clb_xml fuel wbuf buf (i32 (ret + zlen (xml_escape ch)))
  end.

(** The write callback.  [None] is a [NULL] buffer: flush and end the message. *)
Definition nc_write_clb (fuel : nat) (wbuf : bytes) (buf : option bytes) (xmlcontent : bool)
    : SM W (Z * bytes) :=
  match buf with
  | None =>
    '(c, wbuf) ← nc_write_clb_flush fuel wbuf;
    if c =? -1 then mret (-1, wbuf)
    else
      c' ← nc_write_endtag fuel;
      if c' =? -1 then mret (-1, wbuf) else mret (i32 (c + c'), wbuf)
  | Some buf =>
    let count := zlen buf in
    '(ret, wbuf) ←
      (if negb (zlen wbuf =? 0) && (WRITE_BUFSIZE <? zlen wbuf + count)
       then nc_write_clb_flush fuel wbuf else mret (0, wbuf));
    if ret =? -1 then mret (-1, wbuf)
    else if negb xmlcontent && (WRITE_BUFSIZE <? count) then
      c ← nc_write_starttag_and_msg fuel buf;
      if c =? -1 then mret (-1, wbuf) else mret (i32 (ret + c), wbuf)
    else if xmlcontent then nc_write_clb_xml fuel wbuf buf ret
    else
      wbuf ← buf_append wbuf buf;
      mret (i32 (ret + count), wbuf)
  end.

Definition nc_write_xmlclb (fuel : nat) (wbuf buf : bytes) : SM W (Z * bytes) :=
  '(r, wbuf) ← nc_write_clb fuel wbuf (Some buf) false;
  if r =? -1 then mret (-1, wbuf) else mret (zlen buf, wbuf).
End write.

(** ** Whole messages *)

(** [struct nc_server_reply]; the data of a reply are the children of its node. *)
Inductive nc_server_reply (node : Type) :=
| ReplyOk
| ReplyData (wd : NC_WD_MODE) (children : list node)
| ReplyError (err : node)
| ReplyOther.
Arguments ReplyOk {node}.
Arguments ReplyData {node} wd children.
Arguments ReplyError {node} err.
Arguments ReplyOther {node}.

(** The variable arguments of [nc_write_msg_io] for each message type. *)
Inductive out_msg (node envelope : Type) :=
| OutRpc (op : node) (attrs : option bytes)
| OutReply (rpc_envp : option envelope) (reply : nc_server_reply node)
| OutNotif (eventtime : bytes) (ntf : node)
| OutHello (capabilities : list bytes) (sid : option Z)
| OutOther (type : NC_MSG_TYPE).
Arguments OutRpc {node envelope} op attrs.
Arguments OutReply {node envelope} rpc_envp reply.
Arguments OutNotif {node envelope} eventtime ntf.
Arguments OutHello {node envelope} capabilities sid.
Arguments OutOther {node envelope} type.

Definition out_type {node envelope} (m : out_msg node envelope) : NC_MSG_TYPE :=
  match m with
  | OutRpc _ _ => NC_MSG_RPC
  | OutReply _ _ => NC_MSG_REPLY
  | OutNotif _ _ => NC_MSG_NOTIF
  | OutHello _ _ => NC_MSG_HELLO
  | OutOther t => t
  end.

(** Printer flags of libyang chosen from the with-defaults mode of a reply. *)
Inductive print_wd := PRINT_WD_NONE | PRINT_WD_EXPLICIT | PRINT_WD_TRIM | PRINT_WD_ALL | PRINT_WD_ALL_TAG.

Definition reply_print_wd (wd : NC_WD_MODE) : print_wd :=
  match wd with
  | NC_WD_UNKNOWN | NC_WD_EXPLICIT => PRINT_WD_EXPLICIT
  | NC_WD_TRIM => PRINT_WD_TRIM
  | NC_WD_ALL => PRINT_WD_ALL
  | NC_WD_ALL_TAG => PRINT_WD_ALL_TAG
  end.

(** libyang: whether a node is an action (a container or a list node), the
    printer, and building an opaque [rpc-reply] envelope around children. *)
Class Printer (node envelope : Type) := {
  is_action : node → bool;
  lyd_print : print_wd → node → list bytes * bool;
  opaq_ok : envelope → node;
  opaq_reply : envelope → list node → node;
}.

Section write_msg.
Context {W : Type} `{!Env W}.
Context {node envelope : Type} `{!Printer node envelope}.

(** A [nc_write_clb] call whose result the caller ignores. *)
Definition emit (fuel : nat) (wbuf data : bytes) (xmlcontent : bool) : SM W bytes :=
  '(_, wbuf) ← nc_write_clb fuel wbuf (Some data) xmlcontent;
  mret wbuf.

(** [lyd_print_clb(nc_write_xmlclb, ...)]: the printer stops at a failed piece. *)
Fixpoint print_pieces (fuel : nat) (wbuf : bytes) (pieces : list bytes) (ok : bool)
    : SM W (bool * bytes) :=
  match pieces with
  | [] => mret (ok, wbuf)
  | p :: pieces =>
    '(r, wbuf) ← nc_write_xmlclb fuel wbuf p;
    if r =? -1 then mret (false, wbuf) else print_pieces fuel wbuf pieces ok
  end.

Definition lyd_print_clb (fuel : nat) (wbuf : bytes) (wd : print_wd) (n : node)
    : SM W (bool * bytes) :=
  let (pieces, ok) := lyd_print wd n in
  print_pieces fuel wbuf pieces ok.

Definition rpc_open (msgid : Z) (attrs : option bytes) : bytes :=
  str "<rpc xmlns=" ++ [dq] ++ NC_NS_BASE ++ [dq] ++ str " message-id=" ++ [dq] ++
  print_dec (u64 (msgid + 1)) ++ [dq] ++ default [] attrs ++ str ">".

Definition action_open : bytes :=
  str "<action xmlns=" ++ [dq] ++ str "urn:ietf:params:xml:ns:yang:1" ++ [dq] ++ str ">".

(** The [NC_MSG_RPC] case; [None] is the jump to [cleanup] with an error. *)
Definition write_rpc (fuel : nat) (op : node) (attrs : option bytes) : SM W (option bytes) :=
  s ← ses;
  ok ← envcall (malloc_ok (zlen (rpc_open (msgid (client s)) attrs) + 1));
  if negb ok then mret None
  else
    wbuf ← emit fuel [] (rpc_open (msgid (client s)) attrs) false;
    wbuf ← (if is_action op then emit fuel wbuf action_open false else mret wbuf);
    '(ok, wbuf) ← lyd_print_clb fuel wbuf PRINT_WD_NONE op;
    if negb ok then mret None
    else
      wbuf ← (if is_action op then emit fuel wbuf (str "</action>") false else mret wbuf);
      wbuf ← emit fuel wbuf (str "</rpc>") false;
      _ ← upd_ses (λ s, set_msgid (u64 (msgid (client s) + 1)) s);
      mret (Some wbuf).

(** The [NC_MSG_REPLY] case.  The children of a data reply, or the error of an
    error reply, are moved under the printed envelope and moved back. *)
Definition write_reply (fuel : nat) (rpc_envp : option envelope) (reply : nc_server_reply node)
    : SM W (option bytes) :=
  match rpc_envp with
  | None =>
    wbuf ← emit fuel [] (ztake (18 + zlen NC_NS_BASE + 2)
             (str "<rpc-reply xmlns=" ++ [dq] ++ NC_NS_BASE ++ [dq] ++ str ">")) false;
    match reply with
    | ReplyError err =>
      '(ok, wbuf) ← lyd_print_clb fuel wbuf PRINT_WD_NONE err;
      if negb ok then mret None
      else
        wbuf ← emit fuel wbuf (ztake 12 (str "</rpc-reply>")) false;
        mret (Some wbuf)
    | _ => crash
    end
  | Some envp =>
    ok ← envcall (lyd_new_opaq2 (str "rpc-reply"));
    if negb ok then mret None
    else
      match reply with
      | ReplyOk =>
        ok ← envcall (lyd_new_opaq2 (str "ok"));
        if negb ok then mret None
        else
          '(ok, wbuf) ← lyd_print_clb fuel [] PRINT_WD_NONE (opaq_reply envp [opaq_ok envp]);
          mret (if ok : bool then Some wbuf else None)
      | ReplyData wd children =>
        '(ok, wbuf) ← lyd_print_clb fuel [] (reply_print_wd wd) (opaq_reply envp children);
        mret (if ok : bool then Some wbuf else None)
      | ReplyError err =>
        '(ok, wbuf) ← lyd_print_clb fuel [] PRINT_WD_NONE (opaq_reply envp [err]);
        mret (if ok : bool then Some wbuf else None)
      | ReplyOther =>
        _ ← nc_write_clb fuel [] None false;
        mret None
      end
  end.

(** The [NC_MSG_NOTIF] case. *)
Definition write_notif (fuel : nat) (eventtime : bytes) (ntf : node) : SM W (option bytes) :=
  wbuf ← emit fuel [] (ztake (21 + 47 + 2)
           (str "<notification xmlns=" ++ [dq] ++ NC_NS_NOTIF ++ [dq] ++ str ">")) false;
  wbuf ← emit fuel wbuf (ztake 11 (str "<eventTime>")) false;
  wbuf ← emit fuel wbuf eventtime false;
  wbuf ← emit fuel wbuf (ztake 12 (str "</eventTime>")) false;
  '(ok, wbuf) ← lyd_print_clb fuel wbuf PRINT_WD_NONE ntf;
  if negb ok then mret None
  else
    wbuf ← emit fuel wbuf (ztake 15 (str "</notification>")) false;
    mret (Some wbuf).

Fixpoint write_capabilities (fuel : nat) (wbuf : bytes) (capabilities : list bytes) : SM W bytes :=
  match capabilities with
  | [] => mret wbuf
  | c :: capabilities =>
    wbuf ← emit fuel wbuf (ztake 12 (str "<capability>")) false;
    wbuf ← emit fuel wbuf c true;
    wbuf ← emit fuel wbuf (ztake 13 (str "</capability>")) false;
    write_capabilities fuel wbuf capabilities
  end.

Definition hello_open : bytes :=
  str "<hello xmlns=" ++ [dq] ++ NC_NS_BASE ++ [dq] ++ str "><capabilities>".

Definition hello_close (sid : option Z) : bytes :=
  match sid with
  | Some sid => str "</capabilities><session-id>" ++ print_dec sid ++ str "</session-id></hello>"
  | None => ztake 23 (str "</capabilities></hello>")
  end.

(** The [NC_MSG_HELLO] case. *)
Definition write_hello (fuel : nat) (capabilities : list bytes) (sid : option Z)
    : SM W (option bytes) :=
  s ← ses;
  match version s with
  | NC_VERSION_11 => mret None
  | NC_VERSION_10 =>
    ok ← envcall (malloc_ok (zlen hello_open + 1));
    if negb ok then mret None
    else
      wbuf ← emit fuel [] hello_open false;
      wbuf ← write_capabilities fuel wbuf capabilities;
      ok ← match sid with
           | Some _ => envcall (malloc_ok (zlen (hello_close sid) + 1))
           | None => mret true
           end;
      if negb ok then mret None
      else
        wbuf ← emit fuel wbuf (hello_close sid) false;
        mret (Some wbuf)
  end.

Definition write_body (fuel : nat) (m : out_msg node envelope) : SM W (option bytes) :=
  match m with
  | OutRpc op attrs => write_rpc fuel op attrs
  | OutReply rpc_envp reply => write_reply fuel rpc_envp reply
  | OutNotif eventtime ntf => write_notif fuel eventtime ntf
  | OutHello capabilities sid => write_hello fuel capabilities sid
  | OutOther _ => mret None
  end.

Definition nc_write_msg_io (fuel : nat) (io_timeout : Z) (m : out_msg node envelope)
    : SM W NC_MSG_TYPE :=
  s ← ses;
  if negb (status_ok s) then mret NC_MSG_ERROR
  else
    ret ← nc_session_io_lock io_timeout;
    if ret <? 0 then mret NC_MSG_ERROR
    else if ret =? 0 then mret NC_MSG_WOULDBLOCK
    else
      body ← write_body fuel m;
      ret ←
        match body with
        | None => mret NC_MSG_ERROR
        | Some wbuf =>
          _ ← nc_write_clb fuel wbuf None false;
          s ← ses;
          mret (if status_ok s then out_type m else NC_MSG_ERROR)
        end;
      _ ← nc_session_io_unlock;
      mret ret.
End write_msg.
