(* ===== verification/IoWriteProofs.v ===== *)
(** * Proofs about writing

    In any environment the write functions stay within their buffers and only
    append to what was sent; over a working transport they put exactly the
    framed message on the wire. *)

From S2P Require Import Prelude Session Env Time Locks IoRead IoReadProofs.
From S2P Require Import Framing IoWrite.
From Stdlib Require Import ZArith Ascii String Lia.
From stdpp Require Import base list strings gmap numbers.
Open Scope Z_scope.

Lemma dec_go_length fuel n acc : (length (dec_go fuel n acc) ≤ fuel + length acc)%nat.
Proof.
  revert n acc. induction fuel as [|fuel IH]; intros n acc; cbn [dec_go]; [lia|].
  destruct (n <? 10); simpl; [lia|]. etrans; [apply IH|]. simpl. lia.
Qed.

Lemma print_dec_length n : zlen (print_dec n) ≤ 20.
Proof. unfold zlen, print_dec. pose proof (dec_go_length 20 n []) as H. change (length (@nil ascii)) with 0%nat in H. lia. Qed.

(** The chunk header fits its 24-byte buffer, the terminating NUL included. *)
Lemma chunk_header_length n : zlen (chunk_header n) < 24.
Proof.
  unfold chunk_header. rewrite !zlen_app. pose proof (print_dec_length n).
  change (zlen (nl :: [hash])) with 2. change (zlen [nl]) with 1. lia.
Qed.

(** What a piece of data looks like on the wire. *)
Definition wire (v : NC_VERSION) (c : bytes) : bytes :=
  match v with NC_VERSION_10 => c | NC_VERSION_11 => chunk11 c end.

Definition endtag_of (v : NC_VERSION) : bytes :=
  match v with NC_VERSION_10 => NC_VERSION_10_ENDTAG | NC_VERSION_11 => [nl; hash; hash; nl] end.

Definition wires (v : NC_VERSION) (cs : list bytes) : bytes := concat (map (wire v) cs).

Definition encoded (xmlcontent : bool) (data : bytes) : bytes :=
  if xmlcontent then concat (map xml_escape data) else data.

Lemma wires_app v a b : wires v (a ++ b) = wires v a ++ wires v b.
Proof. unfold wires. by rewrite map_app, concat_app. Qed.

Lemma wires_10 cs : wires NC_VERSION_10 cs = concat cs.
Proof. unfold wires. induction cs as [|c cs IH]; simpl; [done|]. by rewrite IH. Qed.

Lemma xml_escape_length c : 1 ≤ zlen (xml_escape c) ≤ 5.
Proof. unfold xml_escape. repeat case_decide; vm_compute; split; congruence. Qed.

(** The handles of a session are real descriptors. *)
Definition handles_ok (s : nc_session) : Prop :=
  match ti s with
  | TiFd fd _ | TiUnix fd => fd ≠ -1
  | _ => True
  end.

Section write_ok.
Context {W : Type} `{RL : Reliable W}.
Implicit Types (s : nc_session) (w : W).

Definition ready s : Prop := open_session s ∧ handles_ok s.

Lemma poll_retry_ok F fuel fd s w :
  (0 < fuel)%nat →
  wpx F (poll_retry fuel fd) (λ b sw, b = true ∧ sw.1 = s ∧ no_traffic w sw.2) (s, w).
Proof.
  intros Hf. destruct fuel as [|fuel]; [lia|]. cbn [poll_retry].
  apply wpx_bind, wpx_envcall. destruct (rel_poll fd 0 w) as (ret & i & E & Hr).
  pose proof (poll_law fd 0 w) as L. destruct (sys_poll fd 0 w) as [r w']. simpl in *. subst r.
  destruct (ret =? -1) eqn:E2; [lia|]. apply wpx_ret. simpl. by rewrite andb_false_r.
Qed.

Lemma nc_session_is_connected_ok F fuel s w :
  ready s → (0 < fuel)%nat →
  wpx F (nc_session_is_connected fuel) (λ b sw, b = true ∧ sw.1 = s ∧ no_traffic w sw.2) (s, w).
Proof.
  intros [[_ Ht] Hh] Hf. unfold nc_session_is_connected, handles_ok in *.
  apply wpx_bind, wpx_ses. destruct (ti s) as [|fd o|fd|ch nx|]; [done|..].
  1,2: destruct (fd =? -1) eqn:E; [lia|by apply poll_retry_ok].
  - apply wpx_envcall. split; [apply rel_ssh_conn|split; [done|apply ssh_conn_law]].
  - apply wpx_bind, wpx_envcall. pose proof (rel_ssl_fd w). pose proof (ssl_fd_law w) as L.
    destruct (ssl_get_fd w) as [fd w']. simpl in *. destruct (fd =? -1) eqn:E; [lia|].
    eapply wpx_mono; [by apply poll_retry_ok|]. intros b sw (-> & -> & ?).
    split; [done|split; [done|]]. etrans; [exact L|done].
Qed.

(** One call takes a nonempty part of the data. *)
Lemma nc_write_switch_ok F rest s w :
  ti s ≠ TiNone → rest ≠ [] →
  wpx F (nc_write_switch rest)
    (λ st sw, ∃ n i, st = WTook n i ∧ 0 < n ≤ zlen rest ∧ sw.1 = s ∧
       inq sw.2 = inq w ∧ outq sw.2 = outq w ++ ztake n rest) (s, w).
Proof.
  intros Ht Hne. unfold nc_write_switch. apply wpx_bind, wpx_ses.
  destruct (ti s) as [|? fd|fd|? ?|]; [done|..].
  1,2: apply wpx_bind, wpx_envcall; destruct (rel_sys_write fd rest w Hne) as (n & E & Hn);
    pose proof (sys_write_law fd rest w) as L;
    destruct (sys_write fd rest w) as [r w']; simpl in *; subst r;
    apply wpx_ret; exists n, false; destruct_and?; repeat split; auto; lia.
  - apply wpx_bind, wpx_envcall. pose proof (rel_closed w) as E1. pose proof (ssh_closed_law w) as L1.
    destruct (ssh_channel_is_closed w) as [b w1]. simpl in *. subst b.
    apply wpx_bind, wpx_envcall. pose proof (rel_eof w1) as E2. pose proof (ssh_eof_law w1) as L2.
    destruct (ssh_channel_is_eof w1) as [b w2]. simpl in *. subst b.
    apply wpx_bind, wpx_envcall. destruct (rel_ssh_write rest w2 Hne) as (n & E & Hn).
    pose proof (ssh_write_law rest w2) as L.
    destruct (ssh_channel_write rest w2) as [r w']; simpl in *; subst r.
    apply wpx_ret; exists n, false. simpl. destruct_and?. repeat split; auto; try lia; congruence.
  - apply wpx_bind, wpx_envcall. destruct (rel_ssl_write rest w Hne) as (n & E).
    pose proof (ssl_write_law rest w) as L.
    destruct (ssl_write rest w) as [r w']; simpl in *; subst r.
    apply wpx_ret; exists n, false. destruct_and?. repeat split; auto; lia.
Qed.

Lemma nc_write_loop_ok F fuel buf written s w :
  ti s ≠ TiNone → 0 ≤ written < zlen buf → zlen buf < 2 ^ 31 →
  zlen buf - written < Z.of_nat fuel →
  wpx F (nc_write_loop fuel buf written)
    (λ r sw, r = zlen buf ∧ sw.1 = s ∧ inq sw.2 = inq w ∧
       outq sw.2 = outq w ++ zdrop written buf) (s, w).
Proof.
  intros Ht. revert written w.
  induction fuel as [|fuel IH]; intros written w Hw Hb Hf; cbn [nc_write_loop]; [lia|].
  assert (Hz : zlen (zdrop written buf) = zlen buf - written) by (apply zlen_zdrop; lia).
  apply wpx_bind. eapply wpx_mono; [apply nc_write_switch_ok; [done|]|].
  { intros E. rewrite E in Hz. change (zlen (@nil ascii)) with 0 in Hz. lia. }
  intros st [s1 w1] (n & i & -> & Hn & Es & Hi & Ho). simpl in Es, Hi, Ho. subst s1.
  apply wpx_bind. eapply wpx_mono with (Q := λ _ sw, sw.1 = s ∧ inq sw.2 = inq w1 ∧ outq sw.2 = outq w1).
  { destruct (_ && _); [|done]. apply wpx_envcall. simpl. split; [done|]. apply usleep_law. }
  intros _ [s2 w2] (Es & Hi2 & Ho2). simpl in Es, Hi2, Ho2. subst s2.
  assert (Hsplit : zdrop written buf = ztake n (zdrop written buf) ++ zdrop (written + n) buf).
  { rewrite <- (ztake_zdrop n (zdrop written buf)) at 1. f_equal. unfold zdrop.
    rewrite drop_drop. f_equal. lia. }
  destruct (_ <? _) eqn:E.
  - apply Z.ltb_lt in E. eapply wpx_mono; [apply IH; lia|].
    intros r sw (-> & -> & Hi3 & Ho3). repeat split; [congruence|].
    rewrite Ho3, Ho2, Ho, <- app_assoc, <- Hsplit. done.
  - apply Z.ltb_ge in E. apply wpx_ret. simpl.
    assert (written + n = zlen buf) as -> by lia. rewrite i32_small by (pose proof (zlen_nonneg buf); lia).
    repeat split; [congruence|]. rewrite Ho2, Ho. f_equal. apply ztake_all. lia.
Qed.

Lemma nc_write_ok F fuel buf s w :
  ready s → 0 < zlen buf < 2 ^ 31 → zlen buf < Z.of_nat fuel →
  wpx F (nc_write fuel buf)
    (λ r sw, r = zlen buf ∧ sw.1 = s ∧ inq sw.2 = inq w ∧ outq sw.2 = outq w ++ buf) (s, w).
Proof.
  intros Hs Hb Hf. unfold nc_write. apply wpx_bind, wpx_ses.
  pose proof Hs as [[Hok Ht] Hh]. rewrite Hok. simpl.
  apply wpx_bind. eapply wpx_mono; [apply nc_session_is_connected_ok; [done|lia]|].
  intros b [s1 w1] (-> & Es & (_ & Hi & Ho)). simpl in *. subst s1.
  rewrite <- Hi, <- Ho. eapply wpx_mono; [apply nc_write_loop_ok; try done; lia|].
  intros r sw H. exact H.
Qed.

Lemma nc_write_starttag_and_msg_ok F fuel buf s w :
  ready s → 0 < zlen buf < 2 ^ 30 → zlen buf + 24 < Z.of_nat fuel →
  wpx F (nc_write_starttag_and_msg fuel buf)
    (λ r sw, 0 ≤ r ≤ zlen buf + 24 ∧ sw.1 = s ∧ inq sw.2 = inq w ∧
       outq sw.2 = outq w ++ wire (version s) buf) (s, w).
Proof.
  intros Hs Hb Hf. unfold nc_write_starttag_and_msg. apply wpx_bind, wpx_ses.
  pose proof (chunk_header_length (zlen buf)) as Hh.
  apply wpx_bind. eapply wpx_mono with (Q := λ r sw, 0 ≤ r < 24 ∧ sw.1 = s ∧ inq sw.2 = inq w ∧
    outq sw.2 ++ buf = outq w ++ wire (version s) buf).
  { destruct (version s).
    - by apply wpx_ret.
    - assert (0 < zlen (chunk_header (zlen buf))).
      { unfold chunk_header. simpl. rewrite zlen_cons. pose proof (zlen_nonneg (hash :: print_dec (zlen buf) ++ [nl])). lia. }
      apply wpx_bind, wpx_guarded; [by apply Z.ltb_lt|].
      eapply wpx_mono; [apply nc_write_ok; [done|lia|lia]|].
      intros r sw (-> & -> & -> & ->). repeat split; [lia|lia|].
      unfold chunk_header, wire, chunk11. by rewrite <- !app_assoc. }
  intros r [s1 w1] (Hr & Es & Hi & Ho). simpl in Es, Hi, Ho. subst s1.
  destruct (r =? -1) eqn:E; [lia|]. apply wpx_bind.
  eapply wpx_mono; [apply nc_write_ok; [done|lia|lia]|].
  intros c [s2 w2] (-> & Es & Hi2 & Ho2). simpl in *. subst s2.
  destruct (zlen buf =? -1) eqn:E2; [lia|]. apply wpx_ret. simpl.
  rewrite i32_small by lia. repeat split; [lia|lia|congruence..].
Qed.

Lemma nc_write_endtag_ok F fuel s w :
  ready s → 6 < Z.of_nat fuel →
  wpx F (nc_write_endtag fuel)
    (λ r sw, 0 ≤ r ≤ 6 ∧ sw.1 = s ∧ inq sw.2 = inq w ∧
       outq sw.2 = outq w ++ endtag_of (version s)) (s, w).
Proof.
  intros Hs Hf. unfold nc_write_endtag. apply wpx_bind, wpx_ses.
  destruct (version s).
  - change (str "]]>]]>") with NC_VERSION_10_ENDTAG.
    eapply wpx_mono; [apply nc_write_ok; [done|by vm_compute|by change (zlen NC_VERSION_10_ENDTAG) with 6]|].
    intros r sw (-> & -> & -> & ->). by vm_compute.
  - eapply wpx_mono; [apply nc_write_ok; [done|by vm_compute|]|].
    { change (zlen [nl; hash; hash; nl]) with 4. lia. }
    intros r sw (-> & -> & -> & ->). by vm_compute.
Qed.

(** ** The write callback

    [clb_post data wbuf]: what was buffered and the new data are now partly on
    the wire, in nonempty pieces, and partly in the buffer. *)
Definition clb_post s w (before : bytes) (wbuf : bytes) (sw : nc_session * W) : Prop :=
  sw.1 = s ∧ inq sw.2 = inq w ∧ zlen wbuf ≤ WRITE_BUFSIZE ∧
  ∃ cs, chunks_ok cs ∧ outq sw.2 = outq w ++ wires (version s) cs ∧ before = concat cs ++ wbuf.

Lemma clb_post_trans s w w1 b wbuf1 more wbuf2 sw :
  clb_post s w b wbuf1 (s, w1) → clb_post s w1 (wbuf1 ++ more) wbuf2 sw →
  clb_post s w (b ++ more) wbuf2 sw.
Proof.
  intros (_ & Hi1 & _ & cs1 & Hc1 & Ho1 & ->) (Es & Hi2 & Hl2 & cs2 & Hc2 & Ho2 & E).
  simpl in *. split; [done|]. split; [congruence|]. split; [done|]. exists (cs1 ++ cs2).
  split; [by apply Forall_app|]. split.
  - rewrite Ho2, Ho1, wires_app. by rewrite app_assoc.
  - rewrite concat_app, <- !app_assoc. by f_equal.
Qed.

Lemma clb_post_keep s w wbuf : zlen wbuf ≤ WRITE_BUFSIZE → clb_post s w wbuf wbuf (s, w).
Proof.
  intros H. split; [done|]. split; [done|]. split; [done|]. exists [].
  split; [constructor|]. split; [|done]. unfold wires. simpl. by rewrite app_nil_r.
Qed.

Lemma nc_write_clb_flush_ok F fuel wbuf s w :
  ready s → zlen wbuf ≤ WRITE_BUFSIZE → WRITE_BUFSIZE + 24 < Z.of_nat fuel →
  wpx F (nc_write_clb_flush fuel wbuf)
    (λ rb sw, 0 ≤ rb.1 ≤ zlen wbuf + 24 ∧ rb.2 = [] ∧ clb_post s w wbuf [] sw) (s, w).
Proof.
  intros Hs Hb Hf. unfold nc_write_clb_flush. destruct wbuf as [|b wbuf].
  { apply wpx_ret. simpl. split; [by vm_compute|]. split; [done|]. by apply clb_post_keep. }
  set (l := b :: wbuf) in *.
  assert (Hl : 0 < zlen l) by (unfold l; rewrite zlen_cons; pose proof (zlen_nonneg wbuf); lia).
  unfold WRITE_BUFSIZE, BUFFERSIZE in *.
  apply wpx_bind. eapply wpx_mono; [apply nc_write_starttag_and_msg_ok; [done|lia|lia]|].
  intros r [s1 w1] (Hr & Es & Hi & Ho). simpl in Es, Hi, Ho. subst s1. apply wpx_ret. simpl.
  split; [lia|]. split; [done|]. split; [done|]. split; [done|]. split; [by vm_compute|].
  exists [l]. split; [by repeat constructor|]. split.
  - unfold wires. simpl. by rewrite app_nil_r.
  - simpl. by rewrite !app_nil_r.
Qed.

Lemma buf_append_ok F wbuf data s w :
  zlen wbuf + zlen data ≤ WRITE_BUFSIZE →
  wpx F (buf_append wbuf data)
    (λ b sw, b = wbuf ++ data ∧ clb_post s w (wbuf ++ data) b sw) (s, w).
Proof.
  intros H. unfold buf_append. apply wpx_bind, wpx_guarded; [by apply Z.leb_le|].
  apply wpx_ret. split; [done|]. apply clb_post_keep. by rewrite zlen_app.
Qed.

Lemma nc_write_clb_xml_ok F fuel wbuf buf ret s w :
  ready s → zlen wbuf ≤ WRITE_BUFSIZE → WRITE_BUFSIZE + 24 < Z.of_nat fuel →
  0 ≤ ret → ret + 5 * zlen buf < 2 ^ 31 →
  wpx F (nc_write_clb_xml fuel wbuf buf ret)
    (λ rb sw, 0 ≤ rb.1 < 2 ^ 31 ∧ clb_post s w (wbuf ++ concat (map xml_escape buf)) rb.2 sw) (s, w).
Proof.
  intros Hs Hb Hf. revert wbuf ret w Hb.
  induction buf as [|ch buf IH]; intros wbuf ret w Hb Hr Hrb; cbn [nc_write_clb_xml].
  { apply wpx_ret. simpl. rewrite app_nil_r. change (zlen (@nil ascii)) with 0 in Hrb.
    split; [lia|]. by apply clb_post_keep. }
  rewrite zlen_cons in Hrb. pose proof (zlen_nonneg buf). pose proof (xml_escape_length ch).
  pose proof (zlen_nonneg wbuf).
  apply wpx_bind. eapply wpx_mono with (Q := λ rb sw, 0 ≤ rb.1 ∧ zlen rb.2 + 5 ≤ WRITE_BUFSIZE ∧
     clb_post s w wbuf rb.2 sw).
  { destruct (_ <=? _) eqn:E.
    - eapply wpx_mono; [by apply nc_write_clb_flush_ok|]. intros rb sw (? & -> & ?).
      split; [lia|]. split; [by vm_compute|done].
    - apply wpx_ret. simpl. split; [lia|]. split; [lia|]. by apply clb_post_keep. }
  intros [c wb] [s1 w1] (Hc & Hl & Hp). simpl in Hc, Hl, Hp.
  destruct (c =? -1) eqn:E; [lia|].
  pose proof Hp as (Es & _). simpl in Es. subst s1.
  apply wpx_bind. eapply wpx_mono; [apply buf_append_ok; lia|].
  intros wb2 [s2 w2] [-> Hp2]. pose proof Hp2 as (Es & _ & Hlen & _). simpl in Es. subst s2.
  rewrite i32_small by lia.
  eapply wpx_mono; [apply IH; [done|lia|lia]|].
  intros rb sw [Hrb2 Hp3]. split; [done|]. cbn [map concat]. rewrite app_assoc.
  eapply clb_post_trans; [|exact Hp3]. eapply clb_post_trans; [exact Hp|]. done.
Qed.

(** The amount of data one call of the callback may get. *)
Definition piece_ok (fuel : nat) (data : bytes) : Prop :=
  zlen data < 2 ^ 28 ∧ zlen data + WRITE_BUFSIZE + 24 < Z.of_nat fuel.

Lemma nc_write_clb_data_ok F fuel wbuf data xml s w :
  ready s → zlen wbuf ≤ WRITE_BUFSIZE → piece_ok fuel data →
  wpx F (nc_write_clb fuel wbuf (Some data) xml)
    (λ rb sw, 0 ≤ rb.1 < 2 ^ 31 ∧ clb_post s w (wbuf ++ encoded xml data) rb.2 sw) (s, w).
Proof.
  intros Hs Hb [Hd Hf]. unfold nc_write_clb. pose proof (zlen_nonneg data). pose proof (zlen_nonneg wbuf).
  apply wpx_bind.
  eapply wpx_mono with (Q := λ rb sw, 0 ≤ rb.1 ≤ WRITE_BUFSIZE + 24 ∧
     (rb.2 = [] ∨ zlen rb.2 + zlen data ≤ WRITE_BUFSIZE) ∧ clb_post s w wbuf rb.2 sw).
  { destruct (zlen wbuf =? 0) eqn:E0; simpl.
    { apply wpx_ret. simpl. split; [by vm_compute|]. apply Z.eqb_eq, zlen_nil_inv in E0. subst.
      split; [by left|]. by apply clb_post_keep. }
    destruct (_ <? _) eqn:E.
    - eapply wpx_mono; [apply nc_write_clb_flush_ok; [done..|lia]|].
      intros rb sw (? & -> & ?). split; [lia|]. split; [by left|done].
    - apply wpx_ret. simpl. split; [by vm_compute|]. split; [right; lia|]. by apply clb_post_keep. }
  intros [ret wb] [s1 w1] (Hr & Hl & Hp). simpl in Hr, Hl.
  pose proof Hp as (Es & _ & Hlen & _). simpl in Es, Hlen. subst s1.
  destruct (ret =? -1) eqn:E; [lia|]. clear E. unfold encoded.
  destruct (negb xml && _) eqn:E.
  - apply andb_true_iff in E as [E1 E2]. apply negb_true_iff in E1. subst xml.
    apply Z.ltb_lt in E2. destruct Hl as [->|Hl]; [|pose proof (zlen_nonneg wb); lia].
    unfold WRITE_BUFSIZE, BUFFERSIZE in *.
    apply wpx_bind. eapply wpx_mono; [apply nc_write_starttag_and_msg_ok; [done|lia|lia]|].
    intros c [s2 w2] (Hc & Es & Hi & Ho). simpl in Es, Hi, Ho. subst s2.
    destruct (c =? -1) eqn:E; [lia|]. apply wpx_ret. simpl. rewrite i32_small by lia.
    split; [lia|]. eapply clb_post_trans; [exact Hp|]. simpl.
    split; [done|]. split; [done|]. split; [by vm_compute|]. exists [data].
    split; [repeat constructor; by intros ->|]. split.
    + unfold wires. simpl. by rewrite app_nil_r.
    + simpl. by rewrite !app_nil_r.
  - destruct xml.
    + unfold WRITE_BUFSIZE, BUFFERSIZE in *.
      eapply wpx_mono; [apply nc_write_clb_xml_ok; try done; unfold WRITE_BUFSIZE, BUFFERSIZE; lia|].
      intros rb sw [? Hp2]. split; [done|]. by eapply clb_post_trans.
    + simpl in E. apply Z.ltb_ge in E.
      apply wpx_bind. eapply wpx_mono; [apply buf_append_ok|].
      { destruct Hl as [->|Hl]; [|lia]. change (zlen (@nil ascii)) with 0. lia. }
      intros wb2 [s2 w2] [-> Hp2]. apply wpx_ret. simpl.
      unfold WRITE_BUFSIZE, BUFFERSIZE in *. rewrite i32_small by lia.
      split; [lia|]. by eapply clb_post_trans.
Qed.

(** Ending a message flushes the buffer and writes the end tag. *)
Lemma nc_write_clb_end_ok F fuel wbuf s w :
  ready s → zlen wbuf ≤ WRITE_BUFSIZE → WRITE_BUFSIZE + 24 < Z.of_nat fuel →
  wpx F (nc_write_clb fuel wbuf None false)
    (λ rb sw, 0 ≤ rb.1 ∧ sw.1 = s ∧ inq sw.2 = inq w ∧
       ∃ cs, chunks_ok cs ∧ concat cs = wbuf ∧
         outq sw.2 = outq w ++ wires (version s) cs ++ endtag_of (version s)) (s, w).
Proof.
  intros Hs Hb Hf. unfold nc_write_clb. apply wpx_bind.
  eapply wpx_mono; [by apply nc_write_clb_flush_ok|].
  intros [c wb] [s1 w1] (Hc & Hwb & (Es & Hi & _ & cs & Hcs & Ho & E)). simpl in *. subst s1 wb.
  destruct (c =? -1) eqn:E2; [lia|]. unfold WRITE_BUFSIZE, BUFFERSIZE in *.
  apply wpx_bind. eapply wpx_mono; [apply nc_write_endtag_ok; [done|lia]|].
  intros c' [s2 w2] (Hc' & Es & Hi2 & Ho2). simpl in *. subst s2.
  destruct (c' =? -1) eqn:E3; [lia|]. apply wpx_ret. simpl.
  rewrite i32_small by lia. split; [lia|]. split; [done|]. split; [congruence|].
  exists cs. split; [done|]. split; [by rewrite E, app_nil_r|].
  by rewrite Ho2, Ho, app_assoc.
Qed.
End write_ok.

(** ** Whole messages over a working transport *)

Section write_msg_ok.
Context {W : Type} `{RL : Reliable W}.
Context {node envelope : Type} `{!Printer node envelope}.
Implicit Types (s : nc_session) (w : W).

(** The text of a message, before framing. *)
Definition printed (wd : print_wd) (n : node) : bytes := concat (lyd_print wd n).1.

Definition capability_elem (c : bytes) : bytes :=
  str "<capability>" ++ encoded true c ++ str "</capability>".

Definition msg_payload s (m : out_msg node envelope) : bytes :=
  match m with
  | OutRpc op attrs =>
    rpc_open (msgid (client s)) attrs ++
    (if is_action op then action_open else []) ++ printed PRINT_WD_NONE op ++
    (if is_action op then str "</action>" else []) ++ str "</rpc>"
  | OutReply None (ReplyError err) =>
    (str "<rpc-reply xmlns=" ++ [dq] ++ NC_NS_BASE ++ [dq] ++ str ">") ++
    printed PRINT_WD_NONE err ++ str "</rpc-reply>"
  | OutReply (Some e) ReplyOk => printed PRINT_WD_NONE (opaq_reply e [opaq_ok e])
  | OutReply (Some e) (ReplyData wd children) => printed (reply_print_wd wd) (opaq_reply e children)
  | OutReply (Some e) (ReplyError err) => printed PRINT_WD_NONE (opaq_reply e [err])
  | OutNotif eventtime ntf =>
    (str "<notification xmlns=" ++ [dq] ++ NC_NS_NOTIF ++ [dq] ++ str ">") ++
    str "<eventTime>" ++ eventtime ++ str "</eventTime>" ++
    printed PRINT_WD_NONE ntf ++ str "</notification>"
  | OutHello caps sid =>
    hello_open ++ concat (map capability_elem caps) ++ hello_close sid
  | _ => []
  end.

(** The session after the message: an RPC takes the next message id. *)
Definition after_msg (m : out_msg node envelope) s : nc_session :=
  match m with
  | OutRpc _ _ => set_msgid (u64 (msgid (client s) + 1)) s
  | _ => s
  end.

Definition printable (fuel : nat) (wd : print_wd) (n : node) : Prop :=
  (lyd_print wd n).2 = true ∧ Forall (piece_ok fuel) (lyd_print wd n).1.

(** Messages the library builds: the printer succeeds and hands over pieces of
    reasonable size. *)
Definition msg_ok (fuel : nat) s (m : out_msg node envelope) : Prop :=
  WRITE_BUFSIZE + 300 < Z.of_nat fuel ∧
  match m with
  | OutRpc op attrs => printable fuel PRINT_WD_NONE op ∧ piece_ok fuel (rpc_open (msgid (client s)) attrs)
  | OutReply None (ReplyError err) => printable fuel PRINT_WD_NONE err
  | OutReply (Some e) ReplyOk => printable fuel PRINT_WD_NONE (opaq_reply e [opaq_ok e])
  | OutReply (Some e) (ReplyData wd cs) => printable fuel (reply_print_wd wd) (opaq_reply e cs)
  | OutReply (Some e) (ReplyError err) => printable fuel PRINT_WD_NONE (opaq_reply e [err])
  | OutNotif eventtime ntf => piece_ok fuel eventtime ∧ printable fuel PRINT_WD_NONE ntf
  | OutHello caps sid => version s = NC_VERSION_10 ∧ Forall (piece_ok fuel) caps
  | _ => False
  end.

Lemma piece_small fuel data :
  WRITE_BUFSIZE + 300 < Z.of_nat fuel → zlen data ≤ 200 → piece_ok fuel data.
Proof. unfold piece_ok. lia. Qed.

Lemma emit_ok F fuel wbuf data xml s w w0 b :
  ready s → piece_ok fuel data → clb_post s w0 b wbuf (s, w) →
  wpx F (emit fuel wbuf data xml)
    (λ wb sw, sw.1 = s ∧ clb_post s w0 (b ++ encoded xml data) wb sw) (s, w).
Proof.
  intros Hs Hp Hb. unfold emit. pose proof Hb as (_ & _ & Hl & _). apply wpx_bind.
  eapply wpx_mono; [by apply nc_write_clb_data_ok|].
  intros [r wb] [s1 w1] [_ Hp2]. simpl in Hp2. apply wpx_ret.
  split; [apply Hp2|]. by eapply clb_post_trans.
Qed.

Lemma print_pieces_ok F fuel wbuf pieces s w w0 b :
  ready s → Forall (piece_ok fuel) pieces → clb_post s w0 b wbuf (s, w) →
  wpx F (print_pieces fuel wbuf pieces true)
    (λ rb sw, rb.1 = true ∧ sw.1 = s ∧ clb_post s w0 (b ++ concat pieces) rb.2 sw) (s, w).
Proof.
  intros Hs Hp. revert wbuf w b. induction Hp as [|p pieces Hp _ IH]; intros wbuf w b Hb;
    cbn [print_pieces].
  { apply wpx_ret. simpl. by rewrite app_nil_r. }
  unfold nc_write_xmlclb. pose proof Hb as (_ & _ & Hl & _). apply wpx_bind, wpx_bind.
  eapply wpx_mono; [by apply nc_write_clb_data_ok|].
  intros [r wb] [s1 w1] [Hr Hp2]. simpl in Hr, Hp2. pose proof Hp2 as (Es & _). simpl in Es. subst s1.
  destruct (r =? -1) eqn:E; [lia|]. apply wpx_ret. pose proof (zlen_nonneg p).
  destruct (zlen p =? -1) eqn:E2; [lia|]. simpl. rewrite app_assoc.
  apply IH. by eapply clb_post_trans.
Qed.

Lemma lyd_print_clb_ok F fuel wbuf wd n s w w0 b :
  ready s → printable fuel wd n → clb_post s w0 b wbuf (s, w) →
  wpx F (lyd_print_clb fuel wbuf wd n)
    (λ rb sw, rb.1 = true ∧ sw.1 = s ∧ clb_post s w0 (b ++ printed wd n) rb.2 sw) (s, w).
Proof.
  intros Hs [Hok Hp] Hb. unfold lyd_print_clb, printed.
  destruct (lyd_print wd n) as [pieces ok]. simpl in *. subst ok. by apply print_pieces_ok.
Qed.

(** Symbolic execution of the message bodies. *)
Ltac do_emit_by Hs tac :=
  apply wpx_bind; eapply wpx_mono; [eapply emit_ok; [exact Hs|tac|eassumption]|
   let wb := fresh "wb" in let s1 := fresh "s" in let w1 := fresh "w" in
   let E := fresh in let Hp := fresh "Hp" in
   intros wb [s1 w1] [E Hp]; cbn [fst] in E; subst s1].

Ltac do_emit Hs := do_emit_by Hs ltac:(apply piece_small; [assumption|by vm_compute]).

Ltac do_print Hs :=
  apply wpx_bind; eapply wpx_mono; [eapply lyd_print_clb_ok; [exact Hs|eassumption|eassumption]|];
  let ok := fresh "ok" in let wb := fresh "wb" in let s1 := fresh "s" in let w1 := fresh "w" in
  let E := fresh in let E2 := fresh in let Hp := fresh "Hp" in
  intros [ok wb] [s1 w1] (E & E2 & Hp); cbn [fst snd] in E, E2, Hp; subst ok s1; cbn [negb].

Definition body_post s w (m : out_msg node envelope) (r : option bytes) (sw : nc_session * W) : Prop :=
  ∃ wb w', r = Some wb ∧ sw = (after_msg m s, w') ∧ clb_post s w (msg_payload s m) wb (s, w').

Lemma clb_post_nil s w w' : no_traffic w w' → clb_post s w [] [] (s, w').
Proof.
  intros (_ & Hi & Ho). split; [done|]. split; [done|]. split; [by vm_compute|].
  exists []. split; [constructor|]. split; [|done]. simpl. by rewrite app_nil_r.
Qed.

Lemma write_rpc_ok F fuel op attrs s w :
  ready s → msg_ok fuel s (OutRpc op attrs) →
  wpx F (write_rpc fuel op attrs) (body_post s w (OutRpc op attrs)) (s, w).
Proof.
  intros Hs (Hf & Hp & Ho). unfold write_rpc. apply wpx_bind, wpx_ses.
  apply wpx_bind, wpx_malloc. intros b w1 Hq _ ->.
  pose proof (zlen_nonneg (rpc_open (msgid (client s)) attrs)).
  rewrite rel_malloc by (destruct Ho; lia). cbn [negb].
  pose proof (clb_post_nil s w w1 (quiet_no_traffic _ _ Hq)) as H0.
  do_emit_by Hs ltac:(done). unfold body_post, msg_payload. destruct (is_action op).
  - do_emit Hs. do_print Hs. do_emit Hs. do_emit Hs.
    apply wpx_bind, wpx_upd_ses, wpx_ret. eexists _, _. split; [done|]. split; [done|].
    by rewrite !app_assoc.
  - apply wpx_bind, wpx_ret. do_print Hs. apply wpx_bind, wpx_ret. do_emit Hs.
    apply wpx_bind, wpx_upd_ses, wpx_ret. eexists _, _. split; [done|]. split; [done|].
    by rewrite !app_assoc, !app_nil_r.
Qed.

Lemma write_reply_ok F fuel envp reply s w :
  ready s → msg_ok fuel s (OutReply envp reply) →
  wpx F (write_reply fuel envp reply) (body_post s w (OutReply envp reply)) (s, w).
Proof.
  intros Hs (Hf & Hp). unfold write_reply, body_post.
  assert (Hnew : ∀ w0 n Q, no_traffic w w0 → (∀ w1, no_traffic w w1 → Q true (s, w1)) →
    wpx F (envcall (lyd_new_opaq2 n)) Q (s, w0)).
  { intros w0 n Q H0 HQ. apply wpx_envcall. rewrite rel_lyd_new. apply HQ.
    etrans; [exact H0|apply lyd_new_law]. }
  assert (Hprint : ∀ w1 wd n, printable fuel wd n → no_traffic w w1 →
    wpx F ('(ok, wbuf) ← lyd_print_clb fuel [] wd n; mret (if ok : bool then Some wbuf else None))
      (λ r sw, ∃ wb w', r = Some wb ∧ sw = (s, w') ∧ clb_post s w (printed wd n) wb (s, w')) (s, w1)).
  { intros w1 wd n Hpr Hw. pose proof (clb_post_nil s w w1 Hw) as H0. do_print Hs.
    apply wpx_ret. eauto. }
  destruct envp as [e|].
  - apply wpx_bind, Hnew; [done|]. intros w1 Hw1. cbn [negb].
    destruct reply as [|wd cs|err|]; [|by apply Hprint|by apply Hprint|done].
    apply wpx_bind, Hnew; [done|]. intros w2 Hw2. by apply Hprint.
  - destruct reply as [|wd cs|err|]; [done..| |done].
    pose proof (clb_post_nil s w w (reflexivity w)) as H0.
    do_emit Hs. do_print Hs. do_emit Hs. apply wpx_ret. eexists _, _. split; [done|].
    split; [done|]. unfold msg_payload. by rewrite app_assoc.
Qed.

Lemma write_notif_ok F fuel time ntf s w :
  ready s → msg_ok fuel s (OutNotif time ntf) →
  wpx F (write_notif fuel time ntf) (body_post s w (OutNotif time ntf)) (s, w).
Proof.
  intros Hs (Hf & Ht & Hp). unfold write_notif, body_post.
  pose proof (clb_post_nil s w w (reflexivity w)) as H0.
  do_emit Hs. do_emit Hs. do_emit_by Hs ltac:(done). do_emit Hs. do_print Hs. do_emit Hs.
  apply wpx_ret. eexists _, _. split; [done|]. split; [done|]. unfold msg_payload.
  by rewrite !app_assoc.
Qed.

Lemma write_capabilities_ok F fuel wbuf caps s w w0 b :
  ready s → WRITE_BUFSIZE + 300 < Z.of_nat fuel → Forall (piece_ok fuel) caps →
  clb_post s w0 b wbuf (s, w) →
  wpx F (write_capabilities fuel wbuf caps)
    (λ wb sw, sw.1 = s ∧ clb_post s w0 (b ++ concat (map capability_elem caps)) wb sw) (s, w).
Proof.
  intros Hs Hf Hc. revert wbuf w b. induction Hc as [|c caps Hc _ IH]; intros wbuf w b Hb;
    cbn [write_capabilities].
  { apply wpx_ret. simpl. by rewrite app_nil_r. }
  do_emit Hs. do_emit_by Hs ltac:(done). do_emit Hs.
  eapply wpx_mono; [apply IH; eassumption|]. intros wb' sw [E H]. split; [done|].
  cbn [map concat]. unfold capability_elem at 1. by rewrite !app_assoc in *.
Qed.

Lemma write_hello_ok F fuel caps sid s w :
  ready s → msg_ok fuel s (OutHello caps sid) →
  wpx F (write_hello fuel caps sid) (body_post s w (OutHello caps sid)) (s, w).
Proof.
  intros Hs (Hf & Hv & Hc). unfold write_hello, body_post. apply wpx_bind, wpx_ses. rewrite Hv.
  apply wpx_bind, wpx_malloc. intros b w1 Hq _ ->. rewrite rel_malloc by (by vm_compute). cbn [negb].
  pose proof (clb_post_nil s w w1 (quiet_no_traffic _ _ Hq)) as H0.
  do_emit Hs. apply wpx_bind. eapply wpx_mono; [by eapply write_capabilities_ok|].
  intros wb1 [s2 w2] [E Hp1]. simpl in E. subst s2.
  assert (Hcl : zlen (hello_close sid) ≤ 100).
  { unfold hello_close. destruct sid as [n|]; [|by vm_compute]. rewrite !zlen_app.
    pose proof (print_dec_length n).
    change (zlen (str "</capabilities><session-id>")) with 27.
    change (zlen (str "</session-id></hello>")) with 21. lia. }
  apply wpx_bind. eapply wpx_mono with (Q := λ ok sw, ok = true ∧ sw.1 = s ∧
    clb_post s w (([] ++ encoded false hello_open) ++ concat (map capability_elem caps)) wb1 sw).
  { destruct sid; [|by apply wpx_ret]. apply wpx_malloc. intros b w3 (_ & Hi3 & Ho3) _ ->.
    pose proof (zlen_nonneg (hello_close (Some z))).
    split; [apply rel_malloc; lia|]. split; [done|].
    destruct Hp1 as (_ & Hi & Hl & cs & Hok & Ho & E). simpl in *.
    split; [done|]. split; [simpl; congruence|]. split; [done|]. exists cs. split; [done|].
    split; [simpl; congruence|done]. }
  intros ok [s3 w3] (-> & E & Hp2). simpl in E. subst s3. cbn [negb].
  do_emit_by Hs ltac:(apply piece_small; [done|lia]).
  apply wpx_ret. eexists _, _. split; [done|]. split; [done|]. unfold msg_payload.
  by rewrite !app_assoc in *.
Qed.

Lemma after_msg_version m s : version (after_msg m s) = version s.
Proof. by destruct m. Qed.

Lemma ready_after m s : ready s → ready (after_msg m s).
Proof. by destruct m. Qed.

Lemma ready_lock l s : ready s → ready (set_io_lock l s).
Proof. done. Qed.

Lemma nc_write_msg_io_spec F fuel timeout m s w :
  ready s → io_lock s = Some false → msg_ok fuel s m →
  wpx F (nc_write_msg_io fuel timeout m)
    (λ r sw, r = out_type m ∧ sw.1 = after_msg m s ∧ inq sw.2 = inq w ∧
       ∃ cs, chunks_ok cs ∧ concat cs = msg_payload s m ∧
         outq sw.2 = outq w ++ wires (version s) cs ++ endtag_of (version s)) (s, w).
Proof.
  intros Hs Hl Hm. unfold nc_write_msg_io. apply wpx_bind, wpx_ses.
  pose proof Hs as [[Hok _] _]. rewrite Hok. cbn [negb].
  apply wpx_bind. eapply wpx_mono; [by apply nc_session_io_lock_ok|].
  intros r [s1 w1] (-> & Es & Hw). simpl in Es, Hw. subst s1. simpl.
  set (s1 := set_io_lock (Some true) s).
  assert (Hs1 : ready s1) by done. assert (Hm1 : msg_ok fuel s1 m) by done.
  apply wpx_bind. eapply wpx_mono with (Q := body_post s1 w1 m).
  { destruct m; simpl; [by apply write_rpc_ok|by apply write_reply_ok|by apply write_notif_ok|
      by apply write_hello_ok|by destruct Hm]. }
  intros body [s2 w2] (wb & w' & -> & [= -> ->] & Hp).
  destruct Hp as (_ & Hi & Hlen & cs & Hcs & Ho & Epay). simpl in Hi, Ho.
  apply wpx_bind, wpx_bind. destruct Hm as [Hf _].
  eapply wpx_mono; [apply nc_write_clb_end_ok; [by apply ready_after|done|lia]|].
  intros [r wb'] [s3 w3] (_ & Es & Hi3 & cs' & Hcs' & Ecs' & Ho3). simpl in Es, Hi3, Ho3. subst s3.
  apply wpx_bind, wpx_ses, wpx_ret.
  assert (status_ok (after_msg m s1) = true) as -> by (destruct (ready_after m s1 Hs1) as [[]]; done).
  apply wpx_bind. eapply wpx_mono; [apply nc_session_io_unlock_spec; by destruct m|].
  intros u [s4 w4] (_ & (_ & Hi4 & Ho4) & Es). simpl in Es, Hi4, Ho4. subst s4. apply wpx_ret. simpl.
  destruct Hw as (_ & Hi0 & Ho0). rewrite after_msg_version in Ho3.
  split; [done|]. split; [|split; [congruence|]].
  { destruct m; unfold s1; simpl; destruct s; simpl in *; by subst. }
  exists (cs ++ cs'). split; [by apply Forall_app|]. split.
  - rewrite concat_app, Ecs'. done.
  - rewrite Ho4, Ho3, Ho, Ho0, wires_app. change (version s1) with (version s).
    by rewrite <- !app_assoc.
Qed.
End write_msg_ok.
