(* ===== verification/IoWriteSafe.v ===== *)
(** * Writing in an arbitrary environment

    Whatever the transport does, the write functions keep within the 1024-byte
    buffer and the chunk header buffer, only append a prefix of what they were
    asked to write, and release the session lock.  They may wait for ever:
    [nc_write] has no timeout. *)

From S2P Require Import Prelude Session Env Time Locks IoRead IoReadProofs.
From S2P Require Import Framing IoWrite IoWriteProofs.
From Stdlib Require Import ZArith Ascii String Lia.
From stdpp Require Import base list strings gmap numbers.
Open Scope Z_scope.

Section write_safe.
Context {W : Type} `{EL : EnvLaws W}.
Implicit Types (s : nc_session) (w : W).

(** The session may only have been invalidated as dropped, the message counter
    aside, and output only grows. *)
Definition wr_safe s w (sw : nc_session * W) : Prop :=
  (sw.1 = s ∨ sw.1 = invalidate NC_SESSION_TERM_DROPPED s) ∧ inq sw.2 = inq w ∧
  ∃ out, outq sw.2 = outq w ++ out.

Lemma wr_safe_refl s w : wr_safe s w (s, w).
Proof. split; [by left|]. split; [done|]. exists []. by rewrite app_nil_r. Qed.

Lemma wr_safe_trans s w s1 w1 sw :
  wr_safe s w (s1, w1) → wr_safe s1 w1 sw → wr_safe s w sw.
Proof.
  intros (H1 & Hi1 & o1 & Ho1) (H2 & Hi2 & o2 & Ho2). simpl in *. split.
  - destruct H1 as [->| ->], H2 as [->| ->]; auto.
  - split; [congruence|]. exists (o1 ++ o2). by rewrite Ho2, Ho1, app_assoc.
Qed.

Lemma wr_safe_traffic s w w1 : no_traffic w w1 → wr_safe s w (s, w1).
Proof. intros (_ & Hi & Ho). split; [by left|]. split; [done|]. exists []. by rewrite app_nil_r. Qed.

Lemma nc_session_is_connected_safe fuel s w :
  wlp (nc_session_is_connected fuel) (λ _ sw, sw.1 = s ∧ no_traffic w sw.2) (s, w).
Proof.
  assert (Hpoll : ∀ fuel fd w1, no_traffic w w1 →
    wlp (poll_retry fuel fd) (λ _ sw, sw.1 = s ∧ no_traffic w sw.2) (s, w1)).
  { clear fuel. induction fuel as [|fuel IH]; intros fd w1 Hw; cbn [poll_retry]; [done|].
    apply wpx_bind, wpx_envcall. pose proof (poll_law fd 0 w1) as L.
    destruct (sys_poll fd 0 w1) as [r w2]. simpl in L. cbn [fst snd].
    assert (no_traffic w w2) by (etrans; [exact Hw|exact L]).
    destruct r; [by apply IH|by apply wpx_ret|]. destruct (_ =? -1); by apply wpx_ret. }
  unfold nc_session_is_connected. apply wpx_bind, wpx_ses.
  destruct (ti s) as [|fd o|fd|ch nx|].
  - by apply wpx_ret.
  - destruct (fd =? -1); [by apply wpx_ret|by apply Hpoll].
  - destruct (fd =? -1); [by apply wpx_ret|by apply Hpoll].
  - apply wpx_envcall. split; [done|apply ssh_conn_law].
  - apply wpx_bind, wpx_envcall. pose proof (ssl_fd_law w) as L.
    destruct (ssl_get_fd w) as [fd w1]. simpl in L. cbn [fst snd].
    destruct (fd =? -1); [by apply wpx_ret|by apply Hpoll].
Qed.

Lemma nc_write_switch_safe rest s w :
  wlp (nc_write_switch rest)
    (λ st sw, wr_safe s w sw ∧ match st with
       | WFail => True
       | WTook n _ => sw.1 = s ∧ 0 ≤ n ≤ zlen rest ∧ outq sw.2 = outq w ++ ztake n rest end) (s, w).
Proof.
  assert (Z0 : ztake 0 rest = []) by done. pose proof (zlen_nonneg rest).
  assert (Hgrow : ∀ w1 o, inq w1 = inq w → outq w1 = outq w ++ o → wr_safe s w (s, w1)).
  { intros w1 o Hi Ho. split; [by left|]. split; [done|]. by exists o. }
  unfold nc_write_switch. apply wpx_bind, wpx_ses.
  destruct (ti s) as [|? fd|fd|? ?|].
  - apply wpx_ret. split; [apply wr_safe_refl|done].
  - apply wpx_bind, wpx_envcall. pose proof (sys_write_law fd rest w) as L.
    destruct (sys_write fd rest w) as [r w1]. destruct L as (_ & Hi & Ho).
    destruct r; apply wpx_ret; simpl in *; rewrite ?Z0, ?app_nil_r; destruct_and?; eauto 10 using app_nil_r.
    all: split; [eapply (Hgrow _ []); [done|by rewrite app_nil_r]|]; repeat split; lia || done.
  - apply wpx_bind, wpx_envcall. pose proof (sys_write_law fd rest w) as L.
    destruct (sys_write fd rest w) as [r w1]. destruct L as (_ & Hi & Ho).
    destruct r; apply wpx_ret; simpl in *; rewrite ?Z0, ?app_nil_r; destruct_and?; eauto 10 using app_nil_r.
    all: split; [eapply (Hgrow _ []); [done|by rewrite app_nil_r]|]; repeat split; lia || done.
  - apply wpx_bind, wpx_envcall. destruct (ssh_closed_law w) as (_ & Hi1 & Ho1).
    destruct (ssh_channel_is_closed w) as [b w1]. cbn [fst snd] in *.
    apply wpx_bind. eapply wpx_mono with (Q := λ _ sw, sw.1 = s ∧ inq sw.2 = inq w ∧ outq sw.2 = outq w).
    { destruct b; [by apply wpx_ret|]. apply wpx_envcall. destruct (ssh_eof_law w1) as (_ & Hi2 & Ho2).
      split; [done|]. simpl. split; congruence. }
    intros eof [s2 w2] (Es & Hi2 & Ho2). simpl in Es, Hi2, Ho2. subst s2. destruct eof.
    + apply wpx_bind, wpx_envcall, wpx_bind, wpx_upd_ses, wpx_ret.
      destruct (ssh_closed_law w2) as (_ & Hi3 & Ho3). split; [|done]. split; [by right|].
      split; [simpl; congruence|]. exists []. rewrite app_nil_r. simpl. congruence.
    + apply wpx_bind, wpx_envcall. pose proof (ssh_write_law rest w2) as L.
      destruct (ssh_channel_write rest w2) as [r w3]. destruct L as (_ & Hi & Ho).
      rewrite Hi2 in Hi. rewrite Ho2 in Ho.
      destruct r; apply wpx_ret; simpl in *; destruct_and?; eauto 10 using app_nil_r.
      split; [eapply (Hgrow _ []); [done|by rewrite app_nil_r]|done].
  - apply wpx_bind, wpx_envcall. pose proof (ssl_write_law rest w) as L.
    destruct (ssl_write rest w) as [r w1]. destruct L as (_ & Hi & Ho).
    destruct r as [n|e].
    + apply wpx_ret. destruct_and?. split; [by eapply Hgrow|]. repeat split; lia || done.
    + assert (wr_safe s w (s, w1)) by (eapply (Hgrow _ []); [done|by rewrite app_nil_r]).
      destruct e; apply wpx_ret; (split; [done|]); try done; simpl;
        rewrite ?Z0, ?app_nil_r; repeat split; lia || done.
Qed.

Lemma nc_write_loop_safe fuel buf written s w :
  0 ≤ written ≤ zlen buf → zlen buf < 2 ^ 31 →
  wlp (nc_write_loop fuel buf written)
    (λ r sw, wr_safe s w sw ∧ (r = -1 ∨ (r = zlen buf ∧ sw.1 = s ∧
       outq sw.2 = outq w ++ zdrop written buf))) (s, w).
Proof.
  intros Hw Hb. revert written w Hw.
  induction fuel as [|fuel IH]; intros written w Hw; cbn [nc_write_loop]; [done|].
  apply wpx_bind. eapply wpx_mono; [apply nc_write_switch_safe|].
  intros st [s1 w1] [Hsafe Hst]. destruct st as [|n intr].
  { apply wpx_ret. split; [done|by left]. }
  destruct Hst as (Es & Hn & Ho). simpl in Es, Ho. subst s1.
  rewrite zlen_zdrop in Hn by lia.
  apply wpx_bind. eapply wpx_mono with (Q := λ _ sw, sw.1 = s ∧ no_traffic w1 sw.2).
  { destruct (_ && _); [|by apply wpx_ret]. apply wpx_envcall. split; [done|].
    destruct (usleep_law NC_TIMEOUT_STEP w1) as ((?&_)&?&?). by repeat split. }
  intros _ [s2 w2] [Es Hq]. simpl in Es, Hq. subst s2.
  pose proof (wr_safe_trans _ _ _ _ _ Hsafe (wr_safe_traffic s _ _ Hq)) as Hsafe2.
  destruct Hq as (_ & Hi2 & Ho2).
  assert (Hsplit : zdrop written buf = ztake n (zdrop written buf) ++ zdrop (written + n) buf).
  { rewrite <- (ztake_zdrop n (zdrop written buf)) at 1. f_equal. unfold zdrop.
    rewrite drop_drop. f_equal. lia. }
  destruct (_ <? _) eqn:E.
  - apply Z.ltb_lt in E. eapply wpx_mono; [apply IH; lia|].
    intros r sw [H1 H2]. split; [by eapply wr_safe_trans|].
    destruct H2 as [?|(? & ? & Ho3)]; [by left|right]. repeat split; try done.
    rewrite Ho3, Ho2, Ho, <- app_assoc, <- Hsplit. done.
  - apply Z.ltb_ge in E. apply wpx_ret. split; [done|]. right. simpl.
    assert (written + n = zlen buf) as -> by lia.
    rewrite i32_small by (pose proof (zlen_nonneg buf); lia). repeat split.
    rewrite Ho2, Ho. f_equal. apply ztake_all. rewrite zlen_zdrop; lia.
Qed.

Lemma nc_write_safe fuel buf s w :
  zlen buf < 2 ^ 31 →
  wlp (nc_write fuel buf)
    (λ r sw, wr_safe s w sw ∧ (r = -1 ∨ (r = zlen buf ∧ sw.1 = s ∧ outq sw.2 = outq w ++ buf))) (s, w).
Proof.
  intros Hb. unfold nc_write. apply wpx_bind, wpx_ses. destruct (status_ok s); cbn [negb].
  2: { apply wpx_ret. split; [apply wr_safe_refl|by left]. }
  apply wpx_bind. eapply wpx_mono; [apply nc_session_is_connected_safe|].
  intros b [s1 w1] [Es Hq]. simpl in Es, Hq. subst s1. destruct b; cbn [negb].
  - eapply wpx_mono; [apply nc_write_loop_safe; [pose proof (zlen_nonneg buf); lia|done]|].
    intros r sw [H1 H2]. split.
    + eapply wr_safe_trans; [by apply wr_safe_traffic|done].
    + destruct Hq as (_ & _ & Ho). rewrite Ho in H2. exact H2.
  - apply wpx_bind, wpx_upd_ses, wpx_ret. split; [|by left]. destruct Hq as (_ & Hi & Ho).
    split; [by right|]. split; [done|]. exists []. by rewrite app_nil_r.
Qed.

Lemma nc_write_starttag_safe fuel buf s w :
  zlen buf < 2 ^ 30 →
  wlp (nc_write_starttag_and_msg fuel buf) (λ r sw, -1 ≤ r ∧ wr_safe s w sw) (s, w).
Proof.
  intros Hb. unfold nc_write_starttag_and_msg. pose proof (zlen_nonneg buf).
  pose proof (chunk_header_length (zlen buf)). pose proof (zlen_nonneg (chunk_header (zlen buf))).
  apply wpx_bind, wpx_ses, wpx_bind.
  eapply wpx_mono with (Q := λ r sw, -1 ≤ r < 24 ∧ wr_safe s w sw).
  { destruct (version s).
    - apply wpx_ret. split; [lia|apply wr_safe_refl].
    - apply wpx_bind, wpx_guarded; [by apply Z.ltb_lt|].
      eapply wpx_mono; [apply nc_write_safe; lia|]. intros r sw [Hs H2].
      split; [destruct H2 as [->|(-> & _)]; lia|done]. }
  intros r [s1 w1] [Hr Hsafe]. destruct (r =? -1).
  { apply wpx_ret. split; [lia|done]. }
  apply wpx_bind. eapply wpx_mono; [apply nc_write_safe; lia|].
  intros c sw [Hs H2]. assert (wr_safe s w sw) by by eapply wr_safe_trans.
  destruct (c =? -1) eqn:E; apply wpx_ret; (split; [|done]); [lia|].
  rewrite i32_small; destruct H2 as [->|(-> & _)]; lia.
Qed.

Lemma nc_write_clb_flush_safe fuel wbuf s w :
  zlen wbuf ≤ WRITE_BUFSIZE →
  wlp (nc_write_clb_flush fuel wbuf) (λ rb sw, -1 ≤ rb.1 ∧ rb.2 = [] ∧ wr_safe s w sw) (s, w).
Proof.
  intros Hb. unfold nc_write_clb_flush. destruct wbuf as [|b wbuf].
  { apply wpx_ret. split; [done|]. split; [done|apply wr_safe_refl]. }
  apply wpx_bind. eapply wpx_mono; [apply nc_write_starttag_safe; unfold WRITE_BUFSIZE, BUFFERSIZE in *; lia|].
  intros r sw [Hr ?]. apply wpx_ret. done.
Qed.

Lemma nc_write_clb_xml_safe fuel wbuf buf ret s w :
  zlen wbuf ≤ WRITE_BUFSIZE →
  wlp (nc_write_clb_xml fuel wbuf buf ret) (λ rb sw, zlen rb.2 ≤ WRITE_BUFSIZE ∧ wr_safe s w sw) (s, w).
Proof.
  revert wbuf ret s w. induction buf as [|ch buf IH]; intros wbuf ret s w Hb; cbn [nc_write_clb_xml].
  { apply wpx_ret. split; [done|apply wr_safe_refl]. }
  pose proof (xml_escape_length ch). apply wpx_bind.
  eapply wpx_mono with (Q := λ rb sw, zlen rb.2 + 5 ≤ WRITE_BUFSIZE ∧ wr_safe s w sw).
  { destruct (_ <=? _) eqn:E.
    - eapply wpx_mono; [by apply nc_write_clb_flush_safe|]. intros rb sw (_ & -> & ?).
      split; [by vm_compute|done].
    - apply wpx_ret. simpl. split; [lia|apply wr_safe_refl]. }
  intros [c wb] [s1 w1] [Hl Hs]. simpl in Hl. destruct (c =? -1).
  { apply wpx_ret. simpl. split; [lia|done]. }
  unfold buf_append. apply wpx_bind, wpx_bind, wpx_guarded; [apply Z.leb_le; lia|]. apply wpx_ret.
  eapply wpx_mono; [apply IH; rewrite zlen_app; lia|]. intros rb sw [? ?].
  split; [done|]. by eapply wr_safe_trans.
Qed.

(** The buffer of the write callback is never overrun and never holds more than
    it can, for every call and whatever the transport does. *)
Lemma nc_write_clb_safe fuel wbuf buf xml s w :
  zlen wbuf ≤ WRITE_BUFSIZE → zlen (default [] buf) < 2 ^ 30 →
  wlp (nc_write_clb fuel wbuf buf xml)
    (λ rb sw, zlen rb.2 ≤ WRITE_BUFSIZE ∧ wr_safe s w sw) (s, w).
Proof.
  intros Hb Hd. unfold nc_write_clb. destruct buf as [buf|]; simpl in Hd.
  - apply wpx_bind. pose proof (zlen_nonneg buf). pose proof (zlen_nonneg wbuf).
    eapply wpx_mono with (Q := λ rb sw, zlen rb.2 ≤ WRITE_BUFSIZE ∧
      (rb.2 = [] ∨ zlen rb.2 + zlen buf ≤ WRITE_BUFSIZE) ∧ wr_safe s w sw).
    { destruct (zlen wbuf =? 0) eqn:E0; simpl.
      { apply wpx_ret. simpl. apply Z.eqb_eq, zlen_nil_inv in E0. subst.
        split; [done|]. split; [by left|apply wr_safe_refl]. }
      destruct (_ <? _) eqn:E.
      - eapply wpx_mono; [by apply nc_write_clb_flush_safe|]. intros rb sw (_ & -> & ?).
        split; [by vm_compute|]. split; [by left|done].
      - apply wpx_ret. simpl. split; [done|]. split; [right; lia|apply wr_safe_refl]. }
    intros [ret wb] [s1 w1] (Hl & Hfit & Hs). simpl in Hl, Hfit. destruct (ret =? -1).
    { by apply wpx_ret. }
    destruct (negb xml && _) eqn:E.
    + apply wpx_bind. eapply wpx_mono; [apply nc_write_starttag_safe; lia|].
      intros c sw [_ Hc]. destruct (c =? -1); apply wpx_ret; (split; [done|]); by eapply wr_safe_trans.
    + destruct xml.
      * eapply wpx_mono; [by apply nc_write_clb_xml_safe|]. intros rb sw [? ?].
        split; [done|]. by eapply wr_safe_trans.
      * simpl in E. apply Z.ltb_ge in E. unfold buf_append.
        apply wpx_bind, wpx_bind, wpx_guarded.
        { apply Z.leb_le. destruct Hfit as [->|?]; [|done]. change (zlen (@nil ascii)) with 0. lia. }
        apply wpx_ret, wpx_ret. simpl. split; [|done]. rewrite zlen_app.
        destruct Hfit as [->|?]; [|done]. change (zlen (@nil ascii)) with 0. lia.
  - apply wpx_bind. eapply wpx_mono; [by apply nc_write_clb_flush_safe|].
    intros [c wb] [s1 w1] (_ & Ewb & Hs). simpl in Ewb. subst wb. destruct (c =? -1).
    { apply wpx_ret. split; [by vm_compute|done]. }
    apply wpx_bind. eapply wpx_mono with (Q := λ _ sw, wr_safe s1 w1 sw).
    { unfold nc_write_endtag. apply wpx_bind, wpx_ses.
      destruct (version s1); (eapply wpx_mono; [apply nc_write_safe; by vm_compute|]);
        intros r sw [? _]; done. }
    intros c' sw Hc'. destruct (c' =? -1); apply wpx_ret; (split; [by vm_compute|]);
      by eapply wr_safe_trans.
Qed.
End write_safe.

(** ** Whole messages *)

Section write_msg_safe.
Context {W : Type} `{EL : EnvLaws W}.
Context {node envelope : Type} `{!Printer node envelope}.
Implicit Types (s : nc_session) (w : W).

(** What sending never touches. *)
Definition same_frame s s' : Prop :=
  side s' = side s ∧ ti s' = ti s ∧ version s' = version s ∧ server s' = server s.

(** What every step of sending keeps: the input, what was written before, the
    lock, and the status unless the session is found dropped. *)
Definition wr_kept s w (sw : nc_session * W) : Prop :=
  inq sw.2 = inq w ∧ (∃ out, outq sw.2 = outq w ++ out) ∧ io_lock sw.1 = io_lock s ∧
  (status sw.1 = status s ∨ status sw.1 = NC_STATUS_INVALID) ∧ same_frame s sw.1.

Lemma wr_safe_kept s w sw : wr_safe s w sw → wr_kept s w sw.
Proof.
  intros (Hs & Hi & Ho). unfold wr_kept. rewrite Hi.
  destruct Hs as [->| ->]; (split; [done|]); (split; [done|]); (split; [done|]); (split; [auto|done]).
Qed.

Lemma wr_kept_traffic s w w1 : no_traffic w w1 → wr_kept s w (s, w1).
Proof. intros H. apply wr_safe_kept. by apply wr_safe_traffic. Qed.

Lemma wr_kept_trans s w s1 w1 sw : wr_kept s w (s1, w1) → wr_kept s1 w1 sw → wr_kept s w sw.
Proof.
  intros (Hi1 & [o1 Ho1] & Hl1 & Hs1 & Hf1) (Hi2 & [o2 Ho2] & Hl2 & Hs2 & Hf2). cbn [fst snd] in *.
  split; [congruence|]. split; [exists (o1 ++ o2); by rewrite Ho2, Ho1, app_assoc|].
  split; [congruence|]. split.
  - destruct Hs1, Hs2; (left + right); congruence.
  - destruct Hf1 as (?&?&?&?), Hf2 as (?&?&?&?). repeat split; congruence.
Qed.

(** Messages whose parts are of a size that fits the [int] counters and that do
    not violate the assertion on replies without an envelope. *)
Definition sized (data : bytes) : Prop := zlen data < 2 ^ 30.
Definition node_sized (n : node) : Prop := ∀ wd, Forall sized (lyd_print wd n).1.

Definition sendable s (m : out_msg node envelope) : Prop :=
  match m with
  | OutRpc op attrs => node_sized op ∧ sized (rpc_open (msgid (client s)) attrs)
  | OutReply None (ReplyError err) => node_sized err
  | OutReply None _ => False
  | OutReply (Some e) reply => ∀ cs, node_sized (opaq_reply e cs)
  | OutNotif eventtime ntf => sized eventtime ∧ node_sized ntf
  | OutHello caps sid => Forall sized caps
  | OutOther _ => True
  end.

Lemma emit_safe fuel wbuf data xml s w s1 w1 :
  wr_kept s w (s1, w1) → zlen wbuf ≤ WRITE_BUFSIZE → sized data →
  wlp (emit fuel wbuf data xml) (λ wb sw, zlen wb ≤ WRITE_BUFSIZE ∧ wr_kept s w sw) (s1, w1).
Proof.
  intros Hk Hb Hd. unfold emit. apply wpx_bind.
  eapply wpx_mono; [by apply nc_write_clb_safe|]. intros [r wb] sw [H1 H2]. apply wpx_ret.
  split; [done|]. eapply wr_kept_trans; [done|by apply wr_safe_kept].
Qed.

Lemma lyd_print_clb_safe fuel wbuf wd n s w s1 w1 :
  wr_kept s w (s1, w1) → zlen wbuf ≤ WRITE_BUFSIZE → node_sized n →
  wlp (lyd_print_clb fuel wbuf wd n) (λ rb sw, zlen rb.2 ≤ WRITE_BUFSIZE ∧ wr_kept s w sw) (s1, w1).
Proof.
  intros Hk Hb Hn. unfold lyd_print_clb. specialize (Hn wd).
  destruct (lyd_print wd n) as [pieces ok]. simpl in Hn. revert wbuf s1 w1 Hk Hb.
  induction Hn as [|p pieces Hp _ IH]; intros wbuf s1 w1 Hk Hb; cbn [print_pieces].
  { by apply wpx_ret. }
  unfold nc_write_xmlclb. apply wpx_bind, wpx_bind.
  eapply wpx_mono; [by apply nc_write_clb_safe|]. intros [r wb] [s2 w2] [H1 H2]. cbn [snd] in H1.
  assert (wr_kept s w (s2, w2)) by (eapply wr_kept_trans; [done|by apply wr_safe_kept]).
  destruct (r =? -1); apply wpx_ret.
  - by apply wpx_ret.
  - destruct (zlen p =? -1); [by apply wpx_ret|]. by apply IH.
Qed.

(** Result of building a message body. *)
Definition body_safe s w (r : option bytes) (sw : nc_session * W) : Prop :=
  (∀ wb, r = Some wb → zlen wb ≤ WRITE_BUFSIZE) ∧ wr_kept s w sw.

Ltac safe_emit_by tac :=
  apply wpx_bind; eapply wpx_mono; [eapply emit_safe; [eassumption|first [eassumption|by vm_compute]|tac]|];
  let wb := fresh "wb" in let s1 := fresh "s" in let w1 := fresh "w" in
  let H := fresh "Hb" in let H2 := fresh "Hk" in intros wb [s1 w1] [H H2].
Ltac safe_emit := safe_emit_by ltac:(by vm_compute).
Ltac safe_print :=
  apply wpx_bind; eapply wpx_mono; [eapply lyd_print_clb_safe;
    [eassumption|first [eassumption|by vm_compute]|eauto]|];
  let wb := fresh "wb" in let ok := fresh "ok" in let s1 := fresh "s" in let w1 := fresh "w" in
  let H := fresh "Hb" in let H2 := fresh "Hk" in
  intros [ok wb] [s1 w1] [H H2]; cbn [snd] in H; destruct ok; cbn [negb];
  [|by apply wpx_ret].
Ltac safe_done := apply wpx_ret; split; [by intros ? [= <-]|done].

Lemma write_rpc_safe fuel op attrs s w :
  sendable s (OutRpc op attrs) → wlp (write_rpc fuel op attrs) (body_safe s w) (s, w).
Proof.
  intros [Hn Ho]. unfold write_rpc. apply wpx_bind, wpx_ses, wpx_bind, wpx_malloc.
  intros b w1 Hq _ _. pose proof (wr_kept_traffic s _ _ (quiet_no_traffic _ _ Hq)) as Hk.
  destruct b; cbn [negb]; [|by apply wpx_ret].
  safe_emit_by ltac:(exact Ho). apply wpx_bind.
  eapply wpx_mono with (Q := λ wb sw, zlen wb ≤ WRITE_BUFSIZE ∧ wr_kept s w sw).
  { destruct (is_action op); [|by apply wpx_ret]. eapply emit_safe; [done|done|by vm_compute]. }
  intros wb2 [s2 w3] [Hb2 Hk2]. safe_print. apply wpx_bind.
  eapply wpx_mono with (Q := λ wb sw, zlen wb ≤ WRITE_BUFSIZE ∧ wr_kept s w sw).
  { destruct (is_action op); [|by apply wpx_ret]. eapply emit_safe; [done|done|by vm_compute]. }
  intros wb3 [s4 w4] [Hb3 Hk3]. safe_emit. apply wpx_bind, wpx_upd_ses. safe_done.
Qed.

Lemma write_reply_safe fuel envp reply s w :
  sendable s (OutReply envp reply) → wlp (write_reply fuel envp reply) (body_safe s w) (s, w).
Proof.
  intros Hm. unfold write_reply. assert (Hk : wr_kept s w (s, w)) by by apply wr_kept_traffic.
  destruct envp as [e|].
  - apply wpx_bind, wpx_envcall. pose proof (lyd_new_law (str "rpc-reply") w) as Hq.
    destruct (lyd_new_opaq2 (str "rpc-reply") w) as [ok w1]. cbn [fst snd] in *.
    pose proof (wr_kept_traffic s w w1 Hq) as Hk1.
    destruct ok; cbn [negb]; [|by apply wpx_ret].
    assert (Hp : ∀ wd n w2, wr_kept s w (s, w2) → node_sized n →
      wlp ('(ok, wbuf) ← lyd_print_clb fuel [] wd n; mret (if ok : bool then Some wbuf else None))
        (body_safe s w) (s, w2)).
    { intros wd n w2 Hk2 Hn. apply wpx_bind. eapply wpx_mono; [by eapply lyd_print_clb_safe|].
      intros [ok wb] sw [H1 H2]. cbn [snd] in H1. apply wpx_ret.
      split; [|done]. destruct ok; [by intros ? [= <-]|done]. }
    destruct reply; [|by apply Hp|by apply Hp|].
    + apply wpx_bind, wpx_envcall. pose proof (lyd_new_law (str "ok") w1) as Hq1.
      destruct (lyd_new_opaq2 (str "ok") w1) as [ok w2]. cbn [fst snd] in *.
      pose proof (wr_kept_traffic s w w2 ltac:(by etrans)) as Hk2.
      destruct ok; cbn [negb]; [by apply Hp|by apply wpx_ret].
    + apply wpx_bind. eapply wpx_mono; [by apply nc_write_clb_safe|].
      intros rb sw [_ H2]. apply wpx_ret. split; [done|].
      eapply wr_kept_trans; [done|by apply wr_safe_kept].
  - safe_emit. destruct reply; [done|done| |done]. safe_print. safe_emit. safe_done.
Qed.

Lemma write_notif_safe fuel time ntf s w :
  sendable s (OutNotif time ntf) → wlp (write_notif fuel time ntf) (body_safe s w) (s, w).
Proof.
  intros [Ht Hn]. unfold write_notif. assert (Hk : wr_kept s w (s, w)) by by apply wr_kept_traffic.
  safe_emit. safe_emit. safe_emit_by ltac:(exact Ht). safe_emit. safe_print. safe_emit. safe_done.
Qed.

Lemma write_capabilities_safe fuel wbuf caps s w s1 w1 :
  Forall sized caps → wr_kept s w (s1, w1) → zlen wbuf ≤ WRITE_BUFSIZE →
  wlp (write_capabilities fuel wbuf caps)
    (λ wb sw, zlen wb ≤ WRITE_BUFSIZE ∧ wr_kept s w sw) (s1, w1).
Proof.
  intros Hc. revert wbuf s1 w1. induction Hc as [|c caps Hc _ IH]; intros wbuf s1 w1 Hk Hb;
    cbn [write_capabilities]; [by apply wpx_ret|].
  safe_emit. safe_emit_by ltac:(exact Hc). safe_emit. by apply IH.
Qed.

Lemma hello_close_sized sid : sized (hello_close sid).
Proof.
  unfold sized, hello_close. destruct sid as [sid|]; [|by vm_compute].
  rewrite !zlen_app. pose proof (print_dec_length sid).
  change (zlen (str "</capabilities><session-id>")) with 27.
  change (zlen (str "</session-id></hello>")) with 21. lia.
Qed.

Lemma write_hello_safe fuel caps sid s w :
  sendable s (OutHello caps sid) → wlp (write_hello fuel caps sid) (body_safe s w) (s, w).
Proof.
  intros Hc. unfold write_hello. assert (Hk : wr_kept s w (s, w)) by by apply wr_kept_traffic.
  apply wpx_bind, wpx_ses. destruct (version s); [|by apply wpx_ret].
  apply wpx_bind, wpx_malloc. intros b w1 Hq _ _.
  pose proof (wr_kept_traffic s _ _ (quiet_no_traffic _ _ Hq)) as Hk1.
  destruct b; cbn [negb]; [|by apply wpx_ret]. safe_emit. apply wpx_bind.
  eapply wpx_mono; [by eapply write_capabilities_safe|]. intros wb2 [s2 w3] [Hb2 Hk2].
  apply wpx_bind. eapply wpx_mono with (Q := λ _ sw, wr_kept s w sw).
  { destruct sid; [|by apply wpx_ret]. apply wpx_malloc. intros b' w' Hq' _ _.
    eapply wr_kept_trans; [done|]. by apply wr_kept_traffic, quiet_no_traffic. }
  intros ok [s3 w4] Hk3. destruct ok; cbn [negb]; [|by apply wpx_ret].
  safe_emit_by ltac:(apply hello_close_sized). safe_done.
Qed.

(** Sending in any environment: no buffer is overrun, the lock is released,
    and output is only appended to. *)
Lemma nc_write_msg_io_safe fuel timeout m s w :
  io_lock s = Some false → sendable s m →
  wlp (nc_write_msg_io fuel timeout m)
    (λ r sw, (r = NC_MSG_ERROR ∨ r = NC_MSG_WOULDBLOCK ∨ (r = out_type m ∧ status sw.1 = status s)) ∧
       wr_kept s w sw) (s, w).
Proof.
  intros Hl Hm. unfold nc_write_msg_io. apply wpx_bind, wpx_ses.
  destruct (status_ok s) eqn:Es; cbn [negb].
  2: { apply wpx_ret. split; [auto|by apply wr_kept_traffic]. }
  apply wpx_bind. eapply wpx_mono; [by apply nc_session_io_lock_spec|].
  intros r [s1 w1] [Hw Hr]. cbn [fst snd] in Hw, Hr. destruct Hr as [[-> ->]|[Hr ->]].
  2: { destruct Hr as [-> | ->]; apply wpx_ret; (split; [auto|by apply wr_kept_traffic]). }
  change (1 <? 0) with false. change (1 =? 0) with false. cbv iota.
  apply wpx_bind. set (s1 := set_io_lock (Some true) s).
  eapply wpx_mono with (Q := body_safe s1 w1).
  { destruct m; [by apply write_rpc_safe|by apply write_reply_safe|by apply write_notif_safe|
      by apply write_hello_safe|]. apply wpx_ret. split; [done|by apply wr_kept_traffic]. }
  intros body [s2 w2] [Hb Hk]. apply wpx_bind.
  eapply wpx_mono with (Q := λ r sw, (r = NC_MSG_ERROR ∨ (r = out_type m ∧ status sw.1 = status s)) ∧
    wr_kept s1 w1 sw).
  { destruct body as [wb|]; [|apply wpx_ret; auto]. apply wpx_bind.
    eapply wpx_mono; [apply nc_write_clb_safe; [by apply Hb|by vm_compute]|].
    intros rb [s3 w3] [_ H2]. apply wpx_bind, wpx_ses, wpx_ret.
    assert (Hk3 : wr_kept s1 w1 (s3, w3)) by (eapply wr_kept_trans; [done|by apply wr_safe_kept]).
    split; [|done]. destruct (status_ok s3) eqn:Es3; [right|by left]. split; [done|].
    destruct Hk3 as (_ & _ & _ & [?|E] & _); [done|]. cbn [fst] in E. unfold status_ok in Es3. by rewrite E in Es3. }
  intros r [s3 w3] [Hr (Hi3 & Ho3 & Hl3 & Hs3)]. cbn [fst snd] in *.
  apply wpx_bind. eapply wpx_mono; [by apply nc_session_io_unlock_spec|].
  intros u [s4 w4] (_ & Hw4 & Es4). cbn [fst snd] in Es4. subst s4. apply wpx_ret. cbn [fst snd].
  split; [destruct Hr as [?|[? ?]]; auto|].
  destruct Hw as (_ & Hi & Ho), Hw4 as (_ & Hi4 & Ho4). cbn [snd] in Hi4, Ho4.
  split; [cbn [snd]; congruence|]. split; [|split; [done|exact Hs3]].
  destruct Ho3 as [out Ho3]. exists out. cbn [snd]. congruence.
Qed.
End write_msg_safe.
