(* ===== verification/IoTheorems.v ===== *)
(** * Theorems on message input and output

    What the read and the write functions of src/io.c promise together, each
    evaluated on the simulated environment, and three inputs on which the code
    does not do what it means to. *)

From S2P Require Import Prelude Session Env Time Locks Sim IoRead IoReadProofs.
From S2P Require Import Framing IoWrite IoWriteProofs IoWriteSafe.
From Stdlib Require Import ZArith Ascii String Lia.
From stdpp Require Import base list strings gmap numbers.
Open Scope Z_scope.

(** ** Shared facts *)

Lemma wires_framed v cs : wires v cs ++ endtag_of v = framed v cs.
Proof.
  destruct v; unfold framed.
  - by rewrite wires_10.
  - done.
Qed.

(** The end tag of version 1.0 needs a [>] right after a [']']. *)
Fixpoint pair_free (l : bytes) : bool :=
  match l with
  | [] => true
  | c :: l' =>
    negb (bool_decide (c = "]"%char) && bool_decide (head l' = Some ">"%char)) && pair_free l'
  end.

Lemma pair_free_app a b :
  pair_free a = true → pair_free b = true → head b ≠ Some ">"%char → pair_free (a ++ b) = true.
Proof.
  intros Ha Hb Hh. induction a as [|c a IH]; [done|].
  simpl in Ha. apply andb_true_iff in Ha as [Hc Ha].
  simpl. rewrite IH by done. rewrite andb_true_r. destruct a as [|d a]; [|done].
  simpl. rewrite (bool_decide_false (head b = _)) by done. by rewrite andb_false_r.
Qed.

Lemma pair_free_inv a b : pair_free (a ++ "]"%char :: ">"%char :: b) = false.
Proof. induction a as [|c a IH]; [done|]. simpl. by rewrite IH, andb_false_r. Qed.

Lemma pair_free_clear msg :
  pair_free msg = true → list.last msg ≠ Some "]"%char → clear_of NC_VERSION_10_ENDTAG msg.
Proof.
  intros Hp Hl. split.
  - intros a b ->.
    change (a ++ NC_VERSION_10_ENDTAG ++ b) with (a ++ ["]"%char] ++ "]"%char :: ">"%char :: str "]]>" ++ b) in Hp.
    by rewrite app_assoc, pair_free_inv in Hp.
  - intros j Hj [k E]. assert (Hj' : (j ≤ 6)%nat) by (simpl in Hj; lia).
    assert (Hend : ∀ x, msg ≠ x ++ ["]"%char]).
    { intros x ->. by rewrite last_snoc in Hl. }
    assert (Hmid : ∀ x y, msg ≠ x ++ "]"%char :: ">"%char :: y).
    { intros x y ->. by rewrite pair_free_inv in Hp. }
    destruct j as [|[|[|[|[|[|[|j]]]]]]]; try lia; cbn in E.
    + by eapply Hend.
    + apply (Hend (k ++ ["]"%char])). by rewrite <- app_assoc.
    + apply (Hmid (k ++ ["]"%char]) []). by rewrite <- app_assoc.
    + apply (Hmid (k ++ ["]"%char]) ["]"%char]). by rewrite <- app_assoc.
    + apply (Hmid (k ++ ["]"%char]) (str "]]")). by rewrite <- app_assoc.
    + apply (Hmid (k ++ ["]"%char]) (str "]]>")). by rewrite <- app_assoc.
Qed.

(** Escaped text holds no [>] and the elements of a hello start with [<]. *)
Lemma xml_escape_no_gt c : ">"%char ∉ xml_escape c.
Proof.
  unfold xml_escape. repeat case_decide; subst; intros Hx.
  all: cbn in Hx; repeat (apply elem_of_cons in Hx as [Hx|Hx]; [by subst|]); by apply elem_of_nil in Hx.
Qed.

Lemma pair_free_no_gt l : ">"%char ∉ l → pair_free l = true.
Proof.
  induction l as [|c l IH]; intros H; [done|]. simpl. apply not_elem_of_cons in H as [_ H].
  rewrite IH by done. rewrite (bool_decide_false (head l = _)); [by rewrite andb_false_r|].
  destruct l as [|d l]; [done|]. simpl. intros [= ->]. apply H. by left.
Qed.

Lemma escaped_no_gt c : ">"%char ∉ encoded true c.
Proof.
  unfold encoded. induction c as [|x c IH]; simpl; [apply not_elem_of_nil|].
  rewrite elem_of_app. intros [H|H]; [by apply xml_escape_no_gt in H|done].
Qed.

(** The text of a hello message is clear of the end tag and free of NUL bytes,
    whatever its capabilities are: their [>] is escaped. *)
Lemma elem_pair_free cs rest :
  pair_free rest = true → head rest = Some "<"%char →
  pair_free (concat (map capability_elem cs) ++ rest) = true ∧
  head (concat (map capability_elem cs) ++ rest) = Some "<"%char.
Proof.
  intros Hr Hh. induction cs as [|c cs [IH1 IH2]]; [done|].
  cbn [map concat]. unfold capability_elem at 1. rewrite <- !app_assoc. split; [|done].
  apply pair_free_app; [done| |].
  2: { destruct (encoded true c) as [|x l] eqn:E; [done|]. cbn. intros [= ->].
       apply (escaped_no_gt c). rewrite E. by left. }
  apply pair_free_app; [by apply pair_free_no_gt, escaped_no_gt| |done].
  apply pair_free_app; [done|done|]. by rewrite IH2.
Qed.

Lemma digits_pair_free n : 0 ≤ n < 2 ^ 64 → ">"%char ∉ print_dec n.
Proof.
  intros Hn Hx. destruct (print_dec_spec n Hn) as (_ & Hd & _).
  rewrite list.Forall_forall in Hd. by apply Hd in Hx.
Qed.

Definition sid_ok (sid : option Z) : Prop := ∀ n, sid = Some n → 0 ≤ n < 2 ^ 32.

Lemma hello_close_free sid :
  sid_ok sid → pair_free (hello_close sid) = true ∧ head (hello_close sid) = Some "<"%char ∧
  list.last (hello_close sid) = Some ">"%char ∧ ascii_of_N 0 ∉ hello_close sid.
Proof.
  intros Hs. unfold hello_close. destruct sid as [n|].
  - specialize (Hs n eq_refl). split; [|split; [done|split]].
    + apply pair_free_app; [done| |].
      * apply pair_free_app; [|done|done]. apply pair_free_no_gt, digits_pair_free. lia.
      * destruct (print_dec n) as [|x l] eqn:E; [done|]. cbn. intros [= ->].
        apply (digits_pair_free n); [lia|]. rewrite E. by left.
    + rewrite app_assoc, last_app. done.
    + rewrite !elem_of_app. intros [H|[H|H]].
      * revert H. apply (bool_decide_unpack (ascii_of_N 0 ∉ _)). by vm_compute.
      * revert H. apply digits_no_nl. lia.
      * revert H. apply (bool_decide_unpack (ascii_of_N 0 ∉ _)). by vm_compute.
  - split; [done|]. split; [done|]. split; [done|].
    apply (bool_decide_unpack (ascii_of_N 0 ∉ _)). by vm_compute.
Qed.

Lemma escaped_nul c : ascii_of_N 0 ∉ c → ascii_of_N 0 ∉ encoded true c.
Proof.
  unfold encoded. induction c as [|x c IH]; simpl; intros Hc; [done|].
  apply not_elem_of_cons in Hc as [Hx Hc]. rewrite elem_of_app. intros [H|H]; [|by apply IH].
  revert H. unfold xml_escape. repeat case_decide; subst;
    [apply (bool_decide_unpack (ascii_of_N 0 ∉ _)); by vm_compute..|].
  intros H'. apply list_elem_of_singleton in H'. done.
Qed.

Section hello.
Context {node envelope : Type} `{!Printer node envelope}.

Lemma hello_frameable s caps sid :
  Forall (λ c, ascii_of_N 0 ∉ c) caps → sid_ok sid →
  frameable NC_VERSION_10 (msg_payload s (OutHello (node:=node) (envelope:=envelope) caps sid)).
Proof.
  intros Hc Hs. destruct (hello_close_free sid Hs) as (H1 & H2 & H3 & H4). cbn [msg_payload].
  destruct (elem_pair_free caps _ H1 H2) as [H5 H6]. split.
  - rewrite !elem_of_app. intros [H|[H|H]].
    + revert H. apply (bool_decide_unpack (ascii_of_N 0 ∉ _)). by vm_compute.
    + clear H5 H6. induction Hc as [|c caps Hc _ IH]; [by apply elem_of_nil in H|].
      cbn [map concat] in H. unfold capability_elem at 1 in H. rewrite !elem_of_app in H.
      destruct H as [[H|[H|H]]|H]; [| | |by apply IH].
      * revert H. apply (bool_decide_unpack (ascii_of_N 0 ∉ _)). by vm_compute.
      * revert H. by apply escaped_nul.
      * revert H. apply (bool_decide_unpack (ascii_of_N 0 ∉ _)). by vm_compute.
    + done.
  - apply pair_free_clear.
    + apply pair_free_app; [by vm_compute|done|]. by rewrite H6.
    + rewrite !last_app, H3. done.
Qed.
End hello.

(** ** Evaluation set-up *)

(** Data nodes that are their own text. *)
#[export] Instance text_printer : Printer bytes bytes := {
  is_action n := bool_decide (head n = Some "a"%char);
  lyd_print _ n := ([n], true);
  opaq_ok e := str "<ok/>";
  opaq_reply e cs := str "<rpc-reply" ++ e ++ str ">" ++ concat cs ++ str "</rpc-reply>";
}.

Definition demo_session (v : NC_VERSION) (t : transport) : nc_session :=
  Session NC_STATUS_RUNNING NC_SESSION_TERM_NONE 0 NC_SERVER 1 v t (Some false)
    None None 0 None 0 (ClientOpts 0 None [] false 0 0) (ServerOpts 0 0 0 false 0).

Definition demo_world {m0 up} (input : bytes) : sim m0 up := Sim input [] 0.

(** ** Both directions *)

Section roundtrip.
Context {W1 W2 : Type} `{RL1 : Reliable W1} `{RL2 : Reliable W2}.
Context {node envelope : Type} `{!Printer node envelope}.

Lemma write_then_read fuel1 fuel2 t1 t2 (m : out_msg node envelope) s1 s2 (w1 : W1) :
  ready s1 → io_lock s1 = Some false → msg_ok fuel1 s1 m →
  frameable (version s1) (msg_payload s1 m) →
  open_session s2 → io_lock s2 = Some false → version s2 = version s1 →
  ∃ w1' out, nc_write_msg_io fuel1 t1 m (s1, w1) = Done (out_type m, (after_msg m s1, w1')) ∧
    inq w1' = inq w1 ∧ outq w1' = outq w1 ++ out ∧
    ∀ (w2 : W2) rest, inq w2 = out ++ rest → zlen (inq w2) < 2 ^ 31 → zlen (inq w2) < Z.of_nat fuel2 →
      ∃ w2', nc_read_msg_poll_io fuel2 t2 (s2, w2) = Done ((1, Some (msg_payload s1 m)), (s2, w2')) ∧
        inq w2' = rest ∧ outq w2' = outq w2.
Proof.
  intros Hs1 Hl1 Hm Hfr Hs2 Hl2 Hv.
  destruct (proj1 (wp_total _ _ _) (nc_write_msg_io_spec False fuel1 t1 m s1 w1 Hs1 Hl1 Hm))
    as (r & [s1' w1'] & E & -> & Es & Hi & cs & Hcs & Epay & Ho). cbn [fst snd] in *. subst s1'.
  exists w1', (wires (version s1) cs ++ endtag_of (version s1)).
  split; [done|]. split; [done|]. split; [done|]. intros w2 rest Hin Hlen Hf.
  rewrite wires_framed, <- Hv in Hin. rewrite <- Epay, <- Hv in Hfr.
  destruct (proj1 (wp_total _ _ _) (nc_read_msg_poll_io_ok False fuel2 t2 cs rest s2 w2
    Hs2 Hl2 Hcs Hfr Hin Hlen Hf)) as (rm & [s2' w2'] & E2 & -> & Es2 & Hi2 & Ho2).
  cbn [fst snd] in *. subst s2'. exists w2'. by rewrite E2, Epay.
Qed.

(** C1: A message sent with [nc_write_msg_io] over a working transport is received
    unchanged by [nc_read_msg_poll_io] of a peer with the same NETCONF version,
    for every message type, with both framings and however the transport splits
    reads and writes.  The sender returns the message type and only its message
    id changes, the reader returns 1 with the text, consumes exactly the message,
    and both locks are released.  The text of a version 1.0 message must be clear
    of the end tag, that of a version 1.1 message must not be empty. *)
Theorem write_read_roundtrip fuel1 fuel2 t1 t2 (m : out_msg node envelope) s1 s2 (w1 : W1) :
  ready s1 → io_lock s1 = Some false → msg_ok fuel1 s1 m →
  frameable (version s1) (msg_payload s1 m) →
  open_session s2 → io_lock s2 = Some false → version s2 = version s1 →
  ∃ w1' out, nc_write_msg_io fuel1 t1 m (s1, w1) = Done (out_type m, (after_msg m s1, w1')) ∧
    inq w1' = inq w1 ∧ outq w1' = outq w1 ++ out ∧
    ∀ (w2 : W2) rest, inq w2 = out ++ rest → zlen (inq w2) < 2 ^ 31 → zlen (inq w2) < Z.of_nat fuel2 →
      ∃ w2', nc_read_msg_poll_io fuel2 t2 (s2, w2) = Done ((1, Some (msg_payload s1 m)), (s2, w2')) ∧
        inq w2' = rest ∧ outq w2' = outq w2.
Proof. apply write_then_read. Qed.

(** A hello message is received unchanged whatever its capabilities are, as long
    as they are C strings: their escaping keeps the end tag out of the message. *)
Theorem hello_roundtrip fuel1 fuel2 t1 t2 caps sid s1 s2 (w1 : W1) :
  ready s1 → io_lock s1 = Some false → version s1 = NC_VERSION_10 →
  open_session s2 → io_lock s2 = Some false → version s2 = NC_VERSION_10 →
  Forall (λ c, ascii_of_N 0 ∉ c) caps → sid_ok sid →
  WRITE_BUFSIZE + 300 < Z.of_nat fuel1 → Forall (piece_ok fuel1) caps →
  let m : out_msg node envelope := OutHello caps sid in
  ∃ w1' out, nc_write_msg_io fuel1 t1 m (s1, w1) = Done (NC_MSG_HELLO, (s1, w1')) ∧
    outq w1' = outq w1 ++ out ∧
    ∀ (w2 : W2) rest, inq w2 = out ++ rest → zlen (inq w2) < 2 ^ 31 → zlen (inq w2) < Z.of_nat fuel2 →
      ∃ w2', nc_read_msg_poll_io fuel2 t2 (s2, w2) = Done ((1, Some (msg_payload s1 m)), (s2, w2')) ∧
        inq w2' = rest.
Proof.
  intros Hs1 Hl1 Hv1 Hs2 Hl2 Hv2 Hnul Hsid Hf Hp m.
  destruct (write_then_read fuel1 fuel2 t1 t2 m s1 s2 w1) as (w1' & out & E & _ & Ho & Hrd);
    [done|done|done|by rewrite Hv1; apply hello_frameable|done|done|congruence|].
  exists w1', out. split; [done|]. split; [done|]. intros w2 rest Hin Hlen Hf2.
  destruct (Hrd w2 rest Hin Hlen Hf2) as (w2' & ? & ? & _). eauto.
Qed.
End roundtrip.

Definition demo_notif : out_msg bytes bytes := OutNotif (str "2026-01-01T00:00:00Z") (str "<event/>").

Lemma write_read_roundtrip_witness :
  ∃ w1' out,
    nc_write_msg_io 2000 (-1) demo_notif
      (demo_session NC_VERSION_11 (TiFd 4 5), demo_world (m0:=true) (up:=true) []) =
      Done (NC_MSG_NOTIF, (demo_session NC_VERSION_11 (TiFd 4 5), w1')) ∧
    outq w1' = out ∧
    ∃ w2', nc_read_msg_poll_io 2000 0
      (demo_session NC_VERSION_11 TiOpenssl, demo_world (m0:=true) (up:=true) (out ++ str "rest")) =
      Done ((1, Some (msg_payload zero_session demo_notif)), (demo_session NC_VERSION_11 TiOpenssl, w2')) ∧
      inq w2' = str "rest".
Proof.
  destruct (write_read_roundtrip (W1 := sim true true) (W2 := sim true true) 2000 2000 (-1) 0 demo_notif
    (demo_session NC_VERSION_11 (TiFd 4 5)) (demo_session NC_VERSION_11 TiOpenssl) (demo_world []))
    as (w1' & out & E & _ & Ho & Hrd).
  { split; [split|]; done. }
  { reflexivity. }
  { split; [reflexivity|]. split; [split; reflexivity|]. split; [reflexivity|].
    repeat constructor. }
  { split; [|discriminate]. apply (bool_decide_unpack (ascii_of_N 0 ∉ _)). vm_compute. exact I. }
  { split; done. }
  { reflexivity. }
  { reflexivity. }
  exists w1', out. split; [exact E|]. split; [exact Ho|].
  assert (Hlen : zlen (out ++ str "rest") < 2000).
  { cbn [demo_world outq sim_laws sim_out] in Ho. rewrite app_nil_l in Ho. rewrite <- Ho.
    vm_compute in E. injection E as <-. reflexivity. }
  destruct (Hrd (demo_world (out ++ str "rest")) (str "rest")) as (w2' & E2 & Hi2 & _).
  - reflexivity.
  - cbn [demo_world inq sim_laws sim_in]. lia.
  - cbn [demo_world inq sim_laws sim_in]. lia.
  - exists w2'. split; [exact E2|exact Hi2].
Defined.

Lemma hello_roundtrip_witness :
  ∃ w1' out,
    nc_write_msg_io 2000 0 (OutHello (node:=bytes) (envelope:=bytes) [str "x]]>]]>y"; str "a<&>]"] (Some 7))
      (demo_session NC_VERSION_10 (TiUnix 4), demo_world (m0:=true) (up:=true) []) =
      Done (NC_MSG_HELLO, (demo_session NC_VERSION_10 (TiUnix 4), w1')) ∧
    outq w1' = out ∧
    ∃ w2', nc_read_msg_poll_io 2000 0
      (demo_session NC_VERSION_10 (TiLibssh true None), demo_world (m0:=true) (up:=true) (out ++ str "]")) =
      Done ((1, Some (msg_payload zero_session
        (OutHello (node:=bytes) (envelope:=bytes) [str "x]]>]]>y"; str "a<&>]"] (Some 7)))),
        (demo_session NC_VERSION_10 (TiLibssh true None), w2')).
Proof.
  destruct (hello_roundtrip (W1 := sim true true) (W2 := sim true true) (node := bytes) (envelope := bytes)
    2000 2000 0 0 [str "x]]>]]>y"; str "a<&>]"] (Some 7)
    (demo_session NC_VERSION_10 (TiUnix 4)) (demo_session NC_VERSION_10 (TiLibssh true None)) (demo_world []))
    as (w1' & out & E & Ho & Hrd).
  { split; [split|]; done. }
  { reflexivity. }
  { reflexivity. }
  { split; done. }
  { reflexivity. }
  { reflexivity. }
  { repeat constructor; apply (bool_decide_unpack (ascii_of_N 0 ∉ _)); vm_compute; exact I. }
  { intros n [= <-]. lia. }
  { reflexivity. }
  { repeat constructor. }
  exists w1', out. split; [exact E|]. split; [exact Ho|].
  assert (Hlen : zlen (out ++ str "]") < 2000).
  { cbn [demo_world outq sim_laws sim_out] in Ho. rewrite app_nil_l in Ho. rewrite <- Ho.
    vm_compute in E. injection E as <-. reflexivity. }
  destruct (Hrd (demo_world (out ++ str "]")) (str "]")) as (w2' & E2 & _).
  - reflexivity.
  - cbn [demo_world inq sim_laws sim_in]. lia.
  - cbn [demo_world inq sim_laws sim_in]. lia.
  - exists w2'. exact E2.
Defined.

(** ** Any environment *)

Section any_env.
Context {W : Type} `{EL : EnvLaws W}.
Context {node envelope : Type} `{!Printer node envelope}.


(** C22: Sending a message is memory safe in every environment: whatever the transport
    does, [nc_write_msg_io] stays within its buffers, releases the session lock,
    only appends to what was written, and reports the message type only when the
    status of the session is what it was before. *)
Theorem write_msg_safe fuel timeout (m : out_msg node envelope) s (w : W) :
  io_lock s = Some false → sendable s m →
  nc_write_msg_io fuel timeout m (s, w) ≠ Crash ∧
  ∀ r sw, nc_write_msg_io fuel timeout m (s, w) = Done (r, sw) →
    (r = NC_MSG_ERROR ∨ r = NC_MSG_WOULDBLOCK ∨ (r = out_type m ∧ status sw.1 = status s)) ∧
    wr_kept s w sw.
Proof.
  intros Hl Hm. pose proof (nc_write_msg_io_safe fuel timeout m s w Hl Hm) as H.
  unfold wpx in H. destruct (nc_write_msg_io fuel timeout m (s, w)) as [[r sw]| |]; [|done|done].
  split; [done|]. by intros ? ? [= <- <-].
Qed.
End any_env.


Lemma write_msg_safe_witness :
  let s := demo_session NC_VERSION_11 (TiFd 4 5) in
  let w : sim true false := demo_world [] in
  nc_write_msg_io 100 0 demo_notif (s, w) ≠ Crash.
Proof.
  intros s w. apply (write_msg_safe (W := sim true false) 100 0 demo_notif s w).
  - reflexivity.
  - split; [reflexivity|]. intros wd. repeat constructor.
Defined.

(** [nc_read_until] over a working transport stops exactly behind the end tag for
    every content that is clear of the tag, wherever reads split the stream, and
    leaves the rest of the stream unread. *)
Theorem read_until_finds {W} `{RL : Reliable W} fuel endtag inact ts_act msg rest s (w : W) :
  open_session s → 0 ≤ inact → 0 < zlen endtag ≤ BUFFERSIZE → clear_of endtag msg →
  inq w = msg ++ endtag ++ rest → zlen (inq w) < 2 ^ 31 → zlen (inq w) < Z.of_nat fuel →
  ∃ sw, nc_read_until fuel endtag 0 inact ts_act (s, w) =
      Done ((zlen (msg ++ endtag), msg ++ endtag), sw) ∧
    sw.1 = s ∧ inq sw.2 = rest ∧ outq sw.2 = outq w.
Proof.
  intros. edestruct (proj1 (wp_total _ _ _) (nc_read_until_ok False fuel endtag inact ts_act msg rest s w
    ltac:(eassumption) ltac:(eassumption) ltac:(eassumption) ltac:(eassumption)
    ltac:(eassumption) ltac:(eassumption) ltac:(eassumption))) as (rb & sw & E & -> & ?). eauto.
Qed.

Lemma read_until_finds_witness :
  ∃ sw, nc_read_until 100 [nl] 0 1000 (ts_of 5)
    (demo_session NC_VERSION_11 TiOpenssl, demo_world (m0:=true) (up:=true) (str "1234" ++ [nl] ++ str "abc")) =
    Done ((5, str "1234" ++ [nl]), sw) ∧ inq sw.2 = str "abc".
Proof.
  destruct (read_until_finds (W := sim true true) 100 [nl] 1000 (ts_of 5) (str "1234") (str "abc")
    (demo_session NC_VERSION_11 TiOpenssl) (demo_world (str "1234" ++ [nl] ++ str "abc")))
    as (sw & E & _ & Hi & _).
  - split; done.
  - lia.
  - split; [reflexivity|discriminate].
  - apply clear_of_single. apply (bool_decide_unpack (nl ∉ _)). vm_compute. exact I.
  - reflexivity.
  - reflexivity.
  - reflexivity.
  - exists sw. split; [exact E|exact Hi].
Defined.

(** ** Where the code does not do what it means to *)



(** A failed write is reported as a success: when every [write] fails, sending a
    notification writes nothing, yet [nc_write_msg_io] returns the message type and
    the session stays valid. *)
Theorem write_failure_unreported :
  ∃ sw, nc_write_msg_io 2000 0 demo_notif
    (demo_session NC_VERSION_10 (TiFd 4 5), demo_world (m0:=true) (up:=false) []) =
    Done (NC_MSG_NOTIF, sw) ∧ outq sw.2 = [] ∧ status sw.1 = NC_STATUS_RUNNING.
Proof. eexists. split; [vm_compute; reflexivity|]. split; reflexivity. Qed.
