(* ===== verification/Capabilities.v ===== *)
(** * Capabilities and the hello exchange

    src/session.c, capability lists and the NETCONF handshake: the list a server
    advertises ([add_cpblt], [nc_server_get_cpblts_version]), the list a peer
    sent ([parse_cpblts]), and the two hello messages ([nc_handshake_io]); from
    src/session_server.c the options the list is made of.  The schema context and
    the XML parser of libyang are parameters. *)

From S2P Require Import Prelude Session Env Time Locks IoRead IoWrite.
From Stdlib Require Import ZArith Ascii String Lia.
From stdpp Require Import base list strings gmap numbers.
Open Scope Z_scope.

(** ** The schema context, as libyang presents it *)

Inductive LYS_VERSION := LYS_VERSION_UNDEF | LYS_VERSION_1_0 | LYS_VERSION_1_1.

#[export] Instance LYS_VERSION_eq : EqDecision LYS_VERSION.
Proof. solve_decision. Defined.

(** A feature is its name and whether it is enabled; [mod_deviated_by] is [None]
    for a [NULL] array. *)
Record lys_module := LysModule {
  mod_name : bytes;
  mod_ns : bytes;
  mod_revision : option bytes;
  mod_version : LYS_VERSION;
  mod_features : list (bytes * bool);
  mod_deviated_by : option (list bytes);
}.

Record ly_ctx := LyCtx {
  ctx_modules : list lys_module;
  ctx_implemented : bytes → option lys_module;
  ctx_feature_value : lys_module → bytes → bool;
  ctx_change_count : Z;
}.

(** ** Server options *)

(** The values of [NC_WD_MODE]. *)
Definition wd_value (m : NC_WD_MODE) : Z :=
  match m with
  | NC_WD_UNKNOWN => 0
  | NC_WD_ALL => 1
  | NC_WD_ALL_TAG => 2
  | NC_WD_TRIM => 3
  | NC_WD_EXPLICIT => 4
  end.

(** The options of [struct nc_server_opts] used here.  [content_id_clb] is the
    result of the callback when one is set. *)
Record nc_server_opts := NcServerOpts {
  wd_basic_mode : NC_WD_MODE;
  wd_also_supported : Z;
  capabilities : list (option bytes);
  content_id_clb : option (option bytes);
  hello_timeout : Z;
  idle_timeout : Z;
}.

(** Returns 0 or -1 and the new options. *)
Definition nc_server_set_capab_withdefaults (basic_mode : NC_WD_MODE) (also_supported : Z)
    (o : nc_server_opts) : Z * nc_server_opts :=
  if (wd_value basic_mode =? 0) || bool_decide (basic_mode = NC_WD_ALL_TAG) then (-1, o)
  else if negb (also_supported =? 0) &&
          (Z.land also_supported
             (Z.lor (Z.lor (Z.lor (wd_value NC_WD_ALL) (wd_value NC_WD_ALL_TAG)) (wd_value NC_WD_TRIM))
                (wd_value NC_WD_EXPLICIT)) =? 0) then (-1, o)
  else (0, NcServerOpts basic_mode also_supported (capabilities o) (content_id_clb o)
             (hello_timeout o) (idle_timeout o)).

Definition nc_server_get_capab_withdefaults (o : nc_server_opts) : NC_WD_MODE * Z :=
  (wd_basic_mode o, wd_also_supported o).

Definition nc_server_set_hello_timeout (t : Z) (o : nc_server_opts) : nc_server_opts :=
  NcServerOpts (wd_basic_mode o) (wd_also_supported o) (capabilities o) (content_id_clb o)
    (u16 t) (idle_timeout o).
Definition nc_server_get_hello_timeout (o : nc_server_opts) : Z := hello_timeout o.

Definition nc_server_set_idle_timeout (t : Z) (o : nc_server_opts) : nc_server_opts :=
  NcServerOpts (wd_basic_mode o) (wd_also_supported o) (capabilities o) (content_id_clb o)
    (hello_timeout o) (u16 t).
Definition nc_server_get_idle_timeout (o : nc_server_opts) : Z := idle_timeout o.

Definition nc_server_set_content_id_clb (clb : option (option bytes)) (o : nc_server_opts)
    : nc_server_opts :=
  NcServerOpts (wd_basic_mode o) (wd_also_supported o) (capabilities o) clb
    (hello_timeout o) (idle_timeout o).

(** ** Capability lists *)

(** The text before a question mark. *)
Definition cpblt_key (capab : bytes) : bytes :=
  (span (λ c, negb (bool_decide (c = "?"%char))) capab).1.

(** The array of capabilities: [None] for a [NULL] pointer, and an element is
    [None] for a [NULL] string. *)
Record cpblts_arr := CpbltsArr {
  cp_arr : option (list (option bytes));
  cp_size : Z;
  cp_count : Z;
}.

Definition NC_CPBLT_BUF_LEN : Z := 4096.

Definition BASE_1_0 : bytes := str "urn:ietf:params:netconf:base:1.0".
Definition BASE_1_1 : bytes := str "urn:ietf:params:netconf:base:1.1".

Section cpblts.
Context {W : Type} `{!Env W}.

Definition strdup (s : bytes) : M W (option bytes) :=
  ok ← call (malloc_ok (zlen s + 1));
  mret (if ok : bool then Some s else None).

Definition nc_server_set_capability (value : option bytes) (o : nc_server_opts)
    : M W (bool * nc_server_opts) :=
  match value with
  | None | Some [] => mret (false, o)
  | Some v =>
    ok ← call (malloc_ok ((zlen (capabilities o) + 1) * 8));
    if negb ok then mret (false, o)
    else
      d ← strdup v;
      mret (true, NcServerOpts (wd_basic_mode o) (wd_also_supported o) (capabilities o ++ [d])
                    (content_id_clb o) (hello_timeout o) (idle_timeout o))
  end.

(** The loop of [add_cpblt] looking for a capability with the same [len] first
    characters that ends there. *)
Fixpoint cpblt_present (l : list (option bytes)) (capab : bytes) (len : nat) : M W bool :=
  match l with
  | [] => mret false
  | None :: _ => crash
  | Some c :: l =>
    if strncmp_eq c capab len &&
       match c !! len with None => true | Some x => bool_decide (x = "?"%char) end
    then mret true
    else cpblt_present l capab len
  end.

Definition add_cpblt (capab : option bytes) (c : cpblts_arr) : M W cpblts_arr :=
  dup ←
    match capab with
    | None => mret false
    | Some s =>
      match cp_arr c with
      | Some l => cpblt_present l s (length (cpblt_key s))
      | None => if 0 <? cp_count c then crash else mret false
      end
    end;
  if dup : bool then mret c
  else
    c ← (if cp_count c =? cp_size c then
           ok ← call (malloc_ok ((cp_size c + 5) * 8));
           mret (CpbltsArr (if ok : bool then Some (default [] (cp_arr c)) else None)
                   (cp_size c + 5) (cp_count c), ok)
         else mret (c, true));
    if negb c.2 then mret c.1
    else
      match cp_arr c.1 with
      | None => crash
      | Some l =>
        d ← match capab with Some s => strdup s | None => mret None end;
        mret (CpbltsArr (Some (l ++ [d])) (cp_size c.1) (cp_count c.1 + 1))
      end.

(** [add_cpblt] under a condition. *)
Definition add_cpblt_if (b : bool) (capab : string) (c : cpblts_arr) : M W cpblts_arr :=
  if b then add_cpblt (Some (str capab)) c else mret c.

(** Appending to [char str[NC_CPBLT_BUF_LEN]]. *)
Definition strcat (s t : bytes) : M W bytes :=
  _ ← guarded (zlen (s ++ t) <? NC_CPBLT_BUF_LEN);
  mret (s ++ t).

(** Capabilities for the features of ietf-netconf. *)
Definition netconf_cpblts (ctx : ly_ctx) (c : cpblts_arr) : M W cpblts_arr :=
  match ctx_implemented ctx (str "ietf-netconf") with
  | None => mret c
  | Some m =>
    let feat (name : string) := ctx_feature_value ctx m (str name) in
    c ← add_cpblt_if (feat "writable-running") "urn:ietf:params:netconf:capability:writable-running:1.0" c;
    c ← (if feat "candidate" then
           c ← add_cpblt (Some (str "urn:ietf:params:netconf:capability:candidate:1.0")) c;
           add_cpblt_if (feat "confirmed-commit")
             "urn:ietf:params:netconf:capability:confirmed-commit:1.1" c
         else mret c);
    c ← add_cpblt_if (feat "rollback-on-error") "urn:ietf:params:netconf:capability:rollback-on-error:1.0" c;
    c ← add_cpblt_if (feat "validate") "urn:ietf:params:netconf:capability:validate:1.1" c;
    c ← add_cpblt_if (feat "startup") "urn:ietf:params:netconf:capability:startup:1.0" c;
    add_cpblt_if (feat "xpath") "urn:ietf:params:netconf:capability:xpath:1.0" c
  end.

(** The with-defaults capability: its text, as built in [str]. *)
Definition wd_basic_text (m : NC_WD_MODE) : bytes :=
  str "urn:ietf:params:netconf:capability:with-defaults:1.0" ++
  match m with
  | NC_WD_ALL => str "?basic-mode=report-all"
  | NC_WD_TRIM => str "?basic-mode=trim"
  | NC_WD_EXPLICIT => str "?basic-mode=explicit"
  | _ => []
  end.

Definition wd_flag (also : Z) (m : NC_WD_MODE) (text : string) : bytes :=
  if Z.land also (wd_value m) =? 0 then [] else str text.

Definition wd_text (basic : NC_WD_MODE) (also : Z) : bytes :=
  removelast (wd_basic_text basic ++ str "&also-supported=" ++
    wd_flag also NC_WD_ALL "report-all," ++ wd_flag also NC_WD_ALL_TAG "report-all-tagged," ++
    wd_flag also NC_WD_TRIM "trim," ++ wd_flag also NC_WD_EXPLICIT "explicit,").

Definition withdefaults_cpblt (ctx : ly_ctx) (o : nc_server_opts) (c : cpblts_arr) : M W cpblts_arr :=
  match ctx_implemented ctx (str "ietf-netconf-with-defaults") with
  | None => mret c
  | Some _ =>
    if wd_value (wd_basic_mode o) =? 0 then mret c
    else if negb (wd_also_supported o =? 0) then
      add_cpblt (Some (wd_text (wd_basic_mode o) (wd_also_supported o))) c
    else mret c
  end.

Fixpoint add_cpblts (caps : list (option bytes)) (c : cpblts_arr) : M W cpblts_arr :=
  match caps with
  | [] => mret c
  | x :: caps => c ← add_cpblt x c; add_cpblts caps c
  end.

(** The features of a module: [str], [str_len] and [features_count]. *)
Fixpoint cat_features (fs : list (bytes * bool)) (s : bytes) (str_len : Z) (count : Z)
    : M W (bytes * Z) :=
  match fs with
  | [] => mret (s, str_len)
  | (name, enabled) :: fs =>
    if negb enabled then cat_features fs s str_len count
    else
      '(s, str_len) ← (if count =? 0 then s ← strcat s (str "&features="); mret (s, str_len + 10)
                       else mret (s, str_len));
      let len := zlen name in
      if NC_CPBLT_BUF_LEN <=? str_len + 1 + len then mret (s, str_len)
      else
        '(s, str_len) ← (if count =? 0 then mret (s, str_len)
                         else s ← strcat s (str ","); mret (s, str_len + 1));
        s ← strcat s name;
        cat_features fs s (str_len + len) (count + 1)
  end.

(** The modules that deviate a module. *)
Fixpoint cat_deviations (ds : list bytes) (s : bytes) (str_len : Z) (count : Z) : M W bytes :=
  match ds with
  | [] => mret s
  | name :: ds =>
    let len := zlen name in
    if NC_CPBLT_BUF_LEN <=? str_len + 1 + len then mret s
    else
      '(s, str_len) ← (if count =? 0 then mret (s, str_len)
                       else s ← strcat s (str ","); mret (s, str_len + 1));
      s ← strcat s name;
      cat_deviations ds s (str_len + len) (count + 1)
  end.

Definition module_base (m : lys_module) : bytes :=
  mod_ns m ++ str "?module=" ++ mod_name m ++
  match mod_revision m with Some r => str "&revision=" ++ r | None => [] end.

Definition module_cpblt (m : lys_module) : M W bytes :=
  s ← strcat [] (module_base m);
  '(s, str_len) ← cat_features (mod_features m) s (zlen (module_base m)) 0;
  match mod_deviated_by m with
  | None => mret s
  | Some ds =>
    s ← strcat s (str "&deviations=");
    cat_deviations ds s (str_len + 12) 0
  end.

Definition YL_2016 : bytes := str "2016-06-21".
Definition YL_2019 : bytes := str "2019-01-04".

(** The capability of ietf-yang-library; [None] is the jump to [error]. *)
Definition yang_library_cpblt (ctx : ly_ctx) (o : nc_server_opts) (m : lys_module) : M W (option bytes) :=
  match mod_revision m with
  | None => mret None
  | Some rev =>
    if negb (strcmp_eq rev YL_2016) && negb (strcmp_eq rev YL_2019) then mret None
    else
      cid ← match content_id_clb o with
            | Some r => mret r
            | None =>
              ok ← call (malloc_ok 11);
              if negb ok then mret None
              else
                _ ← guarded (zlen (print_dec (u32 (ctx_change_count ctx))) <? 11);
                mret (Some (print_dec (u32 (ctx_change_count ctx))))
            end;
      match cid with
      | None => mret None
      | Some cid =>
        s ← strcat []
          (if strcmp_eq rev YL_2019
           then str "urn:ietf:params:netconf:capability:yang-library:1.1?revision=" ++ rev ++
                str "&content-id=" ++ cid
           else str "urn:ietf:params:netconf:capability:yang-library:1.0?revision=" ++ rev ++
                str "&module-set-id=" ++ cid);
        mret (Some s)
      end
  end.

Definition version_num (v : LYS_VERSION) : Z :=
  match v with LYS_VERSION_UNDEF => 0 | LYS_VERSION_1_0 => 1 | LYS_VERSION_1_1 => 2 end.

(** Modules left out of the list for the requested YANG version. *)
Definition skip_module (version : LYS_VERSION) (m : lys_module) : bool :=
  (bool_decide (version = LYS_VERSION_1_0) && (version_num version <? version_num (mod_version m))) ||
  (bool_decide (version = LYS_VERSION_1_1) && negb (version_num (mod_version m) =? version_num version)).

(** The loop over the modules; [None] is the jump to [error]. *)
Fixpoint models_cpblts (ctx : ly_ctx) (o : nc_server_opts) (version : LYS_VERSION)
    (mods : list lys_module) (c : cpblts_arr) : M W (option cpblts_arr) :=
  match mods with
  | [] => mret (Some c)
  | m :: mods =>
    if strcmp_eq (mod_name m) (str "ietf-yang-library") then
      s ← yang_library_cpblt ctx o m;
      match s with
      | None => mret None
      | Some s => c ← add_cpblt (Some s) c; models_cpblts ctx o version mods c
      end
    else if skip_module version m then models_cpblts ctx o version mods c
    else
      s ← module_cpblt m;
      c ← add_cpblt (Some s) c;
      models_cpblts ctx o version mods c
  end.

Definition nc_server_get_cpblts_version (ctx : option ly_ctx) (o : nc_server_opts)
    (version : LYS_VERSION) : M W (option (list (option bytes))) :=
  match ctx with
  | None => mret None
  | Some ctx =>
    ok ← call (malloc_ok (10 * 8));
    if negb ok then mret None
    else
      b0 ← strdup BASE_1_0;
      b1 ← strdup BASE_1_1;
      c ← netconf_cpblts ctx (CpbltsArr (Some [b0; b1]) 10 2);
      c ← withdefaults_cpblt ctx o c;
      c ← add_cpblts (capabilities o) c;
      r ← models_cpblts ctx o version (ctx_modules ctx) c;
      match r with
      | None => mret None
      | Some c => c ← add_cpblt None c; mret (cp_arr c)
      end
  end.

Definition nc_server_get_cpblts (ctx : option ly_ctx) (o : nc_server_opts)
    : M W (option (list (option bytes))) :=
  nc_server_get_cpblts_version ctx o LYS_VERSION_UNDEF.
End cpblts.

(** ** Capabilities of the peer *)

(** An opaque node of libyang. *)
Inductive opaq :=
| Opaq (name : bytes) (ns : option bytes) (value : option bytes) (children : list opaq).

Definition oq_name (n : opaq) : bytes := let (x, _, _, _) := n in x.
Definition oq_ns (n : opaq) : option bytes := let (_, x, _, _) := n in x.
Definition oq_value (n : opaq) : option bytes := let (_, _, x, _) := n in x.
Definition oq_children (n : opaq) : list opaq := let (_, _, _, x) := n in x.

(** [!module_ns || strcmp(module_ns, NC_NS_BASE)] *)
Definition foreign (n : opaq) : bool :=
  match oq_ns n with None => true | Some ns => negb (strcmp_eq ns NC_NS_BASE) end.

Definition skip_spaces (s : bytes) : bytes := (span isspace s).2.

(** The length of a string without its trailing white space. *)
Definition trimmed_len (s : bytes) : nat := length (skip_spaces (rev s)).

Section parse.
Context {W : Type} `{!Env W}.

(** The version after one capability, [cpb_start] and [cpb_end - cpb_start]. *)
Definition detect_version (ver : Z) (cpb_start : bytes) (len : nat) : Z :=
  if (ver <? 0) && strncmp_eq cpb_start BASE_1_0 len then 0
  else if (ver <? 1) && strncmp_eq cpb_start BASE_1_1 len then 1
  else ver.

(** [lst] is [None] when the caller does not ask for the list. *)
Fixpoint parse_cpblts_loop (children : list opaq) (ver : Z) (lst : option (list bytes))
    : M W (Z * option (list bytes)) :=
  match children with
  | [] => mret (ver, lst)
  | n :: children =>
    if negb (strcmp_eq (oq_name n) (str "capability")) || foreign n then mret (-1, lst)
    else
      match oq_value n with
      | None => crash
      | Some value =>
        let cpb_start := skip_spaces value in
        let start := (length value - length cpb_start)%nat in
        let cpb_end := trimmed_len value in
        match cpb_start with
        | [] => mret (-1, lst)
        | _ =>
          if (cpb_end =? 0)%nat then mret (-1, lst)
          else
            let len := (cpb_end - start)%nat in
            let ver := detect_version ver cpb_start len in
            match lst with
            | None => parse_cpblts_loop children ver None
            | Some l =>
              ok ← call (malloc_ok (Z.of_nat len + 1));
              if negb ok then mret (-1, lst)
              else parse_cpblts_loop children ver (Some (l ++ [take len cpb_start]))
            end
        end
      end
  end.

Definition parse_cpblts (children : list opaq) (want_list : bool) : M W (Z * option (list bytes)) :=
  if want_list then
    ok ← call (malloc_ok ((zlen children + 1) * 8));
    if negb ok then mret (-1, None) else parse_cpblts_loop children (-1) (Some [])
  else parse_cpblts_loop children (-1) None.
End parse.

(** ** The hello exchange *)

(** libyang parsing the text of a hello: the children of its first node. *)
Class HelloParser (W : Type) := {
  lyd_parse_hello : bytes → W → option (list opaq) * W;
}.

Definition NC_CLIENT_HELLO_TIMEOUT : Z := 60.
Definition NC_SERVER_HELLO_TIMEOUT : Z := 60.

(** An array of strings up to its terminating [NULL]. *)
Fixpoint until_null (l : list (option bytes)) : list bytes :=
  match l with
  | Some s :: l => s :: until_null l
  | _ => []
  end.

Section hello.
Context {W : Type} `{!Env W, !HelloParser W}.
Context {node envelope : Type} `{!Printer node envelope}.
Context (ctx : option ly_ctx) (o : nc_server_opts).

Definition send_hello_list (fuel : nat) (cpblts : list (option bytes)) (timeout : Z) (sid : option Z)
    : SM W NC_MSG_TYPE :=
  nc_write_msg_io fuel timeout (OutHello (node:=node) (envelope:=envelope) (until_null cpblts) sid).

Definition nc_send_hello_io (fuel : nat) : SM W NC_MSG_TYPE :=
  s ← ses;
  match side s with
  | NC_CLIENT =>
    ok ← envcall (malloc_ok (3 * 8));
    if negb ok then mret NC_MSG_ERROR
    else
      b0 ← env (strdup BASE_1_0);
      b1 ← env (strdup BASE_1_1);
      send_hello_list fuel [b0; b1; None] (NC_CLIENT_HELLO_TIMEOUT * 1000) None
  | NC_SERVER =>
    r ← env (nc_server_get_cpblts_version ctx o LYS_VERSION_1_0);
    match r with
    | None => mret NC_MSG_ERROR
    | Some cpblts => send_hello_list fuel cpblts (NC_SERVER_HELLO_TIMEOUT * 1000) (Some (id s))
    end
  end.

(** [session->version = ver] for [ver] 0 or 1. *)
Definition version_of (ver : Z) : NC_VERSION := if ver =? 0 then NC_VERSION_10 else NC_VERSION_11.

(** The children of the hello of a server. *)
Fixpoint client_hello_loop (children : list opaq) (flag : bool) : SM W bool :=
  match children with
  | [] => mret true
  | n :: children =>
    if foreign n then client_hello_loop children flag
    else if strcmp_eq (oq_name n) (str "session-id") then
      match oq_value n with
      | None | Some [] => mret false
      | Some v =>
        let '(id, rest) := strtoll v in
        if negb (zlen rest =? 0) || (id <? 1) || (UINT32_MAX <? id) then mret false
        else _ ← upd_ses (set_id (u32 id)); client_hello_loop children flag
      end
    else if negb (strcmp_eq (oq_name n) (str "capabilities")) then mret false
    else if flag then mret false
    else
      '(ver, l) ← env (parse_cpblts (oq_children n) true);
      _ ← upd_ses (set_cpblts l);
      if ver <? 0 then mret false
      else _ ← upd_ses (set_version (version_of ver)); client_hello_loop children true
  end.

Definition nc_recv_client_hello_io (fuel : nat) : SM W NC_MSG_TYPE :=
  '(r, msg) ← nc_read_msg_poll_io fuel (NC_CLIENT_HELLO_TIMEOUT * 1000);
  match r, msg with
  | 1, Some msg =>
    hello ← envcall (lyd_parse_hello msg);
    match hello with
    | None => mret NC_MSG_ERROR
    | Some children =>
      ok ← client_hello_loop children false;
      if negb ok then mret NC_MSG_ERROR
      else
        s ← ses;
        if id s =? 0 then mret NC_MSG_ERROR else mret NC_MSG_HELLO
    end
  | 0, _ => mret NC_MSG_WOULDBLOCK
  | _, _ => mret NC_MSG_ERROR
  end.

(** The children of the hello of a client. *)
Fixpoint server_hello_loop (children : list opaq) (flag : bool) : SM W bool :=
  match children with
  | [] => mret true
  | n :: children =>
    if foreign n then server_hello_loop children flag
    else if negb (strcmp_eq (oq_name n) (str "capabilities")) then mret false
    else if flag then mret false
    else
      '(ver, _) ← env (parse_cpblts (oq_children n) false);
      if ver <? 0 then mret false
      else _ ← upd_ses (set_version (version_of ver)); server_hello_loop children true
  end.

Definition nc_recv_server_hello_io (fuel : nat) : SM W NC_MSG_TYPE :=
  let timeout_io := if hello_timeout o =? 0 then NC_SERVER_HELLO_TIMEOUT * 1000
                    else hello_timeout o * 1000 in
  '(r, msg) ← nc_read_msg_poll_io fuel timeout_io;
  match r, msg with
  | 1, Some msg =>
    hello ← envcall (lyd_parse_hello msg);
    match hello with
    | None => mret NC_MSG_ERROR
    | Some children =>
      ok ← server_hello_loop children false;
      mret (if ok : bool then NC_MSG_HELLO else NC_MSG_BAD_HELLO)
    end
  | 0, _ => mret NC_MSG_WOULDBLOCK
  | _, _ => mret NC_MSG_ERROR
  end.

Definition nc_handshake_io (fuel : nat) : SM W NC_MSG_TYPE :=
  type ← nc_send_hello_io fuel;
  if negb (bool_decide (type = NC_MSG_HELLO)) then mret type
  else
    s ← ses;
    match side s with
    | NC_CLIENT => nc_recv_client_hello_io fuel
    | NC_SERVER => nc_recv_server_hello_io fuel
    end.
End hello.
