(* ===== verification/CapabilitiesProofs.v ===== *)
(** * The advertised and the received capabilities

    A reference description of the capability list of a server and the proof
    that the code computes it; what [parse_cpblts] recognises; the handshake of
    two parties.  Also the cases where the list is not what the options say. *)

From S2P Require Import Prelude Session Env Time Locks Sim IoRead IoReadProofs.
From S2P Require Import Framing IoWrite IoWriteProofs IoTheorems Capabilities.
From Stdlib Require Import ZArith Ascii String Lia.
From stdpp Require Import base list strings gmap numbers.
Open Scope Z_scope.

(** ** Reference description *)

(** Adding a capability unless one with the same text before the question mark
    is there. *)
Definition add_key (l : list bytes) (s : bytes) : list bytes :=
  if decide (cpblt_key s ∈ map cpblt_key l) then l else l ++ [s].

Fixpoint join (l : list bytes) : bytes :=
  match l with
  | [] => []
  | [x] => x
  | x :: l => x ++ str "," ++ join l
  end.

Definition enabled_features (m : lys_module) : list bytes :=
  map fst (filter (λ f, f.2 = true) (mod_features m)).

Definition features_text (fs : list bytes) : bytes :=
  match fs with [] => [] | _ => str "&features=" ++ join fs end.

Definition deviations_text (d : option (list bytes)) : bytes :=
  match d with None => [] | Some ds => str "&deviations=" ++ join ds end.

Definition module_text (m : lys_module) : bytes :=
  module_base m ++ features_text (enabled_features m) ++ deviations_text (mod_deviated_by m).

Definition library_text (ctx : ly_ctx) (o : nc_server_opts) (m : lys_module) : bytes :=
  let rev := default [] (mod_revision m) in
  let cid := match content_id_clb o with
             | Some r => default [] r
             | None => print_dec (u32 (ctx_change_count ctx))
             end in
  if strcmp_eq rev YL_2019
  then str "urn:ietf:params:netconf:capability:yang-library:1.1?revision=" ++ rev ++
       str "&content-id=" ++ cid
  else str "urn:ietf:params:netconf:capability:yang-library:1.0?revision=" ++ rev ++
       str "&module-set-id=" ++ cid.

Definition is_library (m : lys_module) : bool := strcmp_eq (mod_name m) (str "ietf-yang-library").

Definition models_list (ctx : ly_ctx) (o : nc_server_opts) (version : LYS_VERSION)
    (mods : list lys_module) : list bytes :=
  mods ≫= λ m, if is_library m then [library_text ctx o m]
               else if skip_module version m then [] else [module_text m].

Definition feature_cpblt (b : bool) (s : string) : list bytes := if b then [str s] else [].

Definition netconf_list (ctx : ly_ctx) : list bytes :=
  match ctx_implemented ctx (str "ietf-netconf") with
  | None => []
  | Some m =>
    let feat (name : string) := ctx_feature_value ctx m (str name) in
    feature_cpblt (feat "writable-running") "urn:ietf:params:netconf:capability:writable-running:1.0" ++
    feature_cpblt (feat "candidate") "urn:ietf:params:netconf:capability:candidate:1.0" ++
    feature_cpblt (feat "candidate" && feat "confirmed-commit")
      "urn:ietf:params:netconf:capability:confirmed-commit:1.1" ++
    feature_cpblt (feat "rollback-on-error") "urn:ietf:params:netconf:capability:rollback-on-error:1.0" ++
    feature_cpblt (feat "validate") "urn:ietf:params:netconf:capability:validate:1.1" ++
    feature_cpblt (feat "startup") "urn:ietf:params:netconf:capability:startup:1.0" ++
    feature_cpblt (feat "xpath") "urn:ietf:params:netconf:capability:xpath:1.0"
  end.

Definition withdefaults_list (ctx : ly_ctx) (o : nc_server_opts) : list bytes :=
  match ctx_implemented ctx (str "ietf-netconf-with-defaults") with
  | None => []
  | Some _ =>
    if (wd_value (wd_basic_mode o) =? 0) || (wd_also_supported o =? 0) then []
    else [wd_text (wd_basic_mode o) (wd_also_supported o)]
  end.

(** Everything the server has to offer, in the order it is offered. *)
Definition offered (ctx : ly_ctx) (o : nc_server_opts) (version : LYS_VERSION) : list bytes :=
  netconf_list ctx ++ withdefaults_list ctx o ++ omap (λ x, x) (capabilities o) ++
  models_list ctx o version (ctx_modules ctx).

Definition advertised (ctx : ly_ctx) (o : nc_server_opts) (version : LYS_VERSION) : list bytes :=
  foldl add_key [BASE_1_0; BASE_1_1] (offered ctx o version).

(** Contexts and options whose texts fit the buffers of the code. *)
Definition module_fits (ctx : ly_ctx) (o : nc_server_opts) (m : lys_module) : Prop :=
  if is_library m
  then (mod_revision m = Some YL_2016 ∨ mod_revision m = Some YL_2019) ∧
       content_id_clb o ≠ Some None ∧ zlen (library_text ctx o m) < NC_CPBLT_BUF_LEN
  else zlen (module_text m) < NC_CPBLT_BUF_LEN - 1.

Definition fits (ctx : ly_ctx) (o : nc_server_opts) (version : LYS_VERSION) : Prop :=
  Forall (λ c, ∃ s, c = Some s ∧ zlen s < 2 ^ 31) (capabilities o) ∧
  Forall (module_fits ctx o) (ctx_modules ctx) ∧
  zlen (offered ctx o version) < 2 ^ 27.

(** ** Keys *)

Lemma cpblt_key_spec s :
  "?"%char ∉ cpblt_key s ∧ ∃ rest, s = cpblt_key s ++ rest ∧
    match rest with [] => True | c :: _ => c = "?"%char end.
Proof.
  unfold cpblt_key. set (p := λ c, negb (bool_decide (c = "?"%char))). split.
  - intros H. pose proof (span_forall p s) as Hf. rewrite list.Forall_forall in Hf.
    apply Hf in H. unfold p in H. by rewrite bool_decide_true in H.
  - exists (span p s).2. split; [by rewrite span_app|].
    induction s as [|c s IH]; [done|]. simpl. destruct (p c) eqn:E.
    + by destruct (span p s).
    + simpl. unfold p in E. by case_bool_decide.
Qed.

Lemma cpblt_key_unique s k rest :
  s = k ++ rest → "?"%char ∉ k → (match rest with [] => True | c :: _ => c = "?"%char end) →
  cpblt_key s = k.
Proof.
  intros -> Hk Hr. unfold cpblt_key. rewrite span_all; [done| |].
  - apply list.Forall_forall. intros c Hc. rewrite bool_decide_false; [done|]. by intros ->.
  - destruct rest; [done|]. by subst.
Qed.

(** The test of [add_cpblt] is equality of the keys. *)
Lemma same_key_test c s :
  strncmp_eq c s (length (cpblt_key s)) &&
  match c !! length (cpblt_key s) with None => true | Some x => bool_decide (x = "?"%char) end =
  bool_decide (cpblt_key c = cpblt_key s).
Proof.
  destruct (cpblt_key_spec s) as (Hs & rest & Es & Hr).
  set (k := cpblt_key s) in *. unfold strncmp_eq.
  assert (take (length k) s = k) as -> by (rewrite Es; apply take_app_length).
  destruct (decide (cpblt_key c = k)) as [E|E].
  - rewrite (bool_decide_true (cpblt_key c = k)) by done.
    destruct (cpblt_key_spec c) as (_ & rc & Ec & Hrc). rewrite E in Ec.
    rewrite Ec, take_app_length, bool_decide_true by done.
    rewrite lookup_app_r, Nat.sub_diag by lia. destruct rc as [|x rc]; [done|].
    simpl. by rewrite Hrc, bool_decide_true.
  - rewrite (bool_decide_false (cpblt_key c = k)) by done.
    case_bool_decide as Ht; [|done]. simpl.
    destruct (c !! length k) as [x|] eqn:El.
    + case_bool_decide; [|done]. subst x. exfalso. apply E.
      apply (cpblt_key_unique c k (drop (length k) c)); [by rewrite <- Ht at 1; rewrite take_drop|done|].
      apply drop_S in El. by rewrite El.
    + exfalso. apply E. apply lookup_ge_None in El. rewrite take_ge in Ht by done. subst c.
      apply (cpblt_key_unique _ _ []); [by rewrite app_nil_r|done|done].
Qed.

Lemma add_key_NoDup l s : NoDup (map cpblt_key l) → NoDup (map cpblt_key (add_key l s)).
Proof.
  unfold add_key. intros H. case_decide as E; [done|]. rewrite map_app.
  apply list.NoDup_app. split; [done|]. split; [|apply NoDup_singleton].
  intros x Hx Hs. apply list_elem_of_singleton in Hs. by subst.
Qed.

Lemma foldl_add_key_NoDup l caps :
  NoDup (map cpblt_key l) → NoDup (map cpblt_key (foldl add_key l caps)).
Proof.
  revert l. induction caps as [|c caps IH]; intros l H; [done|]. by apply IH, add_key_NoDup.
Qed.

Lemma foldl_add_key_app l caps : ∃ k, foldl add_key l caps = l ++ k ∧ (length k ≤ length caps)%nat.
Proof.
  revert l. induction caps as [|c caps IH]; intros l; simpl; [exists []; by rewrite app_nil_r|].
  destruct (IH (add_key l c)) as (k & -> & Hk). unfold add_key. case_decide.
  - exists k. split; [done|lia].
  - exists (c :: k). rewrite <- app_assoc. split; [done|simpl; lia].
Qed.

Lemma foldl_add_key_complete l caps s :
  s ∈ caps → cpblt_key s ∈ map cpblt_key (foldl add_key l caps).
Proof.
  revert l. induction caps as [|c caps IH]; intros l Hs; [by apply elem_of_nil in Hs|].
  apply elem_of_cons in Hs as [->|Hs]; [|by apply IH]. simpl.
  destruct (foldl_add_key_app (add_key l c) caps) as (k & -> & _). rewrite map_app, elem_of_app. left.
  unfold add_key. case_decide; [done|]. rewrite map_app, elem_of_app. right. by left.
Qed.

Lemma foldl_add_key_sound l caps s : s ∈ foldl add_key l caps → s ∈ l ∨ s ∈ caps.
Proof.
  revert l. induction caps as [|c caps IH]; intros l Hs; [by left|]. simpl in Hs.
  apply IH in Hs as [Hs|Hs]; [|right; by right]. unfold add_key in Hs. case_decide; [by left|].
  apply elem_of_app in Hs as [Hs|Hs]; [by left|]. apply list_elem_of_singleton in Hs. subst. right. by left.
Qed.

(** ** The code computes the reference list *)

Section advertise.
Context {W : Type} `{RL : Reliable W}.
Implicit Types w : W.

Lemma wpx_malloc_ok F n w (Q : bool → W → Prop) :
  0 < n ≤ 2 ^ 32 → (∀ w', no_traffic w w' → Q true w') → wpx F (call (malloc_ok n)) Q w.
Proof.
  intros Hn HQ. apply wpx_call. rewrite rel_malloc by done. apply HQ.
  apply quiet_no_traffic, malloc_law.
Qed.

Lemma strdup_ok F s w :
  zlen s < 2 ^ 31 → wpx F (strdup s) (λ r w', r = Some s ∧ no_traffic w w') w.
Proof.
  intros Hs. unfold strdup. pose proof (zlen_nonneg s). apply wpx_bind, wpx_malloc_ok; [lia|].
  intros w' Hw. by apply wpx_ret.
Qed.

(** The array holds the list [l]. *)
Definition arr_of (l : list bytes) (c : cpblts_arr) : Prop :=
  cp_arr c = Some (map Some l) ∧ cp_count c = zlen l ∧ zlen l ≤ cp_size c ≤ zlen l + 10.

Lemma cpblt_present_ok F l s w :
  wpx F (cpblt_present (map Some l) s (length (cpblt_key s)))
    (λ b w', b = bool_decide (cpblt_key s ∈ map cpblt_key l) ∧ w' = w) w.
Proof.
  induction l as [|c l IH]; cbn [map cpblt_present].
  { apply wpx_ret. split; [|done]. rewrite bool_decide_false; [done|]. apply not_elem_of_nil. }
  rewrite same_key_test. destruct (bool_decide (cpblt_key c = cpblt_key s)) eqn:E.
  - apply bool_decide_eq_true in E. apply wpx_ret. split; [|done].
    rewrite bool_decide_true; [done|]. rewrite E. by left.
  - apply bool_decide_eq_false in E. eapply wpx_mono; [apply IH|]. intros b w' [-> ->]. split; [|done].
    apply bool_decide_ext. rewrite elem_of_cons. split; [by right|]. intros [?|?]; [congruence|done].
Qed.

Lemma add_cpblt_ok F l s c w :
  arr_of l c → zlen l < 2 ^ 28 → zlen s < 2 ^ 31 →
  wpx F (add_cpblt (Some s) c) (λ c' w', arr_of (add_key l s) c' ∧ no_traffic w w') w.
Proof.
  intros (Ha & Hc & Hsz) Hl Hs. unfold add_cpblt. rewrite Ha. pose proof (zlen_nonneg l).
  apply wpx_bind. eapply wpx_mono; [apply cpblt_present_ok|]. intros dup w0 [-> ->].
  unfold add_key. case_bool_decide as E; [rewrite decide_True by done; by apply wpx_ret|].
  rewrite decide_False by done. apply wpx_bind.
  eapply wpx_mono with (Q := λ cb w', cb.2 = true ∧ cp_arr cb.1 = Some (map Some l) ∧
    cp_count cb.1 = zlen l ∧ zlen l + 1 ≤ cp_size cb.1 ≤ zlen l + 10 ∧ no_traffic w w').
  { destruct (_ =? _) eqn:Eq.
    - apply wpx_bind, wpx_malloc_ok; [lia|]. intros w' Hw. apply wpx_ret. simpl.
      split; [done|]. split; [done|]. split; [done|]. split; [lia|done].
    - apply wpx_ret. simpl. split; [done|]. split; [done|]. split; [done|]. split; [lia|done]. }
  intros [c1 b] w1 (Eb & Ha1 & Hc1 & Hs1 & Hw). simpl in Eb, Ha1, Hc1, Hs1. subst b. cbn [negb snd fst].
  rewrite Ha1. apply wpx_bind. eapply wpx_mono; [by apply strdup_ok|].
  intros d w2 [-> Hw2]. apply wpx_ret. split; [|by etrans]. unfold arr_of. simpl.
  rewrite map_app, zlen_app, Hc1. change (zlen [s]) with 1. repeat split; lia.
Qed.

Definition sized_cap (s : bytes) : Prop := zlen s < 2 ^ 31.

Lemma add_key_length l s : zlen l ≤ zlen (add_key l s) ≤ zlen l + 1.
Proof. unfold add_key. case_decide; rewrite ?zlen_app; change (zlen [s]) with 1; lia. Qed.

(** A computation that adds [caps] to the list. *)
Definition adds (F : Prop) (f : cpblts_arr → M W cpblts_arr) (caps : list bytes) : Prop :=
  ∀ l c w, arr_of l c → zlen l + zlen caps < 2 ^ 28 →
    wpx F (f c) (λ c' w', arr_of (foldl add_key l caps) c' ∧ no_traffic w w') w.

Lemma adds_nil F : adds F (λ c, mret c) [].
Proof. intros l c w H _. by apply wpx_ret. Qed.

Lemma adds_one F s : sized_cap s → adds F (add_cpblt (Some s)) [s].
Proof.
  intros Hs l c w H Hl. change (zlen [s]) with 1 in Hl. apply add_cpblt_ok; [done|lia|done].
Qed.

Lemma foldl_add_key_length l caps : zlen (foldl add_key l caps) ≤ zlen l + zlen caps.
Proof.
  destruct (foldl_add_key_app l caps) as (k & -> & Hk). rewrite zlen_app. unfold zlen. lia.
Qed.

Lemma adds_bind F f g a b : adds F f a → adds F g b → adds F (λ c, c ← f c; g c) (a ++ b).
Proof.
  intros Hf Hg l c w H Hl. rewrite zlen_app in Hl. pose proof (zlen_nonneg b).
  apply wpx_bind. eapply wpx_mono; [apply Hf; [done|lia]|]. intros c1 w1 [H1 Hw1].
  pose proof (foldl_add_key_length l a).
  eapply wpx_mono; [apply Hg; [done|lia]|]. intros c2 w2 [Hc2 Hw2]. rewrite foldl_app.
  split; [done|by etrans].
Qed.

Lemma adds_if F b s : sized_cap (str s) → adds F (add_cpblt_if b s) (feature_cpblt b s).
Proof.
  intros Hs. unfold add_cpblt_if, feature_cpblt. destruct b; [by apply adds_one|apply adds_nil].
Qed.

Lemma netconf_cpblts_ok F ctx : adds F (netconf_cpblts ctx) (netconf_list ctx).
Proof.
  unfold netconf_cpblts, netconf_list. destruct (ctx_implemented _ _) as [m|]; [|apply adds_nil].
  apply adds_bind; [by apply adds_if|]. rewrite app_assoc. apply adds_bind.
  { generalize (ctx_feature_value ctx m (str "confirmed-commit")) as conf.
    generalize (ctx_feature_value ctx m (str "candidate")) as cand. intros cand conf.
    destruct cand; simpl; [|apply adds_nil].
    apply (adds_bind F (add_cpblt _) (add_cpblt_if conf _) [_]); [by apply adds_one|by apply adds_if]. }
  do 3 (apply adds_bind; [by apply adds_if|]). by apply adds_if.
Qed.

Lemma wd_text_sized basic also : sized_cap (wd_text basic also).
Proof.
  unfold sized_cap, wd_text, wd_flag.
  destruct basic; repeat case_match; by vm_compute.
Qed.

Lemma withdefaults_ok F ctx o : adds F (withdefaults_cpblt ctx o) (withdefaults_list ctx o).
Proof.
  unfold withdefaults_cpblt, withdefaults_list.
  destruct (ctx_implemented _ _); [|apply adds_nil].
  destruct (wd_value _ =? 0); [apply adds_nil|]. simpl.
  destruct (wd_also_supported o =? 0); simpl; [apply adds_nil|]. apply adds_one, wd_text_sized.
Qed.

Lemma add_cpblts_ok F caps :
  Forall (λ c, ∃ s, c = Some s ∧ zlen s < 2 ^ 31) caps → adds F (add_cpblts caps) (omap (λ x, x) caps).
Proof.
  induction 1 as [|c caps (s & -> & Hs) _ IH]; [apply adds_nil|].
  apply (adds_bind F (add_cpblt (Some s)) (add_cpblts caps) [s]); [by apply adds_one|done].
Qed.

(** Text after the first name of a list. *)
Definition commas (l : list bytes) : bytes := concat (map (λ f, str "," ++ f) l).

Lemma join_cons x l : join (x :: l) = x ++ commas l.
Proof.
  revert x. induction l as [|y l IH]; intros x; [by rewrite app_nil_r|].
  change (join (x :: y :: l)) with (x ++ str "," ++ join (y :: l)). rewrite IH.
  unfold commas. cbn [map concat]. by rewrite <- !app_assoc.
Qed.

Lemma strcat_ok F s t w :
  zlen (s ++ t) < NC_CPBLT_BUF_LEN → wpx F (strcat s t) (λ r w', r = s ++ t ∧ w' = w) w.
Proof. intros H. unfold strcat. apply wpx_bind, wpx_guarded; [by apply Z.ltb_lt|]. by apply wpx_ret. Qed.

(** What [cat_features] appends after [count] features. *)
Definition more_features (fs : list (bytes * bool)) (count : Z) : bytes :=
  let en := map fst (filter (λ f, f.2 = true) fs) in
  if count =? 0 then features_text en else commas en.

Lemma cat_features_ok F fs s count w :
  0 ≤ count → zlen (s ++ more_features fs count) < NC_CPBLT_BUF_LEN - 1 →
  wpx F (cat_features fs s (zlen s) count)
    (λ r w', r = (s ++ more_features fs count, zlen (s ++ more_features fs count)) ∧ w' = w) w.
Proof.
  revert s count. induction fs as [|[name en] fs IH]; intros s count Hc Hlen; cbn [cat_features].
  { apply wpx_ret. unfold more_features. simpl. destruct (count =? 0); simpl; by rewrite app_nil_r. }
  destruct en; cbn [negb]; [|by apply IH].
  unfold more_features in *. rewrite filter_cons_True in * by done. cbn [map fst] in *.
  set (rest := map fst (filter _ fs)) in *.
  assert (Hrec : ∀ s', 
    zlen (s' ++ commas rest) < NC_CPBLT_BUF_LEN - 1 →
    wpx F (cat_features fs s' (zlen s') (count + 1))
      (λ r w', r = (s' ++ commas rest, zlen (s' ++ commas rest)) ∧ w' = w) w).
  { intros s' Hs'. pose proof (IH s' (count + 1)) as IH'.
    replace (count + 1 =? 0) with false in IH' by lia. apply IH'; [lia|done]. }
  destruct (count =? 0) eqn:E0.
  - cbn [features_text] in *. rewrite join_cons in *.
    replace (s ++ str "&features=" ++ name ++ commas rest)
      with (((s ++ str "&features=") ++ name) ++ commas rest) in * by (by rewrite <- !app_assoc).
    pose proof (zlen_nonneg (commas rest)). pose proof (zlen_nonneg name).
    rewrite !zlen_app in Hlen. change (zlen (str "&features=")) with 10 in Hlen.
    apply wpx_bind, wpx_bind. eapply wpx_mono.
    { apply strcat_ok. rewrite zlen_app. change (zlen (str "&features=")) with 10. lia. }
    intros ? ? [-> ->]. apply wpx_ret.
    replace (_ <=? _) with false by (symmetry; apply Z.leb_gt; lia).
    apply wpx_bind, wpx_ret, wpx_bind. eapply wpx_mono.
    { apply strcat_ok. rewrite !zlen_app. change (zlen (str "&features=")) with 10. lia. }
    intros ? ? [-> ->].
    replace (zlen s + 10 + zlen name) with (zlen ((s ++ str "&features=") ++ name)).
    2: { rewrite !zlen_app. change (zlen (str "&features=")) with 10. lia. }
    apply Hrec. rewrite !zlen_app. change (zlen (str "&features=")) with 10. lia.
  - unfold commas in *. cbn [map concat] in *. fold (commas rest) in *.
    replace (s ++ (str "," ++ name) ++ commas rest) with (((s ++ str ",") ++ name) ++ commas rest) in *
      by (by rewrite <- !app_assoc).
    pose proof (zlen_nonneg (commas rest)). pose proof (zlen_nonneg name).
    rewrite !zlen_app in Hlen. change (zlen (str ",")) with 1 in Hlen.
    apply wpx_bind, wpx_ret.
    replace (_ <=? _) with false by (symmetry; apply Z.leb_gt; lia).
    apply wpx_bind, wpx_bind. eapply wpx_mono.
    { apply strcat_ok. rewrite !zlen_app. change (zlen (str ",")) with 1. lia. }
    intros ? ? [-> ->]. apply wpx_ret, wpx_bind. eapply wpx_mono.
    { apply strcat_ok. rewrite !zlen_app. change (zlen (str ",")) with 1. lia. }
    intros ? ? [-> ->].
    replace (zlen s + 1 + zlen name) with (zlen ((s ++ str ",") ++ name)).
    2: { rewrite !zlen_app. change (zlen (str ",")) with 1. lia. }
    apply Hrec. rewrite !zlen_app. change (zlen (str ",")) with 1. lia.
Qed.

Lemma cat_deviations_ok F ds s count w :
  0 ≤ count → zlen (s ++ (if count =? 0 then join ds else commas ds)) < NC_CPBLT_BUF_LEN - 1 →
  wpx F (cat_deviations ds s (zlen s) count)
    (λ r w', r = s ++ (if count =? 0 then join ds else commas ds) ∧ w' = w) w.
Proof.
  revert s count. induction ds as [|name ds IH]; intros s count Hc Hlen; cbn [cat_deviations].
  { apply wpx_ret. destruct (count =? 0); simpl; by rewrite app_nil_r. }
  assert (Hrec : ∀ s', zlen (s' ++ commas ds) < NC_CPBLT_BUF_LEN - 1 →
    wpx F (cat_deviations ds s' (zlen s') (count + 1)) (λ r w', r = s' ++ commas ds ∧ w' = w) w).
  { intros s' Hs'. pose proof (IH s' (count + 1)) as IH'.
    replace (count + 1 =? 0) with false in IH' by lia. apply IH'; [lia|done]. }
  pose proof (zlen_nonneg (commas ds)). pose proof (zlen_nonneg name).
  destruct (count =? 0) eqn:E0.
  - rewrite join_cons, app_assoc in *. pose proof Hlen as Hl. rewrite !zlen_app in Hl.
    replace (_ <=? _) with false by (symmetry; apply Z.leb_gt; lia).
    apply wpx_bind, wpx_ret, wpx_bind. eapply wpx_mono; [apply strcat_ok; rewrite zlen_app; lia|].
    intros ? ? [-> ->]. rewrite <- zlen_app. by apply Hrec.
  - unfold commas in *. cbn [map concat] in *. fold (commas ds) in *.
    replace (s ++ (str "," ++ name) ++ commas ds) with (((s ++ str ",") ++ name) ++ commas ds) in *
      by (by rewrite <- !app_assoc).
    pose proof Hlen as Hl. rewrite !zlen_app in Hl. change (zlen (str ",")) with 1 in Hl.
    replace (_ <=? _) with false by (symmetry; apply Z.leb_gt; lia).
    apply wpx_bind, wpx_bind. eapply wpx_mono.
    { apply strcat_ok. rewrite !zlen_app. change (zlen (str ",")) with 1. lia. }
    intros ? ? [-> ->]. apply wpx_ret, wpx_bind. eapply wpx_mono.
    { apply strcat_ok. rewrite !zlen_app. change (zlen (str ",")) with 1. lia. }
    intros ? ? [-> ->].
    replace (zlen s + 1 + zlen name) with (zlen ((s ++ str ",") ++ name)); [by apply Hrec|].
    rewrite !zlen_app. change (zlen (str ",")) with 1. lia.
Qed.

Lemma module_cpblt_ok F m w :
  zlen (module_text m) < NC_CPBLT_BUF_LEN - 1 →
  wpx F (module_cpblt m) (λ r w', r = module_text m ∧ w' = w) w.
Proof.
  unfold module_text, module_cpblt. intros Hlen. rewrite app_assoc in *.
  pose proof Hlen as Hl. rewrite !zlen_app in Hl.
  set (ft := features_text (enabled_features m)) in *.
  pose proof (zlen_nonneg ft). pose proof (zlen_nonneg (deviations_text (mod_deviated_by m))).
  apply wpx_bind. eapply wpx_mono; [apply strcat_ok; simpl; lia|]. intros ? ? [-> ->].
  cbn [app]. apply wpx_bind. eapply wpx_mono.
  { apply cat_features_ok; [done|]. change (more_features _ 0) with ft. rewrite zlen_app. lia. }
  change (more_features (mod_features m) 0) with ft.
  intros ? ? [-> ->]. destruct (mod_deviated_by m) as [ds|]; cbn [deviations_text] in *.
  - set (s := module_base m ++ ft) in *. rewrite app_assoc in *.
    pose proof Hlen as Hl2. rewrite !zlen_app in Hl2. pose proof (zlen_nonneg (join ds)).
    apply wpx_bind. eapply wpx_mono.
    { apply strcat_ok. rewrite !zlen_app. lia. }
    intros ? ? [-> ->].
    replace (zlen s + 12) with (zlen (s ++ str "&deviations=")) by (by rewrite zlen_app).
    by apply cat_deviations_ok.
  - apply wpx_ret. by rewrite app_nil_r.
Qed.

Lemma print_u32_length n : 0 ≤ n < 2 ^ 32 → zlen (print_dec n) < 11.
Proof.
  intros Hn. destruct (print_dec_spec n ltac:(lia)) as (_ & _ & _).
  assert (Hgo : ∀ fuel m acc, 0 ≤ m → (0 < fuel)%nat → ∀ k, 0 ≤ k → m < 10 ^ (k + 1) →
    zlen (dec_go fuel m acc) ≤ zlen acc + k + 1).
  { induction fuel as [|fuel IH]; intros m acc Hm Hf k Hk Hlt; [lia|]. cbn [dec_go].
    destruct (m <? 10) eqn:E; [rewrite zlen_cons; lia|].
    apply Z.ltb_ge in E. destruct (decide (k = 0)) as [->|]; [lia|].
    destruct fuel as [|fuel]; [cbn [dec_go]; rewrite zlen_cons; lia|].
    etrans; [apply (IH (m / 10) _ ltac:(apply Z.div_pos; lia) ltac:(lia) (k - 1)); [lia|]|].
    - apply Z.div_lt_upper_bound; [lia|]. replace (k + 1) with (Z.succ (k - 1 + 1)) in Hlt by lia.
      rewrite Z.pow_succ_r in Hlt by lia. lia.
    - rewrite zlen_cons. lia. }
  unfold print_dec. pose proof (Hgo 20%nat n [] ltac:(lia) ltac:(lia) 9 ltac:(lia)) as H.
  change (zlen (@nil ascii)) with 0 in H. assert (n < 10 ^ (9 + 1)) by lia. lia.
Qed.

Lemma library_cpblt_ok F ctx o m w :
  is_library m = true → module_fits ctx o m →
  wpx F (yang_library_cpblt ctx o m) (λ r w', r = Some (library_text ctx o m) ∧ no_traffic w w') w.
Proof.
  unfold module_fits. intros ->. intros (Hrev & Hcid & Hlen).
  unfold yang_library_cpblt, library_text in *.
  assert (∃ rev, mod_revision m = Some rev ∧
    negb (strcmp_eq rev YL_2016) && negb (strcmp_eq rev YL_2019) = false) as (rev & E & Ht).
  { destruct Hrev as [->| ->]; eexists; by split. }
  rewrite E in *. rewrite Ht. cbn [default] in *. apply wpx_bind.
  eapply wpx_mono with (Q := λ r w', r = Some (match content_id_clb o with
      | Some r => default [] r | None => print_dec (u32 (ctx_change_count ctx)) end) ∧ no_traffic w w').
  { destruct (content_id_clb o) as [[cid|]|].
    - by apply wpx_ret.
    - done.
    - apply wpx_bind, wpx_malloc_ok; [lia|]. intros w' Hw. cbn [negb].
      apply wpx_bind, wpx_guarded; [|by apply wpx_ret]. apply Z.ltb_lt, print_u32_length.
      unfold u32. apply Z.mod_pos_bound. lia. }
  intros ? w1 [-> Hw]. apply wpx_bind. eapply wpx_mono; [apply strcat_ok; exact Hlen|].
  intros ? ? [-> ->]. by apply wpx_ret.
Qed.

Lemma models_list_cons ctx o version m mods :
  models_list ctx o version (m :: mods) =
  (if is_library m then [library_text ctx o m]
   else if skip_module version m then [] else [module_text m]) ++ models_list ctx o version mods.
Proof. done. Qed.

Lemma models_cpblts_ok F ctx o version mods l c w :
  Forall (module_fits ctx o) mods → arr_of l c →
  zlen l + zlen (models_list ctx o version mods) < 2 ^ 28 →
  wpx F (models_cpblts ctx o version mods c)
    (λ r w', ∃ c', r = Some c' ∧ arr_of (foldl add_key l (models_list ctx o version mods)) c' ∧
       no_traffic w w') w.
Proof.
  intros Hm. revert l c w. induction Hm as [|m mods Hm _ IH]; intros l c w Hc Hl;
    cbn [models_cpblts].
  { apply wpx_ret. by exists c. }
  rewrite models_list_cons in *. set (ms := models_list ctx o version mods) in *.
  pose proof (zlen_nonneg ms). change (strcmp_eq (mod_name m) _) with (is_library m).
  assert (Hstep : ∀ s w1, no_traffic w w1 → zlen s < NC_CPBLT_BUF_LEN → zlen l + zlen ([s] ++ ms) < 2 ^ 28 →
    wpx F (c ← add_cpblt (Some s) c; models_cpblts ctx o version mods c)
      (λ r w', ∃ c', r = Some c' ∧ arr_of (foldl add_key l ([s] ++ ms)) c' ∧ no_traffic w w') w1).
  { intros s w1 Hw1 Hs Hl'. rewrite zlen_app in Hl'. change (zlen [s]) with 1 in Hl'.
    apply wpx_bind. eapply wpx_mono; [apply add_cpblt_ok; [done|lia|unfold NC_CPBLT_BUF_LEN in Hs; lia]|].
    intros c1 w2 [Hc1 Hw2]. pose proof (add_key_length l s).
    eapply wpx_mono; [apply IH; [exact Hc1|lia]|]. intros r w3 (c' & -> & Ha & Hw3).
    exists c'. split; [done|]. split; [exact Ha|]. etrans; [exact Hw1|]. by etrans. }
  destruct (is_library m) eqn:El.
  - apply wpx_bind. eapply wpx_mono; [by apply library_cpblt_ok|].
    intros r w1 [-> Hw1]. apply Hstep; [done| |done]. unfold module_fits in Hm. rewrite El in Hm. apply Hm.
  - destruct (skip_module version m); [by apply IH|].
    unfold module_fits in Hm. rewrite El in Hm.
    apply wpx_bind. eapply wpx_mono; [by apply module_cpblt_ok|].
    intros r w1 [-> ->]. apply Hstep; [done|lia|done].
Qed.

Lemma advertised_ok F ctx o version w :
  fits ctx o version →
  wpx F (nc_server_get_cpblts_version (Some ctx) o version)
    (λ r w', r = Some (map Some (advertised ctx o version) ++ [None]) ∧ no_traffic w w') w.
Proof.
  intros (Hcaps & Hmods & Hlen). unfold nc_server_get_cpblts_version, advertised, offered in *.
  rewrite !zlen_app in Hlen. rewrite !foldl_app.
  set (nl := netconf_list ctx) in *. set (wl := withdefaults_list ctx o) in *.
  set (cl := omap _ (capabilities o)) in *. set (ml := models_list ctx o version (ctx_modules ctx)) in *.
  pose proof (zlen_nonneg nl). pose proof (zlen_nonneg wl). pose proof (zlen_nonneg cl).
  pose proof (zlen_nonneg ml).
  apply wpx_bind, wpx_malloc_ok; [lia|]. intros w1 Hw1. cbn [negb].
  apply wpx_bind. eapply wpx_mono; [by apply strdup_ok|]. intros ? w2 [-> Hw2].
  apply wpx_bind. eapply wpx_mono; [by apply strdup_ok|]. intros ? w3 [-> Hw3].
  assert (Hk : ∀ l k, zlen (foldl add_key l k) ≤ zlen l + zlen k) by (intros; apply foldl_add_key_length).
  set (l0 := [BASE_1_0; BASE_1_1]). assert (zlen l0 = 2) by done.
  apply wpx_bind. eapply wpx_mono; [apply (netconf_cpblts_ok F ctx l0); [by split|fold nl; lia]|].
  intros c4 w4 [Hc4 Hw4]. fold nl in Hc4. pose proof (Hk l0 nl).
  apply wpx_bind. eapply wpx_mono; [apply (withdefaults_ok F ctx o _ _ _ Hc4); fold wl; lia|].
  intros c5 w5 [Hc5 Hw5]. fold wl in Hc5. pose proof (Hk (foldl add_key l0 nl) wl).
  apply wpx_bind. eapply wpx_mono; [apply (add_cpblts_ok F _ Hcaps _ _ _ Hc5); fold cl; lia|].
  intros c6 w6 [Hc6 Hw6]. fold cl in Hc6. pose proof (Hk (foldl add_key (foldl add_key l0 nl) wl) cl).
  apply wpx_bind. eapply wpx_mono; [apply (models_cpblts_ok F _ _ _ _ _ _ _ Hmods Hc6); fold ml; lia|].
  intros r w7 (c7 & -> & Hc7 & Hw7). fold ml in Hc7.
  set (final := foldl _ _ ml) in *.
  assert (zlen final < 2 ^ 28) by (pose proof (Hk (foldl add_key (foldl add_key (foldl add_key l0 nl) wl) cl) ml); fold final in H7; lia).
  assert (Hall : no_traffic w w7) by (do 6 (etrans; [eassumption|]); done).
  apply wpx_bind. destruct Hc7 as (Ha & Hcn & Hsz). unfold add_cpblt. apply wpx_bind, wpx_ret.
  pose proof (zlen_nonneg final). apply wpx_bind.
  eapply wpx_mono with (Q := λ cb w', cb.2 = true ∧ cp_arr cb.1 = Some (map Some final) ∧ no_traffic w w').
  { destruct (_ =? _) eqn:Eq.
    - apply wpx_bind, wpx_malloc_ok; [lia|]. intros w' Hw. apply wpx_ret. simpl. rewrite Ha.
      split; [done|]. split; [done|by etrans].
    - apply wpx_ret. done. }
  intros [c8 b] w8 (Eb & Ha8 & Hw8). simpl in Eb, Ha8. subst b. cbn [negb snd fst]. rewrite Ha8.
  apply wpx_bind, wpx_ret, wpx_ret, wpx_ret. done.
Qed.
End advertise.
