(* ===== verification/Handshake.v ===== *)
(** * The handshake

    What a peer learns from a hello message, and that two parties that run
    [nc_handshake_io] agree: on the version, on the session id and on the
    capabilities of the server. *)

From S2P Require Import Prelude Session Env Time Locks Sim IoRead IoReadProofs.
From S2P Require Import Framing IoWrite IoWriteProofs IoTheorems Capabilities CapabilitiesProofs.
From Stdlib Require Import ZArith Ascii String Lia.
From stdpp Require Import base list strings gmap numbers.
Open Scope Z_scope.

(** ** Received capabilities *)

Definition spaces (l : bytes) : Prop := Forall (λ c, isspace c = true) l.

(** A capability: not empty and without white space at its ends. *)
Definition clean (c : bytes) : Prop :=
  ∃ x y m, (c = [x] ∧ x = y ∨ c = x :: m ++ [y]) ∧ isspace x = false ∧ isspace y = false.

Lemma clean_head c : clean c → ∃ x m, c = x :: m ∧ isspace x = false.
Proof. intros (x & y & m & [[-> _]| ->] & Hx & _); eauto. Qed.

Lemma clean_last c : clean c → ∃ y m, rev c = y :: m ∧ isspace y = false.
Proof.
  intros (x & y & m & [[-> ->]| ->] & _ & Hy); [exists y, []; done|].
  exists y, (rev m ++ [x]). simpl. by rewrite rev_app_distr.
Qed.

Lemma skip_spaces_app a l : spaces a → skip_spaces (a ++ l) = skip_spaces l.
Proof.
  intros Ha. unfold skip_spaces. induction Ha as [|x a Hx _ IH]; [done|]. simpl. rewrite Hx.
  destruct (span isspace (a ++ l)). simpl in *. done.
Qed.

Lemma skip_spaces_head x l : isspace x = false → skip_spaces (x :: l) = x :: l.
Proof. intros H. unfold skip_spaces. simpl. by rewrite H. Qed.

Lemma trim_spec a c b :
  spaces a → spaces b → clean c →
  skip_spaces (a ++ c ++ b) = c ++ b ∧ trimmed_len (a ++ c ++ b) = (length a + length c)%nat.
Proof.
  intros Ha Hb Hc. split.
  - rewrite skip_spaces_app by done. destruct (clean_head c Hc) as (x & m & -> & Hx).
    by apply skip_spaces_head.
  - unfold trimmed_len. rewrite app_assoc, rev_app_distr, skip_spaces_app.
    2: { unfold spaces. by apply Forall_rev. }
    rewrite rev_app_distr. destruct (clean_last c Hc) as (y & m & E & Hy). rewrite E.
    cbn [app]. rewrite skip_spaces_head by done. change (y :: m ++ rev a) with ((y :: m) ++ rev a).
    rewrite <- E, length_app, !length_rev. lia.
Qed.

(** The version a list of capabilities stands for. *)
Definition version_spec (ver : Z) (caps : list bytes) : Z :=
  if decide (ver = 1 ∨ BASE_1_1 ∈ caps) then 1
  else if decide (ver = 0 ∨ BASE_1_0 ∈ caps) then 0 else -1.

(** Capabilities that are no proper beginning of a base capability. *)
Definition no_prefix (c : bytes) : Prop :=
  (c `prefix_of` BASE_1_0 → c = BASE_1_0) ∧ (c `prefix_of` BASE_1_1 → c = BASE_1_1).

Lemma strncmp_prefix c b base :
  strncmp_eq (c ++ b) base (length c) = bool_decide (c `prefix_of` base).
Proof.
  unfold strncmp_eq. rewrite take_app_length. apply bool_decide_ext. split.
  - intros E. exists (drop (length c) base). rewrite E at 1. by rewrite take_drop.
  - intros [k ->]. by rewrite take_app_length.
Qed.

Lemma detect_version_spec ver c b :
  no_prefix c → (ver = -1 ∨ ver = 0 ∨ ver = 1) →
  detect_version ver (c ++ b) (length c) = version_spec ver [c].
Proof.
  intros [H0 H1] Hv. unfold detect_version, version_spec. rewrite !strncmp_prefix.
  assert (E0 : c `prefix_of` BASE_1_0 ↔ BASE_1_0 ∈ [c]).
  { rewrite list_elem_of_singleton. split; [intros; by symmetry; apply H0|by intros <-]. }
  assert (E1 : c `prefix_of` BASE_1_1 ↔ BASE_1_1 ∈ [c]).
  { rewrite list_elem_of_singleton. split; [intros; by symmetry; apply H1|by intros <-]. }
  rewrite (bool_decide_ext _ _ E0), (bool_decide_ext _ _ E1).
  destruct (decide (BASE_1_0 ∈ [c])) as [A|A], (decide (BASE_1_1 ∈ [c])) as [B|B].
  - apply list_elem_of_singleton in A, B. by rewrite <- A in B.
  - rewrite (bool_decide_true (BASE_1_0 ∈ _)), (bool_decide_false (BASE_1_1 ∈ _)) by done.
    destruct Hv as [->|[->| ->]]; simpl; repeat case_decide; destruct_or?; tauto || lia || done.
  - rewrite (bool_decide_false (BASE_1_0 ∈ _)), (bool_decide_true (BASE_1_1 ∈ _)) by done.
    destruct Hv as [->|[->| ->]]; simpl; repeat case_decide; destruct_or?; tauto || lia || done.
  - rewrite (bool_decide_false (BASE_1_0 ∈ _)), (bool_decide_false (BASE_1_1 ∈ _)) by done.
    destruct Hv as [->|[->| ->]]; simpl; repeat case_decide; destruct_or?; tauto || lia || done.
Qed.

Lemma version_spec_cons ver c caps :
  (ver = -1 ∨ ver = 0 ∨ ver = 1) → version_spec (version_spec ver [c]) caps = version_spec ver (c :: caps).
Proof.
  intros Hv. unfold version_spec.
  assert (Hc : ∀ x, x ∈ c :: caps ↔ x ∈ [c] ∨ x ∈ caps).
  { intros x. by rewrite elem_of_cons, list_elem_of_singleton. }
  pose proof (Hc BASE_1_0). pose proof (Hc BASE_1_1). clear Hc.
  repeat case_decide; destruct_or?; lia || tauto.
Qed.

Lemma version_spec_range ver caps : version_spec ver caps = -1 ∨ version_spec ver caps = 0 ∨ version_spec ver caps = 1.
Proof. unfold version_spec. repeat case_decide; tauto. Qed.

(** A [capability] element, white space around its text. *)
Definition cap_node (a c b : bytes) : opaq :=
  Opaq (str "capability") (Some NC_NS_BASE) (Some (a ++ c ++ b)) [].

Definition cap_nodes (l : list (bytes * bytes * bytes)) : list opaq :=
  map (λ '(a, c, b), cap_node a c b) l.

Definition texts (l : list (bytes * bytes * bytes)) : list bytes := map (λ '(_, c, _), c) l.

Definition nodes_ok (l : list (bytes * bytes * bytes)) : Prop :=
  Forall (λ '(a, c, b), spaces a ∧ spaces b ∧ clean c ∧ zlen c < 2 ^ 31) l.

Section parse.
Context {W : Type} `{RL : Reliable W}.
Implicit Types w : W.

(** The loop, with any version detection [f] that agrees on these elements. *)
Lemma parse_cpblts_loop_ok F l ver (lst : option (list bytes)) w :
  nodes_ok l →
  wpx F (parse_cpblts_loop (cap_nodes l) ver lst)
    (λ r w', r = (foldl (λ v '(_, c, b), detect_version v (c ++ b) (length c)) ver l,
                  option_map (λ x, x ++ texts l) lst) ∧ no_traffic w w') w.
Proof.
  intros Hl. revert ver lst w. induction Hl as [|[[a c] b] l (Ha & Hb & Hc & Hsz) _ IH];
    intros ver lst w; cbn [cap_nodes map parse_cpblts_loop].
  { apply wpx_ret. split; [|done]. destruct lst; simpl; by rewrite ?app_nil_r. }
  fold (cap_nodes l). destruct (trim_spec a c b Ha Hb Hc) as [E1 E2].
  unfold cap_node. cbn [oq_name oq_ns oq_value foreign].
  change (negb (strcmp_eq (str "capability") (str "capability"))) with false.
  change (foreign _) with false. cbn [orb].
  rewrite E1, E2. destruct (clean_head c Hc) as (x & m & Ec & _).
  destruct (c ++ b) as [|y r] eqn:Ecb; [by subst|]. rewrite <- Ecb. clear Ecb.
  destruct (_ =? 0)%nat eqn:E0; [apply Nat.eqb_eq in E0; subst; simpl in E0; lia|].
  assert (length a + length c - (length (a ++ c ++ b) - length (c ++ b)) = length c)%nat as ->.
  { rewrite !length_app. lia. }
  rewrite take_app_length. destruct lst as [lst|].
  - apply wpx_bind, wpx_malloc_ok; [unfold zlen in Hsz; lia|]. intros w1 Hw1. cbn [negb].
    eapply wpx_mono; [apply IH|]. intros rr w2 [-> Hw2]. split; [|by etrans].
    cbn [foldl option_map fmap option_fmap]. unfold texts. cbn [map]. by rewrite <- app_assoc.
  - eapply wpx_mono; [apply IH|]. intros rr w2 [-> Hw2]. by split.
Qed.

Lemma parse_cpblts_ok F l (want : bool) w :
  nodes_ok l → zlen l < 2 ^ 28 →
  wpx F (parse_cpblts (cap_nodes l) want)
    (λ r w', r = (foldl (λ v '(_, c, b), detect_version v (c ++ b) (length c)) (-1) l,
                  if want then Some (texts l) else None) ∧ no_traffic w w') w.
Proof.
  intros Hl Hlen. unfold parse_cpblts. pose proof (zlen_nonneg l). destruct want.
  - assert (zlen (cap_nodes l) = zlen l) as Hz by (unfold zlen, cap_nodes; by rewrite length_map).
    apply wpx_bind, wpx_malloc_ok; [lia|]. intros w1 Hw1. cbn [negb].
    eapply wpx_mono; [by apply parse_cpblts_loop_ok|]. intros r w2 [-> Hw2]. split; [done|by etrans].
  - by apply parse_cpblts_loop_ok.
Qed.

Lemma detect_fold ver l :
  Forall (λ '(_, c, _), no_prefix c) l → (ver = -1 ∨ ver = 0 ∨ ver = 1) →
  foldl (λ v '(_, c, b), detect_version v (c ++ b) (length c)) ver l = version_spec ver (texts l).
Proof.
  intros Hl. revert ver. induction Hl as [|[[a c] b] l Hc _ IH]; intros ver Hv; simpl.
  - unfold version_spec. pose proof (not_elem_of_nil BASE_1_0). pose proof (not_elem_of_nil BASE_1_1).
    repeat case_decide; destruct_or?; tauto || lia.
  - rewrite detect_version_spec by done. rewrite IH by apply version_spec_range.
    by apply version_spec_cons.
Qed.
End parse.

(** ** Two parties *)

Lemma strtoll_print_dec n : 0 ≤ n < 2 ^ 63 → strtoll (print_dec n) = (n, []).
Proof.
  intros Hn. destruct (print_dec_spec n ltac:(lia)) as (Hne & Hd & Hv).
  unfold strtoll. destruct (print_dec n) as [|c ds] eqn:E; [done|].
  pose proof (Forall_inv Hd) as Hc. simpl in Hc.
  assert (span isspace (c :: ds) = ([], c :: ds)) as ->.
  { simpl. by rewrite isdigit_not_space. }
  destruct (isdigit_not_sign c Hc) as [H1 H2].
  assert (take_sign (c :: ds) = (false, c :: ds)) as ->.
  { simpl. by rewrite !decide_False. }
  pose proof (span_all isdigit (c :: ds) [] Hd I) as Hs. rewrite app_nil_r in Hs. rewrite Hs, Hv.
  f_equal. unfold LLONG_MIN, LLONG_MAX. lia.
Qed.

Definition plain (c : bytes) : bytes * bytes * bytes := ([], c, []).

(** The tree of a hello message. *)
Definition hello_tree (caps : list bytes) (sid : option Z) : list opaq :=
  Opaq (str "capabilities") (Some NC_NS_BASE) (Some []) (cap_nodes (map plain caps)) ::
  match sid with
  | Some n => [Opaq (str "session-id") (Some NC_NS_BASE) (Some (print_dec n)) []]
  | None => []
  end.

Definition cap_ok (fuel : nat) (c : bytes) : Prop :=
  clean c ∧ ascii_of_N 0 ∉ c ∧ piece_ok fuel c.

Lemma caps_nodes_ok fuel caps : Forall (cap_ok fuel) caps → nodes_ok (map plain caps).
Proof.
  intros H. apply Forall_map. eapply list.Forall_impl; [exact H|]. intros c (Hc & _ & Hp & _).
  split; [constructor|]. split; [constructor|]. split; [done|lia].
Qed.

Lemma texts_plain (caps : list bytes) : texts (map plain caps) = caps.
Proof. unfold texts. rewrite map_map. apply map_id. Qed.

Lemma detect_both (l : list (bytes * bytes * bytes)) :
  foldl (λ v '(_, c, b), detect_version v (c ++ b) (length c)) 1 l = 1.
Proof. induction l as [|[[a c] b] l IH]; [done|]. exact IH. Qed.

Lemma detect_base caps :
  foldl (λ v '(_, c, b), detect_version v (c ++ b) (length c)) (-1)
    (map plain (BASE_1_0 :: BASE_1_1 :: caps)) = 1.
Proof. cbn [map foldl]. etrans; [|apply detect_both]. f_equal. Qed.

Section handshake.
Context {W : Type} `{RL : Reliable W} `{!HelloParser W}.
Context {node envelope : Type} `{!Printer node envelope}.
Implicit Types (s : nc_session) (w : W).

Definition hello_payload (caps : list bytes) (sid : option Z) : bytes :=
  msg_payload zero_session (OutHello (node:=node) (envelope:=envelope) caps sid).

(** libyang parses the text of this hello. *)
Definition parses (caps : list bytes) (sid : option Z) : Prop :=
  ∀ w, (lyd_parse_hello (hello_payload caps sid) w).1 = Some (hello_tree caps sid) ∧
       no_traffic w (lyd_parse_hello (hello_payload caps sid) w).2.

Lemma until_null_map l : until_null (map Some l ++ [None]) = l.
Proof. induction l as [|x l IH]; [done|]. simpl. by rewrite IH. Qed.

Lemma send_list_ok F fuel caps timeout sid s w :
  ready s → io_lock s = Some false → version s = NC_VERSION_10 →
  WRITE_BUFSIZE + 300 < Z.of_nat fuel → Forall (piece_ok fuel) caps →
  wpx F (send_hello_list (node:=node) (envelope:=envelope) fuel (map Some caps ++ [None]) timeout sid)
    (λ r sw, r = NC_MSG_HELLO ∧ sw.1 = s ∧ inq sw.2 = inq w ∧
       outq sw.2 = outq w ++ frame10 (hello_payload caps sid)) (s, w).
Proof.
  intros Hs Hl Hv Hf Hp. unfold send_hello_list. rewrite until_null_map.
  eapply wpx_mono; [by apply nc_write_msg_io_spec|].
  intros r sw (-> & -> & Hi & cs & _ & Ecs & Ho). split; [done|]. split; [done|]. split; [done|].
  rewrite Ho, wires_framed, Hv. cbn [framed]. by rewrite Ecs.
Qed.

Lemma nc_send_hello_client F ctx o fuel s w :
  side s = NC_CLIENT → ready s → io_lock s = Some false → version s = NC_VERSION_10 →
  WRITE_BUFSIZE + 300 < Z.of_nat fuel →
  wpx F (nc_send_hello_io (node:=node) (envelope:=envelope) ctx o fuel)
    (λ r sw, r = NC_MSG_HELLO ∧ sw.1 = s ∧ inq sw.2 = inq w ∧
       outq sw.2 = outq w ++ frame10 (hello_payload [BASE_1_0; BASE_1_1] None)) (s, w).
Proof.
  intros Hside Hs Hl Hv Hf. unfold nc_send_hello_io. apply wpx_bind, wpx_ses. rewrite Hside.
  apply wpx_bind, wpx_on_env, wpx_malloc_ok; [lia|]. intros w1 (_ & Hi1 & Ho1). cbn [negb].
  apply wpx_bind, wpx_on_env. eapply wpx_mono; [by apply strdup_ok|]. intros ? w2 [-> (_ & Hi2 & Ho2)].
  apply wpx_bind, wpx_on_env. eapply wpx_mono; [by apply strdup_ok|]. intros ? w3 [-> (_ & Hi3 & Ho3)].
  eapply wpx_mono; [apply (send_list_ok F fuel [BASE_1_0; BASE_1_1]); try done|].
  { repeat constructor; unfold zlen, WRITE_BUFSIZE, BUFFERSIZE in *; simpl; lia. }
  intros r sw (-> & -> & Hi & Ho). rewrite Hi, Ho. repeat split; congruence.
Qed.

Lemma nc_send_hello_server F ctx o fuel s w :
  side s = NC_SERVER → ready s → io_lock s = Some false → version s = NC_VERSION_10 →
  fits ctx o LYS_VERSION_1_0 → WRITE_BUFSIZE + 300 < Z.of_nat fuel →
  Forall (piece_ok fuel) (advertised ctx o LYS_VERSION_1_0) →
  wpx F (nc_send_hello_io (node:=node) (envelope:=envelope) (Some ctx) o fuel)
    (λ r sw, r = NC_MSG_HELLO ∧ sw.1 = s ∧ inq sw.2 = inq w ∧
       outq sw.2 = outq w ++ frame10 (hello_payload (advertised ctx o LYS_VERSION_1_0) (Some (id s)))) (s, w).
Proof.
  intros Hside Hs Hl Hv Hfits Hf Hp. unfold nc_send_hello_io. apply wpx_bind, wpx_ses. rewrite Hside.
  apply wpx_bind, wpx_on_env. eapply wpx_mono; [by apply advertised_ok|].
  intros ? w1 [-> (_ & Hi1 & Ho1)].
  eapply wpx_mono; [by apply send_list_ok|].
  intros r sw (-> & -> & Hi & Ho). rewrite Hi, Ho. repeat split; congruence.
Qed.

(** The elements of a hello, one step of the loops. *)
Lemma client_loop_caps v ch rest :
  client_hello_loop (W:=W) (Opaq (str "capabilities") (Some NC_NS_BASE) v ch :: rest) false =
  '(ver, l) ← env (parse_cpblts ch true);
  _ ← upd_ses (set_cpblts l);
  if ver <? 0 then mret false
  else _ ← upd_ses (set_version (version_of ver)); client_hello_loop rest true.
Proof. reflexivity. Qed.

Lemma client_loop_sid v flag rest :
  v ≠ [] →
  client_hello_loop (W:=W) (Opaq (str "session-id") (Some NC_NS_BASE) (Some v) [] :: rest) flag =
  let '(id, end_) := strtoll v in
  if negb (zlen end_ =? 0) || (id <? 1) || (UINT32_MAX <? id) then mret false
  else _ ← upd_ses (set_id (u32 id)); client_hello_loop rest flag.
Proof. intros Hv. destruct v; [done|]. reflexivity. Qed.

Lemma server_loop_caps v ch rest :
  server_hello_loop (W:=W) (Opaq (str "capabilities") (Some NC_NS_BASE) v ch :: rest) false =
  '(ver, _) ← env (parse_cpblts ch false);
  if ver <? 0 then mret false
  else _ ← upd_ses (set_version (version_of ver)); server_hello_loop rest true.
Proof. reflexivity. Qed.

(** Reading a hello of a peer. *)
Lemma read_hello_ok F fuel timeout caps sid rest s w :
  open_session s → io_lock s = Some false → version s = NC_VERSION_10 →
  Forall (λ c, ascii_of_N 0 ∉ c) caps → sid_ok sid →
  inq w = frame10 (hello_payload caps sid) ++ rest → zlen (inq w) < 2 ^ 31 → zlen (inq w) < Z.of_nat fuel →
  wpx F (nc_read_msg_poll_io fuel timeout)
    (λ rm sw, rm = (1, Some (hello_payload caps sid)) ∧ sw.1 = s ∧ inq sw.2 = rest ∧ outq sw.2 = outq w) (s, w).
Proof.
  intros Hs Hl Hv Hnul Hsid Hin Hlen Hf.
  pose proof (hello_frameable (node:=node) (envelope:=envelope) zero_session caps sid Hnul Hsid) as Hfr.
  fold (hello_payload caps sid) in Hfr.
  assert (Hne : hello_payload caps sid ≠ []) by done.
  pose proof (nc_read_msg_poll_io_ok F fuel timeout [hello_payload caps sid] rest s w) as H.
  cbn [concat] in H. rewrite app_nil_r, Hv in H. unfold framed in H. cbn [concat] in H. rewrite app_nil_r in H.
  apply H; try done. by repeat constructor.
Qed.

Lemma recv_client_ok F fuel caps sid rest s w :
  open_session s → io_lock s = Some false → version s = NC_VERSION_10 →
  Forall (cap_ok fuel) (BASE_1_0 :: BASE_1_1 :: caps) → zlen caps < 2 ^ 27 → 0 < sid < 2 ^ 32 →
  parses (BASE_1_0 :: BASE_1_1 :: caps) (Some sid) →
  inq w = frame10 (hello_payload (BASE_1_0 :: BASE_1_1 :: caps) (Some sid)) ++ rest →
  zlen (inq w) < 2 ^ 31 → zlen (inq w) < Z.of_nat fuel →
  wpx F (nc_recv_client_hello_io fuel)
    (λ r sw, r = NC_MSG_HELLO ∧ sw.1 = set_id sid (set_version NC_VERSION_11
       (set_cpblts (Some (BASE_1_0 :: BASE_1_1 :: caps)) s)) ∧ inq sw.2 = rest ∧ outq sw.2 = outq w) (s, w).
Proof.
  set (cs := BASE_1_0 :: BASE_1_1 :: caps). intros Hs Hl Hv Hcaps Hn Hid Hparse Hin Hlen Hf.
  assert (Hnul : Forall (λ c, ascii_of_N 0 ∉ c) cs).
  { eapply list.Forall_impl; [exact Hcaps|]. by intros c (_ & ? & _). }
  unfold nc_recv_client_hello_io. apply wpx_bind.
  eapply wpx_mono; [eapply read_hello_ok; try done; intros n [= <-]; lia|].
  intros rm [s1 w1] (-> & Es & Hi1 & Ho1). cbn [fst snd] in Es, Hi1, Ho1. subst s1.
  destruct (Hparse w1) as [Ep (_ & Hi2 & Ho2)].
  apply wpx_bind, wpx_envcall. rewrite Ep. set (w2 := (lyd_parse_hello _ w1).2) in *.
  apply wpx_bind. unfold hello_tree. rewrite client_loop_caps.
  apply wpx_bind, wpx_on_env.
  eapply wpx_mono; [apply parse_cpblts_ok; [by eapply caps_nodes_ok|]|].
  { unfold zlen, cs in *. rewrite length_map. simpl. lia. }
  intros ? w3 [-> (_ & Hi3 & Ho3)]. cbv beta iota. unfold cs. rewrite detect_base. fold cs.
  apply wpx_bind, wpx_upd_ses. change (1 <? 0) with false. cbv iota.
  apply wpx_bind, wpx_upd_ses. destruct (print_dec_spec sid ltac:(lia)) as (Hne & _ & _).
  rewrite client_loop_sid, strtoll_print_dec by (done || lia).
  change (zlen [] =? 0) with true. unfold UINT32_MAX.
  replace (sid <? 1) with false by lia. replace (2 ^ 32 - 1 <? sid) with false by lia. cbn [negb orb].
  apply wpx_bind, wpx_upd_ses, wpx_ret. cbn [negb]. apply wpx_bind, wpx_ses.
  rewrite u32_small by lia. cbn [id set_id].
  replace (sid =? 0) with false by lia. apply wpx_ret.
  rewrite texts_plain. split; [done|]. split; [done|]. cbn [snd]. split; congruence.
Qed.

Lemma recv_server_ok F o fuel caps rest s w :
  open_session s → io_lock s = Some false → version s = NC_VERSION_10 →
  Forall (cap_ok fuel) (BASE_1_0 :: BASE_1_1 :: caps) → zlen caps < 2 ^ 27 →
  parses (BASE_1_0 :: BASE_1_1 :: caps) None →
  inq w = frame10 (hello_payload (BASE_1_0 :: BASE_1_1 :: caps) None) ++ rest →
  zlen (inq w) < 2 ^ 31 → zlen (inq w) < Z.of_nat fuel →
  wpx F (nc_recv_server_hello_io o fuel)
    (λ r sw, r = NC_MSG_HELLO ∧ sw.1 = set_version NC_VERSION_11 s ∧
       inq sw.2 = rest ∧ outq sw.2 = outq w) (s, w).
Proof.
  set (cs := BASE_1_0 :: BASE_1_1 :: caps). intros Hs Hl Hv Hcaps Hn Hparse Hin Hlen Hf.
  assert (Hnul : Forall (λ c, ascii_of_N 0 ∉ c) cs).
  { eapply list.Forall_impl; [exact Hcaps|]. by intros c (_ & ? & _). }
  unfold nc_recv_server_hello_io. apply wpx_bind.
  eapply wpx_mono; [eapply read_hello_ok; try done; by intros n [=]|].
  intros rm [s1 w1] (-> & Es & Hi1 & Ho1). cbn [fst snd] in Es, Hi1, Ho1. subst s1.
  destruct (Hparse w1) as [Ep (_ & Hi2 & Ho2)].
  apply wpx_bind, wpx_envcall. rewrite Ep. set (w2 := (lyd_parse_hello _ w1).2) in *.
  apply wpx_bind. unfold hello_tree. rewrite server_loop_caps.
  apply wpx_bind, wpx_on_env.
  eapply wpx_mono; [apply parse_cpblts_ok; [by eapply caps_nodes_ok|]|].
  { unfold zlen, cs in *. rewrite length_map. simpl. lia. }
  intros ? w3 [-> (_ & Hi3 & Ho3)]. cbv beta iota. unfold cs. rewrite detect_base. fold cs.
  change (1 <? 0) with false. cbv iota.
  apply wpx_bind, wpx_upd_ses, wpx_ret, wpx_ret. split; [done|]. split; [done|].
  cbn [snd]. split; congruence.
Qed.
End handshake.

Section agree.
Context {W1 W2 : Type} `{RL1 : Reliable W1} `{RL2 : Reliable W2} `{!HelloParser W1} `{!HelloParser W2}.
Context {node envelope : Type} `{!Printer node envelope}.

Lemma advertised_base ctx o v : ∃ k, advertised ctx o v = BASE_1_0 :: BASE_1_1 :: k ∧ zlen k ≤ zlen (offered ctx o v).
Proof.
  unfold advertised. destruct (foldl_add_key_app [BASE_1_0; BASE_1_1] (offered ctx o v)) as (k & -> & Hk).
  exists k. split; [done|]. unfold zlen. lia.
Qed.

(** C7: A client and a server that run [nc_handshake_io] against each other over a
    working transport, each finding the hello of the other in its input, both
    return [NC_MSG_HELLO].  Both sessions then use version 1.1, the client has the
    session id of the server and exactly the capabilities the server advertises,
    the locks are released and nothing but the hello messages was read or
    written. *)
Theorem handshake_agree fuel ctx o o' (w1 : W1) (w2 : W2) c s rest1 rest2 :
  side c = NC_CLIENT → ready c → io_lock c = Some false → version c = NC_VERSION_10 →
  side s = NC_SERVER → ready s → io_lock s = Some false → version s = NC_VERSION_10 →
  0 < id s < 2 ^ 32 → fits ctx o LYS_VERSION_1_0 →
  Forall (cap_ok fuel) (advertised ctx o LYS_VERSION_1_0) → WRITE_BUFSIZE + 300 < Z.of_nat fuel →
  let server_caps := advertised ctx o LYS_VERSION_1_0 in
  let client_caps := [BASE_1_0; BASE_1_1] in
  parses (W:=W1) (node:=node) (envelope:=envelope) server_caps (Some (id s)) →
  parses (W:=W2) (node:=node) (envelope:=envelope) client_caps None →
  inq w1 = frame10 (hello_payload (node:=node) (envelope:=envelope) server_caps (Some (id s))) ++ rest1 →
  zlen (inq w1) < 2 ^ 31 → zlen (inq w1) < Z.of_nat fuel →
  inq w2 = frame10 (hello_payload (node:=node) (envelope:=envelope) client_caps None) ++ rest2 →
  zlen (inq w2) < 2 ^ 31 → zlen (inq w2) < Z.of_nat fuel →
  ∃ w1' w2',
    nc_handshake_io (node:=node) (envelope:=envelope) None o' fuel (c, w1) =
      Done (NC_MSG_HELLO, (set_id (id s) (set_version NC_VERSION_11 (set_cpblts (Some server_caps) c)), w1')) ∧
    nc_handshake_io (node:=node) (envelope:=envelope) (Some ctx) o fuel (s, w2) =
      Done (NC_MSG_HELLO, (set_version NC_VERSION_11 s, w2')) ∧
    outq w1' = outq w1 ++ frame10 (hello_payload (node:=node) (envelope:=envelope) client_caps None) ∧
    outq w2' = outq w2 ++ frame10 (hello_payload (node:=node) (envelope:=envelope) server_caps (Some (id s))) ∧
    inq w1' = rest1 ∧ inq w2' = rest2.
Proof.
  intros Hc1 Hc2 Hc3 Hc4 Hs1 Hs2 Hs3 Hs4 Hid Hfits Hcaps Hf scaps ccaps Hp1 Hp2 Hi1 Hl1 Hf1 Hi2 Hl2 Hf2.
  assert (Hpieces : Forall (piece_ok fuel) scaps).
  { eapply list.Forall_impl; [exact Hcaps|]. by intros x (_ & _ & ?). }
  destruct (advertised_base ctx o LYS_VERSION_1_0) as (k & Ek & Hk).
  assert (Hk2 : zlen k < 2 ^ 27) by (destruct Hfits as (_ & _ & ?); lia).
  assert (H1 : wpx False (nc_handshake_io (node:=node) (envelope:=envelope) None o' fuel)
    (λ r sw, r = NC_MSG_HELLO ∧
       sw.1 = set_id (id s) (set_version NC_VERSION_11 (set_cpblts (Some scaps) c)) ∧
       inq sw.2 = rest1 ∧ outq sw.2 = outq w1 ++ frame10 (hello_payload ccaps None)) (c, w1)).
  { unfold nc_handshake_io. apply wpx_bind. eapply wpx_mono; [by apply nc_send_hello_client|].
    intros r [c1 w1'] (-> & Ec & Hi & Ho). cbn [fst snd] in Ec, Hi, Ho. subst c1.
    cbn [negb]. apply wpx_bind, wpx_ses. rewrite Hc1. subst scaps ccaps. rewrite Ek in *.
    rewrite <- Hi in Hi1, Hl1, Hf1.
    eapply wpx_mono; [eapply recv_client_ok; try done; apply Hc2|].
    intros r sw (-> & -> & ? & Ho'). rewrite Ho'. done. }
  assert (H2 : wpx False (nc_handshake_io (node:=node) (envelope:=envelope) (Some ctx) o fuel)
    (λ r sw, r = NC_MSG_HELLO ∧ sw.1 = set_version NC_VERSION_11 s ∧
       inq sw.2 = rest2 ∧ outq sw.2 = outq w2 ++ frame10 (hello_payload scaps (Some (id s)))) (s, w2)).
  { unfold nc_handshake_io. apply wpx_bind. eapply wpx_mono; [by apply nc_send_hello_server|].
    intros r [c1 w2'] (-> & Ec & Hi & Ho). cbn [fst snd] in Ec, Hi, Ho. subst c1.
    cbn [negb]. apply wpx_bind, wpx_ses. rewrite Hs1. rewrite <- Hi in Hi2, Hl2, Hf2.
    eapply wpx_mono; [eapply (recv_server_ok False o fuel [] rest2); try done; [apply Hs2|]|].
    { rewrite Ek in Hcaps. apply Forall_cons_1 in Hcaps as [? Hcaps].
      apply Forall_cons_1 in Hcaps as [? _].
      constructor; [done|]. constructor; [done|constructor]. }
    intros r sw (-> & -> & ? & Ho'). rewrite Ho'. done. }
  apply wp_total in H1 as (r1 & [c' w1'] & E1 & -> & Ec & ? & ?).
  apply wp_total in H2 as (r2 & [s' w2'] & E2 & -> & Es & ? & ?). cbn [fst snd] in *. subst c' s'.
  exists w1', w2'. done.
Qed.
End agree.

(** ** Evaluation set-up *)

Definition demo_module (name ns : string) (features : list (bytes * bool)) (devs : option (list bytes))
    : lys_module :=
  LysModule (str name) (str ns) (Some (str "2026-01-01")) LYS_VERSION_1_0 features devs.

Definition demo_ctx : ly_ctx := {|
  ctx_modules := [demo_module "ietf-netconf" "urn:ietf:params:xml:ns:netconf:base:1.0"
                    [(str "candidate", true); (str "url", false); (str "xpath", true)] None;
                  LysModule (str "ietf-yang-library") (str "urn:yl") (Some YL_2019) LYS_VERSION_1_1 [] None;
                  demo_module "m" "urn:m" [] (Some [str "d1"; str "d2"])];
  ctx_implemented name :=
    if decide (name = str "ietf-netconf" ∨ name = str "ietf-netconf-with-defaults")
    then Some (demo_module "x" "y" [] None) else None;
  ctx_feature_value _ f := bool_decide (f = str "candidate" ∨ f = str "xpath");
  ctx_change_count := 42;
|}.

Definition demo_opts (basic : NC_WD_MODE) (also : Z) : nc_server_opts :=
  NcServerOpts basic also [Some (str "urn:example:c?a=b"); Some (str "urn:example:c?a=d")] None 0 0.

Definition demo_caps : list bytes := advertised demo_ctx (demo_opts NC_WD_UNKNOWN 0) LYS_VERSION_1_0.

(** A parser that knows the two hello messages of the demonstration. *)
#[export] Instance demo_hello_parser {m0 up} : HelloParser (sim m0 up) := {
  lyd_parse_hello text w :=
    (if decide (text = hello_payload (node:=bytes) (envelope:=bytes) demo_caps (Some 1))
     then Some (hello_tree demo_caps (Some 1))
     else if decide (text = hello_payload (node:=bytes) (envelope:=bytes) [BASE_1_0; BASE_1_1] None)
     then Some (hello_tree [BASE_1_0; BASE_1_1] None)
     else if decide (text = str "<hello/>") then Some []
     else None, w)
}.

Definition demo_starting (sd : NC_SIDE) (t : transport) (sid : Z) : nc_session :=
  Session NC_STATUS_STARTING NC_SESSION_TERM_NONE 0 sd sid NC_VERSION_10 t (Some false)
    None None 0 None 0 (ClientOpts 0 None [] false 0 0) (ServerOpts 0 0 0 false 0).

Lemma clean_dec c x y :
  head c = Some x → list.last c = Some y → isspace x = false → isspace y = false → clean c.
Proof.
  intros Hx Hy H1 H2. destruct c as [|a c]; [done|]. injection Hx as ->.
  destruct c as [|b c'] using rev_ind.
  - injection Hy as ->. exists y, y, []. split; [by left|done].
  - rewrite app_comm_cons, last_snoc in Hy. injection Hy as ->. exists x, y, c'. split; [by right|done].
Qed.

Definition cap_okb (fuel : nat) (c : bytes) : bool :=
  match head c, list.last c with
  | Some x, Some y => negb (isspace x) && negb (isspace y)
  | _, _ => false
  end && bool_decide (ascii_of_N 0 ∉ c) && (zlen c <? 2 ^ 28) &&
  (zlen c + WRITE_BUFSIZE + 24 <? Z.of_nat fuel).

Lemma cap_okb_ok fuel c : cap_okb fuel c = true → cap_ok fuel c.
Proof.
  unfold cap_okb. rewrite !andb_true_iff. intros [[[H1 H2] H3] H4].
  destruct (head c) as [x|] eqn:Ex; [|done]. destruct (list.last c) as [y|] eqn:Ey; [|done].
  apply andb_true_iff in H1 as [Hx Hy]. apply negb_true_iff in Hx, Hy.
  split; [by eapply clean_dec|]. split; [by apply bool_decide_eq_true in H2|].
  split; [by apply Z.ltb_lt|by apply Z.ltb_lt].
Qed.

Lemma demo_fits basic also : fits demo_ctx (demo_opts basic also) LYS_VERSION_1_0.
Proof.
  split; [|split].
  - repeat constructor; eexists; split; reflexivity.
  - constructor; [reflexivity|]. constructor; [|constructor; [reflexivity|constructor]].
    split; [right; reflexivity|]. split; [discriminate|reflexivity].
  - destruct (wd_also_supported (demo_opts basic also) =? 0) eqn:E;
      unfold offered, withdefaults_list; rewrite E.
    + destruct basic; reflexivity.
    + destruct basic; reflexivity.
Qed.

Lemma handshake_agree_witness :
  let c := demo_starting NC_CLIENT (TiFd 4 5) 0 in
  let s := demo_starting NC_SERVER (TiLibssh true None) 1 in
  let hs := hello_payload (node:=bytes) (envelope:=bytes) demo_caps (Some 1) in
  let hc := hello_payload (node:=bytes) (envelope:=bytes) [BASE_1_0; BASE_1_1] None in
  ∃ w1' w2' : sim true true,
    nc_handshake_io (node:=bytes) (envelope:=bytes) None (demo_opts NC_WD_UNKNOWN 0) 3000
      (c, demo_world (frame10 hs)) =
      Done (NC_MSG_HELLO, (set_id 1 (set_version NC_VERSION_11 (set_cpblts (Some demo_caps) c)), w1')) ∧
    nc_handshake_io (node:=bytes) (envelope:=bytes) (Some demo_ctx) (demo_opts NC_WD_UNKNOWN 0) 3000
      (s, demo_world (frame10 hc)) = Done (NC_MSG_HELLO, (set_version NC_VERSION_11 s, w2')).
Proof.
  intros c s hs hc.
  destruct (handshake_agree (W1 := sim true true) (W2 := sim true true) (node := bytes) (envelope := bytes)
    3000 demo_ctx (demo_opts NC_WD_UNKNOWN 0) (demo_opts NC_WD_UNKNOWN 0)
    (demo_world (frame10 hs)) (demo_world (frame10 hc)) c s [] []) as (w1' & w2' & E1 & E2 & _).
  1, 3, 4, 5, 7, 8: reflexivity.
  1, 2: split; [split|]; done.
  - split; reflexivity.
  - apply demo_fits.
  - repeat (constructor; [apply cap_okb_ok; vm_compute; reflexivity|]). constructor.
  - reflexivity.
  - intros w. split; [vm_compute; reflexivity|]. cbn. done.
  - intros w. split; [vm_compute; reflexivity|]. cbn. done.
  - cbn. by rewrite app_nil_r.
  - vm_compute. reflexivity.
  - vm_compute. reflexivity.
  - cbn. by rewrite app_nil_r.
  - vm_compute. reflexivity.
  - vm_compute. reflexivity.
  - exists w1', w2'. split; [exact E1|exact E2].
Defined.

(** ** Theorems on the lists *)

(** The list a server advertises is the NULL-terminated reference list: both base
    capabilities first, then the capabilities of the enabled features, of the
    with-defaults option, the configured ones and one for each module of the wanted
    YANG version, with its features and deviations.  No two entries agree up to the
    question mark, and everything offered is represented by an entry. *)
Theorem server_capabilities {W} `{RL : Reliable W} ctx o version (w : W) :
  fits ctx o version →
  ∃ w', nc_server_get_cpblts_version (Some ctx) o version w =
      Done (Some (map Some (advertised ctx o version) ++ [None]), w') ∧
    (∃ k, advertised ctx o version = BASE_1_0 :: BASE_1_1 :: k) ∧
    NoDup (map cpblt_key (advertised ctx o version)) ∧
    (∀ s, s ∈ offered ctx o version → cpblt_key s ∈ map cpblt_key (advertised ctx o version)) ∧
    (∀ s, s ∈ advertised ctx o version → s ∈ [BASE_1_0; BASE_1_1] ∨ s ∈ offered ctx o version).
Proof.
  intros Hf. destruct (proj1 (wp_total _ _ _) (advertised_ok False ctx o version w Hf))
    as (r & w' & E & -> & _).
  exists w'. split; [done|]. destruct (advertised_base ctx o version) as (k & Ek & _).
  split; [by exists k|]. split; [|split].
  - apply foldl_add_key_NoDup. apply (bool_decide_unpack _). vm_compute. exact I.
  - intros s Hs. by apply foldl_add_key_complete.
  - intros s Hs. by apply foldl_add_key_sound.
Qed.

Lemma server_capabilities_witness :
  ∃ w', nc_server_get_cpblts_version (Some demo_ctx) (demo_opts NC_WD_ALL 4) LYS_VERSION_1_0
      (demo_world (m0:=true) (up:=true) []) =
    Done (Some (map Some (advertised demo_ctx (demo_opts NC_WD_ALL 4) LYS_VERSION_1_0) ++ [None]), w').
Proof.
  destruct (server_capabilities (W := sim true true) demo_ctx (demo_opts NC_WD_ALL 4) LYS_VERSION_1_0
    (demo_world []) (demo_fits _ _)) as (w' & E & _).
  exists w'. exact E.
Defined.

(** What a peer learns from the capabilities of a hello: the list of their texts
    without white space around them, and version 1.1 if the base capability of 1.1
    is there, else 1.0 if that of 1.0 is there, else an error.  No capability may
    be a proper beginning of a base capability. *)
Theorem parsed_capabilities {W} `{RL : Reliable W} l (want : bool) (w : W) :
  nodes_ok l → zlen l < 2 ^ 28 → Forall (λ '(_, c, _), no_prefix c) l →
  ∃ w', parse_cpblts (cap_nodes l) want w =
      Done ((version_spec (-1) (texts l), if want then Some (texts l) else None), w') ∧ no_traffic w w'.
Proof.
  intros Hl Hn Hp. destruct (proj1 (wp_total _ _ _) (parse_cpblts_ok False l want w Hl Hn))
    as (r & w' & E & -> & Hw).
  exists w'. rewrite E, detect_fold by auto. done.
Qed.

Lemma no_prefix_by c :
  bool_decide (c `prefix_of` BASE_1_0) = bool_decide (c = BASE_1_0) →
  bool_decide (c `prefix_of` BASE_1_1) = bool_decide (c = BASE_1_1) → no_prefix c.
Proof.
  intros H0 H1. split; intros H.
  - rewrite bool_decide_true in H0 by done. symmetry in H0. by apply bool_decide_eq_true in H0.
  - rewrite bool_decide_true in H1 by done. symmetry in H1. by apply bool_decide_eq_true in H1.
Qed.

Lemma parsed_capabilities_witness :
  ∃ w', parse_cpblts (cap_nodes [(str " ", BASE_1_0, [nl]); ([], str "urn:x", []); ([nl], BASE_1_1, str " ")])
      true (demo_world (m0:=true) (up:=true) []) =
    Done ((1, Some [BASE_1_0; str "urn:x"; BASE_1_1]), w').
Proof.
  destruct (parsed_capabilities (W := sim true true)
    [(str " ", BASE_1_0, [nl]); ([], str "urn:x", []); ([nl], BASE_1_1, str " ")] true (demo_world []))
    as (w' & E & _).
  - repeat (constructor; [split; [repeat constructor|split; [repeat constructor|split;
      [eapply clean_dec; reflexivity|reflexivity]]]|]). constructor.
  - reflexivity.
  - repeat (constructor; [apply no_prefix_by; vm_compute; reflexivity|]). constructor.
  - exists w'. exact E.
Defined.

(** The basic mode alone is not advertised: with the with-defaults module in the
    context, the option accepted and no other mode also supported, the list has no
    with-defaults capability. *)
Theorem basic_mode_not_advertised :
  ∃ o w', nc_server_set_capab_withdefaults NC_WD_EXPLICIT 0 (demo_opts NC_WD_UNKNOWN 0) = (0, o) ∧
    nc_server_get_cpblts_version (Some demo_ctx) o LYS_VERSION_1_0 (demo_world (m0:=true) (up:=true) []) =
      Done (Some (map Some demo_caps ++ [None]), w') ∧
    cpblt_key (wd_text NC_WD_EXPLICIT 0) ∉ map cpblt_key demo_caps.
Proof.
  eexists _, _. split; [reflexivity|]. split; [vm_compute; reflexivity|].
  apply (bool_decide_unpack _). vm_compute. exact I.
Qed.

(** The also-supported modes are confused: the values of [NC_WD_MODE] are not bits,
    so a server that supports report-all besides its basic mode also advertises
    trim. *)
Theorem also_supported_confused :
  ∃ o w' l, nc_server_set_capab_withdefaults NC_WD_EXPLICIT (wd_value NC_WD_ALL)
      (demo_opts NC_WD_UNKNOWN 0) = (0, o) ∧
    nc_server_get_cpblts_version (Some demo_ctx) o LYS_VERSION_1_0 (demo_world (m0:=true) (up:=true) []) =
      Done (Some l, w') ∧
    Some (str "urn:ietf:params:netconf:capability:with-defaults:1.0?basic-mode=explicit&also-supported=report-all,trim") ∈ l.
Proof.
  eexists _, _, _. split; [reflexivity|]. split; [vm_compute; reflexivity|].
  apply (bool_decide_unpack _). vm_compute. exact I.
Qed.

(** A capability that is only a beginning of the base capability counts as it: a
    peer whose single capability is [u] is taken to support version 1.0, and one
    that sends it twice to support 1.1. *)
Theorem prefix_accepted :
  ∃ w', parse_cpblts (cap_nodes [([], str "u", [])]) false (demo_world (m0:=true) (up:=true) []) =
      Done ((0, None), w') ∧
    parse_cpblts (cap_nodes [([], str "u", []); ([], str "u", [])]) false
      (demo_world (m0:=true) (up:=true) []) = Done ((1, None), w').
Proof. eexists. split; vm_compute; reflexivity. Qed.

(** A hello without any capabilities element is accepted by a server, although no
    NETCONF version was agreed on. *)
Theorem empty_hello_accepted :
  ∃ sw, nc_recv_server_hello_io (demo_opts NC_WD_UNKNOWN 0) 1000
      (demo_starting NC_SERVER (TiFd 4 5) 1, demo_world (m0:=true) (up:=true) (frame10 (str "<hello/>"))) =
    Done (NC_MSG_HELLO, sw).
Proof. eexists. vm_compute. reflexivity. Qed.

(** A module whose features fill the capability buffer. *)
Definition crowded_module : lys_module :=
  LysModule (str "m") (str "urn:m") None LYS_VERSION_1_0
    [(repeat "f"%char 4069, true)] (Some [str "d"]).

(** The capability buffer can be overrun: the text before the deviations is not
    checked against the room that is left, so a module whose features nearly fill
    the 4096 bytes and that has deviations is written past their end. *)
Theorem capability_buffer_overrun :
  nc_server_get_cpblts_version
    (Some (LyCtx [crowded_module] (λ _, None) (λ _ _, false) 1)) (demo_opts NC_WD_UNKNOWN 0)
    LYS_VERSION_1_0 (demo_world (m0:=true) (up:=true) []) = Crash.
Proof. vm_compute. reflexivity. Qed.
