(* ===== verification/RpcLock.v ===== *)
(** * The RPC lock of a session

    [nc_session_rpc_lock] and [nc_session_rpc_unlock] of src/session.c as a step
    relation on threads: [rpc_lock] is a mutex, [rpc_cond] a condition variable,
    [rpc_inuse] the flag they protect.  Each step of a thread is one access to
    them, so threads interleave wherever the code lets them.  The [timely] flag
    leaves out the case the code calls "should not happen", an unlock that does not
    get the mutex in time. *)

From S2P Require Import Prelude.
From Stdlib Require Import ZArith Lia.
From stdpp Require Import base gmap numbers.
Open Scope Z_scope.

(** The three kinds of [timeout]: positive, zero, negative. *)
Inductive tmo := Timed | Try | Inf.

#[export] Instance tmo_eq : EqDecision tmo.
Proof. solve_decision. Defined.

(** Where a thread is. *)
Inductive pc :=
| Idle
| LkReq (k : tmo)             (* locking the mutex in nc_session_rpc_lock *)
| LkCheck (k : tmo)           (* at the test of rpc_inuse *)
| LkWait (k : tmo)            (* rpc_inuse was set, calling pthread_cond_(timed)wait *)
| LkSleep (k : tmo)           (* waiting for the condition *)
| LkWake (k : tmo) (r : bool) (* woken ([true]) or timed out, taking the mutex again *)
| LkAbort (ret : Z)           (* unlocking after a failed wait *)
| LkSet                       (* rpc_inuse was clear, about to set it *)
| LkUnlock                    (* unlocking, the lock is taken *)
| LkRet (ret : Z)             (* returning 0 or -1 *)
| Owner                       (* returned 1 *)
| UnReq (k : tmo)             (* locking the mutex in nc_session_rpc_unlock *)
| UnClear (got : bool)        (* clearing rpc_inuse, with or without the mutex *)
| UnSignal (got : bool)
| UnUnlock (got : bool)
| UnErr                       (* returned -1, rpc_inuse still set *)
| AssertFailed.

Record rpc_state := RpcState {
  mtx : option nat;
  inuse : bool;
  pcs : gmap nat pc;
}.

Definition at_pc (s : rpc_state) (t : nat) (p : pc) : Prop := pcs s !! t = Some p.

(** Moving a thread, and the shared variables with it. *)
Definition goto (t : nat) (p : pc) (s : rpc_state) : rpc_state :=
  RpcState (mtx s) (inuse s) (<[t := p]> (pcs s)).
Definition set_mtx (m : option nat) (s : rpc_state) : rpc_state :=
  RpcState m (inuse s) (pcs s).
Definition set_inuse (b : bool) (s : rpc_state) : rpc_state :=
  RpcState (mtx s) b (pcs s).

Inductive step (timely : bool) : rpc_state → rpc_state → Prop :=
| S_call t k s : at_pc s t Idle → step timely s (goto t (LkReq k) s)
| S_mutex t k s : at_pc s t (LkReq k) → mtx s = None →
    step timely s (set_mtx (Some t) (goto t (LkCheck k) s))
| S_mutex_timeout t s : at_pc s t (LkReq Timed) → step timely s (goto t (LkRet 0) s)
| S_mutex_busy t s : at_pc s t (LkReq Try) → mtx s ≠ None → step timely s (goto t (LkRet 0) s)
| S_mutex_error t k s : at_pc s t (LkReq k) → step timely s (goto t (LkRet (-1)) s)
| S_check_free t k s : at_pc s t (LkCheck k) → inuse s = false → step timely s (goto t LkSet s)
| S_check_busy t s : at_pc s t (LkCheck Try) → inuse s = true →
    step timely s (set_mtx None (goto t (LkRet 0) s))
| S_check_wait t k s : at_pc s t (LkCheck k) → inuse s = true → k ≠ Try →
    step timely s (goto t (LkWait k) s)
| S_wait t k s : at_pc s t (LkWait k) → step timely s (set_mtx None (goto t (LkSleep k) s))
| S_wait_error t k s : at_pc s t (LkWait k) → step timely s (goto t (LkAbort (-1)) s)
| S_wait_timeout t s : at_pc s t (LkSleep Timed) → step timely s (goto t (LkWake Timed false) s)
| S_wait_spurious t k s : at_pc s t (LkSleep k) → step timely s (goto t (LkWake k true) s)
| S_woken t k s : at_pc s t (LkWake k true) → mtx s = None →
    step timely s (set_mtx (Some t) (goto t (LkCheck k) s))
| S_timed_out t k s : at_pc s t (LkWake k false) → mtx s = None →
    step timely s (set_mtx (Some t) (goto t (LkAbort 0) s))
| S_abort t r s : at_pc s t (LkAbort r) → step timely s (set_mtx None (goto t (LkRet r) s))
| S_set t s : at_pc s t LkSet → inuse s = false →
    step timely s (set_inuse true (goto t LkUnlock s))
| S_set_assert t s : at_pc s t LkSet → inuse s = true → step timely s (goto t AssertFailed s)
| S_locked t s : at_pc s t LkUnlock → step timely s (set_mtx None (goto t Owner s))
| S_return t r s : at_pc s t (LkRet r) → step timely s (goto t Idle s)
| S_unlock t k s : at_pc s t Owner → inuse s = true → step timely s (goto t (UnReq k) s)
| S_unlock_assert t s : at_pc s t Owner → inuse s = false → step timely s (goto t AssertFailed s)
| S_un_mutex t k s : at_pc s t (UnReq k) → mtx s = None →
    step timely s (set_mtx (Some t) (goto t (UnClear true) s))
| S_un_timeout t s : timely = false → at_pc s t (UnReq Timed) → step timely s (goto t (UnClear false) s)
| S_un_busy t s : timely = false → at_pc s t (UnReq Try) → mtx s ≠ None →
    step timely s (goto t (UnClear false) s)
| S_un_error t k s : at_pc s t (UnReq k) → step timely s (goto t UnErr s)
| S_clear t b s : at_pc s t (UnClear b) → step timely s (set_inuse false (goto t (UnSignal b) s))
| S_signal t b t' k s : at_pc s t (UnSignal b) → at_pc s t' (LkSleep k) →
    step timely s (goto t (UnUnlock b) (goto t' (LkWake k true) s))
| S_signal_none t b s : at_pc s t (UnSignal b) → (∀ t' k, ¬ at_pc s t' (LkSleep k)) →
    step timely s (goto t (UnUnlock b) s)
| S_un_unlock t s : at_pc s t (UnUnlock true) → step timely s (set_mtx None (goto t Idle s))
| S_un_return t s : at_pc s t (UnUnlock false) → step timely s (goto t Idle s).

(** Initially nobody is in the functions. *)
Definition initial (s : rpc_state) : Prop :=
  mtx s = None ∧ inuse s = false ∧ ∀ t p, at_pc s t p → p = Idle.

Inductive reachable (timely : bool) : rpc_state → Prop :=
| R_init s : initial s → reachable timely s
| R_step s s' : reachable timely s → step timely s s' → reachable timely s'.

(** ** Invariants *)

(** Threads inside the mutex. *)
Definition holds (p : pc) : bool :=
  match p with
  | LkCheck _ | LkWait _ | LkAbort _ | LkSet | LkUnlock => true
  | UnClear b | UnSignal b | UnUnlock b => b
  | _ => false
  end.

(** Threads that have set [rpc_inuse] and not cleared it. *)
Definition owning (p : pc) : bool :=
  match p with
  | LkUnlock | Owner | UnReq _ | UnClear _ | UnErr => true
  | _ => false
  end.

(** Threads that clear the flag without the mutex. *)
Definition detached (p : pc) : bool :=
  match p with UnClear b | UnSignal b | UnUnlock b => negb b | _ => false end.

Definition waiting (p : pc) : bool := match p with LkWait _ => true | _ => false end.

(** What holds of a thread [t] at [p]. *)
Record local_inv (timely : bool) (s : rpc_state) (t : nat) (p : pc) : Prop := LocalInv {
  l_mtx : holds p = true → mtx s = Some t;
  l_owner : owning p = true → inuse s = true;
  l_set : p = LkSet → inuse s = false;
  l_assert : p ≠ AssertFailed;
  l_timely : timely = true → detached p = false;
  l_wait : timely = true → waiting p = true → inuse s = true;
}.

Record inv (timely : bool) (s : rpc_state) : Prop := Inv {
  inv_local t p : at_pc s t p → local_inv timely s t p;
  inv_unique t1 p1 t2 p2 : at_pc s t1 p1 → at_pc s t2 p2 → owning p1 = true → owning p2 = true → t1 = t2;
}.

Lemma at_goto s t p t' p' : at_pc (goto t p s) t' p' ↔ (t = t' ∧ p = p') ∨ (t ≠ t' ∧ at_pc s t' p').
Proof.
  unfold at_pc, goto. simpl. destruct (decide (t = t')) as [->|].
  - rewrite lookup_insert_eq. split; [intros [= ->]; by left|intros [[_ ->]|[? _]]; done].
  - rewrite lookup_insert_ne by done. split; [by right|]. intros [[? _]|[_ ?]]; done.
Qed.

Lemma at_set_mtx m s t p : at_pc (set_mtx m s) t p ↔ at_pc s t p.
Proof. done. Qed.
Lemma at_set_inuse b s t p : at_pc (set_inuse b s) t p ↔ at_pc s t p.
Proof. done. Qed.

Lemma at_pc_inj s t p q : at_pc s t p → at_pc s t q → p = q.
Proof. unfold at_pc. intros H1 H2. rewrite H1 in H2. by injection H2. Qed.

Lemma inv_initial timely s : initial s → inv timely s.
Proof.
  intros (_ & Hu & Hp). split.
  - intros t p H. apply Hp in H. subst. by split.
  - intros t1 p1 t2 p2 H1 _ Ho. apply Hp in H1. by subst.
Qed.

(** Reduces facts about the new state to the old one. *)
Ltac old_state :=
  repeat match goal with
  | H : at_pc (set_mtx _ _) _ _ |- _ => rewrite at_set_mtx in H
  | H : at_pc (set_inuse _ _) _ _ |- _ => rewrite at_set_inuse in H
  | H : at_pc (goto _ _ _) _ _ |- _ => apply at_goto in H as [[? ?]|[? ?]]; subst
  | H1 : at_pc ?s ?t ?p, H2 : at_pc ?s ?t ?q |- _ =>
    lazymatch p with q => fail | _ => pose proof (at_pc_inj _ _ _ _ H1 H2); simplify_eq end
  end; cbn [mtx inuse goto set_mtx set_inuse] in *; try done.

Definition known (P : Prop) : Prop := P.

(** Adds what the invariant says of the threads that are known. *)
Ltac use_inv HI :=
  repeat match goal with
  | H : at_pc ?s ?t ?p |- _ =>
    let HL := fresh in pose proof (inv_local _ _ HI _ _ H) as HL; destruct HL;
    change (known (at_pc s t p)) in H
  end; cbn [holds owning detached waiting mtx inuse goto set_mtx set_inuse] in *;
  repeat match goal with
  | H : true = true → _ |- _ => specialize (H eq_refl)
  | H : ?p = ?p → _ |- _ => specialize (H eq_refl)
  | H : ?P → _, H' : ?P |- _ => specialize (H H')
  end; try congruence.

Lemma inv_step timely s s' : inv timely s → step timely s s' → inv timely s'.
Proof.
  intros HI Hs. split.
  - intros t' p' Hp. destruct Hs; old_state; split; intros; use_inv HI; try done.
    + subst. cbn [holds] in *. specialize (l_mtx0 eq_refl). congruence.
    + exfalso. pose proof (inv_unique _ _ HI t (UnClear b) t' p'). auto.
    + destruct p'; try done. apply negb_false_iff in l_timely1. subst. cbn [holds] in *.
      specialize (l_mtx0 eq_refl). specialize (l_mtx1 eq_refl). congruence.
  - intros t1 p1 t2 p2 H1 H2 Ho1 Ho2.
    destruct Hs; old_state; try (by eapply (inv_unique _ _ HI); eassumption); use_inv HI.
Qed.

Lemma inv_reachable timely s : reachable timely s → inv timely s.
Proof. induction 1; [by apply inv_initial|by eapply inv_step]. Qed.

(** ** Waking up *)

(** Threads that are about to look at the flag or to wake a sleeper. *)
Definition active (p : pc) : bool :=
  match p with LkWake _ true | LkCheck _ | LkSet | UnSignal _ => true | _ => false end.

Definition sleeping (p : pc) : bool := match p with LkSleep _ => true | _ => false end.

(** No sleeper is forgotten. *)
Definition wakes (s : rpc_state) : Prop :=
  inuse s = false → (∃ t p, at_pc s t p ∧ sleeping p = true) → ∃ t p, at_pc s t p ∧ active p = true.

(** A step of [t] that keeps the flag clear keeps an active thread other than
    [t], and makes no new sleeper. *)
Lemma wakes_other s s' t p q :
  at_pc s t p → (∀ t' p', t' ≠ t → at_pc s' t' p' ↔ at_pc s t' p') → at_pc s' t q →
  sleeping q = false → (active p = true → active q = true) → inuse s' = inuse s →
  wakes s → wakes s'.
Proof.
  intros Hp Hs Hq Hsl Hact Hu Hw Hf (t1 & p1 & H1 & S1).
  destruct (decide (t1 = t)) as [->|N].
  { rewrite (at_pc_inj _ _ _ _ Hq H1) in Hsl. congruence. }
  destruct Hw as (t2 & p2 & H2 & A2); [congruence|exists t1, p1; by rewrite <- Hs by done|].
  destruct (decide (t2 = t)) as [->|N2].
  - rewrite (at_pc_inj _ _ _ _ Hp H2) in Hact. eauto.
  - exists t2, p2. by rewrite Hs by done.
Qed.

Lemma goto_at s t p : at_pc (goto t p s) t p.
Proof. apply at_goto. by left. Qed.

Lemma goto_other s t p t' p' : t' ≠ t → at_pc (goto t p s) t' p' ↔ at_pc s t' p'.
Proof. rewrite at_goto. intros. split; [intros [[? _]|[_ ?]]; congruence|by right]. Qed.

Ltac wakes_step :=
  eapply wakes_other; [eassumption|intros; cbn; by apply goto_other|cbn; apply goto_at|reflexivity|done|
    reflexivity|assumption].

Lemma wakes_step timely s s' : inv timely s → timely = true → wakes s → step timely s s' → wakes s'.
Proof.
  intros HI Ht Hw Hs. destruct Hs; try wakes_step.
  - (* the flag is set *) intros Hf. cbn in Hf. congruence.
  - intros Hf. cbn in Hf. congruence.
  - (* starting to sleep *) intros Hf. cbn in Hf.
    pose proof (l_wait _ _ _ _ (inv_local _ _ HI _ _ H) Ht eq_refl). congruence.
  - intros Hf. done.
  - intros Hf. cbn in Hf. congruence.
  - (* clearing *) intros _ _. exists t, (UnSignal b). split; [apply goto_at|done].
  - (* signalling *) intros _ _. destruct (decide (t = t')) as [->|N].
    { by pose proof (at_pc_inj _ _ _ _ H H0). }
    exists t', (LkWake k true). split; [|done]. apply goto_other; [done|apply goto_at].
  - (* nobody to wake *) intros Hf (t1 & p1 & H1 & S1). exfalso. destruct p1; try done.
    apply at_goto in H1 as [[_ ?]|[_ H1]]; [done|]. by eapply H0.
Qed.

Lemma wakes_reachable s : reachable true s → wakes s.
Proof.
  induction 1 as [s (_ & _ & Hp)|s s' Hr IH Hs].
  - intros _ (t & p & H & Hsl). apply Hp in H. by subst.
  - eapply wakes_step; [by apply inv_reachable|done|done|exact Hs].
Qed.

(** ** Theorems *)

(** C16: The RPC lock of a session excludes: whatever the interleaving, the timeouts and
    the failures of the pthread functions, at most one thread has got 1 from
    [nc_session_rpc_lock] and not yet released the lock, [rpc_inuse] is set as long
    as it has it, and neither assertion of the two functions fails. *)
Theorem rpc_lock_exclusion timely s :
  reachable timely s →
  (∀ t1 t2, at_pc s t1 Owner → at_pc s t2 Owner → t1 = t2) ∧
  (∀ t, at_pc s t Owner → inuse s = true) ∧
  (∀ t, ¬ at_pc s t AssertFailed).
Proof.
  intros Hr. pose proof (inv_reachable _ _ Hr) as HI. split; [|split].
  - intros t1 t2 H1 H2. by eapply (inv_unique _ _ HI).
  - intros t H. by apply (l_owner _ _ _ _ (inv_local _ _ HI _ _ H)).
  - intros t H. by apply (l_assert _ _ _ _ (inv_local _ _ HI _ _ H)).
Qed.

(** C28: No wake-up of the RPC lock is lost as long as unlocking gets the mutex in time:
    whenever the lock is free while a thread sleeps on the condition, some thread
    is about to test the flag again or to signal. *)
Theorem rpc_lock_no_lost_wakeup s : reachable true s → wakes s.
Proof. apply wakes_reachable. Qed.

Definition idle2 : rpc_state := RpcState None false {[1%nat := Idle; 2%nat := Idle]}.

Lemma idle2_initial : initial idle2.
Proof.
  split; [done|]. split; [done|]. intros t p H. unfold at_pc, idle2 in H. simpl in H.
  apply lookup_insert_Some in H as [[_ <-]|[_ H]]; [done|].
  by apply lookup_singleton_Some in H as [_ <-].
Qed.

Lemma idle2_at t p : at_pc idle2 t p → p = Idle.
Proof. apply idle2_initial. Qed.

Ltac at_idle2 := match goal with H : at_pc idle2 _ _ |- _ => apply idle2_at in H end.

(** Thread 1 has the lock, thread 2 is about to sleep. *)
Definition contended : rpc_state :=
  goto 2 (LkWait Inf) (set_mtx (Some 2%nat) (goto 2 (LkCheck Inf) (goto 2 (LkReq Inf)
  (set_mtx None (goto 1 Owner (set_inuse true (goto 1 LkUnlock (goto 1 LkSet
  (set_mtx (Some 1%nat) (goto 1 (LkCheck Try) (goto 1 (LkReq Try) idle2))))))))))).

Lemma contended_reachable timely : reachable timely contended.
Proof.
  unfold contended.
  eapply R_step; [|by eapply S_check_wait].
  eapply R_step; [|by eapply S_mutex].
  eapply R_step; [|by eapply S_call].
  eapply R_step; [|by eapply S_locked].
  eapply R_step; [|by eapply S_set].
  eapply R_step; [|by eapply S_check_free].
  eapply R_step; [|by eapply S_mutex].
  eapply R_step; [|by eapply S_call].
  apply R_init, idle2_initial.
Qed.

Lemma rpc_lock_exclusion_witness :
  at_pc contended 1 Owner ∧ inuse contended = true ∧ ∀ t, at_pc contended t Owner → t = 1%nat.
Proof.
  destruct (rpc_lock_exclusion true contended (contended_reachable true)) as (H1 & H2 & _).
  assert (H : at_pc contended 1 Owner) by reflexivity.
  split; [exact H|]. split; [exact (H2 1%nat H)|]. intros t Ht. exact (H1 _ _ Ht H).
Defined.

(** Thread 2 sleeps and thread 1 has cleared the flag. *)
Definition handed_over : rpc_state :=
  set_inuse false (goto 1 (UnSignal true) (set_mtx (Some 1%nat) (goto 1 (UnClear true)
  (goto 1 (UnReq Timed) (set_mtx None (goto 2 (LkSleep Inf) contended)))))).

Lemma handed_over_reachable : reachable true handed_over.
Proof.
  unfold handed_over.
  eapply R_step; [|by eapply S_clear].
  eapply R_step; [|by eapply S_un_mutex].
  eapply R_step; [|by eapply S_unlock].
  eapply R_step; [|by eapply S_wait].
  apply contended_reachable.
Qed.

Lemma rpc_lock_no_lost_wakeup_witness :
  inuse handed_over = false ∧ ∃ t p, at_pc handed_over t p ∧ active p = true.
Proof.
  split; [reflexivity|].
  apply (rpc_lock_no_lost_wakeup handed_over handed_over_reachable); [reflexivity|].
  exists 2%nat, (LkSleep Inf). split; reflexivity.
Defined.

(** The timely unlock is needed: when [nc_session_rpc_unlock] does not get the mutex
    it clears the flag and signals without it, and a thread that has just found the
    flag set goes to sleep on a free lock with nobody left to wake it. *)
Theorem rpc_lock_lost_wakeup : ∃ s, reachable false s ∧ ¬ wakes s.
Proof.
  exists (set_mtx None (goto 2 (LkSleep Inf) (goto 1 Idle (goto 1 (UnUnlock false)
    (set_inuse false (goto 1 (UnSignal false) (goto 1 (UnClear false) (goto 1 (UnReq Try) contended)))))))).
  split.
  - eapply R_step; [|by eapply S_wait].
    eapply R_step; [|by eapply S_un_return].
    eapply R_step; [|eapply S_signal_none; [reflexivity|]].
    2: { intros t' k H. unfold contended in H. old_state. by at_idle2. }
    eapply R_step; [|by eapply S_clear].
    eapply R_step; [|by eapply S_un_busy].
    eapply R_step; [|by eapply S_unlock].
    apply contended_reachable.
  - intros Hw. destruct Hw as (t & p & H & Ha); [reflexivity|exists 2%nat, (LkSleep Inf); split; reflexivity|].
    unfold contended in H. old_state. at_idle2. by subst.
Qed.
