(* ===== verification/PsQueue.v ===== *)
(** * The queue of a pollsession

    [struct nc_pollsession] of src/session_server.c serialises its users with a queue of 8-bit numbers in a ring buffer, which refines
    a list; threads take turns by it. *)

From S2P Require Import Prelude.
From Stdlib Require Import ZArith Lia.
From stdpp Require Import base list gmap numbers.
Open Scope Z_scope.

(** ** The queue of a pollsession

    [struct nc_pollsession] of src/session_server.c serialises its users with a
    queue of 8-bit numbers in a ring buffer: [nc_ps_queue_add_id],
    [nc_ps_queue_remove_id].  The ring refines a list. *)

(** [NC_PS_QUEUE_SIZE]: [MAX_PSPOLL_THREAD_COUNT] of the build, 6 by default. *)
Definition NC_PS_QUEUE_SIZE : nat := 6.

Record ps_queue := PsQueue {
  queue : list Z;
  queue_begin : nat;
  queue_len : nat;
}.

Definition ps_queue_wf (q : ps_queue) : Prop :=
  length (queue q) = NC_PS_QUEUE_SIZE ∧ (queue_begin q < NC_PS_QUEUE_SIZE)%nat ∧
  (queue_len q ≤ NC_PS_QUEUE_SIZE)%nat.

Definition q_at (q : ps_queue) (i : nat) : Z :=
  nth ((queue_begin q + i) mod NC_PS_QUEUE_SIZE) (queue q) 0.

(** [None] is the early return with an internal error. *)
Definition nc_ps_queue_add_id (q : ps_queue) : option (Z * ps_queue) :=
  if (queue_len q =? NC_PS_QUEUE_SIZE)%nat then None
  else
    let id :=
      if (queue_len q =? 0)%nat then 0
      else
        let q_last := ((queue_begin q + queue_len q - 1) mod NC_PS_QUEUE_SIZE)%nat in
        u8 (nth q_last (queue q) 0 + 1) in
    let queue_len := S (queue_len q) in
    let q_last := ((queue_begin q + queue_len - 1) mod NC_PS_QUEUE_SIZE)%nat in
    Some (id, PsQueue (<[q_last := id]> (queue q)) (queue_begin q) queue_len).

(** The loop of [nc_ps_queue_remove_id] from index [i], [n] rounds left. *)
Fixpoint remove_id_loop (n i found : nat) (id : Z) (begin : nat) (buf : list Z) : nat * list Z :=
  match n with
  | O => (found, buf)
  | S n =>
    let q_idx := ((begin + i) mod NC_PS_QUEUE_SIZE)%nat in
    if negb (found =? 0)%nat then
      let buf := if (found =? 2)%nat
                 then <[(if (q_idx =? 0)%nat then NC_PS_QUEUE_SIZE - 1 else q_idx - 1)%nat := nth q_idx buf 0]> buf
                 else buf in
      remove_id_loop n (S i) found id begin buf
    else if nth q_idx buf 0 =? id then
      remove_id_loop n (S i) (if (i =? 0)%nat then 1 else 2)%nat id begin buf
    else remove_id_loop n (S i) found id begin buf
  end.

(** [None] is the return with an internal error, the queue unchanged. *)
Definition nc_ps_queue_remove_id (q : ps_queue) (id : Z) : option ps_queue :=
  let (found, buf) := remove_id_loop (queue_len q) 0 0 id (queue_begin q) (queue q) in
  if (found =? 0)%nat then None
  else
    Some (PsQueue buf
            (if (found =? 1)%nat then (queue_begin q + 1) mod NC_PS_QUEUE_SIZE else queue_begin q)%nat
            (queue_len q - 1)).

(** ** The list the ring stands for *)

Definition qlist (q : ps_queue) : list Z := map (q_at q) (seq 0 (queue_len q)).

Definition next_id (l : list Z) : Z :=
  match list.last l with None => 0 | Some x => u8 (x + 1) end.

Fixpoint remove_first (id : Z) (l : list Z) : list Z :=
  match l with
  | [] => []
  | x :: l => if x =? id then l else x :: remove_first id l
  end.

Lemma destruct_queue q :
  ps_queue_wf q → ∃ a b c d e f, queue q = [a; b; c; d; e; f].
Proof.
  intros (Hl & _). destruct (queue q) as [|a [|b [|c [|d [|e [|f [|g l]]]]]]]; simpl in Hl; try done.
  by exists a, b, c, d, e, f.
Qed.

(** Case analysis on the position and the length of the ring. *)
Ltac ring_cases q Hw :=
  let E := fresh "E" in let Hb := fresh "Hb" in let Hl := fresh "Hl" in
  let buf := fresh "buf" in let begin := fresh "begin" in let len := fresh "len" in
  destruct (destruct_queue q Hw) as (? & ? & ? & ? & ? & ? & E);
  destruct Hw as (_ & Hb & Hl); destruct q as [buf begin len];
  cbn [queue queue_begin queue_len] in *; subst buf; unfold NC_PS_QUEUE_SIZE in Hb, Hl;
  destruct begin as [|[|[|[|[|[|]]]]]]; try (exfalso; lia);
  destruct len as [|[|[|[|[|[|[|]]]]]]]; try (exfalso; lia).

Lemma add_id_refines q :
  ps_queue_wf q → (queue_len q < NC_PS_QUEUE_SIZE)%nat →
  ∃ q', nc_ps_queue_add_id q = Some (next_id (qlist q), q') ∧
        qlist q' = qlist q ++ [next_id (qlist q)] ∧ ps_queue_wf q'.
Proof.
  intros Hw Hlen. ring_cases q Hw; try (exfalso; unfold NC_PS_QUEUE_SIZE in Hlen; simpl in Hlen; lia).
  all: eexists; split; [reflexivity|]; split; [reflexivity|].
  all: unfold ps_queue_wf, NC_PS_QUEUE_SIZE; simpl; lia.
Qed.

Lemma add_id_full q : queue_len q = NC_PS_QUEUE_SIZE → nc_ps_queue_add_id q = None.
Proof. intros E. unfold nc_ps_queue_add_id. by rewrite E. Qed.

Lemma remove_id_refines q v :
  ps_queue_wf q →
  match nc_ps_queue_remove_id q v with
  | None => v ∉ qlist q
  | Some q' => v ∈ qlist q ∧ qlist q' = remove_first v (qlist q) ∧ ps_queue_wf q'
  end.
Proof.
  intros Hw. ring_cases q Hw; unfold nc_ps_queue_remove_id, qlist, q_at; simpl;
    repeat match goal with
    | |- context [?x =? v] => destruct (Z.eqb_spec x v); simpl
    end; subst;
    rewrite ?elem_of_cons, ?elem_of_nil;
    try (intuition congruence);
    (split; [tauto|]; split; [reflexivity|]; unfold ps_queue_wf, NC_PS_QUEUE_SIZE; simpl; lia).
Qed.

(** ** Taking turns on a pollsession

    [nc_ps_lock] and [nc_ps_unlock] of src/session_server.c as a step relation:
    one step for each time a thread holds [ps->lock].  A thread owns the
    pollsession from the return of [nc_ps_lock] to [nc_ps_unlock]. *)

(** ** Taking turns *)

Definition ps_head (q : ps_queue) : Z := nth (queue_begin q) (queue q) 0.

(** [nc_ps_lock] once it has the mutex, up to the test whether it is its turn:
    the number it got, the result of the test, and the queue.  [None] is the
    return with -1 for a full queue. *)
Definition nc_ps_lock_enter (q : ps_queue) : option (Z * bool * ps_queue) :=
  if (queue_len q =? NC_PS_QUEUE_SIZE)%nat then None
  else
    match nc_ps_queue_add_id q with
    | Some (id, q) => Some (id, ps_head q =? id, q)
    | None => None
    end.

(** Results of [pthread_cond_timedwait]. *)
Inductive wait_ret := WaitOk | WaitTimedout | WaitError.

(** What [nc_ps_lock] does when [pthread_cond_timedwait] returns. *)
Inductive wake_result :=
| MyTurn
| Again
| GiveUp (q : ps_queue).

Definition nc_ps_lock_wake (r : wait_ret) (q : ps_queue) (id : Z) : wake_result :=
  match r with
  | WaitOk => if ps_head q =? id then MyTurn else Again
  | WaitTimedout =>
    if ps_head q =? id then MyTurn else GiveUp (default q (nc_ps_queue_remove_id q id))
  | WaitError => GiveUp (default q (nc_ps_queue_remove_id q id))
  end.

(** [nc_ps_unlock]: [None] is the return with an error because it is not the turn
    of [id]. *)
Definition nc_ps_unlock_leave (q : ps_queue) (id : Z) : option ps_queue :=
  if negb (ps_head q =? id) then None else Some (default q (nc_ps_queue_remove_id q id)).

Inductive ps_pc := PIdle | PWait (id : Z) | POwner (id : Z).

(** [adds] counts the numbers given since the queue was last empty. *)
Record ps_state := PsState {
  psq : ps_queue;
  adds : nat;
  thr : gmap nat ps_pc;
}.

Inductive ps_step : ps_state → ps_state → Prop :=
| P_enter t id (turn : bool) q' s :
    thr s !! t = Some PIdle → nc_ps_lock_enter (psq s) = Some (id, turn, q') →
    ps_step s (PsState q' (if (queue_len (psq s) =? 0)%nat then 1 else S (adds s))
                 (<[t := if turn then POwner id else PWait id]> (thr s)))
| P_turn t id r s :
    thr s !! t = Some (PWait id) → nc_ps_lock_wake r (psq s) id = MyTurn →
    ps_step s (PsState (psq s) (adds s) (<[t := POwner id]> (thr s)))
| P_give_up t id r q' s :
    thr s !! t = Some (PWait id) → nc_ps_lock_wake r (psq s) id = GiveUp q' →
    ps_step s (PsState q' (adds s) (<[t := PIdle]> (thr s)))
| P_leave t id q' s :
    thr s !! t = Some (POwner id) → nc_ps_unlock_leave (psq s) id = Some q' →
    ps_step s (PsState q' (adds s) (<[t := PIdle]> (thr s)))
| P_leave_error t id s :
    thr s !! t = Some (POwner id) → nc_ps_unlock_leave (psq s) id = None →
    ps_step s (PsState (psq s) (adds s) (<[t := PIdle]> (thr s))).

Definition ps_initial (s : ps_state) : Prop :=
  ps_queue_wf (psq s) ∧ queue_len (psq s) = 0%nat ∧ ∀ t p, thr s !! t = Some p → p = PIdle.

(** Runs that give at most [n] numbers before the queue is empty again. *)
Inductive ps_run (n : option nat) : ps_state → Prop :=
| PR_init s : ps_initial s → ps_run n s
| PR_step s s' : ps_run n s → ps_step s s' → (∀ m, n = Some m → (adds s' ≤ m)%nat) → ps_run n s'.

(** ** Invariant *)

Definition thread_id (p : ps_pc) : option Z :=
  match p with PIdle => None | PWait id | POwner id => Some id end.

Fixpoint increasing (lo hi : Z) (l : list Z) : Prop :=
  match l with
  | [] => lo ≤ hi
  | x :: l => lo ≤ x < hi ∧ increasing (x + 1) hi l
  end.

Record ps_inv (s : ps_state) : Prop := PsInv {
  ps_wf : ps_queue_wf (psq s);
  ps_ids : increasing 0 (Z.of_nat (adds s)) (qlist (psq s)) ∨ qlist (psq s) = [];
  ps_mem t p id : thr s !! t = Some p → thread_id p = Some id → id ∈ qlist (psq s);
  ps_distinct t1 p1 t2 p2 id : thr s !! t1 = Some p1 → thr s !! t2 = Some p2 →
    thread_id p1 = Some id → thread_id p2 = Some id → t1 = t2;
  ps_turn t id : thr s !! t = Some (POwner id) → head (qlist (psq s)) = Some id;
}.

Lemma qlist_length q : length (qlist q) = queue_len q.
Proof. unfold qlist. by rewrite length_map, length_seq. Qed.

Lemma qlist_head q : ps_queue_wf q → (0 < queue_len q)%nat → head (qlist q) = Some (ps_head q).
Proof.
  intros (_ & Hb & _) Hl. unfold qlist, ps_head. destruct (queue_len q) as [|n]; [lia|].
  simpl. unfold q_at. by rewrite Nat.add_0_r, Nat.mod_small.
Qed.

Lemma elem_qlist_len q id : id ∈ qlist q → (0 < queue_len q)%nat.
Proof.
  intros H. rewrite <- qlist_length. destruct (qlist q); [by apply elem_of_nil in H|simpl; lia].
Qed.

Lemma increasing_bounds lo hi l x : increasing lo hi l → x ∈ l → lo ≤ x < hi.
Proof.
  revert lo. induction l as [|y l IH]; intros lo Hi Hx; [by apply elem_of_nil in Hx|].
  destruct Hi as [Hy Hi]. apply elem_of_cons in Hx as [->|Hx]; [done|].
  specialize (IH _ Hi Hx). lia.
Qed.

Lemma increasing_le lo hi l : increasing lo hi l → lo ≤ hi.
Proof. revert lo. induction l as [|y l IH]; intros lo Hi; [done|]. destruct Hi as [? ?%IH]. lia. Qed.

Lemma increasing_weaken lo lo' hi hi' l : increasing lo hi l → lo' ≤ lo → hi ≤ hi' → increasing lo' hi' l.
Proof.
  revert lo lo'. induction l as [|y l IH]; intros lo lo' Hi H1 H2; simpl in *; [lia|].
  destruct Hi as [Hy Hi]. split; [lia|]. eapply IH; [done|lia|lia].
Qed.

Lemma increasing_remove lo hi l x : increasing lo hi l → increasing lo hi (remove_first x l).
Proof.
  revert lo. induction l as [|y l IH]; intros lo Hi; [done|]. destruct Hi as [Hy Hi]. simpl.
  destruct (y =? x).
  - eapply increasing_weaken; [done|lia|lia].
  - split; [done|by apply IH].
Qed.

Lemma increasing_next lo hi l :
  increasing lo hi l → 0 ≤ lo → hi < 256 → l ≠ [] → increasing lo (hi + 1) (l ++ [next_id l]) ∧ next_id l ∉ l.
Proof.
  revert lo. induction l as [|y l IH]; intros lo Hi Hlo Hhi Hne; [done|].
  destruct Hi as [Hy Hi]. destruct l as [|z l].
  - unfold next_id. simpl. rewrite u8_small by lia. simpl in Hi. split; [repeat split; lia|].
    rewrite elem_of_cons, elem_of_nil. intros [?|?]; [lia|done].
  - destruct (IH (y + 1) Hi) as [H1 H2]; [lia|done|done|].
    change (next_id (y :: z :: l)) with (next_id (z :: l)). split.
    + split; [lia|exact H1].
    + rewrite elem_of_cons. intros [E|H]; [|done].
      assert (y + 1 ≤ next_id (z :: l) < hi + 1) by (eapply increasing_bounds; [exact H1|apply elem_of_app; right; by left]). lia.
Qed.

Lemma remove_first_elem x y l : x ∈ l → x ≠ y → x ∈ remove_first y l.
Proof.
  induction l as [|z l IH]; intros Hx Hn; [done|]. simpl. destruct (Z.eqb_spec z y) as [->|].
  - apply elem_of_cons in Hx as [?|?]; [congruence|done].
  - apply elem_of_cons in Hx as [->|Hx]; [by left|right; by apply IH].
Qed.

Lemma remove_first_head x y l : head l = Some x → x ≠ y → head (remove_first y l) = Some x.
Proof.
  destruct l as [|z l]; [done|]. intros [= ->] Hn. simpl. by destruct (Z.eqb_spec x y).
Qed.

(** *** Each step keeps the invariant *)

Lemma inv_enter s t id (turn : bool) q' :
  ps_inv s → (adds s < 256)%nat → thr s !! t = Some PIdle →
  nc_ps_lock_enter (psq s) = Some (id, turn, q') →
  ps_inv (PsState q' (if (queue_len (psq s) =? 0)%nat then 1 else S (adds s))
            (<[t := if turn then POwner id else PWait id]> (thr s))).
Proof.
  intros [Hwf Hids Hmem Hdis Hturn] Hadds Ht He. unfold nc_ps_lock_enter in He.
  destruct (queue_len (psq s) =? NC_PS_QUEUE_SIZE)%nat eqn:Efull; [done|]. apply Nat.eqb_neq in Efull.
  destruct (add_id_refines (psq s) Hwf) as (q1 & Ea & Hq1 & Hwf1).
  { destruct Hwf as (_ & _ & ?). lia. }
  rewrite Ea in He. injection He as Hid Hturn' <-.
  assert (Hlen1 : (0 < queue_len q1)%nat).
  { rewrite <- qlist_length, Hq1, length_app. simpl. lia. }
  assert (Hnew : id ∉ qlist (psq s) ∧
    increasing 0 (Z.of_nat (if (queue_len (psq s) =? 0)%nat then 1 else S (adds s))) (qlist q1)).
  { rewrite Hq1, <- Hid. destruct (queue_len (psq s) =? 0)%nat eqn:E0.
    - apply Nat.eqb_eq in E0. rewrite <- qlist_length in E0. apply nil_length_inv in E0. rewrite E0.
      split; [apply not_elem_of_nil|]. change (next_id []) with 0. simpl. lia.
    - apply Nat.eqb_neq in E0. assert (Hne : qlist (psq s) ≠ []).
      { intros E. rewrite <- qlist_length, E in E0. done. }
      destruct Hids as [Hids|]; [|done].
      destruct (increasing_next _ _ _ Hids) as [H1 H2]; [lia|lia|done|].
      split; [done|]. by replace (Z.of_nat (S (adds s))) with (Z.of_nat (adds s) + 1) by lia. }
  destruct Hnew as [Hfresh Hinc].
  assert (Hin : ∀ x, x ∈ qlist (psq s) → x ∈ qlist q1).
  { intros x Hx. rewrite Hq1. apply elem_of_app. by left. }
  assert (Hself : thread_id (if turn then POwner id else PWait id) = Some id) by (by destruct turn).
  split; cbn [psq adds thr].
  - done.
  - by left.
  - intros t' p id' Hp Hid'. apply lookup_insert_Some in Hp as [[<- <-]|[_ Hp]]; [|eauto].
    rewrite Hself in Hid'. injection Hid' as <-. rewrite Hq1, <- Hid. apply elem_of_app. right. by left.
  - intros t1 p1 t2 p2 id' H1 H2 I1 I2.
    apply lookup_insert_Some in H1 as [[<- <-]|[N1 H1]], H2 as [[<- <-]|[N2 H2]].
    + done.
    + rewrite Hself in I1. injection I1 as <-. by destruct (Hfresh (Hmem _ _ _ H2 I2)).
    + rewrite Hself in I2. injection I2 as <-. by destruct (Hfresh (Hmem _ _ _ H1 I1)).
    + eauto.
  - intros t' id' H'. apply lookup_insert_Some in H' as [[<- E]|[N H']].
    + destruct turn; [|done]. injection E as <-. rewrite qlist_head by done.
      f_equal. apply Z.eqb_eq in Hturn'. congruence.
    + apply Hturn in H'. rewrite Hq1. by destruct (qlist (psq s)).
Qed.

(** Removing the number of a thread that then leaves. *)
Lemma inv_remove s t p id :
  ps_inv s → thr s !! t = Some p → thread_id p = Some id →
  ps_inv (PsState (default (psq s) (nc_ps_queue_remove_id (psq s) id)) (adds s) (<[t := PIdle]> (thr s))).
Proof.
  intros [Hwf Hids Hmem Hdis Hturn] Ht Hid. pose proof (remove_id_refines (psq s) id Hwf) as Hr.
  destruct (nc_ps_queue_remove_id (psq s) id) as [q'|]; [|by destruct (Hr (Hmem _ _ _ Ht Hid))].
  destruct Hr as (_ & Hq & Hwf'). change (default (psq s) (Some q')) with q'.
  assert (Hother : ∀ t' p' id', t ≠ t' → thr s !! t' = Some p' → thread_id p' = Some id' → id' ≠ id).
  { intros t' p' id' N Hp Hi ->. by destruct (N (Hdis _ _ _ _ _ Ht Hp Hid Hi)). }
  split; cbn [psq adds thr].
  - done.
  - rewrite Hq. destruct Hids as [Hids|E]; [left; by apply increasing_remove|right; by rewrite E].
  - intros t' p' id' Hp Hi. apply lookup_insert_Some in Hp as [[<- <-]|[N Hp]]; [done|].
    rewrite Hq. apply remove_first_elem; eauto.
  - intros t1 p1 t2 p2 id' H1 H2 I1 I2.
    apply lookup_insert_Some in H1 as [[<- <-]|[N1 H1]]; [done|].
    apply lookup_insert_Some in H2 as [[<- <-]|[N2 H2]]; [done|]. eauto.
  - intros t' id' H'. apply lookup_insert_Some in H' as [[_ ?]|[N H']]; [done|].
    rewrite Hq. apply remove_first_head; [eauto|]. by eapply Hother.
Qed.

Lemma ps_inv_step s s' : ps_inv s → ps_step s s' → (adds s' ≤ 256)%nat → ps_inv s'.
Proof.
  intros HI Hs Hadds. destruct Hs as [t id turn q' s Ht He|t id r s Ht Hw|t id r q' s Ht Hw|t id q' s Ht Hl|t id s Ht Hl].
  - cbn [adds] in Hadds. destruct (queue_len (psq s) =? 0)%nat eqn:E.
    + (* the counter restarts *)
      assert (HI' : ps_inv (PsState (psq s) 0 (thr s))).
      { destruct HI as [Hwf _ Hmem Hdis Hturn]. split; try done. right.
        apply Nat.eqb_eq in E. rewrite <- qlist_length in E. by apply nil_length_inv. }
      pose proof (inv_enter _ t id turn q' HI') as H. cbn [psq adds thr] in H. rewrite E in H.
      apply H; [lia|done|done].
    + pose proof (inv_enter _ t id turn q' HI) as H. rewrite E in H. apply H; [lia|done|done].
  - assert (Hh : ps_head (psq s) = id).
    { unfold nc_ps_lock_wake in Hw. destruct r; try destruct (Z.eqb_spec (ps_head (psq s)) id); done. }
    destruct HI as [Hwf Hids Hmem Hdis Hturn]. split; cbn [psq adds thr]; try done.
    + intros t' p id' Hp Hi. apply lookup_insert_Some in Hp as [[<- <-]|[_ Hp]]; eauto.
    + intros t1 p1 t2 p2 id' H1 H2 I1 I2.
      apply lookup_insert_Some in H1 as [[<- <-]|[N1 H1]], H2 as [[<- <-]|[N2 H2]]; eauto.
    + intros t' id' H'. apply lookup_insert_Some in H' as [[<- E]|[N H']]; [|eauto]. injection E as <-.
      rewrite qlist_head; [by rewrite Hh|done|]. eapply elem_qlist_len, (Hmem t); done.
  - assert (q' = default (psq s) (nc_ps_queue_remove_id (psq s) id)) as ->.
    { unfold nc_ps_lock_wake in Hw. destruct r; try destruct (ps_head (psq s) =? id); congruence. }
    by eapply inv_remove.
  - unfold nc_ps_unlock_leave in Hl. destruct (ps_head (psq s) =? id); [|done].
    injection Hl as <-. by eapply inv_remove.
  - exfalso. destruct HI as [Hwf Hids Hmem Hdis Hturn]. pose proof (Hturn _ _ Ht) as Hh.
    rewrite qlist_head in Hh; [|done|eapply elem_qlist_len, (Hmem t); done].
    injection Hh as Hh. unfold nc_ps_unlock_leave in Hl. by rewrite Hh, Z.eqb_refl in Hl.
Qed.

Lemma ps_inv_run s : ps_run (Some 256%nat) s → ps_inv s.
Proof.
  induction 1 as [s (Hwf & Hlen & Hp)|s s' Hr IH Hs Hn].
  - split; [done| | | |].
    + right. rewrite <- qlist_length in Hlen. by apply nil_length_inv.
    + intros t p id H Hi. apply Hp in H. by subst.
    + intros t1 p1 t2 p2 id H _ Hi. apply Hp in H. by subst.
    + intros t id H. by apply Hp in H.
  - by eapply ps_inv_step; [| |apply Hn].
Qed.

(** ** Theorems *)

(** C17: The ring buffer of a pollsession is a list: adding a number appends the number
    after the last one (modulo 256, 0 for an empty queue), removing one takes its
    first occurrence out, wherever it is and wherever the ring starts, and fails
    exactly when it is not there.  The ring stays well-formed. *)
Theorem ps_queue_refines_list q v :
  ps_queue_wf q →
  (match nc_ps_queue_add_id q with
   | None => length (qlist q) = NC_PS_QUEUE_SIZE
   | Some (id, q') => id = next_id (qlist q) ∧ qlist q' = qlist q ++ [id] ∧ ps_queue_wf q'
   end) ∧
  (match nc_ps_queue_remove_id q v with
   | None => v ∉ qlist q
   | Some q' => v ∈ qlist q ∧ qlist q' = remove_first v (qlist q) ∧ ps_queue_wf q'
   end).
Proof.
  intros Hw. split; [|by apply remove_id_refines].
  destruct (decide (queue_len q = NC_PS_QUEUE_SIZE)) as [E|E].
  - rewrite add_id_full by done. by rewrite qlist_length.
  - destruct (add_id_refines q Hw) as (q' & -> & H1 & H2); [destruct Hw as (_ & _ & ?); lia|done].
Qed.

Definition demo_ring : ps_queue := PsQueue [7; 8; 0; 0; 5; 6] 4 4.

Lemma ps_queue_refines_list_witness :
  qlist demo_ring = [5; 6; 7; 8] ∧
  match nc_ps_queue_remove_id demo_ring 6 with
  | None => False
  | Some q' => qlist q' = [5; 7; 8]
  end.
Proof.
  split; [reflexivity|].
  assert (Hw : ps_queue_wf demo_ring) by (unfold ps_queue_wf, NC_PS_QUEUE_SIZE; simpl; lia).
  destruct (ps_queue_refines_list demo_ring 6 Hw) as [_ H].
  destruct (nc_ps_queue_remove_id demo_ring 6) as [q'|] eqn:E.
  - destruct H as (_ & H & _). rewrite H. reflexivity.
  - vm_compute in E. discriminate.
Defined.


Definition ring0 : ps_queue := PsQueue [0; 0; 0; 0; 0; 0] 0 0.
Definition threads3 : gmap nat ps_pc := {[0%nat := PIdle; 1%nat := PIdle; 2%nat := PIdle]}.
Definition start3 : ps_state := PsState ring0 0 threads3.

Lemma start3_initial : ps_initial start3.
Proof.
  split; [unfold ps_queue_wf, NC_PS_QUEUE_SIZE; simpl; lia|]. split; [done|]. intros t p H.
  unfold start3, threads3 in H. cbn [thr] in H.
  repeat (apply lookup_insert_Some in H as [[_ <-]|[_ H]]; [done|]). 
  by apply lookup_singleton_Some in H as [_ <-].
Qed.

(** Thread 0 owns the pollsession, thread 1 waits. *)
Definition two_in : ps_state :=
  PsState (PsQueue [0; 1; 0; 0; 0; 0] 0 2) 2 (<[1%nat := PWait 1]> (<[0%nat := POwner 0]> threads3)).

Lemma two_in_run n : (∀ m, n = Some m → (2 ≤ m)%nat) → ps_run n two_in.
Proof.
  intros Hn. eapply PR_step with (s := PsState (PsQueue [0; 0; 0; 0; 0; 0] 0 1) 1 (<[0%nat := POwner 0]> threads3)).
  - eapply PR_step; [apply PR_init, start3_initial| |].
    + by eapply (P_enter 0 0 true _ start3).
    + intros m E. simpl. specialize (Hn m E). lia.
  - by eapply (P_enter 1 1 false).
  - intros m E. simpl. apply Hn, E.
Qed.


(** ** Running out of numbers *)

(** One more waiter arrives before the one before it gives up. *)
Lemma churn q n ths k a b :
  ps_run None (PsState q n ths) → ps_queue_wf q → qlist q = [0; k] → 0 < k < 255 → a ≠ b →
  ths !! a = Some (PWait k) → ths !! b = Some PIdle →
  ∃ q' n', ps_run None (PsState q' n' (<[a := PIdle]> (<[b := PWait (k + 1)]> ths))) ∧
    ps_queue_wf q' ∧ qlist q' = [0; k + 1].
Proof.
  intros Hr Hw Hq Hk Hab Ha Hb.
  assert (Hl : queue_len q = 2%nat) by (rewrite <- qlist_length, Hq; done).
  destruct (add_id_refines q Hw) as (q1 & E1 & Hq1 & Hw1); [rewrite Hl; unfold NC_PS_QUEUE_SIZE; lia|].
  assert (Hn : next_id (qlist q) = k + 1).
  { rewrite Hq. unfold next_id. simpl. apply u8_small. lia. }
  rewrite Hn, Hq in Hq1. cbn [app] in Hq1. rewrite Hn in E1.
  assert (Hl1 : queue_len q1 = 3%nat) by (rewrite <- qlist_length, Hq1; done).
  assert (Hh1 : ps_head q1 = 0).
  { pose proof (qlist_head q1 Hw1 ltac:(lia)) as H. rewrite Hq1 in H. by injection H. }
  pose proof (remove_id_refines q1 k Hw1) as Hrm.
  destruct (nc_ps_queue_remove_id q1 k) as [q2|] eqn:E2.
  2: { exfalso. apply Hrm. rewrite Hq1. right. by left. }
  destruct Hrm as (_ & Hq2 & Hw2). rewrite Hq1 in Hq2. cbn [remove_first] in Hq2.
  rewrite (proj2 (Z.eqb_neq 0 k)) in Hq2 by lia. rewrite Z.eqb_refl in Hq2.
  eexists q2, _. split; [|done].
  eapply PR_step; [eapply PR_step; [exact Hr| |done]| |done].
  - apply (P_enter b (k + 1) false q1); [exact Hb|]. unfold nc_ps_lock_enter. cbn [psq].
    rewrite Hl, E1. change (2 =? NC_PS_QUEUE_SIZE)%nat with false. cbv iota beta.
    by rewrite Hh1, (proj2 (Z.eqb_neq 0 (k + 1))) by lia.
  - cbn [psq adds thr]. apply (P_give_up a k WaitTimedout q2); cbn [thr psq].
    + by rewrite lookup_insert_ne.
    + unfold nc_ps_lock_wake. by rewrite Hh1, E2, (proj2 (Z.eqb_neq 0 k)) by lia.
Qed.

Lemma churn_to (j : nat) : (j < 255)%nat →
  ∃ q n ths a b, ps_run None (PsState q n ths) ∧ ps_queue_wf q ∧ qlist q = [0; Z.of_nat j + 1] ∧
    a ≠ b ∧ a ≠ 0%nat ∧ b ≠ 0%nat ∧ ths !! a = Some (PWait (Z.of_nat j + 1)) ∧ ths !! b = Some PIdle ∧
    ths !! 0%nat = Some (POwner 0).
Proof.
  induction j as [|j IH]; intros Hj.
  - eexists _, _, _, 1%nat, 2%nat. split; [apply (two_in_run None); done|].
    split; [unfold ps_queue_wf, NC_PS_QUEUE_SIZE; simpl; lia|]. repeat split; done.
  - destruct IH as (q & n & ths & a & b & Hr & Hw & Hq & Hab & Ha0 & Hb0 & Ha & Hb & H0); [lia|].
    destruct (churn q n ths _ a b Hr Hw Hq) as (q' & n' & Hr' & Hw' & Hq'); [lia|done|done|done|].
    replace (Z.of_nat (S j) + 1) with (Z.of_nat j + 1 + 1) by lia.
    eexists q', n', _, b, a. split; [exact Hr'|]. split; [done|]. split; [done|].
    split; [done|]. split; [done|]. split; [done|].
    split; [by rewrite lookup_insert_ne, lookup_insert_eq by done|].
    split; [by rewrite lookup_insert_eq|]. by rewrite !lookup_insert_ne by done.
Qed.

(** The numbers of a pollsession run out: while one thread keeps the pollsession
    and 255 others queue up and give up, each before the previous one has given up,
    the 8-bit number of the next thread is that of the owner, and [nc_ps_lock] lets
    both in. *)
Theorem ps_numbers_wrap :
  ∃ s t1 t2 i1 i2, ps_run None s ∧ t1 ≠ t2 ∧
    thr s !! t1 = Some (POwner i1) ∧ thr s !! t2 = Some (POwner i2).
Proof.
  destruct (churn_to 254) as (q & n & ths & a & b & Hr & Hw & Hq & Hab & Ha0 & Hb0 & Ha & Hb & H0); [lia|].
  assert (Hl : queue_len q = 2%nat) by (rewrite <- qlist_length, Hq; done).
  destruct (add_id_refines q Hw) as (q1 & E1 & Hq1 & Hw1); [rewrite Hl; unfold NC_PS_QUEUE_SIZE; lia|].
  assert (Hn : next_id (qlist q) = 0) by (rewrite Hq; reflexivity).
  rewrite Hn, Hq in Hq1. cbn [app] in Hq1. rewrite Hn in E1.
  assert (Hl1 : queue_len q1 = 3%nat) by (rewrite <- qlist_length, Hq1; done).
  assert (Hh1 : ps_head q1 = 0).
  { pose proof (qlist_head q1 Hw1 ltac:(lia)) as H. rewrite Hq1 in H. by injection H. }
  eexists _, 0%nat, b, 0, 0. split.
  - eapply PR_step; [exact Hr|apply (P_enter b 0 true q1); [exact Hb|]|done].
    unfold nc_ps_lock_enter. cbn [psq]. rewrite Hl, E1, Hh1. done.
  - split; [done|]. cbn [thr]. rewrite lookup_insert_ne, lookup_insert_eq by done. done.
Qed.
