(* ===== verification/PollSession.v ===== *)
(** * Polling sessions

    src/session_server.c: the server side of a session's life between handshake
    and termination.  A pollsession ([struct nc_pollsession]) holds entries that
    point to sessions; [nc_ps_poll] takes the next session with an event, reads an
    RPC, calls the callback of the application, and replies.  Sessions live in a
    store indexed by their address, each with the environment of its transport.
    Other threads are seen through the queue of the pollsession and through the
    RPC locks they hold. *)

From S2P Require Import Prelude Session Env Time Locks IoRead IoWrite Capabilities PsQueue.
From Stdlib Require Import ZArith Ascii String Lia.
From stdpp Require Import base list strings gmap numbers.
Open Scope Z_scope.

(** ** Session options *)

Definition term_reason_value (r : NC_SESSION_TERM_REASON) : Z :=
  match r with
  | NC_SESSION_TERM_ERR => -1
  | NC_SESSION_TERM_NONE => 0
  | NC_SESSION_TERM_CLOSED => 1
  | NC_SESSION_TERM_KILLED => 2
  | NC_SESSION_TERM_DROPPED => 3
  | NC_SESSION_TERM_TIMEOUT => 4
  | NC_SESSION_TERM_BADHELLO => 5
  | NC_SESSION_TERM_OTHER => 6
  end.

Definition nc_session_set_term_reason (reason : NC_SESSION_TERM_REASON) (s : nc_session) : nc_session :=
  if term_reason_value reason =? 0 then s
  else
    let s := if negb (bool_decide (reason = NC_SESSION_TERM_KILLED)) &&
                bool_decide (term_reason s = NC_SESSION_TERM_KILLED)
             then set_killed_by 0 s else s in
    set_term_reason reason s.

Definition nc_session_set_killed_by (sid : Z) (s : nc_session) : nc_session :=
  if negb (bool_decide (term_reason s = NC_SESSION_TERM_KILLED)) then s
  else if sid =? 0 then s else set_killed_by sid s.

Definition nc_session_inc_notif_status (s : nc_session) : nc_session :=
  if negb (bool_decide (side s = NC_SERVER)) then s
  else set_ntf_status (u32 (ntf_status (server s) + 1)) s.

Definition nc_session_dec_notif_status (s : nc_session) : nc_session :=
  if negb (bool_decide (side s = NC_SERVER)) then s
  else if ntf_status (server s) =? 0 then s
  else set_ntf_status (ntf_status (server s) - 1) s.

Definition nc_session_get_notif_status (s : nc_session) : Z :=
  if negb (bool_decide (side s = NC_SERVER)) then 0 else i32 (ntf_status (server s)).

Definition nc_session_is_callhome (s : nc_session) : bool :=
  if negb (bool_decide (side s = NC_SERVER)) then false
  else negb (Z.land (flags s) NC_SESSION_CALLHOME =? 0).

(** ** Results of polling *)

Definition NC_PSPOLL_NOSESSIONS : Z := 0x0001.
Definition NC_PSPOLL_TIMEOUT : Z := 0x0002.
Definition NC_PSPOLL_RPC : Z := 0x0004.
Definition NC_PSPOLL_BAD_RPC : Z := 0x0008.
Definition NC_PSPOLL_REPLY_ERROR : Z := 0x0010.
Definition NC_PSPOLL_SESSION_TERM : Z := 0x0020.
Definition NC_PSPOLL_SESSION_ERROR : Z := 0x0040.
Definition NC_PSPOLL_ERROR : Z := 0x0080.
Definition NC_PSPOLL_SSH_MSG : Z := 0x0100.
Definition NC_PSPOLL_SSH_CHANNEL : Z := 0x0200.

Definition TERM_ERROR : Z := Z.lor NC_PSPOLL_SESSION_TERM NC_PSPOLL_SESSION_ERROR.

Definition NC_SESSION_LOCK_TIMEOUT : Z := 500.
Definition NC_PS_LOCK_TIMEOUT : Z := 200.
Definition NC_PS_QUEUE_TIMEOUT : Z := 5000.

(** ** The data *)

Inductive nc_ps_session_state := NC_PS_STATE_NONE | NC_PS_STATE_BUSY | NC_PS_STATE_INVALID.

#[export] Instance nc_ps_session_state_eq : EqDecision nc_ps_session_state.
Proof. solve_decision. Defined.

Record nc_ps_session := NcPsSession {
  pe_session : positive;
  pe_state : nc_ps_session_state;
}.

(** [sessions] is [None] for a [NULL] array. *)
Record nc_pollsession := NcPollsession {
  sessions : option (list nc_ps_session);
  session_count : Z;
  last_event_session : Z;
  ps_ring : ps_queue;
}.

Section poll.
Context {W : Type} `{!Env W}.

(** The pollsession, the sessions with their transports, and the environment of
    the calling thread. *)
Record ps_world := PsWorld {
  pw_ps : nc_pollsession;
  pw_store : gmap positive (nc_session * W);
  pw_glob : W;
}.

Definition PM := M ps_world.

Definition ps_get : PM nc_pollsession := gets pw_ps.
Definition ps_upd (f : nc_pollsession → nc_pollsession) : PM unit :=
  modify (λ x, PsWorld (f (pw_ps x)) (pw_store x) (pw_glob x)).

(** A computation in the environment of the thread. *)
Definition glob {A} (m : M W A) : PM A := λ x,
  match m (pw_glob x) with
  | Done (a, w) => Done (a, PsWorld (pw_ps x) (pw_store x) w)
  | NoFuel => NoFuel
  | Crash => Crash
  end.

(** A computation on the session at an address. *)
Definition on_session {A} (p : positive) (m : SM W A) : PM A := λ x,
  match pw_store x !! p with
  | None => Crash
  | Some sw =>
    match m sw with
    | Done (a, sw) => Done (a, PsWorld (pw_ps x) (<[p := sw]> (pw_store x)) (pw_glob x))
    | NoFuel => NoFuel
    | Crash => Crash
    end
  end.

Definition set_queue (q : ps_queue) (ps : nc_pollsession) : nc_pollsession :=
  NcPollsession (sessions ps) (session_count ps) (last_event_session ps) q.
Definition set_sessions (l : option (list nc_ps_session)) (n : Z) (ps : nc_pollsession) : nc_pollsession :=
  NcPollsession l n (last_event_session ps) (ps_ring ps).
Definition set_last_event (i : Z) (ps : nc_pollsession) : nc_pollsession :=
  NcPollsession (sessions ps) (session_count ps) i (ps_ring ps).

(** ** The lock of a pollsession *)

(** Waiting for one's turn; the calling thread sees the queue as it is. *)
Fixpoint nc_ps_wait (fuel : nat) (id : Z) : PM Z :=
  match fuel with
  | O => no_fuel
  | S fuel =>
    ts ← glob (nc_gettimespec_real_add NC_PS_QUEUE_TIMEOUT);
    r ← glob (call (cond_timedwait L_ps ts));
    ps ← ps_get;
    match nc_ps_lock_wake (if r =? 0 then WaitOk else if r =? ETIMEDOUT then WaitTimedout else WaitError)
            (ps_ring ps) id with
    | MyTurn => _ ← glob (call (mutex_unlock L_ps)); mret 0
    | Again => nc_ps_wait fuel id
    | GiveUp q =>
      _ ← ps_upd (set_queue q);
      _ ← glob (call (mutex_unlock L_ps));
      mret (-1)
    end
  end.

(** Returns 0 and the number, or -1. *)
Definition nc_ps_lock (fuel : nat) : PM (Z * Z) :=
  ts ← glob (nc_gettimespec_real_add NC_PS_LOCK_TIMEOUT);
  r ← glob (call (mutex_timedlock L_ps ts));
  if negb (r =? 0) then mret (-1, 0)
  else
    ps ← ps_get;
    match nc_ps_lock_enter (ps_ring ps) with
    | None => _ ← glob (call (mutex_unlock L_ps)); mret (-1, 0)
    | Some (id, turn, q) =>
      _ ← ps_upd (set_queue q);
      if turn : bool then _ ← glob (call (mutex_unlock L_ps)); mret (0, id)
      else ret ← nc_ps_wait fuel id; mret (ret, id)
    end.

Definition nc_ps_unlock (id : Z) : PM Z :=
  ts ← glob (nc_gettimespec_real_add NC_PS_LOCK_TIMEOUT);
  r ← glob (call (mutex_timedlock L_ps ts));
  let ret := if r =? 0 then 0 else -1 in
  ps ← ps_get;
  match nc_ps_unlock_leave (ps_ring ps) id with
  | None =>
    _ ← (if ret =? 0 then glob (call (mutex_unlock L_ps)) else mret 0);
    mret (-1)
  | Some q =>
    _ ← ps_upd (set_queue q);
    _ ← (if ret =? 0 then glob (call (mutex_unlock L_ps)) else mret 0);
    mret ret
  end.

(** ** The entries *)

Definition nc_ps_new : M W (option nc_pollsession) :=
  ok ← call (malloc_ok 1);
  mret (if ok : bool then Some (NcPollsession None 0 0 (PsQueue (repeat 0 NC_PS_QUEUE_SIZE) 0 0)) else None).

(** The array must have room for the new entry at the index of the old count: a
    count that wrapped around, or entries lost by an earlier failure, are
    undefined behaviour. *)
Definition nc_ps_add_session (fuel : nat) (session : positive) : PM Z :=
  '(r, q_id) ← nc_ps_lock fuel;
  if negb (r =? 0) then mret (-1)
  else
    ps ← ps_get;
    let count := u16 (session_count ps + 1) in
    ok ← glob (call (malloc_ok (count * 8)));
    if negb ok then
      _ ← ps_upd (set_sessions None count);
      _ ← nc_ps_unlock q_id;
      mret (-1)
    else
      ok ← glob (call (malloc_ok 16));
      if negb ok then
        _ ← ps_upd (set_sessions (Some (default [] (sessions ps))) (u16 (count - 1)));
        _ ← nc_ps_unlock q_id;
        mret (-1)
      else
        _ ← guarded (zlen (default [] (sessions ps)) =? count - 1);
        _ ← ps_upd (set_sessions
              (Some (default [] (sessions ps) ++ [NcPsSession session NC_PS_STATE_NONE])) count);
        nc_ps_unlock q_id.

(** The [remove:] part for index [i]. *)
Definition ps_remove_at (i : Z) (ps : nc_pollsession) : option nc_pollsession :=
  let count := u16 (session_count ps - 1) in
  match sessions ps with
  | None => None
  | Some l =>
    match l !! Z.to_nat count with
    | None => None
    | Some e =>
      let l := if i <=? count then <[Z.to_nat i := e]> l else l in
      Some (NcPollsession (if count =? 0 then None else Some (ztake count l)) count 0 (ps_ring ps))
    end
  end.

Fixpoint index_of (session : positive) (l : list nc_ps_session) (i : Z) : option Z :=
  match l with
  | [] => None
  | e :: l => if decide (pe_session e = session) then Some i else index_of session l (i + 1)
  end.

(** [_nc_ps_del_session(ps, session, -1)]: 0 and the new state, or -1; an access
    through a [NULL] array crashes. *)
Definition _nc_ps_del_session (session : positive) : PM Z :=
  ps ← ps_get;
  match sessions ps with
  | None => if 0 <? session_count ps then crash else mret (-1)
  | Some l =>
    match index_of session (ztake (session_count ps) l) 0 with
    | None => mret (-1)
    | Some i =>
      match ps_remove_at i ps with
      | None => crash
      | Some ps => _ ← ps_upd (λ _, ps); mret 0
      end
    end
  end.

(** [_nc_ps_del_session(ps, NULL, index)]. *)
Definition _nc_ps_del_index (i : Z) : PM Z :=
  ps ← ps_get;
  match ps_remove_at i ps with
  | None => crash
  | Some ps => _ ← ps_upd (λ _, ps); mret 0
  end.

Definition nc_ps_del_session (fuel : nat) (session : positive) : PM Z :=
  '(r, q_id) ← nc_ps_lock fuel;
  if negb (r =? 0) then mret (-1)
  else
    ret ← _nc_ps_del_session session;
    ret2 ← nc_ps_unlock q_id;
    mret (if negb (ret =? 0) || negb (ret2 =? 0) then -1 else 0).

(** The entry at an index below the count. *)
Definition ps_entry (i : Z) : PM nc_ps_session :=
  ps ← ps_get;
  match sessions ps ≫= λ l, l !! Z.to_nat i with
  | None => crash
  | Some e => mret e
  end.

Definition nc_ps_get_session (fuel : nat) (idx : Z) : PM (option positive) :=
  '(r, q_id) ← nc_ps_lock fuel;
  if negb (r =? 0) then mret None
  else
    ps ← ps_get;
    ret ← (if idx <? session_count ps then e ← ps_entry idx; mret (Some (pe_session e)) else mret None);
    _ ← nc_ps_unlock q_id;
    mret ret.

(** [match_cb] is a callback of the application. *)
Fixpoint find_session (n : nat) (i : Z) (match_cb : positive → bool) : PM (option positive) :=
  match n with
  | O => mret None
  | S n =>
    e ← ps_entry i;
    if match_cb (pe_session e) then mret (Some (pe_session e)) else find_session n (i + 1) match_cb
  end.

Definition nc_ps_find_session (fuel : nat) (match_cb : positive → bool) : PM (option positive) :=
  '(r, q_id) ← nc_ps_lock fuel;
  if negb (r =? 0) then mret None
  else
    ps ← ps_get;
    ret ← find_session (Z.to_nat (session_count ps)) 0 match_cb;
    _ ← nc_ps_unlock q_id;
    mret ret.

Definition nc_ps_session_count (fuel : nat) : PM Z :=
  '(r, q_id) ← nc_ps_lock fuel;
  if negb (r =? 0) then mret 0
  else
    ps ← ps_get;
    _ ← nc_ps_unlock q_id;
    mret (session_count ps).

(** ** The RPC lock, from one thread *)

(** [nc_session_rpc_lock(session, 0)]. *)
Definition nc_session_rpc_trylock : SM W Z :=
  s ← ses;
  if negb (bool_decide (side s = NC_SERVER)) then mret (-1)
  else
    ret ← envcall (mutex_trylock L_rpc);
    if negb (ret =? 0) then mret (if (ret =? EBUSY) || (ret =? ETIMEDOUT) then 0 else -1)
    else if rpc_inuse (server s) then _ ← envcall (mutex_unlock L_rpc); mret 0
    else
      _ ← upd_ses (set_rpc_inuse true);
      ret ← envcall (mutex_unlock L_rpc);
      mret (if ret =? 0 then 1 else -1).

(** [nc_session_rpc_unlock] with a positive timeout. *)
Definition nc_session_rpc_unlock (timeout : Z) : SM W Z :=
  s ← ses;
  if negb (bool_decide (side s = NC_SERVER)) then mret (-1)
  else
    _ ← guarded (rpc_inuse (server s));
    ts ← env (nc_gettimespec_real_add timeout);
    ret ← envcall (mutex_timedlock L_rpc ts);
    if negb (ret =? 0) && negb (ret =? EBUSY) && negb (ret =? ETIMEDOUT) then mret (-1)
    else
      _ ← upd_ses (set_rpc_inuse false);
      if ret =? 0 then
        ret ← envcall (mutex_unlock L_rpc);
        mret (if ret =? 0 then 1 else -1)
      else mret 1.
End poll.
Arguments ps_world W : clear implicits.
Arguments PM W A : clear implicits.

(** ** Receiving an RPC and replying *)

(** The result of [lyd_parse_op]: the envelopes and the operation, or a failure
    with the envelopes if these were parsed. *)
Inductive parse_op_result (node envelope : Type) :=
| ParsedOp (envp : envelope) (op : node)
| ParseFailed (envp : option envelope).
Arguments ParsedOp {node envelope} envp op.
Arguments ParseFailed {node envelope} envp.

(** Errors the server replies with itself. *)
Inductive server_err :=
| ERR_MALFORMED_MSG
| ERR_MISSING_ATTR (attr elem : string)
| ERR_OP_FAILED (msg : bool)
| ERR_OP_NOT_SUPPORTED.

(** libyang and the application, as the server sees them: parsing an operation,
    the attribute names of an envelope, the action or RPC of an operation, its
    callback if one is set, the global callback, and building an error. *)
Class RpcEnv (W node envelope : Type) := {
  lyd_parse_op : bytes → W → parse_op_result node envelope * W;
  envp_attrs : envelope → list bytes;
  rpc_has_act : node → bool;
  rpc_clb : node → option (node → nc_session * W → option (nc_server_reply node) * (nc_session * W));
  global_rpc_clb : option (node → nc_session * W → option (nc_server_reply node) * (nc_session * W));
  nc_err_node : server_err → node;
}.

Section serve.
Context {W node envelope : Type} `{!Env W, !Printer node envelope, !RpcEnv W node envelope}.

Definition recv_rpc_check_msgid (envp : envelope) : NC_MSG_TYPE :=
  if existsb (λ a, strcmp_eq a (str "message-id")) (envp_attrs envp) then NC_MSG_RPC
  else NC_MSG_REPLY_ERR_MSGID.

(** The [cleanup:] part with a reply to send. *)
Definition send_error_reply (fuel : nat) (io_timeout : Z) (envp : option envelope)
    (err : server_err) : SM W unit :=
  r ← nc_write_msg_io fuel io_timeout (OutReply (node:=node) envp (ReplyError (nc_err_node err)));
  if negb (bool_decide (r = NC_MSG_REPLY)) then
    s ← ses;
    if negb (bool_decide (status s = NC_STATUS_INVALID))
    then upd_ses (invalidate NC_SESSION_TERM_OTHER) else mret tt
  else mret tt.

(** The result and, with [NC_PSPOLL_RPC], the envelope and the operation. *)
Definition nc_server_recv_rpc_io (fuel : nat) (io_timeout : Z) : SM W (Z * option (envelope * node)) :=
  s ← ses;
  if negb (bool_decide (status s = NC_STATUS_RUNNING)) || negb (bool_decide (side s = NC_SERVER))
  then mret (NC_PSPOLL_ERROR, None)
  else
    '(r, msg) ← nc_read_msg_io fuel io_timeout false;
    if r =? -2 then
      _ ← send_error_reply fuel io_timeout None ERR_MALFORMED_MSG;
      mret (NC_PSPOLL_BAD_RPC, None)
    else if r =? -1 then mret (NC_PSPOLL_ERROR, None)
    else if r =? 0 then mret (NC_PSPOLL_TIMEOUT, None)
    else
      match msg with
      | None => crash
      | Some msg =>
        ok ← envcall (malloc_ok 16);
        if negb ok then mret (NC_PSPOLL_BAD_RPC, None)
        else
          p ← envcall (lyd_parse_op msg);
          match p with
          | ParsedOp envp op =>
            if bool_decide (recv_rpc_check_msgid envp = NC_MSG_RPC)
            then mret (NC_PSPOLL_RPC, Some (envp, op))
            else
              _ ← send_error_reply fuel io_timeout (Some envp) (ERR_MISSING_ATTR "message-id" "rpc");
              mret (NC_PSPOLL_BAD_RPC, None)
          | ParseFailed (Some envp) =>
            _ ← send_error_reply fuel io_timeout (Some envp) (ERR_OP_FAILED true);
            mret (NC_PSPOLL_BAD_RPC, None)
          | ParseFailed None =>
            s ← ses;
            _ ← match version s with
                | NC_VERSION_11 => send_error_reply fuel io_timeout None ERR_MALFORMED_MSG
                | NC_VERSION_10 => mret tt
                end;
            mret (NC_PSPOLL_BAD_RPC, None)
          end
      end.

(** Running a callback of the application on the session. *)
Definition run_clb (f : node → nc_session * W → option (nc_server_reply node) * (nc_session * W))
    (op : node) : SM W (option (nc_server_reply node)) := λ sw, Done (f op sw).

Definition reply_is_error (r : nc_server_reply node) : bool :=
  match r with ReplyError _ => true | _ => false end.

Definition nc_server_send_reply_io (fuel : nat) (io_timeout : Z) (rpc : option (envelope * node)) : SM W Z :=
  match rpc with
  | None => mret NC_PSPOLL_ERROR
  | Some (envp, op) =>
    if negb (rpc_has_act op) then mret NC_PSPOLL_ERROR
    else
      reply ←
        match rpc_clb op with
        | Some f => run_clb f op
        | None =>
          match global_rpc_clb with
          | None => mret (Some (ReplyError (nc_err_node ERR_OP_NOT_SUPPORTED)))
          | Some f => run_clb f op
          end
        end;
      let reply := default (ReplyError (nc_err_node (ERR_OP_FAILED false))) reply in
      r ← nc_write_msg_io fuel io_timeout (OutReply (Some envp) reply);
      let ret := if reply_is_error reply then NC_PSPOLL_REPLY_ERROR else 0 in
      let ret := if bool_decide (r = NC_MSG_REPLY) then ret else Z.lor ret NC_PSPOLL_ERROR in
      s ← ses;
      _ ← (if bool_decide (status s = NC_STATUS_RUNNING) &&
              negb (bool_decide (term_reason s = NC_SESSION_TERM_NONE))
           then upd_ses (set_status NC_STATUS_INVALID) else mret tt);
      mret ret
  end.

(** [nc_server_notif_send] for a notification with its time. *)
Definition nc_server_notif_send (fuel : nat) (timeout : Z) (eventtime : bytes) (ntf : node)
    : SM W NC_MSG_TYPE :=
  s ← ses;
  if negb (bool_decide (side s = NC_SERVER)) || (nc_session_get_notif_status s =? 0) then mret NC_MSG_ERROR
  else nc_write_msg_io fuel timeout (OutNotif (envelope:=envelope) eventtime ntf).
End serve.

(** ** Polling one session *)

Section poll_io.
Context {W : Type} `{!Env W}.

Definition poll_fail (reason : NC_SESSION_TERM_REASON) : SM W Z :=
  _ ← upd_ses (invalidate reason); mret TERM_ERROR.

(** The result of [poll] on a descriptor. *)
Definition poll_fd_result (r : poll_result) : SM W Z :=
  match r with
  | PollEintr => mret NC_PSPOLL_TIMEOUT
  | PollErrno => _ ← upd_ses (set_status NC_STATUS_INVALID); mret NC_PSPOLL_ERROR
  | PollRet ret _ pollhup pollerr pollnval =>
    if 0 <? ret then
      if pollhup || pollnval then poll_fail NC_SESSION_TERM_DROPPED
      else if pollerr then poll_fail NC_SESSION_TERM_OTHER
      else mret NC_PSPOLL_RPC
    else mret NC_PSPOLL_TIMEOUT
  end.

(** The walk along the ring of NETCONF sessions of one SSH session, looking for
    a new channel. *)
Fixpoint find_new_channel (fuel : nat) (store : gmap positive (nc_session * W)) (self cur : positive)
    : outcome bool :=
  match fuel with
  | O => NoFuel
  | S fuel =>
    if decide (cur = self) then Done false
    else
      match store !! cur with
      | None => Crash
      | Some (s, _) =>
        match ti s with
        | TiLibssh channel next =>
          if bool_decide (status s = NC_STATUS_STARTING) && channel &&
             negb (Z.land (flags s) NC_SESSION_SSH_SUBSYS_NETCONF =? 0) then Done true
          else match next with Some next => find_new_channel fuel store self next | None => Crash end
        | _ => Crash
        end
      end
  end.

(** Nothing to read on an SSH channel: a message may have come on the SSH
    session. *)
Definition poll_ssh_msg (fuel : nat) (self : positive) : PM W Z := λ x,
  match pw_store x !! self with
  | None => Crash
  | Some (s, w) =>
    if Z.land (flags s) NC_SESSION_SSH_NEW_MSG =? 0 then Done (NC_PSPOLL_TIMEOUT, x)
    else
      let s := set_flags (Z.land (flags s) (Z.lnot NC_SESSION_SSH_NEW_MSG)) s in
      let x := PsWorld (pw_ps x) (<[self := (s, w)]> (pw_store x)) (pw_glob x) in
      match ti s with
      | TiLibssh _ (Some next) =>
        match find_new_channel fuel (pw_store x) self next with
        | Done true => Done (NC_PSPOLL_SSH_CHANNEL, x)
        | Done false => Done (NC_PSPOLL_SSH_MSG, x)
        | NoFuel => NoFuel
        | Crash => Crash
        end
      | _ => Done (NC_PSPOLL_SSH_MSG, x)
      end
  end.

(** The [switch] on the transport, with the IO lock held. *)
Definition poll_transport (fuel : nat) (self : positive) : PM W Z :=
  s ← on_session self ses;
  match ti s with
  | TiLibssh _ _ =>
    r ← on_session self (envcall (ssh_channel_poll_timeout 0));
    match r with
    | SshPollEof => on_session self (poll_fail NC_SESSION_TERM_DROPPED)
    | SshPollError => on_session self (poll_fail NC_SESSION_TERM_OTHER)
    | SshPollRet n => if n =? 0 then poll_ssh_msg fuel self else mret NC_PSPOLL_RPC
    end
  | TiOpenssl =>
    n ← on_session self (envcall ssl_pending);
    if n =? 0 then
      fd ← on_session self (envcall ssl_get_fd);
      if fd <? 0 then mret NC_PSPOLL_ERROR
      else
        r ← on_session self (envcall (sys_poll fd 0));
        on_session self (poll_fd_result r)
    else mret NC_PSPOLL_RPC
  | TiFd fd _ | TiUnix fd =>
    r ← on_session self (envcall (sys_poll fd 0));
    on_session self (poll_fd_result r)
  | TiNone => mret NC_PSPOLL_ERROR
  end.

Definition nc_ps_poll_session_io (fuel : nat) (idle_timeout : Z) (self : positive) (io_timeout now_mono : Z)
    : PM W Z :=
  s ← on_session self ses;
  if (Z.land (flags s) NC_SESSION_CALLHOME =? 0) && (nc_session_get_notif_status s =? 0) &&
     negb (idle_timeout =? 0) && (last_rpc (server s) + idle_timeout <=? now_mono)
  then on_session self (poll_fail NC_SESSION_TERM_TIMEOUT)
  else
    r ← on_session self (nc_session_io_lock io_timeout);
    if r <? 0 then mret NC_PSPOLL_ERROR
    else if r =? 0 then mret NC_PSPOLL_TIMEOUT
    else
      ret ← poll_transport fuel self;
      _ ← on_session self nc_session_io_unlock;
      mret ret.
End poll_io.

(** ** Polling all sessions *)

Section ps_poll.
Context {W node envelope : Type} `{!Env W, !Printer node envelope, !RpcEnv W node envelope}.
Context (idle_timeout : Z).

Definition set_entry_state (i : Z) (st : nc_ps_session_state) : PM W unit :=
  ps_upd (λ ps,
    match sessions ps with
    | None => ps
    | Some l =>
      set_sessions (Some (alter (λ e, NcPsSession (pe_session e) st) (Z.to_nat i) l)) (session_count ps) ps
    end).

(** One session, with its RPC lock held; the lock is kept only with
    [NC_PSPOLL_RPC]. *)
Definition poll_locked (fuel : nat) (i now_mono : Z) : PM W Z :=
  e ← ps_entry i;
  let p := pe_session e in
  ret ←
    match pe_state e with
    | NC_PS_STATE_NONE =>
      s ← on_session p ses;
      if bool_decide (status s = NC_STATUS_RUNNING) then
        _ ← set_entry_state i NC_PS_STATE_BUSY;
        ret ← nc_ps_poll_session_io fuel idle_timeout p NC_SESSION_LOCK_TIMEOUT now_mono;
        _ ← (if ret =? TERM_ERROR then set_entry_state i NC_PS_STATE_INVALID
             else if (ret =? NC_PSPOLL_ERROR) || (ret =? NC_PSPOLL_TIMEOUT) ||
                     (ret =? NC_PSPOLL_SSH_CHANNEL) || (ret =? NC_PSPOLL_SSH_MSG)
             then set_entry_state i NC_PS_STATE_NONE
             else mret tt);
        mret ret
      else
        _ ← set_entry_state i NC_PS_STATE_INVALID;
        mret (if bool_decide (term_reason s = NC_SESSION_TERM_CLOSED) then NC_PSPOLL_SESSION_TERM
              else TERM_ERROR)
    | NC_PS_STATE_BUSY => mret NC_PSPOLL_ERROR
    | NC_PS_STATE_INVALID => mret NC_PSPOLL_TIMEOUT
    end;
  _ ← (if negb (ret =? NC_PSPOLL_RPC)
       then _ ← on_session p (nc_session_rpc_unlock NC_SESSION_LOCK_TIMEOUT); mret tt else mret tt);
  mret ret.

Definition poll_entry (fuel : nat) (i now_mono : Z) : PM W Z :=
  e ← ps_entry i;
  r ← on_session (pe_session e) nc_session_rpc_trylock;
  if r =? -1 then mret NC_PSPOLL_ERROR
  else if r =? 1 then poll_locked fuel i now_mono
  else mret NC_PSPOLL_TIMEOUT.

Definition ps_next (count i : Z) : Z := if i =? count - 1 then 0 else i + 1.

(** The inner loop: from [i] around to [j], [n] entries left.  Returns the result
    and the index of the last entry. *)
Fixpoint poll_round (n fuel : nat) (count i now_mono : Z) : PM W (Z * Z) :=
  match n with
  | O => mret (NC_PSPOLL_TIMEOUT, i)
  | S n =>
    ret ← poll_entry fuel i now_mono;
    if negb (ret =? NC_PSPOLL_TIMEOUT) then mret (ret, i)
    else poll_round n fuel count (ps_next count i) now_mono
  end.

(** The outer loop. *)
Fixpoint poll_rounds (rounds fuel : nat) (timeout : Z) (ts_timeout : timespec) (now_mono : Z)
    : PM W (Z * Z) :=
  match rounds with
  | O => no_fuel
  | S rounds =>
    ps ← ps_get;
    let count := session_count ps in
    let i := if last_event_session ps =? count - 1 then 0 else last_event_session ps + 1 in
    '(ret, i) ← poll_round (Z.to_nat count) fuel count i now_mono;
    if ret =? NC_PSPOLL_TIMEOUT then
      _ ← glob (call (λ w, (tt, usleep NC_TIMEOUT_STEP w)));
      if -1 <? timeout then
        diff ← glob (nc_difftimespec_mono_cur ts_timeout);
        if diff <? 1 then mret (ret, i) else poll_rounds rounds fuel timeout ts_timeout now_mono
      else poll_rounds rounds fuel timeout ts_timeout now_mono
    else mret (ret, i)
  end.

(** The reading and the answering of an RPC, after the pollsession is unlocked. *)
Definition poll_serve (fuel : nat) (i timeout now_mono : Z) : PM W Z :=
  e ← ps_entry i;
  let p := pe_session e in
  '(ret, rpc) ← on_session p (nc_server_recv_rpc_io fuel timeout);
  ret ←
    (if negb (Z.land ret (Z.lor NC_PSPOLL_ERROR NC_PSPOLL_BAD_RPC) =? 0) then
       s ← on_session p ses;
       if negb (bool_decide (status s = NC_STATUS_RUNNING)) then
         _ ← set_entry_state i NC_PS_STATE_INVALID;
         mret (Z.lor ret TERM_ERROR)
       else _ ← set_entry_state i NC_PS_STATE_NONE; mret ret
     else
       _ ← on_session p (upd_ses (set_last_rpc now_mono));
       r ← on_session p (nc_server_send_reply_io fuel timeout rpc);
       let ret := Z.lor ret r in
       s ← on_session p ses;
       if negb (bool_decide (status s = NC_STATUS_RUNNING)) then
         _ ← set_entry_state i NC_PS_STATE_INVALID;
         let ret := Z.lor ret NC_PSPOLL_SESSION_TERM in
         mret (if Z.land (term_reason_value (term_reason s))
                    (Z.lor (term_reason_value NC_SESSION_TERM_CLOSED) (term_reason_value NC_SESSION_TERM_KILLED)) =? 0
               then Z.lor ret NC_PSPOLL_SESSION_ERROR else ret)
       else _ ← set_entry_state i NC_PS_STATE_NONE; mret ret);
  _ ← on_session p (nc_session_rpc_unlock NC_SESSION_LOCK_TIMEOUT);
  mret ret.

(** Results with which the session is returned. *)
Definition returns_session (ret : Z) : bool :=
  (ret =? NC_PSPOLL_RPC) || (ret =? NC_PSPOLL_SESSION_TERM) || (ret =? TERM_ERROR) ||
  (ret =? NC_PSPOLL_SSH_CHANNEL) || (ret =? NC_PSPOLL_SSH_MSG).

Definition nc_ps_poll (fuel : nat) (timeout : Z) : PM W (Z * option positive) :=
  '(r, q_id) ← nc_ps_lock fuel;
  if negb (r =? 0) then mret (NC_PSPOLL_ERROR, None)
  else
    ps ← ps_get;
    if session_count ps =? 0 then
      _ ← nc_ps_unlock q_id;
      mret (NC_PSPOLL_NOSESSIONS, None)
    else
      ts_cur ← glob (nc_gettimespec_mono_add 0);
      ts_timeout ← (if -1 <? timeout then glob (nc_gettimespec_mono_add timeout) else mret ts_cur);
      '(ret, i) ← poll_rounds fuel fuel timeout ts_timeout (tv_sec ts_cur);
      session ← (if returns_session ret then
                   e ← ps_entry i;
                   _ ← ps_upd (set_last_event i);
                   mret (Some (pe_session e))
                 else mret None);
      _ ← nc_ps_unlock q_id;
      if ret =? NC_PSPOLL_RPC then
        ret ← poll_serve fuel i timeout (tv_sec ts_cur);
        mret (ret, session)
      else mret (ret, session).

(** [nc_ps_clear(ps, 0, ...)]: the loop over the entries; [session_free] is
    [nc_session_free]. *)
Fixpoint clear_invalid (n : nat) (i : Z) (session_free : positive → PM W unit) : PM W unit :=
  match n with
  | O => mret tt
  | S n =>
    ps ← ps_get;
    if i <? session_count ps then
      e ← ps_entry i;
      s ← on_session (pe_session e) ses;
      if negb (bool_decide (status s = NC_STATUS_RUNNING)) then
        _ ← _nc_ps_del_index i;
        _ ← session_free (pe_session e);
        clear_invalid n i session_free
      else clear_invalid n (i + 1) session_free
    else mret tt
  end.

Fixpoint clear_all (n : nat) (i : Z) (session_free : positive → PM W unit) : PM W unit :=
  match n with
  | O => mret tt
  | S n =>
    e ← ps_entry i;
    _ ← session_free (pe_session e);
    clear_all n (i + 1) session_free
  end.

Definition nc_ps_clear (fuel : nat) (all : bool) (session_free : positive → PM W unit) : PM W unit :=
  '(r, q_id) ← nc_ps_lock fuel;
  if negb (r =? 0) then mret tt
  else
    ps ← ps_get;
    _ ← (if all then
           _ ← clear_all (Z.to_nat (session_count ps)) 0 session_free;
           ps_upd (λ ps, NcPollsession None 0 0 (ps_ring ps))
         else clear_invalid (Z.to_nat (session_count ps)) 0 session_free);
    _ ← nc_ps_unlock q_id;
    mret tt.
End ps_poll.
