(* ===== verification/PollProofs.v ===== *)
(** * Polling: the pollsession as a collection of sessions

    Rules for reasoning about the pollsession monad, and what the functions that
    maintain the entries do when nobody else uses the pollsession. *)

From S2P Require Import Prelude Session Env Time Locks Sim IoRead IoReadProofs.
From S2P Require Import Framing IoWrite IoWriteProofs IoTheorems Capabilities CapabilitiesProofs.
From S2P Require Import PsQueue PollSession.
From Stdlib Require Import ZArith Ascii String Lia.
From stdpp Require Import base list strings gmap numbers.
Open Scope Z_scope.

Lemma wpx_done {S A} F (m : M S A) (Q : A → S → Prop) s a s' : wpx F m Q s → m s = Done (a, s') → Q a s'.
Proof. unfold wpx. by intros H E; rewrite E in H. Qed.

Section rules.
Context {W : Type} `{!Env W}.
Implicit Types x : ps_world W.

Lemma wpx_ps_get F (Q : nc_pollsession → ps_world W → Prop) x : Q (pw_ps x) x → wpx F ps_get Q x.
Proof. done. Qed.

Lemma wpx_ps_upd F f (Q : unit → ps_world W → Prop) x :
  Q tt (PsWorld (f (pw_ps x)) (pw_store x) (pw_glob x)) → wpx F (ps_upd f) Q x.
Proof. done. Qed.

Lemma wpx_glob {A} F (m : M W A) (Q : A → ps_world W → Prop) x :
  wpx F m (λ a w, Q a (PsWorld (pw_ps x) (pw_store x) w)) (pw_glob x) → wpx F (glob m) Q x.
Proof. unfold wpx, glob. by destruct (m (pw_glob x)) as [[]| |]. Qed.

Lemma wpx_on_session {A} F p (m : SM W A) (Q : A → ps_world W → Prop) x sw :
  pw_store x !! p = Some sw →
  wpx F m (λ a sw, Q a (PsWorld (pw_ps x) (<[p := sw]> (pw_store x)) (pw_glob x))) sw →
  wpx F (on_session p m) Q x.
Proof. intros E. unfold wpx, on_session. rewrite E. by destruct (m sw) as [[]| |]. Qed.

Lemma wpx_session_read F p (Q : nc_session → ps_world W → Prop) x s w :
  pw_store x !! p = Some (s, w) → Q s x → wpx F (on_session p ses) Q x.
Proof.
  intros E HQ. eapply wpx_on_session; [exact E|]. apply wpx_ses. rewrite insert_id by done. by destruct x.
Qed.
End rules.

(** ** Nobody else uses the pollsession *)

Definition empty_ring (q : ps_queue) : Prop := ps_queue_wf q ∧ queue_len q = 0%nat.

(** The entries and their count agree. *)
Definition ps_wellformed (ps : nc_pollsession) : Prop :=
  zlen (default [] (sessions ps)) = session_count ps ∧ 0 ≤ session_count ps < 2 ^ 16 ∧
  empty_ring (ps_ring ps).

Lemma enter_empty q :
  empty_ring q → ∃ q', nc_ps_lock_enter q = Some (0, true, q') ∧ ps_queue_wf q' ∧ qlist q' = [0].
Proof.
  intros [Hw Hl]. destruct (add_id_refines q Hw) as (q' & E & Hq & Hw'); [rewrite Hl; unfold NC_PS_QUEUE_SIZE; lia|].
  assert (Eq : qlist q = []).
  { pose proof (qlist_length q) as H. rewrite Hl in H. by apply nil_length_inv. }
  rewrite Eq in *. exists q'. unfold nc_ps_lock_enter. rewrite Hl, E. simpl.
  assert (Hh : ps_head q' = 0).
  { pose proof (qlist_head q' Hw') as H. rewrite <- qlist_length, Hq in H.
    specialize (H ltac:(simpl; lia)). by injection H as <-. }
  by rewrite Hh.
Qed.

Lemma leave_only q : ps_queue_wf q → qlist q = [0] → ∃ q', nc_ps_unlock_leave q 0 = Some q' ∧ empty_ring q'.
Proof.
  intros Hw Hq. assert (Hl : queue_len q = 1%nat) by (rewrite <- qlist_length, Hq; done).
  pose proof (qlist_head q Hw ltac:(lia)) as Hh. rewrite Hq in Hh. injection Hh as Hh.
  pose proof (remove_id_refines q 0 Hw) as Hr. unfold nc_ps_unlock_leave. rewrite <- Hh.
  destruct (nc_ps_queue_remove_id q 0) as [q'|].
  - destruct Hr as (_ & Hq' & Hw'). rewrite Hq in Hq'. exists q'. split; [done|]. split; [done|].
    by rewrite <- qlist_length, Hq'.
  - exfalso. apply Hr. rewrite Hq. by left.
Qed.

(** The pollsession with its lock taken. *)
Definition ps_taken (ps ps' : nc_pollsession) : Prop :=
  sessions ps' = sessions ps ∧ session_count ps' = session_count ps ∧
  last_event_session ps' = last_event_session ps ∧
  ps_queue_wf (ps_ring ps') ∧ qlist (ps_ring ps') = [0].

Section single.
Context {W : Type} `{RL : Reliable W}.
Implicit Types x : ps_world W.

Lemma wpx_glob_real F n (Q : timespec → ps_world W → Prop) x :
  0 ≤ n → (∀ ts w, no_traffic (pw_glob x) w → Q ts (PsWorld (pw_ps x) (pw_store x) w)) →
  wpx F (glob (nc_gettimespec_real_add n)) Q x.
Proof.
  intros Hn HQ. apply wpx_glob. apply (wpx_on_env_inv zero_session).
  apply wpx_real_add; [done|]. intros ts w Hw. apply HQ. by apply quiet_no_traffic.
Qed.

Lemma wpx_glob_call {A} F (f : W → A * W) (Q : A → ps_world W → Prop) x :
  Q (f (pw_glob x)).1 (PsWorld (pw_ps x) (pw_store x) (f (pw_glob x)).2) → wpx F (glob (call f)) Q x.
Proof. intros HQ. by apply wpx_glob, wpx_call. Qed.

Lemma nc_ps_lock_ok F fuel x :
  empty_ring (ps_ring (pw_ps x)) →
  wpx F (nc_ps_lock fuel)
    (λ r x', r = (0, 0) ∧ ps_taken (pw_ps x) (pw_ps x') ∧ pw_store x' = pw_store x) x.
Proof.
  intros Hr. unfold nc_ps_lock. apply wpx_bind, wpx_glob_real; [done|]. intros ts w _.
  apply wpx_bind, wpx_glob_call. rewrite rel_timedlock. cbn [negb Z.eqb].
  apply wpx_bind, wpx_ps_get. cbn [pw_ps].
  destruct (enter_empty _ Hr) as (q' & -> & Hw & Hq).
  apply wpx_bind, wpx_ps_upd, wpx_bind, wpx_glob_call, wpx_ret. done.
Qed.

Lemma nc_ps_unlock_ok F x :
  ps_queue_wf (ps_ring (pw_ps x)) → qlist (ps_ring (pw_ps x)) = [0] →
  wpx F (nc_ps_unlock 0)
    (λ r x', r = 0 ∧ empty_ring (ps_ring (pw_ps x')) ∧ sessions (pw_ps x') = sessions (pw_ps x) ∧
       session_count (pw_ps x') = session_count (pw_ps x) ∧
       last_event_session (pw_ps x') = last_event_session (pw_ps x) ∧ pw_store x' = pw_store x) x.
Proof.
  intros Hw Hq. unfold nc_ps_unlock. apply wpx_bind, wpx_glob_real; [done|]. intros ts w _.
  apply wpx_bind, wpx_glob_call. rewrite rel_timedlock. cbn [Z.eqb].
  apply wpx_bind, wpx_ps_get. cbn [pw_ps].
  destruct (leave_only _ Hw Hq) as (q' & -> & He).
  apply wpx_bind, wpx_ps_upd, wpx_bind, wpx_glob_call, wpx_ret. done.
Qed.

Lemma nc_ps_add_session_ok F fuel p x :
  ps_wellformed (pw_ps x) → session_count (pw_ps x) < 2 ^ 16 - 1 →
  wpx F (nc_ps_add_session fuel p)
    (λ r x', r = 0 ∧ ps_wellformed (pw_ps x') ∧ pw_store x' = pw_store x ∧
       default [] (sessions (pw_ps x')) =
         default [] (sessions (pw_ps x)) ++ [NcPsSession p NC_PS_STATE_NONE]) x.
Proof.
  intros (Hl & Hc & Hr) Hmax. unfold nc_ps_add_session.
  apply wpx_bind. eapply wpx_mono; [by apply nc_ps_lock_ok|].
  intros ? x1 (-> & (Es & Ec & El & Hw & Hq) & Est). cbn [negb Z.eqb].
  apply wpx_bind, wpx_ps_get. rewrite Ec, Es, (u16_small (_ + 1)) by lia.
  apply wpx_bind, wpx_glob_call. rewrite rel_malloc by lia. cbn [negb].
  apply wpx_bind, wpx_glob_call. rewrite rel_malloc by lia. cbn [negb].
  apply wpx_bind, wpx_guarded; [apply Z.eqb_eq; lia|].
  apply wpx_bind, wpx_ps_upd. eapply wpx_mono; [by apply nc_ps_unlock_ok|].
  intros r x2 (-> & He & Es2 & Ec2 & _ & Est2). cbn [pw_ps pw_store set_sessions sessions session_count] in *.
  split; [done|]. split; [|split; [congruence|by rewrite Es2]].
  split; [|split; [lia|done]]. rewrite Es2, Ec2. simpl. rewrite zlen_app. change (zlen [_]) with 1. lia.
Qed.

Lemma index_of_spec p l i :
  match index_of p l i with
  | None => p ∉ map pe_session l
  | Some k => ∃ j e, k = i + Z.of_nat j ∧ l !! j = Some e ∧ pe_session e = p ∧ p ∉ map pe_session (take j l)
  end.
Proof.
  revert i. induction l as [|e l IH]; intros i; simpl; [apply not_elem_of_nil|].
  destruct (decide (pe_session e = p)) as [E|E].
  - exists 0%nat, e. split; [lia|]. split; [done|]. split; [done|apply not_elem_of_nil].
  - specialize (IH (i + 1)). destruct (index_of p l (i + 1)) as [k|].
    + destruct IH as (j & e' & -> & Hj & He & Hn). exists (S j), e'.
      split; [lia|]. split; [done|]. split; [done|]. simpl. rewrite not_elem_of_cons. auto.
    + rewrite not_elem_of_cons. auto.
Qed.

(** Taking out the entry at [i] by moving the last one there. *)
Lemma swap_remove_perm {A} (l : list A) i (e last : A) n :
  length l = S n → l !! i = Some e → l !! n = Some last →
  e :: take n (<[i := last]> l) ≡ₚ l.
Proof.
  intros Hlen Hi Hlast. assert (i ≤ n)%nat by (apply lookup_lt_Some in Hi; lia).
  assert (Hl : l = take n l ++ [last]).
  { rewrite <- (take_drop n l) at 1. f_equal. rewrite (drop_S _ _ _ Hlast). f_equal.
    apply drop_ge. lia. }
  destruct (decide (i = n)) as [->|N].
  - rewrite take_insert_ge by lia. rewrite Hi in Hlast. injection Hlast as ->.
    rewrite Hl at 2. by rewrite <- Permutation_cons_append.
  - rewrite take_insert_lt by lia.
    assert (Hi' : take n l !! i = Some e) by (rewrite lookup_take_lt by lia; done).
    rewrite Hl at 2. rewrite <- Permutation_cons_append.
    set (k := take n l) in *. rewrite insert_take_drop by (by eapply lookup_lt_Some).
    rewrite <- (take_drop_middle k i e Hi') at 3. solve_Permutation.
Qed.

Lemma ps_remove_at_ok ps j e :
  zlen (default [] (sessions ps)) = session_count ps → 0 ≤ session_count ps < 2 ^ 16 →
  default [] (sessions ps) !! j = Some e →
  ∃ ps', ps_remove_at (Z.of_nat j) ps = Some ps' ∧ e :: default [] (sessions ps') ≡ₚ default [] (sessions ps) ∧
    zlen (default [] (sessions ps')) = session_count ps' ∧ session_count ps' = session_count ps - 1 ∧
    last_event_session ps' = 0 ∧ ps_ring ps' = ps_ring ps ∧
    take j (default [] (sessions ps')) = take j (default [] (sessions ps)).
Proof.
  intros Hl Hc Hj. unfold ps_remove_at. pose proof (lookup_lt_Some _ _ _ Hj) as Hlt.
  assert (Hpos : 0 < session_count ps) by (unfold zlen in Hl; lia).
  rewrite u16_small by lia. destruct (sessions ps) as [l|]; simpl in *; [|done].
  unfold zlen in Hl. destruct (lookup_lt_is_Some_2 l (Z.to_nat (session_count ps - 1))) as [last Hlast]; [lia|].
  rewrite Hlast. replace (Z.of_nat j <=? _) with true by lia. rewrite Nat2Z.id.
  assert (Hperm : e :: take (Z.to_nat (session_count ps - 1)) (<[j := last]> l) ≡ₚ l).
  { apply (swap_remove_perm l j e last); [lia|done|done]. }
  eexists. split; [done|]. cbn [sessions session_count last_event_session ps_ring].
  assert (Hlen : zlen (ztake (session_count ps - 1) (<[j := last]> l)) = session_count ps - 1).
  { apply zlen_ztake. unfold zlen. rewrite length_insert. lia. }
  destruct (session_count ps - 1 =? 0) eqn:E; simpl.
  - apply Z.eqb_eq in E. rewrite E in *. split; [exact Hperm|]. replace j with 0%nat by lia. done.
  - split; [exact Hperm|]. split; [done|]. split; [done|]. split; [done|]. split; [done|].
    unfold ztake. rewrite take_take, Nat.min_l by lia. by rewrite take_insert_ge.
Qed.

Lemma nc_ps_del_session_ok F fuel p x :
  ps_wellformed (pw_ps x) →
  wpx F (nc_ps_del_session fuel p)
    (λ r x', ps_wellformed (pw_ps x') ∧ pw_store x' = pw_store x ∧
       ((r = 0 ∧ ∃ e, pe_session e = p ∧
          e :: default [] (sessions (pw_ps x')) ≡ₚ default [] (sessions (pw_ps x))) ∨
        (r = -1 ∧ p ∉ map pe_session (default [] (sessions (pw_ps x))) ∧
          default [] (sessions (pw_ps x')) = default [] (sessions (pw_ps x))))) x.
Proof.
  intros (Hl & Hc & Hr). unfold nc_ps_del_session.
  apply wpx_bind. eapply wpx_mono; [by apply nc_ps_lock_ok|].
  intros ? x1 (-> & (Es & Ec & El & Hw & Hq) & Est). cbn [negb Z.eqb].
  apply wpx_bind.
  eapply wpx_mono with (Q := λ r x', pw_store x' = pw_store x ∧ ps_queue_wf (ps_ring (pw_ps x')) ∧
    qlist (ps_ring (pw_ps x')) = [0] ∧ zlen (default [] (sessions (pw_ps x'))) = session_count (pw_ps x') ∧
    0 ≤ session_count (pw_ps x') < 2 ^ 16 ∧
    ((r = 0 ∧ ∃ e, pe_session e = p ∧
          e :: default [] (sessions (pw_ps x')) ≡ₚ default [] (sessions (pw_ps x))) ∨
     (r = -1 ∧ p ∉ map pe_session (default [] (sessions (pw_ps x))) ∧
          default [] (sessions (pw_ps x')) = default [] (sessions (pw_ps x))))).
  { unfold _nc_ps_del_session. apply wpx_bind, wpx_ps_get. rewrite Es, Ec.
    destruct (sessions (pw_ps x)) as [l|] eqn:Esx; simpl in Hl |- *.
    2: { change (zlen (@nil nc_ps_session)) with 0 in Hl. replace (0 <? _) with false by lia.
         apply wpx_ret. rewrite Es, Ec. simpl. split; [done|]. split; [done|]. split; [done|].
         split; [done|]. split; [done|]. right. split; [done|]. split; [apply not_elem_of_nil|done]. }
    rewrite ztake_all by lia. pose proof (index_of_spec p l 0) as Hi. destruct (index_of p l 0) as [k|].
    - destruct Hi as (j & e & -> & Hj & He & _). rewrite Z.add_0_l.
      destruct (ps_remove_at_ok (pw_ps x1) j e) as (ps' & -> & Hp & Hz & Hcount & _ & Hring & _).
      { rewrite Es, Ec. done. } { by rewrite Ec. } { by rewrite Es. }
      apply wpx_bind, wpx_ps_upd, wpx_ret. cbn [pw_ps pw_store]. rewrite Hring, Hcount, Ec in *.
      split; [done|]. split; [done|]. split; [done|]. split; [done|].
      split.
      { apply lookup_lt_Some in Hj. unfold zlen in Hl. lia. }
      left. split; [done|]. exists e. rewrite Es in Hp. done.
    - apply wpx_ret. rewrite Es, Ec. simpl. split; [done|]. split; [done|]. split; [done|].
      split; [done|]. split; [done|]. right. done. }
  intros ret x2 (Est2 & Hw2 & Hq2 & Hz2 & Hc2 & Hres).
  apply wpx_bind. eapply wpx_mono; [by apply nc_ps_unlock_ok|].
  intros r2 x3 (-> & He3 & Es3 & Ec3 & _ & Est3). apply wpx_ret. rewrite Es3.
  split; [|split; [congruence|]].
  { split; [by rewrite Es3, Ec3|]. split; [by rewrite Ec3|done]. }
  destruct Hres as [[-> H]|[-> H]]; [left|right]; done.
Qed.
End single.

(** ** Theorems on the entries *)

(** A pollsession is a collection of its sessions: adding a session adds one entry
    for it and returns 0; deleting returns 0 and takes exactly one entry of the
    session out, whatever its position, or returns -1 and changes nothing when the
    session is not there.  The count stays the number of entries, no session is
    touched and the queue is empty again. *)
Theorem ps_add_del {W} `{RL : Reliable W} fuel p (x : ps_world W) :
  ps_wellformed (pw_ps x) → session_count (pw_ps x) < 2 ^ 16 - 1 →
  (∃ x', nc_ps_add_session fuel p x = Done (0, x') ∧ ps_wellformed (pw_ps x') ∧ pw_store x' = pw_store x ∧
     default [] (sessions (pw_ps x')) =
       default [] (sessions (pw_ps x)) ++ [NcPsSession p NC_PS_STATE_NONE]) ∧
  (∃ r x', nc_ps_del_session fuel p x = Done (r, x') ∧ ps_wellformed (pw_ps x') ∧ pw_store x' = pw_store x ∧
     ((r = 0 ∧ ∃ e, pe_session e = p ∧
         e :: default [] (sessions (pw_ps x')) ≡ₚ default [] (sessions (pw_ps x))) ∨
      (r = -1 ∧ p ∉ map pe_session (default [] (sessions (pw_ps x))) ∧
         default [] (sessions (pw_ps x')) = default [] (sessions (pw_ps x))))).
Proof.
  intros Hw Hc. split.
  - destruct (proj1 (wp_total _ _ _) (nc_ps_add_session_ok False fuel p x Hw Hc)) as (r & x' & E & -> & ?).
    eauto.
  - apply wp_total, nc_ps_del_session_ok; done.
Qed.

Definition demo_ps (l : list nc_ps_session) : nc_pollsession :=
  NcPollsession (match l with [] => None | _ => Some l end) (zlen l) 0 (PsQueue (repeat 0 6) 0 0).

Definition demo_ps_world (l : list nc_ps_session) (store : gmap positive (nc_session * sim true true))
    : ps_world (sim true true) := PsWorld (demo_ps l) store (Sim [] [] 0).

Lemma ps_add_del_witness :
  ∃ x', nc_ps_del_session 10 1%positive
      (demo_ps_world [NcPsSession 1 NC_PS_STATE_NONE; NcPsSession 2 NC_PS_STATE_INVALID] ∅) = Done (0, x') ∧
    sessions (pw_ps x') = Some [NcPsSession 2 NC_PS_STATE_INVALID].
Proof.
  destruct (ps_add_del (W := sim true true) 10 1%positive
    (demo_ps_world [NcPsSession 1 NC_PS_STATE_NONE; NcPsSession 2 NC_PS_STATE_INVALID] ∅))
    as [_ (r & x' & E & _)].
  - split; [reflexivity|]. split; [split; [discriminate|reflexivity]|].
    split; [|reflexivity]. unfold ps_queue_wf, NC_PS_QUEUE_SIZE. simpl. lia.
  - reflexivity.
  - exists x'. vm_compute in E. injection E as <- <-. split; reflexivity.
Defined.

(** An application with one operation: what its callback does to the session is
    [act], what it replies [reply]; every other operation is not supported. *)
Definition demo_request : bytes := str "<rpc message-id=1><get/></rpc>".
Definition demo_envp : bytes := str " message-id=1".
Definition demo_op : bytes := str "<get/>".

Definition demo_rpc_env {W} (act : nc_session → nc_session) (reply : nc_server_reply bytes)
    : RpcEnv W bytes bytes := {|
  lyd_parse_op msg w :=
    (if bool_decide (msg = demo_request) then ParsedOp demo_envp demo_op else ParseFailed None, w);
  envp_attrs _ := [str "message-id"];
  rpc_has_act _ := true;
  rpc_clb op :=
    if bool_decide (op = demo_op) then Some (λ _ sw, (Some reply, (act sw.1, sw.2))) else None;
  global_rpc_clb := None;
  nc_err_node _ := str "<rpc-error/>";
|}.
