(* ===== verification/PollSafe.v ===== *)
(** * Polling in an arbitrary environment

    Whatever the transports, the peers and the callbacks do, [nc_ps_poll] leaves
    every lock as it found it and no entry busy.  The theorem assumes of the
    application only that its callbacks do not take or release locks of the
    session. *)

From S2P Require Import Prelude Session Env Time Locks Sim IoRead IoReadProofs.
From S2P Require Import Framing IoWrite IoWriteProofs IoWriteSafe IoTheorems.
From S2P Require Import Capabilities CapabilitiesProofs PsQueue PollSession PollProofs.
From Stdlib Require Import ZArith Ascii String Lia.
From stdpp Require Import base list strings gmap numbers.
Open Scope Z_scope.

(** The locks of a session and what says how to reach it. *)
Definition keeps (s s' : nc_session) : Prop :=
  side s' = side s ∧ ti s' = ti s ∧ io_lock s' = io_lock s ∧
  rpc_inuse (server s') = rpc_inuse (server s).

#[export] Instance keeps_preorder : PreOrder keeps.
Proof.
  split; [done|]. intros a b c (?&?&?&?) (?&?&?&?). repeat split; congruence.
Qed.

#[export] Hint Extern 0 (keeps _ _) => reflexivity : core.

(** A session nobody writes to or reads from at the moment. *)
Definition sess_ok (s : nc_session) : Prop := side s = NC_SERVER ∧ io_lock s = Some false.

Lemma keeps_ok s s' : keeps s s' → sess_ok s → sess_ok s'.
Proof. intros (?&?&?&?) [? ?]. split; congruence. Qed.

Lemma keeps_invalidate r s : keeps s (invalidate r s).
Proof. done. Qed.

Lemma keeps_kept s s' : kept_or_invalid s s' → keeps s s'.
Proof. intros [->|[r ->]]; done. Qed.

Section session.
Context {W : Type} `{EL : EnvLaws W}.
Context (Hlock : ∀ l ts w, (mutex_timedlock l ts w).1 = 0 ∨ (mutex_timedlock l ts w).1 = ETIMEDOUT).
Implicit Types (s : nc_session) (w : W).

Lemma rpc_trylock_safe s w :
  sess_ok s →
  wlp nc_session_rpc_trylock
    (λ r sw, no_traffic w sw.2 ∧
       ((r = 1 ∧ rpc_inuse (server s) = false ∧ sw.1 = set_rpc_inuse true s) ∨
        ((r = 0 ∨ r = -1) ∧ sw.1 = s))) (s, w).
Proof.
  intros [Hside _]. unfold nc_session_rpc_trylock. apply wpx_bind, wpx_ses.
  rewrite bool_decide_true by done. cbn [negb].
  apply wpx_bind, wpx_envcall. pose proof (trylock_law L_rpc w) as Hw.
  fold (no_traffic w (mutex_trylock L_rpc w).2) in Hw.
  destruct (mutex_trylock L_rpc w) as [r w1]. cbn [fst snd] in *.
  destruct (r =? 0); cbn [negb].
  2: { apply wpx_ret. split; [done|]. right. destruct (_ || _); auto. }
  destruct (rpc_inuse (server s)) eqn:Eu.
  - apply wpx_bind, wpx_envcall, wpx_ret. cbn [fst snd].
    split; [etrans; [exact Hw|apply unlock_law]|]. right. auto.
  - apply wpx_bind, wpx_upd_ses, wpx_bind, wpx_envcall. rewrite unlock_ok. apply wpx_ret.
    split; [etrans; [exact Hw|apply unlock_law]|]. left. done.
Qed.

Lemma rpc_unlock_safe timeout s w :
  side s = NC_SERVER → rpc_inuse (server s) = true → 0 ≤ timeout →
  wlp (nc_session_rpc_unlock timeout)
    (λ r sw, no_traffic w sw.2 ∧ sw.1 = set_rpc_inuse false s) (s, w).
Proof.
  intros Hside Hu Ht. unfold nc_session_rpc_unlock. apply wpx_bind, wpx_ses.
  rewrite bool_decide_true by done. cbn [negb]. apply wpx_bind, wpx_guarded; [done|].
  apply wpx_bind, wpx_real_add; [done|]. intros ts w1 Hw1. apply quiet_no_traffic in Hw1.
  apply wpx_bind, wpx_envcall. pose proof (timedlock_law L_rpc ts w1) as Hw2.
  fold (no_traffic w1 (mutex_timedlock L_rpc ts w1).2) in Hw2. pose proof (Hlock L_rpc ts w1) as Hr.
  destruct (mutex_timedlock L_rpc ts w1) as [r w2]. cbn [fst snd] in *.
  assert (no_traffic w w2) by by etrans.
  assert (negb (r =? 0) && negb (r =? EBUSY) && negb (r =? ETIMEDOUT) = false) as ->.
  { destruct Hr as [->| ->]; done. }
  apply wpx_bind, wpx_upd_ses. destruct (r =? 0).
  - apply wpx_bind, wpx_envcall, wpx_ret. split; [|done]. etrans; [done|apply unlock_law].
  - by apply wpx_ret.
Qed.

Lemma poll_fail_safe reason s w :
  wlp (poll_fail reason) (λ r sw, sw.2 = w ∧ keeps s sw.1 ∧ r = TERM_ERROR) (s, w).
Proof. unfold poll_fail. apply wpx_bind, wpx_upd_ses, wpx_ret. done. Qed.

Lemma poll_fd_result_safe r s w :
  wlp (poll_fd_result r) (λ ret sw, sw.2 = w ∧ keeps s sw.1 ∧
    (ret = TERM_ERROR ∨ ret = NC_PSPOLL_ERROR ∨ ret = NC_PSPOLL_TIMEOUT ∨ ret = NC_PSPOLL_RPC)) (s, w).
Proof.
  unfold poll_fd_result. destruct r as [| |n i h e v].
  - apply wpx_ret. auto 10.
  - apply wpx_bind, wpx_upd_ses, wpx_ret. split; [done|]. split; [done|auto].
  - destruct (0 <? n); [|apply wpx_ret; auto 10].
    destruct (h || v); [|destruct e].
    + eapply wpx_mono; [apply poll_fail_safe|]. intros ? ? (?&?&?). auto 10.
    + eapply wpx_mono; [apply poll_fail_safe|]. intros ? ? (?&?&?). auto 10.
    + apply wpx_ret. auto 10.
Qed.
End session.

(** ** Receiving and replying *)

Section serve.
Context {W node envelope : Type} `{EL : EnvLaws W} `{!Printer node envelope} `{!RpcEnv W node envelope}.
Implicit Types (s : nc_session) (w : W).

(** Everything printed comes in pieces that fit the counters; callbacks keep the
    locks; [malloc(0)] returns [NULL]. *)
Record app_ok : Prop := AppOk {
  app_sized (n : node) : node_sized n;
  app_clb op f sw : rpc_clb op = Some f → keeps sw.1 (f op sw).2.1;
  app_global f op sw : global_rpc_clb = Some f → keeps sw.1 (f op sw).2.1;
  app_malloc : malloc0_null (W := W);
}.
Context (Happ : app_ok).

Lemma write_reply_keeps fuel timeout (envp : option envelope) (reply : nc_server_reply node) s w :
  sess_ok s → (envp = None → ∃ e, reply = ReplyError e) →
  wlp (nc_write_msg_io fuel timeout (OutReply envp reply))
    (λ r sw, keeps s sw.1 ∧ inq sw.2 = inq w) (s, w).
Proof.
  intros [_ Hl] Henv. eapply wpx_mono.
  - apply nc_write_msg_io_safe; [done|]. destruct envp as [e|]; simpl.
    + intros cs. apply (app_sized Happ).
    + destruct (Henv eq_refl) as [e ->]. apply (app_sized Happ).
  - intros r sw [_ (Hi & _ & Hlk & _ & (?&?&?&E))]. split; [|done]. repeat split; try done. by rewrite E.
Qed.

Lemma send_error_reply_safe fuel timeout envp err s w :
  sess_ok s →
  wlp (send_error_reply (node:=node) fuel timeout envp err) (λ _ sw, keeps s sw.1) (s, w).
Proof.
  intros Hs. unfold send_error_reply. apply wpx_bind.
  eapply wpx_mono; [apply write_reply_keeps; [done|eauto]|].
  intros r [s1 w1] [Hk _]. cbn [fst] in Hk. destruct (negb _); [|by apply wpx_ret].
  apply wpx_bind, wpx_ses. destruct (negb _); [|by apply wpx_ret].
  apply wpx_upd_ses. cbn [fst]. etrans; [exact Hk|done].
Qed.

(** There is an RPC exactly with [NC_PSPOLL_RPC]. *)
Definition recv_ret (r : Z * option (envelope * node)) : Prop :=
  (r.2 = None ∧ (r.1 = NC_PSPOLL_ERROR ∨ r.1 = NC_PSPOLL_TIMEOUT ∨ r.1 = NC_PSPOLL_BAD_RPC)) ∨
  (r.1 = NC_PSPOLL_RPC ∧ is_Some r.2).

Lemma recv_rpc_safe fuel timeout s w :
  sess_ok s → zlen (inq w) < 2 ^ 31 →
  wlp (nc_server_recv_rpc_io (node:=node) (envelope:=envelope) fuel timeout)
    (λ r sw, keeps s sw.1 ∧ recv_ret r) (s, w).
Proof.
  intros Hs Hlen. unfold nc_server_recv_rpc_io. apply wpx_bind, wpx_ses.
  destruct (_ || _); [apply wpx_ret; unfold recv_ret; cbn [fst snd]; eauto 10|].
  apply wpx_bind. eapply wpx_mono.
  { apply nc_read_msg_io_spec; [apply Hs|done|left; apply (app_malloc Happ)|by left]. }
  intros [r msg] [s1 w1] (Hl & _ & _ & Hr). cbn [fst snd] in Hl, Hr.
  assert (Hk : keeps s s1).
  { destruct Hr as [(_ & _ & ->)|(_ & _ & Hk)].
    - rewrite set_io_lock_id by apply Hs. done.
    - rewrite set_io_lock_id in Hk by apply Hs. by apply keeps_kept. }
  pose proof (keeps_ok _ _ Hk Hs) as Hs1.
  assert (Herr : ∀ envp err, wlp (_ ← send_error_reply fuel timeout envp err; mret (NC_PSPOLL_BAD_RPC, None))
    (λ r sw, keeps s sw.1 ∧ recv_ret r) (s1, w1)).
  { intros envp err. apply wpx_bind. eapply wpx_mono; [by apply send_error_reply_safe|].
    intros u sw Hk2. apply wpx_ret. split; [by etrans|unfold recv_ret; auto]. }
  destruct (r =? -2) eqn:E2; [apply Herr|]. destruct (r =? -1) eqn:E1; [apply wpx_ret; unfold recv_ret; cbn [fst snd]; eauto 10|].
  destruct (r =? 0) eqn:E0; [apply wpx_ret; unfold recv_ret; cbn [fst snd]; eauto 10|].
  destruct msg as [msg|].
  2: { exfalso. destruct Hr as [(_ & [? ?] & _)|([->|[->| ->]] & _)]; done. }
  apply wpx_bind, wpx_envcall. destruct (malloc_ok 16 w1) as [ok w2]. cbn [fst snd].
  destruct ok; cbn [negb]; [|apply wpx_ret; unfold recv_ret; cbn [fst snd]; eauto 10].
  apply wpx_bind, wpx_envcall. destruct (lyd_parse_op msg w2) as [p w3]. cbn [fst snd].
  assert (Herr3 : ∀ envp err, wlp (_ ← send_error_reply fuel timeout envp err; mret (NC_PSPOLL_BAD_RPC, None))
    (λ r sw, keeps s sw.1 ∧ recv_ret r) (s1, w3)).
  { intros envp err. apply wpx_bind. eapply wpx_mono; [by apply send_error_reply_safe|].
    intros u sw Hk2. apply wpx_ret. split; [by etrans|unfold recv_ret; auto]. }
  destruct p as [envp op|[envp|]].
  - destruct (bool_decide _); [apply wpx_ret; unfold recv_ret; cbn [fst snd]; eauto 10|apply Herr3].
  - apply Herr3.
  - apply wpx_bind, wpx_ses. destruct (version s1).
    + apply wpx_bind, wpx_ret, wpx_ret. unfold recv_ret. auto 10.
    + apply Herr3.
Qed.

Lemma run_clb_safe (f : node → nc_session * W → option (nc_server_reply node) * (nc_session * W)) op s w :
  (∀ sw, keeps sw.1 (f op sw).2.1) → wlp (run_clb f op) (λ _ sw, keeps s sw.1) (s, w).
Proof.
  intros Hf. unfold run_clb, wpx. specialize (Hf (s, w)). by destruct (f op (s, w)).
Qed.

Lemma send_reply_safe fuel timeout rpc s w :
  sess_ok s →
  wlp (nc_server_send_reply_io (node:=node) (envelope:=envelope) fuel timeout rpc)
    (λ r sw, keeps s sw.1 ∧ (r = NC_PSPOLL_ERROR ∨ is_Some rpc ∧ (r = 0 ∨ r = NC_PSPOLL_REPLY_ERROR ∨
       r = Z.lor NC_PSPOLL_REPLY_ERROR NC_PSPOLL_ERROR))) (s, w).
Proof.
  intros Hs. unfold nc_server_send_reply_io. destruct rpc as [[envp op]|]; [|apply wpx_ret; auto 10].
  destruct (rpc_has_act op); cbn [negb]; [|apply wpx_ret; auto 10].
  apply wpx_bind. eapply wpx_mono with (Q := λ _ sw, keeps s sw.1).
  { destruct (rpc_clb op) as [f|] eqn:E.
    - apply run_clb_safe. intros sw. by apply (app_clb Happ).
    - destruct global_rpc_clb as [f|] eqn:Eg; [|by apply wpx_ret].
      apply run_clb_safe. intros sw. by apply (app_global Happ). }
  intros reply [s1 w1] Hk. cbn [fst] in Hk.
  set (rep := default _ reply). apply wpx_bind.
  eapply wpx_mono; [apply write_reply_keeps; [by eapply keeps_ok|done]|].
  intros r [s2 w2] [Hk2 _]. cbn [fst] in Hk2. apply wpx_bind, wpx_ses, wpx_bind.
  eapply wpx_mono with (Q := λ _ sw, keeps s sw.1).
  { destruct (_ && _).
    - apply wpx_upd_ses. etrans; [exact Hk|]. etrans; [exact Hk2|]. done.
    - apply wpx_ret. by etrans. }
  intros u sw Hk3. apply wpx_ret. split; [done|].
  destruct (reply_is_error rep), (bool_decide _); eauto 10.
Qed.
End serve.

(** ** The whole world *)

Lemma of2_l {A B} (R : A → B → Prop) a o : option_Forall2 R (Some a) o → ∃ b, o = Some b ∧ R a b.
Proof. inversion 1; eauto. Qed.

Lemma of2_r {A B} (R : A → B → Prop) b o : option_Forall2 R o (Some b) → ∃ a, o = Some a ∧ R a b.
Proof. inversion 1; eauto. Qed.

Definition entries (ps : nc_pollsession) : list nc_ps_session := default [] (sessions ps).

(** The links of the rings of SSH sessions lead to SSH sessions. *)
Definition rings_ok {W} (m : gmap positive (nc_session * W)) : Prop :=
  ∀ p s w c n, m !! p = Some (s, w) → ti s = TiLibssh c (Some n) →
    ∃ s' w' c' n', m !! n = Some (s', w') ∧ ti s' = TiLibssh c' (Some n').

Lemma rings_same_ti {W} (m m' : gmap positive (nc_session * W)) :
  (∀ p, option_Forall2 (λ a b, ti b.1 = ti a.1) (m !! p) (m' !! p)) → rings_ok m → rings_ok m'.
Proof.
  intros H Hr p s w c n E Et. pose proof (H p) as Hp. rewrite E in Hp.
  apply of2_r in Hp as ([s0 w0] & Em & Eti). cbn [fst] in Eti.
  destruct (Hr p s0 w0 c n) as (s1 & w1 & c1 & n1 & E1 & Et1); [done|by rewrite <- Et|].
  pose proof (H n) as Hn. rewrite E1 in Hn. apply of2_l in Hn as ([s2 w2] & Em2 & Eti2).
  exists s2, w2, c1, n1. split; [done|]. cbn [fst] in Eti2. by rewrite Eti2.
Qed.

Lemma find_new_channel_safe {W} fuel (m : gmap positive (nc_session * W)) self cur :
  rings_ok m → (∃ s w c n, m !! cur = Some (s, w) ∧ ti s = TiLibssh c (Some n)) →
  find_new_channel fuel m self cur ≠ Crash.
Proof.
  intros Hr. revert cur. induction fuel as [|fuel IH]; intros cur Hcur; cbn [find_new_channel]; [done|].
  destruct (decide _) as [_|_]; [done|]. destruct Hcur as (s & w & c & n & E & Et). rewrite E, Et.
  destruct (_ && _ && _); [done|]. apply IH. by eapply (Hr cur s w c n).
Qed.

Section world.
Context {W : Type} `{EL : EnvLaws W}.
Context (Hlock : ∀ l ts w, (mutex_timedlock l ts w).1 = 0 ∨ (mutex_timedlock l ts w).1 = ETIMEDOUT).
Implicit Types x : ps_world W.

Lemma wpx_ps_entry F i e (Q : nc_ps_session → ps_world W → Prop) x :
  entries (pw_ps x) !! i = Some e → Q e x → wpx F (ps_entry (Z.of_nat i)) Q x.
Proof.
  intros E HQ. unfold ps_entry. apply wpx_bind, wpx_ps_get. rewrite Nat2Z.id. unfold entries in E.
  destruct (sessions (pw_ps x)) as [l|]; cbn [default mbind option_bind] in *; [|done].
  change (l !! i = Some e) in E. rewrite E. by apply wpx_ret.
Qed.

(** Nothing but the status of sessions changed. *)
Definition quiet_sw (a b : nc_session * W) : Prop := keeps a.1 b.1 ∧ inq b.2 = inq a.2.

Definition kept_all x x' : Prop :=
  pw_ps x' = pw_ps x ∧ ∀ p, option_Forall2 quiet_sw (pw_store x !! p) (pw_store x' !! p).

#[export] Instance kept_all_preorder : PreOrder kept_all.
Proof.
  assert (PreOrder quiet_sw) by (split; [done|intros a b c [? ?] [? ?]; split; [by etrans|congruence]]).
  split; [done|]. intros a b c [? H1] [? H2]. split; [congruence|]. intros p. etrans; [apply H1|apply H2].
Qed.

Lemma kept_rings x x' : kept_all x x' → rings_ok (pw_store x) → rings_ok (pw_store x').
Proof.
  intros [_ H]. apply rings_same_ti. intros p. destruct (H p) as [a b [(_&?&_) _]|]; by constructor.
Qed.

Lemma kept_insert x p sw sw' g :
  pw_store x !! p = Some sw → quiet_sw sw sw' →
  kept_all x (PsWorld (pw_ps x) (<[p := sw']> (pw_store x)) g).
Proof.
  intros E H. split; [done|]. intros p'. cbn [pw_store]. destruct (decide (p = p')) as [<-|N].
  - rewrite lookup_insert_eq, E. by constructor.
  - rewrite lookup_insert_ne by done. destruct (_ !! p'); by constructor.
Qed.

Lemma kept_lookup x x' p s w :
  kept_all x x' → pw_store x !! p = Some (s, w) →
  ∃ s' w', pw_store x' !! p = Some (s', w') ∧ keeps s s' ∧ inq w' = inq w.
Proof.
  intros [_ H] E. specialize (H p). rewrite E in H. apply of2_l in H as ([s' w'] & ? & ? & ?). eauto.
Qed.

(** A computation on one session that keeps its locks. *)
Lemma on_session_kept {A} p (m : SM W A) (Q : A → Prop) x s w :
  pw_store x !! p = Some (s, w) →
  wlp m (λ a sw, keeps s sw.1 ∧ inq sw.2 = inq w ∧ Q a) (s, w) →
  wlp (on_session p m) (λ a x', kept_all x x' ∧ Q a) x.
Proof.
  intros E Hm. eapply wpx_on_session; [exact E|]. eapply wpx_mono; [exact Hm|].
  intros a [s' w'] (H1 & H2 & H3). split; [|done]. by eapply kept_insert.
Qed.

Lemma session_call_kept {A} p (f : W → A * W) x s w :
  pw_store x !! p = Some (s, w) → (∀ w, inq (f w).2 = inq w) →
  wlp (on_session p (envcall f)) (λ a x', kept_all x x') x.
Proof.
  intros E Hf. eapply wpx_mono; [eapply (on_session_kept p _ (λ _, True)); [done|]|by intros ? ? [? _]].
  apply wpx_envcall. split; [done|]. split; [|done]. apply Hf.
Qed.

Definition poll_ret (r : Z) : Prop :=
  r = TERM_ERROR ∨ r = NC_PSPOLL_ERROR ∨ r = NC_PSPOLL_TIMEOUT ∨ r = NC_PSPOLL_RPC ∨
  r = NC_PSPOLL_SSH_CHANNEL ∨ r = NC_PSPOLL_SSH_MSG.

Lemma poll_fail_kept reason p x s w :
  pw_store x !! p = Some (s, w) →
  wlp (on_session p (poll_fail reason)) (λ r x', kept_all x x' ∧ poll_ret r) x.
Proof.
  intros E. eapply on_session_kept; [done|]. eapply wpx_mono; [apply poll_fail_safe|].
  intros r sw (-> & ? & ->). split; [done|]. split; [done|by left].
Qed.

Lemma poll_fd_kept r p x s w :
  pw_store x !! p = Some (s, w) →
  wlp (on_session p (poll_fd_result r)) (λ r x', kept_all x x' ∧ poll_ret r) x.
Proof.
  intros E. eapply on_session_kept; [done|]. eapply wpx_mono; [apply poll_fd_result_safe|].
  intros r' sw (-> & ? & Hr). split; [done|]. split; [done|]. unfold poll_ret. tauto.
Qed.

Lemma poll_ssh_msg_kept fuel p x s w :
  pw_store x !! p = Some (s, w) → rings_ok (pw_store x) →
  wlp (poll_ssh_msg fuel p) (λ r x', kept_all x x' ∧ poll_ret r) x.
Proof.
  intros E Hr. unfold poll_ssh_msg, wpx. rewrite E.
  destruct (_ =? 0); [split; [done|unfold poll_ret; tauto]|].
  set (s' := set_flags _ s). cbn [pw_store pw_ps pw_glob].
  assert (Hk : kept_all x (PsWorld (pw_ps x) (<[p := (s', w)]> (pw_store x)) (pw_glob x))).
  { by eapply kept_insert. }
  change (ti s') with (ti s).
  destruct (ti s) as [| | |c [n|]|] eqn:Et; try (split; [done|unfold poll_ret; tauto]).
  pose proof (kept_rings _ _ Hk Hr) as Hr'.
  assert (Hn : find_new_channel fuel (<[p:=(s', w)]> (pw_store x)) p n ≠ Crash).
  { apply find_new_channel_safe; [done|]. eapply (Hr' p s' w c n); [|done]. cbn [pw_store]. by rewrite lookup_insert_eq. }
  destruct (find_new_channel _ _ _ _) as [[]| |]; try done; (split; [done|unfold poll_ret; tauto]).
Qed.

Lemma poll_fd_kept2 fd p x s w :
  pw_store x !! p = Some (s, w) →
  wlp (r ← on_session p (envcall (sys_poll fd 0)); on_session p (poll_fd_result r))
    (λ r x', kept_all x x' ∧ poll_ret r) x.
Proof.
  intros E. apply wpx_bind. eapply wpx_mono; [eapply session_call_kept; [exact E|intros; apply poll_law]|].
  intros r x1 H1. destruct (kept_lookup _ _ _ _ _ H1 E) as (s1 & w1 & E1 & _).
  eapply wpx_mono; [by eapply poll_fd_kept|]. intros r' x2 [H2 ?]. split; [etrans; [exact H1|exact H2]|done].
Qed.

Ltac poll_done := apply wpx_ret; split; [assumption || reflexivity|unfold poll_ret; tauto].

Lemma poll_transport_kept fuel p x s w :
  pw_store x !! p = Some (s, w) → rings_ok (pw_store x) →
  wlp (poll_transport fuel p) (λ r x', kept_all x x' ∧ poll_ret r) x.
Proof.
  intros E Hr. unfold poll_transport. apply wpx_bind. eapply wpx_session_read; [exact E|].
  assert (Hmono : ∀ (m : PM W Z) x1, kept_all x x1 → wlp m (λ r x', kept_all x1 x' ∧ poll_ret r) x1 →
    wlp m (λ r x', kept_all x x' ∧ poll_ret r) x1).
  { intros m x1 H1 Hm. eapply wpx_mono; [exact Hm|]. intros r x2 [H2 ?]. split; [etrans; [exact H1|exact H2]|done]. }
  destruct (ti s) as [|fd fd2|fd|c n|].
  - poll_done.
  - by eapply poll_fd_kept2.
  - by eapply poll_fd_kept2.
  - apply wpx_bind. eapply wpx_mono; [eapply session_call_kept; [exact E|intros; apply ssh_poll_law]|].
    intros r x1 H1. destruct (kept_lookup _ _ _ _ _ H1 E) as (s1 & w1 & E1 & _). apply Hmono; [done|].
    destruct r as [| |m]; [by eapply poll_fail_kept..|]. destruct (m =? 0).
    + eapply poll_ssh_msg_kept; [exact E1|]. by eapply kept_rings.
    + poll_done.
  - apply wpx_bind. eapply wpx_mono; [eapply session_call_kept; [exact E|intros; apply ssl_pending_law]|].
    intros m x1 H1. destruct (kept_lookup _ _ _ _ _ H1 E) as (s1 & w1 & E1 & _). apply Hmono; [done|].
    destruct (m =? 0); [|poll_done].
    apply wpx_bind. eapply wpx_mono; [eapply session_call_kept; [exact E1|intros; apply ssl_fd_law]|].
    intros fd x2 H2. destruct (fd <? 0); [poll_done|].
    destruct (kept_lookup _ _ _ _ _ H2 E1) as (s2 & w2 & E2 & _).
    eapply wpx_mono; [by eapply poll_fd_kept2|]. intros r x3 [H3 ?]. split; [etrans; [exact H2|exact H3]|done].
Qed.

(** Polling a session gives back its IO lock. *)
Lemma poll_session_io_kept fuel idle p now_mono x s w :
  pw_store x !! p = Some (s, w) → sess_ok s → rings_ok (pw_store x) →
  wlp (nc_ps_poll_session_io fuel idle p NC_SESSION_LOCK_TIMEOUT now_mono)
    (λ r x', kept_all x x' ∧ poll_ret r) x.
Proof.
  intros E [Hside Hl] Hr. unfold nc_ps_poll_session_io. apply wpx_bind. eapply wpx_session_read; [exact E|].
  destruct (_ && _ && _ && _); [by eapply poll_fail_kept|].
  apply wpx_bind. eapply wpx_on_session; [exact E|].
  eapply wpx_mono; [by apply nc_session_io_lock_spec|]. intros r [s1 w1] [[_ [Hi1 _]] H1].
  cbn [fst snd] in Hi1, H1. destruct H1 as [[-> ->]|[Hr1 ->]].
  2: { assert (Hk : kept_all x (PsWorld (pw_ps x) (<[p:=(s, w1)]> (pw_store x)) (pw_glob x))).
       { by eapply kept_insert. }
       destruct Hr1 as [-> | ->]; cbn [Z.ltb Z.eqb Z.compare]; poll_done. }
  cbn [Z.ltb Z.eqb Z.compare Pos.eqb]. set (x1 := PsWorld _ _ _).
  assert (E1 : pw_store x1 !! p = Some (set_io_lock (Some true) s, w1)) by apply lookup_insert_eq.
  apply wpx_bind. eapply wpx_mono.
  { eapply poll_transport_kept; [exact E1|]. apply (rings_same_ti (pw_store x)); [|done].
    intros p'. cbn [x1 pw_store]. destruct (decide (p = p')) as [<-|N].
    - rewrite E, lookup_insert_eq. by constructor.
    - rewrite lookup_insert_ne by done. destruct (_ !! p'); by constructor. }
  intros ret x2 [H2 Hret]. destruct (kept_lookup _ _ _ _ _ H2 E1) as (s2 & w2 & E2 & (Ha & Hb & Hc & Hd) & Hi2).
  apply wpx_bind. eapply wpx_on_session; [exact E2|].
  eapply wpx_mono; [by apply nc_session_io_unlock_spec|]. intros u [s3 w3] (_ & [_ [Hi3 _]] & Es3). cbn [fst] in Es3. subst s3.
  apply wpx_ret. split; [|done]. destruct H2 as [Hps H2]. split; [done|]. intros p'. cbn [pw_store].
  destruct (decide (p = p')) as [<-|N].
  - rewrite E, lookup_insert_eq. constructor. split; [|cbn [snd] in *; congruence]. repeat split; done.
  - rewrite lookup_insert_ne by done. specialize (H2 p'). cbn [x1 pw_store] in H2.
    by rewrite lookup_insert_ne in H2.
Qed.
End world.
