(* ===== verification/PollBalance.v ===== *)
(** * The balance of [nc_ps_poll]

    [nc_ps_poll] takes the lock of the pollsession, the RPC lock and the IO lock
    of sessions and marks entries busy; on every path it gives all of that back.
    [poll_at] says where in a call of [nc_ps_poll] a world is, compared with the
    world of the call. *)

From S2P Require Import Prelude Session Env Time Locks Sim IoRead IoReadProofs.
From S2P Require Import Framing IoWrite IoWriteProofs IoWriteSafe IoTheorems.
From S2P Require Import Capabilities CapabilitiesProofs PsQueue PollSession PollProofs PollSafe.
From Stdlib Require Import ZArith Ascii String Lia.
From stdpp Require Import base list strings gmap numbers.
Open Scope Z_scope.

(** An entry stays with its session and is busy only if it was, or if [mine]. *)
Definition entry_rel (mine : bool) (e e' : nc_ps_session) : Prop :=
  pe_session e' = pe_session e ∧
  (pe_state e' = NC_PS_STATE_BUSY → mine = true ∨ pe_state e = NC_PS_STATE_BUSY).

(** What the bits of a result say together. *)
Definition sound_ret (ret : Z) : Prop :=
  ret ≠ 0 ∧
  (Z.land ret NC_PSPOLL_SESSION_ERROR ≠ 0 → Z.land ret NC_PSPOLL_SESSION_TERM ≠ 0) ∧
  (Z.land ret NC_PSPOLL_REPLY_ERROR ≠ 0 → Z.land ret NC_PSPOLL_RPC ≠ 0) ∧
  (Z.land ret NC_PSPOLL_RPC ≠ 0 → Z.land ret NC_PSPOLL_BAD_RPC = 0).

Section balance.
Context {W node envelope : Type} `{EL : EnvLaws W} `{!Printer node envelope} `{!RpcEnv W node envelope}.
Context (Hlock : ∀ l ts w, (mutex_timedlock l ts w).1 = 0 ∨ (mutex_timedlock l ts w).1 = ETIMEDOUT).
Context (Happ : app_ok (W:=W) (node:=node) (envelope:=envelope)).
Implicit Types x : ps_world W.

(** A session keeps its locks, except that its RPC lock is taken if [mine], and
    if [unread] no input of it was read. *)
Definition held (unread mine : bool) (a b : nc_session * W) : Prop :=
  side b.1 = side a.1 ∧ ti b.1 = ti a.1 ∧ io_lock b.1 = io_lock a.1 ∧
  (if mine then rpc_inuse (server a.1) = false ∧ rpc_inuse (server b.1) = true
   else rpc_inuse (server b.1) = rpc_inuse (server a.1)) ∧
  (unread = true → inq b.2 = inq a.2).

(** The RPC lock of [q] is taken, entry [b] is busy and the queue is [r]. *)
Record poll_at (x0 : ps_world W) (unread : bool) (q : option positive) (b : option nat) (r : ps_queue)
    (x : ps_world W) : Prop := PollAt {
  at_store p : option_Forall2 (held unread (bool_decide (q = Some p))) (pw_store x0 !! p) (pw_store x !! p);
  at_entries i : option_Forall2 (entry_rel (bool_decide (b = Some i)))
                   (entries (pw_ps x0) !! i) (entries (pw_ps x) !! i);
  at_count : session_count (pw_ps x) = session_count (pw_ps x0);
  at_last : 0 ≤ last_event_session (pw_ps x) < Z.max 1 (session_count (pw_ps x));
  at_ring : ps_ring (pw_ps x) = r;
}.

(** The entries of a pollsession point to server sessions that are not used by
    anybody and have less than 2 GB to read. *)
Definition world_ok x : Prop :=
  zlen (entries (pw_ps x)) = session_count (pw_ps x) ∧
  0 ≤ last_event_session (pw_ps x) < Z.max 1 (session_count (pw_ps x)) ∧
  (∀ i e, entries (pw_ps x) !! i = Some e →
    ∃ s w, pw_store x !! pe_session e = Some (s, w) ∧ sess_ok s ∧ zlen (inq w) < 2 ^ 31) ∧
  rings_ok (pw_store x).

Section from.
Context (x0 : ps_world W) (Hok : world_ok x0).

Lemma poll_at_refl : poll_at x0 true None None (ps_ring (pw_ps x0)) x0.
Proof.
  split; [intros p|intros i|done|apply Hok|done].
  - rewrite bool_decide_false by done. destruct (_ !! p); constructor. done.
  - rewrite bool_decide_false by done. destruct (_ !! i); constructor. split; auto.
Qed.

Lemma poll_at_entry u q b r x i e :
  poll_at x0 u q b r x → entries (pw_ps x) !! i = Some e →
  ∃ s w, pw_store x !! pe_session e = Some (s, w) ∧ sess_ok s ∧
    (u = true → zlen (inq w) < 2 ^ 31) ∧ (q = Some (pe_session e) → rpc_inuse (server s) = true).
Proof.
  intros Hat He. pose proof (at_entries _ _ _ _ _ _ Hat i) as Hi. rewrite He in Hi.
  apply of2_r in Hi as (e0 & He0 & Ee & _). destruct Hok as (_ & _ & Hs & _).
  destruct (Hs i e0 He0) as (s0 & w0 & E0 & [Ha Hb] & Hlen).
  pose proof (at_store _ _ _ _ _ _ Hat (pe_session e)) as Hp. rewrite Ee, E0 in Hp.
  apply of2_l in Hp as ([s w] & Es & H1 & H2 & H3 & H4 & H5). cbn [fst snd] in *. exists s, w. rewrite Ee.
  split; [done|]. split; [split; congruence|]. split.
  - intros Hu. by rewrite H5.
  - intros Hq. rewrite bool_decide_true in H4 by done. apply H4.
Qed.

Lemma poll_at_rings u q b r x : poll_at x0 u q b r x → rings_ok (pw_store x).
Proof.
  intros Hat. destruct Hok as (_ & _ & _ & Hr). apply (rings_same_ti (pw_store x0)); [|done].
  intros p. destruct (at_store _ _ _ _ _ _ Hat p) as [? ? (_&?&_)|]; by constructor.
Qed.

Lemma poll_at_kept u q b r x x' : poll_at x0 u q b r x → kept_all x x' → poll_at x0 u q b r x'.
Proof.
  intros [H1 H2 H3 H4 H5] [Eps Hk]. split; rewrite ?Eps; try done.
  intros p. specialize (Hk p). destruct (H1 p) as [a b' (?&?&?&?&?)|].
  - apply of2_l in Hk as (c & -> & (K1&K2&K3&K4) & K5). constructor.
    repeat split; try congruence; [|intros; rewrite K5; auto].
    destruct (bool_decide _); [|congruence]. split; [tauto|]. rewrite K4. tauto.
  - inversion Hk. constructor.
Qed.

(** After a computation on one session. *)
Lemma poll_at_insert u u' q q' b r x p s w s' w' g :
  poll_at x0 u q b r x → pw_store x !! p = Some (s, w) → (u' = true → u = true) →
  (∀ p', p' ≠ p → q = Some p' ↔ q' = Some p') →
  (∀ s0 w0, held u (bool_decide (q = Some p)) (s0, w0) (s, w) →
     held u' (bool_decide (q' = Some p)) (s0, w0) (s', w')) →
  poll_at x0 u' q' b r (PsWorld (pw_ps x) (<[p := (s', w')]> (pw_store x)) g).
Proof.
  intros [H1 H2 H3 H4 H5] E Hu Hq Hh. split; try done. intros p'. cbn [pw_store].
  destruct (decide (p = p')) as [<-|N].
  - rewrite lookup_insert_eq. specialize (H1 p). rewrite E in H1.
    apply of2_r in H1 as ([s0 w0] & -> & H). constructor. by apply Hh.
  - rewrite lookup_insert_ne by done. destruct (H1 p') as [c d (?&?&?&Hx&?)|]; constructor.
    rewrite (bool_decide_ext _ _ (Hq p' (not_eq_sym N))) in Hx.
    repeat split; auto.
Qed.

Lemma poll_at_lookup u q b r x i e0 :
  poll_at x0 u q b r x → entries (pw_ps x0) !! i = Some e0 →
  ∃ e, entries (pw_ps x) !! i = Some e ∧ pe_session e = pe_session e0.
Proof.
  intros Hat He0. pose proof (at_entries _ _ _ _ _ _ Hat i) as Hi. rewrite He0 in Hi.
  apply of2_l in Hi as (e & He & Ee & _). eauto.
Qed.

Lemma entries_mark (f : nc_ps_session → nc_ps_session) i ps :
  entries (match sessions ps with
           | None => ps
           | Some l => set_sessions (Some (alter f i l)) (session_count ps) ps
           end) = alter f i (entries ps).
Proof. unfold entries. destruct ps as [[l|] n k q]; [done|]. by destruct i. Qed.

(** Marking an entry. *)
Lemma poll_at_mark u q b b' r x i st :
  poll_at x0 u q b r x → (∀ j, j ≠ i → b = Some j → b' = Some j) →
  (st = NC_PS_STATE_BUSY → b' = Some i) →
  wlp (set_entry_state (Z.of_nat i) st) (λ _ x', poll_at x0 u q b' r x' ∧ pw_store x' = pw_store x) x.
Proof.
  intros [H1 H2 H3 H4 H5] Hb Hst. unfold set_entry_state. apply wpx_ps_upd. rewrite Nat2Z.id.
  split; [|done].
  assert (Hother : ∀ j e e', j ≠ i → entry_rel (bool_decide (b = Some j)) e e' →
    entry_rel (bool_decide (b' = Some j)) e e').
  { intros j e e' N [? Hx]. split; [done|]. intros E. apply Hx in E as [E|E]; [left|by right].
    apply bool_decide_eq_true in E. apply bool_decide_eq_true. auto. }
  split; cbn [pw_ps pw_store]; [done| |by destruct (sessions _)..].
  intros j. rewrite entries_mark. specialize (H2 j). destruct (decide (i = j)) as [<-|N].
  - rewrite list_lookup_alter_eq. destruct H2 as [e e' [? ?]|]; constructor. split; [done|].
    intros E. left. apply bool_decide_eq_true. auto.
  - rewrite list_lookup_alter_ne by done. destruct H2; constructor. by apply Hother.
Qed.

Lemma poll_at_glob {A} (m : M W A) u q b r x :
  poll_at x0 u q b r x → (∀ s w, wlp (env m) (λ _ _, True) (s, w)) →
  wlp (glob m) (λ _ x', poll_at x0 u q b r x') x.
Proof.
  intros [] Hm. apply wpx_glob. apply (wpx_on_env_inv zero_session). eapply wpx_mono; [apply Hm|]. done.
Qed.

(** The RPC lock of the session of an entry. *)
Lemma rpc_trylock_at b r x p s w :
  poll_at x0 true None b r x → pw_store x !! p = Some (s, w) → sess_ok s →
  wlp (on_session p nc_session_rpc_trylock)
    (λ ret x', pw_ps x' = pw_ps x ∧
       ((ret = 1 ∧ poll_at x0 true (Some p) b r x') ∨ ((ret = 0 ∨ ret = -1) ∧ poll_at x0 true None b r x'))) x.
Proof.
  intros Hat E Hs. eapply wpx_on_session; [exact E|]. eapply wpx_mono; [by apply rpc_trylock_safe|].
  intros ret [s1 w1] [[_ [Hi _]] Hr]. cbn [fst snd] in *. split; [done|].
  destruct Hr as [(-> & Hu & ->)|[Hr ->]]; [left|right]; (split; [done|]);
    (eapply poll_at_insert; [exact Hat|exact E|done|intros; split; congruence|]); intros s0 w0 (?&?&?&Hx&?); cbn [fst snd] in *.
  - rewrite bool_decide_false in Hx by done. rewrite bool_decide_true by done.
    repeat split; cbn; try done; [congruence|]. intros. rewrite Hi. auto.
  - repeat split; cbn; try done. intros. rewrite Hi. auto.
Qed.

Lemma rpc_unlock_at u b r x p s w :
  poll_at x0 u (Some p) b r x → pw_store x !! p = Some (s, w) → side s = NC_SERVER →
  wlp (on_session p (nc_session_rpc_unlock NC_SESSION_LOCK_TIMEOUT))
    (λ _ x', poll_at x0 u None b r x') x.
Proof.
  intros Hat E Hs. pose proof (at_store _ _ _ _ _ _ Hat p) as Hp. rewrite E in Hp.
  apply of2_r in Hp as ([sa wa] & Ea & (Ha & Hb & Hc & Hx & Hd)). rewrite bool_decide_true in Hx by done.
  eapply wpx_on_session; [exact E|]. eapply wpx_mono; [apply rpc_unlock_safe; [done|done|apply Hx|done]|].
  intros ret [s1 w1] [[_ [Hi _]] Hr]. cbn [fst snd] in *. subst s1.
  eapply poll_at_insert; [exact Hat|exact E|done|intros; split; congruence|]. intros s0 w0 (?&?&?&Hy&?); cbn [fst snd] in *.
  rewrite bool_decide_true in Hy by done. rewrite bool_decide_false by done.
  repeat split; cbn; try done; [symmetry; apply Hy|]. intros. rewrite Hi. auto.
Qed.

(** One session: the RPC lock is kept, and the entry left busy, only with
    [NC_PSPOLL_RPC]. *)
Definition after_entry (p : positive) (i : nat) (r : ps_queue) (ret : Z) x : Prop :=
  sound_ret ret ∧
  if ret =? NC_PSPOLL_RPC then poll_at x0 true (Some p) (Some i) r x
  else poll_at x0 true None None r x.

Lemma poll_entry_state idle fuel i e now_mono r x s w :
  poll_at x0 true (Some (pe_session e)) None r x → entries (pw_ps x) !! i = Some e →
  pw_store x !! pe_session e = Some (s, w) → sess_ok s →
  wlp (match pe_state e with
       | NC_PS_STATE_NONE =>
         s ← on_session (pe_session e) ses;
         if bool_decide (status s = NC_STATUS_RUNNING) then
           _ ← set_entry_state (Z.of_nat i) NC_PS_STATE_BUSY;
           ret ← nc_ps_poll_session_io fuel idle (pe_session e) NC_SESSION_LOCK_TIMEOUT now_mono;
           _ ← (if ret =? TERM_ERROR then set_entry_state (Z.of_nat i) NC_PS_STATE_INVALID
                else if (ret =? NC_PSPOLL_ERROR) || (ret =? NC_PSPOLL_TIMEOUT) ||
                        (ret =? NC_PSPOLL_SSH_CHANNEL) || (ret =? NC_PSPOLL_SSH_MSG)
                then set_entry_state (Z.of_nat i) NC_PS_STATE_NONE
                else mret tt);
           mret ret
         else
           _ ← set_entry_state (Z.of_nat i) NC_PS_STATE_INVALID;
           mret (if bool_decide (term_reason s = NC_SESSION_TERM_CLOSED) then NC_PSPOLL_SESSION_TERM
                 else TERM_ERROR)
       | NC_PS_STATE_BUSY => mret NC_PSPOLL_ERROR
       | NC_PS_STATE_INVALID => mret NC_PSPOLL_TIMEOUT
       end)
    (λ ret x', poll_at x0 true (Some (pe_session e)) (if ret =? NC_PSPOLL_RPC then Some i else None) r x' ∧
       (poll_ret ret ∨ ret = NC_PSPOLL_SESSION_TERM)) x.
Proof.
  intros Hat He E Hs. unfold poll_ret.
  destruct (pe_state e); [|apply wpx_ret; split; [done|tauto]..].
  apply wpx_bind. eapply wpx_session_read; [exact E|]. destruct (bool_decide (status s = _)).
  2: { apply wpx_bind. eapply wpx_mono; [by apply (poll_at_mark _ _ _ None _ _ i _ Hat)|].
       intros u x1 [H1 _]. apply wpx_ret. destruct (bool_decide _); (split; [exact H1|tauto]). }
  apply wpx_bind. eapply wpx_mono; [by apply (poll_at_mark _ _ _ (Some i) _ _ i NC_PS_STATE_BUSY Hat)|].
  intros u x1 [H1 Est1]. rewrite <- Est1 in E. apply wpx_bind. eapply wpx_mono.
  { eapply poll_session_io_kept; [exact E|done|by eapply poll_at_rings]. }
  intros ret x2 [Hk Hret]. pose proof (poll_at_kept _ _ _ _ _ _ H1 Hk) as H2. apply wpx_bind.
  eapply wpx_mono with (Q := λ _ x', poll_at x0 true (Some (pe_session e))
    (if ret =? NC_PSPOLL_RPC then Some i else None) r x').
  2: { intros ? x3 H3. apply wpx_ret. split; [exact H3|by left]. }
  assert (Hm : ∀ st, st ≠ NC_PS_STATE_BUSY → wlp (set_entry_state (Z.of_nat i) st)
    (λ _ x', poll_at x0 true (Some (pe_session e)) None r x') x2).
  { intros st Hst. eapply wpx_mono; [apply (poll_at_mark _ _ _ None _ _ i st H2); [congruence|done]|]. by intros ? ? [? _]. }
  destruct Hret as [->|[->|[->|[->|[->| ->]]]]]; try by apply Hm.
  by apply wpx_ret.
Qed.

Lemma poll_locked_at idle fuel i e now_mono r x s w :
  poll_at x0 true (Some (pe_session e)) None r x → entries (pw_ps x) !! i = Some e →
  pw_store x !! pe_session e = Some (s, w) → sess_ok s →
  wlp (poll_locked idle fuel (Z.of_nat i) now_mono) (after_entry (pe_session e) i r) x.
Proof.
  intros Hat He E Hs. unfold poll_locked. apply wpx_bind. eapply wpx_ps_entry; [exact He|].
  apply wpx_bind. eapply wpx_mono; [by eapply poll_entry_state|].
  intros ret x1 [H1 Hret].
  assert (Hsr : sound_ret ret).
  { destruct Hret as [[->|[->|[->|[->|[->| ->]]]]]| ->]; by repeat split. }
  apply wpx_bind. unfold after_entry. destruct (ret =? NC_PSPOLL_RPC) eqn:Er; cbn [negb].
  - apply wpx_ret, wpx_ret. rewrite Er. done.
  - pose proof (at_store _ _ _ _ _ _ Hat (pe_session e)) as Ha. rewrite E in Ha.
    apply of2_r in Ha as ([sa wa] & Ea & Hsa & _). cbn [fst] in Hsa.
    pose proof (at_store _ _ _ _ _ _ H1 (pe_session e)) as Hb. rewrite Ea in Hb.
    apply of2_l in Hb as ([sb wb] & Eb & Hsb & _). cbn [fst] in Hsb.
    apply wpx_bind. eapply wpx_mono; [eapply rpc_unlock_at; [exact H1|exact Eb|]|].
    { rewrite Hsb, <- Hsa. apply Hs. }
    intros u x2 H2. apply wpx_ret, wpx_ret. rewrite Er. done.
Qed.

Lemma poll_entry_at idle fuel i e0 now_mono r x :
  entries (pw_ps x0) !! i = Some e0 → poll_at x0 true None None r x →
  wlp (poll_entry idle fuel (Z.of_nat i) now_mono) (after_entry (pe_session e0) i r) x.
Proof.
  intros He0 Hat. destruct (poll_at_lookup _ _ _ _ _ _ _ Hat He0) as (e & He & <-).
  destruct (poll_at_entry _ _ _ _ _ _ _ Hat He) as (s & w & E & Hs & _).
  unfold poll_entry. apply wpx_bind. eapply wpx_ps_entry; [exact He|]. apply wpx_bind.
  eapply wpx_mono; [by eapply rpc_trylock_at|]. intros ret x1 [Eps H1]. unfold after_entry.
  destruct H1 as [[-> H1]|[[-> | ->] H1]]; cbn [Z.eqb Pos.eqb]; [|apply wpx_ret; (split; [by repeat split|exact H1])..].
  rewrite <- Eps in He. destruct (poll_at_entry _ _ _ _ _ _ _ H1 He) as (s1 & w1 & E1 & Hs1 & _).
  by eapply poll_locked_at.
Qed.

(** The loops; [count] is the number of entries. *)
Lemma poll_round_at idle n fuel count i now_mono r x :
  count = session_count (pw_ps x0) → 0 ≤ i < count → poll_at x0 true None None r x →
  wlp (poll_round idle n fuel count i now_mono)
    (λ ri x', ∃ j e0, ri.2 = Z.of_nat j ∧ entries (pw_ps x0) !! j = Some e0 ∧
       after_entry (pe_session e0) j r ri.1 x') x.
Proof.
  intros Hc. revert i x. induction n as [|n IH]; intros i x Hi Hat; cbn [poll_round].
  all: destruct (lookup_lt_is_Some_2 (entries (pw_ps x0)) (Z.to_nat i)) as [e0 He0];
    [destruct Hok as (Hl & _); unfold zlen in Hl; lia|].
  all: replace i with (Z.of_nat (Z.to_nat i)) by lia.
  - apply wpx_ret. exists (Z.to_nat i), e0. split; [done|]. split; [done|]. split; [by repeat split|exact Hat].
  - apply wpx_bind. eapply wpx_mono; [by eapply poll_entry_at|]. intros ret x1 H1.
    destruct (ret =? NC_PSPOLL_TIMEOUT) eqn:Et; cbn [negb]; [|apply wpx_ret; eauto].
    apply Z.eqb_eq in Et as ->. apply IH; [|apply H1].
    unfold ps_next. rewrite Z2Nat.id by lia. destruct (Z.eqb_spec i (count - 1)); lia.
Qed.

Lemma poll_rounds_at idle rounds fuel timeout ts now_mono r x :
  0 < session_count (pw_ps x0) → poll_at x0 true None None r x →
  wlp (poll_rounds idle rounds fuel timeout ts now_mono)
    (λ ri x', ∃ j e0, ri.2 = Z.of_nat j ∧ entries (pw_ps x0) !! j = Some e0 ∧
       after_entry (pe_session e0) j r ri.1 x') x.
Proof.
  intros Hc. revert x. induction rounds as [|rounds IH]; intros x Hat; cbn [poll_rounds]; [done|].
  apply wpx_bind, wpx_ps_get, wpx_bind. rewrite (at_count _ _ _ _ _ _ Hat).
  eapply wpx_mono; [apply poll_round_at; [done| |exact Hat]|].
  { pose proof (at_last _ _ _ _ _ _ Hat) as Hl. rewrite (at_count _ _ _ _ _ _ Hat) in Hl.
    destruct (_ =? _) eqn:E; lia. }
  intros [ret i] x1 (j & e0 & Ei & He0 & H1). cbn [fst snd] in *.
  destruct (ret =? NC_PSPOLL_TIMEOUT) eqn:Et; [|apply wpx_ret; eauto].
  apply Z.eqb_eq in Et as ->. destruct H1 as [Hsr H1]. change (poll_at x0 true None None r x1) in H1.
  apply wpx_bind. eapply wpx_mono; [apply (poll_at_glob _ _ _ _ _ _ H1); intros s w; done|].
  intros u x2 H2. destruct (-1 <? timeout); [|by apply IH].
  apply wpx_bind. eapply wpx_mono; [apply (poll_at_glob _ _ _ _ _ _ H2)|].
  { intros s w. by apply wpx_mono_diff. }
  intros d x3 H3. destruct (d <? 1); [|by apply IH]. apply wpx_ret. by exists j, e0.
Qed.

Lemma on_session_at {A} u q b r p (m : SM W A) (Q : A → Prop) x s w :
  poll_at x0 u q b r x → pw_store x !! p = Some (s, w) →
  wlp m (λ a sw, keeps s sw.1 ∧ Q a) (s, w) →
  wlp (on_session p m) (λ a x', poll_at x0 false q b r x' ∧ pw_ps x' = pw_ps x ∧ Q a) x.
Proof.
  intros Hat E Hm. eapply wpx_on_session; [exact E|]. eapply wpx_mono; [exact Hm|].
  intros a [s1 w1] [(K1&K2&K3&K4) HQ]. split; [|done].
  eapply poll_at_insert; [exact Hat|exact E|done|done|]. intros sa wa (?&?&?&Hx&?). cbn [fst snd] in *.
  repeat split; cbn [fst snd]; try congruence. destruct (bool_decide _); [|congruence].
  split; [tauto|]. rewrite K4. tauto.
Qed.

Lemma poll_at_server u q b r x i e0 :
  poll_at x0 u q b r x → entries (pw_ps x0) !! i = Some e0 →
  ∃ e s w, entries (pw_ps x) !! i = Some e ∧ pe_session e = pe_session e0 ∧
    pw_store x !! pe_session e0 = Some (s, w) ∧ sess_ok s ∧ (u = true → zlen (inq w) < 2 ^ 31).
Proof.
  intros Hat He0. destruct (poll_at_lookup _ _ _ _ _ _ _ Hat He0) as (e & He & Ee).
  destruct (poll_at_entry _ _ _ _ _ _ _ Hat He) as (s & w & E & Hs & Hlen & _).
  exists e, s, w. by rewrite <- Ee.
Qed.

(** The end of serving: the entry is marked and the result decided. *)
Lemma poll_mark_at q i e0 r x st ret :
  entries (pw_ps x0) !! i = Some e0 → poll_at x0 false q (Some i) r x → st ≠ NC_PS_STATE_BUSY →
  sound_ret ret →
  wlp (_ ← set_entry_state (Z.of_nat i) st; mret ret)
    (λ ret x', poll_at x0 false q None r x' ∧ sound_ret ret) x.
Proof.
  intros He0 Hat Hst Hr. apply wpx_bind.
  eapply wpx_mono; [apply (poll_at_mark _ _ _ None _ _ i st Hat); [congruence|done]|].
  intros u x1 [H1 _]. by apply wpx_ret.
Qed.

Lemma poll_serve_at fuel i e0 timeout now_mono r x :
  entries (pw_ps x0) !! i = Some e0 → poll_at x0 true (Some (pe_session e0)) (Some i) r x →
  wlp (poll_serve (node:=node) (envelope:=envelope) fuel (Z.of_nat i) timeout now_mono)
    (λ ret x', poll_at x0 false None None r x' ∧ sound_ret ret) x.
Proof.
  intros He0 Hat. destruct (poll_at_server _ _ _ _ _ _ _ Hat He0) as (e & s & w & He & Ee & E & Hs & Hlen).
  unfold poll_serve. apply wpx_bind. eapply wpx_ps_entry; [exact He|]. rewrite Ee. apply wpx_bind.
  eapply wpx_mono; [eapply on_session_at; [exact Hat|exact E|apply recv_rpc_safe; [done|done|by apply Hlen]]|].
  intros [ret rpc] x1 (H1 & _ & Hret). apply wpx_bind.
  eapply wpx_mono with (Q := λ ret x', poll_at x0 false (Some (pe_session e0)) None r x' ∧ sound_ret ret).
  2: { intros ret' x2 [H2 Hsound].
       destruct (poll_at_server _ _ _ _ _ _ _ H2 He0) as (e2 & s2 & w2 & _ & _ & E2 & Hs2 & _).
       apply wpx_bind. eapply wpx_mono; [eapply rpc_unlock_at; [exact H2|exact E2|apply Hs2]|].
       intros u x3 H3. by apply wpx_ret. }
  destruct (poll_at_server _ _ _ _ _ _ _ H1 He0) as (e1 & s1 & w1 & _ & _ & E1 & Hs1 & _).
  destruct (negb (Z.land ret _ =? 0)) eqn:Ebad.
  - apply wpx_bind. eapply wpx_session_read; [exact E1|].
    assert (Hsr : sound_ret ret ∧ sound_ret (Z.lor ret TERM_ERROR)).
    { destruct Hret as [[_ Hret]|[Hret _]]; cbn [fst] in Hret; [destruct Hret as [->|[->| ->]]|subst ret];
        try discriminate Ebad; by repeat split. }
    destruct Hsr, (bool_decide (status s1 = _)); cbn [negb]; by eapply poll_mark_at.
  - apply wpx_bind. eapply wpx_mono.
    { eapply (on_session_at _ _ _ _ _ _ (λ _, True)); [exact H1|exact E1|]. by apply wpx_upd_ses. }
    intros u x2 (H2 & _ & _).
    destruct (poll_at_server _ _ _ _ _ _ _ H2 He0) as (e2 & s2 & w2 & _ & _ & E2 & Hs2 & _).
    apply wpx_bind. eapply wpx_mono; [eapply on_session_at; [exact H2|exact E2|by apply send_reply_safe]|].
    intros r3 x3 (H3 & _ & Hr3).
    destruct (poll_at_server _ _ _ _ _ _ _ H3 He0) as (e3 & s3 & w3 & _ & _ & E3 & Hs3 & _).
    apply wpx_bind. eapply wpx_session_read; [exact E3|].
    assert (Hsr : sound_ret (Z.lor ret r3) ∧ sound_ret (Z.lor (Z.lor ret r3) NC_PSPOLL_SESSION_TERM) ∧
      sound_ret (Z.lor (Z.lor (Z.lor ret r3) NC_PSPOLL_SESSION_TERM) NC_PSPOLL_SESSION_ERROR)).
    { destruct Hret as [[Erpc Hret]|[Hret _]]; cbn [fst snd] in *.
      - destruct Hret as [->|[->| ->]]; try discriminate Ebad.
        destruct Hr3 as [->|[[? ?] _]]; [by repeat split|congruence].
      - subst ret. destruct Hr3 as [->|[_ [->|[->| ->]]]]; by repeat split. }
    destruct Hsr as (Hsa & Hsb & Hsc).
    destruct (bool_decide (status s3 = _)); cbn [negb]; [by eapply poll_mark_at|].
    destruct (Z.land (term_reason_value _) _ =? 0); by eapply poll_mark_at.
Qed.
End from.

(** ** The lock of the pollsession *)

Lemma ps_lock_any fuel x :
  empty_ring (ps_ring (pw_ps x)) →
  wlp (nc_ps_lock fuel)
    (λ r x', pw_store x' = pw_store x ∧
       ((r = (-1, 0) ∧ pw_ps x' = pw_ps x) ∨ (r = (0, 0) ∧ ps_taken (pw_ps x) (pw_ps x')))) x.
Proof.
  intros Hr. unfold nc_ps_lock. apply wpx_bind, wpx_glob, (wpx_on_env_inv zero_session), wpx_real_add; [done|].
  intros ts w _. apply wpx_bind, wpx_glob, wpx_call.
  destruct (_ =? 0); cbn [negb]; [|apply wpx_ret; auto].
  apply wpx_bind, wpx_ps_get. cbn [pw_ps]. destruct (enter_empty _ Hr) as (q' & -> & Hw & Hq).
  apply wpx_bind, wpx_ps_upd, wpx_bind, wpx_glob, wpx_call, wpx_ret. split; [done|]. by right.
Qed.

Lemma ps_unlock_any x :
  ps_queue_wf (ps_ring (pw_ps x)) → qlist (ps_ring (pw_ps x)) = [0] →
  wlp (nc_ps_unlock 0)
    (λ r x', pw_store x' = pw_store x ∧ ∃ q, empty_ring q ∧ pw_ps x' = set_queue q (pw_ps x)) x.
Proof.
  intros Hw Hq. unfold nc_ps_unlock. apply wpx_bind, wpx_glob, (wpx_on_env_inv zero_session), wpx_real_add; [done|].
  intros ts w _. apply wpx_bind, wpx_glob, wpx_call.
  apply wpx_bind, wpx_ps_get. cbn [pw_ps]. destruct (leave_only _ Hw Hq) as (q' & -> & He).
  apply wpx_bind, wpx_ps_upd, wpx_bind. destruct (_ =? 0); cbn [Z.eqb].
  - apply wpx_glob, wpx_call, wpx_ret. eauto.
  - apply wpx_ret, wpx_ret. eauto.
Qed.

(** The world after a call of [nc_ps_poll]. *)
Definition balanced x (r : Z * option positive) x' : Prop :=
  (∀ p, option_Forall2 (λ a b, keeps a.1 b.1) (pw_store x !! p) (pw_store x' !! p)) ∧
  (∀ i, option_Forall2 (entry_rel false) (entries (pw_ps x) !! i) (entries (pw_ps x') !! i)) ∧
  session_count (pw_ps x') = session_count (pw_ps x) ∧
  0 ≤ last_event_session (pw_ps x') < Z.max 1 (session_count (pw_ps x')) ∧
  empty_ring (ps_ring (pw_ps x')) ∧
  sound_ret r.1 ∧ (∀ p, r.2 = Some p → p ∈ map pe_session (entries (pw_ps x))).

Lemma poll_at_balanced x0 u q r x :
  poll_at x0 u None None q x → empty_ring q → sound_ret r.1 →
  (∀ p, r.2 = Some p → p ∈ map pe_session (entries (pw_ps x0))) → balanced x0 r x.
Proof.
  intros [H1 H2 H3 H4 H5] Hq Hr Hp. split; [|split; [|split; [done|split; [done|split; [congruence|done]]]]].
  - intros p. destruct (H1 p) as [a b (?&?&?&Hx&_)|]; constructor.
    rewrite bool_decide_false in Hx by done. by repeat split.
  - intros i. specialize (H2 i). by rewrite bool_decide_false in H2.
Qed.

Lemma poll_at_queue x0 u q b r r' x x' :
  poll_at x0 u q b r x → pw_store x' = pw_store x → pw_ps x' = set_queue r' (pw_ps x) →
  poll_at x0 u q b r' x'.
Proof. intros [H1 H2 H3 H4 H5] Est Eps. split; rewrite ?Est, ?Eps; try done. Qed.

Lemma taken_queue ps ps' : ps_taken ps ps' → ps' = set_queue (ps_ring ps') ps.
Proof. destruct ps, ps'. intros (?&?&?&_). simpl in *. by subst. Qed.

End balance.

(** ** Example *)

(** Data nodes printed letter by letter. *)
Definition letter_printer : Printer bytes bytes := {|
  is_action _ := false;
  lyd_print _ n := (map (λ c, [c]) n, true);
  opaq_ok _ := str "<ok/>";
  opaq_reply e cs := str "<rpc-reply" ++ e ++ str ">" ++ concat cs ++ str "</rpc-reply>";
|}.

(** Two NETCONF sessions of one SSH session, the first with a message that is not
    a request. *)
Definition demo_ssh_world : ps_world (sim false true) :=
  PsWorld (demo_ps [NcPsSession 1 NC_PS_STATE_NONE; NcPsSession 2 NC_PS_STATE_NONE])
    (<[1%positive := (demo_session NC_VERSION_11 (TiLibssh true (Some 2%positive)),
        demo_world (frame11 [str "<foo/>"]))]>
     (<[2%positive := (demo_session NC_VERSION_11 (TiLibssh true (Some 1%positive)), demo_world [])]> ∅))
    (Sim [] [] 0).

Lemma demo_ssh_ok : world_ok demo_ssh_world.
Proof.
  split; [reflexivity|]. split; [split; reflexivity|]. split.
  - intros [|[|i]] e E; [..|done]; injection E as <-; eexists _, _; (split; [reflexivity|]); by repeat split.
  - intros p s w c n E Et. cbn [pw_store demo_ssh_world] in *.
    apply lookup_insert_Some in E as [[<- [= <- <-]]|[_ E]]; [|apply lookup_insert_Some in E as [[<- [= <- <-]]|[_ E]]; [|done]];
      injection Et as <- <-; by eexists _, _, _, _.
Qed.

Definition demo_poll : PM (sim false true) (Z * option positive) :=
  nc_ps_poll (Printer0 := letter_printer) (RpcEnv0 := demo_rpc_env (λ s, s) ReplyOk) 0 3000 0.

Lemma demo_app_ok :
  app_ok (W := sim false true) (Printer0 := letter_printer) (RpcEnv0 := demo_rpc_env (λ s, s) ReplyOk).
Proof.
  split.
  - intros n wd. cbn. induction n; constructor; [reflexivity|assumption].
  - intros op f sw. cbn. destruct (bool_decide _); [|discriminate]. intros [= <-]. reflexivity.
  - intros f op sw. cbn. discriminate.
  - intros w. reflexivity.
Qed.

Lemma demo_poll_result :
  ∃ x', demo_poll demo_ssh_world = Done ((NC_PSPOLL_BAD_RPC, Some 1%positive), x') ∧
    sessions (pw_ps x') = Some [NcPsSession 1 NC_PS_STATE_NONE; NcPsSession 2 NC_PS_STATE_NONE].
Proof. eexists. split; [vm_compute; reflexivity|reflexivity]. Qed.

