(* ===== verification/PollServe.v ===== *)
(** * An RPC is served

    A request that has arrived on the next session of a pollsession is read,
    parsed, given to its callback and answered by one call of [nc_ps_poll]. *)

From S2P Require Import Prelude Session Env Time Locks Sim IoRead IoReadProofs.
From S2P Require Import Framing IoWrite IoWriteProofs IoWriteSafe IoTheorems.
From S2P Require Import Capabilities CapabilitiesProofs PsQueue PollSession PollProofs.
From Stdlib Require Import ZArith Ascii String Lia.
From stdpp Require Import base list strings gmap numbers.
Open Scope Z_scope.

Section serve.
Context {W node envelope : Type} `{RL : Reliable W} `{!Printer node envelope} `{!RpcEnv W node envelope}.
Implicit Types (s : nc_session) (w : W) (ps : nc_pollsession) (m : gmap positive (nc_session * W)).

(** A world in which the session at [p] is looked at. *)
Definition at_session ps m p s w (g : W) : ps_world W := PsWorld ps (<[p := (s, w)]> m) g.

Lemma wpx_at {A} F p (c : SM W A) (Q : A → ps_world W → Prop) ps m s w g :
  wpx F c (λ a sw, Q a (at_session ps m p sw.1 sw.2 g)) (s, w) →
  wpx F (on_session p c) Q (at_session ps m p s w g).
Proof.
  intros H. eapply wpx_on_session; [apply lookup_insert_eq|]. eapply wpx_mono; [exact H|].
  intros a [s' w'] HQ. cbn [fst snd] in HQ. unfold at_session in *. cbn [pw_ps pw_store pw_glob].
  by rewrite insert_insert_eq.
Qed.

Lemma wpx_at_ses F p (Q : nc_session → ps_world W → Prop) ps m s w g :
  Q s (at_session ps m p s w g) → wpx F (on_session p ses) Q (at_session ps m p s w g).
Proof. intros H. apply wpx_at, wpx_ses. exact H. Qed.

Lemma wpx_at_call {A} F p (f : W → A * W) (Q : A → ps_world W → Prop) ps m s w g :
  Q (f w).1 (at_session ps m p s (f w).2 g) → wpx F (on_session p (envcall f)) Q (at_session ps m p s w g).
Proof. intros H. apply wpx_at, wpx_envcall. exact H. Qed.

(** ** Finding the session *)

Lemma poll_fd_ready F p fd (Q : Z → ps_world W → Prop) ps m s w g :
  inq w ≠ [] → (∀ w', no_traffic w w' → Q NC_PSPOLL_RPC (at_session ps m p s w' g)) →
  wpx F (r ← on_session p (envcall (sys_poll fd 0)); on_session p (poll_fd_result r)) Q
    (at_session ps m p s w g).
Proof.
  intros Hin HQ. apply wpx_bind, wpx_at_call. destruct (rel_poll_in fd 0 w Hin) as (ret & -> & Hr).
  apply wpx_at. unfold poll_fd_result. replace (0 <? ret) with true by lia. apply wpx_ret, HQ, poll_law.
Qed.

Lemma poll_transport_ready F fuel p ps m s w g :
  open_session s → inq w ≠ [] →
  wpx F (poll_transport fuel p)
    (λ r x, r = NC_PSPOLL_RPC ∧ ∃ w', no_traffic w w' ∧ x = at_session ps m p s w' g)
    (at_session ps m p s w g).
Proof.
  intros [_ Ht] Hin. unfold poll_transport. apply wpx_bind, wpx_at_ses.
  destruct (ti s) as [|fd o|fd|ch nx|]; [done| | | |].
  - apply poll_fd_ready; eauto.
  - apply poll_fd_ready; eauto.
  - apply wpx_bind, wpx_at_call. destruct (rel_ssh_poll 0 w Hin) as (n & -> & Hn).
    rewrite (proj2 (Z.eqb_neq n 0)) by lia. apply wpx_ret. split; [done|]. eexists. split; [apply ssh_poll_law|done].
  - apply wpx_bind, wpx_at_call. pose proof (ssl_pending_law w) as Hw. destruct (ssl_pending w) as [n w1].
    cbn [fst snd] in *. fold (no_traffic w w1) in Hw. destruct (n =? 0); [|apply wpx_ret; eauto].
    apply wpx_bind, wpx_at_call. pose proof (rel_ssl_fd w1) as Hfd. pose proof (ssl_fd_law w1) as Hw1.
    destruct (ssl_get_fd w1) as [fd w2]. cbn [fst snd] in *. fold (no_traffic w1 w2) in Hw1.
    rewrite (proj2 (Z.ltb_ge fd 0)) by lia. apply poll_fd_ready.
    + assert (no_traffic w w2) as (_ & -> & _) by (etrans; [exact Hw|exact Hw1]). done.
    + intros w3 Hw3. split; [done|]. eexists. split; [|done].
      etrans; [exact Hw|]. etrans; [exact Hw1|exact Hw3].
Qed.

(** The session is not subject to the idle timeout. *)
Definition never_idle (idle_timeout : Z) s : Prop :=
  idle_timeout = 0 ∨ Z.land (flags s) NC_SESSION_CALLHOME ≠ 0 ∨ nc_session_get_notif_status s ≠ 0.

Lemma not_idle idle s now_mono :
  never_idle idle s →
  (Z.land (flags s) NC_SESSION_CALLHOME =? 0) && (nc_session_get_notif_status s =? 0) &&
  negb (idle =? 0) && (last_rpc (server s) + idle <=? now_mono) = false.
Proof.
  intros [->|[H|H]].
  - by rewrite andb_false_r.
  - by rewrite (proj2 (Z.eqb_neq _ _) H).
  - by rewrite (proj2 (Z.eqb_neq _ _) H), andb_false_r.
Qed.

Lemma io_unlocked s : io_lock s = Some false → set_io_lock (Some false) (set_io_lock (Some true) s) = s.
Proof. destruct s. simpl. by intros ->. Qed.

Lemma poll_session_ready F fuel idle p now_mono ps m s w g :
  open_session s → io_lock s = Some false → inq w ≠ [] → never_idle idle s →
  wpx F (nc_ps_poll_session_io fuel idle p NC_SESSION_LOCK_TIMEOUT now_mono)
    (λ r x, r = NC_PSPOLL_RPC ∧ ∃ w', no_traffic w w' ∧ x = at_session ps m p s w' g)
    (at_session ps m p s w g).
Proof.
  intros Hs Hl Hin Hidle. unfold nc_ps_poll_session_io. apply wpx_bind, wpx_at_ses.
  rewrite not_idle by done. apply wpx_bind, wpx_at.
  eapply wpx_mono; [by apply nc_session_io_lock_ok|]. intros r [s1 w1] (-> & Es & Hw1).
  cbn [fst snd] in *. subst s1. cbn [Z.ltb Z.eqb Z.compare Pos.eqb]. apply wpx_bind.
  eapply wpx_mono; [apply poll_transport_ready; [done|by rewrite (proj1 (proj2 Hw1))]|].
  intros ret x1 (-> & w2 & Hw2 & ->). apply wpx_bind, wpx_at.
  eapply wpx_mono; [by apply nc_session_io_unlock_spec|]. intros u [s3 w3] (_ & Hw3 & Es3).
  cbn [fst snd] in *. subst s3. rewrite io_unlocked by done. apply wpx_ret. split; [done|]. exists w3.
  split; [|done]. etrans; [exact Hw1|]. etrans; [exact Hw2|exact Hw3].
Qed.

Lemma rpc_trylock_ready F s w :
  side s = NC_SERVER → rpc_inuse (server s) = false →
  wpx F nc_session_rpc_trylock (λ r sw, r = 1 ∧ sw.1 = set_rpc_inuse true s ∧ no_traffic w sw.2) (s, w).
Proof.
  intros Hside Hu. unfold nc_session_rpc_trylock. apply wpx_bind, wpx_ses.
  rewrite bool_decide_true by done. cbn [negb]. apply wpx_bind, wpx_envcall. rewrite rel_trylock.
  cbn [Z.eqb negb]. rewrite Hu. apply wpx_bind, wpx_upd_ses, wpx_bind, wpx_envcall. rewrite unlock_ok.
  apply wpx_ret. split; [done|]. split; [done|]. cbn [snd]. etrans; [apply trylock_law|apply unlock_law].
Qed.

Lemma rpc_unlock_ready F s w :
  side s = NC_SERVER → rpc_inuse (server s) = true →
  wpx F (nc_session_rpc_unlock NC_SESSION_LOCK_TIMEOUT)
    (λ r sw, r = 1 ∧ sw.1 = set_rpc_inuse false s ∧ no_traffic w sw.2) (s, w).
Proof.
  intros Hside Hu. unfold nc_session_rpc_unlock. apply wpx_bind, wpx_ses.
  rewrite bool_decide_true by done. cbn [negb]. apply wpx_bind, wpx_guarded; [done|].
  apply wpx_bind, wpx_real_add; [done|]. intros ts w1 Hw1. apply wpx_bind, wpx_envcall. rewrite rel_timedlock.
  cbn [Z.eqb negb andb]. apply wpx_bind, wpx_upd_ses, wpx_bind, wpx_envcall. rewrite unlock_ok. apply wpx_ret.
  split; [done|]. split; [done|]. cbn [snd].
  etrans; [by apply quiet_no_traffic|]. etrans; [apply timedlock_law|apply unlock_law].
Qed.

(** ** The entries *)

Definition mark (st : nc_ps_session_state) (e : nc_ps_session) : nc_ps_session := NcPsSession (pe_session e) st.

Lemma wpx_at_entry F i e (Q : nc_ps_session → ps_world W → Prop) l c k q m p s w g :
  l !! i = Some e → Q e (at_session (NcPollsession (Some l) c k q) m p s w g) →
  wpx F (ps_entry (Z.of_nat i)) Q (at_session (NcPollsession (Some l) c k q) m p s w g).
Proof.
  intros E HQ. unfold ps_entry. apply wpx_bind, wpx_ps_get. cbn [pw_ps at_session sessions mbind option_bind].
  rewrite Nat2Z.id, E. by apply wpx_ret.
Qed.

Lemma wpx_at_mark F i st (Q : unit → ps_world W → Prop) l c k q m p s w g :
  Q tt (at_session (NcPollsession (Some (alter (mark st) i l)) c k q) m p s w g) →
  wpx F (set_entry_state (Z.of_nat i) st) Q (at_session (NcPollsession (Some l) c k q) m p s w g).
Proof. intros HQ. apply wpx_ps_upd. cbn [pw_ps at_session sessions]. by rewrite Nat2Z.id. Qed.

Lemma mark_twice st st' (i : nat) (l : list nc_ps_session) e :
  l !! i = Some e → pe_state e = st' → alter (mark st') i (alter (mark st) i l) = l.
Proof.
  revert i. induction l as [|a l IH]; intros [|i]; [done..| |]; cbn; intros E Es.
  - injection E as ->. subst st'. by destruct e.
  - f_equal. by apply IH.
Qed.

Lemma poll_entry_ready F idle fuel i p now_mono l c k q m s w g :
  l !! i = Some (NcPsSession p NC_PS_STATE_NONE) → status s = NC_STATUS_RUNNING → side s = NC_SERVER →
  rpc_inuse (server s) = false → open_session s → io_lock s = Some false → inq w ≠ [] → never_idle idle s →
  wpx F (poll_entry idle fuel (Z.of_nat i) now_mono)
    (λ r x, r = NC_PSPOLL_RPC ∧ ∃ w', no_traffic w w' ∧
       x = at_session (NcPollsession (Some (alter (mark NC_PS_STATE_BUSY) i l)) c k q) m p (set_rpc_inuse true s) w' g)
    (at_session (NcPollsession (Some l) c k q) m p s w g).
Proof.
  intros Hi Hst Hside Hu Hs Hl Hin Hidle. unfold poll_entry. apply wpx_bind. eapply wpx_at_entry; [exact Hi|].
  apply wpx_bind, wpx_at. eapply wpx_mono; [by apply rpc_trylock_ready|].
  intros r [s1 w1] (-> & Es1 & Hw1). cbn [fst snd pe_session] in *. subst s1. cbn [Z.eqb Pos.eqb].
  unfold poll_locked. apply wpx_bind. eapply wpx_at_entry; [exact Hi|]. cbn [pe_state pe_session].
  apply wpx_bind, wpx_bind, wpx_at_ses. rewrite bool_decide_true by done.
  apply wpx_bind, wpx_at_mark, wpx_bind.
  eapply wpx_mono; [apply poll_session_ready; [done|done|by rewrite (proj1 (proj2 Hw1))|done]|].
  intros r x2 (-> & w2 & Hw2 & ->). apply wpx_bind, wpx_ret, wpx_ret, wpx_bind, wpx_ret, wpx_ret.
  split; [done|]. exists w2. split; [|done]. etrans; [exact Hw1|exact Hw2].
Qed.

(** ** Reading and answering *)

Lemma nc_read_msg_own_ok F fuel timeout cs rest s w :
  open_session s → io_lock s = Some false → chunks_ok cs → frameable (version s) (concat cs) →
  inq w = framed (version s) cs ++ rest → zlen (inq w) < 2 ^ 31 → zlen (inq w) < Z.of_nat fuel →
  wpx F (nc_read_msg_io fuel timeout false)
    (λ rm sw, rm = (1, Some (concat cs)) ∧ sw.1 = s ∧ inq sw.2 = rest ∧ outq sw.2 = outq w) (s, w).
Proof.
  intros [Hst Ht] Hl Hok Hfr Hin Hlen Hf. unfold nc_read_msg_io. apply wpx_bind, wpx_ses. rewrite Hst. cbn [negb].
  apply wpx_bind, wpx_mono_add; [done|]. intros ts w1 _ _ (_ & Hi1 & Ho1).
  apply wpx_bind. eapply wpx_mono; [by apply nc_session_io_lock_ok|].
  intros r [s1 w2] (-> & Es & _ & Hi2 & Ho2). cbn [fst snd] in *. subst s1.
  change (1 <? 1) with false. cbv iota. rewrite <- Hi1, <- Hi2 in Hin, Hlen, Hf.
  apply wpx_bind. eapply wpx_mono; [eapply (nc_read_framed_ok F fuel _ ts cs rest (set_io_lock (Some true) s) w2); done|].
  intros [ret data] [s2 w3] ([= -> ->] & Es & Hi3 & Ho3). cbn [fst snd] in *. subst s2.
  cbn [Z.eqb negb Pos.eqb]. apply wpx_bind. eapply wpx_mono; [by apply nc_session_io_unlock_spec|].
  intros r [s3 w4] (_ & (_ & Hi4 & Ho4) & Es). cbn [fst snd] in *. subst s3. rewrite io_unlocked by done.
  rewrite cstr_id by apply Hfr.
  apply wpx_bind, wpx_envcall. rewrite rel_ly_in. cbn [negb]. apply wpx_ret. cbn [fst snd].
  destruct (ly_in_law (concat cs) w4) as (_ & Hi5 & Ho5). repeat split; congruence.
Qed.

(** A request, what it is answered, and that the environment parses the one and
    computes the other without traffic on the session. *)
Record request (msg : bytes) (envp : envelope) (op : node) (reply : nc_server_reply node) : Prop :=
Request {
  rq_parse w : ∃ w', lyd_parse_op msg w = (ParsedOp envp op, w') ∧ no_traffic w w';
  rq_msgid : recv_rpc_check_msgid (W:=W) (node:=node) envp = NC_MSG_RPC;
  rq_act : rpc_has_act (W:=W) (envelope:=envelope) op = true;
  rq_clb : ∃ f, rpc_clb (envelope:=envelope) op = Some f ∧
    ∀ s' w, ∃ w', f op (s', w) = (Some reply, (s', w')) ∧ no_traffic w w';
}.

Lemma recv_ready F fuel timeout cs rest envp op reply s w :
  status s = NC_STATUS_RUNNING → side s = NC_SERVER →
  open_session s → io_lock s = Some false → chunks_ok cs → frameable (version s) (concat cs) →
  inq w = framed (version s) cs ++ rest → zlen (inq w) < 2 ^ 31 → zlen (inq w) < Z.of_nat fuel →
  request (concat cs) envp op reply →
  wpx F (nc_server_recv_rpc_io fuel timeout)
    (λ r sw, r = (NC_PSPOLL_RPC, Some (envp, op)) ∧ sw.1 = s ∧ inq sw.2 = rest ∧ outq sw.2 = outq w) (s, w).
Proof.
  intros Hst Hside Hs Hl Hok Hfr Hin Hlen Hf [Hparse Hid _ _].
  unfold nc_server_recv_rpc_io. apply wpx_bind, wpx_ses. rewrite !bool_decide_true by done. cbn [negb orb].
  apply wpx_bind. eapply wpx_mono; [by eapply nc_read_msg_own_ok|].
  intros rm [s1 w1] (-> & Es & Hi1 & Ho1). cbn [fst snd] in *. subst s1.
  change (1 =? -2) with false. change (1 =? -1) with false. change (1 =? 0) with false. cbv iota.
  apply wpx_bind, wpx_envcall. rewrite rel_malloc by lia. cbn [negb].
  destruct (malloc_law 16 w1) as (_ & Hi2 & Ho2). set (w2 := (malloc_ok 16 w1).2) in *.
  apply wpx_bind, wpx_envcall. destruct (Hparse w2) as (w3 & -> & _ & Hi3 & Ho3). cbn [fst snd].
  rewrite bool_decide_true by exact Hid. apply wpx_ret. cbn [fst snd]. repeat split; congruence.
Qed.

Lemma reply_ready F fuel timeout msg envp op reply s w :
  ready s → status s = NC_STATUS_RUNNING → term_reason s = NC_SESSION_TERM_NONE → io_lock s = Some false →
  request msg envp op reply → msg_ok fuel s (OutReply (Some envp) reply) →
  wpx F (nc_server_send_reply_io fuel timeout (Some (envp, op)))
    (λ r sw, r = (if reply_is_error reply then NC_PSPOLL_REPLY_ERROR else 0) ∧ sw.1 = s ∧ inq sw.2 = inq w ∧
       ∃ out, chunks_ok out ∧ concat out = msg_payload s (OutReply (Some envp) reply) ∧
         outq sw.2 = outq w ++ framed (version s) out) (s, w).
Proof.
  intros Hs Hst Htr Hl [_ _ Hact (f & Ef & Hf)] Hm. unfold nc_server_send_reply_io. rewrite Hact. cbn [negb].
  rewrite Ef. apply wpx_bind. unfold run_clb. destruct (Hf s w) as (w1 & Efw & _ & Hi1 & Ho1).
  unfold wpx at 1. rewrite Efw. change (default _ (Some reply)) with reply.
  apply wpx_bind. eapply wpx_mono; [by apply nc_write_msg_io_spec|].
  intros r [s2 w2] (-> & Es & Hi2 & out & Hok & Eout & Ho2). cbn [fst snd after_msg] in *. subst s2.
  apply wpx_bind, wpx_ses, wpx_bind. rewrite Htr, andb_false_r. apply wpx_ret, wpx_ret. cbn [fst snd out_type].
  rewrite bool_decide_true by done. rewrite wires_framed in Ho2.
  split; [done|]. split; [done|]. split; [congruence|]. exists out. by rewrite <- Ho1.
Qed.

(** A complete request waits on a running session that nobody uses. *)
Record rpc_pending (idle_timeout : Z) (fuel : nat) s w (cs : list bytes) (rest : bytes)
    (envp : envelope) (op : node) (reply : nc_server_reply node) : Prop := RpcPending {
  rp_ready : ready s;
  rp_running : status s = NC_STATUS_RUNNING;
  rp_term : term_reason s = NC_SESSION_TERM_NONE;
  rp_side : side s = NC_SERVER;
  rp_io : io_lock s = Some false;
  rp_free : rpc_inuse (server s) = false;
  rp_idle : never_idle idle_timeout s;
  rp_chunks : chunks_ok cs;
  rp_frameable : frameable (version s) (concat cs);
  rp_in : inq w = framed (version s) cs ++ rest;
  rp_len : zlen (inq w) < 2 ^ 31;
  rp_fuel : zlen (inq w) < Z.of_nat fuel;
  rp_request : request (concat cs) envp op reply;
  rp_reply : msg_ok fuel s (OutReply (Some envp) reply);
}.

Lemma pending_inq idle fuel s w cs rest envp op reply :
  rpc_pending idle fuel s w cs rest envp op reply → inq w ≠ [].
Proof.
  intros H. rewrite (rp_in _ _ _ _ _ _ _ _ _ H). intros E. apply app_eq_nil in E as [E _].
  by apply framed_nonempty in E.
Qed.

Definition served_ret (reply : nc_server_reply node) : Z :=
  Z.lor NC_PSPOLL_RPC (if reply_is_error reply then NC_PSPOLL_REPLY_ERROR else 0).

(** The session after its request was served at time [t]. *)
Lemma served_session s t :
  rpc_inuse (server s) = false →
  set_rpc_inuse false (set_last_rpc t (set_rpc_inuse true s)) = set_last_rpc t s.
Proof. destruct s as [? ? ? ? ? ? ? ? ? ? ? ? ? ? []]. simpl. by intros ->. Qed.

Lemma poll_serve_ready F idle fuel timeout i p now_mono l c k q m s w0 w g cs rest envp op reply :
  rpc_pending idle fuel s w0 cs rest envp op reply → no_traffic w0 w →
  l !! i = Some (NcPsSession p NC_PS_STATE_NONE) →
  wpx F (poll_serve fuel (Z.of_nat i) timeout now_mono)
    (λ r x, r = served_ret reply ∧ ∃ w' out,
       x = at_session (NcPollsession (Some l) c k q) m p (set_last_rpc now_mono s) w' g ∧
       inq w' = rest ∧ chunks_ok out ∧ concat out = msg_payload s (OutReply (Some envp) reply) ∧
       outq w' = outq w0 ++ framed (version s) out)
    (at_session (NcPollsession (Some (alter (mark NC_PS_STATE_BUSY) i l)) c k q) m p (set_rpc_inuse true s) w g).
Proof.
  intros [] (_ & Hi0 & Ho0) Hi. rewrite <- Hi0 in *. unfold poll_serve. apply wpx_bind.
  eapply wpx_at_entry; [by rewrite list_lookup_alter_eq, Hi|]. cbn [fmap option_fmap option_map mark pe_session].
  apply wpx_bind, wpx_at.
  eapply wpx_mono; [apply (recv_ready F fuel timeout cs rest envp op reply (set_rpc_inuse true s) w); try done; apply rp_ready0|].
  intros r [s1 w1] (-> & Es & Hi1 & Ho1). cbn [fst snd] in *. subst s1.
  change (negb (Z.land NC_PSPOLL_RPC (Z.lor NC_PSPOLL_ERROR NC_PSPOLL_BAD_RPC) =? 0)) with false. cbv iota.
  apply wpx_bind, wpx_bind, wpx_at, wpx_upd_ses. cbn [fst snd].
  set (s2 := set_last_rpc now_mono (set_rpc_inuse true s)).
  apply wpx_bind, wpx_at.
  eapply wpx_mono; [apply (reply_ready F fuel timeout (concat cs) envp op reply s2 w1); try done|].
  intros r [s3 w3] (-> & Es & Hi3 & out & Hok & Eout & Ho3). cbn [fst snd] in *. subst s3.
  apply wpx_bind, wpx_at_ses. rewrite bool_decide_true by done. cbn [negb].
  apply wpx_bind, wpx_at_mark, wpx_ret. rewrite (mark_twice _ _ _ _ _ Hi) by done.
  apply wpx_bind, wpx_at. eapply wpx_mono; [by apply rpc_unlock_ready|].
  intros u [s4 w4] (_ & Es4 & _ & Hi4 & Ho4). cbn [fst snd] in *. subst s4. apply wpx_ret.
  split; [done|]. exists w4, out. unfold s2. rewrite served_session by done.
  split; [done|]. split; [congruence|]. split; [done|]. split; [exact Eout|]. rewrite Ho4, Ho3, Ho1, Ho0. done.
Qed.

Lemma glob_mono F n (Q : timespec → ps_world W → Prop) ps m p s w g :
  0 ≤ n → (∀ ts g', Q ts (at_session ps m p s w g')) →
  wpx F (glob (nc_gettimespec_mono_add n)) Q (at_session ps m p s w g).
Proof.
  intros Hn HQ. apply wpx_glob, (wpx_on_env_inv zero_session), wpx_mono_add; [done|]. intros ts w' _ _ _. apply HQ.
Qed.

(** The index polling starts at. *)
Definition first_polled ps : Z :=
  if last_event_session ps =? session_count ps - 1 then 0 else last_event_session ps + 1.

Lemma poll_rounds_ready F idle fuel rounds timeout ts now_mono i l c k q m p s w g cs rest envp op reply :
  rpc_pending idle fuel s w cs rest envp op reply → c = zlen l →
  l !! i = Some (NcPsSession p NC_PS_STATE_NONE) →
  first_polled (NcPollsession (Some l) c k q) = Z.of_nat i →
  wpx F (poll_rounds idle (S rounds) fuel timeout ts now_mono)
    (λ r x, r = (NC_PSPOLL_RPC, Z.of_nat i) ∧ ∃ w', no_traffic w w' ∧
       x = at_session (NcPollsession (Some (alter (mark NC_PS_STATE_BUSY) i l)) c k q) m p (set_rpc_inuse true s) w' g)
    (at_session (NcPollsession (Some l) c k q) m p s w g).
Proof.
  intros Hp Hc Hi Hfirst. pose proof (pending_inq _ _ _ _ _ _ _ _ _ Hp) as Hin. destruct Hp.
  cbn [poll_rounds]. apply wpx_bind, wpx_ps_get. cbn [pw_ps at_session session_count last_event_session].
  unfold first_polled in Hfirst. cbn [last_event_session session_count] in Hfirst. rewrite Hfirst.
  apply lookup_lt_Some in Hi as Hlt. destruct (Z.to_nat c) as [|n] eqn:En; [unfold zlen in Hc; lia|].
  apply wpx_bind. cbn [poll_round]. apply wpx_bind.
  eapply wpx_mono; [apply poll_entry_ready; try done; apply rp_ready0|].
  intros r x1 (-> & w1 & Hw1 & ->). cbn [Z.eqb negb Pos.eqb NC_PSPOLL_RPC NC_PSPOLL_TIMEOUT].
  apply wpx_ret, wpx_ret. eauto.
Qed.

Lemma poll_serves F idle fuel timeout x p l i s w cs rest envp op reply :
  rpc_pending idle fuel s w cs rest envp op reply →
  pw_store x !! p = Some (s, w) → empty_ring (ps_ring (pw_ps x)) →
  sessions (pw_ps x) = Some l → session_count (pw_ps x) = zlen l →
  l !! i = Some (NcPsSession p NC_PS_STATE_NONE) → first_polled (pw_ps x) = Z.of_nat i →
  wpx F (nc_ps_poll idle fuel timeout)
    (λ r x', r = (served_ret reply, Some p) ∧ ∃ t w' out,
       pw_store x' = <[p := (set_last_rpc t s, w')]> (pw_store x) ∧
       sessions (pw_ps x') = Some l ∧ last_event_session (pw_ps x') = Z.of_nat i ∧
       empty_ring (ps_ring (pw_ps x')) ∧ inq w' = rest ∧
       chunks_ok out ∧ concat out = msg_payload s (OutReply (Some envp) reply) ∧
       outq w' = outq w ++ framed (version s) out) x.
Proof.
  intros Hp E Hr El Ec Hi Hfirst. unfold nc_ps_poll. apply wpx_bind.
  eapply wpx_mono; [by apply nc_ps_lock_ok|]. intros rq x1 (-> & (Es1 & Ec1 & Ek1 & Hw1 & Hq1) & Est1).
  cbn [negb Z.eqb]. destruct x1 as [[sess c k q] m g]. cbn [pw_ps pw_store sessions session_count last_event_session ps_ring] in *.
  subst m c k sess. rewrite El, Ec in *.
  assert (Ex : ∀ ps, PsWorld ps (pw_store x) g = at_session ps (pw_store x) p s w g).
  { intros ps. unfold at_session. by rewrite insert_id. }
  rewrite Ex. apply wpx_bind, wpx_ps_get. cbn [pw_ps at_session session_count].
  apply lookup_lt_Some in Hi as Hlt. rewrite (proj2 (Z.eqb_neq (zlen l) 0)) by (unfold zlen; lia).
  apply wpx_bind, glob_mono; [done|]. intros ts_cur g1. apply wpx_bind.
  eapply wpx_mono with (Q := λ _ x', ∃ g', x' = at_session (NcPollsession (Some l) (zlen l) _ q) (pw_store x) p s w g').
  { destruct (-1 <? timeout) eqn:Et; [|apply wpx_ret; eauto]. apply glob_mono; [lia|eauto]. }
  intros ts ? [g2 ->]. destruct fuel as [|fuel]; [destruct Hp; pose proof (zlen_nonneg (inq w)); lia|].
  apply wpx_bind. eapply wpx_mono; [eapply poll_rounds_ready; [exact Hp|done|exact Hi|]|].
  { rewrite <- Hfirst. unfold first_polled. cbn [last_event_session session_count]. by rewrite Ec. }
  intros ri x2 (-> & w2 & Hw2 & ->). change (returns_session NC_PSPOLL_RPC) with true. cbv iota.
  apply wpx_bind, wpx_bind. eapply wpx_at_entry; [by rewrite list_lookup_alter_eq, Hi|].
  apply wpx_bind, wpx_ps_upd, wpx_ret. cbn [pw_ps pw_store pw_glob at_session set_last_event sessions session_count ps_ring mark pe_session].
  apply wpx_bind. eapply wpx_mono; [by apply nc_ps_unlock_ok|].
  intros u x3 (_ & He3 & Es3 & Ec3 & Ek3 & Est3). destruct x3 as [[sess c k q3] m g3].
  cbn [pw_ps pw_store sessions session_count last_event_session ps_ring] in *. subst sess c k m.
  rewrite Z.eqb_refl. apply wpx_bind. eapply wpx_mono; [eapply poll_serve_ready; [exact Hp|exact Hw2|exact Hi]|].
  intros r x4 (-> & w' & out & -> & Hrest & Hok & Eout & Hout). apply wpx_ret. split; [done|].
  exists (tv_sec ts_cur), w', out. done.
Qed.

End serve.

(** ** Examples *)

Definition demo_client_world (t : transport) : ps_world (sim true true) :=
  PsWorld (demo_ps [NcPsSession 7 NC_PS_STATE_INVALID; NcPsSession 5 NC_PS_STATE_NONE])
    (<[5%positive := (demo_session NC_VERSION_11 t,
        demo_world (framed NC_VERSION_11 [demo_request] ++ str "more"))]> ∅)
    (Sim [] [] 0).


(** A callback that ends the session because the transport was dropped
    ([NC_SESSION_TERM_DROPPED]) makes [nc_ps_poll] report a session that terminated
    without [NC_PSPOLL_SESSION_ERROR], as if by a close-session or kill-session RPC,
    because the test treats the termination reasons, which are consecutive
    numbers, as bits.  The same session found invalid by the next poll would be
    reported as an error. *)
Theorem dropped_not_an_error :
  ∃ x', nc_ps_poll (RpcEnv0 := demo_rpc_env (nc_session_set_term_reason NC_SESSION_TERM_DROPPED) ReplyOk) 0 2000 0
      (demo_client_world (TiFd 3 4)) =
    Done ((Z.lor NC_PSPOLL_RPC NC_PSPOLL_SESSION_TERM, Some 5%positive), x') ∧
  (∃ s w, pw_store x' !! 5%positive = Some (s, w) ∧ status s = NC_STATUS_INVALID ∧
     term_reason s = NC_SESSION_TERM_DROPPED) ∧
  sessions (pw_ps x') = Some [NcPsSession 7 NC_PS_STATE_INVALID; NcPsSession 5 NC_PS_STATE_INVALID].
Proof.
  eexists. split; [vm_compute; reflexivity|]. split; [|reflexivity].
  eexists _, _. split; [vm_compute; reflexivity|]. split; reflexivity.
Qed.
