(* ===== verification/ClientRecv.v ===== *)
(** * Receiving on the client side

    src/session_client.c: a client waits for replies and for notifications on one
    session.  A message of the other type than the one waited for is put into the
    queue [opts.client.msgs], where a later call finds it.  libyang is a
    parameter. *)

From S2P Require Import Prelude Session Env Time Locks IoRead Capabilities.
From Stdlib Require Import ZArith Ascii String Lia.
From stdpp Require Import base list strings gmap numbers.
Open Scope Z_scope.

(** ** Types of messages *)

(** [strstr]: the rest of the text from the first occurrence on. *)
Fixpoint strstr (hay needle : bytes) : option bytes :=
  if bool_decide (take (length needle) hay = needle) then Some hay
  else match hay with
       | [] => None
       | _ :: hay => strstr hay needle
       end.

(** One declaration or comment is skipped in each round, so that the length of
    the text bounds the rounds. *)
Fixpoint get_msg_type_loop (fuel : nat) (s : bytes) : option NC_MSG_TYPE :=
  match fuel with
  | O => None
  | S fuel =>
    match s with
    | [] => Some NC_MSG_ERROR
    | _ =>
      let skip (s end_ : bytes) :=
        match strstr s end_ with
        | None => Some NC_MSG_ERROR
        | Some s => get_msg_type_loop fuel (drop (length end_) s)
        end in
      match skip_spaces s with
      | "<"%char :: s =>
        if strncmp_eq s (str "!--") 3 then skip s (str "-->")
        else if strncmp_eq s (str "?xml") 4 then skip s (str "?>")
        else if strncmp_eq s (str "rpc-reply") 9 then Some NC_MSG_REPLY
        else if strncmp_eq s (str "notification") 12 then Some NC_MSG_NOTIF
        else Some NC_MSG_ERROR
      | _ => Some NC_MSG_ERROR
      end
    end
  end.

Definition get_msg_type (msg : bytes) : NC_MSG_TYPE :=
  default NC_MSG_ERROR (get_msg_type_loop (S (length msg)) msg).

(** ** The queue *)

(** The first message of a type, taken out of the queue. *)
Fixpoint take_msg (expected : NC_MSG_TYPE) (l : list nc_msg_cont) : option (nc_msg_cont * list nc_msg_cont) :=
  match l with
  | [] => None
  | c :: l =>
    if decide (mc_type c = expected) then Some (c, l)
    else match take_msg expected l with
         | None => None
         | Some (m, l) => Some (m, c :: l)
         end
  end.

Section recv.
Context {W : Type} `{!Env W}.

(** Reading from the wire: the type and the message, if it is of the expected
    type.  A malformed message, the result -2, leaves no message to look at. *)
Definition recv_wire (fuel : nat) (timeout : Z) (expected : NC_MSG_TYPE)
    : SM W (NC_MSG_TYPE * option bytes) :=
  '(r, msg) ← nc_read_msg_poll_io fuel timeout;
  if r =? 0 then mret (NC_MSG_WOULDBLOCK, None)
  else if r =? -1 then mret (NC_MSG_ERROR, None)
  else
    match msg with
    | None => crash
    | Some msg =>
      let ret := get_msg_type msg in
      if decide (ret = NC_MSG_ERROR) then mret (ret, None)
      else if decide (ret = expected) then mret (ret, Some msg)
      else
        ok ← envcall (malloc_ok 24);
        if negb ok then mret (NC_MSG_ERROR, None)
        else
          s ← ses;
          _ ← upd_ses (set_msgs (msgs (client s) ++ [MsgCont msg ret]));
          mret (ret, None)
    end.

Definition recv_msg (fuel : nat) (timeout : Z) (expected : NC_MSG_TYPE)
    : SM W (NC_MSG_TYPE * option bytes) :=
  '(r, timeout) ← nc_session_client_msgs_lock timeout;
  if r =? 0 then mret (NC_MSG_WOULDBLOCK, None)
  else if r =? -1 then mret (NC_MSG_ERROR, None)
  else
    s ← ses;
    ret ←
      match take_msg expected (msgs (client s)) with
      | Some (c, rest) => _ ← upd_ses (set_msgs rest); mret (mc_type c, Some (mc_msg c))
      | None => recv_wire fuel timeout expected
      end;
    _ ← nc_session_client_msgs_unlock;
    mret ret.

Definition nc_session_get_cpblts (s : nc_session) : option (list bytes) := cpblts (client s).

(** A capability that begins with [capab]; a session without a list is a [NULL]
    dereference. *)
Definition nc_session_cpblt (s : nc_session) (capab : bytes) : outcome (option bytes) :=
  match cpblts (client s) with
  | None => Crash
  | Some l => Done (list_find (λ c, strncmp_eq c capab (length capab) = true) l ≫= λ p, Some p.2)
  end.

Definition nc_session_ntf_thread_running (s : nc_session) : Z :=
  if negb (bool_decide (side s = NC_CLIENT)) then 0 else ntf_thread_running (client s).
End recv.

(** ** Replies *)

Inductive NC_RPC_TYPE :=
| NC_RPC_UNKNOWN | NC_RPC_ACT_GENERIC | NC_RPC_GETCONFIG | NC_RPC_EDIT | NC_RPC_COPY | NC_RPC_DELETE
| NC_RPC_LOCK | NC_RPC_UNLOCK | NC_RPC_GET | NC_RPC_KILL | NC_RPC_COMMIT | NC_RPC_DISCARD | NC_RPC_CANCEL
| NC_RPC_VALIDATE | NC_RPC_GETSCHEMA | NC_RPC_SUBSCRIBE | NC_RPC_GETDATA | NC_RPC_EDITDATA
| NC_RPC_ESTABLISHSUB | NC_RPC_MODIFYSUB | NC_RPC_DELETESUB | NC_RPC_KILLSUB | NC_RPC_ESTABLISHPUSH
| NC_RPC_MODIFYPUSH | NC_RPC_RESYNCSUB.

(** The module and the name of an operation, and a module that must be there. *)
Definition rpc_op (t : NC_RPC_TYPE) : option (bytes * bytes * option bytes) :=
  let nc n := Some (str "ietf-netconf", str n, None) in
  let nmda n := Some (str "ietf-netconf-nmda", str n, None) in
  let sub n := Some (str "ietf-subscribed-notifications", str n, None) in
  let push n := Some (str "ietf-subscribed-notifications", str n, Some (str "ietf-yang-push")) in
  match t with
  | NC_RPC_UNKNOWN | NC_RPC_ACT_GENERIC => None
  | NC_RPC_GETCONFIG => nc "get-config"
  | NC_RPC_EDIT => nc "edit-config"
  | NC_RPC_COPY => nc "copy-config"
  | NC_RPC_DELETE => nc "delete-config"
  | NC_RPC_LOCK => nc "lock"
  | NC_RPC_UNLOCK => nc "unlock"
  | NC_RPC_GET => nc "get"
  | NC_RPC_KILL => nc "kill-session"
  | NC_RPC_COMMIT => nc "commit"
  | NC_RPC_DISCARD => nc "discard-changes"
  | NC_RPC_CANCEL => nc "cancel-commit"
  | NC_RPC_VALIDATE => nc "validate"
  | NC_RPC_GETSCHEMA => Some (str "ietf-netconf-monitoring", str "get-schema", None)
  | NC_RPC_SUBSCRIBE => Some (str "notifications", str "create-subscription", None)
  | NC_RPC_GETDATA => nmda "get-data"
  | NC_RPC_EDITDATA => nmda "edit-data"
  | NC_RPC_ESTABLISHSUB => sub "establish-subscription"
  | NC_RPC_MODIFYSUB => sub "modify-subscription"
  | NC_RPC_DELETESUB => sub "delete-subscription"
  | NC_RPC_KILLSUB => sub "kill-subscription"
  | NC_RPC_ESTABLISHPUSH => push "establish-subscription"
  | NC_RPC_MODIFYPUSH => push "modify-subscription"
  | NC_RPC_RESYNCSUB => Some (str "ietf-yang-push", str "resync-subscription", None)
  end.

(** libyang, as the client sees it: the implemented modules, a new operation node,
    the operation of a generic RPC, parsing a reply into an operation, with the
    attributes of its envelope, parsing a notification, and whether a notification
    is a notificationComplete. *)
Class ClientEnv (W node : Type) := {
  has_module : bytes → W → bool * W;
  lyd_new_inner : bytes → bytes → W → option node * W;
  generic_op : node → W → option node * W;
  parse_reply : node → bytes → W → option (list (bytes * bytes) * node) * W;
  lyd_has_child : node → bool;
  parse_notif : bytes → W → option node * W;
  is_complete : node → bool;
}.

Section reply.
Context {W node : Type} `{!Env W, !ClientEnv W node}.

(** An RPC: its type and, for a generic one, its content. *)
Record nc_rpc := NcRpc { rpc_type : NC_RPC_TYPE; rpc_content : option node }.

Definition recv_reply_check_msgid (attrs : list (bytes * bytes)) (msgid : Z) : NC_MSG_TYPE :=
  match list_find (λ a, a.1 = str "message-id") attrs with
  | None => NC_MSG_REPLY_ERR_MSGID
  | Some (_, (_, value)) => if strtoul value =? msgid then NC_MSG_REPLY else NC_MSG_REPLY_ERR_MSGID
  end.

(** The type, the attributes of the envelope and the operation with the reply. *)
Definition recv_reply (fuel : nat) (timeout : Z) (op : node) (msgid : Z)
    : SM W (NC_MSG_TYPE * option (list (bytes * bytes)) * node) :=
  '(ret, msg) ← recv_msg fuel timeout NC_MSG_REPLY;
  if negb (bool_decide (ret = NC_MSG_REPLY)) then mret (ret, None, op)
  else
    match msg with
    | None => crash
    | Some msg =>
      p ← envcall (parse_reply op msg);
      match p with
      | None => mret (NC_MSG_ERROR, None, op)
      | Some (attrs, op) => mret (recv_reply_check_msgid attrs msgid, Some attrs, op)
      end
    end.

(** Whether it succeeded, and the operation if one was created; a missing
    [module_check] is found out only after that. *)
Definition recv_reply_dup_rpc (rpc : nc_rpc) : SM W (bool * option node) :=
  match rpc_op (rpc_type rpc) with
  | Some (module_name, rpc_name, module_check) =>
    found ← envcall (has_module module_name);
    if negb found then mret (false, None)
    else
      op ← envcall (lyd_new_inner module_name rpc_name);
      found ← match module_check with Some m => envcall (has_module m) | None => mret true end;
      if negb found then mret (false, op)
      else mret (bool_decide (is_Some op), op)
  | None =>
    match rpc_type rpc with
    | NC_RPC_ACT_GENERIC =>
      match rpc_content rpc with
      | None => crash
      | Some c => op ← envcall (generic_op c); mret (bool_decide (is_Some op), op)
      end
    | _ => mret (false, None)
    end
  end.

(** The type, [*envp] and [*op], where [None] is nothing set. *)
Definition nc_recv_reply (fuel : nat) (rpc : nc_rpc) (msgid timeout : Z)
    : SM W (NC_MSG_TYPE * option (list (bytes * bytes)) * option node) :=
  s ← ses;
  if negb (bool_decide (status s = NC_STATUS_RUNNING)) || negb (bool_decide (side s = NC_CLIENT))
  then mret (NC_MSG_ERROR, None, None)
  else
    '(ok, op) ← recv_reply_dup_rpc rpc;
    match ok, op with
    | true, Some op =>
      '(ret, envp, op) ← recv_reply fuel timeout op msgid;
      if (negb (bool_decide (ret = NC_MSG_REPLY)) && negb (bool_decide (ret = NC_MSG_REPLY_ERR_MSGID)))
         || negb (lyd_has_child op)
      then mret (ret, envp, None)
      else mret (ret, envp, Some op)
    | _, _ => mret (NC_MSG_ERROR, None, op)
    end.

(** ** Notifications *)

Definition recv_notif (fuel : nat) (timeout : Z) : SM W (NC_MSG_TYPE * option node) :=
  '(ret, msg) ← recv_msg fuel timeout NC_MSG_NOTIF;
  if negb (bool_decide (ret = NC_MSG_NOTIF)) then mret (ret, None)
  else
    match msg with
    | None => crash
    | Some msg =>
      p ← envcall (parse_notif msg);
      match p with
      | None => mret (NC_MSG_ERROR, None)
      | Some op => mret (NC_MSG_NOTIF, Some op)
      end
    end.

Definition nc_recv_notif (fuel : nat) (timeout : Z) : SM W (NC_MSG_TYPE * option node) :=
  s ← ses;
  if negb (bool_decide (status s = NC_STATUS_RUNNING)) || negb (bool_decide (side s = NC_CLIENT))
  then mret (NC_MSG_ERROR, None)
  else recv_notif fuel timeout.

(** ** The notification thread *)

Definition NC_CLIENT_NOTIF_THREAD_SLEEP : Z := 10000.

(** The loop; the value is the list of notifications the callback was given. *)
Fixpoint notif_loop (n fuel : nat) (notif_clb : node → W → W) : SM W (list node) :=
  match n with
  | O => no_fuel
  | S n =>
    let again := _ ← envcall (λ w, (tt, usleep NC_CLIENT_NOTIF_THREAD_SLEEP w)); notif_loop n fuel notif_clb in
    s ← ses;
    if ntf_thread_running (client s) =? 0 then mret []
    else
      '(msgtype, op) ← nc_recv_notif fuel (NC_CLIENT_NOTIF_THREAD_SLEEP / 1000);
      if bool_decide (msgtype = NC_MSG_NOTIF) then
        match op with
        | None => crash
        | Some op =>
          _ ← envcall (λ w, (tt, notif_clb op w));
          if is_complete op then mret [op] else l ← again; mret (op :: l)
        end
      else
        s ← ses;
        if bool_decide (msgtype = NC_MSG_ERROR) && negb (bool_decide (status s = NC_STATUS_RUNNING)) then mret [] else again
  end.

(** The count has 64 bits, [uint_fast32_t] of x86-64. *)
Definition nc_recv_notif_thread (n fuel : nat) (notif_clb : node → W → W) (free_data : option (W → W)) : SM W (list node) :=
  l ← notif_loop n fuel notif_clb;
  s ← ses;
  _ ← upd_ses (set_thread_count ((ntf_thread_count (client s) - 1) mod 2 ^ 64));
  _ ← envcall (λ w, (tt, match free_data with Some f => f w | None => w end));
  mret l.

(** [pthread_create] is a parameter; whether the callback was given. *)
Definition nc_recv_notif_dispatch_data (create : W → Z * W) (notif_clb : bool) : SM W Z :=
  s ← ses;
  if negb notif_clb then mret (-1)
  else if negb (bool_decide (status s = NC_STATUS_RUNNING)) || negb (bool_decide (side s = NC_CLIENT)) then mret (-1)
  else
    ok ← envcall (malloc_ok 32);
    if negb ok then mret (-1)
    else
      _ ← upd_ses (λ s, set_thread_count ((ntf_thread_count (client s) + 1) mod 2 ^ 64) s);
      _ ← upd_ses (set_thread_running 1);
      r ← envcall create;
      if negb (r =? 0) then
        s ← ses;
        _ ← upd_ses (set_thread_count ((ntf_thread_count (client s) - 1) mod 2 ^ 64));
        _ ← (if ntf_thread_count (client s) =? 1 then upd_ses (set_thread_running 0) else mret tt);
        mret (-1)
      else mret 0.
End reply.
