(* ===== verification/ClientTheorems.v ===== *)
(** * The client receives everything in order

    Replies and notifications share a session; whatever the order in which they
    arrive and in which they are asked for, each is delivered once and those of
    one type in the order of arrival. *)

From S2P Require Import Prelude Session Env Time Locks Sim IoRead IoReadProofs.
From S2P Require Import Framing IoWrite IoWriteProofs IoTheorems Capabilities CapabilitiesProofs ClientRecv.
From Stdlib Require Import ZArith Ascii String Lia.
From stdpp Require Import base list strings gmap numbers.
Open Scope Z_scope.

(** ** The type of a message is always found out *)

Lemma strstr_spec h n t : strstr h n = Some t → take (length n) t = n ∧ (length t ≤ length h)%nat.
Proof.
  revert t. induction h as [|x h IH]; intros t; cbn [strstr]; case_bool_decide as E; try done.
  - intros [= <-]. done.
  - intros [= <-]. done.
  - intros H. apply IH in H as [H1 H2]. split; [done|]. simpl. lia.
Qed.

Lemma skip_spaces_length s : (length (skip_spaces s) ≤ length s)%nat.
Proof.
  unfold skip_spaces. pose proof (span_app isspace s) as E. rewrite <- E at 2. rewrite length_app. lia.
Qed.

Lemma get_msg_type_enough fuel s : (length s < fuel)%nat → is_Some (get_msg_type_loop fuel s).
Proof.
  revert s. induction fuel as [|fuel IH]; intros s Hs; [lia|]. cbn [get_msg_type_loop].
  destruct s as [|a s0]; [by eexists|]. set (s := a :: s0) in *.
  assert (Hskip : ∀ r e, (length r < length s)%nat → is_Some
    (match strstr r e with None => Some NC_MSG_ERROR | Some u => get_msg_type_loop fuel (drop (length e) u) end)).
  { intros r e Hr. destruct (strstr r e) as [u|] eqn:E; [|by eexists]. apply strstr_spec in E as [_ E].
    apply IH. rewrite length_drop. lia. }
  pose proof (skip_spaces_length s) as Hl. destruct (skip_spaces s) as [|c r]; [by eexists|].
  cbn [length] in Hl.
  destruct c as [[][][][][][][][]]; try by eexists.
  destruct (strncmp_eq r _ 3); [apply Hskip; lia|]. destruct (strncmp_eq r _ 4); [apply Hskip; lia|].
  destruct (strncmp_eq r _ 9); [by eexists|]. destruct (strncmp_eq r _ 12); by eexists.
Qed.

(** ** The queue and the wire *)

(** The messages of a type that wait in the queue and on the wire. *)
Definition pending (t : NC_MSG_TYPE) (queue : list nc_msg_cont) (wire : list bytes) : list bytes :=
  map mc_msg (filter (λ c, mc_type c = t) queue) ++ filter (λ m, get_msg_type m = t) wire.

Lemma take_msg_spec e l :
  match take_msg e l with
  | None => filter (λ c, mc_type c = e) l = []
  | Some (c, l') => mc_type c = e ∧ filter (λ c, mc_type c = e) l = c :: filter (λ c, mc_type c = e) l' ∧
      ∀ t, t ≠ e → filter (λ c, mc_type c = t) l' = filter (λ c, mc_type c = t) l
  end.
Proof.
  induction l as [|c l IH]; cbn [take_msg]; [done|]. destruct (decide (mc_type c = e)) as [E|E].
  - split; [done|]. split; [by rewrite filter_cons_True|]. intros t Ht.
    rewrite filter_cons_False; [done|congruence].
  - destruct (take_msg e l) as [[m l']|].
    + destruct IH as (H1 & H2 & H3). split; [done|]. rewrite !filter_cons_False by done. split; [done|].
      intros t Ht. specialize (H3 t Ht). destruct (decide (mc_type c = t)).
      * rewrite !filter_cons_True by done. by f_equal.
      * by rewrite !filter_cons_False.
    + by rewrite filter_cons_False.
Qed.

Section client.
Context {W : Type} `{RL : Reliable W}.
Implicit Types (s : nc_session) (w : W).

(** A client session no thread works with. *)
Definition client_ready s : Prop :=
  open_session s ∧ io_lock s = Some false ∧ side s = NC_CLIENT ∧ msgs_held (client s) = false.

Lemma msgs_lock_ok F timeout s w :
  side s = NC_CLIENT → msgs_held (client s) = false →
  wpx F (nc_session_client_msgs_lock timeout)
    (λ r sw, r.1 = 1 ∧ sw.1 = set_msgs_held true s ∧ no_traffic w sw.2) (s, w).
Proof.
  intros Hside Hh. unfold nc_session_client_msgs_lock. apply wpx_bind, wpx_ses, wpx_bind, wpx_guarded.
  { by apply bool_decide_true. }
  rewrite Hh. unfold pthread_acquire.
  apply wpx_bind, wpx_mono with (Q := λ r sw, r.1 = 0 ∧ sw.1 = set_msgs_held true s ∧ no_traffic w sw.2).
  2: { intros [r t] sw (Er & Hs & Hw). cbn [fst] in Er. subst r. by apply wpx_ret. }
  destruct (0 <? timeout) eqn:E; [|destruct (timeout =? 0)].
  - apply wpx_bind, wpx_real_add; [done|]. intros ts0 w1 Hw1.
    apply wpx_bind, wpx_real_add; [lia|]. intros ts w2 Hw2. apply quiet_no_traffic in Hw1, Hw2.
    apply wpx_bind, wpx_bind, wpx_envcall. rewrite rel_timedlock. cbn [Z.eqb].
    apply wpx_bind, wpx_upd_ses, wpx_ret. cbn [Z.eqb]. apply wpx_bind.
    unfold nc_difftimespec_real_cur. apply wpx_on_env, wpx_bind, (wpx_on_env_inv s), wpx_real_add; [done|].
    intros cur w3 Hw3. apply quiet_no_traffic in Hw3. apply wpx_ret, wpx_ret. cbn [fst snd].
    split; [done|]. split; [done|]. etrans; [exact Hw1|]. etrans; [exact Hw2|].
    etrans; [|exact Hw3]. apply timedlock_law.
  - apply wpx_bind, wpx_bind, wpx_envcall. rewrite rel_trylock. cbn [Z.eqb].
    apply wpx_bind, wpx_upd_ses, wpx_ret, wpx_ret. split; [done|]. split; [done|apply trylock_law].
  - apply wpx_bind, wpx_bind, wpx_envcall. rewrite rel_lock. cbn [Z.eqb].
    apply wpx_bind, wpx_upd_ses, wpx_ret, wpx_ret. split; [done|]. split; [done|apply lock_law].
Qed.

Lemma msgs_unlock_ok F s w :
  side s = NC_CLIENT → msgs_held (client s) = true →
  wpx F nc_session_client_msgs_unlock
    (λ _ sw, sw.1 = set_msgs_held false s ∧ no_traffic w sw.2) (s, w).
Proof.
  intros Hside Hh. unfold nc_session_client_msgs_unlock. apply wpx_bind, wpx_ses, wpx_bind, wpx_guarded.
  { by apply bool_decide_true. }
  rewrite Hh. unfold pthread_release. apply wpx_bind, wpx_bind, wpx_envcall. rewrite unlock_ok. cbn [Z.eqb].
  apply wpx_bind, wpx_upd_ses, wpx_ret, wpx_ret. split; [done|apply unlock_law].
Qed.

(** What is on the wire, whole messages that are replies or notifications. *)
Record on_wire (v : NC_VERSION) (fuel : nat) w (css : list (list bytes)) : Prop := OnWire {
  ow_in : inq w = concat (map (framed v) css);
  ow_chunks : Forall chunks_ok css;
  ow_frames : Forall (λ cs, frameable v (concat cs)) css;
  ow_types : Forall (λ cs, get_msg_type (concat cs) = NC_MSG_REPLY ∨ get_msg_type (concat cs) = NC_MSG_NOTIF) css;
  ow_len : zlen (inq w) < 2 ^ 31;
  ow_fuel : zlen (inq w) < Z.of_nat fuel;
}.

Lemma on_wire_traffic v fuel w w' css : on_wire v fuel w css → inq w' = inq w → on_wire v fuel w' css.
Proof. intros [] E. split; by rewrite ?E. Qed.

Lemma on_wire_next v fuel w w' cs css :
  on_wire v fuel w (cs :: css) → inq w' = concat (map (framed v) css) → on_wire v fuel w' css.
Proof.
  intros [H1 H2 H3 H4 H5 H6] E. apply Forall_cons_1 in H2 as [_ H2], H3 as [_ H3], H4 as [_ H4].
  cbn [map concat] in H1. rewrite H1, zlen_app in H5, H6. pose proof (zlen_nonneg (framed v cs)).
  split; try done; rewrite E; lia.
Qed.

(** One call on the wire. *)
Lemma recv_wire_ok F fuel timeout e cs css s w :
  open_session s → io_lock s = Some false → on_wire (version s) fuel w (cs :: css) →
  wpx F (recv_wire fuel timeout e)
    (λ r sw, inq sw.2 = concat (map (framed (version s)) css) ∧ outq sw.2 = outq w ∧
       ((get_msg_type (concat cs) = e ∧ r = (e, Some (concat cs)) ∧ sw.1 = s) ∨
        (get_msg_type (concat cs) ≠ e ∧ r = (get_msg_type (concat cs), None) ∧
           sw.1 = set_msgs (msgs (client s) ++ [MsgCont (concat cs) (get_msg_type (concat cs))]) s))) (s, w).
Proof.
  intros Hs Hl [H1 H2 H3 H4 H5 H6].
  apply Forall_cons_1 in H2 as [H2 _], H3 as [H3 _], H4 as [H4 _].
  unfold recv_wire. apply wpx_bind. eapply wpx_mono; [by apply (nc_read_msg_poll_io_ok F fuel timeout cs (concat (map (framed (version s)) css)))|].
  intros r [s1 w1] (-> & Es & Hi & Ho). cbn [fst snd] in *. subst s1.
  change (1 =? 0) with false. change (1 =? -1) with false. cbv iota.
  destruct (decide (get_msg_type (concat cs) = NC_MSG_ERROR)) as [E|_]; [destruct H4; congruence|].
  destruct (decide (get_msg_type (concat cs) = e)) as [E|E].
  - apply wpx_ret. cbn [fst snd]. split; [done|]. split; [done|]. left. by rewrite E.
  - apply wpx_bind, wpx_envcall. rewrite rel_malloc by lia. cbn [negb].
    destruct (malloc_law 24 w1) as (_ & Hi2 & Ho2). apply wpx_bind, wpx_ses, wpx_bind, wpx_upd_ses, wpx_ret.
    cbn [fst snd]. split; [congruence|]. split; [congruence|]. by right.
Qed.

Lemma held_released s l :
  msgs_held (client s) = false → set_msgs_held false (set_msgs l (set_msgs_held true s)) = set_msgs l s.
Proof. destruct s as [? ? ? ? ? ? ? ? ? ? ? ? ? [] ?]. simpl. by intros ->. Qed.

Lemma set_msgs_id s : set_msgs (msgs (client s)) s = s.
Proof. by destruct s as [? ? ? ? ? ? ? ? ? ? ? ? ? [] ?]. Qed.

Definition texts (css : list (list bytes)) : list bytes := map (λ cs, concat cs) css.

(** One call: a message of the expected type is delivered, the oldest one, or a
    message of another type moves from the wire to the queue. *)
Definition delivered (e : NC_MSG_TYPE) (l : list nc_msg_cont) (css : list (list bytes))
    (r : NC_MSG_TYPE * option bytes) (l' : list nc_msg_cont) (css' : list (list bytes)) : Prop :=
  (∀ t, t ≠ e → pending t l' (texts css') = pending t l (texts css)) ∧
  ((∃ msg, r = (e, Some msg) ∧ pending e l (texts css) = msg :: pending e l' (texts css') ∧ (length css' ≤ length css)%nat) ∨
   (r.1 ≠ e ∧ r.2 = None ∧ pending e l' (texts css') = pending e l (texts css) ∧
      length css = S (length css'))).

Lemma delivered_queue e c l l' css :
  take_msg e l = Some (c, l') → delivered e l css (mc_type c, Some (mc_msg c)) l' css.
Proof.
  intros E. pose proof (take_msg_spec e l) as H. rewrite E in H. destruct H as (<- & H2 & H3). split.
  - intros t Ht. unfold pending. by rewrite H3.
  - left. exists (mc_msg c). split; [done|]. split; [|done]. unfold pending. by rewrite H2.
Qed.

Lemma delivered_wire e l cs css :
  take_msg e l = None → get_msg_type (concat cs) = e →
  delivered e l (cs :: css) (e, Some (concat cs)) l css.
Proof.
  intros E Et. pose proof (take_msg_spec e l) as H. rewrite E in H. split.
  - intros t Ht. unfold pending. cbn [texts map]. rewrite filter_cons_False; [done|congruence].
  - left. exists (concat cs). split; [done|]. split; [|cbn; lia]. unfold pending. rewrite H. cbn [texts map app].
    by rewrite filter_cons_True.
Qed.

Lemma delivered_later e l cs css :
  get_msg_type (concat cs) ≠ e →
  delivered e l (cs :: css) (get_msg_type (concat cs), None)
    (l ++ [MsgCont (concat cs) (get_msg_type (concat cs))]) css.
Proof.
  intros Et.
  assert (H : ∀ t, pending t (l ++ [MsgCont (concat cs) (get_msg_type (concat cs))]) (texts css) =
    pending t l (texts (cs :: css))).
  { intros t. unfold pending. rewrite list.filter_app, map_app, <- app_assoc. f_equal. cbn [texts map].
    destruct (decide (get_msg_type (concat cs) = t)).
    - by rewrite !filter_cons_True.
    - by rewrite !filter_cons_False. }
  split; [intros t _; apply H|]. right. split; [done|]. split; [done|]. split; [apply H|done].
Qed.

Lemma recv_msg_ok F fuel timeout e css s w :
  client_ready s → on_wire (version s) fuel w css →
  (take_msg e (msgs (client s)) = None → css ≠ []) →
  wpx F (recv_msg fuel timeout e)
    (λ r sw, ∃ l' css', sw.1 = set_msgs l' s ∧ on_wire (version s) fuel sw.2 css' ∧ outq sw.2 = outq w ∧
       delivered e (msgs (client s)) css r l' css') (s, w).
Proof.
  intros (Hs & Hl & Hside & Hh) Hw Hcss. unfold recv_msg. apply wpx_bind.
  eapply wpx_mono; [by apply msgs_lock_ok|]. intros [r t] [s1 w1] (Er & Es & _ & Hi1 & Ho1).
  cbn [fst snd] in *. subst r s1. change (1 =? 0) with false. change (1 =? -1) with false. cbv iota.
  apply wpx_bind, wpx_ses, wpx_bind. change (msgs (client (set_msgs_held true s))) with (msgs (client s)).
  eapply wpx_mono with (Q := λ r sw, ∃ l' css', sw.1 = set_msgs l' (set_msgs_held true s) ∧
    on_wire (version s) fuel sw.2 css' ∧ outq sw.2 = outq w ∧ delivered e (msgs (client s)) css r l' css').
  2: { intros r [s2 w2] (l' & css' & Es & Hw2 & Ho2 & Hd). cbn [fst snd] in *. subst s2. apply wpx_bind.
       eapply wpx_mono; [by apply msgs_unlock_ok|]. intros u [s3 w3] (Es & _ & Hi3 & Ho3). cbn [fst snd] in *.
       subst s3. apply wpx_ret. exists l', css'. rewrite held_released by done. cbn [fst snd]. split; [done|].
       split; [by eapply on_wire_traffic|]. split; [congruence|done]. }
  pose proof (on_wire_traffic _ _ _ w1 _ Hw Hi1) as Hw1.
  destruct (take_msg e (msgs (client s))) as [[c l']|] eqn:E.
  - apply wpx_bind, wpx_upd_ses, wpx_ret. exists l', css. cbn [fst snd]. split; [done|]. split; [done|].
    split; [done|]. by apply delivered_queue.
  - destruct css as [|cs css]; [by specialize (Hcss eq_refl)|].
    eapply wpx_mono; [apply (recv_wire_ok F fuel t e cs css (set_msgs_held true s) w1); done|].
    intros r [s2 w2] (Hi2 & Ho2 & Hr). cbn [fst snd] in *.
    pose proof (on_wire_next _ _ _ w2 _ _ Hw1 Hi2) as Hw2.
    destruct Hr as [(Et & -> & ->)|(Et & -> & ->)]; cbn [fst snd].
    + exists (msgs (client s)), css. split; [symmetry; apply (set_msgs_id (set_msgs_held true s))|].
      split; [done|]. split; [congruence|]. by apply delivered_wire.
    + eexists _, css. split; [done|]. split; [done|]. split; [congruence|]. by apply delivered_later.
Qed.

(** Asking again until a message of the type arrives, at most [n] times. *)
Fixpoint await (n fuel : nat) (timeout : Z) (e : NC_MSG_TYPE) : SM W (option bytes) :=
  match n with
  | O => mret None
  | S n =>
    '(ret, msg) ← recv_msg fuel timeout e;
    if bool_decide (ret = e) then mret msg else await n fuel timeout e
  end.

Lemma set_msgs_twice l l' s : set_msgs l (set_msgs l' s) = set_msgs l s.
Proof. done. Qed.

Lemma await_ok F n fuel timeout e m rest css s w :
  client_ready s → on_wire (version s) fuel w css → (length css < n)%nat →
  pending e (msgs (client s)) (texts css) = m :: rest →
  wpx F (await n fuel timeout e)
    (λ r sw, r = Some m ∧ ∃ l' css', sw.1 = set_msgs l' s ∧ on_wire (version s) fuel sw.2 css' ∧
       outq sw.2 = outq w ∧ pending e l' (texts css') = rest ∧
       ∀ t, t ≠ e → pending t l' (texts css') = pending t (msgs (client s)) (texts css)) (s, w).
Proof.
  revert css s w. induction n as [|n IH]; intros css s w Hs Hw Hn Hp; [lia|]. cbn [await]. apply wpx_bind.
  eapply wpx_mono; [apply (recv_msg_ok F fuel timeout e css s w Hs Hw)|].
  { intros E ->. pose proof (take_msg_spec e (msgs (client s))) as H. rewrite E in H.
    unfold pending in Hp. by rewrite H in Hp. }
  intros [ret msg] [s1 w1] (l' & css' & Es & Hw1 & Ho & Hother & Hd). cbn [fst snd] in *. subst s1.
  destruct Hd as [(msg' & [= -> ->] & Hm & _)|(Hret & -> & Hsame & Hlen)].
  - rewrite bool_decide_true by done. apply wpx_ret. rewrite Hp in Hm. injection Hm as -> ->.
    split; [done|]. exists l', css'. done.
  - rewrite bool_decide_false by done.
    eapply wpx_mono; [apply (IH css' (set_msgs l' s) w1); [done|done|lia|]|].
    { change (msgs (client (set_msgs l' s))) with l'. congruence. }
    intros r sw (-> & l2 & css2 & Es & Hw2 & Ho2 & Hp2 & Hother2). split; [done|]. exists l2, css2.
    split; [by rewrite Es|]. split; [exact Hw2|]. split; [congruence|]. split; [done|].
    intros t Ht. rewrite Hother2 by done. by apply Hother.
Qed.

(** C14: A client that asks for messages of one type, again while it is given the
    other type as documented, gets the oldest message of that type that waits in
    the queue of the session or on the wire, after at most one call more than there
    are messages on the wire; the messages of that type that follow, and all those
    of the other type, keep waiting in their order. *)
Theorem client_in_order fuel timeout e m rest css s w :
  client_ready s → on_wire (version s) fuel w css →
  pending e (msgs (client s)) (texts css) = m :: rest →
  ∃ l' css' w', await (S (length css)) fuel timeout e (s, w) = Done (Some m, (set_msgs l' s, w')) ∧
    on_wire (version s) fuel w' css' ∧ outq w' = outq w ∧ pending e l' (texts css') = rest ∧
    ∀ t, t ≠ e → pending t l' (texts css') = pending t (msgs (client s)) (texts css).
Proof.
  intros Hs Hw Hp. destruct (proj1 (wp_total _ _ _) (await_ok False (S (length css)) fuel timeout e m rest css s w
    Hs Hw (Nat.lt_succ_diag_r _) Hp)) as (r & [s' w'] & E & -> & l' & css' & Es & H).
  cbn [fst snd] in *. subst s'. by exists l', css', w'.
Qed.
End client.

(** ** The notification thread *)

Section notif_thread.
Context {W node : Type} `{RL : Reliable W} `{!ClientEnv W node}.
(** What libyang makes of a notification; parsing, the callback and the end of its data do not use the connection. *)
Context (op_of : bytes → node) (clb : node → W → W) (free_data : option (W → W)).
Context (Hparse : ∀ m (w : W), (parse_notif m w).1 = Some (op_of m) ∧ inq (parse_notif m w).2 = inq w).
Context (Hclb : ∀ op (w : W), inq (clb op w) = inq w).
Implicit Types (s : nc_session) (w : W).

Lemma recv_notif_ok F fuel timeout css s w :
  client_ready s → status s = NC_STATUS_RUNNING → on_wire (version s) fuel w css → pending NC_MSG_NOTIF (msgs (client s)) (texts css) ≠ [] →
  wpx F (nc_recv_notif fuel timeout)
    (λ r sw, ∃ l' css', sw.1 = set_msgs l' s ∧ on_wire (version s) fuel sw.2 css' ∧
       (∀ t, t ≠ NC_MSG_NOTIF → pending t l' (texts css') = pending t (msgs (client s)) (texts css)) ∧
       ((∃ m, r = (NC_MSG_NOTIF, Some (op_of m)) ∧ (length css' ≤ length css)%nat ∧
           pending NC_MSG_NOTIF (msgs (client s)) (texts css) = m :: pending NC_MSG_NOTIF l' (texts css')) ∨
        (r.1 ≠ NC_MSG_NOTIF ∧ pending NC_MSG_NOTIF l' (texts css') = pending NC_MSG_NOTIF (msgs (client s)) (texts css) ∧
           length css = S (length css')))) (s, w).
Proof.
  intros Hs Hrun Hw Hp. apply wpx_bind, wpx_ses. destruct Hs as (Ho & Hl & Hside & Hh).
  rewrite Hrun, Hside, !bool_decide_true by done. cbn [negb orb]. apply wpx_bind.
  eapply wpx_mono; [apply (recv_msg_ok F fuel timeout NC_MSG_NOTIF css s w); [done|done|]|].
  { intros E ->. apply Hp. pose proof (take_msg_spec NC_MSG_NOTIF (msgs (client s))) as H. rewrite E in H. unfold pending. by rewrite H. }
  intros [ret msg] [s1 w1] (l' & css' & Es & Hw1 & _ & Hother & Hd). cbn [fst snd] in *. subst s1.
  destruct Hd as [(m & [= -> ->] & Hm & Hlen)|(Hret & -> & Hsame & Hlen)].
  - rewrite bool_decide_true by done. cbn [negb]. apply wpx_bind, wpx_envcall. destruct (Hparse m w1) as [-> Hi]. apply wpx_ret.
    exists l', css'. cbn [fst snd]. split; [done|]. split; [by eapply on_wire_traffic|]. split; [done|]. left. eauto.
  - rewrite bool_decide_false by done. apply wpx_ret. exists l', css'. cbn [fst snd]. eauto 10.
Qed.

(** The rounds that are enough: one for each message that is received. *)
Lemma notif_loop_ok F n fuel : ∀ pre m rest css s w,
  client_ready s → status s = NC_STATUS_RUNNING → ntf_thread_running (client s) ≠ 0 → on_wire (version s) fuel w css →
  pending NC_MSG_NOTIF (msgs (client s)) (texts css) = pre ++ m :: rest →
  Forall (λ x, is_complete (op_of x) = false) pre → is_complete (op_of m) = true → (length css + length pre < n)%nat →
  wpx F (notif_loop n fuel clb)
    (λ r sw, r = map op_of (pre ++ [m]) ∧ ∃ l' css', sw.1 = set_msgs l' s ∧ on_wire (version s) fuel sw.2 css' ∧
       pending NC_MSG_NOTIF l' (texts css') = rest ∧
       ∀ t, t ≠ NC_MSG_NOTIF → pending t l' (texts css') = pending t (msgs (client s)) (texts css)) (s, w).
Proof.
  induction n as [|n IH]; intros pre m rest css s w Hs Hrun Hthr Hw Hp Hpre Hm Hn; [lia|]. cbn [notif_loop].
  apply wpx_bind, wpx_ses. rewrite (proj2 (Z.eqb_neq _ _) Hthr). apply wpx_bind.
  eapply wpx_mono; [by apply (recv_notif_ok F fuel _ css s w); [..|rewrite Hp; destruct pre]|].
  intros [t op] [s1 w1] (l' & css' & Es & Hw1 & Hother & Hd). cbn [fst snd] in *. subst s1.
  destruct Hd as [(x & [= -> ->] & Hlen & Hx)|(Ht & Hsame & Hlen)].
  - rewrite bool_decide_true by done. apply wpx_bind, wpx_envcall. rewrite Hp in Hx. destruct pre as [|y pre].
    + injection Hx as -> ->. rewrite Hm. apply wpx_ret. split; [done|]. exists l', css'. cbn [fst snd]. split; [done|].
      split; [eapply on_wire_traffic; [done|apply Hclb]|]. done.
    + injection Hx as -> Hx. apply Forall_cons_1 in Hpre as [Hy Hpre]. rewrite Hy. apply wpx_bind, wpx_bind, wpx_envcall.
      eapply wpx_mono; [apply (IH pre m rest css' (set_msgs l' s)); try done; [|cbn [length] in Hn; lia]|].
      { eapply on_wire_traffic; [done|]. cbn [snd]. destruct (usleep_law NC_CLIENT_NOTIF_THREAD_SLEEP (clb (op_of x) w1)) as (_ & -> & _). apply Hclb. }
      intros r sw (-> & l2 & css2 & Es & Hw2 & Hp2 & Ho2). apply wpx_ret. split; [done|]. exists l2, css2.
      split; [by rewrite Es|]. split; [done|]. split; [done|]. intros t Ht. by rewrite Ho2, Hother.
  - rewrite bool_decide_false by done. apply wpx_bind, wpx_ses. change (status (set_msgs l' s)) with (status s).
    rewrite Hrun, (bool_decide_true (NC_STATUS_RUNNING = _)) by done. rewrite andb_false_r. apply wpx_bind, wpx_envcall.
    eapply wpx_mono; [apply (IH pre m rest css' (set_msgs l' s)); try done; [|by rewrite <- Hp|lia]|].
    { eapply on_wire_traffic; [done|]. cbn [snd]. apply usleep_law. }
    intros r sw (-> & l2 & css2 & Es & Hw2 & Hp2 & Ho2). split; [done|]. exists l2, css2.
    split; [by rewrite Es|]. split; [done|]. split; [done|]. intros t' Ht'. by rewrite Ho2, Hother.
Qed.

End notif_thread.

(** ** The message id *)

(** The message id of a reply is accepted exactly if it is the number the
    client printed into the request: [nc_recv_reply] returns [NC_MSG_REPLY] for a
    reply that carries [print_dec msgid] and [NC_MSG_REPLY_ERR_MSGID] for one that
    carries the number of another message or none. *)
Theorem msgid_match (before after : list (bytes * bytes)) n msgid :
  Forall (λ a, a.1 ≠ str "message-id") before → 0 ≤ n < 2 ^ 64 →
  recv_reply_check_msgid (before ++ (str "message-id", print_dec n) :: after) msgid =
    (if n =? msgid then NC_MSG_REPLY else NC_MSG_REPLY_ERR_MSGID) ∧
  recv_reply_check_msgid before msgid = NC_MSG_REPLY_ERR_MSGID.
Proof.
  intros Hb Hn. unfold recv_reply_check_msgid. split.
  - rewrite list_find_app_r.
    + cbn [list_find]. rewrite decide_True by done. simpl.
      rewrite <- (app_nil_r (print_dec n)), strtoul_print_dec; [done|done|by intros].
    + apply list_find_None. done.
  - replace (list_find _ before) with (@None (nat * (bytes * bytes))); [done|]. symmetry. by apply list_find_None.
Qed.

(** ** Examples *)

Definition demo_client (v : NC_VERSION) : nc_session := set_side NC_CLIENT (demo_session v (TiFd 3 4)).

Definition demo_wire : list (list bytes) :=
  [[str "<notification>1</notification>"]; [str "<?xml version=1?><rpc-reply/>"]; [str "<notification>2</notification>"]].

Definition demo_net : sim true true := demo_world (concat (map (framed NC_VERSION_11) demo_wire)).

Lemma demo_on_wire : on_wire NC_VERSION_11 2000 demo_net demo_wire.
Proof.
  split.
  - reflexivity.
  - repeat (constructor; [repeat (constructor; [discriminate|]); constructor|]). constructor.
  - assert (H : ∀ m : bytes, bool_decide (ascii_of_N 0 ∉ m) = true → m ≠ [] → frameable NC_VERSION_11 m).
    { intros m H1 H2. split; [|exact H2]. apply bool_decide_eq_true in H1. exact H1. }
    repeat (constructor; [apply H; [vm_compute; reflexivity|discriminate]|]). constructor.
  - constructor; [right; vm_compute; reflexivity|]. constructor; [left; vm_compute; reflexivity|].
    constructor; [right; vm_compute; reflexivity|]. constructor.
  - reflexivity.
  - reflexivity.
Qed.

Lemma client_in_order_witness :
  ∃ l' css' w', await 4 2000 1000 NC_MSG_REPLY (demo_client NC_VERSION_11, demo_net) =
    Done (Some (str "<?xml version=1?><rpc-reply/>"), (set_msgs l' (demo_client NC_VERSION_11), w')) ∧
    pending NC_MSG_NOTIF l' (texts css') =
      [str "<notification>1</notification>"; str "<notification>2</notification>"].
Proof.
  destruct (client_in_order 2000 1000 NC_MSG_REPLY (str "<?xml version=1?><rpc-reply/>") [] demo_wire (demo_client NC_VERSION_11) demo_net)
    as (l' & css' & w' & E & _ & _ & _ & Hother).
  - split; [split; [reflexivity|discriminate]|]. split; [reflexivity|]. split; reflexivity.
  - exact demo_on_wire.
  - vm_compute. reflexivity.
  - exists l', css', w'. split; [exact E|]. rewrite Hother by discriminate. vm_compute. reflexivity.
Defined.

(** A notification is its text, and the second one is the last. *)
Definition demo_notifs : ClientEnv (sim true true) bytes := {|
  has_module _ w := (true, w);
  lyd_new_inner _ _ w := (None, w);
  generic_op _ w := (None, w);
  parse_reply _ _ w := (None, w);
  lyd_has_child _ := false;
  parse_notif m w := (Some m, w);
  is_complete m := bool_decide (m = str "<notification>2</notification>");
|}.

Definition demo_listener : nc_session := set_thread_running 1 (set_thread_count 1 (demo_client NC_VERSION_11)).


Lemma msgid_match_witness :
  recv_reply_check_msgid [(str "xmlns", []); (str "message-id", print_dec 5)] 5 = NC_MSG_REPLY.
Proof.
  destruct (msgid_match [(str "xmlns", [])] [] 5 5) as [E _].
  - constructor; [discriminate|constructor].
  - split; [discriminate|reflexivity].
  - exact E.
Defined.

(** A peer that sends one malformed chunk header brings down a NETCONF 1.1
    client: [nc_read_msg_poll_io] returns -2 without a message, which [recv_msg]
    does not distinguish from a received message, and the text of the missing
    message is read. *)
Theorem malformed_chunk_crashes_client :
  (∃ w, nc_read_msg_poll_io 2000 1000
    (demo_client NC_VERSION_11, demo_world (m0:=true) (up:=true) (nl :: str "#0" ++ [nl])) =
    Done ((-2, None), (demo_client NC_VERSION_11, w))) ∧
  recv_msg 2000 1000 NC_MSG_REPLY
    (demo_client NC_VERSION_11, demo_world (m0:=true) (up:=true) (nl :: str "#0" ++ [nl])) = Crash.
Proof. split; [eexists; vm_compute; reflexivity|vm_compute; reflexivity]. Qed.
