(* ===== verification/Errors.v ===== *)
(** * Errors of a server

    src/messages_server.c: building and inspecting [<rpc-error>] trees.  The tree
    is a list of child elements; [lyd_new_opaq2] and [lyd_new_attr], which may fail
    for lack of memory, belong to the environment. *)

From S2P Require Import Prelude Session Env Sim.
From Stdlib Require Import ZArith Ascii String Lia.
From stdpp Require Import base list strings gmap numbers.
Open Scope Z_scope.

Inductive NC_ERR :=
| NC_ERR_UNKNOWN | NC_ERR_IN_USE | NC_ERR_INVALID_VALUE | NC_ERR_TOO_BIG | NC_ERR_MISSING_ATTR | NC_ERR_BAD_ATTR
| NC_ERR_UNKNOWN_ATTR | NC_ERR_MISSING_ELEM | NC_ERR_BAD_ELEM | NC_ERR_UNKNOWN_ELEM | NC_ERR_UNKNOWN_NS
| NC_ERR_ACCESS_DENIED | NC_ERR_LOCK_DENIED | NC_ERR_RES_DENIED | NC_ERR_ROLLBACK_FAILED | NC_ERR_DATA_EXISTS
| NC_ERR_DATA_MISSING | NC_ERR_OP_NOT_SUPPORTED | NC_ERR_OP_FAILED | NC_ERR_MALFORMED_MSG.

Inductive NC_ERR_TYPE :=
| NC_ERR_TYPE_UNKNOWN | NC_ERR_TYPE_TRAN | NC_ERR_TYPE_RPC | NC_ERR_TYPE_PROT | NC_ERR_TYPE_APP.

#[export] Instance NC_ERR_eq : EqDecision NC_ERR.
Proof. solve_decision. Defined.
#[export] Instance NC_ERR_TYPE_eq : EqDecision NC_ERR_TYPE.
Proof. solve_decision. Defined.

(** ** Names *)

Definition nc_err_tag2str (tag : NC_ERR) : option bytes :=
  match tag with
  | NC_ERR_UNKNOWN => None
  | NC_ERR_IN_USE => Some (str "in-use")
  | NC_ERR_INVALID_VALUE => Some (str "invalid-value")
  | NC_ERR_ACCESS_DENIED => Some (str "access-denied")
  | NC_ERR_ROLLBACK_FAILED => Some (str "rollback-failed")
  | NC_ERR_OP_NOT_SUPPORTED => Some (str "operation-not-supported")
  | NC_ERR_TOO_BIG => Some (str "too-big")
  | NC_ERR_RES_DENIED => Some (str "resource-denied")
  | NC_ERR_MISSING_ATTR => Some (str "missing-attribute")
  | NC_ERR_BAD_ATTR => Some (str "bad-attribute")
  | NC_ERR_UNKNOWN_ATTR => Some (str "unknown-attribute")
  | NC_ERR_MISSING_ELEM => Some (str "missing-element")
  | NC_ERR_BAD_ELEM => Some (str "bad-element")
  | NC_ERR_UNKNOWN_ELEM => Some (str "unknown-element")
  | NC_ERR_UNKNOWN_NS => Some (str "unknown-namespace")
  | NC_ERR_LOCK_DENIED => Some (str "lock-denied")
  | NC_ERR_DATA_EXISTS => Some (str "data-exists")
  | NC_ERR_DATA_MISSING => Some (str "data-missing")
  | NC_ERR_OP_FAILED => Some (str "operation-failed")
  | NC_ERR_MALFORMED_MSG => Some (str "malformed-message")
  end.

Definition nc_err_str2tag (s : bytes) : NC_ERR :=
  if strcmp_eq s (str "in-use") then NC_ERR_IN_USE
  else if strcmp_eq s (str "invalid-value") then NC_ERR_INVALID_VALUE
  else if strcmp_eq s (str "access-denied") then NC_ERR_ACCESS_DENIED
  else if strcmp_eq s (str "rollback-failed") then NC_ERR_ROLLBACK_FAILED
  else if strcmp_eq s (str "operation-not-supported") then NC_ERR_OP_NOT_SUPPORTED
  else if strcmp_eq s (str "too-big") then NC_ERR_TOO_BIG
  else if strcmp_eq s (str "resource-denied") then NC_ERR_RES_DENIED
  else if strcmp_eq s (str "missing-attribute") then NC_ERR_MISSING_ATTR
  else if strcmp_eq s (str "bad-attribute") then NC_ERR_BAD_ATTR
  else if strcmp_eq s (str "unknown-attribute") then NC_ERR_UNKNOWN_ATTR
  else if strcmp_eq s (str "missing-element") then NC_ERR_MISSING_ELEM
  else if strcmp_eq s (str "bad-element") then NC_ERR_BAD_ELEM
  else if strcmp_eq s (str "unknown-element") then NC_ERR_UNKNOWN_ELEM
  else if strcmp_eq s (str "unknown-namespace") then NC_ERR_UNKNOWN_NS
  else if strcmp_eq s (str "lock-denied") then NC_ERR_LOCK_DENIED
  else if strcmp_eq s (str "data-exists") then NC_ERR_DATA_EXISTS
  else if strcmp_eq s (str "data-missing") then NC_ERR_DATA_MISSING
  else if strcmp_eq s (str "operation-failed") then NC_ERR_OP_FAILED
  else if strcmp_eq s (str "malformed-message") then NC_ERR_MALFORMED_MSG
  else NC_ERR_UNKNOWN.

Definition nc_err_type2str (t : NC_ERR_TYPE) : option bytes :=
  match t with
  | NC_ERR_TYPE_UNKNOWN => None
  | NC_ERR_TYPE_TRAN => Some (str "transport")
  | NC_ERR_TYPE_RPC => Some (str "rpc")
  | NC_ERR_TYPE_PROT => Some (str "protocol")
  | NC_ERR_TYPE_APP => Some (str "application")
  end.

Definition nc_err_str2type (s : bytes) : NC_ERR_TYPE :=
  if strcmp_eq s (str "transport") then NC_ERR_TYPE_TRAN
  else if strcmp_eq s (str "rpc") then NC_ERR_TYPE_RPC
  else if strcmp_eq s (str "protocol") then NC_ERR_TYPE_PROT
  else if strcmp_eq s (str "application") then NC_ERR_TYPE_APP
  else NC_ERR_TYPE_UNKNOWN.

(** ** Trees *)

(** A child of [<rpc-error>]: its name, value, the attribute [xml:lang], and the
    names and values of its children. *)
Record err_elem := Elem {
  el_name : bytes;
  el_value : bytes;
  el_lang : option bytes;
  el_children : list (bytes * bytes);
}.

(** [lyd_find_sibling_opaq_next]: the first child with a name. *)
Fixpoint find_elem (name : bytes) (err : list err_elem) : option err_elem :=
  match err with
  | [] => None
  | e :: err => if decide (el_name e = name) then Some e else find_elem name err
  end.

(** Freeing the first child with a name, if there is one. *)
Fixpoint remove_elem (name : bytes) (err : list err_elem) : list err_elem :=
  match err with
  | [] => []
  | e :: err => if decide (el_name e = name) then err else e :: remove_elem name err
  end.

(** Changing the children of the first child with a name. *)
Fixpoint update_elem (name : bytes) (f : list (bytes * bytes) → list (bytes * bytes)) (err : list err_elem)
    : list err_elem :=
  match err with
  | [] => []
  | e :: err =>
    if decide (el_name e = name) then Elem (el_name e) (el_value e) (el_lang e) (f (el_children e)) :: err
    else e :: update_elem name f err
  end.

Definition add_child (name : bytes) (c : bytes * bytes) : list err_elem → list err_elem :=
  update_elem name (λ l, l ++ [c]).

Definition nc_err_get_type (err : list err_elem) : NC_ERR_TYPE :=
  match find_elem (str "error-type") err with Some e => nc_err_str2type (el_value e) | None => NC_ERR_TYPE_UNKNOWN end.

Definition nc_err_get_tag (err : list err_elem) : NC_ERR :=
  match find_elem (str "error-tag") err with Some e => nc_err_str2tag (el_value e) | None => NC_ERR_UNKNOWN end.

Definition nc_err_get_app_tag (err : list err_elem) : option bytes :=
  match find_elem (str "error-app-tag") err with Some e => Some (el_value e) | None => None end.

Definition nc_err_get_path (err : list err_elem) : option bytes :=
  match find_elem (str "error-path") err with Some e => Some (el_value e) | None => None end.

Definition nc_err_get_msg (err : list err_elem) : option bytes :=
  match find_elem (str "error-message") err with Some e => Some (el_value e) | None => None end.

Section err.
Context {W : Type} `{!Env W}.
(** [lyd_new_attr]: whether it succeeded. *)
Context (lyd_new_attr : bytes → W → bool * W).

(** [lyd_new_opaq2] below [<rpc-error>]; a [NULL] value is an empty one. *)
Definition new_elem (name : bytes) (value : option bytes) (err : list err_elem) : M W (bool * list err_elem) :=
  ok ← call (lyd_new_opaq2 name);
  mret (ok, if ok : bool then err ++ [Elem name (default [] value) None []] else err).

(** Every function returns 0 or -1 and the tree; [None] is a [NULL] argument. *)
Definition nc_err_set_app_tag (err : list err_elem) (error_app_tag : option bytes) : M W (Z * list err_elem) :=
  match error_app_tag with
  | None => mret (-1, err)
  | Some v =>
    '(ok, err) ← new_elem (str "error-app-tag") (Some v) (remove_elem (str "error-app-tag") err);
    mret (if ok : bool then 0 else -1, err)
  end.

Definition nc_err_set_path (err : list err_elem) (error_path : option bytes) : M W (Z * list err_elem) :=
  match error_path with
  | None => mret (-1, err)
  | Some v =>
    '(ok, err) ← new_elem (str "error-path") (Some v) (remove_elem (str "error-path") err);
    mret (if ok : bool then 0 else -1, err)
  end.

Definition nc_err_set_msg (err : list err_elem) (error_message lang : option bytes) : M W (Z * list err_elem) :=
  match error_message with
  | None => mret (-1, err)
  | Some v =>
    let err := remove_elem (str "error-message") err in
    ok ← call (lyd_new_opaq2 (str "error-message"));
    if negb ok then mret (-1, err)
    else
      match lang with
      | None => mret (0, err ++ [Elem (str "error-message") v None []])
      | Some l =>
        ok ← call (lyd_new_attr (str "xml:lang"));
        if negb ok then mret (-1, err) else mret (0, err ++ [Elem (str "error-message") v (Some l) []])
      end
  end.

(** The child [<error-info>], created if it is missing. *)
Definition get_info (err : list err_elem) : M W (bool * list err_elem) :=
  match find_elem (str "error-info") err with
  | Some _ => mret (true, err)
  | None => new_elem (str "error-info") None err
  end.

Definition add_info (err : list err_elem) (name value : bytes) : M W (Z * list err_elem) :=
  '(ok, err) ← get_info err;
  if negb ok then mret (-1, err)
  else
    ok ← call (lyd_new_opaq2 name);
    if negb ok then mret (-1, err) else mret (0, add_child (str "error-info") (name, value) err).

(** [session-id] is removed from [<error-info>] before it is added. *)
Fixpoint drop_sid (l : list (bytes * bytes)) : list (bytes * bytes) :=
  match l with
  | [] => []
  | c :: l => if decide (c.1 = str "session-id") then l else c :: drop_sid l
  end.

Definition nc_err_set_sid (err : list err_elem) (session_id : Z) : M W (Z * list err_elem) :=
  '(ok, err) ← get_info err;
  if negb ok then mret (-1, err)
  else
    let err := update_elem (str "error-info") drop_sid err in
    ok ← call (lyd_new_opaq2 (str "session-id"));
    if negb ok then mret (-1, err)
    else mret (0, add_child (str "error-info") (str "session-id", print_dec session_id) err).

Definition nc_err_add_bad_attr (err : list err_elem) (attr_name : option bytes) : M W (Z * list err_elem) :=
  match attr_name with None => mret (-1, err) | Some n => add_info err (str "bad-attribute") n end.

Definition nc_err_add_bad_elem (err : list err_elem) (elem_name : option bytes) : M W (Z * list err_elem) :=
  match elem_name with None => mret (-1, err) | Some n => add_info err (str "bad-element") n end.

Definition nc_err_add_bad_ns (err : list err_elem) (ns_name : option bytes) : M W (Z * list err_elem) :=
  match ns_name with None => mret (-1, err) | Some n => add_info err (str "bad-namespace") n end.

(** [other] is inserted, which does not fail. *)
Definition nc_err_add_info_other (err : list err_elem) (other : option (bytes * bytes)) : M W (Z * list err_elem) :=
  match other with
  | None => mret (-1, err)
  | Some c =>
    '(ok, err) ← get_info err;
    if negb ok then mret (-1, err) else mret (0, add_child (str "error-info") c err)
  end.

(** ** Construction *)

(** The variable arguments; which of them are read depends on the tag. *)
Record err_args := ErrArgs {
  a_type : NC_ERR_TYPE;
  a_arg1 : option bytes;
  a_arg2 : option bytes;
  a_sid : Z;
}.

(** The [error-type] switch. *)
Definition err_type (tag : NC_ERR) (a : err_args) : option NC_ERR_TYPE :=
  let t := a_type a in
  match tag with
  | NC_ERR_UNKNOWN => None
  | NC_ERR_IN_USE | NC_ERR_INVALID_VALUE | NC_ERR_ACCESS_DENIED | NC_ERR_ROLLBACK_FAILED | NC_ERR_OP_NOT_SUPPORTED
  | NC_ERR_MISSING_ELEM | NC_ERR_BAD_ELEM | NC_ERR_UNKNOWN_ELEM | NC_ERR_UNKNOWN_NS =>
    if negb (bool_decide (t = NC_ERR_TYPE_PROT)) && negb (bool_decide (t = NC_ERR_TYPE_APP)) then None else Some t
  | NC_ERR_TOO_BIG | NC_ERR_RES_DENIED => Some t
  | NC_ERR_MISSING_ATTR | NC_ERR_BAD_ATTR | NC_ERR_UNKNOWN_ATTR | NC_ERR_OP_FAILED =>
    if bool_decide (t = NC_ERR_TYPE_TRAN) then None else Some t
  | NC_ERR_LOCK_DENIED => Some NC_ERR_TYPE_PROT
  | NC_ERR_DATA_EXISTS | NC_ERR_DATA_MISSING => Some NC_ERR_TYPE_APP
  | NC_ERR_MALFORMED_MSG => Some NC_ERR_TYPE_RPC
  end.

(** The [error-message] switch. *)
Definition err_message (tag : NC_ERR) : bytes :=
  match tag with
  | NC_ERR_UNKNOWN => []
  | NC_ERR_IN_USE => str "The request requires a resource that already is in use."
  | NC_ERR_INVALID_VALUE => str "The request specifies an unacceptable value for one or more parameters."
  | NC_ERR_TOO_BIG => str "The request or response (that would be generated) is too large for the implementation to handle."
  | NC_ERR_MISSING_ATTR => str "An expected attribute is missing."
  | NC_ERR_BAD_ATTR => str "An attribute value is not correct."
  | NC_ERR_UNKNOWN_ATTR => str "An unexpected attribute is present."
  | NC_ERR_MISSING_ELEM => str "An expected element is missing."
  | NC_ERR_BAD_ELEM => str "An element value is not correct."
  | NC_ERR_UNKNOWN_ELEM => str "An unexpected element is present."
  | NC_ERR_UNKNOWN_NS => str "An unexpected namespace is present."
  | NC_ERR_ACCESS_DENIED => str "Access to the requested protocol operation or data model is denied because authorization failed."
  | NC_ERR_LOCK_DENIED => str "Access to the requested lock is denied because the lock is currently held by another entity."
  | NC_ERR_RES_DENIED => str "Request could not be completed because of insufficient resources."
  | NC_ERR_ROLLBACK_FAILED => str "Request to roll back some configuration change was not completed for some reason."
  | NC_ERR_DATA_EXISTS => str "Request could not be completed because the relevant data model content already exists."
  | NC_ERR_DATA_MISSING => str "Request could not be completed because the relevant data model content does not exist."
  | NC_ERR_OP_NOT_SUPPORTED => str "Request could not be completed because the requested operation is not supported by this implementation."
  | NC_ERR_OP_FAILED => str "Request could not be completed because the requested operation failed for a non-specific reason."
  | NC_ERR_MALFORMED_MSG => str "A message could not be handled because it failed to be parsed correctly."
  end.

(** The [error-info] switch; the results of the calls are ignored. *)
Definition err_info (tag : NC_ERR) (a : err_args) (err : list err_elem) : M W (list err_elem) :=
  match tag with
  | NC_ERR_MISSING_ATTR | NC_ERR_BAD_ATTR | NC_ERR_UNKNOWN_ATTR =>
    '(_, err) ← nc_err_add_bad_attr err (a_arg1 a);
    '(_, err) ← nc_err_add_bad_elem err (a_arg2 a);
    mret err
  | NC_ERR_MISSING_ELEM | NC_ERR_BAD_ELEM | NC_ERR_UNKNOWN_ELEM =>
    '(_, err) ← nc_err_add_bad_elem err (a_arg1 a);
    mret err
  | NC_ERR_UNKNOWN_NS =>
    '(_, err) ← nc_err_add_bad_elem err (a_arg1 a);
    '(_, err) ← nc_err_add_bad_ns err (a_arg2 a);
    mret err
  | NC_ERR_LOCK_DENIED =>
    '(_, err) ← nc_err_set_sid err (a_sid a);
    mret err
  | _ => mret err
  end.

Definition nc_err (tag : NC_ERR) (a : err_args) : M W (option (list err_elem)) :=
  if bool_decide (tag = NC_ERR_UNKNOWN) then mret None
  else
    ok ← call (lyd_new_opaq2 (str "rpc-error"));
    if negb ok then mret None
    else
      match err_type tag a with
      | None => mret None
      | Some type =>
        '(ok, err) ← new_elem (str "error-type") (nc_err_type2str type) [];
        if negb ok then mret None
        else
          '(ok, err) ← new_elem (str "error-tag") (nc_err_tag2str tag) err;
          if negb ok then mret None
          else
            '(ok, err) ← new_elem (str "error-severity") (Some (str "error")) err;
            if negb ok then mret None
            else
              '(_, err) ← nc_err_set_msg err (Some (err_message tag)) (Some (str "en"));
              err ← err_info tag a err;
              mret (Some err)
      end.
End err.

(** ** Properties *)

(** The error types RFC 6241, appendix A, allows for a tag. *)
Definition rfc_types (tag : NC_ERR) : list NC_ERR_TYPE :=
  match tag with
  | NC_ERR_UNKNOWN => []
  | NC_ERR_TOO_BIG | NC_ERR_RES_DENIED => [NC_ERR_TYPE_TRAN; NC_ERR_TYPE_RPC; NC_ERR_TYPE_PROT; NC_ERR_TYPE_APP]
  | NC_ERR_MISSING_ATTR | NC_ERR_BAD_ATTR | NC_ERR_UNKNOWN_ATTR | NC_ERR_OP_FAILED =>
    [NC_ERR_TYPE_RPC; NC_ERR_TYPE_PROT; NC_ERR_TYPE_APP]
  | NC_ERR_LOCK_DENIED => [NC_ERR_TYPE_PROT]
  | NC_ERR_DATA_EXISTS | NC_ERR_DATA_MISSING => [NC_ERR_TYPE_APP]
  | NC_ERR_MALFORMED_MSG => [NC_ERR_TYPE_RPC]
  | _ => [NC_ERR_TYPE_PROT; NC_ERR_TYPE_APP]
  end.

(** Its [<error-info>] for a tag. *)
Definition rfc_info (tag : NC_ERR) (arg1 arg2 : bytes) (sid : Z) : list (bytes * bytes) :=
  match tag with
  | NC_ERR_MISSING_ATTR | NC_ERR_BAD_ATTR | NC_ERR_UNKNOWN_ATTR =>
    [(str "bad-attribute", arg1); (str "bad-element", arg2)]
  | NC_ERR_MISSING_ELEM | NC_ERR_BAD_ELEM | NC_ERR_UNKNOWN_ELEM => [(str "bad-element", arg1)]
  | NC_ERR_UNKNOWN_NS => [(str "bad-element", arg1); (str "bad-namespace", arg2)]
  | NC_ERR_LOCK_DENIED => [(str "session-id", print_dec sid)]
  | _ => []
  end.

(** The type of an error: the one given, or the only one its tag allows. *)
Definition rfc_type (tag : NC_ERR) (t : NC_ERR_TYPE) : NC_ERR_TYPE :=
  match rfc_types tag with [only] => only | _ => t end.

Definition info_of (err : list err_elem) : list (bytes * bytes) :=
  match find_elem (str "error-info") err with Some e => el_children e | None => [] end.

Lemma str2tag2str tag : tag ≠ NC_ERR_UNKNOWN → nc_err_str2tag (default [] (nc_err_tag2str tag)) = tag.
Proof. by destruct tag. Qed.

Lemma str2type2str t : nc_err_str2type (default [] (nc_err_type2str t)) = t.
Proof. by destruct t. Qed.

Lemma err_type_rfc tag a :
  tag ≠ NC_ERR_UNKNOWN → a_type a ≠ NC_ERR_TYPE_UNKNOWN →
  err_type tag a = if bool_decide (rfc_type tag (a_type a) ∈ rfc_types tag)
                   then Some (rfc_type tag (a_type a)) else None.
Proof. destruct a as [t x y z]. destruct tag, t; done. Qed.

Section rfc.
Context {W : Type} `{!Env W} (lyd_new_attr : bytes → W → bool * W).
Context (Hopaq : ∀ n w, (lyd_new_opaq2 n w).1 = true) (Hattr : ∀ n w, (lyd_new_attr n w).1 = true).

Lemma new_elem_ok F name value err (Q : bool * list err_elem → W → Prop) w :
  (∀ w', Q (true, err ++ [Elem name (default [] value) None []]) w') → wpx F (new_elem name value err) Q w.
Proof. intros HQ. unfold new_elem. apply wpx_bind, wpx_call. rewrite Hopaq. apply wpx_ret, HQ. Qed.

Lemma set_msg_ok F err v l (Q : Z * list err_elem → W → Prop) w :
  (∀ w', Q (0, remove_elem (str "error-message") err ++ [Elem (str "error-message") v (Some l) []]) w') →
  wpx F (nc_err_set_msg lyd_new_attr err (Some v) (Some l)) Q w.
Proof.
  intros HQ. unfold nc_err_set_msg. apply wpx_bind, wpx_call. rewrite Hopaq. cbn [negb].
  apply wpx_bind, wpx_call. rewrite Hattr. apply wpx_ret, HQ.
Qed.

Lemma get_info_ok F err (Q : bool * list err_elem → W → Prop) w :
  (∀ w', Q (true, if find_elem (str "error-info") err then err
                  else err ++ [Elem (str "error-info") [] None []]) w') → wpx F (get_info err) Q w.
Proof.
  intros HQ. unfold get_info. destruct (find_elem _ err); [apply wpx_ret, HQ|by apply new_elem_ok].
Qed.

Lemma add_info_ok F err name value (Q : Z * list err_elem → W → Prop) w :
  (∀ w', Q (0, add_child (str "error-info") (name, value)
     (if find_elem (str "error-info") err then err else err ++ [Elem (str "error-info") [] None []])) w') →
  wpx F (add_info err name value) Q w.
Proof.
  intros HQ. unfold add_info. apply wpx_bind, get_info_ok. intros w'. cbn [negb].
  apply wpx_bind, wpx_call. rewrite Hopaq. apply wpx_ret, HQ.
Qed.

Lemma set_sid_ok F err sid (Q : Z * list err_elem → W → Prop) w :
  (∀ w', Q (0, add_child (str "error-info") (str "session-id", print_dec sid) (update_elem (str "error-info") drop_sid
     (if find_elem (str "error-info") err then err else err ++ [Elem (str "error-info") [] None []]))) w') →
  wpx F (nc_err_set_sid err sid) Q w.
Proof.
  intros HQ. unfold nc_err_set_sid. apply wpx_bind, get_info_ok. intros w'. cbn [negb].
  apply wpx_bind, wpx_call. rewrite Hopaq. apply wpx_ret, HQ.
Qed.

(** The first four children of every error. *)
Definition err_head (tag : NC_ERR) (t : NC_ERR_TYPE) : list err_elem :=
  [Elem (str "error-type") (default [] (nc_err_type2str t)) None [];
   Elem (str "error-tag") (default [] (nc_err_tag2str tag)) None [];
   Elem (str "error-severity") (str "error") None [];
   Elem (str "error-message") (err_message tag) (Some (str "en")) []].

Definition err_tree (tag : NC_ERR) (t : NC_ERR_TYPE) (info : list (bytes * bytes)) : list err_elem :=
  err_head tag t ++ match info with [] => [] | _ => [Elem (str "error-info") [] None info] end.

Lemma err_info_ok F tag t a arg1 arg2 w :
  a_arg1 a = Some arg1 → a_arg2 a = Some arg2 →
  wpx F (err_info tag a (err_head tag t))
    (λ err _, err = err_tree tag t (rfc_info tag arg1 arg2 (a_sid a))) w.
Proof.
  intros E1 E2. unfold err_info, nc_err_add_bad_attr, nc_err_add_bad_elem, nc_err_add_bad_ns. rewrite E1, E2.
  destruct tag; try by apply wpx_ret.
  all: apply wpx_bind; first [apply add_info_ok|apply set_sid_ok]; intros w1; try by apply wpx_ret.
  all: apply wpx_bind; apply add_info_ok; intros w2; by apply wpx_ret.
Qed.

Lemma nc_err_ok F tag a arg1 arg2 w :
  tag ≠ NC_ERR_UNKNOWN → a_type a ≠ NC_ERR_TYPE_UNKNOWN → a_arg1 a = Some arg1 → a_arg2 a = Some arg2 →
  wpx F (nc_err lyd_new_attr tag a)
    (λ r _, r = if bool_decide (rfc_type tag (a_type a) ∈ rfc_types tag)
                then Some (err_tree tag (rfc_type tag (a_type a)) (rfc_info tag arg1 arg2 (a_sid a))) else None) w.
Proof.
  intros Htag Htype E1 E2. unfold nc_err. rewrite bool_decide_false by done.
  apply wpx_bind, wpx_call. rewrite Hopaq. cbn [negb]. rewrite err_type_rfc by done.
  destruct (bool_decide _); [|by apply wpx_ret]. set (t := rfc_type _ _).
  apply wpx_bind, new_elem_ok. intros w1. cbn [negb]. apply wpx_bind, new_elem_ok. intros w2. cbn [negb].
  apply wpx_bind, new_elem_ok. intros w3. cbn [negb]. apply wpx_bind, set_msg_ok. intros w4. apply wpx_bind.
  eapply wpx_mono; [by apply (err_info_ok F tag t a arg1 arg2)|]. intros err w5 ->. by apply wpx_ret.
Qed.
End rfc.

(** When libyang does not run out of memory, [nc_err] builds exactly the errors
    of RFC 6241, appendix A: it succeeds if and only if the type is one the tag
    allows, and then the error has the tag, that type, the message of the tag, the
    severity error, and the error-info the appendix asks for. *)
Theorem nc_err_rfc {W} `{!Env W} lyd_new_attr tag type arg1 arg2 sid (w : W) :
  (∀ n (w : W), (lyd_new_opaq2 n w).1 = true) → (∀ n (w : W), (lyd_new_attr n w).1 = true) →
  tag ≠ NC_ERR_UNKNOWN → type ≠ NC_ERR_TYPE_UNKNOWN →
  ∃ res w', nc_err lyd_new_attr tag (ErrArgs type (Some arg1) (Some arg2) sid) w = Done (res, w') ∧
    match res with
    | None => rfc_type tag type ∉ rfc_types tag
    | Some err =>
      rfc_type tag type ∈ rfc_types tag ∧ nc_err_get_tag err = tag ∧ nc_err_get_type err = rfc_type tag type ∧
      nc_err_get_msg err = Some (err_message tag) ∧ info_of err = rfc_info tag arg1 arg2 sid ∧
      el_value <$> find_elem (str "error-severity") err = Some (str "error")
    end.
Proof.
  intros Hopaq Hattr Htag Htype.
  destruct (proj1 (wp_total _ _ _) (nc_err_ok lyd_new_attr Hopaq Hattr False tag
    (ErrArgs type (Some arg1) (Some arg2) sid) arg1 arg2 w Htag Htype eq_refl eq_refl)) as (res & w' & E & ->).
  eexists _, w'. split; [exact E|]. cbn [a_type a_sid].
  destruct (bool_decide (rfc_type tag type ∈ rfc_types tag)) eqn:Hin;
    [apply bool_decide_eq_true in Hin|by apply bool_decide_eq_false in Hin].
  split; [done|]. split; [|split; [|split; [done|split; [|done]]]].
  - apply (str2tag2str tag Htag).
  - apply str2type2str.
  - by destruct tag.
Qed.

Lemma nc_err_rfc_witness :
  ∃ err w', nc_err (λ _ w, (true, w)) NC_ERR_LOCK_DENIED (ErrArgs NC_ERR_TYPE_RPC (Some []) (Some []) 7)
      (Sim (m0:=true) (up:=true) [] [] 0) = Done (Some err, w') ∧
    nc_err_get_type err = NC_ERR_TYPE_PROT ∧ info_of err = [(str "session-id", str "7")].
Proof.
  destruct (nc_err_rfc (λ _ w, (true, w)) NC_ERR_LOCK_DENIED NC_ERR_TYPE_RPC [] [] 7
    (Sim (m0:=true) (up:=true) [] [] 0)) as ([err|] & w' & E & H).
  - intros n w. reflexivity.
  - intros n w. reflexivity.
  - discriminate.
  - discriminate.
  - destruct H as (_ & _ & Ht & _ & Hi & _). exists err, w'. split; [exact E|]. split; [exact Ht|exact Hi].
  - exfalso. apply H. left.
Defined.

(** ** Setters *)

(** No two children have the same name. *)
Definition err_wf (err : list err_elem) : Prop := NoDup (map el_name err).

Lemma find_elem_app n a b :
  find_elem n (a ++ b) = match find_elem n a with Some e => Some e | None => find_elem n b end.
Proof. induction a as [|e a IH]; simpl; [done|]. by destruct (decide _). Qed.

Lemma find_remove_ne n m err : n ≠ m → find_elem n (remove_elem m err) = find_elem n err.
Proof.
  intros N. induction err as [|e err IH]; simpl; [done|].
  destruct (decide (el_name e = m)) as [E|E]; simpl.
  - rewrite decide_False; [done|congruence].
  - by destruct (decide _).
Qed.

Lemma find_elem_None n err : find_elem n err = None ↔ n ∉ map el_name err.
Proof.
  induction err as [|e err IH]; simpl; [split; [intros _; apply not_elem_of_nil|done]|].
  rewrite not_elem_of_cons. destruct (decide (el_name e = n)) as [<-|N].
  - split; [done|]. by intros [? _].
  - rewrite IH. split; [auto|]. by intros [_ ?].
Qed.

Lemma remove_elem_sub m err x : x ∈ map el_name (remove_elem m err) → x ∈ map el_name err.
Proof.
  induction err as [|e err IH]; simpl; [done|]. destruct (decide _); simpl; [by right|].
  rewrite !elem_of_cons. intros [->|H]; auto.
Qed.

Lemma remove_elem_wf m err : err_wf err → err_wf (remove_elem m err) ∧ m ∉ map el_name (remove_elem m err).
Proof.
  unfold err_wf. induction err as [|e err IH]; simpl; intros Hw; [split; [done|apply not_elem_of_nil]|].
  apply list.NoDup_cons in Hw as [He Hw]. destruct (IH Hw) as [IH1 IH2].
  destruct (decide (el_name e = m)) as [<-|N]; [done|]. simpl. split.
  - apply list.NoDup_cons. split; [|done]. intros H. by apply remove_elem_sub in H.
  - rewrite not_elem_of_cons. auto.
Qed.

(** After replacing the child [m], with or without success. *)
Lemma replaced m err e (ok : bool) :
  err_wf err → el_name e = m →
  let err' := if ok then remove_elem m err ++ [e] else remove_elem m err in
  err_wf err' ∧ (∀ n, n ≠ m → find_elem n err' = find_elem n err) ∧
  find_elem m err' = if ok then Some e else None.
Proof.
  intros Hw <-. destruct (remove_elem_wf (el_name e) err Hw) as [H1 H2]. cbv zeta. destruct ok.
  - split; [|split].
    + unfold err_wf. rewrite map_app. apply list.NoDup_app. split; [done|]. split.
      * intros x Hx. cbn [map]. rewrite list_elem_of_singleton. intros ->. done.
      * apply NoDup_singleton.
    + intros n N. rewrite find_elem_app, find_remove_ne by done. simpl. rewrite decide_False by done.
      by destruct (find_elem n err).
    + rewrite find_elem_app, (proj2 (find_elem_None _ _) H2). simpl. by rewrite decide_True.
  - split; [done|]. split; [|by apply find_elem_None]. intros n N. by apply find_remove_ne.
Qed.

(** What a setter of the child [m] with the value [v] does. *)
Definition sets (m v : bytes) (err : list err_elem) (r : Z * list err_elem) : Prop :=
  err_wf r.2 ∧ (∀ n, n ≠ m → find_elem n r.2 = find_elem n err) ∧
  ((r.1 = 0 ∧ el_value <$> find_elem m r.2 = Some v) ∨ (r.1 = -1 ∧ find_elem m r.2 = None)).

Lemma sets_replaced m err e (ok : bool) :
  err_wf err → el_name e = m →
  sets m (el_value e) err (if ok then (0, remove_elem m err ++ [e]) else (-1, remove_elem m err)).
Proof.
  intros Hw Hm. destruct (replaced m err e ok Hw Hm) as (H1 & H2 & H3). destruct ok.
  - split; [done|]. split; [done|]. left. split; [done|]. cbn [snd]. by rewrite H3.
  - split; [done|]. split; [done|]. by right.
Qed.

(** Setting the application tag, the path or the message of an error replaces
    the previous one and nothing else: the getters return the new value if the
    setter succeeded and nothing if it ran out of memory, all other children stay
    as they were, and no child occurs twice. *)
Theorem err_setters {W} `{!Env W} lyd_new_attr err v lang (w : W) :
  err_wf err →
  (∃ r w', nc_err_set_app_tag err (Some v) w = Done (r, w') ∧ sets (str "error-app-tag") v err r) ∧
  (∃ r w', nc_err_set_path err (Some v) w = Done (r, w') ∧ sets (str "error-path") v err r) ∧
  (∃ r w', nc_err_set_msg lyd_new_attr err (Some v) lang w = Done (r, w') ∧ sets (str "error-message") v err r).
Proof.
  intros Hw. rewrite <- !wp_total. split; [|split].
  - unfold nc_err_set_app_tag, new_elem. apply wpx_bind, wpx_bind, wpx_call.
    destruct (lyd_new_opaq2 _ w) as [ok w1]. apply wpx_ret, wpx_ret. cbn [fst snd].
    pose proof (sets_replaced (str "error-app-tag") err (Elem (str "error-app-tag") v None []) ok Hw eq_refl) as H.
    by destruct ok.
  - unfold nc_err_set_path, new_elem. apply wpx_bind, wpx_bind, wpx_call.
    destruct (lyd_new_opaq2 _ w) as [ok w1]. apply wpx_ret, wpx_ret. cbn [fst snd].
    pose proof (sets_replaced (str "error-path") err (Elem (str "error-path") v None []) ok Hw eq_refl) as H.
    by destruct ok.
  - unfold nc_err_set_msg. apply wpx_bind, wpx_call. destruct (lyd_new_opaq2 _ w) as [ok w1]. cbn [fst snd].
    pose proof (λ l b, sets_replaced (str "error-message") err (Elem (str "error-message") v l []) b Hw eq_refl) as H.
    destruct ok; cbn [negb]; [|apply wpx_ret; apply (H None false)].
    destruct lang as [l|]; [|apply wpx_ret; apply (H None true)].
    apply wpx_bind, wpx_call. destruct (lyd_new_attr _ w1) as [ok w2]. cbn [fst snd].
    destruct ok; cbn [negb]; apply wpx_ret; [apply (H (Some l) true)|apply (H None false)].
Qed.

Lemma err_setters_witness :
  ∃ w', nc_err_set_path [Elem (str "error-path") (str "/a") None []; Elem (str "error-tag") (str "in-use") None []]
      (Some (str "/b")) (Sim (m0:=true) (up:=true) [] [] 0) =
    Done ((0, [Elem (str "error-tag") (str "in-use") None []; Elem (str "error-path") (str "/b") None []]), w').
Proof.
  destruct (err_setters (λ _ w, (true, w))
    [Elem (str "error-path") (str "/a") None []; Elem (str "error-tag") (str "in-use") None []] (str "/b") None
    (Sim (m0:=true) (up:=true) [] [] 0)) as (_ & (r & w' & E & _) & _).
  - unfold err_wf. apply (bool_decide_unpack (NoDup _)). vm_compute. exact I.
  - exists w'. rewrite E. vm_compute in E. injection E as <- <-. reflexivity.
Defined.
