(* ===== verification/SessionFree.v ===== *)
(** * The end of a session

    src/session.c: [nc_session_free] stops the threads of a session, says goodbye
    to the server, and releases the transport.  NETCONF sessions on channels of one
    SSH session form a ring; the last of them releases the SSH session.  Freed
    memory is removed from the store, so that a use of it is a crash.  Calls that
    only close a transport or release memory are left out. *)

From S2P Require Import Prelude Session Env Time Locks IoRead IoWrite Capabilities PsQueue PollSession.
From Stdlib Require Import ZArith Ascii String Lia.
From stdpp Require Import base list strings gmap numbers.
Open Scope Z_scope.

Definition NC_SESSION_FREE_LOCK_TIMEOUT : Z := 1000.
Definition NC_CLOSE_REPLY_TIMEOUT : Z := 200.

(** ** The ring *)

Section ring.
Context {W : Type}.
Implicit Types m : gmap positive (nc_session * W).

(** [session->ti.libssh.next]; anything else than an SSH session is a crash. *)
Definition ssh_next m (p : positive) : outcome (option positive) :=
  match m !! p with
  | Some (s, _) => match ti s with TiLibssh _ next => Done next | _ => Crash end
  | None => Crash
  end.

Definition set_next (next : option positive) (s : nc_session) : nc_session :=
  match ti s with
  | TiLibssh c _ =>
    Session (status s) (term_reason s) (killed_by s) (side s) (id s) (version s) (TiLibssh c next) (io_lock s)
      (username s) (host s) (port s) (path s) (flags s) (client s) (server s)
  | _ => s
  end.

Definition upd_next (p : positive) (next : option positive) m : gmap positive (nc_session * W) :=
  alter (λ sw, (set_next next sw.1, sw.2)) p m.

(** Is there another session that has started, from [cur] around to [self]? *)
Fixpoint other_active (fuel : nat) m (self cur : positive) : outcome bool :=
  match fuel with
  | O => NoFuel
  | S fuel =>
    if decide (cur = self) then Done false
    else
      match m !! cur with
      | None => Crash
      | Some (s, _) =>
        if negb (bool_decide (status s = NC_STATUS_STARTING)) then Done true
        else match ssh_next m cur with
             | Done (Some next) => other_active fuel m self next
             | Done None | Crash => Crash
             | NoFuel => NoFuel
             end
      end
  end.

(** Freeing the sessions behind [self] until it is alone. *)
Fixpoint free_starting (fuel : nat) m (self : positive) : outcome (gmap positive (nc_session * W)) :=
  match fuel with
  | O => NoFuel
  | S fuel =>
    match ssh_next m self with
    | Done (Some siter) =>
      match ssh_next m siter with
      | Done next =>
        let m := delete siter (upd_next self next m) in
        if decide (next = Some self) then Done m else free_starting fuel m self
      | NoFuel => NoFuel
      | Crash => Crash
      end
    | Done None | Crash => Crash
    | NoFuel => NoFuel
    end
  end.

(** The session before [self]. *)
Fixpoint find_pred (fuel : nat) m (self cur : positive) : outcome positive :=
  match fuel with
  | O => NoFuel
  | S fuel =>
    match ssh_next m cur with
    | Done (Some next) => if decide (next = self) then Done cur else find_pred fuel m self next
    | Done None | Crash => Crash
    | NoFuel => NoFuel
    end
  end.

(** The session to pass SSH messages to, [None] if the end of the list is reached. *)
Fixpoint pick_running (fuel : nat) m (self : positive) (cur : option positive) : outcome (option positive) :=
  match fuel with
  | O => NoFuel
  | S fuel =>
    match cur with
    | None => Done None
    | Some c =>
      match m !! c with
      | None => Crash
      | Some (s, _) =>
        if bool_decide (status s = NC_STATUS_RUNNING) then Done (Some c)
        else match ssh_next m c with
             | Done next => if decide (next = Some self) then Done (Some c) else pick_running fuel m self next
             | NoFuel => NoFuel
             | Crash => Crash
             end
      end
    end
  end.

Definition obind {A B} (o : outcome A) (k : A → outcome B) : outcome B :=
  match o with Done a => k a | NoFuel => NoFuel | Crash => Crash end.

(** Taking a session out of the ring and passing its message callback on. *)
Definition leave_ring (fuel : nat) m (self next : positive) : outcome (gmap positive (nc_session * W)) :=
  obind (find_pred fuel m self next) (λ siter,
    let m := upd_next siter (if decide (next = siter) then None else Some next) m in
    match m !! self with
    | None => Crash
    | Some (s, _) =>
      if Z.land (flags s) NC_SESSION_SSH_MSG_CB =? 0 then Done m
      else
        obind (pick_running fuel m self (Some next)) (λ siter,
          match siter with
          | None => Done m
          | Some c => Done (alter (λ sw, (set_flags (Z.lor (flags sw.1) NC_SESSION_SSH_MSG_CB) sw.1, sw.2)) c m)
          end)
    end).

(** The SSH part of [nc_session_free_transport], with the IO lock held: whether
    other sessions use the SSH session, and the sessions left. *)
Definition release_ssh (fuel : nat) m (self : positive) : outcome (bool * gmap positive (nc_session * W)) :=
  obind (ssh_next m self) (λ next,
    match next with
    | None => Done (false, m)
    | Some next =>
      obind (other_active fuel m self next) (λ multisession,
        if multisession then obind (leave_ring fuel m self next) (λ m, Done (true, m))
        else obind (free_starting fuel m self) (λ m, Done (false, m)))
    end).
End ring.

Section free.
Context {W : Type} `{!Env W}.

(** [free(session)] *)
Definition free_memory (p : positive) : PM W unit := λ x,
  Done (tt, PsWorld (pw_ps x) (delete p (pw_store x)) (pw_glob x)).

Definition on_ring (fuel : nat) (p : positive) : PM W bool := λ x,
  match release_ssh fuel (pw_store x) p with
  | Done (b, m) => Done (b, PsWorld (pw_ps x) m (pw_glob x))
  | NoFuel => NoFuel
  | Crash => Crash
  end.

(** Returns [multisession]. *)
Definition nc_session_free_transport (fuel : nat) (p : positive) : PM W bool :=
  _ ← on_session p (nc_session_is_connected fuel);
  s ← on_session p ses;
  match ti s with
  | TiLibssh _ _ =>
    r ← on_session p (nc_session_io_lock NC_SESSION_FREE_LOCK_TIMEOUT);
    multisession ← on_ring fuel p;
    _ ← (if r =? 1 then _ ← on_session p nc_session_io_unlock; mret tt else mret tt);
    mret multisession
  | _ => mret false
  end.

(** [pthread_cond_timedwait] on [rpc_cond] until the lock is free; seen from one
    thread, [rpc_inuse] does not change meanwhile. *)
Fixpoint rpc_wait (fuel : nat) (ts : timespec) : SM W Z :=
  match fuel with
  | O => no_fuel
  | S fuel =>
    s ← ses;
    if negb (rpc_inuse (server s)) then mret 0
    else
      ret ← envcall (cond_timedwait L_rpc ts);
      if negb (ret =? 0) then _ ← envcall (mutex_unlock L_rpc); mret ret
      else rpc_wait fuel ts
  end.

(** [nc_session_rpc_lock] with a positive timeout. *)
Definition nc_session_rpc_lock (fuel : nat) (timeout : Z) : SM W Z :=
  s ← ses;
  if negb (bool_decide (side s = NC_SERVER)) then mret (-1)
  else
    ts ← env (nc_gettimespec_real_add timeout);
    ret ← envcall (mutex_timedlock L_rpc ts);
    ret ← (if ret =? 0 then rpc_wait fuel ts else mret ret);
    if negb (ret =? 0) then mret (if (ret =? EBUSY) || (ret =? ETIMEDOUT) then 0 else -1)
    else
      s ← ses;
      _ ← guarded (negb (rpc_inuse (server s)));
      _ ← upd_ses (set_rpc_inuse true);
      ret ← envcall (mutex_unlock L_rpc);
      mret (if ret =? 0 then 1 else -1).

(** Waiting for the notification threads to end, at most until [ts]. *)
Fixpoint wait_threads (fuel : nat) (ts : timespec) : SM W unit :=
  match fuel with
  | O => no_fuel
  | S fuel =>
    s ← ses;
    if ntf_thread_count (client s) =? 0 then mret tt
    else
      _ ← envcall (λ w, (tt, usleep NC_TIMEOUT_STEP w));
      diff ← env (nc_difftimespec_mono_cur ts);
      if diff <? 1 then mret tt else wait_threads fuel ts
  end.

Definition stop_threads (fuel : nat) : SM W unit :=
  s ← ses;
  if bool_decide (side s = NC_CLIENT) && negb (ntf_thread_running (client s) =? 0) then
    _ ← upd_ses (set_thread_running 0);
    ts ← env (nc_gettimespec_mono_add NC_SESSION_FREE_LOCK_TIMEOUT);
    wait_threads fuel ts
  else mret tt.

(** Reading what is left on the wire. *)
Fixpoint drain (n fuel : nat) : SM W unit :=
  match n with
  | O => no_fuel
  | S n =>
    '(r, _) ← nc_read_msg_poll_io fuel 0;
    if r =? 1 then drain n fuel else mret tt
  end.
End free.

Section close.
Context {W node envelope : Type} `{!Env W, !Printer node envelope}.
(** The close-session RPC, if the module ietf-netconf is there and the RPC can be
    created. *)
Context (close_rpc : W → option node * W).

(** Waiting for the reply; notifications are skipped. *)
Fixpoint read_close_reply (n fuel : nat) : SM W unit :=
  match n with
  | O => no_fuel
  | S n =>
    '(r, msg) ← nc_read_msg_poll_io fuel NC_CLOSE_REPLY_TIMEOUT;
    if r =? 1 then
      match msg with
      | None => crash
      | Some msg => if strncmp_eq msg (str "<notification") 13 then read_close_reply n fuel else mret tt
      end
    else mret tt
  end.

Definition nc_session_free_close_session (fuel : nat) : SM W unit :=
  rpc ← envcall close_rpc;
  match rpc with
  | None => mret tt
  | Some rpc =>
    _ ← nc_write_msg_io fuel NC_SESSION_FREE_LOCK_TIMEOUT (OutRpc (envelope:=envelope) rpc None);
    read_close_reply fuel fuel
  end.

(** The client part before the transport is released; [false] is the early return. *)
Definition free_client (fuel : nat) : SM W bool :=
  '(r, _) ← nc_session_client_msgs_lock NC_SESSION_FREE_LOCK_TIMEOUT;
  if r =? -1 then mret false
  else
    _ ← upd_ses (set_msgs []);
    _ ← (if r =? 1 then _ ← nc_session_client_msgs_unlock; mret tt else mret tt);
    s ← ses;
    _ ← (if bool_decide (status s = NC_STATUS_RUNNING) then
           _ ← drain fuel fuel;
           nc_session_free_close_session fuel
         else mret tt);
    _ ← upd_ses (set_cpblts None);
    mret true.

(** The Call Home thread is told and waited for while [NC_SESSION_CH_THREAD] is
    set, at most until [ts]; seen from this thread the flag does not change. *)
Fixpoint wait_ch_thread (fuel : nat) (ts : timespec) : SM W unit :=
  match fuel with
  | O => no_fuel
  | S fuel =>
    s ← ses;
    if Z.land (flags s) NC_SESSION_CH_THREAD =? 0 then mret tt
    else
      r ← envcall (cond_timedwait L_ch ts);
      if negb (r =? 0) then mret tt else wait_ch_thread fuel ts
  end.

Definition free_callhome (fuel : nat) : SM W unit :=
  s ← ses;
  let server_flag f := bool_decide (side s = NC_SERVER) && negb (Z.land (flags s) f =? 0) in
  _ ← (if server_flag NC_SESSION_CALLHOME then _ ← envcall (mutex_lock L_ch); mret tt else mret tt);
  _ ← upd_ses (set_status NC_STATUS_CLOSING);
  _ ← (if server_flag NC_SESSION_CH_THREAD then
         ts ← env (nc_gettimespec_real_add NC_SESSION_FREE_LOCK_TIMEOUT);
         wait_ch_thread fuel ts
       else mret tt);
  if server_flag NC_SESSION_CALLHOME then _ ← envcall (mutex_unlock L_ch); mret tt else mret tt.

Definition nc_session_free (fuel : nat) (p : positive) : PM W unit :=
  s ← on_session p ses;
  if bool_decide (status s = NC_STATUS_CLOSING) then mret tt
  else
    _ ← on_session p (stop_threads fuel);
    r ← (if bool_decide (side s = NC_SERVER)
         then on_session p (nc_session_rpc_lock fuel NC_SESSION_FREE_LOCK_TIMEOUT) else mret 0);
    if r =? -1 then mret tt
    else
      ok ← (if bool_decide (side s = NC_CLIENT) then on_session p (free_client fuel) else mret true);
      if negb ok then mret tt
      else
        _ ← on_session p (free_callhome fuel);
        _ ← nc_session_free_transport fuel p;
        _ ← (if bool_decide (side s = NC_SERVER) && (r =? 1)
             then _ ← on_session p (nc_session_rpc_unlock NC_SESSION_LOCK_TIMEOUT); mret tt else mret tt);
        free_memory p.
End close.
