(* ===== verification/FreeProofs.v ===== *)
(** * The ring of sessions when one of them ends

    Releasing a session keeps the ring of the remaining ones intact. *)

From S2P Require Import Prelude Session Env Time Locks IoRead IoWrite Capabilities PsQueue PollSession.
From S2P Require Import SessionFree.
From Stdlib Require Import ZArith Ascii String Lia.
From stdpp Require Import base list strings gmap numbers.
Open Scope Z_scope.

Section ring.
Context {W : Type}.
Implicit Types (m : gmap positive (nc_session * W)) (l : list positive).

Definition next_is m (a : positive) (o : option positive) : Prop :=
  ∃ s w c, m !! a = Some (s, w) ∧ ti s = TiLibssh c o.

Lemma ssh_next_is m a o : next_is m a o → ssh_next m a = Done o.
Proof. intros (s & w & c & E & Et). unfold ssh_next. by rewrite E, Et. Qed.

(** From [a] one gets through [l] to [b]. *)
Fixpoint chain m (a : positive) l (b : positive) : Prop :=
  match l with
  | [] => next_is m a (Some b)
  | x :: l => next_is m a (Some x) ∧ chain m x l b
  end.

(** The sessions of one SSH session: [p] and those that follow it. *)
Definition ring m (p : positive) l : Prop := chain m p l p ∧ NoDup (p :: l).

Lemma chain_snoc m a l z b : chain m a (l ++ [z]) b ↔ chain m a l z ∧ next_is m z (Some b).
Proof.
  revert a. induction l as [|x l IH]; intros a; simpl; [done|]. rewrite IH. tauto.
Qed.

Lemma chain_frame m m' a l b :
  (∀ x, x ∈ a :: l → m' !! x = m !! x) → chain m a l b → chain m' a l b.
Proof.
  revert a. induction l as [|x l IH]; intros a Hm; simpl.
  - intros (s & w & c & E & Et). exists s, w, c. rewrite Hm; [done|by left].
  - intros [(s & w & c & E & Et) H]. split.
    + exists s, w, c. rewrite Hm; [done|by left].
    + apply IH; [|done]. intros y Hy. apply Hm. by right.
Qed.

Lemma chain_lookup m a l b x : chain m a l b → x ∈ a :: l → ∃ o, next_is m x o.
Proof.
  revert a. induction l as [|y l IH]; intros a; simpl.
  - intros H Hx. apply list_elem_of_singleton in Hx as ->. eauto.
  - intros [H1 H2] Hx. apply elem_of_cons in Hx as [->|Hx]; eauto.
Qed.

Definition started m (x : positive) : bool :=
  match m !! x with Some (s, _) => negb (bool_decide (status s = NC_STATUS_STARTING)) | None => false end.

Definition running m (x : positive) : bool :=
  match m !! x with Some (s, _) => bool_decide (status s = NC_STATUS_RUNNING) | None => false end.

Lemma other_active_spec fuel m p c l :
  chain m c l p → p ∉ c :: l → (S (length l) < fuel)%nat →
  other_active fuel m p c = Done (existsb (started m) (c :: l)).
Proof.
  revert c fuel. induction l as [|x l IH]; intros c [|fuel] Hch Hp Hf; try (simpl in Hf; lia); cbn [other_active].
  - rewrite decide_False by (intros ->; apply Hp; by left).
    pose proof Hch as (s & w & cc & E & Et). cbn [existsb]. unfold started. rewrite E.
    destruct (negb _); [done|]. rewrite (ssh_next_is _ _ _ Hch). simpl.
    destruct fuel as [|fuel]; [simpl in Hf; lia|]. cbn [other_active]. by rewrite decide_True.
  - rewrite decide_False by (intros ->; apply Hp; by left). destruct Hch as [Hn Hch].
    pose proof Hn as (s & w & cc & E & Et). cbn [existsb]. unfold started at 1. rewrite E.
    destruct (negb _); [done|]. rewrite (ssh_next_is _ _ _ Hn). cbn [orb]. apply IH; [done| |simpl in Hf; lia].
    intros H. apply Hp. by right.
Qed.

Lemma find_pred_spec fuel m p c l z :
  chain m c l p → p ∉ c :: l → list.last (c :: l) = Some z → (length l < fuel)%nat →
  find_pred fuel m p c = Done z.
Proof.
  revert c fuel. induction l as [|x l IH]; intros c [|fuel] Hch Hp Hz Hf; try (simpl in Hf; lia); cbn [find_pred].
  - injection Hz as ->. by rewrite (ssh_next_is _ _ _ Hch), decide_True.
  - destruct Hch as [Hn Hch]. rewrite (ssh_next_is _ _ _ Hn). rewrite decide_False.
    + apply IH; [done| |done|simpl in Hf; lia]. intros H. apply Hp. by right.
    + intros ->. apply Hp. right. by left.
Qed.

Lemma upd_next_lookup_ne m a o x : x ≠ a → upd_next a o m !! x = m !! x.
Proof. intros N. unfold upd_next. by rewrite lookup_alter_ne. Qed.

Lemma upd_next_is m a o o' : next_is m a o' → next_is (upd_next a o m) a o.
Proof.
  intros (s & w & c & E & Et). unfold upd_next. exists (set_next o s), w, c.
  rewrite lookup_alter_eq, E. split; [done|]. unfold set_next. by rewrite Et.
Qed.

Lemma upd_next_started m a o x : started (upd_next a o m) x = started m x ∧ running (upd_next a o m) x = running m x.
Proof.
  unfold started, running. destruct (decide (x = a)) as [->|N].
  - unfold upd_next. rewrite lookup_alter_eq. destruct (m !! a) as [[s w]|]; [|done]. simpl.
    unfold set_next. by destruct (ti s).
  - by rewrite upd_next_lookup_ne.
Qed.

(** Freeing all the others. *)
Lemma free_starting_spec fuel m p x l :
  ring m p (x :: l) → (length l < fuel)%nat →
  ∃ m', free_starting fuel m p = Done m' ∧ (∀ q, q ∈ x :: l → m' !! q = None) ∧
    (∀ q, q ∉ p :: x :: l → m' !! q = m !! q) ∧ next_is m' p (Some p).
Proof.
  revert x m fuel. induction l as [|y l IH]; intros x m [|fuel] [Hch Hnd] Hf; try (simpl in Hf; lia); cbn [free_starting].
  - destruct Hch as [Hp Hx]. simpl in Hx. rewrite (ssh_next_is _ _ _ Hp), (ssh_next_is _ _ _ Hx), decide_True by done.
    apply list.NoDup_cons in Hnd as [Hne _].
    assert (p ≠ x) by (intros ->; apply Hne; by left).
    eexists. split; [done|]. split; [|split].
    + intros q Hq. apply list_elem_of_singleton in Hq as ->. apply lookup_delete_eq.
    + intros q Hq. rewrite !not_elem_of_cons in Hq. destruct Hq as (Q1 & Q2 & _).
      rewrite lookup_delete_ne by done. by apply upd_next_lookup_ne.
    + destruct (upd_next_is m p (Some p) _ Hp) as (s & w & c & E & Et). exists s, w, c.
      by rewrite lookup_delete_ne.
  - destruct Hch as [Hp [Hx Hch]]. rewrite (ssh_next_is _ _ _ Hp), (ssh_next_is _ _ _ Hx).
    pose proof Hnd as Hnd'. apply list.NoDup_cons in Hnd' as [Hne Hnd2]. apply list.NoDup_cons in Hnd2 as [Hxe Hnd3].
    rewrite !not_elem_of_cons in Hne. destruct Hne as (N1 & N2 & N3). rewrite not_elem_of_cons in Hxe. destruct Hxe as [N4 N5].
    rewrite decide_False by congruence.
    destruct (IH y (delete x (upd_next p (Some y) m)) fuel) as (m' & E & H1 & H2 & H3); [|simpl in Hf; lia|].
    { split.
      - split.
        + destruct (upd_next_is m p (Some y) _ Hp) as (s & w & c & E & Et). exists s, w, c.
          by rewrite lookup_delete_ne.
        + eapply chain_frame; [|exact Hch]. intros z Hz. rewrite lookup_delete_ne.
          * apply upd_next_lookup_ne. intros ->. apply elem_of_cons in Hz as [?|?]; done.
          * intros <-. apply elem_of_cons in Hz as [?|?]; done.
      - apply list.NoDup_cons. rewrite not_elem_of_cons. auto. }
    exists m'. split; [done|]. split; [|split; [|done]].
    + intros q Hq. destruct (decide (q ∈ y :: l)) as [Hin|Hout]; [by apply H1|].
      apply elem_of_cons in Hq as [->|Hq]; [|done].
      rewrite H2; [apply lookup_delete_eq|]. rewrite not_elem_of_cons. auto.
    + intros q Hq. rewrite !not_elem_of_cons in Hq. destruct Hq as (Q1 & Q2 & Q3 & Q4).
      rewrite H2 by (rewrite !not_elem_of_cons; auto). rewrite lookup_delete_ne by done.
      by apply upd_next_lookup_ne.
Qed.

(** Looking for a running session among the remaining ones. *)
Lemma pick_running_spec fuel m p c l b :
  chain m c l b → p ∉ c :: l → b ≠ p → existsb (running m) (c :: l) = true → (length l < fuel)%nat →
  ∃ r, pick_running fuel m p (Some c) = Done (Some r) ∧ r ∈ c :: l ∧ running m r = true.
Proof.
  revert c fuel. induction l as [|x l IH]; intros c [|fuel] Hch Hp Hb Hrun Hf; try (simpl in Hf; lia);
    cbn [pick_running]; cbn [existsb] in Hrun.
  - pose proof Hch as (s & w & cc & E & Et). unfold running in Hrun. rewrite E in *.
    rewrite orb_false_r in Hrun. rewrite Hrun. exists c. split; [done|]. split; [by left|].
    unfold running. by rewrite E.
  - destruct Hch as [Hn Hch]. pose proof Hn as (s & w & cc & E & Et). unfold running at 1 in Hrun. rewrite E in *.
    destruct (bool_decide (status s = NC_STATUS_RUNNING)) eqn:Es.
    + exists c. split; [done|]. split; [by left|]. unfold running. by rewrite E.
    + rewrite (ssh_next_is _ _ _ Hn). rewrite decide_False by (intros [= ->]; apply Hp; right; by left).
      destruct (IH x fuel) as (r & Er & Hr & Hr2); [done| |done|done|simpl in Hf; lia|].
      { intros H. apply Hp. by right. }
      exists r. split; [done|]. split; [by right|done].
Qed.

(** What is left when [p] has left: a single session, or a ring. *)
Definition rest_ring m l : Prop :=
  match l with
  | [] => True
  | [x] => next_is m x None
  | x :: l => ring m x l
  end.

(** Sessions that are the same but for flags and links. *)
Definition same_status m m' (x : positive) : Prop :=
  started m' x = started m x ∧ running m' x = running m x.

Lemma unlink_spec m p n l z :
  ring m p (n :: l) → list.last (n :: l) = Some z →
  let m1 := upd_next z (if decide (n = z) then None else Some n) m in
  rest_ring m1 (n :: l) ∧ (∀ q, q ∉ n :: l → m1 !! q = m !! q) ∧ (∀ q, same_status m m1 q).
Proof.
  intros [[Hp Hch] Hnd] Hz m1. apply list.NoDup_cons in Hnd as [Hpn Hnd].
  apply last_Some in Hz as [l0 El].
  assert (Hzin : z ∈ n :: l) by (rewrite El; apply elem_of_app; right; by left).
  split; [|split].
  - destruct l0 as [|n' l0]; simpl in El; injection El as <- ->.
    + simpl. unfold m1. rewrite decide_True by done. by eapply upd_next_is.
    + apply list.NoDup_cons in Hnd as [Hn Hnd].
      assert (N : n ≠ z) by (intros ->; apply Hn, elem_of_app; right; by left).
      unfold m1. rewrite decide_False by done. apply chain_snoc in Hch as [Hch Hlast].
      assert (Hring : ring (upd_next z (Some n) m) n (l0 ++ [z])).
      { split; [|by apply list.NoDup_cons]. apply chain_snoc. split; [|by eapply upd_next_is].
        eapply chain_frame; [|exact Hch]. intros x Hx. apply upd_next_lookup_ne. intros ->.
        apply elem_of_cons in Hx as [->|Hx]; [done|]. apply list.NoDup_app in Hnd as (_ & Hd & _).
        apply (Hd z Hx). by left. }
      destruct l0; exact Hring.
  - intros q Hq. apply upd_next_lookup_ne. by intros ->.
  - intros q. apply upd_next_started.
Qed.

Definition has_cb m (x : positive) : bool :=
  match m !! x with Some (s, _) => negb (Z.land (flags s) NC_SESSION_SSH_MSG_CB =? 0) | None => false end.

Definition give_cb (c : positive) m : gmap positive (nc_session * W) :=
  alter (λ sw, (set_flags (Z.lor (flags sw.1) NC_SESSION_SSH_MSG_CB) sw.1, sw.2)) c m.

Lemma give_cb_next c m a o : next_is m a o → next_is (give_cb c m) a o.
Proof.
  intros (s & w & cc & E & Et). unfold next_is, give_cb. destruct (decide (a = c)) as [->|N].
  - rewrite lookup_alter_eq, E. by eexists _, w, cc.
  - rewrite lookup_alter_ne by done. eauto.
Qed.

Lemma give_cb_status c m x : same_status m (give_cb c m) x.
Proof.
  unfold same_status, started, running, give_cb. destruct (decide (x = c)) as [->|N].
  - rewrite lookup_alter_eq. by destruct (m !! c) as [[s w]|].
  - by rewrite lookup_alter_ne.
Qed.

Lemma give_cb_has c m : running m c = true → has_cb (give_cb c m) c = true.
Proof.
  unfold running, has_cb, give_cb. rewrite lookup_alter_eq. destruct (m !! c) as [[s w]|]; [|done]. intros _.
  cbn. rewrite Z.land_lor_distr_l. change (Z.land NC_SESSION_SSH_MSG_CB NC_SESSION_SSH_MSG_CB) with NC_SESSION_SSH_MSG_CB.
  apply negb_true_iff, Z.eqb_neq. intros E. apply Z.lor_eq_0_iff in E as [_ E]. discriminate E.
Qed.

Lemma give_cb_rest c m l : rest_ring m l → rest_ring (give_cb c m) l.
Proof.
  assert (Hch : ∀ l a b, chain m a l b → chain (give_cb c m) a l b).
  { clear l. induction l as [|x l IH]; intros a b; simpl; [apply give_cb_next|].
    intros [H1 H2]. split; [by apply give_cb_next|by apply IH]. }
  destruct l as [|x [|y l]]; [done|apply give_cb_next|]. intros [H1 H2]. split; [|done]. by apply Hch.
Qed.

Lemma same_existsb m m' l :
  (∀ q, same_status m m' q) → existsb (running m') l = existsb (running m) l.
Proof. intros H. induction l as [|x l IH]; simpl; [done|]. by rewrite (proj2 (H x)), IH. Qed.

(** What leaving the ring guarantees. *)
Definition left_ring m (p : positive) l m' : Prop :=
  rest_ring m' l ∧ (∀ q, q ∉ l → m' !! q = m !! q) ∧ (∀ q, same_status m m' q) ∧
  (has_cb m p = true → existsb (running m) l = true → ∃ r, r ∈ l ∧ running m' r = true ∧ has_cb m' r = true).

Lemma leave_ring_spec fuel m p n l :
  ring m p (n :: l) → (S (length l) < fuel)%nat →
  has_cb m p = false ∨ l = [] ∨ existsb (running m) (n :: l) = true →
  ∃ m', leave_ring fuel m p n = Done m' ∧ left_ring m p (n :: l) m'.
Proof.
  intros Hr Hf Hcb. destruct (list.last (n :: l)) as [z|] eqn:Ez; [|by apply list.last_None in Ez].
  pose proof (unlink_spec m p n l z Hr Ez) as (H1 & H2 & H3). destruct Hr as [[Hp Hch] Hnd].
  apply list.NoDup_cons in Hnd as [Hpn Hnd].
  unfold leave_ring. rewrite (find_pred_spec fuel m p n l z) by (done || lia). cbn [obind].
  set (m1 := upd_next z _ m) in *. rewrite H2 by done. destruct Hp as (s & w & c & Es & Et). rewrite Es.
  unfold has_cb in Hcb. rewrite Es in Hcb.
  assert (Hplain : existsb (running m) (n :: l) = false ∨ negb (Z.land (flags s) NC_SESSION_SSH_MSG_CB =? 0) = false →
    left_ring m p (n :: l) m1).
  { intros Hx. split; [done|]. split; [done|]. split; [done|]. unfold has_cb. rewrite Es.
    intros Ha Hb. destruct Hx; congruence. }
  destruct (Z.land (flags s) _ =? 0) eqn:Ef; [exists m1; split; [done|apply Hplain; by right]|].
  destruct (existsb (running m) (n :: l)) eqn:Erun.
  - assert (Hpick : ∃ r, pick_running fuel m1 p (Some n) = Done (Some r) ∧ r ∈ n :: l ∧ running m1 r = true).
    { destruct l as [|y l].
      - destruct fuel as [|fuel]; [lia|]. cbn [pick_running]. destruct H1 as (s1 & w1 & c1 & E1 & Et1). rewrite E1.
        rewrite <- (same_existsb m m1) in Erun by done. cbn [existsb] in Erun. rewrite orb_false_r in Erun.
        exists n. split; [|split; [by left|done]]. unfold running in Erun. rewrite E1 in Erun. by rewrite Erun.
      - destruct H1 as [Hch1 _]. eapply pick_running_spec; [exact Hch1|done| | |simpl in *; lia].
        + intros ->. apply Hpn. by left.
        + by rewrite (same_existsb m m1). }
    destruct Hpick as (r & -> & Hr & Hrr). cbn [obind]. eexists. split; [done|].
    change (left_ring m p (n :: l) (give_cb r m1)). split; [by apply give_cb_rest|]. split; [|split].
    + intros q Hq. unfold give_cb. assert (r ≠ q) by (intros E; subst; done).
      rewrite lookup_alter_ne by done. by apply H2.
    + intros q. destruct (give_cb_status r m1 q), (H3 q). split; congruence.
    + intros _ _. exists r. split; [done|]. split; [|by apply give_cb_has].
      by rewrite (proj2 (give_cb_status r m1 r)).
  - destruct Hcb as [Hcb|[->|Hcb]]; [done| |done].
    assert (Hpick : pick_running fuel m1 p (Some n) = Done None).
    { destruct fuel as [|[|fuel]]; [lia..|]. cbn [pick_running]. destruct H1 as (s1 & w1 & c1 & E1 & Et1).
      rewrite E1. rewrite <- (same_existsb m m1) in Erun by done. cbn [existsb] in Erun. rewrite orb_false_r in Erun.
      unfold running in Erun. rewrite E1 in Erun. rewrite Erun. rewrite (ssh_next_is _ _ None); [done|].
      by exists s1, w1, c1. }
    rewrite Hpick. cbn [obind]. exists m1. split; [done|]. apply Hplain. by left.
Qed.

(** C30: When a NETCONF session ends whose SSH session carries others, the ring of
    the others stays a ring: if one of them has started, the session is taken out,
    the links of the remaining sessions lead around them again (or nowhere if only
    one is left), the SSH session is kept, and the message callback of the session
    goes to a running one if there is one; otherwise all of them are freed.  No
    other session changes, and nothing freed is used.  (If the session had the
    message callback, one of the remaining ones must be running or it must be the
    only one.) *)
Theorem free_keeps_ring fuel m p n l :
  ring m p (n :: l) → (S (S (length l)) < fuel)%nat →
  has_cb m p = false ∨ l = [] ∨ existsb (running m) (n :: l) = true →
  ∃ m', release_ssh fuel m p = Done (existsb (started m) (n :: l), m') ∧
    (∀ q, q ∉ p :: n :: l → m' !! q = m !! q) ∧
    if existsb (started m) (n :: l) then left_ring m p (n :: l) m'
    else ∀ q, q ∈ n :: l → m' !! q = None.
Proof.
  intros Hr Hf Hcb. pose proof Hr as [[Hp Hch] Hnd]. apply list.NoDup_cons in Hnd as [Hpn Hnd].
  unfold release_ssh. rewrite (ssh_next_is _ _ _ Hp). cbn [obind].
  rewrite (other_active_spec fuel m p n l) by (done || lia). cbn [obind].
  destruct (existsb (started m) (n :: l)).
  - destruct (leave_ring_spec fuel m p n l) as (m' & -> & H); [done|lia|done|]. exists m'. split; [done|].
    split; [|done]. intros q Hq. rewrite not_elem_of_cons in Hq. destruct Hq as [_ Hq].
    destruct H as (_ & H2 & _). by apply H2.
  - destruct (free_starting_spec fuel m p n l) as (m' & -> & H1 & H2 & _); [done|lia|]. exists m'. done.
Qed.
End ring.

(** ** Examples *)

(** Three NETCONF sessions of one SSH session, at 1, 2 and 3. *)
Definition ssh3 (st : NC_STATUS) (fl : Z) : gmap positive (nc_session * unit) :=
  let s next fl := (set_flags fl (set_status st (set_next (Some next)
    (Session NC_STATUS_RUNNING NC_SESSION_TERM_NONE 0 NC_SERVER 1 NC_VERSION_11 (TiLibssh true None) (Some false)
       None None 0 None 0 (ClientOpts 0 None [] false 0 0) (ServerOpts 0 0 0 false 0)))), tt) in
  <[1%positive := s 2%positive fl]> (<[2%positive := s 3%positive 0]> (<[3%positive := s 1%positive 0]> ∅)).

Lemma free_keeps_ring_witness :
  ∃ m', release_ssh 10 (ssh3 NC_STATUS_RUNNING NC_SESSION_SSH_MSG_CB) 1 = Done (true, m') ∧
    ring m' 2 [3%positive] ∧ has_cb m' 2 = true.
Proof.
  destruct (free_keeps_ring 10 (ssh3 NC_STATUS_RUNNING NC_SESSION_SSH_MSG_CB) 1 2 [3%positive]) as (m' & E & _ & H).
  - split.
    + split; [|split]; eexists _, _, _; split; reflexivity.
    + apply (bool_decide_unpack (NoDup _)). vm_compute. exact I.
  - simpl. lia.
  - right. right. reflexivity.
  - destruct H as (Hr & _). exists m'. split; [exact E|]. split; [exact Hr|].
    vm_compute in E. injection E as <-. reflexivity.
Defined.

Lemma pick_running_hangs fuel m a b :
  match m !! a with Some (s, _) => status s ≠ NC_STATUS_RUNNING | None => False end →
  match m !! b with Some (s, _) => status s ≠ NC_STATUS_RUNNING | None => False end →
  next_is (W:=unit) m a (Some b) → next_is m b (Some a) → a ≠ 1%positive → b ≠ 1%positive →
  pick_running fuel m 1 (Some a) = NoFuel.
Proof.
  revert a b. induction fuel as [|fuel IH]; intros a b Ha Hb Hab Hba N1 N2; [done|]. cbn [pick_running].
  destruct (m !! a) as [[s w]|] eqn:E; [|done]. rewrite bool_decide_false by done.
  rewrite (ssh_next_is _ _ _ Hab), decide_False by congruence. apply (IH b a); [done|by rewrite E|done..].
Qed.

(** When the connection of an SSH session with three NETCONF sessions is lost,
    so that all of them are invalid, freeing the one that has the message callback
    does not end: the search for a running session looks for the session being
    freed as the end of the ring, but that one was taken out of the ring before. *)
Theorem free_hangs fuel : release_ssh fuel (ssh3 NC_STATUS_INVALID NC_SESSION_SSH_MSG_CB) 1 = NoFuel.
Proof.
  destruct fuel as [|[|fuel]]; [reflexivity..|]. unfold release_ssh.
  change (ssh_next (ssh3 NC_STATUS_INVALID NC_SESSION_SSH_MSG_CB) 1) with (@Done (option positive) (Some 2%positive)).
  cbn [obind]. change (other_active (S (S fuel)) (ssh3 NC_STATUS_INVALID NC_SESSION_SSH_MSG_CB) 1 2) with (Done true).
  cbn [obind]. unfold leave_ring. rewrite (find_pred_spec (S (S fuel)) _ 1 2 [3%positive] 3%positive).
  - cbn [obind]. rewrite decide_False by done. set (m1 := upd_next _ _ _).
    assert (E1 : ∃ s, m1 !! 1%positive = Some (s, tt) ∧ (Z.land (flags s) NC_SESSION_SSH_MSG_CB =? 0) = false).
    { eexists. split; reflexivity. }
    destruct E1 as (s & -> & ->). rewrite (pick_running_hangs (S (S fuel)) m1 2 3);
      [reflexivity|vm_compute; discriminate|vm_compute; discriminate| | |discriminate|discriminate].
    + eexists _, _, _. split; reflexivity.
    + eexists _, _, _. split; reflexivity.
  - split; eexists _, _, _; split; reflexivity.
  - apply (bool_decide_unpack (1%positive ∉ _)). by vm_compute.
  - done.
  - simpl. lia.
Qed.
