(* ===== verification/PollClear.v ===== *)
(** * Clearing a pollsession

    [nc_ps_clear] without [all] frees exactly the sessions that are not running any
    more and keeps the entries of the others. *)

From S2P Require Import Prelude Session Env Time Locks Sim IoRead IoReadProofs.
From S2P Require Import Framing IoWrite IoWriteProofs IoWriteSafe IoTheorems.
From S2P Require Import Capabilities CapabilitiesProofs PsQueue PollSession PollProofs PollSafe PollServe.
From S2P Require Import SessionFree.
From Stdlib Require Import ZArith Ascii String Lia.
From stdpp Require Import base list strings gmap numbers.
Open Scope Z_scope.

Lemma elem_of_take_in {A} (x : A) n l : x ∈ take n l → x ∈ l.
Proof. intros H. rewrite <- (take_drop n l). apply elem_of_app. by left. Qed.

Section clear.
Context {W node envelope : Type} `{RL : Reliable W} `{!Printer node envelope}.
Context (close_rpc : W → option node * W).
Implicit Types (s : nc_session) (w : W) (x : ps_world W).

(** A server session with a transport of its own that nobody works with. *)
Record plain s : Prop := Plain {
  pl_side : side s = NC_SERVER;
  pl_ti : match ti s with TiLibssh _ _ => False | _ => True end;
  pl_closing : status s ≠ NC_STATUS_CLOSING;
  pl_rpc : rpc_inuse (server s) = false;
  pl_ch : Z.land (flags s) NC_SESSION_CH_THREAD = 0;
}.

Lemma connected_any F fuel s w :
  (0 < fuel)%nat → match ti s with TiLibssh _ _ => False | _ => True end →
  wpx F (nc_session_is_connected fuel) (λ _ sw, sw.1 = s) (s, w).
Proof.
  intros Hf Ht. unfold nc_session_is_connected. apply wpx_bind, wpx_ses.
  assert (Hp : ∀ fd w, wpx F (poll_retry fuel fd) (λ _ sw, sw.1 = s) (s, w)).
  { intros fd w0. eapply wpx_mono; [by apply poll_retry_ok|]. by intros ? ? (_ & ? & _). }
  destruct (ti s) as [|fd o|fd|c n|]; [by apply wpx_ret|..|].
  - destruct (fd =? -1); [by apply wpx_ret|apply Hp].
  - destruct (fd =? -1); [by apply wpx_ret|apply Hp].
  - done.
  - apply wpx_bind, wpx_envcall. destruct (_ =? -1); [by apply wpx_ret|apply Hp].
Qed.

Lemma rpc_lock_free F fuel s w :
  (0 < fuel)%nat → side s = NC_SERVER → rpc_inuse (server s) = false →
  wpx F (nc_session_rpc_lock fuel NC_SESSION_FREE_LOCK_TIMEOUT)
    (λ r sw, r = 1 ∧ sw.1 = set_rpc_inuse true s) (s, w).
Proof.
  intros Hf Hside Hu. unfold nc_session_rpc_lock. apply wpx_bind, wpx_ses. rewrite bool_decide_true by done. cbn [negb].
  apply wpx_bind, wpx_real_add; [done|]. intros ts w1 _. apply wpx_bind, wpx_envcall. rewrite rel_timedlock.
  cbn [Z.eqb]. apply wpx_bind. destruct fuel as [|fuel]; [lia|]. cbn [rpc_wait]. apply wpx_bind, wpx_ses.
  rewrite Hu. cbn [negb]. apply wpx_ret. cbn [negb Z.eqb]. apply wpx_bind, wpx_ses, wpx_bind, wpx_guarded; [by rewrite Hu|].
  apply wpx_bind, wpx_upd_ses, wpx_bind, wpx_envcall. rewrite unlock_ok. by apply wpx_ret.
Qed.

(** The session of an ended connection before its memory is freed. *)
Definition closing s : nc_session := set_status NC_STATUS_CLOSING (set_rpc_inuse true s).

Lemma free_callhome_ok F fuel s w :
  Z.land (flags s) NC_SESSION_CH_THREAD = 0 →
  wpx F (free_callhome fuel) (λ _ sw, sw.1 = set_status NC_STATUS_CLOSING s) (s, w).
Proof.
  intros Hch. unfold free_callhome. apply wpx_bind, wpx_ses. rewrite Hch, andb_false_r.
  apply wpx_bind, wpx_mono with (Q := λ _ sw, sw.1 = s).
  { destruct (_ && _); [|by apply wpx_ret]. by apply wpx_bind, wpx_envcall, wpx_ret. }
  intros u [s1 w1] Es. cbn [fst] in Es. subst s1. apply wpx_bind, wpx_upd_ses, wpx_bind, wpx_ret.
  destruct (_ && _); [|by apply wpx_ret]. by apply wpx_bind, wpx_envcall, wpx_ret.
Qed.

Lemma free_transport_plain F fuel p ps m s w g (Q : bool → ps_world W → Prop) :
  (0 < fuel)%nat → match ti s with TiLibssh _ _ => False | _ => True end →
  (∀ w', Q false (at_session ps m p s w' g)) →
  wpx F (nc_session_free_transport fuel p) Q (at_session ps m p s w g).
Proof.
  intros Hf Ht HQ. unfold nc_session_free_transport. apply wpx_bind, wpx_at.
  eapply wpx_mono; [by apply connected_any|]. intros b [s1 w1] Es. cbn [fst snd] in *. subst s1.
  apply wpx_bind, wpx_at_ses. destruct (ti s); try done; by apply wpx_ret, HQ.
Qed.

Lemma session_free_plain F fuel p ps m s w g :
  (0 < fuel)%nat → plain s →
  wpx F (nc_session_free (envelope:=envelope) close_rpc fuel p)
    (λ _ x', x' = PsWorld ps (delete p m) g) (at_session ps m p s w g).
Proof.
  intros Hf [Hside Hti Hcl Hrpc Hch]. unfold nc_session_free. apply wpx_bind, wpx_at_ses.
  rewrite bool_decide_false by done. apply wpx_bind, wpx_at. unfold stop_threads. apply wpx_bind, wpx_ses.
  rewrite bool_decide_false by (rewrite Hside; discriminate). cbn [andb]. apply wpx_ret. cbn [fst snd].
  rewrite bool_decide_true by done. apply wpx_bind, wpx_at.
  eapply wpx_mono; [by apply rpc_lock_free|]. intros r [s1 w1] (-> & Es). cbn [fst snd] in *. subst s1.
  change (1 =? -1) with false. cbv iota. apply wpx_bind, wpx_ret. cbn [negb].
  apply wpx_bind, wpx_at. eapply wpx_mono; [by apply free_callhome_ok|].
  intros u [s2 w2] Es. cbn [fst snd] in *. subst s2.
  apply wpx_bind, free_transport_plain; [done|done|]. intros w3. cbn [andb Z.eqb Pos.eqb].
  apply wpx_bind, wpx_bind, wpx_at. eapply wpx_mono; [by apply rpc_unlock_ready|].
  intros r2 [s4 w4] _. cbn [fst snd]. apply wpx_ret. unfold free_memory, wpx, at_session. cbn [pw_ps pw_store pw_glob].
  by rewrite delete_insert_eq.
Qed.

(** The session of an entry is running. *)
Definition runs (m : gmap positive (nc_session * W)) (e : nc_ps_session) : bool :=
  match m !! pe_session e with Some (s, _) => bool_decide (status s = NC_STATUS_RUNNING) | None => false end.

(** Entries of different sessions that can be freed. *)
Definition clearable (ps : nc_pollsession) (m : gmap positive (nc_session * W)) : Prop :=
  zlen (entries ps) = session_count ps ∧ 0 ≤ session_count ps < 2 ^ 16 ∧
  NoDup (map pe_session (entries ps)) ∧
  ∀ e, e ∈ entries ps → ∃ s w, m !! pe_session e = Some (s, w) ∧ plain s.

(** What clearing leaves of the store. *)
Definition reaped (l : list nc_ps_session) (m m' : gmap positive (nc_session * W)) : Prop :=
  ∀ p, m' !! p = if decide (p ∈ map pe_session (filter (λ e, runs m e = false) l)) then None else m !! p.

Lemma runs_delete m p e : pe_session e ≠ p → runs (delete p m) e = runs m e.
Proof. intros N. unfold runs. by rewrite lookup_delete_ne. Qed.

Lemma filter_runs_delete (b : bool) m p l :
  p ∉ map pe_session l → filter (λ e, runs (delete p m) e = b) l = filter (λ e, runs m e = b) l.
Proof.
  induction l as [|e l IH]; cbn [map]; [done|]. rewrite not_elem_of_cons. intros [N Hl].
  rewrite !filter_cons, runs_delete by done. rewrite IH by done. done.
Qed.

Lemma clear_step ps ps' m e :
  clearable ps m → runs m e = false → e ∈ entries ps →
  e :: entries ps' ≡ₚ entries ps → zlen (entries ps') = session_count ps' →
  session_count ps' = session_count ps - 1 →
  clearable ps' (delete (pe_session e) m) ∧ pe_session e ∉ map pe_session (entries ps').
Proof.
  intros (Hl & Hc & Hnd & Hs) Hrun He Hperm Hl' Hc'.
  assert (Hnd' : NoDup (pe_session e :: map pe_session (entries ps'))).
  { change (NoDup (map pe_session (e :: entries ps'))). by rewrite Hperm. }
  apply list.NoDup_cons in Hnd' as [Hne Hnd']. split; [|done]. split; [done|].
  split; [pose proof (zlen_nonneg (entries ps')); lia|]. split; [done|]. intros e' He'.
  destruct (Hs e') as (s & w & E & Hp); [rewrite <- Hperm; by right|]. exists s, w. split; [|done].
  rewrite lookup_delete_ne; [done|]. intros Eq. apply Hne. rewrite Eq. by apply list_elem_of_fmap_2.
Qed.

Lemma reaped_step l l' m m' e :
  runs m e = false → e :: l' ≡ₚ l → pe_session e ∉ map pe_session l' →
  reaped l' (delete (pe_session e) m) m' → reaped l m m'.
Proof.
  intros Hrun Hperm Hne Hr p. rewrite Hr, filter_runs_delete by done.
  assert (Hin : p ∈ map pe_session (filter (λ e, runs m e = false) l) ↔
    p = pe_session e ∨ p ∈ map pe_session (filter (λ e, runs m e = false) l')).
  { rewrite <- Hperm, filter_cons_True by done. cbn [map]. apply elem_of_cons. }
  destruct (decide (p ∈ map pe_session (filter _ l'))) as [H1|H1].
  - rewrite decide_True; [done|]. apply Hin. by right.
  - destruct (decide (p = pe_session e)) as [->|N].
    + rewrite lookup_delete_eq, decide_True; [done|]. apply Hin. by left.
    + rewrite lookup_delete_ne by done. rewrite decide_False; [done|]. rewrite Hin. tauto.
Qed.

Lemma clear_invalid_ok F fuel n i x :
  (0 < fuel)%nat → clearable (pw_ps x) (pw_store x) →
  (i + n = length (entries (pw_ps x)))%nat → Forall (λ e, runs (pw_store x) e = true) (take i (entries (pw_ps x))) →
  wpx F (clear_invalid n (Z.of_nat i) (nc_session_free (envelope:=envelope) close_rpc fuel))
    (λ _ x', zlen (entries (pw_ps x')) = session_count (pw_ps x') ∧ 0 ≤ session_count (pw_ps x') < 2 ^ 16 ∧
       ps_ring (pw_ps x') = ps_ring (pw_ps x) ∧
       entries (pw_ps x') ≡ₚ filter (λ e, runs (pw_store x) e = true) (entries (pw_ps x)) ∧
       reaped (entries (pw_ps x)) (pw_store x) (pw_store x')) x.
Proof.
  intros Hf. revert i x. induction n as [|n IH]; intros i x Hcl Hn Hpre; cbn [clear_invalid].
  - apply wpx_ret. destruct Hcl as (Hl & Hc & _). rewrite take_ge in Hpre by lia.
    assert (Hall : filter (λ e, runs (pw_store x) e = true) (entries (pw_ps x)) = entries (pw_ps x)).
    { clear -Hpre. induction Hpre as [|e l He _ IH]; [done|]. by rewrite filter_cons_True, IH. }
    assert (Hnone : filter (λ e, runs (pw_store x) e = false) (entries (pw_ps x)) = []).
    { clear -Hpre. induction Hpre as [|e l He _ IH]; [done|]. rewrite filter_cons_False; [done|congruence]. }
    split; [done|]. split; [done|]. split; [done|]. rewrite Hall. split; [done|].
    intros p. rewrite Hnone. done.
  - apply wpx_bind, wpx_ps_get. pose proof Hcl as (Hl & Hc & Hnd & Hs). unfold zlen in Hl.
    rewrite (proj2 (Z.ltb_lt _ _)) by lia.
    destruct (lookup_lt_is_Some_2 (entries (pw_ps x)) i) as [e He]; [lia|].
    destruct (Hs e) as (s & w & E & Hp); [by eapply list_elem_of_lookup_2|].
    apply wpx_bind. eapply wpx_ps_entry; [exact He|]. apply wpx_bind. eapply wpx_session_read; [exact E|].
    destruct (bool_decide (status s = NC_STATUS_RUNNING)) eqn:Er; cbn [negb].
    + replace (Z.of_nat i + 1) with (Z.of_nat (S i)) by lia. apply IH; [done|lia|].
      rewrite (take_S_r _ _ _ He), Forall_app. split; [done|]. constructor; [|constructor].
      unfold runs. by rewrite E.
    + assert (Hrun : runs (pw_store x) e = false) by (unfold runs; by rewrite E).
      apply wpx_bind. unfold _nc_ps_del_index. apply wpx_bind, wpx_ps_get.
      destruct (ps_remove_at_ok (pw_ps x) i e) as (ps' & -> & Hperm & Hl' & Hc' & _ & Hring & Htake); [done|done|done|].
      apply wpx_bind, wpx_ps_upd, wpx_ret, wpx_bind.
      destruct (clear_step (pw_ps x) ps' (pw_store x) e) as [Hcl' Hne]; try done.
      { by eapply list_elem_of_lookup_2. }
      assert (Ex : PsWorld ps' (pw_store x) (pw_glob x) = at_session ps' (pw_store x) (pe_session e) s w (pw_glob x)).
      { unfold at_session. by rewrite insert_id. }
      rewrite Ex. eapply wpx_mono; [by apply session_free_plain|]. intros u x1 ->.
      assert (Hlen : length (entries (pw_ps x)) = S (length (entries ps'))) by (by rewrite <- Hperm).
      eapply wpx_mono; [apply (IH i (PsWorld ps' (delete (pe_session e) (pw_store x)) (pw_glob x)))|];
        cbn [pw_ps pw_store].
      * done.
      * lia.
      * fold (entries ps') (entries (pw_ps x)) in Htake. rewrite Htake.
        rewrite list.Forall_forall in *. intros e' He'. rewrite runs_delete; [by apply Hpre|].
        intros Eq. apply Hne. rewrite <- Eq. apply list_elem_of_fmap_2. rewrite <- Htake in He'.
        by eapply elem_of_take_in.
      * intros u2 x2 (A1 & A2 & A3 & A4 & A5). split; [done|]. split; [done|]. split; [congruence|]. split.
        -- rewrite A4, filter_runs_delete by done. fold (entries ps') (entries (pw_ps x)) in Hperm. rewrite <- Hperm.
           by rewrite filter_cons_False by congruence.
        -- by eapply reaped_step.
Qed.

Lemma ps_clear_ok F fuel x :
  (0 < fuel)%nat → empty_ring (ps_ring (pw_ps x)) → clearable (pw_ps x) (pw_store x) →
  wpx F (nc_ps_clear fuel false (nc_session_free (envelope:=envelope) close_rpc fuel))
    (λ _ x', ps_wellformed (pw_ps x') ∧
       entries (pw_ps x') ≡ₚ filter (λ e, runs (pw_store x) e = true) (entries (pw_ps x)) ∧
       reaped (entries (pw_ps x)) (pw_store x) (pw_store x')) x.
Proof.
  intros Hf Hr Hcl. unfold nc_ps_clear. apply wpx_bind. eapply wpx_mono; [by apply nc_ps_lock_ok|].
  intros ? x1 (-> & (Es & Ec & _ & Hw & Hq) & Est). cbn [negb Z.eqb].
  assert (Ee : entries (pw_ps x1) = entries (pw_ps x)) by (unfold entries; by rewrite Es).
  apply wpx_bind, wpx_ps_get, wpx_bind. rewrite <- Ee, <- Est.
  pose proof Hcl as (Hl & Hc & _). unfold zlen in Hl.
  eapply wpx_mono; [apply (clear_invalid_ok F fuel _ 0 x1 Hf)|].
  - unfold clearable. rewrite Ee, Ec, Est. exact Hcl.
  - rewrite Ee, Ec. lia.
  - constructor.
  - intros u x2 (H1 & H2 & H3 & H4 & H5). apply wpx_bind.
    eapply wpx_mono; [apply nc_ps_unlock_ok; by rewrite H3|].
    intros r x3 (_ & He & Es3 & Ec3 & _ & Est3). apply wpx_ret.
    assert (Ee3 : entries (pw_ps x3) = entries (pw_ps x2)) by (unfold entries; by rewrite Es3).
    split; [|rewrite Ee3, Est3; done]. split; [|by rewrite Ec3].
    fold (entries (pw_ps x3)). by rewrite Ee3, Ec3.
Qed.

(** [nc_ps_clear] without [all] removes from a pollsession exactly the entries
    of the sessions that are not running and frees exactly these sessions; the
    entries of running sessions stay, each once, their sessions are not touched,
    the pollsession is unlocked and well-formed again, and nothing freed is used.
    (The sessions have their own transports and nobody works with them.) *)
Theorem ps_clear_reaps fuel x :
  (0 < fuel)%nat → empty_ring (ps_ring (pw_ps x)) → clearable (pw_ps x) (pw_store x) →
  ∃ x', nc_ps_clear fuel false (nc_session_free (envelope:=envelope) close_rpc fuel) x = Done (tt, x') ∧
    ps_wellformed (pw_ps x') ∧
    entries (pw_ps x') ≡ₚ filter (λ e, runs (pw_store x) e = true) (entries (pw_ps x)) ∧
    reaped (entries (pw_ps x)) (pw_store x) (pw_store x').
Proof.
  intros Hf Hr Hcl. destruct (proj1 (wp_total _ _ _) (ps_clear_ok False fuel x Hf Hr Hcl)) as ([] & x' & E & H). eauto.
Qed.
End clear.

(** ** Example *)

(** Three sessions, the first and the last of which have ended. *)
Definition demo_ended : ps_world (sim true true) :=
  let s st := (set_status st (demo_session NC_VERSION_11 (TiFd 3 4)), demo_world []) in
  PsWorld (demo_ps [NcPsSession 1 NC_PS_STATE_INVALID; NcPsSession 2 NC_PS_STATE_NONE; NcPsSession 3 NC_PS_STATE_INVALID])
    (<[1%positive := s NC_STATUS_INVALID]> (<[2%positive := s NC_STATUS_RUNNING]> (<[3%positive := s NC_STATUS_INVALID]> ∅)))
    (Sim [] [] 0).

Lemma ps_clear_reaps_witness :
  ∃ x', nc_ps_clear 10 false (nc_session_free (node:=bytes) (envelope:=bytes) (λ w, (None, w)) 10) demo_ended =
      Done (tt, x') ∧
    entries (pw_ps x') ≡ₚ [NcPsSession 2 NC_PS_STATE_NONE] ∧ pw_store x' !! 1%positive = None.
Proof.
  destruct (ps_clear_reaps (node:=bytes) (envelope:=bytes) (λ w, (None, w)) 10 demo_ended) as (x' & E & _ & Hp & Hr).
  - lia.
  - split; [|reflexivity]. unfold ps_queue_wf, NC_PS_QUEUE_SIZE. simpl. lia.
  - split; [reflexivity|]. split; [split; [discriminate|reflexivity]|]. split.
    + apply (bool_decide_unpack (NoDup _)). vm_compute. exact I.
    + intros e He. vm_compute in He.
      assert (Hin : e = NcPsSession 1 NC_PS_STATE_INVALID ∨ e = NcPsSession 2 NC_PS_STATE_NONE ∨
        e = NcPsSession 3 NC_PS_STATE_INVALID).
      { apply elem_of_cons in He as [He|He]; [auto|]. apply elem_of_cons in He as [He|He]; [auto|].
        apply list_elem_of_singleton in He. auto. }
      destruct Hin as [->|[->| ->]]; (eexists _, _; split; [reflexivity|]); split; reflexivity || discriminate || exact I.
  - exists x'. split; [exact E|]. split; [exact Hp|]. rewrite (Hr 1%positive).
    rewrite decide_True; [reflexivity|]. apply (bool_decide_unpack (1%positive ∈ _)). vm_compute. exact I.
Defined.
