(* ===== verification/PtrArray.v ===== *)
(** * Arrays and lists with keys

    Arrays of strings that grow by one element, and arrays whose elements have distinct names or ids, as lists and finite maps. *)

From S2P Require Import Prelude.
From Stdlib Require Import ZArith Ascii String Lia.
From stdpp Require Import base list strings gmap numbers.
Open Scope Z_scope.

(** ** Lists with keys as maps

    Arrays whose elements have distinct names or ids, as finite maps: appending,
    replacing an element, and removing one by moving the last element to its place. *)

Section keyed.
Context {K : Type} `{Countable K} {A : Type} (key : A → K).
Implicit Types (l : list A) (x y : A).

Definition keyed_map l : gmap K A := list_to_map ((λ x, (key x, x)) <$> l).

Definition distinct l : Prop := NoDup (key <$> l).

Lemma keyed_map_lookup l k x : distinct l → keyed_map l !! k = Some x ↔ x ∈ l ∧ key x = k.
Proof.
  intros Hd. unfold keyed_map. rewrite <- elem_of_list_to_map.
  - rewrite list_elem_of_fmap. split; [by intros (y & [= -> ->] & ?)|]. intros [? <-]. eauto.
  - by rewrite <- list_fmap_compose.
Qed.

Lemma keyed_map_lookup_None l k : keyed_map l !! k = None ↔ k ∉ key <$> l.
Proof.
  unfold keyed_map. rewrite <- not_elem_of_list_to_map. by rewrite <- list_fmap_compose.
Qed.

Lemma keyed_map_perm l l' : distinct l → l ≡ₚ l' → keyed_map l = keyed_map l'.
Proof.
  intros Hd Hp. apply list_to_map_proper; [|by rewrite Hp]. by rewrite <- list_fmap_compose.
Qed.

Lemma distinct_perm l l' : l ≡ₚ l' → distinct l → distinct l'.
Proof. unfold distinct. by intros ->. Qed.

Lemma keyed_map_cons x l : keyed_map (x :: l) = <[key x := x]> (keyed_map l).
Proof. done. Qed.

Lemma keyed_map_snoc l x : distinct (l ++ [x]) → keyed_map (l ++ [x]) = <[key x := x]> (keyed_map l).
Proof.
  intros Hd. rewrite <- keyed_map_cons. apply keyed_map_perm; [done|]. by rewrite Permutation_app_comm.
Qed.

Lemma distinct_snoc l x : distinct l → keyed_map l !! key x = None → distinct (l ++ [x]).
Proof.
  unfold distinct. rewrite keyed_map_lookup_None, fmap_app. intros Hd Hn. apply list.NoDup_app. repeat split; [done| |apply NoDup_singleton].
  intros k Hk ->%list_elem_of_singleton. done.
Qed.

(** Replacing an element by one with the same key. *)
Lemma distinct_insert l i x y : l !! i = Some x → key y = key x → distinct l → distinct (<[i := y]> l).
Proof.
  unfold distinct. intros Hi Hk Hd. rewrite list_fmap_insert, list_insert_id; [done|]. by rewrite list_lookup_fmap, Hi, Hk.
Qed.

Lemma keyed_map_insert l i x y : l !! i = Some x → key y = key x → distinct l → keyed_map (<[i := y]> l) = <[key y := y]> (keyed_map l).
Proof.
  intros Hi Hk Hd. apply list_elem_of_split_length in Hi as (l1 & l2 & -> & ->).
  rewrite insert_app_r_alt, Nat.sub_diag by lia. simpl.
  assert (Hp : ∀ z, l1 ++ z :: l2 ≡ₚ z :: l1 ++ l2) by (intros; by rewrite Permutation_middle).
  rewrite (keyed_map_perm _ _ Hd (Hp x)).
  assert (Hd' : distinct (l1 ++ y :: l2)).
  { eapply (distinct_insert _ (length l1) x y) in Hd; [|by apply list_lookup_middle|done].
    by rewrite insert_app_r_alt, Nat.sub_diag in Hd by lia. }
  rewrite (keyed_map_perm _ _ Hd' (Hp y)), !keyed_map_cons, Hk. by rewrite insert_insert_eq.
Qed.

(** Removing the element [i]: the last one takes its place. *)
Definition swap_remove (i : nat) l : list A :=
  let n := (length l - 1)%nat in
  match l !! n with
  | Some y => take n (<[i := y]> l)
  | None => l
  end.

Lemma swap_remove_keyed_perm i l x : l !! i = Some x → l ≡ₚ x :: swap_remove i l.
Proof.
  intros Hi. unfold swap_remove. destruct l as [|y l _] using rev_ind; [done|].
  rewrite length_app. simpl. replace (length l + 1 - 1)%nat with (length l) by lia. rewrite list_lookup_middle by done.
  pose proof (lookup_lt_Some _ _ _ Hi) as Hlt. rewrite length_app in Hlt. simpl in Hlt.
  destruct (decide (i = length l)) as [->|N].
  - rewrite list_lookup_middle in Hi by done. injection Hi as <-.
    rewrite insert_app_r_alt, Nat.sub_diag by lia. simpl. rewrite take_app_length. by rewrite Permutation_app_comm.
  - rewrite lookup_app_l in Hi by lia. rewrite insert_app_l by lia. rewrite take_app_length' by (by rewrite length_insert).
    apply list_elem_of_split_length in Hi as (l1 & l2 & -> & ->). rewrite insert_app_r_alt, Nat.sub_diag by lia. simpl.
    rewrite <- app_assoc. simpl. rewrite (Permutation_app_comm l2 [y]), <- (Permutation_middle l1 (y :: l2) x). done.
Qed.

Lemma keyed_map_swap_remove l i x :
  l !! i = Some x → distinct l → keyed_map (swap_remove i l) = delete (key x) (keyed_map l) ∧ distinct (swap_remove i l).
Proof.
  intros Hi Hd. pose proof (swap_remove_keyed_perm i l x Hi) as Hp. apply (distinct_perm _ _ Hp) in Hd as Hd'.
  apply list.NoDup_cons in Hd' as [Hn Hd']. split; [|done].
  rewrite (keyed_map_perm _ _ Hd Hp), keyed_map_cons, delete_insert_id; [done|]. by apply keyed_map_lookup_None.
Qed.

Lemma length_swap_remove i l x : l !! i = Some x → length l = S (length (swap_remove i l)).
Proof. intros Hi. by rewrite (swap_remove_keyed_perm i l x Hi) at 1. Qed.
End keyed.

(** ** Arrays of strings

    The options of the server keep names in arrays of [char *] that grow with
    [realloc] and are shifted with [memmove].  A slot of such an array holds
    [NULL], the only pointer to a string, a pointer to a string that was freed, or
    an indeterminate value: memory just allocated, or a pointer of which only some
    bytes were copied.  An array is [None] for [NULL]. *)

Inductive cell := CNull | CLive (s : bytes) | CFreed | CUndef.

#[export] Instance cell_eq_dec : EqDecision cell.
Proof. solve_decision. Defined.

(** The result of [strdup]. *)
Definition cell_of (s : option bytes) : cell :=
  match s with Some s => CLive s | None => CNull end.

Definition ptrs := option (list cell).

(** [PTR]: the size of a pointer. *)
Definition PTR : Z := 8.

Section ptrs.
Context {S : Type}.

Definition load (a : ptrs) (i : Z) : M S cell :=
  match a with
  | None => crash
  | Some l =>
    if i <? 0 then crash
    else match l !! Z.to_nat i with Some c => mret c | None => crash end
  end.

Definition store (a : ptrs) (i : Z) (c : cell) : M S ptrs :=
  match a with
  | None => crash
  | Some l => if (i <? 0) || (zlen l <=? i) then crash else mret (Some (<[Z.to_nat i := c]> l))
  end.

(** [free(a[i])]; the slot keeps its value, which must not be used again. *)
Definition free_at (a : ptrs) (i : Z) : M S ptrs :=
  c ← load a i;
  match c with
  | CNull => mret a
  | CLive _ => store a i CFreed
  | CFreed | CUndef => crash
  end.

(** [!strcmp(a[i], name)] *)
Definition equal_at (a : ptrs) (i : Z) (name : bytes) : M S bool :=
  c ← load a i;
  match c with
  | CLive s => mret (strcmp_eq s name)
  | _ => crash
  end.

(** [realloc] to [n] slots; the new ones are indeterminate. *)
Definition resized (a : ptrs) (n : Z) : ptrs :=
  let l := default [] a in
  Some (ztake n l ++ replicate (Z.to_nat n - length l) CUndef).

(** [memmove(a + dst, a + src, n)] for [n] bytes: whole slots are copied, and a
    slot of which only some bytes are overwritten becomes indeterminate. *)
Definition memmove (a : ptrs) (dst src n : Z) : M S ptrs :=
  match a with
  | None => crash
  | Some l =>
    if (dst <? 0) || (src <? 0) || (n <? 0) || (PTR * zlen l <? PTR * dst + n) || (PTR * zlen l <? PTR * src + n)
    then crash
    else
      let q := n / PTR in
      let l' := ztake dst l ++ ztake q (zdrop src l) ++ zdrop (dst + q) l in
      mret (Some (if n mod PTR =? 0 then l' else <[Z.to_nat (dst + q) := CUndef]> l'))
  end.

(** Freeing the slot [i] and moving the slots behind it, where [count] is the
    number of names left. *)
Definition close_gap (a : ptrs) (i count : Z) : M S ptrs :=
  a ← free_at a i;
  if i <? count - 1 then memmove a i (i + 1) ((count - i) * PTR) else mret a.

(** The loop that looks for a name from the slot [i] on, in [n] slots. *)
Fixpoint find_from (n : nat) (a : ptrs) (i : Z) (name : bytes) : M S (option Z) :=
  match n with
  | O => mret None
  | Datatypes.S n =>
    b ← equal_at a i name;
    if b : bool then mret (Some i) else find_from n a (i + 1) name
  end.

(** The loop that frees [n] slots from [i] on. *)
Fixpoint free_from (n : nat) (a : ptrs) (i : Z) : M S ptrs :=
  match n with
  | O => mret a
  | Datatypes.S n => a ← free_at a i; free_from n a (i + 1)
  end.
End ptrs.

(** ** Arrays in which every slot holds a string *)

Lemma of_nat_ltb_0 i : (Z.of_nat i <? 0) = false.
Proof. apply Z.ltb_ge. lia. Qed.

(** Loads, stores and moves in the middle of an array. *)

Section slots.
Context {S : Type}.
Implicit Types (Q : ptrs → S → Prop) (l a b m : list cell).

Lemma wpx_load_slot F a c b i (Q : cell → S → Prop) st :
  i = zlen a → Q c st → wpx F (load (Some (a ++ c :: b)) i) Q st.
Proof.
  intros -> HQ. unfold load, zlen. rewrite of_nat_ltb_0, Nat2Z.id, list_lookup_middle by done. by apply wpx_ret.
Qed.

Lemma wpx_store_slot F a c b c' i Q st :
  i = zlen a → Q (Some (a ++ c' :: b)) st → wpx F (store (Some (a ++ c :: b)) i c') Q st.
Proof.
  intros -> HQ. unfold store. pose proof (zlen_nonneg a). pose proof (zlen_nonneg b).
  autorewrite with nc. replace (_ <? 0) with false by lia. replace (_ <=? _) with false by lia. cbn [orb].
  apply wpx_ret. unfold zlen. rewrite Nat2Z.id, insert_app_r_alt by lia. by rewrite Nat.sub_diag.
Qed.

Lemma wpx_free_slot F a s b i Q st :
  i = zlen a → Q (Some (a ++ CFreed :: b)) st → wpx F (free_at (Some (a ++ CLive s :: b)) i) Q st.
Proof. intros Hi HQ. unfold free_at. apply wpx_bind, wpx_load_slot; [done|]. by apply wpx_store_slot. Qed.

(** Moving whole slots. *)
Lemma memmove_slots F l dst src n Q st :
  0 ≤ dst → 0 ≤ src → 0 ≤ n → dst + n ≤ zlen l → src + n ≤ zlen l →
  Q (Some (ztake dst l ++ ztake n (zdrop src l) ++ zdrop (dst + n) l)) st →
  wpx F (memmove (Some l) dst src (n * PTR)) Q st.
Proof.
  intros H1 H2 H3 H4 H5 HQ. unfold memmove, PTR in *.
  replace (dst <? 0) with false by lia. replace (src <? 0) with false by lia.
  replace (n * 8 <? 0) with false by lia. replace (8 * zlen l <? 8 * dst + n * 8) with false by lia.
  replace (8 * zlen l <? 8 * src + n * 8) with false by lia. cbn [orb].
  rewrite Z.div_mul, Z.mod_mul by done. by apply wpx_ret.
Qed.

Lemma zdrop_app_add {A} (a b : list A) n : 0 ≤ n → zdrop (zlen a + n) (a ++ b) = zdrop n b.
Proof.
  intros Hn. unfold zdrop, zlen. replace (Z.to_nat (Z.of_nat (length a) + n)) with (length a + Z.to_nat n)%nat by lia.
  by rewrite drop_app_add.
Qed.

Lemma ztake_app_add {A} (a b : list A) n : 0 ≤ n → ztake (zlen a + n) (a ++ b) = a ++ ztake n b.
Proof.
  intros Hn. unfold ztake, zlen. replace (Z.to_nat (Z.of_nat (length a) + n)) with (length a + Z.to_nat n)%nat by lia.
  by rewrite take_app_add.
Qed.

(** A block moved over the slot behind it, and over the slot before it. *)
Lemma wpx_shift_up F a x m y b dst src n Q st :
  dst = zlen a + 1 → src = zlen a → n = (zlen m + 1) * PTR →
  Q (Some (a ++ x :: (x :: m) ++ b)) st →
  wpx F (memmove (Some (a ++ (x :: m) ++ y :: b)) dst src n) Q st.
Proof.
  intros -> -> -> HQ. pose proof (zlen_nonneg a). pose proof (zlen_nonneg m). pose proof (zlen_nonneg b).
  apply memmove_slots; [autorewrite with nc; lia..|].
  rewrite ztake_app_add, zdrop_app by lia.
  replace (ztake (zlen m + 1) ((x :: m) ++ y :: b)) with (x :: m)
    by (replace (zlen m + 1) with (zlen (x :: m)) by (rewrite zlen_cons; lia); by rewrite ztake_app).
  replace (zlen a + 1 + (zlen m + 1)) with (zlen a + (zlen (x :: m) + 1)) by (rewrite zlen_cons; lia).
  rewrite zdrop_app_add by (rewrite zlen_cons; lia). rewrite zdrop_app_add by lia.
  replace (zdrop 1 (y :: b)) with b by done. rewrite <- app_assoc. exact HQ.
Qed.

Lemma wpx_shift_down F a x m b dst src n Q st :
  dst = zlen a → src = zlen a + 1 → n = zlen m * PTR →
  (∀ z m', m = m' ++ [z] → Q (Some (a ++ m ++ z :: b)) st) → m ≠ [] →
  wpx F (memmove (Some (a ++ x :: m ++ b)) dst src n) Q st.
Proof.
  intros -> -> -> HQ Hm. pose proof (zlen_nonneg a). pose proof (zlen_nonneg m). pose proof (zlen_nonneg b).
  apply memmove_slots; [autorewrite with nc; lia..|].
  destruct (exists_last Hm) as (m' & z & ->).
  rewrite ztake_app, zdrop_app_add by lia.
  replace (zdrop 1 (x :: (m' ++ [z]) ++ b)) with ((m' ++ [z]) ++ b) by done.
  rewrite ztake_app, zdrop_app_add by apply zlen_nonneg.
  replace (zdrop (zlen (m' ++ [z])) (x :: (m' ++ [z]) ++ b)) with (z :: b); [by apply (HQ z m')|].
  rewrite zlen_app. replace (x :: (m' ++ [z]) ++ b) with ((x :: m') ++ z :: b) by (simpl; by rewrite <- app_assoc).
  replace (zlen m' + zlen [z]) with (zlen (x :: m')) by (rewrite zlen_cons; unfold zlen; simpl; lia).
  by rewrite zdrop_app.
Qed.
End slots.

(** ** Arrays that hold a list of strings

    The array may be longer than the list: what is behind it is not used. *)

Section lives.
Context {S : Type} (junk : list cell).
Implicit Types (Q : ptrs → S → Prop) (l : list bytes).

Definition lives (l : list bytes) : ptrs := Some (map CLive l ++ junk).

Lemma zlen_map {A B} (f : A → B) (l : list A) : zlen (map f l) = zlen l.
Proof. unfold zlen. by rewrite length_map. Qed.

Lemma wpx_equal_live F l (i : nat) s name (Q : bool → S → Prop) st :
  l !! i = Some s → Q (strcmp_eq s name) st → wpx F (equal_at (lives l) (Z.of_nat i) name) Q st.
Proof.
  intros E HQ. apply list_elem_of_split_length in E as (l1 & l2 & -> & ->). unfold equal_at, lives.
  rewrite map_app, <- app_assoc. cbn [map app]. apply wpx_bind, wpx_load_slot; [by rewrite zlen_map|]. by apply wpx_ret.
Qed.

(** The index found is the first one with the name. *)
Definition first_at (l : list bytes) (name : bytes) (r : option Z) : Prop :=
  match r with
  | None => name ∉ l
  | Some i => ∃ l1 l2, l = l1 ++ name :: l2 ∧ name ∉ l1 ∧ i = zlen l1
  end.

Lemma wpx_find_live F l name (k n : nat) (Q : option Z → S → Prop) st :
  (k + n = length l)%nat → name ∉ take k l →
  (∀ r, first_at l name r → Q r st) → wpx F (find_from n (lives l) (Z.of_nat k) name) Q st.
Proof.
  revert k. induction n as [|n IH]; intros k Hl Hk HQ; cbn [find_from].
  - apply wpx_ret, HQ. simpl. by rewrite take_ge in Hk by lia.
  - destruct (lookup_lt_is_Some_2 l k ltac:(lia)) as [s E].
    apply wpx_bind. eapply wpx_equal_live; [done|]. unfold strcmp_eq.
    destruct (bool_decide_reflect (s = name)) as [->|N].
    + apply wpx_ret, HQ. apply list_elem_of_split_length in E as (l1 & l2 & -> & ->). exists l1, l2.
      rewrite take_app_length in Hk. done.
    + replace (Z.of_nat k + 1) with (Z.of_nat (k + 1)) by lia. apply IH; [lia| |done].
      rewrite Nat.add_1_r, (take_S_r _ _ _ E), elem_of_app, list_elem_of_singleton. intros [?|?]; congruence.
Qed.
End lives.

(** Flattening concatenations of mapped lists. *)
Ltac flat := rewrite ?map_app; cbn [map]; rewrite ?map_app; rewrite <- ?app_assoc; cbn [app]; rewrite <- ?app_assoc.
Ltac flat_in H :=
  rewrite ?map_app in H; cbn [map] in H; rewrite ?map_app in H; rewrite <- ?app_assoc in H; cbn [app] in H;
  rewrite <- ?app_assoc in H.

(** An array, possibly [NULL], with its count. *)
Definition holds (a : ptrs) (count : Z) (l : list bytes) : Prop :=
  count = zlen l ∧ ((l = [] ∧ a = None) ∨ ∃ junk, a = lives junk l).

Lemma wpx_find_all {S} F a count l name (Q : option Z → S → Prop) st :
  holds a count l → (∀ r, first_at l name r → Q r st) → wpx F (find_from (Z.to_nat count) a 0 name) Q st.
Proof.
  intros [-> [[-> ->]|[junk ->]]] HQ.
  - apply wpx_ret, HQ. apply not_elem_of_nil.
  - unfold zlen. rewrite Nat2Z.id. apply (wpx_find_live junk F l name 0); [done| |done]. rewrite take_0. apply not_elem_of_nil.
Qed.

Lemma wpx_free_all {S} F a count l (Q : ptrs → S → Prop) st :
  holds a count l → (∀ a', Q a' st) → wpx F (free_from (Z.to_nat count) a 0) Q st.
Proof.
  intros [-> H] HQ. unfold zlen. rewrite Nat2Z.id. destruct H as [[-> ->]|[junk ->]]; [by apply wpx_ret|].
  assert (Hgen : ∀ pre, wpx F (free_from (length l) (Some (pre ++ map CLive l ++ junk)) (zlen pre)) Q st).
  { clear -HQ. induction l as [|s l IH]; intros pre; cbn [length free_from map app]; [by apply wpx_ret|].
    apply wpx_bind, wpx_free_slot; [done|]. replace (zlen pre + 1) with (zlen (pre ++ [CFreed])) by (rewrite zlen_app; done).
    replace (pre ++ CFreed :: map CLive l ++ junk) with ((pre ++ [CFreed]) ++ map CLive l ++ junk)
      by (by rewrite <- app_assoc). apply IH. }
  apply (Hgen []).
Qed.
