(* ===== verification/SshOpts.v ===== *)
(** * Options of SSH endpoints

    src/session_server_ssh.c: the host keys and authentication settings of an
    endpoint ([struct nc_server_ssh_opts]) and the authorized keys of the server.
    Reading and comparing keys is libssh's. *)

From S2P Require Import Prelude Session Env Capabilities PtrArray.
From Stdlib Require Import ZArith Ascii String Lia.
From stdpp Require Import base list strings gmap numbers.
Open Scope Z_scope.

Definition NC_SSH_AUTH_PUBLICKEY : Z := 0x01.
Definition NC_SSH_AUTH_PASSWORD : Z := 0x02.
Definition NC_SSH_AUTH_INTERACTIVE : Z := 0x04.

Record nc_server_ssh_opts := SshOpts {
  hostkeys : ptrs;
  hostkey_count : Z;
  auth_methods : Z;
  auth_attempts : Z;
  auth_timeout : Z;
}.

Definition set_hostkeys (a : ptrs) (n : Z) (o : nc_server_ssh_opts) : nc_server_ssh_opts :=
  SshOpts a n (auth_methods o) (auth_attempts o) (auth_timeout o).

(** [calloc] and the defaults of a new endpoint. *)
Definition new_ssh_opts : nc_server_ssh_opts :=
  SshOpts None 0 (Z.lor NC_SSH_AUTH_PUBLICKEY NC_SSH_AUTH_PASSWORD) 3 30.

Section hostkeys.
Context {W : Type} `{!Env W}.

(** ** Host keys *)

Definition nc_server_ssh_add_hostkey (name : option bytes) (idx : Z) (o : nc_server_ssh_opts)
    : M W (Z * nc_server_ssh_opts) :=
  match name with
  | None => mret (-1, o)
  | Some name =>
    if hostkey_count o <? idx then mret (-1, o)
    else
      found ← find_from (Z.to_nat (hostkey_count o)) (hostkeys o) 0 name;
      match found with
      | Some _ => mret (-1, o)
      | None =>
        let count := u8 (hostkey_count o + 1) in
        ok ← call (malloc_ok (count * PTR));
        if negb ok then mret (-1, set_hostkeys None count o)
        else
          let a := resized (hostkeys o) count in
          let idx := if idx <? 0 then count - 1 else idx in
          a ← (if negb (idx =? count - 1) then memmove a (idx + 1) idx (count - idx) else mret a);
          s ← strdup name;
          a ← store a idx (cell_of s);
          mret (0, set_hostkeys a count o)
      end
  end.

(** The code at the label [remove_idx]. *)
Definition remove_idx (idx : Z) (o : nc_server_ssh_opts) : M W (Z * nc_server_ssh_opts) :=
  let count := u8 (hostkey_count o - 1) in
  a ← close_gap (hostkeys o) idx count;
  mret (0, set_hostkeys (if count =? 0 then None else a) count o).

(** An index that is too large is reported, but the function goes on. *)
Definition nc_server_ssh_del_hostkey (name : option bytes) (idx : Z) (o : nc_server_ssh_opts)
    : M W (Z * nc_server_ssh_opts) :=
  match name with
  | Some name =>
    if -1 <? idx then mret (-1, o)
    else
      found ← find_from (Z.to_nat (hostkey_count o)) (hostkeys o) 0 name;
      match found with
      | Some idx => remove_idx idx o
      | None => mret (-1, o)
      end
  | None =>
    if idx <? 0 then
      _ ← free_from (Z.to_nat (hostkey_count o)) (hostkeys o) 0;
      mret (0, set_hostkeys None 0 o)
    else remove_idx idx o
  end.

(** The loop of [nc_server_ssh_mov_hostkey]: the indices of the two keys, or -1. *)
Fixpoint mov_find (n : nat) (a : ptrs) (i : Z) (key_mov : bytes) (key_after : option bytes)
    (mov_idx after_idx : Z) : M W (Z * Z) :=
  match n with
  | O => mret (mov_idx, after_idx)
  | S n =>
    after_idx ← match key_after with
                | Some k =>
                  if after_idx =? -1 then b ← equal_at a i k; mret (if b : bool then i else -1) else mret after_idx
                | None => mret after_idx
                end;
    mov_idx ← (if mov_idx =? -1 then b ← equal_at a i key_mov; mret (if b : bool then i else -1) else mret mov_idx);
    if (match key_after with None => true | Some _ => -1 <? after_idx end) && (-1 <? mov_idx)
    then mret (mov_idx, after_idx)
    else mov_find n a (i + 1) key_mov key_after mov_idx after_idx
  end.

(** Moving the slot [mov_idx] behind the slot [after_idx]. *)
Definition mov_slots (mov_idx after_idx : Z) (o : nc_server_ssh_opts) : M W (Z * nc_server_ssh_opts) :=
  bckup ← load (hostkeys o) mov_idx;
  if after_idx <? mov_idx then
    a ← memmove (hostkeys o) (after_idx + 2) (after_idx + 1) ((mov_idx - after_idx - 1) * PTR);
    a ← store a (after_idx + 1) bckup;
    mret (0, set_hostkeys a (hostkey_count o) o)
  else
    a ← memmove (hostkeys o) mov_idx (mov_idx + 1) ((after_idx - mov_idx) * PTR);
    a ← store a after_idx bckup;
    mret (0, set_hostkeys a (hostkey_count o) o).

Definition nc_server_ssh_mov_hostkey (key_mov key_after : option bytes) (o : nc_server_ssh_opts)
    : M W (Z * nc_server_ssh_opts) :=
  match key_mov with
  | None => mret (-1, o)
  | Some key_mov =>
    '(mov_idx, after_idx) ← mov_find (Z.to_nat (hostkey_count o)) (hostkeys o) 0 key_mov key_after (-1) (-1);
    if (match key_after with Some _ => true | None => false end) && (after_idx =? -1) then mret (-1, o)
    else if mov_idx =? -1 then mret (-1, o)
    else if (mov_idx =? after_idx) || (mov_idx =? after_idx + 1) then mret (0, o)
    else mov_slots mov_idx after_idx o
  end.

(** ** Authentication settings *)

(** [pam] says whether [server_opts.conf_name] is set. *)
Definition nc_server_ssh_set_auth_methods (pam : bool) (methods : Z) (o : nc_server_ssh_opts)
    : Z * nc_server_ssh_opts :=
  if negb (Z.land methods NC_SSH_AUTH_INTERACTIVE =? 0) && negb pam then (1, o)
  else (0, SshOpts (hostkeys o) (hostkey_count o) methods (auth_attempts o) (auth_timeout o)).

Definition nc_server_ssh_set_auth_attempts (attempts : Z) (o : nc_server_ssh_opts) : Z * nc_server_ssh_opts :=
  if attempts =? 0 then (-1, o)
  else (0, SshOpts (hostkeys o) (hostkey_count o) (auth_methods o) attempts (auth_timeout o)).

Definition nc_server_ssh_set_auth_timeout (timeout : Z) (o : nc_server_ssh_opts) : Z * nc_server_ssh_opts :=
  if timeout =? 0 then (-1, o)
  else (0, SshOpts (hostkeys o) (hostkey_count o) (auth_methods o) (auth_attempts o) timeout).

Definition nc_server_ssh_clear_opts (o : nc_server_ssh_opts) : M W nc_server_ssh_opts :=
  '(_, o) ← nc_server_ssh_del_hostkey None (-1) o;
  mret o.
End hostkeys.

(** ** Authorized keys

    [server_opts.authkeys], its count and whether [authkey_lock] is held. *)

Record authkey := Authkey {
  ak_path : option bytes;
  ak_base64 : option bytes;
  ak_type : NC_SSH_KEY_TYPE;
  ak_username : option bytes;
}.

Record authkeys_state := AuthkeysState {
  authkeys : option (list authkey);
  authkey_count : Z;
  authkey_held : bool;
}.

#[export] Instance NC_SSH_KEY_TYPE_eq_dec : EqDecision NC_SSH_KEY_TYPE.
Proof. solve_decision. Defined.

(** libssh: a public key read from a file or from its text, [None] on an error,
    and [ssh_key_cmp(_, _, SSH_KEY_CMP_PUBLIC) == 0]. *)
Class SshKeys (W key : Type) := {
  ssh_pki_import_pubkey_file : option bytes → W → option key * W;
  ssh_pki_import_pubkey_base64 : option bytes → NC_SSH_KEY_TYPE → W → option key * W;
  ssh_key_same : key → key → bool;
}.

Section authkeys.
Context {W : Type} `{!Env W}.

Abbreviation AM := (M (authkeys_state * W)).

Definition ak_get : AM authkeys_state := gets fst.
Definition ak_set (keys : option (list authkey)) (n : Z) : AM unit :=
  modify (λ s, (AuthkeysState keys n (authkey_held s.1), s.2)).

(** [authkey_lock]; taking it while it is held does not return. *)
Definition ak_lock : AM unit :=
  s ← ak_get;
  if authkey_held s then no_fuel else modify (λ s, (AuthkeysState (authkeys s.1) (authkey_count s.1) true, s.2)).
Definition ak_unlock : AM unit :=
  modify (λ s, (AuthkeysState (authkeys s.1) (authkey_count s.1) false, s.2)).

Definition strdup_opt (s : option bytes) : M W (option bytes) :=
  match s with None => mret None | Some s => strdup s end.

Definition _nc_server_ssh_add_authkey (pubkey_path pubkey_base64 : option bytes) (type : NC_SSH_KEY_TYPE)
    (username : bytes) : AM Z :=
  _ ← ak_lock;
  s ← ak_get;
  let count := u16 (authkey_count s + 1) in
  ok ← on_env (call (malloc_ok (count * 32)));
  ret ←
    (if negb ok then _ ← ak_set None count; mret (-1)
     else
       p ← on_env (strdup_opt pubkey_path);
       b ← on_env (strdup_opt pubkey_base64);
       u ← on_env (strdup username);
       _ ← ak_set (Some (default [] (authkeys s) ++ [Authkey p b type u])) count;
       mret 0);
  _ ← ak_unlock;
  mret ret.

Definition nc_server_ssh_add_authkey_path (pubkey_path username : option bytes) : AM Z :=
  match pubkey_path, username with
  | Some p, Some u => _nc_server_ssh_add_authkey (Some p) None NC_SSH_KEY_UNKNOWN u
  | _, _ => mret (-1)
  end.

Definition nc_server_ssh_add_authkey (pubkey_base64 : option bytes) (type : NC_SSH_KEY_TYPE) (username : option bytes)
    : AM Z :=
  match pubkey_base64, username with
  | Some b, Some u =>
    if bool_decide (type = NC_SSH_KEY_UNKNOWN) then mret (-1) else _nc_server_ssh_add_authkey None (Some b) type u
  | _, _ => mret (-1)
  end.

(** [!arg || !strcmp(field, arg)]; comparing a [NULL] field is undefined. *)
Definition field_is (field arg : option bytes) : AM bool :=
  match arg, field with
  | None, _ => mret true
  | Some _, None => crash
  | Some a, Some f => mret (strcmp_eq f a)
  end.

Definition authkey_matches (path base64 : option bytes) (type : NC_SSH_KEY_TYPE) (username : option bytes) (k : authkey)
    : AM bool :=
  b ← field_is (ak_path k) path;
  if negb b then mret false
  else
    b ← field_is (ak_base64 k) base64;
    if negb b then mret false
    else if negb (bool_decide (type = NC_SSH_KEY_UNKNOWN)) && negb (bool_decide (ak_type k = type)) then mret false
    else field_is (ak_username k) username.

Definition authkey_at (i : Z) : AM authkey :=
  s ← ak_get;
  match authkeys s with
  | None => crash
  | Some l => match l !! Z.to_nat i with Some k => mret k | None => crash end
  end.

(** Removing the key [i]: the last key is moved to its place. *)
Definition drop_authkey (i : Z) : AM unit :=
  s ← ak_get;
  let count := authkey_count s - 1 in
  if i <? count then
    k ← authkey_at count;
    ak_set (Some (take (Z.to_nat count) (<[Z.to_nat i := k]> (default [] (authkeys s))))) count
  else if count =? 0 then ak_set None 0
  else ak_set (Some (take (Z.to_nat count) (default [] (authkeys s)))) count.

(** The loop: [i] grows also after a removal. *)
Fixpoint del_authkeys (n : nat) (i : Z) (path base64 : option bytes) (type : NC_SSH_KEY_TYPE)
    (username : option bytes) (ret : Z) : AM Z :=
  match n with
  | O => mret ret
  | S n =>
    s ← ak_get;
    if authkey_count s <=? i then mret ret
    else
      k ← authkey_at i;
      b ← authkey_matches path base64 type username k;
      if b : bool then _ ← drop_authkey i; del_authkeys n (i + 1) path base64 type username 0
      else del_authkeys n (i + 1) path base64 type username ret
  end.

Definition nc_server_ssh_del_authkey (path base64 : option bytes) (type : NC_SSH_KEY_TYPE) (username : option bytes)
    : AM Z :=
  _ ← ak_lock;
  s ← ak_get;
  ret ←
    match path, base64, type, username with
    | None, None, NC_SSH_KEY_UNKNOWN, None =>
      _ ← guarded (authkey_count s <=? zlen (default [] (authkeys s)));
      _ ← ak_set None 0;
      mret (if authkey_count s =? 0 then -1 else 0)
    | _, _, _, _ => del_authkeys (Z.to_nat (authkey_count s)) 0 path base64 type username (-1)
    end;
  _ ← ak_unlock;
  mret ret.

(** The user of the first authorized key that is the one presented; keys that
    cannot be read are skipped. *)
Context {key : Type} `{!SshKeys W key}.

Fixpoint compare_keys (n : nat) (i : Z) (k : key) : AM (option bytes) :=
  match n with
  | O => mret None
  | S n =>
    a ← authkey_at i;
    pub ← on_env (call (match ak_type a with
                        | NC_SSH_KEY_UNKNOWN => ssh_pki_import_pubkey_file (ak_path a)
                        | t => ssh_pki_import_pubkey_base64 (ak_base64 a) t
                        end));
    match pub with
    | Some p => if ssh_key_same k p then mret (ak_username a) else compare_keys n (i + 1) k
    | None => compare_keys n (i + 1) k
    end
  end.

Definition auth_pubkey_compare_key (k : key) : AM (option bytes) :=
  _ ← ak_lock;
  s ← ak_get;
  u ← compare_keys (Z.to_nat (authkey_count s)) 0 k;
  _ ← ak_unlock;
  mret u.
End authkeys.
