(* ===== verification/SshOptsProofs.v ===== *)
(** * Host keys as a list

    The array operations of SshOpts.v against operations on lists: moving a key
    is right for every pair of keys; adding is right at the end and deleting
    everywhere but in the slot before the last. *)

From S2P Require Import Prelude Session Env Sim Capabilities PtrArray SshOpts.
From Stdlib Require Import ZArith Ascii String Lia.
From stdpp Require Import base list strings gmap numbers.
Open Scope Z_scope.

(** ** Moving *)

Fixpoint insert_after (a x : bytes) (l : list bytes) : list bytes :=
  match l with
  | [] => [x]
  | y :: l => if decide (y = a) then y :: x :: l else y :: insert_after a x l
  end.

Fixpoint remove_key (x : bytes) (l : list bytes) : list bytes :=
  match l with
  | [] => []
  | y :: l => if decide (y = x) then l else y :: remove_key x l
  end.

(** The key is taken out and put after another one, or to the front. *)
Definition move_key (key : bytes) (after : option bytes) (l : list bytes) : list bytes :=
  match after with
  | None => key :: remove_key key l
  | Some a => if decide (a = key) then l else insert_after a key (remove_key key l)
  end.

Lemma remove_key_app x l1 l2 : x ∉ l1 → remove_key x (l1 ++ x :: l2) = l1 ++ l2.
Proof.
  induction l1 as [|y l1 IH]; simpl; intros Hx; [by rewrite decide_True|].
  apply not_elem_of_cons in Hx as [??]. rewrite decide_False by done. by rewrite IH.
Qed.

Lemma insert_after_app a x l1 l2 : a ∉ l1 → insert_after a x (l1 ++ a :: l2) = l1 ++ a :: x :: l2.
Proof.
  induction l1 as [|y l1 IH]; simpl; intros Hx; [by rewrite decide_True|].
  apply not_elem_of_cons in Hx as [??]. rewrite decide_False by done. by rewrite IH.
Qed.

Lemma move_key_length key after l :
  key ∈ l → default key after ∈ l → length (move_key key after l) = length l.
Proof.
  intros (l1 & l2 & -> & N)%list_elem_of_split_l Ha. destruct after as [a|]; simpl; rewrite ?remove_key_app by done.
  - destruct (decide (a = key)) as [->|Na]; [done|]. simpl in Ha.
    assert (a ∈ l1 ++ l2) as (p & q & Ep & Np)%list_elem_of_split_l.
    { rewrite elem_of_app, elem_of_cons in Ha. rewrite elem_of_app. tauto. }
    rewrite Ep, insert_after_app by done. apply (f_equal length) in Ep. rewrite !length_app in *. simpl in *. lia.
  - rewrite !length_app. simpl. lia.
Qed.

(** The index of the first occurrence, or -1. *)
Definition idx_of (x : bytes) (l : list bytes) : Z :=
  match list_find (x =.) l with Some (i, _) => Z.of_nat i | None => -1 end.

Lemma idx_of_app x l1 l2 : x ∉ l1 → idx_of x (l1 ++ x :: l2) = zlen l1.
Proof.
  intros Hx. unfold idx_of. rewrite list_find_app_r.
  - simpl. rewrite decide_True by done. simpl. unfold zlen. lia.
  - apply list_find_None, list.Forall_forall. intros y Hy <-. done.
Qed.

Lemma idx_of_None x l : x ∉ l → idx_of x l = -1.
Proof.
  intros Hx. unfold idx_of. destruct (list_find (x =.) l) as [[i y]|] eqn:E; [|done].
  apply list_find_Some in E as (E & <- & _). apply list_elem_of_lookup_2 in E. done.
Qed.

Lemma idx_of_ge x l : x ∈ l → -1 < idx_of x l.
Proof. intros (l1 & l2 & -> & Hx)%list_elem_of_split_l. rewrite idx_of_app by done. unfold zlen. lia. Qed.

Lemma idx_of_take_S x l k s :
  l !! k = Some s →
  idx_of x (take (S k) l) = if idx_of x (take k l) =? -1 then (if decide (s = x) then Z.of_nat k else -1)
                            else idx_of x (take k l).
Proof.
  intros E. rewrite (take_S_r _ _ _ E). pose proof (lookup_lt_Some _ _ _ E).
  destruct (decide (x ∈ take k l)) as [Hx|Hx].
  - pose proof (idx_of_ge _ _ Hx). replace (idx_of x (take k l) =? -1) with false by lia.
    apply list_elem_of_split_l in Hx as (l1 & l2 & -> & Hx). rewrite <- app_assoc. simpl.
    by rewrite !idx_of_app.
  - rewrite (idx_of_None _ _ Hx). destruct (decide (s = x)) as [->|N].
    + rewrite idx_of_app by done. unfold zlen. rewrite length_take. simpl. lia.
    + apply idx_of_None. rewrite elem_of_app, list_elem_of_singleton. intros [?|?]; congruence.
Qed.

Lemma idx_of_take x l k : x ∈ take k l → idx_of x (take k l) = idx_of x l.
Proof.
  intros Hx. rewrite <- (take_drop k l) at 2.
  apply list_elem_of_split_l in Hx as (l1 & l2 & -> & Hx). rewrite <- app_assoc. simpl.
  by rewrite !idx_of_app.
Qed.

Lemma idx_of_found x l : -1 < idx_of x l → x ∈ l.
Proof. destruct (decide (x ∈ l)) as [|N]; [done|]. rewrite (idx_of_None _ _ N). lia. Qed.

Section mov.
Context {W : Type} `{!Env W} (junk : list cell).

Lemma wpx_mov_find F l key after n k (Q : Z * Z → W → Prop) w :
  (k + n = length l)%nat →
  (Q (idx_of key l, match after with Some a => idx_of a l | None => -1 end) w) →
  wpx F (mov_find n (lives junk l) (Z.of_nat k) key after (idx_of key (take k l))
    (match after with Some a => idx_of a (take k l) | None => -1 end)) Q w.
Proof.
  revert k. induction n as [|n IH]; intros k Hk HQ; cbn [mov_find].
  - apply wpx_ret. by rewrite take_ge by lia.
  - destruct (lookup_lt_is_Some_2 l k ltac:(lia)) as [s E]. apply wpx_bind.
    assert (HA : wpx F (match after with
      | Some k0 => if (match after with Some a => idx_of a (take k l) | None => -1 end) =? -1
                   then b ← equal_at (lives junk l) (Z.of_nat k) k0; mret (if b : bool then Z.of_nat k else -1)
                   else mret (match after with Some a => idx_of a (take k l) | None => -1 end)
      | None => mret (match after with Some a => idx_of a (take k l) | None => -1 end) end)
      (λ r w', r = match after with Some a => idx_of a (take (S k) l) | None => -1 end ∧ w' = w) w).
    { destruct after as [a|]; [|by apply wpx_ret]. rewrite (idx_of_take_S _ _ _ _ E).
      destruct (idx_of a (take k l) =? -1); [|by apply wpx_ret]. apply wpx_bind. eapply wpx_equal_live; [done|]. apply wpx_ret.
      unfold strcmp_eq. rewrite bool_decide_decide. by destruct (decide (s = a)). }
    eapply wpx_mono; [exact HA|]. intros ? ? [-> ->]. apply wpx_bind.
    assert (HB : wpx F (if idx_of key (take k l) =? -1
        then b ← equal_at (lives junk l) (Z.of_nat k) key; mret (if b : bool then Z.of_nat k else -1)
        else mret (idx_of key (take k l)))
      (λ r w', r = idx_of key (take (S k) l) ∧ w' = w) w).
    { rewrite (idx_of_take_S _ _ _ _ E). destruct (idx_of key (take k l) =? -1); [|by apply wpx_ret].
      apply wpx_bind. eapply wpx_equal_live; [done|]. apply wpx_ret.
      unfold strcmp_eq. rewrite bool_decide_decide. by destruct (decide (s = key)). }
    eapply wpx_mono; [exact HB|]. intros ? ? [-> ->].
    destruct (_ && _) eqn:Eb; [|replace (Z.of_nat k + 1) with (Z.of_nat (S k)) by lia; apply IH; [lia|done]].
    apply andb_true_iff in Eb as [E1 E2]. apply wpx_ret.
    rewrite idx_of_take by (apply idx_of_found; lia). destruct after as [a|]; [|done].
    rewrite idx_of_take by (apply idx_of_found; lia). done.
Qed.
End mov.

Lemma set_hostkeys_id junk l o :
  hostkeys o = lives junk l → hostkey_count o = zlen l → set_hostkeys (lives junk l) (zlen l) o = o.
Proof. destruct o; simpl. by intros -> ->. Qed.

Lemma idx_of_split x l : x ∈ l → ∃ l1 l2, l = l1 ++ x :: l2 ∧ x ∉ l1 ∧ idx_of x l = zlen l1.
Proof.
  intros (l1 & l2 & -> & Hx)%list_elem_of_split_l. exists l1, l2. split; [done|]. split; [done|]. by apply idx_of_app.
Qed.

(** Where another key is, seen from the key to move. *)
Lemma idx_of_other a key l1 l2 :
  a ≠ key → a ∈ l1 ++ key :: l2 →
  (∃ p q, l1 = p ++ a :: q ∧ a ∉ p ∧ idx_of a (l1 ++ key :: l2) = zlen p) ∨
  (∃ p q, a ∉ l1 ∧ l2 = p ++ a :: q ∧ a ∉ p ∧ idx_of a (l1 ++ key :: l2) = zlen l1 + 1 + zlen p).
Proof.
  intros N Ha. destruct (decide (a ∈ l1)) as [H1|H1].
  - left. apply list_elem_of_split_l in H1 as (p & q & -> & Hp). exists p, q. split; [done|]. split; [done|].
    rewrite <- app_assoc. simpl. by apply idx_of_app.
  - right. rewrite elem_of_app, elem_of_cons in Ha. destruct Ha as [?|[?|H2]]; [done..|].
    apply list_elem_of_split_l in H2 as (p & q & -> & Hp). exists p, q. do 3 (split; [done|]).
    replace (l1 ++ key :: p ++ a :: q) with ((l1 ++ key :: p) ++ a :: q) by (by rewrite <- app_assoc).
    rewrite idx_of_app; [autorewrite with nc; lia|].
    rewrite elem_of_app, elem_of_cons. intros [?|[?|?]]; done.
Qed.

Section mov_theorem.
Context {W : Type} `{!Env W} (junk : list cell).
Implicit Types (Q : Z * nc_server_ssh_opts → W → Prop).

(** The three ways to move: to the front, back, and forth. *)
Lemma wpx_mov_up F a m key b o after_idx mov_idx Q w :
  m ≠ [] → hostkeys o = lives junk (a ++ m ++ key :: b) → after_idx = zlen a - 1 → mov_idx = zlen a + zlen m →
  Q (0, set_hostkeys (lives junk (a ++ key :: m ++ b)) (hostkey_count o) o) w →
  wpx F (mov_slots mov_idx after_idx o) Q w.
Proof.
  intros Hm E -> -> HQ. unfold mov_slots. rewrite E. pose proof (zlen_nonneg a). pose proof (zlen_nonneg m).
  unfold lives in *. flat_in HQ. flat. apply wpx_bind.
  rewrite (app_assoc (map CLive a) (map CLive m)). apply wpx_load_slot; [by rewrite zlen_app, !zlen_map|].
  replace (_ <? _) with true by lia. rewrite <- app_assoc. destruct m as [|x m]; [done|].
  cbn [map] in *. rewrite zlen_cons in *. apply wpx_bind, wpx_shift_up; [rewrite ?zlen_map; lia..|rewrite zlen_map; f_equal; lia|].
  apply wpx_bind, wpx_store_slot; [rewrite zlen_map; lia|]. by apply wpx_ret.
Qed.

Lemma wpx_mov_down F a key m b o after_idx mov_idx Q w :
  m ≠ [] → hostkeys o = lives junk (a ++ key :: m ++ b) → mov_idx = zlen a → after_idx = zlen a + zlen m →
  Q (0, set_hostkeys (lives junk (a ++ m ++ key :: b)) (hostkey_count o) o) w →
  wpx F (mov_slots mov_idx after_idx o) Q w.
Proof.
  intros Hm E -> -> HQ. unfold mov_slots. rewrite E. pose proof (zlen_nonneg a). pose proof (zlen_nonneg m).
  unfold lives in *. flat_in HQ. flat.
  apply wpx_bind, wpx_load_slot; [by rewrite zlen_map|]. replace (_ <? _) with false by lia.
  apply wpx_bind, wpx_shift_down; [rewrite ?zlen_map; lia..|rewrite zlen_map; f_equal; lia| |by destruct m]. intros z m' _.
  apply wpx_bind. rewrite (app_assoc (map CLive a) (map CLive m)).
  apply wpx_store_slot; [by rewrite zlen_app, !zlen_map|]. apply wpx_ret. by rewrite <- app_assoc.
Qed.

(** What moving a key does, on every branch. *)
Definition moved (l : list bytes) (key : bytes) (after : option bytes) (o : nc_server_ssh_opts)
    (r : Z * nc_server_ssh_opts) : Prop :=
  if decide (key ∈ l ∧ default key after ∈ l)
  then r = (0, set_hostkeys (lives junk (move_key key after l)) (zlen l) o) else r = (-1, o).

Lemma moved_id l key after o :
  hostkeys o = lives junk l → hostkey_count o = zlen l → key ∈ l → default key after ∈ l →
  move_key key after l = l → moved l key after o (0, o).
Proof. intros H1 H2 H3 H4 E. unfold moved. rewrite decide_True by done. by rewrite E, set_hostkeys_id. Qed.

(** The end of the function, when both keys were found. *)
Definition mov_end (mov_idx after_idx : Z) (o : nc_server_ssh_opts) : M W (Z * nc_server_ssh_opts) :=
  if (mov_idx =? after_idx) || (mov_idx =? after_idx + 1) then mret (0, o) else mov_slots mov_idx after_idx o.

Lemma mov_end_front F l1 key l2 o w :
  hostkeys o = lives junk (l1 ++ key :: l2) → hostkey_count o = zlen (l1 ++ key :: l2) → key ∉ l1 →
  wpx F (mov_end (zlen l1) (-1) o) (λ r w', moved (l1 ++ key :: l2) key None o r ∧ w' = w) w.
Proof.
  intros H1 H2 N1. assert (Hk : key ∈ l1 ++ key :: l2) by (rewrite elem_of_app, elem_of_cons; auto).
  pose proof (zlen_nonneg l1). unfold mov_end.
  replace (zlen l1 =? -1) with false by lia. replace (zlen l1 =? -1 + 1) with (zlen l1 =? 0) by done. cbn [orb].
  destruct (zlen l1 =? 0) eqn:E0.
  - apply wpx_ret. split; [|done]. apply moved_id; try done.
    apply Z.eqb_eq, zlen_nil_inv in E0 as ->. simpl. by rewrite decide_True.
  - apply (wpx_mov_up F [] l1 key l2); [by intros ->|done|done|unfold zlen; simpl; lia|]. split; [|done]. unfold moved.
    rewrite decide_True by done. rewrite H2. simpl. by rewrite remove_key_app.
Qed.

Lemma mov_end_back F p a q key l2 o w :
  hostkeys o = lives junk (p ++ a :: q ++ key :: l2) → hostkey_count o = zlen (p ++ a :: q ++ key :: l2) →
  a ≠ key → a ∉ p → key ∉ p ++ a :: q →
  wpx F (mov_end (zlen (p ++ a :: q)) (zlen p) o)
    (λ r w', moved (p ++ a :: q ++ key :: l2) key (Some a) o r ∧ w' = w) w.
Proof.
  intros H1 H2 N Np Nk. set (l := p ++ a :: q ++ key :: l2) in *.
  assert (Hk : key ∈ l) by (unfold l; rewrite elem_of_app, elem_of_cons, elem_of_app, elem_of_cons; auto).
  assert (Ha : a ∈ l) by (unfold l; rewrite elem_of_app, elem_of_cons; auto).
  assert (Hm : move_key key (Some a) l = p ++ a :: key :: q ++ l2).
  { simpl. rewrite decide_False by done. unfold l.
    replace (p ++ a :: q ++ key :: l2) with ((p ++ a :: q) ++ key :: l2) by (by rewrite <- app_assoc).
    rewrite remove_key_app by done. rewrite <- app_assoc. by apply insert_after_app. }
  pose proof (zlen_nonneg p). pose proof (zlen_nonneg q). unfold mov_end. autorewrite with nc.
  replace (zlen p + (1 + zlen q) =? zlen p) with false by lia. cbn [orb].
  destruct (_ =? _) eqn:E0.
  - apply wpx_ret. split; [|done]. apply moved_id; try done. rewrite Hm.
    assert (q = []) as -> by (apply zlen_nil_inv; lia). done.
  - apply (wpx_mov_up F (p ++ [a]) q key l2); [intros ->; change (zlen (@nil bytes)) with 0 in E0; lia| | | |].
    + rewrite H1. unfold l. by rewrite <- app_assoc.
    + autorewrite with nc. unfold zlen. simpl. lia.
    + autorewrite with nc. unfold zlen. simpl. lia.
    + split; [|done]. unfold moved. rewrite decide_True by done. rewrite H2, Hm. by rewrite <- app_assoc.
Qed.

Lemma mov_end_forth F l1 key p a q o w :
  hostkeys o = lives junk (l1 ++ key :: p ++ a :: q) → hostkey_count o = zlen (l1 ++ key :: p ++ a :: q) →
  a ≠ key → key ∉ l1 → a ∉ l1 → a ∉ p →
  wpx F (mov_end (zlen l1) (zlen l1 + 1 + zlen p) o)
    (λ r w', moved (l1 ++ key :: p ++ a :: q) key (Some a) o r ∧ w' = w) w.
Proof.
  intros H1 H2 N Nk N1 Np. pose proof (zlen_nonneg l1). pose proof (zlen_nonneg p). unfold mov_end.
  replace (zlen l1 =? zlen l1 + 1 + zlen p) with false by lia.
  replace (zlen l1 =? zlen l1 + 1 + zlen p + 1) with false by lia. cbn [orb].
  apply (wpx_mov_down F l1 key (p ++ [a]) q); [by destruct p| |done|autorewrite with nc; unfold zlen; simpl; lia|].
  { rewrite H1. by rewrite <- (app_assoc p). }
  split; [|done]. unfold moved. rewrite decide_True.
  - rewrite H2. simpl. rewrite decide_False by done.
    rewrite remove_key_app by done. rewrite (app_assoc l1 p), insert_after_app; [by rewrite <- !app_assoc|].
    rewrite elem_of_app. tauto.
  - simpl. rewrite !elem_of_app, !elem_of_cons, !elem_of_app, !elem_of_cons. auto 10.
Qed.

Lemma wpx_mov_hostkey F l key after o (w : W) :
  hostkeys o = lives junk l → hostkey_count o = zlen l →
  wpx F (nc_server_ssh_mov_hostkey (Some key) after o) (λ r w', moved l key after o r ∧ w' = w) w.
Proof.
  intros H1 H2. unfold nc_server_ssh_mov_hostkey. apply wpx_bind. rewrite H1, H2.
  unfold zlen at 1. rewrite Nat2Z.id.
  pose proof (wpx_mov_find (W:=W) junk F l key after (length l) 0) as Hf. rewrite take_0 in Hf.
  replace (match after with Some a => idx_of a [] | None => -1 end) with (-1) in Hf by (by destruct after).
  apply Hf; [done|]. clear Hf. destruct (decide (key ∈ l ∧ default key after ∈ l)) as [[Hk Ha]|Hn]; last first.
  { assert (moved l key after o (-1, o)) as Hm by (unfold moved; by rewrite decide_False).
    destruct (decide (key ∈ l)) as [Hk|Hk].
    - destruct after as [a|]; [|by destruct Hn]. rewrite (idx_of_None a l); [by apply wpx_ret|]. by intros ?; apply Hn.
    - rewrite (idx_of_None _ _ Hk). destruct (_ && _); by apply wpx_ret. }
  destruct (idx_of_split key l Hk) as (l1 & l2 & -> & N1 & ->). pose proof (zlen_nonneg l1).
  replace (zlen l1 =? -1) with false by lia. destruct after as [a|]; cbn [andb]; simpl in Ha.
  - pose proof (idx_of_ge _ _ Ha). replace (idx_of a _ =? -1) with false by lia.
    destruct (decide (a = key)) as [->|N].
    { rewrite idx_of_app, Z.eqb_refl by done. apply wpx_ret. split; [|done]. apply moved_id; try done.
      simpl. by rewrite decide_True. }
    destruct (idx_of_other a key l1 l2 N Ha) as [(p & q & -> & Np & ->)|(p & q & N2 & -> & Np & ->)].
    + rewrite <- app_assoc in H1, H2 |- *. simpl in *. by apply mov_end_back.
    + by apply mov_end_forth.
  - by apply mov_end_front.
Qed.
End mov_theorem.

(** The settings other than the host keys. *)
Definition same_auth (o o' : nc_server_ssh_opts) : Prop :=
  auth_methods o' = auth_methods o ∧ auth_attempts o' = auth_attempts o ∧ auth_timeout o' = auth_timeout o.

Lemma mov_hostkey_ok {W} `{!Env W} F l key after o (w : W) :
  holds (hostkeys o) (hostkey_count o) l →
  wpx F (nc_server_ssh_mov_hostkey (Some key) after o) (λ '(r, o') w', w' = w ∧ same_auth o o' ∧
    if decide (key ∈ l ∧ default key after ∈ l)
    then r = 0 ∧ holds (hostkeys o') (hostkey_count o') (move_key key after l) else r = -1 ∧ o' = o) w.
Proof.
  intros [Hc [[-> Ha]|[junk Ha]]].
  - unfold nc_server_ssh_mov_hostkey. rewrite Hc. apply wpx_bind, wpx_ret.
    assert (¬ (key ∈ @nil bytes ∧ default key after ∈ @nil bytes)) by (by intros [?%elem_of_nil _]).
    destruct after; apply wpx_ret; do 2 (split; [done|]); by rewrite decide_False.
  - eapply wpx_mono; [by apply (wpx_mov_hostkey junk)|]. intros [r o'] w' [Hm ->]. split; [done|]. unfold moved in Hm.
    destruct (decide _) as [[H1 H2]|]; [|by injection Hm as -> ->]. injection Hm as -> ->. split; [done|]. split; [done|].
    split; [|eauto]. cbn. unfold zlen. by rewrite move_key_length.
Qed.

(** Moving a host key is the operation on lists: when both keys are there, the
    key is taken out and put right behind the other one, or to the front, and no
    other key moves; otherwise the function fails and nothing changes.  It never
    accesses the array out of bounds. *)
Theorem mov_hostkey_list {W} `{!Env W} l key after o (w : W) :
  holds (hostkeys o) (hostkey_count o) l →
  ∃ r o', nc_server_ssh_mov_hostkey (Some key) after o w = Done ((r, o'), w) ∧ same_auth o o' ∧
    if decide (key ∈ l ∧ default key after ∈ l)
    then r = 0 ∧ holds (hostkeys o') (hostkey_count o') (move_key key after l) else r = -1 ∧ o' = o.
Proof.
  intros H. destruct (proj1 (wp_total _ _ _) (mov_hostkey_ok False l key after o w H)) as ([r o'] & ? & E & -> & H').
  eauto.
Qed.

Lemma mov_hostkey_list_witness :
  ∃ r o', nc_server_ssh_mov_hostkey (Some (str "d")) (Some (str "a"))
      (SshOpts (lives [CUndef] [str "a"; str "b"; str "c"; str "d"]) 4 3 3 30) (Sim (m0:=true) (up:=true) [] [] 0) =
    Done ((r, o'), Sim [] [] 0) ∧ r = 0 ∧
    holds (hostkeys o') (hostkey_count o') [str "a"; str "d"; str "b"; str "c"].
Proof.
  destruct (mov_hostkey_list [str "a"; str "b"; str "c"; str "d"] (str "d") (Some (str "a"))
    (SshOpts (lives [CUndef] [str "a"; str "b"; str "c"; str "d"]) 4 3 3 30) (Sim (m0:=true) (up:=true) [] [] 0))
    as (r & o' & E & _ & H).
  - split; [reflexivity|]. right. exists [CUndef]. reflexivity.
  - exists r, o'. split; [exact E|]. exact H.
Defined.
