(* ===== verification/TlsOpts.v ===== *)
(** * Options of TLS endpoints

    src/session_server_tls.c: the certificates, lists of trusted certificates,
    paths and cert-to-name entries of an endpoint ([struct nc_server_tls_opts]).
    The list of cert-to-name entries, which the C code links by [next], is a list
    of its entries. *)

From S2P Require Import Prelude Session Env Capabilities PtrArray SshOpts.
From Stdlib Require Import ZArith Ascii String Lia.
From stdpp Require Import base list strings gmap numbers.
Open Scope Z_scope.

Inductive NC_TLS_CTN_MAPTYPE :=
| NC_TLS_CTN_UNKNOWN
| NC_TLS_CTN_SPECIFIED
| NC_TLS_CTN_SAN_RFC822_NAME
| NC_TLS_CTN_SAN_DNS_NAME
| NC_TLS_CTN_SAN_IP_ADDRESS
| NC_TLS_CTN_SAN_ANY
| NC_TLS_CTN_COMMON_NAME.

#[export] Instance NC_TLS_CTN_MAPTYPE_eq_dec : EqDecision NC_TLS_CTN_MAPTYPE.
Proof. solve_decision. Defined.

Record nc_ctn := Ctn {
  ctn_id : Z;
  ctn_fingerprint : option bytes;
  ctn_map_type : NC_TLS_CTN_MAPTYPE;
  ctn_name : option bytes;
}.

#[export] Instance nc_ctn_eq_dec : EqDecision nc_ctn.
Proof. solve_decision. Defined.

(** The revocation lists an X509 store was told to look up. *)
Inductive crl_source := CrlFile (path : bytes) | CrlDir (path : bytes).

Record nc_server_tls_opts := TlsOpts {
  server_cert : option bytes;
  trusted_cert_lists : ptrs;
  trusted_cert_list_count : Z;
  trusted_ca_file : option bytes;
  trusted_ca_dir : option bytes;
  crl_store : option (list crl_source);
  ctn : list nc_ctn;
}.

(** [calloc] *)
Definition new_tls_opts : nc_server_tls_opts := TlsOpts None None 0 None None None [].

Definition set_server_cert (x : option bytes) (o : nc_server_tls_opts) : nc_server_tls_opts :=
  TlsOpts x (trusted_cert_lists o) (trusted_cert_list_count o) (trusted_ca_file o) (trusted_ca_dir o) (crl_store o)
    (ctn o).
Definition set_trusted_lists (a : ptrs) (n : Z) (o : nc_server_tls_opts) : nc_server_tls_opts :=
  TlsOpts (server_cert o) a n (trusted_ca_file o) (trusted_ca_dir o) (crl_store o) (ctn o).
Definition set_ca_paths (file dir : option bytes) (o : nc_server_tls_opts) : nc_server_tls_opts :=
  TlsOpts (server_cert o) (trusted_cert_lists o) (trusted_cert_list_count o) file dir (crl_store o) (ctn o).
Definition set_crl_store (x : option (list crl_source)) (o : nc_server_tls_opts) : nc_server_tls_opts :=
  TlsOpts (server_cert o) (trusted_cert_lists o) (trusted_cert_list_count o) (trusted_ca_file o) (trusted_ca_dir o) x
    (ctn o).
Definition set_ctn (x : list nc_ctn) (o : nc_server_tls_opts) : nc_server_tls_opts :=
  TlsOpts (server_cert o) (trusted_cert_lists o) (trusted_cert_list_count o) (trusted_ca_file o) (trusted_ca_dir o)
    (crl_store o) x.

(** OpenSSL: whether a revocation list could be added to the store. *)
Class CrlEnv (W : Type) := {
  X509_LOOKUP_load_file : bytes → W → bool * W;
  X509_LOOKUP_add_dir : bytes → W → bool * W;
}.

Section tls.
Context {W : Type} `{!Env W}.

Definition nc_server_tls_set_server_cert (name : option bytes) (o : nc_server_tls_opts) : M W (Z * nc_server_tls_opts) :=
  match name with
  | None => mret (0, set_server_cert None o)
  | Some name => s ← strdup name; mret (0, set_server_cert s o)
  end.

(** ** Lists of trusted certificates *)

Definition nc_server_tls_add_trusted_cert_list (name : option bytes) (o : nc_server_tls_opts)
    : M W (Z * nc_server_tls_opts) :=
  match name with
  | None => mret (-1, o)
  | Some name =>
    let count := u16 (trusted_cert_list_count o + 1) in
    ok ← call (malloc_ok (count * PTR));
    if negb ok then mret (-1, set_trusted_lists None count o)
    else
      s ← strdup name;
      a ← store (resized (trusted_cert_lists o) count) (count - 1) (cell_of s);
      mret (0, set_trusted_lists a count o)
  end.

Definition nc_server_tls_del_trusted_cert_list (name : option bytes) (o : nc_server_tls_opts)
    : M W (Z * nc_server_tls_opts) :=
  match name with
  | None =>
    _ ← free_from (Z.to_nat (trusted_cert_list_count o)) (trusted_cert_lists o) 0;
    mret (0, set_trusted_lists None 0 o)
  | Some name =>
    found ← find_from (Z.to_nat (trusted_cert_list_count o)) (trusted_cert_lists o) 0 name;
    match found with
    | None => mret (-1, o)
    | Some i =>
      let count := u16 (trusted_cert_list_count o - 1) in
      a ← close_gap (trusted_cert_lists o) i count;
      mret (0, set_trusted_lists a count o)
    end
  end.

Definition nc_server_tls_set_trusted_ca_paths (ca_file ca_dir : option bytes) (o : nc_server_tls_opts)
    : M W (Z * nc_server_tls_opts) :=
  match ca_file, ca_dir with
  | None, None => mret (-1, o)
  | _, _ =>
    f ← match ca_file with Some p => strdup p | None => mret (trusted_ca_file o) end;
    d ← match ca_dir with Some p => strdup p | None => mret (trusted_ca_dir o) end;
    mret (0, set_ca_paths f d o)
  end.

(** ** Revocation lists *)

Context `{!CrlEnv W}.

(** One source; without a store, [X509_STORE_add_lookup] has none to work on. *)
Definition add_crl (path : option bytes) (src : bytes → crl_source) (add : bytes → W → bool * W)
    (store : option (list crl_source)) : M W (bool * option (list crl_source)) :=
  match path with
  | None => mret (true, store)
  | Some p =>
    match store with
    | None => crash
    | Some l => ok ← call (add p); mret (ok, Some (if ok : bool then l ++ [src p] else l))
    end
  end.

Definition nc_server_tls_set_crl_paths (crl_file crl_dir : option bytes) (o : nc_server_tls_opts)
    : M W (Z * nc_server_tls_opts) :=
  match crl_file, crl_dir with
  | None, None => mret (-1, o)
  | _, _ =>
    store ← match crl_store o with
            | Some l => mret (Some l)
            | None => ok ← call (malloc_ok 1); mret (if ok : bool then Some [] else None)
            end;
    '(ok, store) ← add_crl crl_file CrlFile X509_LOOKUP_load_file store;
    if negb ok then mret (-1, set_crl_store store o)
    else
      '(ok, store) ← add_crl crl_dir CrlDir X509_LOOKUP_add_dir store;
      mret (if ok : bool then 0 else -1, set_crl_store store o)
  end.

Definition nc_server_tls_clear_crls (o : nc_server_tls_opts) : nc_server_tls_opts := set_crl_store None o.

(** ** Cert-to-name entries *)

(** [calloc] *)
Definition zero_ctn : nc_ctn := Ctn 0 None NC_TLS_CTN_UNKNOWN None.

(** The arguments that are given replace the fields of an entry. *)
Definition fill_ctn (id : Z) (fingerprint : option bytes) (map_type : NC_TLS_CTN_MAPTYPE) (name : option bytes)
    (c : nc_ctn) : M W nc_ctn :=
  f ← match fingerprint with Some f => strdup f | None => mret (ctn_fingerprint c) end;
  n ← match name with Some n => strdup n | None => mret (ctn_name c) end;
  mret (Ctn id f (if decide (map_type = NC_TLS_CTN_UNKNOWN) then ctn_map_type c else map_type) n).

(** The [for] loop: the entries before the current one, it, and those after it. *)
Fixpoint walk_ctn (id : Z) (pre : list nc_ctn) (cur : nc_ctn) (next : list nc_ctn)
    : list nc_ctn * nc_ctn * list nc_ctn :=
  match next with
  | n :: next' => if ctn_id n <=? id then walk_ctn id (pre ++ [cur]) n next' else (pre, cur, next)
  | [] => (pre, cur, [])
  end.

Definition nc_server_tls_add_ctn (id : Z) (fingerprint : option bytes) (map_type : NC_TLS_CTN_MAPTYPE)
    (name : option bytes) (o : nc_server_tls_opts) : M W (Z * nc_server_tls_opts) :=
  let insert pre post :=
    ok ← call (malloc_ok 40);
    if negb ok then mret (-1, o)
    else c ← fill_ctn id fingerprint map_type name zero_ctn; mret (0, set_ctn (pre ++ c :: post) o) in
  match ctn o with
  | [] => insert [] []
  | c :: l =>
    if id <? ctn_id c then insert [] (c :: l)
    else
      let '(pre, cur, post) := walk_ctn id [] c l in
      if ctn_id cur =? id
      then c ← fill_ctn id fingerprint map_type name cur; mret (0, set_ctn (pre ++ c :: post) o)
      else insert (pre ++ [cur]) post
  end.

(** Whether an entry is to be deleted; [strcmp] on a [NULL] fingerprint is undefined. *)
Definition ctn_selected (id : Z) (fingerprint : option bytes) (map_type : NC_TLS_CTN_MAPTYPE) (name : option bytes)
    (c : nc_ctn) : M W bool :=
  if negb (id <? 0) && negb (ctn_id c =? id) then mret false
  else
    b ← match fingerprint, ctn_fingerprint c with
        | None, _ => mret true
        | Some _, None => crash
        | Some f, Some g => mret (strcmp_eq g f)
        end;
    mret (b && (bool_decide (map_type = NC_TLS_CTN_UNKNOWN) || bool_decide (ctn_map_type c = map_type)) &&
          match name with None => true | Some n => bool_decide (ctn_name c = Some n) end).

(** The entries kept, and whether one was deleted. *)
Fixpoint del_ctn (id : Z) (fingerprint : option bytes) (map_type : NC_TLS_CTN_MAPTYPE) (name : option bytes)
    (l : list nc_ctn) : M W (bool * list nc_ctn) :=
  match l with
  | [] => mret (false, [])
  | c :: l =>
    b ← ctn_selected id fingerprint map_type name c;
    '(d, l) ← del_ctn id fingerprint map_type name l;
    mret (if b : bool then (true, l) else (d, c :: l))
  end.

Definition nc_server_tls_del_ctn (id : Z) (fingerprint : option bytes) (map_type : NC_TLS_CTN_MAPTYPE)
    (name : option bytes) (o : nc_server_tls_opts) : M W (Z * nc_server_tls_opts) :=
  if (id <? 0) && bool_decide (fingerprint = None) && bool_decide (map_type = NC_TLS_CTN_UNKNOWN) &&
     bool_decide (name = None)
  then mret (match ctn o with [] => -1 | _ => 0 end, set_ctn [] o)
  else
    '(d, l) ← del_ctn id fingerprint map_type name (ctn o);
    mret (if d : bool then 0 else -1, set_ctn l o).

(** The arguments of [nc_server_tls_get_ctn], each [None] for a [NULL] pointer and
    otherwise what it points to. *)
Record ctn_query := CtnQuery {
  q_id : option Z;
  q_fingerprint : option (option bytes);
  q_map_type : option NC_TLS_CTN_MAPTYPE;
  q_name : option (option bytes);
}.

Definition query_matches (q : ctn_query) (c : nc_ctn) : bool :=
  match q_id q with Some id => (id =? 0) || (id =? ctn_id c) | None => true end &&
  match q_fingerprint q with Some (Some f) => bool_decide (ctn_fingerprint c = Some f) | _ => true end &&
  match q_map_type q with
  | Some t => bool_decide (t = NC_TLS_CTN_UNKNOWN) ||
              (negb (bool_decide (ctn_map_type c = NC_TLS_CTN_UNKNOWN)) && bool_decide (t = ctn_map_type c))
  | None => true
  end &&
  match q_name q with Some (Some n) => bool_decide (ctn_name c = Some n) | _ => true end.

(** A string that is asked for, [NULL] if the entry has none. *)
Definition query_copy (arg : option (option bytes)) (field : option bytes) : M W (option (option bytes)) :=
  match arg, field with
  | Some None, Some s => d ← strdup s; mret (Some d)
  | _, _ => mret arg
  end.

(** The arguments that are not set are filled in. *)
Definition query_fill (q : ctn_query) (c : nc_ctn) : M W ctn_query :=
  f ← query_copy (q_fingerprint q) (ctn_fingerprint c);
  n ← query_copy (q_name q) (ctn_name c);
  mret (CtnQuery (match q_id q with Some 0 => Some (ctn_id c) | x => x end) f
          (match q_map_type q with Some NC_TLS_CTN_UNKNOWN => Some (ctn_map_type c) | x => x end) n).

Fixpoint get_ctn (q : ctn_query) (l : list nc_ctn) : M W (Z * ctn_query) :=
  match l with
  | [] => mret (-1, q)
  | c :: l => if query_matches q c then q ← query_fill q c; mret (0, q) else get_ctn q l
  end.

Definition nc_server_tls_get_ctn (q : ctn_query) (o : nc_server_tls_opts) : M W (Z * ctn_query) := get_ctn q (ctn o).

Definition nc_server_tls_clear_opts (o : nc_server_tls_opts) : M W nc_server_tls_opts :=
  '(_, o) ← nc_server_tls_del_trusted_cert_list None (set_server_cert None o);
  '(_, o) ← nc_server_tls_del_ctn (-1) None NC_TLS_CTN_UNKNOWN None (nc_server_tls_clear_crls (set_ca_paths None None o));
  mret o.
End tls.
