(* ===== verification/TlsOptsProofs.v ===== *)
(** * Names and cert-to-name entries as lists and maps

    Deleting from the arrays of host keys and of trusted certificate lists, and
    the cert-to-name entries as a finite map ordered by id. *)

From S2P Require Import Prelude Session Env Sim Capabilities PtrArray SshOpts SshOptsProofs TlsOpts.
From Stdlib Require Import ZArith Ascii String Lia Sorting.Sorted.
From stdpp Require Import base list strings gmap numbers.
Open Scope Z_scope.

(** ** Deleting a slot *)

Lemma wpx_close_gap {S} F junk l1 s l2 count (Q : ptrs → S → Prop) st :
  count = zlen l1 + zlen l2 →
  (∀ j, length l2 ≠ 1%nat → Q (lives j (l1 ++ l2)) st) →
  (∀ x, l2 = [x] → Q (Some (map CLive l1 ++ CFreed :: CLive x :: junk)) st) →
  wpx F (close_gap (lives junk (l1 ++ s :: l2)) (zlen l1) count) Q st.
Proof.
  intros -> H1 H2. unfold close_gap, lives in *. flat. apply wpx_bind, wpx_free_slot; [by rewrite zlen_map|].
  destruct l2 as [|x [|y l2]].
  - rewrite (proj2 (Z.ltb_ge _ _)) by (unfold zlen; simpl; lia). apply wpx_ret.
    specialize (H1 (CFreed :: junk)). rewrite app_nil_r in H1. by apply H1.
  - rewrite (proj2 (Z.ltb_ge _ _)) by (unfold zlen; simpl; lia). apply wpx_ret. by apply H2.
  - set (m := x :: y :: l2) in *. assert (Hm : zlen m = 2 + zlen l2) by (unfold m; rewrite !zlen_cons; lia).
    pose proof (zlen_nonneg l2). replace (_ <? _) with true by lia.
    apply wpx_shift_down; [by rewrite zlen_map|by rewrite zlen_map|rewrite zlen_map; f_equal; lia| |done].
    intros z m' _. specialize (H1 (z :: junk)). flat_in H1. by apply H1.
Qed.

(** A name that is the last but one of a list. *)
Definition before_last (name : bytes) (l : list bytes) : Prop := ∃ l1 x, l = l1 ++ [name; x] ∧ name ∉ l1.

(** Two splittings of a list at the first occurrence of a name agree. *)
Lemma first_split_eq {A} (x : A) l1 l2 l1' l2' :
  l1 ++ x :: l2 = l1' ++ x :: l2' → x ∉ l1 → x ∉ l1' → l1 = l1' ∧ l2 = l2'.
Proof.
  revert l1'. induction l1 as [|y l1 IH]; intros [|y' l1'] E N N'; simpl in *.
  - by injection E as ->.
  - injection E as -> E. by destruct N'; left.
  - injection E as -> E. by destruct N; left.
  - injection E as -> E. apply not_elem_of_cons in N as [_ N], N' as [_ N']. by destruct (IH _ E N N') as [-> ->].
Qed.

(** ** Host keys and lists of trusted certificates *)

Section names.
Context {W : Type} `{!Env W}.

Lemma holds_lives junk l : holds (lives junk l) (zlen l) l.
Proof. split; [done|]. right. eauto. Qed.

(** What is left when the last but one is deleted. *)
Definition dangling (a : ptrs) (name : bytes) (l : list bytes) : Prop :=
  ∃ l1 x junk, l = l1 ++ [name; x] ∧ name ∉ l1 ∧ a = Some (map CLive l1 ++ CFreed :: CLive x :: junk).

Lemma del_name_ok F a count l name (w : W) (Q : option Z → W → Prop) :
  holds a count l →
  (name ∉ l → Q None w) →
  (∀ l1 l2, l = l1 ++ name :: l2 → name ∉ l1 → Q (Some (zlen l1)) w) →
  wpx F (find_from (Z.to_nat count) a 0 name) Q w.
Proof.
  intros Hh H1 H2. eapply wpx_find_all; [done|]. intros [i|] Hr; simpl in Hr; [|by apply H1].
  destruct Hr as (l1 & l2 & E & N & ->). by eapply H2.
Qed.

(** What deleting a name from an array leaves behind. *)
Definition deleted (l : list bytes) (name : bytes) (a : ptrs) (count : Z) : Prop :=
  count = zlen l - 1 ∧ (before_last name l → dangling a name l) ∧
  (¬ before_last name l → holds a count (remove_key name l)).

Lemma close_gap_ok F a count l1 name l2 (w : W) (Q : ptrs → W → Prop) :
  holds a count (l1 ++ name :: l2) → name ∉ l1 →
  (∀ a', deleted (l1 ++ name :: l2) name a' (count - 1) → Q a' w) →
  wpx F (close_gap a (zlen l1) (count - 1)) Q w.
Proof.
  intros [-> [[? _]|[junk ->]]] N HQ; [by destruct l1|].
  eapply wpx_close_gap; [autorewrite with nc; lia| |].
  - intros j Hj. apply HQ. split; [done|]. split; intros Hb.
    + destruct Hb as (l1' & x & E & N'). destruct Hj. by destruct (first_split_eq _ _ _ _ _ E N N') as [_ ->].
    + rewrite remove_key_app by done. split; [autorewrite with nc; lia|]. right. eauto.
  - intros x ->. apply HQ. split; [done|]. split; intros Hb; [by exists l1, x, junk|]. destruct Hb. by exists l1, x.
Qed.

Lemma deleted_none l name a : deleted l name a 0 → deleted l name None 0.
Proof.
  intros (Hc & H1 & H2). split; [done|]. split; intros Hb.
  - destruct Hb as (l1 & x & -> & _). revert Hc. rewrite zlen_app. change (zlen [name; x]) with 2. pose proof (zlen_nonneg l1). lia.
  - destruct (H2 Hb) as [Hz _]. split; [done|]. left. split; [|done]. symmetry in Hz. by apply zlen_nil_inv.
Qed.

Lemma del_hostkey_ok F l name o (w : W) :
  holds (hostkeys o) (hostkey_count o) l → zlen l < 256 →
  wpx F (nc_server_ssh_del_hostkey (Some name) (-1) o) (λ '(r, o') w', w' = w ∧ same_auth o o' ∧
    if decide (name ∈ l) then r = 0 ∧ deleted l name (hostkeys o') (hostkey_count o') else r = -1 ∧ o' = o) w.
Proof.
  intros Hh Hl. unfold nc_server_ssh_del_hostkey. cbn [Z.ltb Z.compare]. apply wpx_bind.
  eapply del_name_ok; [done|..].
  - intros N. apply wpx_ret. do 2 (split; [done|]). by rewrite decide_False.
  - intros l1 l2 -> N. unfold remove_idx. apply wpx_bind.
    pose proof (proj1 Hh) as Hc. autorewrite with nc in Hl, Hc. pose proof (zlen_nonneg l1). pose proof (zlen_nonneg l2).
    rewrite (u8_small (_ - 1)) by lia. eapply close_gap_ok; [done..|]. intros a' Ha. apply wpx_ret.
    split; [done|]. split; [done|]. rewrite decide_True by (rewrite elem_of_app, elem_of_cons; auto).
    split; [done|]. cbn [hostkey_count set_hostkeys hostkeys].
    destruct (Z.eqb_spec (hostkey_count o - 1) 0) as [E|]; [|done]. rewrite E in *. by eapply deleted_none.
Qed.

Lemma del_trusted_ok F l name o (w : W) :
  holds (trusted_cert_lists o) (trusted_cert_list_count o) l → zlen l < 65536 →
  wpx F (nc_server_tls_del_trusted_cert_list (Some name) o) (λ '(r, o') w', w' = w ∧ ctn o' = ctn o ∧
    if decide (name ∈ l) then r = 0 ∧ deleted l name (trusted_cert_lists o') (trusted_cert_list_count o')
    else r = -1 ∧ o' = o) w.
Proof.
  intros Hh Hl. unfold nc_server_tls_del_trusted_cert_list. apply wpx_bind. eapply del_name_ok; [done|..].
  - intros N. apply wpx_ret. do 2 (split; [done|]). by rewrite decide_False.
  - intros l1 l2 -> N. apply wpx_bind.
    pose proof (proj1 Hh) as Hc. autorewrite with nc in Hl, Hc. pose proof (zlen_nonneg l1). pose proof (zlen_nonneg l2).
    rewrite (u16_small (_ - 1)) by lia. eapply close_gap_ok; [done..|]. intros a' Ha. apply wpx_ret.
    split; [done|]. split; [done|]. rewrite decide_True by (rewrite elem_of_app, elem_of_cons; auto). done.
Qed.

(** Looking for a name behind a dangling pointer. *)
Lemma find_dangling l1 junk name (k n : nat) (w : W) :
  (k ≤ length l1)%nat → (length l1 < k + n)%nat → name ∉ l1 →
  find_from n (Some (map CLive l1 ++ CFreed :: junk)) (Z.of_nat k) name w = Crash.
Proof.
  revert k. induction n as [|n IH]; intros k H1 H2 N; [lia|]. cbn [find_from].
  unfold mbind, M_bind, equal_at, load. rewrite of_nat_ltb_0, Nat2Z.id. destruct (decide (k = length l1)) as [->|].
  - by rewrite list_lookup_middle by (by rewrite length_map).
  - destruct (lookup_lt_is_Some_2 l1 k ltac:(lia)) as [s E].
    rewrite lookup_app_l by (rewrite length_map; lia). rewrite list_lookup_fmap, E. simpl.
    unfold strcmp_eq. rewrite bool_decide_eq_false_2.
    + replace (Z.of_nat k + 1) with (Z.of_nat (k + 1)) by lia. apply IH; [lia..|done].
    + intros ->. by apply N, (list_elem_of_lookup_2 _ k).
Qed.
End names.

(** deleting a host key other than the last but one.  The array of an endpoint
    that holds the keys of a list, in order, holds the list without the key
    afterwards, the settings of the endpoint are kept and nothing out of bounds or
    freed is accessed; a key that is not in the list is refused and nothing
    changes. *)
Theorem del_hostkey_list (W : Type) `{!Env W} l name o (w : W) :
  holds (hostkeys o) (hostkey_count o) l → zlen l < 256 → ¬ before_last name l →
  ∃ r o', nc_server_ssh_del_hostkey (Some name) (-1) o w = Done ((r, o'), w) ∧ same_auth o o' ∧
    if decide (name ∈ l) then r = 0 ∧ holds (hostkeys o') (hostkey_count o') (remove_key name l) else r = -1 ∧ o' = o.
Proof.
  intros Hh Hl Hb. pose proof (del_hostkey_ok False l name o w Hh Hl) as H.
  apply wp_total in H as ([r o'] & w' & E & -> & Hs & H). exists r, o'. split; [done|]. split; [done|].
  destruct (decide (name ∈ l)); [|done]. destruct H as (-> & _ & _ & H). auto.
Qed.

Lemma del_hostkey_list_witness :
  ∃ r o', nc_server_ssh_del_hostkey (Some (str "b")) (-1) (SshOpts (lives [] [str "a"; str "b"; str "c"; str "d"]) 4 1 2 3)
    (Sim (m0 := true) (up := true) [] [] 0) = Done ((r, o'), Sim [] [] 0) ∧
    r = 0 ∧ holds (hostkeys o') (hostkey_count o') [str "a"; str "c"; str "d"].
Proof.
  destruct (del_hostkey_list (sim true true) [str "a"; str "b"; str "c"; str "d"] (str "b")
    (SshOpts (lives [] [str "a"; str "b"; str "c"; str "d"]) 4 1 2 3) (Sim [] [] 0)) as (r & o' & E & _ & H).
  - apply holds_lives.
  - done.
  - intros ([|? [|? [|? [|? [|? ?]]]]] & x & E & _); vm_compute in E; discriminate E.
  - exists r, o'. split; [exact E|]. exact H.
Defined.

(** deleting the last host key but one leaves a freed key in the array and
    drops the last key instead: the next search of the array for a key that is not
    before it reads freed memory. *)
Theorem del_hostkey_use_after_free (W : Type) `{!Env W} l name x next o (w : W) :
  holds (hostkeys o) (hostkey_count o) (l ++ [name; x]) → zlen l < 254 → name ∉ l → next ∉ l →
  ∃ o', nc_server_ssh_del_hostkey (Some name) (-1) o w = Done ((0, o'), w) ∧
    hostkey_count o' = zlen l + 1 ∧ nc_server_ssh_del_hostkey (Some next) (-1) o' w = Crash.
Proof.
  intros Hh Hl N N'. pose proof (del_hostkey_ok False (l ++ [name; x]) name o w Hh) as H.
  apply wp_total in H as ([r o'] & w' & E & -> & _ & H); [|rewrite zlen_app; change (zlen [name; x]) with 2; lia].
  rewrite decide_True in H by (rewrite elem_of_app, elem_of_cons; auto). destruct H as (-> & Hc & H & _).
  destruct H as (l1 & x' & junk & El & N1 & Ha); [by exists l, x|].
  apply first_split_eq in El as [<- [= <-]]; [|done..].
  exists o'. split; [done|]. assert (Hz : hostkey_count o' = zlen l + 1) by (rewrite Hc, zlen_app; change (zlen [name; x]) with 2; lia).
  split; [done|]. unfold nc_server_ssh_del_hostkey. cbn [Z.ltb Z.compare]. unfold mbind, M_bind. rewrite Ha.
  rewrite (proj2 (Z.ltb_ge _ _)) by done. change 0 with (Z.of_nat 0) at 1. rewrite (find_dangling l (CLive x :: junk) next 0); [done|lia| |done]. rewrite Hz. unfold zlen. lia.
Qed.

Lemma del_hostkey_use_after_free_witness :
  ∃ o', nc_server_ssh_del_hostkey (Some (str "a")) (-1) (SshOpts (lives [] [str "a"; str "b"]) 2 1 2 3)
    (Sim (m0 := true) (up := true) [] [] 0) = Done ((0, o'), Sim [] [] 0) ∧
    hostkey_count o' = 1 ∧ nc_server_ssh_del_hostkey (Some (str "b")) (-1) o' (Sim (m0 := true) (up := true) [] [] 0) = Crash.
Proof.
  apply (del_hostkey_use_after_free (sim true true) [] (str "a") (str "b") (str "b")).
  - apply holds_lives.
  - done.
  - apply not_elem_of_nil.
  - apply not_elem_of_nil.
Defined.

(** ** Cert-to-name entries as a map

    The cert-to-name entries of a TLS endpoint (src/session_server_tls.c) are kept
    ordered by id; as a finite map from ids to entries, adding an entry is an
    insertion, deleting entries is a filter, and a query answers with the matching
    entry of the lowest id. *)

(** ** The order and the map *)

Definition ctn_sorted (l : list nc_ctn) : Prop := StronglySorted Z.lt (ctn_id <$> l).

Definition ctn_map (l : list nc_ctn) : gmap Z nc_ctn := keyed_map ctn_id l.

Lemma sorted_app_iff {A} (R : A → A → Prop) l k :
  StronglySorted R (l ++ k) ↔ StronglySorted R l ∧ StronglySorted R k ∧ ∀ x y, x ∈ l → y ∈ k → R x y.
Proof.
  induction l as [|x l IH]; simpl.
  - split; [|tauto]. intros H. repeat split; [constructor|done|]. by intros ? ? ?%not_elem_of_nil.
  - split.
    + intros [H1 H2]%StronglySorted_inv. apply IH in H1 as (H1 & H3 & H4). apply Forall_app in H2 as [H2 H5].
      repeat split; [by constructor|done|]. rewrite list.Forall_forall in H5.
      intros a b [->|Ha]%elem_of_cons Hb; auto.
    + intros ([H1 H2]%StronglySorted_inv & H3 & H4). constructor.
      * apply IH. repeat split; [done..|]. intros a b Ha. apply H4. by right.
      * apply Forall_app. split; [done|]. apply list.Forall_forall. intros b. apply H4. by left.
Qed.

(** The ids before and behind an entry. *)
Lemma ctn_sorted_app l k :
  ctn_sorted (l ++ k) ↔ ctn_sorted l ∧ ctn_sorted k ∧ ∀ x y, x ∈ l → y ∈ k → ctn_id x < ctn_id y.
Proof.
  unfold ctn_sorted. rewrite fmap_app, sorted_app_iff. split; intros (H1 & H2 & H3); repeat split; try done.
  - intros x y Hx Hy. apply H3; by apply list_elem_of_fmap_2.
  - intros i j (x & -> & Hx)%list_elem_of_fmap (y & -> & Hy)%list_elem_of_fmap. auto.
Qed.

Lemma ctn_sorted_cons c l :
  ctn_sorted (c :: l) ↔ ctn_sorted l ∧ ∀ y, y ∈ l → ctn_id c < ctn_id y.
Proof.
  rewrite (ctn_sorted_app [c] l). split; intros H.
  - destruct H as (_ & H1 & H2). split; [done|]. intros y. apply H2. by left.
  - destruct H as [H1 H2]. repeat split; [repeat constructor|done|]. by intros x y ->%list_elem_of_singleton ?%H2.
Qed.

Lemma ctn_sorted_nodup l : ctn_sorted l → NoDup (ctn_id <$> l).
Proof.
  induction l as [|c l IH]; [constructor|]. intros [H1 H2]%ctn_sorted_cons. rewrite fmap_cons. constructor; [|auto].
  intros (y & E & Hy)%list_elem_of_fmap. apply H2 in Hy. lia.
Qed.

Lemma ctn_map_lookup l i c : ctn_sorted l → ctn_map l !! i = Some c ↔ c ∈ l ∧ ctn_id c = i.
Proof.
  intros Hs. by apply keyed_map_lookup, ctn_sorted_nodup.
Qed.

(** Replacing what a map says of one id. *)
Lemma ctn_map_put l l' c :
  ctn_sorted l → ctn_sorted l' → (∀ x, x ∈ l' ↔ x = c ∨ (x ∈ l ∧ ctn_id x ≠ ctn_id c)) →
  ctn_map l' = <[ctn_id c := c]> (ctn_map l).
Proof.
  intros Hs Hs' H. apply map_eq. intros i. apply option_eq. intros x. rewrite ctn_map_lookup by done.
  destruct (decide (ctn_id c = i)) as [<-|N].
  - rewrite lookup_insert_eq, H. split; [|intros [= ->]; auto]. intros [[->|[_ ?]] ?]; done.
  - rewrite lookup_insert_ne, ctn_map_lookup by done. rewrite H. split; [|intros [? <-]; auto].
    by intros [[->|[? _]] ?].
Qed.

Lemma ctn_map_filter (P : nc_ctn → Prop) `{!∀ c, Decision (P c)} l :
  ctn_sorted l → ctn_map (filter P l) = filter (λ x, P x.2) (ctn_map l) ∧ ctn_sorted (filter P l).
Proof.
  intros Hs. assert (Hf : ctn_sorted (filter P l)).
  { induction l as [|c l IH]; [done|]. apply ctn_sorted_cons in Hs as [H1 H2]. rewrite filter_cons.
    destruct (decide (P c)); [|auto]. apply ctn_sorted_cons. split; [auto|]. intros y [_ ?]%list_elem_of_filter. auto. }
  split; [|done]. apply map_eq. intros i. apply option_eq. intros x.
  rewrite ctn_map_lookup, map_lookup_filter_Some, ctn_map_lookup, list_elem_of_filter by done. simpl. tauto.
Qed.

(** ** Adding *)

Lemma walk_ctn_spec id pre cur next pre' cur' post :
  walk_ctn id pre cur next = (pre', cur', post) →
  ctn_sorted (pre ++ cur :: next) → ctn_id cur ≤ id →
  pre ++ cur :: next = pre' ++ cur' :: post ∧ ctn_id cur' ≤ id ∧ ∀ y, y ∈ post → id < ctn_id y.
Proof.
  revert pre cur. induction next as [|n next IH]; intros pre cur; simpl.
  - intros [= <- <- <-] _ H. repeat split; [done..|]. by intros ? ?%not_elem_of_nil.
  - destruct (Z.leb_spec (ctn_id n) id) as [Hn|Hn].
    + intros E Hs Hc. apply IH in E; [|by rewrite <- app_assoc|done]. by rewrite <- app_assoc in E.
    + intros [= <- <- <-] Hs H. repeat split; [done..|].
      apply ctn_sorted_app in Hs as (_ & [[_ Hs]%ctn_sorted_cons _]%ctn_sorted_cons & _).
      intros y [->|Hy]%elem_of_cons; [done|]. apply Hs in Hy. lia.
Qed.

(** An argument that is stored, or [NULL] if [strdup] failed. *)
Definition stored {A} (given old new : option A) : Prop :=
  match given with Some x => new = Some x ∨ new = None | None => new = old end.

(** [c'] is the entry [c] with the given arguments replaced. *)
Definition filled (id : Z) (f : option bytes) (t : NC_TLS_CTN_MAPTYPE) (n : option bytes) (c c' : nc_ctn) : Prop :=
  ctn_id c' = id ∧ stored f (ctn_fingerprint c) (ctn_fingerprint c') ∧ stored n (ctn_name c) (ctn_name c') ∧
  ctn_map_type c' = if decide (t = NC_TLS_CTN_UNKNOWN) then ctn_map_type c else t.

Section ctn.
Context {W : Type} `{!Env W}.

Lemma wpx_stored F (given old : option bytes) (w : W) (Q : option bytes → W → Prop) :
  (∀ x w', stored given old x → Q x w') →
  wpx F (match given with Some s => strdup s | None => mret old end) Q w.
Proof.
  intros HQ. destruct given as [s|]; [|by apply HQ]. unfold strdup. apply wpx_bind, wpx_call.
  destruct (malloc_ok _ w) as [ok w']. apply wpx_ret, HQ. destruct ok; simpl; auto.
Qed.

Lemma wpx_fill F id f t n c (w : W) (Q : nc_ctn → W → Prop) :
  (∀ c' w', filled id f t n c c' → Q c' w') → wpx F (fill_ctn id f t n c) Q w.
Proof.
  intros HQ. unfold fill_ctn. apply wpx_bind, wpx_stored. intros x w' Hx. apply wpx_bind, wpx_stored. intros y w'' Hy.
  apply wpx_ret, HQ. done.
Qed.

(** Either nothing changes, or the entry is inserted or replaced. *)
Definition ctn_added (id : Z) (f : option bytes) (t : NC_TLS_CTN_MAPTYPE) (n : option bytes)
    (o : nc_server_tls_opts) (r : Z) (o' : nc_server_tls_opts) : Prop :=
  (r = -1 ∧ o' = o) ∨
  (r = 0 ∧ ctn_sorted (ctn o') ∧ o' = set_ctn (ctn o') o ∧
   ∃ c, filled id f t n (default zero_ctn (ctn_map (ctn o) !! id)) c ∧ ctn_map (ctn o') = <[id := c]> (ctn_map (ctn o))).

(** A new entry between [pre] and [post]. *)
Lemma ctn_put_new pre post c :
  ctn_sorted (pre ++ post) → (∀ x, x ∈ pre → ctn_id x < ctn_id c) → (∀ x, x ∈ post → ctn_id c < ctn_id x) →
  ctn_sorted (pre ++ c :: post) ∧ ctn_map (pre ++ post) !! ctn_id c = None ∧
  ctn_map (pre ++ c :: post) = <[ctn_id c := c]> (ctn_map (pre ++ post)).
Proof.
  intros Hs H1 H2. assert (Hs' : ctn_sorted (pre ++ c :: post)).
  { apply ctn_sorted_app in Hs as (Ha & Hb & Hc). apply ctn_sorted_app. rewrite ctn_sorted_cons.
    repeat split; [done..|]. intros x y Hx [->|Hy]%elem_of_cons; auto. }
  split; [done|]. split.
  - apply eq_None_not_Some. intros [x [Hx E]%ctn_map_lookup]; [|done].
    apply elem_of_app in Hx as [Hx|Hx]; [apply H1 in Hx|apply H2 in Hx]; lia.
  - apply ctn_map_put; [done..|]. intros x. rewrite !elem_of_app, elem_of_cons.
    assert (x ∈ pre ∨ x ∈ post → ctn_id x ≠ ctn_id c) by (intros [Hx|Hx]; [apply H1 in Hx|apply H2 in Hx]; lia). tauto.
Qed.

(** An entry that is replaced by one with the same id. *)
Lemma ctn_put_same pre post c c' :
  ctn_sorted (pre ++ c :: post) → ctn_id c' = ctn_id c →
  ctn_sorted (pre ++ c' :: post) ∧ ctn_map (pre ++ c :: post) !! ctn_id c' = Some c ∧
  ctn_map (pre ++ c' :: post) = <[ctn_id c' := c']> (ctn_map (pre ++ c :: post)).
Proof.
  intros Hs E. assert (Hs' : ctn_sorted (pre ++ c' :: post)).
  { unfold ctn_sorted in *. rewrite fmap_app, fmap_cons in *. by rewrite E. }
  assert (Hne : ∀ x, x ∈ pre ∨ x ∈ post → ctn_id x ≠ ctn_id c).
  { apply ctn_sorted_app in Hs as (_ & [_ Hs]%ctn_sorted_cons & Hp). intros x [Hx|Hx].
    - specialize (Hp x c Hx ltac:(left)). lia.
    - apply Hs in Hx. lia. }
  split; [done|]. split.
  - apply ctn_map_lookup; [done|]. rewrite elem_of_app, elem_of_cons. auto.
  - apply ctn_map_put; [done..|]. intros x. rewrite !elem_of_app, !elem_of_cons, E. specialize (Hne x).
    split; [|intros [->|[[?|[->|?]] ?]]; auto; done]. intros [?|[->|?]]; auto.
Qed.

Lemma add_ctn_ok F id f t n o (w : W) :
  ctn_sorted (ctn o) → wpx F (nc_server_tls_add_ctn id f t n o) (λ '(r, o') _, ctn_added id f t n o r o') w.
Proof.
  intros Hs. unfold nc_server_tls_add_ctn.
  assert (Hins : ∀ pre post, ctn o = pre ++ post →
    (∀ x, x ∈ pre → ctn_id x < id) → (∀ x, x ∈ post → id < ctn_id x) → ∀ w,
    wpx F (ok ← call (malloc_ok 40); if negb ok then mret (-1, o)
           else c ← fill_ctn id f t n zero_ctn; mret (0, set_ctn (pre ++ c :: post) o))
      (λ '(r, o') _, ctn_added id f t n o r o') w).
  { intros pre post E H1 H2 w0. apply wpx_bind, wpx_call. destruct (malloc_ok 40 w0) as [[] w1]; simpl negb; cbv iota.
    - apply wpx_bind, wpx_fill. intros c' w2 Hc. pose proof (proj1 Hc) as <-. apply wpx_ret. right.
      destruct (ctn_put_new pre post c') as (H3 & H4 & H5); rewrite <- ?E; try done.
      split; [done|]. split; [done|]. split; [done|]. exists c'. rewrite <- E in H4. rewrite H4, <- E in *. done.
    - apply wpx_ret. by left. }
  destruct (ctn o) as [|c l] eqn:El.
  - apply (Hins [] []); [done|by intros ? ?%not_elem_of_nil..].
  - destruct (Z.ltb_spec id (ctn_id c)) as [Hi|Hi].
    + apply (Hins [] (c :: l)); [done|by intros ? ?%not_elem_of_nil|]. apply ctn_sorted_cons in Hs as [_ Hs].
      intros x [->|Hx]%elem_of_cons; [done|]. apply Hs in Hx. lia.
    + destruct (walk_ctn id [] c l) as [[pre cur] post] eqn:Ew.
      destruct (walk_ctn_spec _ _ _ _ _ _ _ Ew Hs Hi) as (E & Hc & Hp). simpl in E.
      destruct (Z.eqb_spec (ctn_id cur) id) as [<-|Hn].
      * apply wpx_bind, wpx_fill. intros c' w' Hf. pose proof (proj1 Hf) as Ec. apply wpx_ret. right. rewrite E in *.
        destruct (ctn_put_same pre post cur c' Hs Ec) as (H1 & H2 & H3). cbn [ctn set_ctn]. rewrite El.
        rewrite <- Ec. do 3 (split; [done|]). exists c'. rewrite H2, Ec. split; [done|]. by rewrite <- Ec.
      * apply Hins; [by rewrite E, <- app_assoc| |done]. rewrite E in Hs. apply ctn_sorted_app in Hs as (_ & _ & Hs).
        intros x [Hx| ->%list_elem_of_singleton]%elem_of_app; [|lia]. specialize (Hs x cur Hx ltac:(left)). lia.
Qed.

(** ** Deleting *)

(** What [nc_server_tls_del_ctn] deletes; an argument that is negative,
    [NC_TLS_CTN_UNKNOWN] or [NULL] does not matter. *)
Definition selects (id : Z) (f : option bytes) (t : NC_TLS_CTN_MAPTYPE) (n : option bytes) (c : nc_ctn) : Prop :=
  (id < 0 ∨ ctn_id c = id) ∧ (f = None ∨ ctn_fingerprint c = f) ∧
  (t = NC_TLS_CTN_UNKNOWN ∨ ctn_map_type c = t) ∧ (n = None ∨ ctn_name c = n).

#[export] Instance selects_dec id f t n c : Decision (selects id f t n c).
Proof. unfold selects. apply _. Defined.

(** Every entry that is compared has a fingerprint. *)
Definition comparable (f : option bytes) (l : list nc_ctn) : Prop :=
  f = None ∨ Forall (λ c, is_Some (ctn_fingerprint c)) l.

Lemma wpx_selected F id f t n c (w : W) (Q : bool → W → Prop) :
  f = None ∨ is_Some (ctn_fingerprint c) → Q (bool_decide (selects id f t n c)) w →
  wpx F (ctn_selected id f t n c) Q w.
Proof.
  intros Hf HQ. unfold ctn_selected. destruct (negb (id <? 0) && negb (ctn_id c =? id)) eqn:E.
  - apply wpx_ret. rewrite bool_decide_eq_false_2 in HQ; [done|]. intros [H _]. lia.
  - assert (Hi : id < 0 ∨ ctn_id c = id) by lia. apply wpx_bind.
    assert (Hg : wpx F (S := W) (match f, ctn_fingerprint c with
        | None, _ => mret true | Some _, None => crash | Some f, Some g => mret (strcmp_eq g f) end)
      (λ b w', b = bool_decide (f = None ∨ ctn_fingerprint c = f) ∧ w' = w) w).
    { destruct f as [f|]; [|by apply wpx_ret; rewrite bool_decide_eq_true_2 by auto].
      destruct Hf as [|[g Hg]]; [done|]. rewrite Hg. apply wpx_ret. split; [|done]. unfold strcmp_eq.
      apply bool_decide_ext. split; [intros ->; auto|]. by intros [|[= ->]]. }
    eapply wpx_mono; [exact Hg|]. intros b w' [-> ->]. apply wpx_ret.
    match goal with |- Q ?b w => replace b with (bool_decide (selects id f t n c)); [done|] end.
    apply eq_true_iff_eq. rewrite !andb_true_iff, orb_true_iff, !bool_decide_eq_true. unfold selects.
    destruct n as [n|]; [rewrite bool_decide_eq_true; assert (Some n ≠ None) by done|]; tauto.
Qed.

Lemma wpx_del_list F id f t n l (w : W) (Q : bool * list nc_ctn → W → Prop) :
  comparable f l →
  (∀ d, (d = true ↔ Exists (selects id f t n) l) → Q (d, filter (λ c, ¬ selects id f t n c) l) w) →
  wpx F (del_ctn id f t n l) Q w.
Proof.
  revert Q. induction l as [|c l IH]; intros Q Hc HQ; cbn [del_ctn].
  - apply wpx_ret, HQ. split; [done|]. by intros ?%Exists_nil.
  - apply wpx_bind, wpx_selected; [destruct Hc as [|[? _]%list.Forall_cons]; auto|]. apply wpx_bind, IH.
    { destruct Hc as [|[_ ?]%list.Forall_cons]; [by left|by right]. }
    intros d Hd. apply wpx_ret. rewrite filter_cons in HQ.
    destruct (decide (selects id f t n c)) as [Hs|Hs].
    + rewrite bool_decide_eq_true_2 by done. rewrite decide_False in HQ by auto. apply HQ. rewrite Exists_cons. tauto.
    + rewrite bool_decide_eq_false_2 by done. rewrite decide_True in HQ by done. apply HQ. rewrite Exists_cons. tauto.
Qed.

Definition ctn_deleted (id : Z) (f : option bytes) (t : NC_TLS_CTN_MAPTYPE) (n : option bytes)
    (o : nc_server_tls_opts) (r : Z) (o' : nc_server_tls_opts) : Prop :=
  ctn_sorted (ctn o') ∧ o' = set_ctn (ctn o') o ∧
  ctn_map (ctn o') = filter (λ x, ¬ selects id f t n x.2) (ctn_map (ctn o)) ∧
  r = if decide (ctn_map (ctn o') = ctn_map (ctn o)) then -1 else 0.

(** A filter that drops an entry changes the map. *)
Lemma ctn_filter_changes (P : nc_ctn → Prop) `{!∀ c, Decision (P c)} l :
  ctn_sorted l → Exists P l ↔ ctn_map (filter (λ c, ¬ P c) l) ≠ ctn_map l.
Proof.
  intros Hs. destruct (ctn_map_filter (λ c, ¬ P c) l Hs) as [E Hf]. split.
  - rewrite list.Exists_exists. intros (c & Hc & HP) Eq.
    assert (Hl : ctn_map l !! ctn_id c = Some c) by (by apply ctn_map_lookup).
    rewrite <- Eq in Hl. apply ctn_map_lookup in Hl as [Hl _]; [|done]. apply list_elem_of_filter in Hl as [? _]. done.
  - intros N. apply dec_stable. intros NE. apply N. f_equal. clear -NE. induction l as [|c l IH]; [done|].
    rewrite Exists_cons in NE. rewrite filter_cons, decide_True by tauto. f_equal. tauto.
Qed.

Lemma del_ctn_ok F id f t n o (w : W) :
  ctn_sorted (ctn o) → comparable f (ctn o) →
  wpx F (nc_server_tls_del_ctn id f t n o) (λ '(r, o') w', w' = w ∧ ctn_deleted id f t n o r o') w.
Proof.
  intros Hs Hc. unfold nc_server_tls_del_ctn.
  assert (Hd : ∀ d : bool, (d = true ↔ Exists (selects id f t n) (ctn o)) →
    ctn_deleted id f t n o (if d then 0 else -1) (set_ctn (filter (λ c, ¬ selects id f t n c) (ctn o)) o)).
  { intros d Hd. destruct (ctn_map_filter (λ c, ¬ selects id f t n c) (ctn o) Hs) as [E Hf].
    repeat split; [done..|]. cbn [ctn set_ctn]. rewrite ctn_filter_changes in Hd by done.
    destruct (decide _) as [Eq|N]; destruct d; try done; exfalso; [by apply Hd|]. by apply Hd in N. }
  destruct (_ && _) eqn:Eb.
  - rewrite !andb_true_iff, !bool_decide_eq_true, Z.ltb_lt in Eb. destruct Eb as [[[Hi ->] ->] ->]. apply wpx_ret.
    split; [done|].
    assert (Ef : filter (λ c, ¬ selects id None NC_TLS_CTN_UNKNOWN None c) (ctn o) = []).
    { clear -Hi. induction (ctn o) as [|c l IH]; [done|]. rewrite filter_cons, decide_False; [done|]. unfold selects. tauto. }
    rewrite Ef in Hd. destruct (ctn o) as [|c l] eqn:El.
    + apply (Hd false). split; [done|]. by intros ?%Exists_nil.
    + apply (Hd true). split; [|done]. intros _. left. unfold selects. tauto.
  - apply wpx_bind, wpx_del_list; [done|]. intros d Hd'. apply wpx_ret. auto.
Qed.

(** ** Queries *)

Lemma query_fill_total q c (w : W) : ∃ q' w', query_fill q c w = Done (q', w').
Proof.
  assert (Hc : ∀ x y (w : W) Q, (∀ x w, Q x w) → wpx False (query_copy x y) Q w).
  { intros x y w0 Q HQ. unfold query_copy, strdup. destruct x as [[]|], y; try (by apply wpx_ret).
    apply wpx_bind, wpx_bind, wpx_call. destruct (malloc_ok _ _). by apply wpx_ret, wpx_ret. }
  assert (H : wp (query_fill q c) (λ _ _, True) w) by (unfold query_fill; apply wpx_bind, Hc; intros; by apply wpx_bind, Hc).
  apply wp_total in H as (q' & w' & E & _). eauto.
Qed.

Lemma wpx_get F q l (w : W) :
  ctn_sorted l →
  wpx F (get_ctn q l) (λ '(r, q') _,
    (r = -1 ∧ q' = q ∧ ∀ i c, ctn_map l !! i = Some c → query_matches q c = false) ∨
    (r = 0 ∧ ∃ i c w1 w2, ctn_map l !! i = Some c ∧ query_matches q c = true ∧ query_fill q c w1 = Done (q', w2) ∧
       ∀ j d, j < i → ctn_map l !! j = Some d → query_matches q d = false)) w.
Proof.
  intros Hs. assert (Hgen : ∀ pre l', l = pre ++ l' → (∀ c, c ∈ pre → query_matches q c = false) →
    wpx F (get_ctn q l') (λ '(r, q') _,
    (r = -1 ∧ q' = q ∧ ∀ i c, ctn_map l !! i = Some c → query_matches q c = false) ∨
    (r = 0 ∧ ∃ i c w1 w2, ctn_map l !! i = Some c ∧ query_matches q c = true ∧ query_fill q c w1 = Done (q', w2) ∧
       ∀ j d, j < i → ctn_map l !! j = Some d → query_matches q d = false)) w).
  { intros pre l'. revert pre. induction l' as [|c l' IH]; intros pre El Hp; cbn [get_ctn].
    - apply wpx_ret. left. do 2 (split; [done|]). intros i c [Hc _]%ctn_map_lookup; [|done].
      rewrite app_nil_r in El. subst. auto.
    - destruct (query_matches q c) eqn:Em.
      + apply wpx_bind. destruct (query_fill_total q c w) as (q' & w' & Eq). unfold wpx. rewrite Eq.
        right. split; [done|]. exists (ctn_id c), c, w, w'.
        split; [apply ctn_map_lookup; [done|]; split; [|done]; rewrite El; apply elem_of_app; right; left|].
        do 2 (split; [done|]). intros j d Hj [Hd E]%ctn_map_lookup; [|done]. rewrite El in Hd, Hs.
        apply elem_of_app in Hd as [Hd|[->|Hd]%elem_of_cons]; [auto|lia|].
        apply ctn_sorted_app in Hs as (_ & [_ Hs]%ctn_sorted_cons & _). apply Hs in Hd. lia.
      + apply (IH (pre ++ [c])); [by rewrite <- app_assoc|].
        intros d [Hd| ->%list_elem_of_singleton]%elem_of_app; auto. }
  apply (Hgen [] l); [done|]. by intros ? ?%not_elem_of_nil.
Qed.
End ctn.

(** ** Sequences of operations *)

Inductive ctn_op :=
| CtnAdd (id : Z) (f : option bytes) (t : NC_TLS_CTN_MAPTYPE) (n : option bytes)
| CtnDel (id : Z) (f : option bytes) (t : NC_TLS_CTN_MAPTYPE) (n : option bytes).

Definition run_ctn_op {W} `{!Env W} (op : ctn_op) (o : nc_server_tls_opts) : M W (Z * nc_server_tls_opts) :=
  match op with
  | CtnAdd id f t n => nc_server_tls_add_ctn id f t n o
  | CtnDel id f t n => nc_server_tls_del_ctn id f t n o
  end.

(** What an operation does to the map, and returns. *)
Definition ctn_op_spec (op : ctn_op) (m : gmap Z nc_ctn) (r : Z) (m' : gmap Z nc_ctn) : Prop :=
  match op with
  | CtnAdd id f t n =>
    (r = -1 ∧ m' = m) ∨ (r = 0 ∧ ∃ c, filled id f t n (default zero_ctn (m !! id)) c ∧ m' = <[id := c]> m)
  | CtnDel id f t n => m' = filter (λ x, ¬ selects id f t n x.2) m ∧ r = if decide (m' = m) then -1 else 0
  end.

(** [strcmp] is not given a [NULL] fingerprint. *)
Definition ctn_op_safe (op : ctn_op) (l : list nc_ctn) : Prop :=
  match op with CtnAdd _ _ _ _ => True | CtnDel _ f _ _ => comparable f l end.



(** a query for a cert-to-name entry answers with the matching entry of the
    lowest id, and fails only if no entry matches. *)
Theorem get_ctn_lowest (W : Type) `{!Env W} q o (w : W) :
  ctn_sorted (ctn o) →
  ∃ r q' w', nc_server_tls_get_ctn q o w = Done ((r, q'), w') ∧
    ((r = -1 ∧ q' = q ∧ ∀ i c, ctn_map (ctn o) !! i = Some c → query_matches q c = false) ∨
     (r = 0 ∧ ∃ i c w1 w2, ctn_map (ctn o) !! i = Some c ∧ query_matches q c = true ∧
        query_fill q c w1 = Done (q', w2) ∧ ∀ j d, j < i → ctn_map (ctn o) !! j = Some d → query_matches q d = false)).
Proof.
  intros Hs. pose proof (wpx_get False q (ctn o) w Hs) as H. apply wp_total in H as ([r q'] & w' & E & H). eauto.
Qed.

Lemma get_ctn_lowest_witness :
  let l := [Ctn 1 (Some (str "04:aa")) NC_TLS_CTN_COMMON_NAME None; Ctn 5 (Some (str "04:bb")) NC_TLS_CTN_SAN_ANY None] in
  let q := CtnQuery (Some 0) None (Some NC_TLS_CTN_SAN_ANY) None in
  ∃ r q' w', nc_server_tls_get_ctn q (set_ctn l new_tls_opts) (Sim (m0 := true) (up := true) [] [] 0) = Done ((r, q'), w') ∧
    (r = -1 ∨ r = 0).
Proof.
  intros l q. destruct (get_ctn_lowest (sim true true) q (set_ctn l new_tls_opts) (Sim [] [] 0)) as (r & q' & w' & E & H).
  - repeat constructor.
  - exists r, q', w'. split; [exact E|]. destruct H as [[-> _]|[-> _]]; auto.
Defined.
