(* ===== verification/TlsVerify.v ===== *)
(** * Verifying TLS clients

    src/session_server_tls.c: from the certificate chain of a client to its user
    name.  OpenSSL calls [nc_tlsclb_verify] for the certificates of the chain, from
    the root to the client's own; the cert-to-name entries of the endpoint select
    how the name is found.  Certificates, names and revocation lists are OpenSSL's. *)

From S2P Require Import Prelude Session Env Capabilities PtrArray SshOpts TlsOpts ClientRecv.
From Stdlib Require Import ZArith Ascii String Lia.
From stdpp Require Import base list strings gmap numbers.
Open Scope Z_scope.

(** The hash algorithms of fingerprints. *)
Inductive hash_alg := H_md5 | H_sha1 | H_sha224 | H_sha256 | H_sha384 | H_sha512.

#[export] Instance hash_alg_eq_dec : EqDecision hash_alg.
Proof. solve_decision. Defined.

(** Subject alternative names; the bytes of an ASN.1 string may include NUL. *)
Inductive GENERAL_NAME :=
| GEN_EMAIL (rfc822Name : bytes)
| GEN_DNS (dNSName : bytes)
| GEN_IPADD (iPAddress : bytes)
| GEN_OTHER.

(** Results of a verification. *)
Inductive X509_V :=
| X509_V_OK
| X509_V_ERR_CRL_SIGNATURE_FAILURE
| X509_V_ERR_ERROR_IN_CRL_NEXT_UPDATE_FIELD
| X509_V_ERR_CRL_HAS_EXPIRED
| X509_V_ERR_CERT_REVOKED
| X509_V_ERR_APPLICATION_VERIFICATION
| X509_V_ERR_OTHER.

(** What the code asks OpenSSL about certificates, names and revocation lists; a
    lookup in a store of revocation lists answers with the list of an issuer. *)
Class X509 (W cert name crl : Type) := {
  X509_get_subject_name : cert → name;
  X509_get_issuer_name : cert → name;
  X509_NAME_oneline : name → W → option bytes * W;
  X509_get_ext_san : cert → option (list GENERAL_NAME);
  X509_digest : hash_alg → cert → option bytes;
  X509_get0_pubkey_bitstr : cert → option bytes;
  X509_get_serialNumber : cert → Z;
  X509_get_by_subject : list crl_source → name → option crl;
  X509_CRL_verify : crl → cert → bool;
  X509_CRL_get0_nextUpdate : crl → option Z;
  X509_cmp_current_time : Z → W → Z * W;
  X509_CRL_get_REVOKED : crl → list Z;
}.

(** A C string ends at its first NUL. *)
Definition cstring (s : bytes) : bytes := (span (λ c, negb (bool_decide (c = "000"%char))) s).1.

Definition hex_digit (n : N) : ascii := ascii_of_N (if (n <? 10)%N then 48 + n else 87 + n).

(** ["%02x"] *)
Definition hex2 (c : ascii) : bytes := [hex_digit (N_of_ascii c / 16); hex_digit (N_of_ascii c mod 16)].

Definition tolower (c : ascii) : ascii :=
  let n := N_of_ascii c in if ((65 <=? n) && (n <=? 90))%N then ascii_of_N (n + 32) else c.

(** [strcasecmp(a, b) == 0] *)
Definition strcasecmp_eq (a b : bytes) : bool := bool_decide (map tolower a = map tolower b).

Section verify.
Context {W cert name crl : Type} `{!Env W} `{!X509 W cert name crl}.

(** The loop of [digest_to_str], after the first byte was written. *)
Definition hex_rest (l : bytes) : bytes := concat (map (λ c, ":"%char :: hex2 c) l).

(** The digits and colons, and a NUL, fill the buffer of three bytes per byte of the
    digest.  [dig_len - 1] wraps for an empty digest. *)
Definition digest_to_str (digest : bytes) : M W (option bytes) :=
  ok ← call (malloc_ok (zlen digest * 3));
  if negb ok then mret None
  else match digest with
       | [] => crash
       | c :: l =>
         let s := hex2 c ++ hex_rest l in
         _ ← guarded (zlen s + 1 <=? zlen digest * 3);
         mret (Some s)
       end.

Definition cert_pubkey_match (cert1 cert2 : cert) : bool :=
  match X509_get0_pubkey_bitstr cert1, X509_get0_pubkey_bitstr cert2 with
  | Some b1, Some b2 => bool_decide (b1 = b2)
  | _, _ => false
  end.

(** ** The name in a certificate *)

(** The common name: what follows the first ["CN="] of the subject, up to a slash. *)
Definition common_name (subject : bytes) : option bytes :=
  match strstr subject (str "CN=") with
  | None => None
  | Some s => Some (span (λ c, negb (bool_decide (c = "/"%char))) (drop 3 s)).1
  end.

Definition ipv4_str (ip : bytes) : bytes :=
  match map (λ c, print_dec (Z.of_N (N_of_ascii c))) ip with
  | [a; b; c; d] => a ++ str "." ++ b ++ str "." ++ c ++ str "." ++ d
  | _ => []
  end.

(** The loop over the subject alternative names. *)
Fixpoint san_username (map_type : NC_TLS_CTN_MAPTYPE) (l : list GENERAL_NAME) : M W (Z * option bytes) :=
  let wanted t := bool_decide (map_type = NC_TLS_CTN_SAN_ANY) || bool_decide (map_type = t) in
  match l with
  | [] => mret (1, None)
  | n :: l =>
    match n with
    | GEN_EMAIL s =>
      if wanted NC_TLS_CTN_SAN_RFC822_NAME
      then u ← strdup (cstring s); mret (match u with Some _ => 0 | None => 1 end, u)
      else san_username map_type l
    | GEN_DNS s =>
      if wanted NC_TLS_CTN_SAN_DNS_NAME
      then u ← strdup (cstring s); mret (match u with Some _ => 0 | None => 1 end, u)
      else san_username map_type l
    | GEN_IPADD ip =>
      if wanted NC_TLS_CTN_SAN_IP_ADDRESS && ((zlen ip =? 4) || (zlen ip =? 16)) then
        u ← strdup (if zlen ip =? 4 then ipv4_str ip else concat (map hex2 ip));
        mret (match u with Some _ => 0 | None => -1 end, u)
      else san_username map_type l
    | GEN_OTHER => san_username map_type l
    end
  end.

Definition nc_tls_ctn_get_username_from_cert (client_cert : cert) (map_type : NC_TLS_CTN_MAPTYPE)
    : M W (Z * option bytes) :=
  if decide (map_type = NC_TLS_CTN_COMMON_NAME) then
    subject ← call (X509_NAME_oneline (X509_get_subject_name client_cert));
    match subject with
    | None => crash
    | Some subject =>
      match common_name subject with
      | None => mret (1, None)
      | Some cn => u ← strdup cn; mret (match u with Some _ => 0 | None => 1 end, u)
      end
    end
  else match X509_get_ext_san client_cert with
       | None => mret (1, None)
       | Some l => san_username map_type l
       end.

(** ** Cert-to-name *)

(** The first two characters of a fingerprint name its algorithm. *)
Definition fingerprint_alg (f : bytes) : option hash_alg :=
  if strncmp_eq f (str "01") 2 then Some H_md5
  else if strncmp_eq f (str "02") 2 then Some H_sha1
  else if strncmp_eq f (str "03") 2 then Some H_sha224
  else if strncmp_eq f (str "04") 2 then Some H_sha256
  else if strncmp_eq f (str "05") 2 then Some H_sha384
  else if strncmp_eq f (str "06") 2 then Some H_sha512
  else None.

(** The digests computed so far. *)
Definition digests := hash_alg → option bytes.

(** A digest that was not computed yet is; [None] is the error of [X509_digest]. *)
Definition get_digest (c : cert) (a : hash_alg) (ds : digests) : M W (option digests) :=
  match ds a with
  | Some _ => mret (Some ds)
  | None =>
    match X509_digest a c with
    | None => mret None
    | Some d => s ← digest_to_str d; mret (Some (λ b, if decide (b = a) then s else ds b))
    end
  end.

(** [!strcasecmp(fingerprint + 3, digest)] *)
Definition fingerprint_is (f : bytes) (d : option bytes) : M W bool :=
  _ ← guarded (3 <=? zlen f);
  match d with
  | None => crash
  | Some d => mret (strcasecmp_eq (drop 3 f) d)
  end.

(** The check that an entry is valid: its fingerprint. *)
Definition ctn_valid (e : nc_ctn) : option bytes :=
  if bool_decide (ctn_map_type e = NC_TLS_CTN_UNKNOWN) ||
     (bool_decide (ctn_map_type e = NC_TLS_CTN_SPECIFIED) && bool_decide (ctn_name e = None))
  then None else ctn_fingerprint e.

Fixpoint cert_to_name_loop (c : cert) (ds : digests) (l : list nc_ctn) : M W (Z * option nc_ctn) :=
  match l with
  | [] => mret (1, None)
  | e :: l =>
    match ctn_valid e with
    | None => cert_to_name_loop c ds l
    | Some f =>
      match fingerprint_alg f with
      | None => cert_to_name_loop c ds l
      | Some a =>
        r ← get_digest c a ds;
        match r with
        | None => mret (-1, None)
        | Some ds =>
          b ← fingerprint_is f (ds a);
          if b : bool then mret (0, Some e) else cert_to_name_loop c ds l
        end
      end
    end
  end.

(** The result, and the entry that gives the map type and the name. *)
Definition nc_tls_cert_to_name (ctn_first : list nc_ctn) (c : cert) : M W (Z * option nc_ctn) :=
  ok ← call (malloc_ok 64);
  if negb ok then mret (-1, None)
  else match ctn_first with
       | [] => mret (-1, None)
       | _ => cert_to_name_loop c (λ _, None) ctn_first
       end.

(** ** The callback *)

(** The verification of a chain at one of its certificates. *)
Record X509_STORE_CTX := X509StoreCtx {
  ctx_chain : list cert;
  ctx_certs : name → option (list cert);
  ctx_error_depth : Z;
  ctx_current : cert;
}.

(** What the callback keeps in the session, and the error it sets. *)
Record tls_session := TlsSession {
  client_cert : option cert;
  tls_username : option bytes;
  verify_result : X509_V;
}.

Definition set_result (v : X509_V) (s : tls_session) : tls_session :=
  TlsSession (client_cert s) (tls_username s) v.

(** The certificate of the client is the first one of the chain. *)
Definition get_client_cert (ctx : X509_STORE_CTX) (s : tls_session) : M W (cert * tls_session) :=
  match client_cert s with
  | Some c => mret (c, s)
  | None =>
    match ctx_chain ctx with
    | c :: _ => mret (c, TlsSession (Some c) (tls_username s) (verify_result s))
    | [] => crash
    end
  end.

(** Without a successful verification the client's key must be that of a trusted
    certificate with its subject. *)
Definition trusted_client (ctx : X509_STORE_CTX) (c : cert) : bool :=
  match ctx_certs ctx (X509_get_subject_name c) with
  | None => false
  | Some l => existsb (cert_pubkey_match c) l
  end.

(** The revocation list of the subject must be intact. *)
Definition check_subject_crl (store : list crl_source) (c : cert) : M W (option X509_V) :=
  match X509_get_by_subject store (X509_get_subject_name c) with
  | None => mret None
  | Some l =>
    if negb (X509_CRL_verify l c) then mret (Some X509_V_ERR_CRL_SIGNATURE_FAILURE)
    else match X509_CRL_get0_nextUpdate l with
         | None => mret (Some X509_V_ERR_ERROR_IN_CRL_NEXT_UPDATE_FIELD)
         | Some t =>
           cmp ← call (X509_cmp_current_time t);
           mret (if cmp <? 0 then Some X509_V_ERR_CRL_HAS_EXPIRED else None)
         end
  end.

(** The list of the issuer must not revoke the certificate. *)
Definition check_issuer_crl (store : list crl_source) (c : cert) : option X509_V :=
  match X509_get_by_subject store (X509_get_issuer_name c) with
  | None => None
  | Some l =>
    if existsb (Z.eqb (X509_get_serialNumber c)) (X509_CRL_get_REVOKED l) then Some X509_V_ERR_CERT_REVOKED else None
  end.

Definition check_crls (store : option (list crl_source)) (c : cert) : M W (option X509_V) :=
  match store with
  | None => mret None
  | Some store =>
    r ← check_subject_crl store c;
    match r with
    | Some e => mret (Some e)
    | None => mret (check_issuer_crl store c)
    end
  end.

(** The callback of the application. *)
Definition verify_clb := option (tls_session → W → bool * W).

(** The code at the label [fail]. *)
Definition ctn_fail (depth : Z) (s : tls_session) : M W (Z * tls_session) :=
  mret (if 0 <? depth then (1, s) else (0, set_result X509_V_ERR_APPLICATION_VERIFICATION s)).

(** The name found by cert-to-name is stored and given to the application. *)
Definition set_username (user_verify_clb : verify_clb) (u : option bytes) (s : tls_session) : M W (Z * tls_session) :=
  let s := TlsSession (client_cert s) u (verify_result s) in
  match user_verify_clb with
  | None => mret (1, s)
  | Some clb =>
    ok ← call (clb s);
    mret (if ok : bool then (1, s) else (0, set_result X509_V_ERR_APPLICATION_VERIFICATION s))
  end.

(** The cert-to-name part of the callback. *)
Definition verify_ctn (opts : nc_server_tls_opts) (clb : verify_clb) (depth : Z) (peer current : cert) (s : tls_session)
    : M W (Z * tls_session) :=
  '(rc, e) ← nc_tls_cert_to_name (ctn opts) current;
  match e with
  | None => ctn_fail (if rc =? -1 then 0 else depth) s
  | Some e =>
    if decide (ctn_map_type e = NC_TLS_CTN_SPECIFIED) then
      match ctn_name e with
      | None => crash
      | Some n => u ← strdup n; set_username clb u s
      end
    else
      '(rc, u) ← nc_tls_ctn_get_username_from_cert peer (ctn_map_type e);
      if negb (rc =? 0) then ctn_fail (if rc =? -1 then 0 else depth) s else set_username clb u s
  end.

Definition nc_tlsclb_verify (opts : nc_server_tls_opts) (user_verify_clb : verify_clb) (preverify_ok : bool)
    (ctx : X509_STORE_CTX) (s : tls_session) : M W (Z * tls_session) :=
  '(peer, s) ← get_client_cert ctx s;
  if negb preverify_ok then
    mret (if trusted_client ctx peer then (1, set_result X509_V_OK s) else (0, s))
  else
    e ← check_crls (crl_store opts) (ctx_current ctx);
    match e with
    | Some e => mret (0, set_result e s)
    | None =>
      match tls_username s with
      | Some _ => mret (1, s)
      | None => verify_ctn opts user_verify_clb (ctx_error_depth ctx) peer (ctx_current ctx) s
      end
    end.
End verify.
Arguments X509_STORE_CTX : clear implicits.
Arguments tls_session : clear implicits.
Arguments verify_clb : clear implicits.
