(* ===== verification/TlsVerifyProofs.v ===== *)
(** * What an accepted TLS client has shown

    Cert-to-name finds the first valid entry whose fingerprint is that of the
    certificate; a chain that is accepted gives the session a name that comes from
    such an entry, and no certificate of it is revoked; and the limits of reading a
    common name from the printed subject. *)

From S2P Require Import Prelude Session Env Sim Capabilities PtrArray SshOpts TlsOpts ClientRecv TlsVerify.
From Stdlib Require Import ZArith Ascii String Lia.
From stdpp Require Import base list strings gmap numbers.
Open Scope Z_scope.

(** The text of a digest. *)
Definition digest_text (d : bytes) : bytes :=
  match d with [] => [] | c :: l => hex2 c ++ hex_rest l end.

Lemma zlen_hex_rest l : zlen (hex_rest l) = 3 * zlen l.
Proof.
  unfold hex_rest. induction l as [|c l IH]; [done|]. cbn [map concat]. rewrite zlen_app, IH, (zlen_cons c l).
  change (zlen (":"%char :: hex2 c)) with 3. lia.
Qed.

Section ctn.
Context {W cert name crl : Type} `{!Env W} `{!X509 W cert name crl}.
Implicit Types (c : cert) (e : nc_ctn).

Lemma wpx_digest_to_str F d (w : W) (Q : option bytes → W → Prop) :
  d ≠ [] → (∀ ok w', malloc_ok (zlen d * 3) w = (ok, w') → Q (if ok then Some (digest_text d) else None) w') →
  wpx F (digest_to_str d) Q w.
Proof.
  intros Hd HQ. unfold digest_to_str. apply wpx_bind, wpx_call. destruct (malloc_ok _ w) as [ok w'] eqn:E.
  specialize (HQ ok w' eq_refl). destruct ok; simpl negb; cbv iota; [|by apply wpx_ret].
  destruct d as [|x l]; [done|]. apply wpx_bind, wpx_guarded; [|by apply wpx_ret].
  apply Z.leb_le. rewrite zlen_app, zlen_hex_rest, (zlen_cons x l). change (zlen (hex2 x)) with 2. lia.
Qed.

(** ** Reference definitions *)

(** Whether the fingerprint of a valid entry is that of a certificate. *)
Definition ctn_matches c e : bool :=
  match ctn_valid e with
  | None => false
  | Some f =>
    match fingerprint_alg f with
    | None => false
    | Some a => match X509_digest a c with None => false | Some d => strcasecmp_eq (drop 3 f) (digest_text d) end
    end
  end.

Definition first_match c (l : list nc_ctn) : option nc_ctn := List.find (ctn_matches c) l.

(** A fingerprint that names an algorithm has a colon behind it. *)
Definition fingerprint_long e : Prop := ∀ f, ctn_fingerprint e = Some f → fingerprint_alg f ≠ None → 3 ≤ zlen f.

Lemma ctn_valid_fingerprint e f : ctn_valid e = Some f → ctn_fingerprint e = Some f.
Proof. unfold ctn_valid. by destruct (_ || _). Qed.

(** The digests kept are those of the certificate. *)
Definition digests_of c (ds : digests) : Prop := ∀ a s, ds a = Some s → ∃ d, X509_digest a c = Some d ∧ s = digest_text d.

Lemma wpx_get_digest F c a ds (w : W) (Q : option digests → W → Prop) :
  digests_of c ds → (∀ d, X509_digest a c = Some d → d ≠ []) →
  (∀ w', X509_digest a c = None → Q None w') →
  (∀ ds' d w', digests_of c ds' → X509_digest a c = Some d → (ds' a = Some (digest_text d) ∨ (ds' a = None ∧
     ∃ w1 n, 0 < n ∧ (malloc_ok n w1).1 = false ∧ n = zlen d * 3)) → Q (Some ds') w') →
  wpx F (get_digest c a ds) Q w.
Proof.
  intros Hds Hne H1 H2. unfold get_digest. destruct (ds a) as [s|] eqn:Ea.
  - apply wpx_ret. destruct (Hds a s Ea) as (d & Hd & ->). by apply (H2 ds d); auto.
  - destruct (X509_digest a c) as [d|] eqn:Ed; [|by apply wpx_ret, H1].
    apply wpx_bind, wpx_digest_to_str; [by apply Hne|]. intros ok w' Em. apply wpx_ret, (H2 _ d); [|done|].
    + intros b s. destruct (decide (b = a)) as [->|]; [|apply Hds]. destruct ok; [|done]. intros [= <-]. eauto.
    + rewrite decide_True by done. destruct ok; [by left|]. right. split; [done|]. exists w, (zlen d * 3).
      rewrite Em. repeat split. specialize (Hne d eq_refl). pose proof (zlen_nonneg d).
      assert (zlen d ≠ 0) by (by intros ?%zlen_nil_inv). lia.
Qed.

(** What the loop over the entries finds; without memory it may read a digest that
    is not there. *)
Lemma wpx_cert_to_name_loop F c ds l (w : W) :
  digests_of c ds → (∀ a d, X509_digest a c = Some d → 0 < zlen d ≤ 64) →
  Forall fingerprint_long l → (∀ n w, 0 < n ≤ 2 ^ 32 → (malloc_ok n w).1 = true) →
  wpx F (cert_to_name_loop c ds l) (λ '(r, e) _,
    match e with
    | Some e => r = 0 ∧ first_match c l = Some e
    | None => r = 1 ∧ first_match c l = None ∨ r = -1 ∧ ∃ a, X509_digest a c = None
    end) w.
Proof.
  intros Hds Hlen Hl Hm. revert ds Hds w. induction Hl as [|e l He Hl IH]; intros ds Hds w; cbn [cert_to_name_loop].
  - apply wpx_ret. by left.
  - unfold first_match. cbn [List.find]. destruct (ctn_valid e) as [f|] eqn:Ev.
    2: { assert (ctn_matches c e = false) as -> by (unfold ctn_matches; by rewrite Ev). by apply IH. }
    destruct (fingerprint_alg f) as [a|] eqn:Ea.
    2: { assert (ctn_matches c e = false) as -> by (unfold ctn_matches; by rewrite Ev, Ea). by apply IH. }
    apply wpx_bind, wpx_get_digest; [done|..].
    + intros d Hd ->. apply Hlen in Hd. by destruct Hd.
    + intros w' Hn. apply wpx_ret. right. eauto.
    + intros ds' d w' Hds' Hd H. destruct H as [H|(_ & w1 & n & Hn & Hmf & ->)].
      2: { rewrite Hm in Hmf; [done|]. apply Hlen in Hd. lia. }
      unfold fingerprint_is. apply wpx_bind, wpx_bind, wpx_guarded.
      { apply Z.leb_le, He; [by apply ctn_valid_fingerprint|by rewrite Ea]. }
      rewrite H. apply wpx_ret.
      assert (ctn_matches c e = strcasecmp_eq (drop 3 f) (digest_text d)) as -> by (unfold ctn_matches; by rewrite Ev, Ea, Hd).
      destruct (strcasecmp_eq _ _); [by apply wpx_ret|]. by apply IH.
Qed.

(** Whatever memory there is: an entry that is found matches. *)
Lemma wlp_cert_to_name_loop c ds l (w : W) r e w' :
  digests_of c ds → (∀ a d, X509_digest a c = Some d → d ≠ []) →
  cert_to_name_loop c ds l w = Done ((r, Some e), w') → first_match c l = Some e.
Proof.
  intros Hds Hne. revert ds Hds w. induction l as [|e' l IH]; intros ds Hds w; cbn [cert_to_name_loop]; [done|].
  unfold first_match. cbn [List.find]. unfold ctn_matches at 1.
  destruct (ctn_valid e') as [f|] eqn:Ev; [|by apply IH]. destruct (fingerprint_alg f) as [a|] eqn:Ea; [|by apply IH].
  unfold mbind, M_bind.
  assert (H : wlp (get_digest c a ds) (λ r w1, get_digest c a ds w = Done (r, w1) ∧ match r with
    | None => True | Some ds' => digests_of c ds' ∧ ∃ d, X509_digest a c = Some d ∧ (ds' a = Some (digest_text d) ∨ ds' a = None)
    end) w).
  { apply wpx_run, wpx_get_digest; [done|by apply Hne|done|].
    intros ds' d w1 H1 H2 H3. split; [done|]. exists d. tauto. }
  unfold wpx in H. destruct (get_digest c a ds w) as [[[ds'|] w1]| |]; try done.
  destruct H as (_ & Hds' & d & Hd & H). unfold fingerprint_is, mbind, M_bind, guarded. rewrite Hd.
  destruct (3 <=? zlen f); [|done]. destruct H as [->| ->]; [|done]. simpl.
  destruct (strcasecmp_eq _ _); [by intros [= _ ->]|]. by apply IH.
Qed.

Lemma cert_to_name_run c l (w : W) r e w' :
  (∀ a d, X509_digest a c = Some d → d ≠ []) →
  nc_tls_cert_to_name l c w = Done ((r, Some e), w') → first_match c l = Some e.
Proof.
  intros Hd. unfold nc_tls_cert_to_name, mbind, M_bind, call. destruct (malloc_ok 64 w) as [[] w1]; [|done].
  destruct l as [|e0 l]; [done|]. by apply wlp_cert_to_name_loop.
Qed.

(** ** One call of the callback *)

(** A certificate is not revoked by the list of its issuer. *)
Definition not_revoked (opts : nc_server_tls_opts) c : Prop :=
  match crl_store opts with
  | None => True
  | Some store =>
    match X509_get_by_subject store (X509_get_issuer_name c) with
    | None => True
    | Some l => X509_get_serialNumber c ∉ X509_CRL_get_REVOKED l
    end
  end.

(** The name comes from the first entry that matches the certificate, and the
    application agrees. *)
Definition granted (opts : nc_server_tls_opts) (clb : verify_clb W cert) (peer c : cert) (u : bytes) : Prop :=
  ∃ e, first_match c (ctn opts) = Some e ∧
  (if decide (ctn_map_type e = NC_TLS_CTN_SPECIFIED) then ctn_name e = Some u
   else ∃ w1 w2, nc_tls_ctn_get_username_from_cert peer (ctn_map_type e) w1 = Done ((0, Some u), w2)) ∧
  match clb with
  | None => True
  | Some f => ∃ s w1, (f s w1).1 = true ∧ tls_username s = Some u ∧ client_cert s = Some peer
  end.

(** An allocation failed. *)
Definition no_memory : Prop := ∃ n (w : W), (malloc_ok n w).1 = false.

Lemma check_crls_ok store c (w w' : W) :
  check_crls store c w = Done (None, w') →
  match store with
  | None => True
  | Some l => check_issuer_crl l c = None
  end.
Proof.
  destruct store as [l|]; [|done]. unfold check_crls, mbind, M_bind.
  destruct (check_subject_crl l c w) as [[[]]| |]; try done. by intros [= H].
Qed.

Lemma not_revoked_ok opts c (w w' : W) :
  check_crls (crl_store opts) c w = Done (None, w') → not_revoked opts c.
Proof.
  intros H%check_crls_ok. unfold not_revoked. destruct (crl_store opts); [|done].
  unfold check_issuer_crl in H. destruct (X509_get_by_subject _ _); [|done].
  destruct (existsb _ _) eqn:E; [done|]. intros Hin. apply not_true_iff_false in E. apply E, existsb_exists.
  exists (X509_get_serialNumber c). split; [by apply list_elem_of_In|]. apply Z.eqb_refl.
Qed.

Lemma strdup_run (s : bytes) (w : W) u w' : strdup s w = Done (u, w') → u = Some s ∨ (u = None ∧ no_memory).
Proof.
  unfold strdup, mbind, M_bind, call. destruct (malloc_ok _ w) as [ok w1] eqn:E. intros [= <- _].
  destruct ok; [by left|]. right. split; [done|]. exists (zlen s + 1), w. by rewrite E.
Qed.

Implicit Types (s : tls_session cert) (clb : verify_clb W cert).

(** A name that is stored. *)
Lemma set_username_run clb u s (w : W) s' w' :
  set_username clb u s w = Done ((1, s'), w') →
  s' = TlsSession (client_cert s) u (verify_result s) ∧
  match clb with None => True | Some f => ∃ w1, (f s' w1).1 = true end.
Proof.
  unfold set_username. destruct clb as [f|]; [|by intros [= <- _]]. unfold mbind, M_bind, call.
  destruct (f _ w) as [ok w1] eqn:E. destruct ok; intros [= <- _]. split; [done|]. exists w. by rewrite E.
Qed.

Definition named (opts : nc_server_tls_opts) (clb : verify_clb W cert) (peer c : cert) (depth : Z)
    (s s' : tls_session cert) : Prop :=
  client_cert s' = client_cert s ∧
  match tls_username s' with
  | Some u => granted opts clb peer c u
  | None => 0 < depth ∨ no_memory
  end.

Lemma fail_run opts clb peer c depth depth' s (w : W) s' w' :
  depth' = 0 ∨ depth' = depth → tls_username s = None →
  ctn_fail depth' s w = Done ((1, s'), w') → named opts clb peer c depth s s'.
Proof.
  intros Hd Hu. unfold ctn_fail. destruct (Z.ltb_spec 0 depth'); intros [= <- _]. split; [done|]. rewrite Hu. left. lia.
Qed.

Lemma username_run (peer : cert) t (w : W) u w' :
  nc_tls_ctn_get_username_from_cert peer t w = Done ((0, u), w') → ∃ x, u = Some x.
Proof.
  unfold nc_tls_ctn_get_username_from_cert. destruct (decide _).
  - unfold mbind, M_bind, call. destruct (X509_NAME_oneline _ w) as [[s|] w1]; [|done].
    destruct (common_name s) as [cn|]; [|done]. destruct (strdup cn w1) as [[[x|] w2]| |]; try done.
    intros [= <- _]. eauto.
  - destruct (X509_get_ext_san peer) as [l|]; [|done]. revert w. induction l as [|g l IH]; intros w; [done|].
    cbn [san_username]. unfold mbind, M_bind.
    destruct g; try apply IH; destruct (_ : bool); try apply IH;
      destruct (strdup _ w) as [[[x|] w2]| |]; try done; intros [= <- _]; eauto.
Qed.

Lemma verify_ctn_run opts clb depth peer c s (w : W) s' w' :
  (∀ a d, X509_digest a c = Some d → d ≠ []) → tls_username s = None → client_cert s = Some peer →
  verify_ctn opts clb depth peer c s w = Done ((1, s'), w') → named opts clb peer c depth s s'.
Proof.
  intros Hd Hu Hp. unfold verify_ctn, mbind at 1, M_bind at 1.
  destruct (nc_tls_cert_to_name (ctn opts) c w) as [[[rc [e|]] w2]| |] eqn:Ef; try done.
  2: { apply fail_run; [destruct (_ =? _); auto|done]. }
  apply cert_to_name_run in Ef; [|done..]. destruct (decide (ctn_map_type e = _)) as [Et|Et].
  - destruct (ctn_name e) as [n|] eqn:En; [|done]. unfold mbind, M_bind.
    destruct (strdup n w2) as [[u w3]| |] eqn:Es; try done. intros [-> Hc]%set_username_run. split; [done|]. cbn.
    apply strdup_run in Es as [->|[-> ?]]; [|by right]. exists e. rewrite decide_True by done. split; [done|].
    split; [done|]. destruct clb as [f|]; [|done]. destruct Hc as [w4 Hc]. by exists (TlsSession (client_cert s) (Some n) (verify_result s)), w4.
  - unfold mbind, M_bind. destruct (nc_tls_ctn_get_username_from_cert _ _ w2) as [[[rc' u] w3]| |] eqn:Eu; try done.
    destruct (Z.eqb_spec rc' 0) as [->|]; simpl negb; cbv iota.
    2: { apply fail_run; [destruct (rc' =? -1); auto|done]. }
    destruct (username_run _ _ _ _ _ Eu) as [x ->]. intros [-> Hc]%set_username_run. split; [done|]. cbn.
    exists e. rewrite decide_False by done. split; [done|]. split; [by exists w2, w3|].
    destruct clb as [f|]; [|done]. destruct Hc as [w4 Hc]. by exists (TlsSession (client_cert s) (Some x) (verify_result s)), w4.
Qed.

(** A call that accepts: the certificate of the client is known, and a name that
    was not known yet was granted for the current certificate. *)
Definition accepted opts clb (ok : bool) (ctx : X509_STORE_CTX cert name) (s s' : tls_session cert) : Prop :=
  ∃ peer, client_cert s' = Some peer ∧
  client_cert s' = match client_cert s with Some p => Some p | None => head (ctx_chain ctx) end ∧
  (ok = true → not_revoked opts (ctx_current ctx)) ∧
  if ok then
    match tls_username s with
    | Some u => tls_username s' = Some u
    | None => match tls_username s' with
              | Some u => granted opts clb peer (ctx_current ctx) u
              | None => 0 < ctx_error_depth ctx ∨ no_memory
              end
    end
  else tls_username s' = tls_username s.

Lemma client_cert_run (ctx : X509_STORE_CTX cert name) s (w : W) peer s1 w' :
  get_client_cert ctx s w = Done ((peer, s1), w') →
  client_cert s1 = Some peer ∧ tls_username s1 = tls_username s ∧
  Some peer = match client_cert s with Some p => Some p | None => head (ctx_chain ctx) end.
Proof.
  unfold get_client_cert. destruct (client_cert s) as [p|] eqn:Ep; [by intros [= -> -> _]|].
  destruct (ctx_chain ctx) as [|c l]; [done|]. by intros [= -> <- _].
Qed.

Lemma verify_run opts clb ok ctx s (w : W) s' w' :
  (∀ a d, X509_digest a (ctx_current ctx) = Some d → d ≠ []) →
  nc_tlsclb_verify opts clb ok ctx s w = Done ((1, s'), w') → accepted opts clb ok ctx s s'.
Proof.
  intros Hd. unfold nc_tlsclb_verify, mbind at 1, M_bind at 1.
  destruct (get_client_cert ctx s w) as [[[peer s1] w0]| |] eqn:Eg; [|done..].
  apply client_cert_run in Eg as (Hp & Hu & Hh). unfold accepted. rewrite <- Hh. destruct ok; cbn [negb].
  - unfold mbind, M_bind. cbv beta. destruct (check_crls (crl_store opts) (ctx_current ctx) w0) as [[[e|] w1]| |] eqn:Ec; try done.
    apply not_revoked_ok in Ec.
    rewrite <- Hu. destruct (tls_username s1) as [u|] eqn:Eu.
    + intros [= <- _]. by exists peer.
    + intros [H1 H2]%verify_ctn_run; [|done..]. exists peer. rewrite H1. done.
  - destruct (trusted_client ctx peer); intros [= <- _]. exists peer. done.
Qed.

(** ** A chain *)

(** OpenSSL calls back with its own result and the context for one certificate
    after the other, until a call refuses. *)
Fixpoint verify_chain (opts : nc_server_tls_opts) clb (calls : list (bool * X509_STORE_CTX cert name)) s
    : M W (bool * tls_session cert) :=
  match calls with
  | [] => mret (true, s)
  | (ok, ctx) :: calls =>
    '(r, s) ← nc_tlsclb_verify opts clb ok ctx s;
    if r =? 1 then verify_chain opts clb calls s else mret (false, s)
  end.

(** A name that is known was granted for a certificate of [calls]. *)
Definition name_granted opts clb (calls : list (bool * X509_STORE_CTX cert name)) s : Prop :=
  ∀ u, tls_username s = Some u → ∃ peer ctx, client_cert s = Some peer ∧ (true, ctx) ∈ calls ∧
    granted opts clb peer (ctx_current ctx) u.

Lemma accepted_granted opts clb ok ctx calls s s' :
  accepted opts clb ok ctx s s' → (ok, ctx) ∈ calls → name_granted opts clb calls s → name_granted opts clb calls s'.
Proof.
  intros (peer & Hp & Hh & _ & Hu) Hin Hg u Eu.
  assert (Hold : tls_username s = Some u → ∃ peer0 ctx0, client_cert s' = Some peer0 ∧ (true, ctx0) ∈ calls ∧
    granted opts clb peer0 (ctx_current ctx0) u).
  { intros Es. destruct (Hg u Es) as (p & ctx0 & H1 & H2 & H3). exists p, ctx0. rewrite Hh, H1. done. }
  destruct ok; [|rewrite Hu in Eu; auto]. destruct (tls_username s) as [u0|] eqn:Es.
  - rewrite Hu in Eu. auto.
  - rewrite Eu in Hu. exists peer, ctx. done.
Qed.

Lemma verify_chain_run opts clb all calls s (w : W) s' w' :
  (∀ a c d, X509_digest a c = Some d → d ≠ []) → calls ⊆ all → name_granted opts clb all s →
  verify_chain opts clb calls s w = Done ((true, s'), w') →
  name_granted opts clb all s' ∧ (∀ ctx, (true, ctx) ∈ calls → not_revoked opts (ctx_current ctx)) ∧
  (calls ≠ [] → client_cert s' = match client_cert s with
                                 | Some p => Some p
                                 | None => match calls with (_, ctx) :: _ => head (ctx_chain ctx) | [] => None end
                                 end ∧ is_Some (client_cert s')) ∧
  (∀ calls0 ctx, calls = calls0 ++ [(true, ctx)] → ctx_error_depth ctx ≤ 0 → is_Some (tls_username s') ∨ no_memory).
Proof.
  intros Hd. revert s w. induction calls as [|[ok ctx] calls IH]; intros s w Hsub Hg; cbn [verify_chain].
  - intros [= <- <-]. repeat split; [done|by intros ? ?%not_elem_of_nil|done..|]. by intros [] ? ?.
  - unfold mbind, M_bind. destruct (nc_tlsclb_verify opts clb ok ctx s w) as [[[r s1] w1]| |] eqn:Ev; try done.
    destruct (Z.eqb_spec r 1) as [->|]; [|done]. apply verify_run in Ev; [|by intros ? ?; apply Hd]. intros Hrun.
    assert (Hin : (ok, ctx) ∈ all) by (apply Hsub; left).
    destruct (IH s1 w1) as (H1 & H2 & H3 & H4); [by intros x Hx; apply Hsub; right|by eapply accepted_granted|done|].
    destruct Ev as (peer & Hp & Hh & Hr & Hu). split; [done|]. split; [|split].
    + intros ctx' [[= <- <-]|Hin']%elem_of_cons; auto.
    + intros _. destruct calls as [|call calls]; [injection Hrun as <- _; by rewrite <- Hh, Hp|].
      destruct H3 as [H3 H3']; [done|]. split; [|done]. rewrite H3, Hp, <- Hp, Hh. done.
    + intros [|call calls0] ctx' E Hdep; simplify_eq/=.
      * injection Hrun as <- _. destruct (tls_username s); [rewrite Hu; eauto|].
        destruct (tls_username s1); [eauto|]. destruct Hu; [lia|by right].
      * by eapply H4.
Qed.
End ctn.

(** ** A small hierarchy of certificates *)

Record demo_cert := DemoCert {
  d_subject : bytes;
  d_issuer : bytes;
  d_digest : bytes;
  d_serial : Z;
}.

(** The list of the issuer ["/CN=ca"] revokes the serial number 7. *)
#[export] Instance demo_x509 {m0 up} : X509 (sim m0 up) demo_cert bytes (list Z) := {
  X509_get_subject_name := d_subject;
  X509_get_issuer_name := d_issuer;
  X509_NAME_oneline n w := (Some n, w);
  X509_get_ext_san c := Some [GEN_OTHER; GEN_EMAIL (str "joe@example.org")];
  X509_digest a c := Some ("Z"%char :: d_digest c);
  X509_get0_pubkey_bitstr c := Some (d_digest c);
  X509_get_serialNumber := d_serial;
  X509_get_by_subject store n := if strcmp_eq n (str "/CN=ca") then Some [7] else None;
  X509_CRL_verify l c := true;
  X509_CRL_get0_nextUpdate l := Some 1;
  X509_cmp_current_time t w := (1, w);
  X509_CRL_get_REVOKED l := l;
}.

Definition demo_ca : demo_cert := DemoCert (str "/CN=ca") (str "/CN=root") (str "a") 1.
Definition demo_client : demo_cert := DemoCert (str "/O=CN=root/CN=joe") (str "/CN=ca") (str "z") 2.

(** [5a:7a] is the digest of the client. *)
Definition demo_opts : nc_server_tls_opts :=
  TlsOpts None None 0 None None (Some [CrlFile (str "crl")])
    [Ctn 1 (Some (str "04:61:00")) NC_TLS_CTN_COMMON_NAME None;
     Ctn 2 (Some (str "04:5A:7a")) NC_TLS_CTN_SAN_RFC822_NAME None].

Definition demo_ctx (c : demo_cert) (depth : Z) : X509_STORE_CTX demo_cert bytes :=
  X509StoreCtx [demo_client; demo_ca] (λ _, None) depth c.



(** a client whose chain is accepted.  When OpenSSL's calls of the callback, the
    last of them for the certificate of the client after a successful check of its
    own, all accept, then no certificate that OpenSSL found in order is revoked by
    the list of its issuer, the certificate kept is the first one of the chain, and
    the session has the name that the first matching cert-to-name entry of one of
    the certificates gives it and that the application's callback agreed to; only a
    failed allocation leaves it without a name. *)
Theorem tls_verify_sound (W cert name crl : Type) `{!Env W} `{!X509 W cert name crl}
    opts (clb : verify_clb W cert) calls ctx (w : W) s w' :
  (∀ a (c : cert) d, X509_digest a c = Some d → d ≠ []) → ctx_error_depth ctx ≤ 0 →
  verify_chain opts clb (calls ++ [(true, ctx)]) (TlsSession None None X509_V_OK) w = Done ((true, s), w') →
  (∀ ctx', (true, ctx') ∈ calls ++ [(true, ctx)] → not_revoked opts (ctx_current ctx')) ∧
  ∃ peer, client_cert s = Some peer ∧
    (∃ ok ctx1, head (calls ++ [(true, ctx)]) = Some (ok, ctx1) ∧ head (ctx_chain ctx1) = Some peer) ∧
    ((∃ u ctx', tls_username s = Some u ∧ (true, ctx') ∈ calls ++ [(true, ctx)] ∧ granted opts clb peer (ctx_current ctx') u)
     ∨ (tls_username s = None ∧ no_memory (W := W))).
Proof.
  intros Hd Hdep Hrun. eapply (verify_chain_run _ _ (calls ++ [(true, ctx)])) in Hrun as (H1 & H2 & H3 & H4); [|done..].
  split; [done|]. destruct H3 as [H3 [peer Hp]]; [by destruct calls|]. exists peer. split; [done|]. split.
  - rewrite Hp in H3. simpl in H3. destruct calls as [|[ok ctx1] calls]; simpl; eauto.
  - destruct (tls_username s) as [u|] eqn:Eu.
    + left. destruct (H1 u Eu) as (p & ctx' & E & Hin & Hg). rewrite Hp in E. injection E as <-. eauto.
    + right. split; [done|]. destruct (H4 calls ctx eq_refl Hdep) as [[? ?]|]; done.
Qed.

Lemma tls_verify_sound_witness :
  ∃ s peer, verify_chain demo_opts None ([(true, demo_ctx demo_ca 1)] ++ [(true, demo_ctx demo_client 0)])
      (TlsSession None None X509_V_OK) (Sim (m0 := true) (up := true) [] [] 0) = Done ((true, s), Sim [] [] 0) ∧
    client_cert s = Some peer ∧ not_revoked (W := sim true true) (name := bytes) demo_opts demo_client.
Proof.
  destruct (tls_verify_sound (sim true true) demo_cert bytes (list Z) demo_opts None [(true, demo_ctx demo_ca 1)]
    (demo_ctx demo_client 0) (Sim [] [] 0) (TlsSession (Some demo_client) (Some (str "joe@example.org")) X509_V_OK)
    (Sim [] [] 0)) as [Hr (peer & Hp & _)].
  - intros a c d. simpl. by intros [= <-].
  - done.
  - vm_compute. reflexivity.
  - eexists _, peer. split; [vm_compute; reflexivity|]. split; [exact Hp|]. apply (Hr (demo_ctx demo_client 0)).
    right. left.
Defined.

(** the common name of a certificate is taken from the printed subject at the
    first [CN=], whichever field it stands in: a certificate whose organization is
    [CN=] followed by a name gives the client that name, whatever its own common
    name is. *)
Theorem common_name_from_organization (W cert name crl : Type) `{!Env W} `{!X509 W cert name crl}
    (c : cert) n rest (w w1 : W) :
  X509_NAME_oneline (X509_get_subject_name c) w = (Some (str "/O=CN=" ++ n ++ str "/CN=" ++ rest), w1) →
  "/"%char ∉ n → (malloc_ok (zlen n + 1) w1).1 = true →
  ∃ w2, nc_tls_ctn_get_username_from_cert c NC_TLS_CTN_COMMON_NAME w = Done ((0, Some n), w2).
Proof.
  intros Es Hn Hm. unfold nc_tls_ctn_get_username_from_cert. rewrite decide_True by done.
  unfold mbind, M_bind, call. rewrite Es.
  assert (common_name (str "/O=CN=" ++ n ++ str "/CN=" ++ rest) = Some n) as ->.
  { unfold common_name.
    assert (strstr (str "/O=CN=" ++ n ++ str "/CN=" ++ rest) (str "CN=") = Some (str "CN=" ++ n ++ str "/CN=" ++ rest)) as ->
      by reflexivity.
    assert (drop 3 (str "CN=" ++ n ++ str "/CN=" ++ rest) = n ++ "/"%char :: str "CN=" ++ rest) as -> by reflexivity.
    rewrite span_all; [done| |done]. apply list.Forall_forall. intros x Hx.
    apply negb_true_iff, bool_decide_eq_false. by intros ->. }
  unfold strdup, mbind, M_bind, call. destruct (malloc_ok (zlen n + 1) w1) as [ok w2]. simpl in Hm. subst ok. eauto.
Qed.

Lemma common_name_from_organization_witness :
  ∃ w2, nc_tls_ctn_get_username_from_cert demo_client NC_TLS_CTN_COMMON_NAME (Sim (m0 := true) (up := true) [] [] 0) =
    Done ((0, Some (str "root")), w2).
Proof.
  apply (common_name_from_organization (sim true true) demo_cert bytes (list Z) demo_client (str "root") (str "joe")
    (Sim [] [] 0) (Sim [] [] 0)).
  - reflexivity.
  - apply (bool_decide_eq_true_1 (_ ∉ _)). reflexivity.
  - reflexivity.
Defined.
