(* ===== verification/Sockets.v ===== *)
(** * Listening and accepting

    src/session_server.c and src/session.c: creating listening sockets and accepting
    connections on an array of them ([struct nc_bind]).  The socket functions of the
    system are a parameter; [open_fds] is the set of descriptors the process has
    open. *)

From S2P Require Import Prelude Session Env Sim Capabilities.
From Stdlib Require Import ZArith Ascii String Lia.
From stdpp Require Import base list strings gmap numbers fin_sets.
Open Scope Z_scope.

(** Address families, and the options of sockets the code sets. *)
Inductive af := AF_UNIX | AF_INET | AF_INET6.

Inductive sockopt := SO_REUSEADDR | SO_KEEPALIVE | TCP_NODELAY | TCP_KEEPIDLE | TCP_KEEPCNT | TCP_KEEPINTVL.

(** The address of a peer: inet addresses with their port. *)
Inductive sockaddr := SaUnix | SaInet (addr : bytes) (port : Z) | SaInet6 (addr : bytes) (port : Z) | SaOther.

(** System calls on sockets: a descriptor or -1, success, or the number of sockets
    with events and which of them can be read. *)
Class SockEnv (W : Type) := {
  sock_socket : af → W → Z * W;
  sock_setsockopt : Z → sockopt → Z → W → bool * W;
  inet_pton_ok : af → bytes → bool;
  sock_bind_inet : Z → af → bytes → Z → W → bool * W;
  sock_bind_unix : Z → bytes → W → bool * W;
  sock_unlink : bytes → W → W;
  sock_chmod : bytes → Z → W → bool * W;
  sock_chown : bytes → Z → Z → W → bool * W;
  sock_listen : Z → Z → W → bool * W;
  sock_close : Z → W → W;
  sock_poll : list Z → Z → W → (Z * list bool) * W;
  sock_accept : Z → W → option (Z * sockaddr) * W;
  sock_set_nonblock : Z → W → bool * W;
  sock_getsockname_unix : Z → W → option bytes * W;
  sock_inet_ntop : bytes → W → option bytes * W;
}.

(** Which descriptors are open: [socket] and [accept] return one that was not,
    [close] closes it, nothing else changes the set. *)
Class SockLaws (W : Type) `{!Env W} `{!SockEnv W} := {
  open_fds : W → gset Z;
  socket_law a w : let (fd, w') := sock_socket a w in
    (fd = -1 ∧ open_fds w' = open_fds w) ∨ (0 ≤ fd ∧ fd ∉ open_fds w ∧ open_fds w' = {[fd]} ∪ open_fds w);
  accept_law s w : match sock_accept s w with
    | (None, w') => open_fds w' = open_fds w
    | (Some (fd, _), w') => 0 ≤ fd ∧ fd ∉ open_fds w ∧ open_fds w' = {[fd]} ∪ open_fds w
    end;
  close_law fd w : open_fds (sock_close fd w) = open_fds w ∖ {[fd]};
  setsockopt_law fd o v w : open_fds (sock_setsockopt fd o v w).2 = open_fds w;
  bind_inet_law fd a s p w : open_fds (sock_bind_inet fd a s p w).2 = open_fds w;
  bind_unix_law fd s w : open_fds (sock_bind_unix fd s w).2 = open_fds w;
  unlink_law s w : open_fds (sock_unlink s w) = open_fds w;
  chmod_law s m w : open_fds (sock_chmod s m w).2 = open_fds w;
  chown_law s u g w : open_fds (sock_chown s u g w).2 = open_fds w;
  listen_law fd n w : open_fds (sock_listen fd n w).2 = open_fds w;
  poll_fds_law l t w : open_fds (sock_poll l t w).2 = open_fds w;
  poll_length l t w : length (sock_poll l t w).1.2 = length l;
  nonblock_law fd w : open_fds (sock_set_nonblock fd w).2 = open_fds w;
  getsockname_law fd w : open_fds (sock_getsockname_unix fd w).2 = open_fds w;
  inet_ntop_law a w : open_fds (sock_inet_ntop a w).2 = open_fds w;
  malloc_fds n w : open_fds (malloc_ok n w).2 = open_fds w;
}.

Record nc_keepalives := Keepalives {
  ka_enabled : bool;
  ka_idle_time : Z;
  ka_max_probes : Z;
  ka_probe_interval : Z;
}.

Record nc_server_unix_opts := UnixOpts {
  unix_mode : Z;
  unix_uid : Z;
  unix_gid : Z;
}.

Record nc_bind := NcBind {
  bind_address : option bytes;
  bind_port : Z;
  bind_sock : Z;
  bind_pollin : bool;
}.

(** [(mode_t)-1] and the like, 32 bits wide. *)
Definition UNSET : Z := 2 ^ 32 - 1.

(** [sizeof(sun.sun_path)] on Linux. *)
Definition SUN_PATH : Z := 108.

Definition NC_REVERSE_QUEUE : Z := 5.

Section sockets.
Context {W : Type} `{!Env W} `{!SockEnv W}.

(** Steps that lead to the label [fail] when one does not succeed. *)
Fixpoint all_ok (steps : list (M W bool)) : M W bool :=
  match steps with
  | [] => mret true
  | m :: steps => ok ← m; if ok : bool then all_ok steps else mret false
  end.

Definition nc_sock_enable_keepalive (sock : Z) (ka : nc_keepalives) : M W bool :=
  ok ← call (sock_setsockopt sock SO_KEEPALIVE (if ka_enabled ka then 1 else 0));
  if negb ok then mret false
  else if negb (ka_enabled ka) then mret true
  else all_ok [call (sock_setsockopt sock TCP_KEEPIDLE (ka_idle_time ka));
               call (sock_setsockopt sock TCP_KEEPCNT (ka_max_probes ka));
               call (sock_setsockopt sock TCP_KEEPINTVL (ka_probe_interval ka))].

Definition is_ipv4 (address : bytes) : bool := negb (bool_decide (":"%char ∈ address)).

(** The code at the label [fail] of the functions that create a socket. *)
Definition keep_or_close (sock : Z) (ok : bool) : M W Z :=
  if ok then mret sock else _ ← modify (sock_close sock); mret (-1).

Definition nc_sock_listen_inet (address : bytes) (port : Z) (ka : nc_keepalives) : M W Z :=
  let a := if is_ipv4 address then AF_INET else AF_INET6 in
  sock ← call (sock_socket a);
  if sock =? -1 then mret (-1)
  else
    ok ← all_ok [call (sock_setsockopt sock SO_REUSEADDR 1);
                 call (sock_setsockopt sock TCP_NODELAY 1);
                 nc_sock_enable_keepalive sock ka;
                 mret (inet_pton_ok a address);
                 call (sock_bind_inet sock a address port);
                 call (sock_listen sock NC_REVERSE_QUEUE)];
    keep_or_close sock ok.

(** [snprintf] is given one byte less than the array has and keeps one of them for
    the terminating NUL. *)
Definition nc_sock_listen_unix (address : bytes) (opts : nc_server_unix_opts) : M W Z :=
  if SUN_PATH - 1 <? zlen address then mret (-1)
  else
    sock ← call (sock_socket AF_UNIX);
    if sock =? -1 then mret (-1)
    else
      let path := ztake (SUN_PATH - 2) address in
      _ ← modify (sock_unlink path);
      ok ← all_ok [call (sock_bind_unix sock path);
                   (if unix_mode opts =? UNSET then mret true else call (sock_chmod path (unix_mode opts)));
                   (if (unix_uid opts =? UNSET) && (unix_gid opts =? UNSET) then mret true
                    else call (sock_chown path (unix_uid opts) (unix_gid opts)));
                   call (sock_listen sock NC_REVERSE_QUEUE)];
      keep_or_close sock ok.

(** ** Accepting *)

Definition set_pollin (v : bool) (b : nc_bind) : nc_bind :=
  NcBind (bind_address b) (bind_port b) (bind_sock b) v.

(** The first loop: the sockets to poll, or a socket with an event that is left
    over from an earlier call. *)
Fixpoint scan_binds (l : list nc_bind) (i : Z) : option (Z * Z) * list Z * list nc_bind :=
  match l with
  | [] => (None, [], [])
  | b :: l =>
    if bind_sock b <? 0 then let '(r, pfd, l) := scan_binds l (i + 1) in (r, pfd, b :: l)
    else if bind_pollin b then (Some (bind_sock b, i), [], set_pollin false b :: l)
    else let '(r, pfd, l) := scan_binds l (i + 1) in (r, bind_sock b :: pfd, b :: l)
  end.

(** The second loop: [ret] sockets have events, the last one that can be read is
    used and the others are remembered.  The socket of the current [pfd] is looked
    for in the binds from [i] on. *)
Fixpoint pick_event (ret : Z) (pfd : list (Z * bool)) (l : list nc_bind) (i : Z)
    : M W (option (Z * Z) * list nc_bind) :=
  match pfd with
  | [] => mret (None, l)
  | (fd, pollin) :: pfd' =>
    match l with
    | [] => crash
    | b :: l' =>
      if bind_sock b =? fd then
        if pollin : bool then
          if ret - 1 =? 0 then mret (Some (fd, i), l)
          else '(r, l') ← pick_event (ret - 1) pfd' l' (i + 1); mret (r, set_pollin true b :: l')
        else '(r, l') ← pick_event ret pfd' l' (i + 1); mret (r, b :: l')
      else '(r, l') ← pick_event ret pfd l' (i + 1); mret (r, b :: l')
    end
  end.

(** The host and port of a client, [None] on an error. *)
Definition sock_host_unix (sock : Z) : M W (option (option bytes * Z)) :=
  path ← call (sock_getsockname_unix sock);
  match path with
  | None => mret None
  | Some p =>
    h ← strdup p;
    mret (match h with Some _ => Some (h, 0) | None => None end)
  end.

Definition sock_host_inet (len : Z) (addr : bytes) (port : Z) : M W (option (option bytes * Z)) :=
  ok ← call (malloc_ok len);
  if negb ok then mret None
  else
    h ← call (sock_inet_ntop addr);
    mret (match h with Some _ => Some (h, port) | None => None end).

Definition INET_ADDRSTRLEN : Z := 16.
Definition INET6_ADDRSTRLEN : Z := 46.

Definition sock_host (sock : Z) (saddr : sockaddr) : M W (option (option bytes * Z)) :=
  match saddr with
  | SaUnix => sock_host_unix sock
  | SaInet a p => sock_host_inet INET_ADDRSTRLEN a p
  | SaInet6 a p => sock_host_inet INET6_ADDRSTRLEN a p
  | SaOther => mret None
  end.

(** What is learnt of a connection: the host, the port and the index of the bind. *)
Definition accepted_info : Type := option bytes * Z * Z.

(** Accepting on a socket that was chosen. *)
Definition accept_on (sock i : Z) : M W (Z * option accepted_info) :=
  c ← call (sock_accept sock);
  match c with
  | None => mret (-1, None)
  | Some (client_sock, saddr) =>
    ok ← call (sock_set_nonblock client_sock);
    info ← (if ok : bool then sock_host client_sock saddr else mret None);
    match info with
    | None => _ ← modify (sock_close client_sock); mret (-1, None)
    | Some (h, p) => mret (client_sock, Some (h, p, i))
    end
  end.

Definition nc_sock_accept_binds (binds : list nc_bind) (timeout : Z) : M W (Z * option accepted_info * list nc_bind) :=
  ok ← call (malloc_ok (zlen binds * 8));
  if negb ok then mret (-1, None, binds)
  else
    match scan_binds binds 0 with
    | (Some (sock, i), _, binds) => '(r, info) ← accept_on sock i; mret (r, info, binds)
    | (None, pfd, binds) =>
      '(ret, revents) ← call (sock_poll pfd timeout);
      if ret =? 0 then mret (0, None, binds)
      else if ret =? -1 then mret (-1, None, binds)
      else
        '(s, binds) ← pick_event ret (zip pfd revents) binds 0;
        match s with
        | None => mret (-1, None, binds)
        | Some (sock, i) => '(r, info) ← accept_on sock i; mret (r, info, binds)
        end
    end.
End sockets.
