(* ===== verification/SocketsProofs.v ===== *)
(** * Sockets: ownership and events

    What the functions on sockets open and close, and the events of binds, with a simulated network to evaluate them on. *)

From S2P Require Import Prelude Session Env Sim Sockets Capabilities.
From Stdlib Require Import ZArith Ascii String Lia.
From stdpp Require Import base list strings gmap numbers fin_sets.
Open Scope Z_scope.

(** ** A simulated network

    The simulated environment with descriptors: sockets get the lowest number above
    the open ones, binding and listening succeed, and the sockets of [net_ready] have
    a connection waiting. *)

Record net := Net {
  net_sim : sim true true;
  net_fds : gset Z;
  net_ready : list Z;
}.

Definition on_sim {A} (f : sim true true → A * sim true true) (w : net) : A * net :=
  let (a, s) := f (net_sim w) in (a, Net s (net_fds w) (net_ready w)).

#[export] Instance net_env : Env net := {
  clock_mono := on_sim clock_mono;
  clock_real := on_sim clock_real;
  usleep n w := Net (usleep n (net_sim w)) (net_fds w) (net_ready w);
  malloc_ok n := on_sim (malloc_ok n);
  sys_read fd n := on_sim (sys_read fd n);
  ssh_channel_read n := on_sim (ssh_channel_read n);
  ssh_channel_is_eof := on_sim ssh_channel_is_eof;
  ssh_channel_is_closed := on_sim ssh_channel_is_closed;
  ssl_read n := on_sim (ssl_read n);
  sys_poll fd t := on_sim (sys_poll fd t);
  ssh_channel_poll_timeout t := on_sim (ssh_channel_poll_timeout t);
  ssh_is_connected := on_sim ssh_is_connected;
  ssl_pending := on_sim ssl_pending;
  ssl_get_fd := on_sim ssl_get_fd;
  sys_write fd bs := on_sim (sys_write fd bs);
  ssh_channel_write bs := on_sim (ssh_channel_write bs);
  ssl_write bs := on_sim (ssl_write bs);
  ly_in_new_memory bs := on_sim (ly_in_new_memory bs);
  lyd_new_opaq2 bs := on_sim (lyd_new_opaq2 bs);
  mutex_lock l := on_sim (mutex_lock l);
  mutex_timedlock l ts := on_sim (mutex_timedlock l ts);
  mutex_trylock l := on_sim (mutex_trylock l);
  mutex_unlock l := on_sim (mutex_unlock l);
  cond_timedwait l ts := on_sim (cond_timedwait l ts);
  cond_wait l := on_sim (cond_wait l);
}.

(** A number above all of a list. *)
Definition above (l : list Z) : Z := 1 + foldr Z.max 2 l.

Lemma above_fresh l x : x ∈ l → x < above l.
Proof.
  unfold above. induction l as [|y l IH]; [by intros ?%not_elem_of_nil|]. simpl.
  intros [->|H]%elem_of_cons; [lia|]. apply IH in H. lia.
Qed.

Lemma above_nonneg l : 0 ≤ above l.
Proof. unfold above. induction l; simpl; lia. Qed.

Definition net_new (w : net) : Z * net :=
  let fd := above (elements (net_fds w)) in (fd, Net (net_sim w) ({[fd]} ∪ net_fds w) (net_ready w)).

#[export] Instance net_sock : SockEnv net := {
  sock_socket a w := net_new w;
  sock_setsockopt fd o v w := (true, w);
  inet_pton_ok a s := true;
  sock_bind_inet fd a s p w := (true, w);
  sock_bind_unix fd s w := (true, w);
  sock_unlink s w := w;
  sock_chmod s m w := (true, w);
  sock_chown s u g w := (true, w);
  sock_listen fd n w := (true, w);
  sock_close fd w := Net (net_sim w) (net_fds w ∖ {[fd]}) (net_ready w);
  sock_poll l t w :=
    let ev := map (λ fd, bool_decide (fd ∈ net_ready w)) l in
    ((zlen (filter (λ b, b = true) ev), ev), w);
  sock_accept fd w := let (c, w) := net_new w in (Some (c, SaInet (str "10.0.0.1") 1024), w);
  sock_set_nonblock fd w := (true, w);
  sock_getsockname_unix fd w := (Some [], w);
  sock_inet_ntop a w := (Some a, w);
}.

Lemma net_new_law w : let (fd, w') := net_new w in
  0 ≤ fd ∧ fd ∉ net_fds w ∧ net_fds w' = {[fd]} ∪ net_fds w.
Proof.
  unfold net_new. cbn. split; [apply above_nonneg|]. split; [|done]. intros H%elem_of_elements%above_fresh. lia.
Qed.

#[export] Instance net_laws : SockLaws net.
Proof.
  refine {| open_fds := net_fds |}; try (intros; done).
  - intros a w. pose proof (net_new_law w) as H. cbn. by right.
  - intros s w. pose proof (net_new_law w) as H. by cbn.
  - intros l t w. cbn. by rewrite length_map.
Defined.

(** ** Sockets: ownership and events

    A function that creates or accepts a socket either returns it open or leaves the
    open descriptors as they were; events that [poll] reported are not lost between
    calls of [nc_sock_accept_binds]. *)

Section fds.
Context {W : Type} `{!Env W} `{!SockEnv W} `{!SockLaws W}.

(** [w'] has the descriptors of [w] open. *)
Definition same_fds (w w' : W) : Prop := open_fds w' = open_fds w.

(** [r] is a new descriptor, or none was opened. *)
Definition new_fd (w : W) (r : Z) (w' : W) : Prop :=
  (r = -1 ∧ same_fds w w') ∨ (0 ≤ r ∧ r ∉ open_fds w ∧ open_fds w' = {[r]} ∪ open_fds w).

(** A computation that does not open or close anything. *)
Definition keeps {A} (m : M W A) : Prop := ∀ F w, wpx F m (λ _ w', same_fds w w') w.

Lemma keeps_call {A} (f : W → A * W) : (∀ w, open_fds (f w).2 = open_fds w) → keeps (call f).
Proof. intros H F w. apply wpx_call, H. Qed.

Lemma keeps_ret {A} (a : A) : keeps (mret a).
Proof. intros F w. by apply wpx_ret. Qed.

Lemma keeps_bind {A B} (m : M W A) (k : A → M W B) : keeps m → (∀ a, keeps (k a)) → keeps (m ≫= k).
Proof.
  intros Hm Hk F w. apply wpx_bind. eapply wpx_mono; [apply Hm|]. intros a w1 H1.
  eapply wpx_mono; [apply Hk|]. intros b w2 H2. unfold same_fds in *. congruence.
Qed.

Lemma keeps_all_ok steps : Forall keeps steps → keeps (all_ok steps).
Proof.
  induction 1 as [|m steps Hm _ IH]; [apply keeps_ret|]. cbn [all_ok]. apply keeps_bind; [done|].
  intros []; [done|apply keeps_ret].
Qed.

Lemma keeps_if {A} (b : bool) (m1 m2 : M W A) : keeps m1 → keeps m2 → keeps (if b then m1 else m2).
Proof. by destruct b. Qed.

Lemma keeps_strdup s : keeps (strdup s).
Proof. apply keeps_bind; [apply keeps_call, malloc_fds|]. intros. apply keeps_ret. Qed.

(** The functions that only use system calls which keep the descriptors. *)
Ltac keep :=
  repeat lazymatch goal with
  | |- keeps (mret _) => apply keeps_ret
  | |- keeps (strdup _) => apply keeps_strdup
  | |- keeps (call _) => apply keeps_call; intros; first
      [apply setsockopt_law|apply bind_inet_law|apply bind_unix_law|apply chmod_law|apply chown_law|apply listen_law
      |apply malloc_fds|apply nonblock_law|apply getsockname_law|apply inet_ntop_law|apply poll_fds_law]
  | |- keeps (all_ok _) => apply keeps_all_ok
  | |- Forall keeps (_ :: _) => constructor
  | |- Forall keeps [] => constructor
  | |- keeps (mbind _ _) => apply keeps_bind; [|intros ?]
  | |- keeps (if _ then _ else _) => apply keeps_if
  | |- keeps (match ?x with _ => _ end) => destruct x
  | |- keeps (nc_sock_enable_keepalive _ _) => unfold nc_sock_enable_keepalive
  | |- keeps (sock_host _ _) => unfold sock_host, sock_host_unix, sock_host_inet
  end.

Lemma close_new (fd : Z) (X : gset Z) : fd ∉ X → ({[fd]} ∪ X) ∖ {[fd]} = X.
Proof. set_solver. Qed.

(** A socket that was just created. *)
Lemma wpx_keep_or_close F sock (m : M W bool) w w0 :
  0 ≤ sock → sock ∉ open_fds w0 → open_fds w = {[sock]} ∪ open_fds w0 → keeps m →
  wpx F (ok ← m; keep_or_close sock ok) (new_fd w0) w.
Proof.
  intros Hs Hn Ho Hm. apply wpx_bind. eapply wpx_mono; [apply Hm|]. unfold same_fds. intros [] w1 H1; unfold keep_or_close.
  - apply wpx_ret. right. by rewrite H1.
  - apply wpx_bind, wpx_modify, wpx_ret. left. split; [done|]. unfold same_fds. rewrite close_law, H1, Ho. by apply close_new.
Qed.

Lemma listen_inet_fds F address port ka w :
  wpx F (nc_sock_listen_inet address port ka) (new_fd w) w.
Proof.
  unfold nc_sock_listen_inet. apply wpx_bind, wpx_call.
  pose proof (socket_law (if is_ipv4 address then AF_INET else AF_INET6) w) as H.
  destruct (sock_socket _ w) as [sock w1]. simpl. destruct H as [[-> H]|(H0 & H1 & H2)].
  - apply wpx_ret. by left.
  - replace (sock =? -1) with false by lia. apply wpx_keep_or_close; [done..|keep].
Qed.

Lemma listen_unix_fds F address opts w :
  wpx F (nc_sock_listen_unix address opts) (new_fd w) w.
Proof.
  unfold nc_sock_listen_unix. destruct (_ <? _); [apply wpx_ret; by left|]. apply wpx_bind, wpx_call.
  pose proof (socket_law AF_UNIX w) as H. destruct (sock_socket _ w) as [sock w1]. simpl.
  destruct H as [[-> H]|(H0 & H1 & H2)].
  - apply wpx_ret. by left.
  - replace (sock =? -1) with false by lia. apply wpx_bind, wpx_modify. apply wpx_keep_or_close; [done..|by rewrite unlink_law|keep].
Qed.

Lemma accept_on_fds F sock i w : wpx F (accept_on sock i) (λ '(r, _) w', new_fd w r w') w.
Proof.
  unfold accept_on. apply wpx_bind, wpx_call. pose proof (accept_law sock w) as H.
  destruct (sock_accept sock w) as [[[fd saddr]|] w1]; simpl; [|by apply wpx_ret; left].
  destruct H as (H0 & H1 & H2). apply wpx_bind. eapply wpx_mono; [apply keeps_call, nonblock_law|].
  intros ok w2 H3. apply wpx_bind. eapply wpx_mono.
  { assert (Hk : keeps (if ok then sock_host fd saddr else mret None)); [|apply Hk]. keep. }
  intros [[h p]|] w3 H4; unfold same_fds in *.
  - apply wpx_ret. right. by rewrite H4, H3.
  - apply wpx_bind, wpx_modify, wpx_ret. left. split; [done|]. unfold same_fds. rewrite close_law, H4, H3, H2. by apply close_new.
Qed.
End fds.

(** ** Events *)

(** The sockets with an event that was not handled yet. *)
Definition pending (l : list nc_bind) : list Z :=
  bind_sock <$> filter (λ b, 0 ≤ bind_sock b ∧ bind_pollin b = true) l.

(** The same addresses, ports and sockets. *)
Definition same_binds (l l' : list nc_bind) : Prop := set_pollin false <$> l' = set_pollin false <$> l.

Lemma pending_cons b l :
  pending (b :: l) = (if (0 <=? bind_sock b) && bind_pollin b then [bind_sock b] else []) ++ pending l.
Proof.
  unfold pending. rewrite filter_cons. destruct (decide _) as [[H1 H2]|N].
  - rewrite H2. rewrite (proj2 (Z.leb_le _ _) H1). done.
  - destruct (Z.leb_spec 0 (bind_sock b)), (bind_pollin b); try done. exfalso. auto.
Qed.

(** The sockets that are polled. *)
Definition polled (l : list nc_bind) : list Z := filter (λ fd, 0 ≤ fd) (bind_sock <$> l).

Lemma scan_none l i : pending l = [] → scan_binds l i = (None, polled l, l).
Proof.
  revert i. induction l as [|b l IH]; intros i Hp; [done|]. rewrite pending_cons in Hp. apply app_eq_nil in Hp as [H1 H2].
  cbn [scan_binds]. unfold polled. rewrite fmap_cons, filter_cons, IH by done. destruct (Z.ltb_spec (bind_sock b) 0).
  - by rewrite decide_False by lia.
  - rewrite decide_True by lia. rewrite (proj2 (Z.leb_le _ _)) in H1 by lia. by destruct (bind_pollin b).
Qed.

Lemma scan_some l i s rest :
  pending l = s :: rest →
  ∃ j pfd l', scan_binds l i = (Some (s, i + Z.of_nat j), pfd, l') ∧ pending l' = rest ∧ same_binds l l' ∧
    bind_sock <$> l !! j = Some s.
Proof.
  revert i. induction l as [|b l IH]; intros i Hp; [done|]. rewrite pending_cons in Hp. cbn [scan_binds].
  destruct (Z.ltb_spec (bind_sock b) 0).
  - rewrite (proj2 (Z.leb_gt _ _)) in Hp by lia. destruct (IH (i + 1) Hp) as (j & pfd & l' & -> & H1 & H2 & H3).
    exists (S j), pfd, (b :: l'). split; [do 4 f_equal; lia|]. split; [rewrite pending_cons, (proj2 (Z.leb_gt _ _)) by lia; done|].
    split; [by unfold same_binds in *; rewrite !fmap_cons, H2|done].
  - rewrite (proj2 (Z.leb_le _ _)) in Hp by lia. destruct (bind_pollin b) eqn:Eb.
    + injection Hp as <- <-. exists 0%nat, [], (set_pollin false b :: l). rewrite Z.add_0_r. split; [done|].
      split; [rewrite pending_cons; cbn; by rewrite andb_false_r|]. done.
    + destruct (IH (i + 1) Hp) as (j & pfd & l' & -> & H1 & H2 & H3).
      exists (S j), (bind_sock b :: pfd), (b :: l'). split; [do 4 f_equal; lia|].
      split; [rewrite pending_cons, Eb, andb_false_r; done|].
      split; [by unfold same_binds in *; rewrite !fmap_cons, H2|done].
Qed.

(** The sockets [poll] reported. *)
Definition readable (pfd : list (Z * bool)) : list Z := (filter (λ x, x.2 = true) pfd).*1.

Lemma pick_event_ok {W} F ret l ev i (Q : option (Z * Z) * list nc_bind → W → Prop) w :
  pending l = [] → length ev = length (polled l) → readable (zip (polled l) ev) ≠ [] →
  ret = zlen (readable (zip (polled l) ev)) →
  (∀ j s l' rest, readable (zip (polled l) ev) = rest ++ [s] → pending l' = rest → same_binds l l' →
     bind_sock <$> l !! j = Some s → Q (Some (s, i + Z.of_nat j), l') w) →
  wpx F (pick_event ret (zip (polled l) ev) l i) Q w.
Proof.
  revert ret ev i Q. induction l as [|b l IH]; intros ret ev i Q Hp Hl Hne -> HQ; [done|].
  rewrite pending_cons in Hp. apply app_eq_nil in Hp as [Hb Hp]. unfold polled in *.
  rewrite fmap_cons, filter_cons in *. destruct (decide (0 ≤ bind_sock b)) as [H0|H0].
  - destruct ev as [|e ev]; [done|]. injection Hl as Hl. cbn [zip zip_with pick_event] in *. rewrite Z.eqb_refl.
    rewrite (proj2 (Z.leb_le _ _) H0) in Hb. destruct (bind_pollin b) eqn:Eb; [done|]. clear Hb.
    unfold readable in *. rewrite filter_cons in *. cbn [snd] in *. destruct e.
    + rewrite decide_True in * by done. cbn [fmap list_fmap fst] in *. rewrite zlen_cons in *.
      destruct (filter _ (zip _ ev)) as [|x rest] eqn:Er.
      * cbn. apply wpx_ret. specialize (HQ 0%nat (bind_sock b) (b :: l) []). rewrite Z.add_0_r in HQ.
        apply HQ; [done| |done|done]. by rewrite pending_cons, Eb, andb_false_r.
      * pose proof (zlen_nonneg rest). rewrite (proj2 (Z.eqb_neq _ _)) by (unfold zlen; simpl; lia).
        apply wpx_bind, IH; rewrite ?Er; [done..|cbn [fmap list_fmap]; lia|].
        intros j s l' r Hr Hpl Hs Hj. apply wpx_ret.
        replace (i + 1 + Z.of_nat j) with (i + Z.of_nat (S j)) by lia. apply (HQ (S j) s _ (bind_sock b :: r)).
        -- by rewrite <- app_comm_cons, <- Hr.
        -- rewrite pending_cons. cbn. by rewrite (proj2 (Z.leb_le _ _) H0), Hpl.
        -- unfold same_binds in *. by rewrite !fmap_cons, Hs.
        -- done.
    + rewrite decide_False in * by done. apply wpx_bind, IH; [done..|]. intros j s l' r Hr Hpl Hs Hj. apply wpx_ret.
      replace (i + 1 + Z.of_nat j) with (i + Z.of_nat (S j)) by lia. apply (HQ (S j) s _ r); [done| | |done].
      * by rewrite pending_cons, Eb, andb_false_r.
      * unfold same_binds in *. by rewrite !fmap_cons, Hs.
  - destruct (zip _ ev) as [|[fd e] pfd] eqn:Ez; [done|]. cbn [pick_event].
    assert (Hfd : 0 ≤ fd).
    { assert (Hin : (fd, e) ∈ zip (filter (λ fd, 0 ≤ fd) (bind_sock <$> l)) ev) by (rewrite Ez; left).
      apply elem_of_zip_l in Hin. by apply list_elem_of_filter in Hin as [? _]. }
    replace (bind_sock b =? fd) with false by lia. rewrite <- Ez in *. apply wpx_bind, IH; [done..|].
    intros j s l' r Hr Hpl Hs Hj. apply wpx_ret.
    replace (i + 1 + Z.of_nat j) with (i + Z.of_nat (S j)) by lia. apply (HQ (S j) s _ r); [done| | |done].
    + rewrite pending_cons, (proj2 (Z.leb_gt _ _)) by lia. done.
    + unfold same_binds in *. by rewrite !fmap_cons, Hs.
Qed.

(** Accepting on the socket [s] of the bind [i] and leaving the binds [l]. *)
Definition accept_then {W} `{!Env W, !SockEnv W} (s i : Z) (l : list nc_bind) : M W (Z * option accepted_info * list nc_bind) :=
  '(r, info) ← accept_on s i; mret (r, info, l).

(** no event is lost between calls.  A call with sockets left over from an
    earlier one accepts on the first of them without polling, and leaves the others;
    a call without any polls all valid sockets and, when [poll] reports readable
    sockets and nothing else, accepts on the last of them and leaves the others over:
    as many calls as there were readable sockets accept on each of them once.  The
    index given to the caller is that of the socket. *)
Theorem accept_binds_events (W : Type) `{!Env W} `{!SockEnv W} `{!SockLaws W} binds timeout (w w1 : W) :
  malloc_ok (zlen binds * 8) w = (true, w1) →
  (∀ s rest, pending binds = s :: rest →
    ∃ i binds', nc_sock_accept_binds binds timeout w = accept_then s i binds' w1 ∧
      pending binds' = rest ∧ same_binds binds binds' ∧ bind_sock <$> binds !! Z.to_nat i = Some s) ∧
  (pending binds = [] → ∀ ev ready w2, sock_poll (polled binds) timeout w1 = ((zlen ready, ev), w2) →
    ready = readable (zip (polled binds) ev) → ready ≠ [] →
    ∃ s i binds' rest, ready = rest ++ [s] ∧ nc_sock_accept_binds binds timeout w = accept_then s i binds' w2 ∧
      pending binds' = rest ∧ same_binds binds binds' ∧ bind_sock <$> binds !! Z.to_nat i = Some s).
Proof.
  intros Em.
  assert (E : nc_sock_accept_binds binds timeout w =
    match scan_binds binds 0 with
    | (Some (sock, i), _, l) => accept_then sock i l
    | (None, pfd, l) =>
      '(ret, revents) ← call (sock_poll pfd timeout);
      if ret =? 0 then mret (0, None, l)
      else if ret =? -1 then mret (-1, None, l)
      else '(s, l) ← pick_event ret (zip pfd revents) l 0;
           match s with None => mret (-1, None, l) | Some (sock, i) => accept_then sock i l end
    end w1) by (unfold nc_sock_accept_binds, mbind at 1, M_bind at 1, call at 1; by rewrite Em).
  split.
  - intros s rest Hp. destruct (scan_some binds 0 s rest Hp) as (j & pfd & l' & Es & H1 & H2 & H3). rewrite Es in E.
    exists (0 + Z.of_nat j), l'. split; [done|]. by rewrite Z.add_0_l, Nat2Z.id.
  - intros Hp ev ready w2 Epoll Hr Hne. rewrite scan_none in E by done. rewrite E. unfold mbind at 1, M_bind at 1, call.
    rewrite Epoll. pose proof (zlen_nonneg ready). assert (zlen ready ≠ 0) by (by intros ?%zlen_nil_inv).
    replace (_ =? 0) with false by lia. replace (_ =? -1) with false by lia. unfold mbind at 1, M_bind at 1.
    assert (Hev : wp (pick_event (zlen ready) (zip (polled binds) ev) binds 0) (λ '(r, l') w', w' = w2 ∧
      ∃ j s rest, r = Some (s, 0 + Z.of_nat j) ∧ ready = rest ++ [s] ∧ pending l' = rest ∧ same_binds binds l' ∧
        bind_sock <$> binds !! j = Some s) w2).
    { apply pick_event_ok; rewrite <- ?Hr; [done| |done..|].
      - by rewrite <- (poll_length (polled binds) timeout w1), Epoll.
      - intros j s l' rest H1 H2 H3 H4. split; [done|]. by exists j, s, rest. }
    apply wp_total in Hev as ([r l'] & w' & -> & -> & j & s & rest & -> & H1 & H2 & H3 & H4).
    exists s, (0 + Z.of_nat j), l', rest. rewrite Z.add_0_l, Nat2Z.id. done.
Qed.

Lemma accept_binds_events_witness :
  let l := [NcBind (Some (str "::")) 830 4 false; NcBind None 0 (-1) false; NcBind (Some (str "::")) 831 5 false] in
  let w := Net (Sim [] [] 0) {[ 4; 5 ]} [4; 5] in
  ∃ s i binds', nc_sock_accept_binds l 0 w = accept_then s i binds' w ∧ pending binds' = [4] ∧
    bind_sock <$> l !! Z.to_nat i = Some s.
Proof.
  intros l w. destruct (accept_binds_events net l 0 w w) as [_ H].
  - reflexivity.
  - destruct (H eq_refl [true; true] [4; 5] w) as (s & i & l' & rest & Hr & E & Hp & _ & Hi).
    + vm_compute. reflexivity.
    + reflexivity.
    + discriminate.
    + exists s, i, l'. split; [exact E|]. split; [|exact Hi]. rewrite Hp. by destruct rest as [|? [|? [|? ?]]]; simplify_eq/=.
Defined.

(** a path of 107 characters, which the check of the length lets through, is cut
    to its first 106: listening on it removes the file of the shorter name and binds
    the socket to that name. *)
Theorem unix_path_cut (W : Type) `{!Env W} `{!SockEnv W} address opts :
  zlen address = 107 → nc_sock_listen_unix (W := W) address opts = nc_sock_listen_unix (ztake 106 address) opts.
Proof.
  intros Hl. unfold nc_sock_listen_unix. rewrite zlen_ztake, Hl by lia. cbn [Z.ltb Z.compare].
  change (SUN_PATH - 1 <? 107) with false. change (SUN_PATH - 1 <? 106) with false. change (SUN_PATH - 2) with 106.
  unfold ztake. by rewrite take_take, Nat.min_id.
Qed.

Lemma unix_path_cut_witness :
  nc_sock_listen_unix (W := net) (replicate 106 "a"%char ++ str "b") (UnixOpts UNSET UNSET UNSET) =
  nc_sock_listen_unix (replicate 106 "a"%char) (UnixOpts UNSET UNSET UNSET).
Proof. exact (unix_path_cut net (replicate 106 "a"%char ++ str "b") (UnixOpts UNSET UNSET UNSET) eq_refl). Defined.
