(* ===== verification/Endpoints.v ===== *)
(** * Endpoints of the server

    src/session_server.c: the endpoints a server listens on, their sockets, and the
    functions of src/session_server_ssh.c and src/session_server_tls.c that change
    the options of one endpoint.  [endpts] and [binds] are arrays with the same
    number of elements; [bind_lock] and [endpt_lock] are taken in this order. *)

From S2P Require Import Prelude Session Env Capabilities PtrArray SshOpts TlsOpts Sockets.
From Stdlib Require Import ZArith Ascii String Lia.
From stdpp Require Import base list strings gmap numbers fin_sets.
Open Scope Z_scope.

(** The union [opts] of an endpoint, [OptsNull] for [NULL]. *)
Inductive endpt_opts :=
| OptsNull
| OptsSsh (o : nc_server_ssh_opts)
| OptsTls (o : nc_server_tls_opts)
| OptsUnix (o : nc_server_unix_opts).

Record nc_endpt := NcEndpt {
  ep_name : option bytes;
  ep_ti : NC_TRANSPORT_IMPL;
  ep_ka : nc_keepalives;
  ep_opts : endpt_opts;
}.

(** The members of [server_opts] for endpoints; an element of [binds] that was
    allocated and not written to is [None], and the locks say whether they are held. *)
Record server_conf := ServerConf {
  endpts : option (list nc_endpt);
  binds : option (list (option nc_bind));
  endpt_count : Z;
  bind_locked : bool;
  endpt_locked : bool;
}.

Definition init_conf : server_conf := ServerConf None None 0 false false.

Definition set_opts (o : endpt_opts) (e : nc_endpt) : nc_endpt := NcEndpt (ep_name e) (ep_ti e) (ep_ka e) o.
Definition set_ka (k : nc_keepalives) (e : nc_endpt) : nc_endpt := NcEndpt (ep_name e) (ep_ti e) k (ep_opts e).

(** [memset], and what [nc_server_add_endpt] fills in. *)
Definition new_endpt (name : option bytes) (ti : NC_TRANSPORT_IMPL) : nc_endpt :=
  NcEndpt name ti (Keepalives false 1 10 5) OptsNull.
Definition new_bind : nc_bind := NcBind None 0 (-1) false.

Section endpts.
Context {W : Type} `{!Env W} `{!SockEnv W}.

Abbreviation CM := (M (server_conf * W)).

Definition conf : CM server_conf := gets fst.

Definition set_arrays (e : option (list nc_endpt)) (b : option (list (option nc_bind))) (n : Z) : CM unit :=
  modify (λ s, (ServerConf e b n (bind_locked s.1) (endpt_locked s.1), s.2)).

(** A lock that is held by the caller is never granted. *)
Definition bind_lock : CM unit :=
  s ← conf;
  if bind_locked s then no_fuel
  else modify (λ s, (ServerConf (endpts s.1) (binds s.1) (endpt_count s.1) true (endpt_locked s.1), s.2)).
Definition bind_unlock : CM unit :=
  modify (λ s, (ServerConf (endpts s.1) (binds s.1) (endpt_count s.1) false (endpt_locked s.1), s.2)).
Definition endpt_lock : CM unit :=
  s ← conf;
  if endpt_locked s then no_fuel
  else modify (λ s, (ServerConf (endpts s.1) (binds s.1) (endpt_count s.1) (bind_locked s.1) true, s.2)).
Definition endpt_unlock : CM unit :=
  modify (λ s, (ServerConf (endpts s.1) (binds s.1) (endpt_count s.1) (bind_locked s.1) false, s.2)).

(** Elements of the arrays; only those below the count may be used. *)
Definition endpt_at (i : Z) : CM nc_endpt :=
  s ← conf;
  match endpts s with
  | None => crash
  | Some l => if i <? 0 then crash else match l !! Z.to_nat i with Some e => mret e | None => crash end
  end.

Definition bind_at (i : Z) : CM nc_bind :=
  s ← conf;
  match binds s with
  | None => crash
  | Some l => if i <? 0 then crash else match l !! Z.to_nat i with Some (Some b) => mret b | _ => crash end
  end.

Definition put_endpt (i : Z) (e : nc_endpt) : CM unit :=
  s ← conf;
  set_arrays ((λ l, <[Z.to_nat i := e]> l) <$> endpts s) (binds s) (endpt_count s).

Definition put_bind (i : Z) (b : nc_bind) : CM unit :=
  s ← conf;
  set_arrays (endpts s) ((λ l, <[Z.to_nat i := Some b]> l) <$> binds s) (endpt_count s).

(** The loop that looks for an endpoint by its name and, unless it is
    [NC_TI_NONE], its transport. *)
Fixpoint find_endpt (n : nat) (i : Z) (name : bytes) (ti : NC_TRANSPORT_IMPL) : CM (option Z) :=
  match n with
  | O => mret None
  | S n =>
    e ← endpt_at i;
    match ep_name e with
    | None => crash
    | Some s =>
      if strcmp_eq s name && (bool_decide (ti = NC_TI_NONE) || bool_decide (ep_ti e = ti)) then mret (Some i)
      else find_endpt n (i + 1) name ti
    end
  end.

(** The index of the endpoint, with the lock held, or [None] without it. *)
Definition nc_server_endpt_lock_get (name : option bytes) (ti : NC_TRANSPORT_IMPL) : CM (option Z) :=
  match name with
  | None => mret None
  | Some name =>
    _ ← endpt_lock;
    s ← conf;
    r ← find_endpt (Z.to_nat (endpt_count s)) 0 name ti;
    match r with
    | None => _ ← endpt_unlock; mret None
    | Some i => mret (Some i)
    end
  end.

(** ** Adding and deleting *)

(** The options of a new endpoint: [calloc] and the defaults; [None] for an error. *)
Definition alloc_opts (ti : NC_TRANSPORT_IMPL) : M W (option endpt_opts) :=
  match ti with
  | NC_TI_LIBSSH => ok ← call (malloc_ok 24); mret (if ok : bool then Some (OptsSsh new_ssh_opts) else None)
  | NC_TI_OPENSSL => ok ← call (malloc_ok 56); mret (if ok : bool then Some (OptsTls new_tls_opts) else None)
  | NC_TI_UNIX => ok ← call (malloc_ok 12); mret (if ok : bool then Some (OptsUnix (UnixOpts UNSET UNSET UNSET)) else None)
  | _ => mret None
  end.

(** Appending to the arrays; [count] is the number of endpoints including the new
    one, which the elements are addressed with. *)
Definition append_endpt (name : bytes) (ti : NC_TRANSPORT_IMPL) : CM Z :=
  s ← conf;
  ok ← on_env (call (malloc_ok ((endpt_count s + 1) * 40)));
  if negb ok then _ ← set_arrays None (binds s) (endpt_count s); mret (-1)
  else
    let count := u16 (endpt_count s + 1) in
    _ ← guarded (0 <? count);
    n ← on_env (strdup name);
    let l := default [] (endpts s) ++ [new_endpt n ti] in
    ok ← on_env (call (malloc_ok (count * 24)));
    if negb ok then _ ← set_arrays (Some l) None count; mret (-1)
    else
      let b := match binds s with Some b => b | None => replicate (Z.to_nat (count - 1)) None end in
      _ ← set_arrays (Some l) (Some (b ++ [Some new_bind])) count;
      o ← on_env (alloc_opts ti);
      match o with
      | None => mret (-1)
      | Some o => _ ← put_endpt (count - 1) (set_opts o (new_endpt n ti)); mret 0
      end.

Definition nc_server_add_endpt (name : option bytes) (ti : NC_TRANSPORT_IMPL) : CM Z :=
  match name with
  | None => mret (-1)
  | Some name =>
    _ ← bind_lock;
    _ ← endpt_lock;
    s ← conf;
    r ← find_endpt (Z.to_nat (endpt_count s)) 0 name NC_TI_NONE;
    ret ← match r with
          | Some _ => mret (-1)
          | None => append_endpt name ti
          end;
    _ ← endpt_unlock;
    _ ← bind_unlock;
    mret ret
  end.

(** The [switch] that frees the options of an endpoint. *)
Definition clear_opts (e : nc_endpt) : M W unit :=
  match ep_ti e with
  | NC_TI_LIBSSH =>
    match ep_opts e with OptsSsh o => _ ← nc_server_ssh_clear_opts o; mret tt | _ => crash end
  | NC_TI_OPENSSL =>
    match ep_opts e with OptsTls o => _ ← nc_server_tls_clear_opts o; mret tt | _ => crash end
  | _ => mret tt
  end.

Definition close_bind (b : nc_bind) : CM unit :=
  if -1 <? bind_sock b then modify (λ s, (s.1, sock_close (bind_sock b) s.2)) else mret tt.

(** The two loops that remove all endpoints and all binds. *)
Fixpoint clear_endpts (n : nat) (i : Z) : CM unit :=
  match n with
  | O => mret tt
  | S n => e ← endpt_at i; _ ← on_env (clear_opts e); clear_endpts n (i + 1)
  end.

Fixpoint clear_binds (n : nat) (i : Z) : CM unit :=
  match n with
  | O => mret tt
  | S n => b ← bind_at i; _ ← close_bind b; clear_binds n (i + 1)
  end.

(** The elements from [count] on are not used any more. *)
Definition shrink (count : Z) : CM unit :=
  s ← conf;
  if count =? 0 then set_arrays None None 0
  else set_arrays (option_map (take (Z.to_nat count)) (endpts s)) (option_map (take (Z.to_nat count)) (binds s)) count.

(** Removing the endpoint [i]: the last one is moved to its place. *)
Definition remove_endpt (i : Z) : CM unit :=
  e ← endpt_at i;
  _ ← on_env (clear_opts e);
  b ← bind_at i;
  _ ← close_bind b;
  s ← conf;
  let count := endpt_count s - 1 in
  if i <? count then
    b ← bind_at count;
    e ← endpt_at count;
    _ ← put_bind i b;
    _ ← put_endpt i e;
    shrink count
  else shrink count.

(** The loop over the endpoints; [i] grows also after a removal, and [n] bounds the
    number of rounds. *)
Fixpoint del_endpts (n : nat) (i : Z) (name : option bytes) (ti : NC_TRANSPORT_IMPL) (ret : Z) : CM Z :=
  match n with
  | O => mret ret
  | S n =>
    s ← conf;
    if endpt_count s <=? i then mret ret
    else
      e ← endpt_at i;
      match name, ep_name e with
      | Some _, None => crash
      | Some nm, Some s =>
        if strcmp_eq s nm then _ ← remove_endpt i; mret 0 else del_endpts n (i + 1) name ti ret
      | None, _ =>
        if decide (ep_ti e = ti) then _ ← remove_endpt i; del_endpts n (i + 1) name ti 0
        else del_endpts n (i + 1) name ti ret
      end
  end.

Definition nc_server_del_endpt (name : option bytes) (ti : NC_TRANSPORT_IMPL) : CM Z :=
  _ ← bind_lock;
  _ ← endpt_lock;
  s ← conf;
  ret ←
    match name, ti with
    | None, NC_TI_NONE =>
      _ ← clear_endpts (Z.to_nat (endpt_count s)) 0;
      _ ← set_arrays None (binds s) (endpt_count s);
      _ ← clear_binds (Z.to_nat (endpt_count s)) 0;
      _ ← set_arrays None None 0;
      mret (if endpt_count s =? 0 then -1 else 0)
    | _, _ => del_endpts (Z.to_nat (endpt_count s)) 0 name ti (-1)
    end;
  _ ← endpt_unlock;
  _ ← bind_unlock;
  mret ret.

Definition nc_server_endpt_count : CM Z := s ← conf; mret (endpt_count s).

Definition nc_server_is_endpt (name : option bytes) : CM bool :=
  match name with
  | None => mret false
  | Some name =>
    _ ← endpt_lock;
    s ← conf;
    r ← find_endpt (Z.to_nat (endpt_count s)) 0 name NC_TI_NONE;
    _ ← endpt_unlock;
    mret (match r with Some _ => true | None => false end)
  end.

(** ** Addresses *)

(** The listening socket for an address and port that are both known: the new
    descriptor, [None] if there is nothing to listen on yet. *)
Definition listen_endpt (e : nc_endpt) (address : option bytes) (port : Z) : M W (option Z) :=
  match address with
  | None => mret None
  | Some a =>
    if decide (ep_ti e = NC_TI_UNIX) then
      match ep_opts e with OptsUnix o => s ← nc_sock_listen_unix a o; mret (Some s) | _ => crash end
    else if negb (port =? 0) then s ← nc_sock_listen_inet a port (ep_ka e); mret (Some s)
    else mret None
  end.

(** The part of [nc_server_endpt_set_address_port] under the locks. *)
Definition set_address_port (i : Z) (address : option bytes) (port : Z) : CM Z :=
  e ← endpt_at i;
  b ← bind_at i;
  let set_addr := match address with Some _ => true | None => false end in
  let port := if set_addr then bind_port b else port in
  let address := if set_addr then address else bind_address b in
  if negb set_addr && bool_decide (ep_ti e = NC_TI_UNIX) then mret (-1)
  else
    sock ← on_env (listen_endpt e address port);
    if bool_decide (sock = Some (-1)) then mret (-1)
    else
      _ ← match sock with None => mret tt | Some _ => close_bind b end;
      let fd := default (bind_sock b) sock in
      if set_addr then
        a ← on_env (strdup_opt address);
        _ ← put_bind i (NcBind a (bind_port b) fd (bind_pollin b));
        mret 0
      else
        _ ← put_bind i (NcBind (bind_address b) port fd (bind_pollin b));
        mret 0.

Definition nc_server_endpt_set_address_port (endpt_name address : option bytes) (port : Z) : CM Z :=
  match endpt_name, address, port =? 0 with
  | None, _, _ => mret (-1)
  | _, None, true => mret (-1)
  | _, Some _, false => mret (-1)
  | _, _, _ =>
    _ ← bind_lock;
    r ← nc_server_endpt_lock_get endpt_name NC_TI_NONE;
    match r with
    | None => _ ← bind_unlock; mret (-1)
    | Some i =>
      ret ← set_address_port i address port;
      _ ← endpt_unlock;
      _ ← bind_unlock;
      mret ret
    end
  end.

Definition nc_server_endpt_set_address (endpt_name address : option bytes) : CM Z :=
  nc_server_endpt_set_address_port endpt_name address 0.

Definition nc_server_endpt_set_port (endpt_name : option bytes) (port : Z) : CM Z :=
  nc_server_endpt_set_address_port endpt_name None port.

(** ** Changing one endpoint *)

(** Finding the endpoint, changing it and unlocking. *)
Definition with_endpt (endpt_name : option bytes) (ti : NC_TRANSPORT_IMPL) (f : nc_endpt → M W (Z * nc_endpt)) : CM Z :=
  r ← nc_server_endpt_lock_get endpt_name ti;
  match r with
  | None => mret (-1)
  | Some i =>
    e ← endpt_at i;
    '(ret, e) ← on_env (f e);
    _ ← put_endpt i e;
    _ ← endpt_unlock;
    mret ret
  end.

Definition nc_server_endpt_set_perms (endpt_name : option bytes) (mode uid gid : Z) : CM Z :=
  if mode =? 0 then mret (-1)
  else with_endpt endpt_name NC_TI_NONE (λ e,
    if negb (bool_decide (ep_ti e = NC_TI_UNIX)) then mret (-1, e)
    else match ep_opts e with
         | OptsUnix _ => mret (0, set_opts (OptsUnix (UnixOpts mode uid gid)) e)
         | _ => crash
         end).

Definition nc_server_endpt_enable_keepalives (endpt_name : option bytes) (enable : bool) : CM Z :=
  with_endpt endpt_name NC_TI_NONE (λ e,
    let k := ep_ka e in
    mret (0, set_ka (Keepalives enable (ka_idle_time k) (ka_max_probes k) (ka_probe_interval k)) e)).

(** The arguments that are given, stored in 16 bits. *)
Definition update_ka (idle_time max_probes probe_interval : Z) (k : nc_keepalives) : nc_keepalives :=
  Keepalives (ka_enabled k)
    (if -1 <? idle_time then u16 idle_time else ka_idle_time k)
    (if -1 <? max_probes then u16 max_probes else ka_max_probes k)
    (if -1 <? probe_interval then u16 probe_interval else ka_probe_interval k).

Definition nc_server_endpt_set_keepalives (endpt_name : option bytes) (idle_time max_probes probe_interval : Z) : CM Z :=
  with_endpt endpt_name NC_TI_NONE (λ e, mret (0, set_ka (update_ka idle_time max_probes probe_interval (ep_ka e)) e)).

(** *** SSH *)

(** A function on the SSH options of an endpoint; the union is used as [ti] says. *)
Definition on_ssh (f : nc_server_ssh_opts → M W (Z * nc_server_ssh_opts)) (o : endpt_opts) : M W (Z * endpt_opts) :=
  match o with OptsSsh o => '(r, o) ← f o; mret (r, OptsSsh o) | _ => crash end.

Definition ssh_endpt (endpt_name : option bytes) (f : nc_server_ssh_opts → M W (Z * nc_server_ssh_opts)) : CM Z :=
  with_endpt endpt_name NC_TI_LIBSSH (λ e, '(r, o) ← on_ssh f (ep_opts e); mret (r, set_opts o e)).

Definition nc_server_ssh_endpt_add_hostkey (endpt_name name : option bytes) (idx : Z) : CM Z :=
  ssh_endpt endpt_name (nc_server_ssh_add_hostkey name idx).
Definition nc_server_ssh_endpt_del_hostkey (endpt_name name : option bytes) (idx : Z) : CM Z :=
  ssh_endpt endpt_name (nc_server_ssh_del_hostkey name idx).
Definition nc_server_ssh_endpt_mov_hostkey (endpt_name key_mov key_after : option bytes) : CM Z :=
  ssh_endpt endpt_name (nc_server_ssh_mov_hostkey key_mov key_after).
Definition nc_server_ssh_endpt_set_auth_methods (endpt_name : option bytes) (pam : bool) (methods : Z) : CM Z :=
  ssh_endpt endpt_name (λ o, mret (nc_server_ssh_set_auth_methods pam methods o)).
Definition nc_server_ssh_endpt_get_auth_methods (endpt_name : option bytes) : CM Z :=
  ssh_endpt endpt_name (λ o, mret (auth_methods o, o)).
Definition nc_server_ssh_endpt_set_auth_attempts (endpt_name : option bytes) (attempts : Z) : CM Z :=
  ssh_endpt endpt_name (λ o, mret (nc_server_ssh_set_auth_attempts attempts o)).
Definition nc_server_ssh_endpt_set_auth_timeout (endpt_name : option bytes) (timeout : Z) : CM Z :=
  ssh_endpt endpt_name (λ o, mret (nc_server_ssh_set_auth_timeout timeout o)).

(** *** TLS *)

Definition on_tls (f : nc_server_tls_opts → M W (Z * nc_server_tls_opts)) (o : endpt_opts) : M W (Z * endpt_opts) :=
  match o with OptsTls o => '(r, o) ← f o; mret (r, OptsTls o) | _ => crash end.

Definition tls_endpt (endpt_name : option bytes) (f : nc_server_tls_opts → M W (Z * nc_server_tls_opts)) : CM Z :=
  with_endpt endpt_name NC_TI_OPENSSL (λ e, '(r, o) ← on_tls f (ep_opts e); mret (r, set_opts o e)).

Definition nc_server_tls_endpt_set_server_cert (endpt_name name : option bytes) : CM Z :=
  tls_endpt endpt_name (nc_server_tls_set_server_cert name).
Definition nc_server_tls_endpt_add_trusted_cert_list (endpt_name name : option bytes) : CM Z :=
  tls_endpt endpt_name (nc_server_tls_add_trusted_cert_list name).
Definition nc_server_tls_endpt_del_trusted_cert_list (endpt_name name : option bytes) : CM Z :=
  tls_endpt endpt_name (nc_server_tls_del_trusted_cert_list name).
Definition nc_server_tls_endpt_set_trusted_ca_paths (endpt_name ca_file ca_dir : option bytes) : CM Z :=
  tls_endpt endpt_name (nc_server_tls_set_trusted_ca_paths ca_file ca_dir).
Definition nc_server_tls_endpt_clear_crls (endpt_name : option bytes) : CM Z :=
  tls_endpt endpt_name (λ o, mret (0, nc_server_tls_clear_crls o)).
Definition nc_server_tls_endpt_add_ctn (endpt_name : option bytes) (id : Z) (fingerprint : option bytes)
    (map_type : NC_TLS_CTN_MAPTYPE) (name : option bytes) : CM Z :=
  tls_endpt endpt_name (nc_server_tls_add_ctn id fingerprint map_type name).
Definition nc_server_tls_endpt_del_ctn (endpt_name : option bytes) (id : Z) (fingerprint : option bytes)
    (map_type : NC_TLS_CTN_MAPTYPE) (name : option bytes) : CM Z :=
  tls_endpt endpt_name (nc_server_tls_del_ctn id fingerprint map_type name).

(** A query does not change the endpoint. *)
Definition nc_server_tls_endpt_get_ctn (endpt_name : option bytes) (q : ctn_query) : CM (Z * ctn_query) :=
  r ← nc_server_endpt_lock_get endpt_name NC_TI_OPENSSL;
  match r with
  | None => mret (-1, q)
  | Some i =>
    e ← endpt_at i;
    r ← match ep_opts e with OptsTls o => on_env (nc_server_tls_get_ctn q o) | _ => crash end;
    _ ← endpt_unlock;
    mret r
  end.

Context `{!CrlEnv W}.

Definition nc_server_tls_endpt_set_crl_paths (endpt_name crl_file crl_dir : option bytes) : CM Z :=
  tls_endpt endpt_name (nc_server_tls_set_crl_paths crl_file crl_dir).
End endpts.
