(* ===== verification/EndpointsProofs.v ===== *)
(** * Endpoints as a map

    The two arrays of endpoints and binds as one list, and that list as a map from
    names: what adding, deleting and changing endpoints does to it, to the locks and
    to the open descriptors. *)

From S2P Require Import Prelude Session Env Sim Capabilities PtrArray SshOpts SshOptsProofs TlsOpts Sockets.
From S2P Require Import SocketsProofs Endpoints.
From Stdlib Require Import ZArith Ascii String Lia.
From stdpp Require Import base list strings gmap numbers fin_sets.
Open Scope Z_scope.

(** ** The state *)

Abbreviation slot := (nc_endpt * nc_bind)%type.

(** An array that may be [NULL] when it is empty. *)
Definition array_of {A} (a : option (list A)) (l : list A) : Prop := a = Some l ∨ (l = [] ∧ a = None).

(** The configuration holds the endpoints [l]; [bl] and [el] are the locks. *)
Definition rep (s : server_conf) (l : list slot) (bl el : bool) : Prop :=
  array_of (endpts s) l.*1 ∧ array_of (binds s) (Some <$> l.*2) ∧ endpt_count s = zlen l ∧
  bind_locked s = bl ∧ endpt_locked s = el.

Definition slot_name (x : slot) : bytes := default [] (ep_name x.1).

(** The endpoints by name. *)
Definition slot_map (l : list slot) : gmap bytes slot := keyed_map slot_name l.

(** The options are those of the transport, and their arrays hold names. *)
Definition opts_ok (e : nc_endpt) : Prop :=
  match ep_ti e, ep_opts e with
  | NC_TI_LIBSSH, OptsSsh o => ∃ keys, holds (hostkeys o) (hostkey_count o) keys
  | NC_TI_OPENSSL, OptsTls o => ∃ certs, holds (trusted_cert_lists o) (trusted_cert_list_count o) certs
  | NC_TI_UNIX, OptsUnix _ => True
  | _, _ => False
  end.

Definition slot_ok (x : slot) : Prop := is_Some (ep_name x.1) ∧ opts_ok x.1 ∧ -1 ≤ bind_sock x.2.

(** The sockets of the endpoints. *)
Definition socks (l : list slot) : list Z := filter (λ fd, 0 ≤ fd) (bind_sock <$> l.*2).

Lemma socks_cons x l : socks (x :: l) = (if decide (0 ≤ bind_sock x.2) then [bind_sock x.2] else []) ++ socks l.
Proof. unfold socks. rewrite !fmap_cons, filter_cons. by destruct (decide _). Qed.

Lemma socks_app l k : socks (l ++ k) = socks l ++ socks k.
Proof. unfold socks. by rewrite !fmap_app, filter_app. Qed.

Lemma socks_perm l k : l ≡ₚ k → socks l ≡ₚ socks k.
Proof. unfold socks. by intros ->. Qed.

(** Distinct names, and every socket is one of the open descriptors [X] and belongs
    to one endpoint. *)
Definition well_formed (l : list slot) (X : gset Z) : Prop :=
  distinct slot_name l ∧ Forall slot_ok l ∧ NoDup (socks l) ∧ (∀ fd, fd ∈ socks l → fd ∈ X) ∧ zlen l < 65536.

(** The open descriptors that do not belong to endpoints. *)
Definition others (l : list slot) (X : gset Z) : gset Z := X ∖ list_to_set (socks l).

Lemma well_formed_perm l k X : l ≡ₚ k → well_formed l X → well_formed k X ∧ others k X = others l X.
Proof.
  intros Hp (H1 & H2 & H3 & H4 & H5). pose proof (socks_perm l k Hp) as Hs. split.
  - repeat split.
    + by eapply distinct_perm.
    + by rewrite <- Hp.
    + by rewrite <- Hs.
    + intros fd. rewrite <- Hs. apply H4.
    + unfold zlen in *. by rewrite <- Hp.
  - unfold others. f_equal. apply set_eq. intros x. rewrite !elem_of_list_to_set. by rewrite Hs.
Qed.

(** Removing an endpoint and closing its socket. *)
Lemma well_formed_remove x l X :
  well_formed (x :: l) X →
  let Y := if decide (0 ≤ bind_sock x.2) then X ∖ {[bind_sock x.2]} else X in
  well_formed l Y ∧ others l Y = others (x :: l) X.
Proof.
  intros (H1 & H2 & H3 & H4 & H5) Y. rewrite zlen_cons in H5. apply NoDup_cons in H1 as [_ H1].
  apply list.Forall_cons in H2 as [_ H2]. unfold others. subst Y. rewrite socks_cons in *. destruct (decide _) as [H0|H0].
  - apply NoDup_cons in H3 as [Hn H3]. split.
    + repeat split; [done..| |lia]. intros fd Hfd. apply elem_of_difference. split; [apply H4; by right|].
      intros ->%elem_of_singleton. done.
    + cbn [app]. rewrite list_to_set_cons. set_solver.
  - split; [|done]. repeat split; [done..|lia].
Qed.

(** Adding an endpoint whose socket, if it has one, was just opened. *)
Lemma well_formed_add x l X :
  well_formed l X → slot_map l !! slot_name x = None → slot_ok x → zlen l < 65535 →
  (0 ≤ bind_sock x.2 → bind_sock x.2 ∉ X) →
  let Y := if decide (0 ≤ bind_sock x.2) then {[bind_sock x.2]} ∪ X else X in
  well_formed (x :: l) Y ∧ others (x :: l) Y = others l X.
Proof.
  intros (H1 & H2 & H3 & H4 & H5) Hn Hok Hlen Hfd Y. apply keyed_map_lookup_None in Hn.
  assert (Hd : distinct slot_name (x :: l)) by (by apply NoDup_cons). unfold others. subst Y.
  unfold well_formed. rewrite socks_cons, zlen_cons. destruct (decide _) as [H0|H0].
  - specialize (Hfd H0). split.
    + repeat split; [done|by constructor| | |lia].
      * apply NoDup_cons. split; [|done]. intros ?%H4. done.
      * intros fd [->|Hin]%elem_of_cons; set_solver.
    + cbn [app]. rewrite list_to_set_cons. set_solver.
  - split; [|done]. repeat split; [done|by constructor|done..|lia].
Qed.

(** Changing an endpoint that keeps its name and socket. *)
Lemma well_formed_change x y l X :
  well_formed (x :: l) X → slot_name y = slot_name x → slot_ok y → bind_sock y.2 = bind_sock x.2 →
  well_formed (y :: l) X ∧ others (y :: l) X = others (x :: l) X.
Proof.
  intros (H1 & H2 & H3 & H4 & H5) Hn Hok Hs. apply list.Forall_cons in H2 as [_ H2].
  unfold well_formed, others. rewrite !socks_cons in *. rewrite Hs. split; [|done]. repeat split; try done.
  - unfold distinct in *. rewrite fmap_cons in *. by rewrite Hn.
  - by constructor.
Qed.

(** The element [i] apart from the others. *)
Lemma split_at (l : list slot) i x :
  l !! i = Some x → ∃ k, l ≡ₚ x :: k ∧ ∀ y, <[i := y]> l ≡ₚ y :: k.
Proof.
  intros Hi. apply list_elem_of_split_length in Hi as (l1 & l2 & -> & ->). exists (l1 ++ l2). split; [by rewrite Permutation_middle|].
  intros y. rewrite insert_app_r_alt, Nat.sub_diag by lia. simpl. by rewrite Permutation_middle.
Qed.

Section endpts.
Context {W : Type} `{!Env W} `{!SockEnv W} `{!SockLaws W}.
Implicit Types (l : list slot) (w : W) (s : server_conf).

(** ** Access *)

Lemma rep_endpts s l bl el i x : rep s l bl el → l !! i = Some x → endpts s = Some l.*1.
Proof. intros ([H|[H _]] & _) Hi; [done|]. apply (f_equal length) in H. rewrite length_fmap in H. by destruct l. Qed.

Lemma rep_binds s l bl el i x : rep s l bl el → l !! i = Some x → binds s = Some (Some <$> l.*2).
Proof.
  intros (_ & [H|[H _]] & _) Hi; [done|]. apply (f_equal length) in H. rewrite !length_fmap in H. by destruct l.
Qed.

Lemma wpx_endpt_at F s l bl el i x (Q : nc_endpt → server_conf * W → Prop) w :
  rep s l bl el → l !! i = Some x → Q x.1 (s, w) → wpx F (endpt_at (Z.of_nat i)) Q (s, w).
Proof.
  intros Hr Hi HQ. unfold endpt_at. apply wpx_bind, wpx_gets. cbn [fst]. rewrite (rep_endpts _ _ _ _ _ _ Hr Hi).
  rewrite (proj2 (Z.ltb_ge _ _)) by lia. by rewrite Nat2Z.id, list_lookup_fmap, Hi.
Qed.

Lemma wpx_bind_at F s l bl el i x (Q : nc_bind → server_conf * W → Prop) w :
  rep s l bl el → l !! i = Some x → Q x.2 (s, w) → wpx F (bind_at (Z.of_nat i)) Q (s, w).
Proof.
  intros Hr Hi HQ. unfold bind_at. apply wpx_bind, wpx_gets. cbn [fst]. rewrite (rep_binds _ _ _ _ _ _ Hr Hi).
  rewrite (proj2 (Z.ltb_ge _ _)) by lia. by rewrite Nat2Z.id, !list_lookup_fmap, Hi.
Qed.

Lemma rep_put_endpt s l bl el i e b e' :
  rep s l bl el → l !! i = Some (e, b) →
  rep (ServerConf ((λ k, <[i := e']> k) <$> endpts s) (binds s) (endpt_count s) (bind_locked s) (endpt_locked s))
    (<[i := (e', b)]> l) bl el.
Proof.
  intros Hr Hi. destruct (Hr) as (H1 & H2 & H3 & H4 & H5). unfold rep. cbn. rewrite (rep_endpts _ _ _ _ _ _ Hr Hi).
  rewrite !list_fmap_insert. cbn. split; [by left|]. split; [|by rewrite H3; unfold zlen; rewrite length_insert].
  rewrite (list_insert_id _ i (Some b)); [done|]. by rewrite !list_lookup_fmap, Hi.
Qed.

Lemma rep_put_bind s l bl el i e b b' :
  rep s l bl el → l !! i = Some (e, b) →
  rep (ServerConf (endpts s) ((λ k, <[i := Some b']> k) <$> binds s) (endpt_count s) (bind_locked s) (endpt_locked s))
    (<[i := (e, b')]> l) bl el.
Proof.
  intros Hr Hi. destruct (Hr) as (H1 & H2 & H3 & H4 & H5). unfold rep. cbn. rewrite (rep_binds _ _ _ _ _ _ Hr Hi).
  rewrite !list_fmap_insert. cbn. split; [|split; [by left|by rewrite H3; unfold zlen; rewrite length_insert]].
  rewrite (list_insert_id _ i e); [done|]. by rewrite !list_lookup_fmap, Hi.
Qed.

Lemma wpx_put_endpt F s l bl el i e b e' (Q : unit → server_conf * W → Prop) w :
  rep s l bl el → l !! i = Some (e, b) → (∀ s', rep s' (<[i := (e', b)]> l) bl el → Q tt (s', w)) →
  wpx F (put_endpt (Z.of_nat i) e') Q (s, w).
Proof.
  intros Hr Hi HQ. unfold put_endpt, set_arrays. apply wpx_bind, wpx_gets, wpx_modify, HQ. cbn [fst]. rewrite Nat2Z.id.
  by eapply rep_put_endpt.
Qed.

Lemma wpx_put_bind F s l bl el i e b b' (Q : unit → server_conf * W → Prop) w :
  rep s l bl el → l !! i = Some (e, b) → (∀ s', rep s' (<[i := (e, b')]> l) bl el → Q tt (s', w)) →
  wpx F (put_bind (Z.of_nat i) b') Q (s, w).
Proof.
  intros Hr Hi HQ. unfold put_bind, set_arrays. apply wpx_bind, wpx_gets, wpx_modify, HQ. cbn [fst]. rewrite Nat2Z.id.
  by eapply rep_put_bind.
Qed.

(** ** Locks *)

Lemma wpx_bind_lock F s l el (Q : unit → server_conf * W → Prop) w :
  rep s l false el → (∀ s', rep s' l true el → Q tt (s', w)) → wpx F bind_lock Q (s, w).
Proof.
  intros (H1 & H2 & H3 & H4 & H5) HQ. unfold bind_lock. apply wpx_bind, wpx_gets. cbn [fst]. rewrite H4.
  apply wpx_modify, HQ. by split_and!.
Qed.

Lemma wpx_endpt_lock F s l bl (Q : unit → server_conf * W → Prop) w :
  rep s l bl false → (∀ s', rep s' l bl true → Q tt (s', w)) → wpx F endpt_lock Q (s, w).
Proof.
  intros (H1 & H2 & H3 & H4 & H5) HQ. unfold endpt_lock. apply wpx_bind, wpx_gets. cbn [fst]. rewrite H5.
  apply wpx_modify, HQ. by split_and!.
Qed.

Lemma wpx_bind_unlock F s l bl el (Q : unit → server_conf * W → Prop) w :
  rep s l bl el → (∀ s', rep s' l false el → Q tt (s', w)) → wpx F bind_unlock Q (s, w).
Proof. intros (H1 & H2 & H3 & H4 & H5) HQ. apply wpx_modify, HQ. by split_and!. Qed.

Lemma wpx_endpt_unlock F s l bl el (Q : unit → server_conf * W → Prop) w :
  rep s l bl el → (∀ s', rep s' l bl false → Q tt (s', w)) → wpx F endpt_unlock Q (s, w).
Proof. intros (H1 & H2 & H3 & H4 & H5) HQ. apply wpx_modify, HQ. by split_and!. Qed.

(** ** Looking for a name *)

(** Whether an endpoint uses a transport, or any. *)
Definition uses (ti : NC_TRANSPORT_IMPL) (e : nc_endpt) : Prop := ti = NC_TI_NONE ∨ ep_ti e = ti.

Definition found l (name : bytes) (ti : NC_TRANSPORT_IMPL) (r : option Z) : Prop :=
  match r with
  | None => ∀ x, slot_map l !! name = Some x → ¬ uses ti x.1
  | Some z => ∃ i x, z = Z.of_nat i ∧ l !! i = Some x ∧ slot_map l !! name = Some x ∧ slot_name x = name ∧ uses ti x.1
  end.

Lemma wpx_find F s l bl el name ti n i (Q : option Z → server_conf * W → Prop) w :
  rep s l bl el → distinct slot_name l → Forall slot_ok l → (i + n = length l)%nat →
  (∀ x, x ∈ take i l → slot_name x = name → ¬ uses ti x.1) →
  (∀ r, found l name ti r → Q r (s, w)) → wpx F (find_endpt n (Z.of_nat i) name ti) Q (s, w).
Proof.
  intros Hr Hd Hok. revert i. induction n as [|n IH]; intros i Hi Hn HQ; cbn [find_endpt].
  - apply wpx_ret, HQ. intros x [Hx E]%keyed_map_lookup; [|done]. rewrite take_ge in Hn by lia. by apply Hn.
  - destruct (lookup_lt_is_Some_2 l i ltac:(lia)) as [x Hx]. apply wpx_bind. eapply wpx_endpt_at; [done..|].
    destruct (Forall_lookup_1 _ _ _ _ Hok Hx) as ([nm Hnm] & _). rewrite Hnm.
    assert (Hs : slot_name x = nm) by (unfold slot_name; by rewrite Hnm).
    destruct (strcmp_eq nm name && _) eqn:Eb.
    + apply wpx_ret, HQ. apply andb_true_iff in Eb as [E1 E2]. apply bool_decide_eq_true in E1.
      exists i, x. split; [done|]. split; [done|]. split.
      { apply keyed_map_lookup; [done|]. split; [by eapply list_elem_of_lookup_2|by rewrite Hs]. }
      split; [by rewrite Hs|]. apply orb_true_iff in E2 as [E2|E2]; apply bool_decide_eq_true in E2; [by left|by right].
    + replace (Z.of_nat i + 1) with (Z.of_nat (i + 1)) by lia. apply IH; [lia| |done].
      intros y Hy Ey Hu. rewrite Nat.add_1_r, (take_S_r _ _ _ Hx) in Hy.
      apply elem_of_app in Hy as [Hy| ->%list_elem_of_singleton]; [by eapply Hn|].
      apply andb_false_iff in Eb as [E1|E2].
      * apply bool_decide_eq_false in E1. congruence.
      * apply orb_false_iff in E2 as [E2 E3]. apply bool_decide_eq_false in E2, E3. by destruct Hu.
Qed.

Lemma wpx_find_all_endpts F s l bl el name ti (Q : option Z → server_conf * W → Prop) w :
  rep s l bl el → well_formed l (open_fds w) → (∀ r, found l name ti r → Q r (s, w)) →
  wpx F (find_endpt (Z.to_nat (endpt_count s)) 0 name ti) Q (s, w).
Proof.
  intros Hr (Hd & Hok & _) HQ. destruct (Hr) as (_ & _ & -> & _). unfold zlen. rewrite Nat2Z.id.
  apply (wpx_find F s l bl el name ti (length l) 0); try done. by intros x ?%not_elem_of_nil.
Qed.
End endpts.
