(* ===== verification/EndpointsOps.v ===== *)
(** * Operations on endpoints

    Each operation on the endpoints as an operation on the map of their names, with
    the locks released and the descriptors accounted for. *)

From S2P Require Import Prelude Session Env Sim Capabilities PtrArray SshOpts SshOptsProofs TlsOpts Sockets.
From S2P Require Import SocketsProofs Endpoints EndpointsProofs.
From Stdlib Require Import ZArith Ascii String Lia.
From stdpp Require Import base list strings gmap numbers fin_sets.
Open Scope Z_scope.

Section ops.
Context {W : Type} `{!Env W} `{!SockEnv W} `{!SockLaws W}.
Implicit Types (l : list slot) (w : W) (s : server_conf).

(** The configuration holds [l'] without a lock held, and the descriptors that do
    not belong to endpoints are those of [l] and [w]. *)
Definition settled l w l' (st : server_conf * W) : Prop :=
  rep st.1 l' false false ∧ well_formed l' (open_fds st.2) ∧ others l' (open_fds st.2) = others l (open_fds w).

(** The end of the functions that take both locks. *)
Lemma wpx_unlock_both {A} F s l (r : A) (Q : A → server_conf * W → Prop) w :
  rep s l true true → (∀ s', rep s' l false false → Q r (s', w)) →
  wpx F (_ ← endpt_unlock; _ ← bind_unlock; mret r) Q (s, w).
Proof.
  intros Hr HQ. apply wpx_bind. eapply wpx_endpt_unlock; [done|]. intros s1 Hr1.
  apply wpx_bind. eapply wpx_bind_unlock; [done|]. intros s2 Hr2. by apply wpx_ret, HQ.
Qed.

(** ** Finding an endpoint *)

Lemma wpx_lock_get F s l bl name ti (Q : option Z → server_conf * W → Prop) w :
  rep s l bl false → well_formed l (open_fds w) →
  (∀ s', rep s' l bl false → (∀ n, name = Some n → found l n ti None) → Q None (s', w)) →
  (∀ s' i x n, rep s' l bl true → name = Some n → l !! i = Some x → slot_map l !! n = Some x → slot_name x = n →
     uses ti x.1 → Q (Some (Z.of_nat i)) (s', w)) →
  wpx F (nc_server_endpt_lock_get name ti) Q (s, w).
Proof.
  intros Hr Hwf H1 H2. unfold nc_server_endpt_lock_get. destruct name as [n|]; [|by apply wpx_ret, H1].
  apply wpx_bind. eapply wpx_endpt_lock; [done|]. intros s1 Hr1. apply wpx_bind, wpx_gets. cbn [fst].
  apply wpx_bind. eapply wpx_find_all_endpts; [done..|]. intros [z|] Hf.
  - destruct Hf as (i & x & -> & Hi & Hm & Hn & Hu). apply wpx_ret. by eapply H2.
  - apply wpx_bind. eapply wpx_endpt_unlock; [done|]. intros s2 Hr2. apply wpx_ret, H1; [done|]. by intros ? [= ->].
Qed.

(** ** Changing an endpoint *)

(** A function on an endpoint that keeps its name, the shape of its options and the
    descriptors. *)
Definition endpt_fun (f : nc_endpt → M W (Z * nc_endpt)) : Prop :=
  ∀ F e w, opts_ok e → wpx F (f e) (λ '(_, e') w', same_fds w w' ∧ ep_name e' = ep_name e ∧ opts_ok e') w.

(** What is done to the endpoint [name] with the transport [ti]. *)
Definition changed (name : option bytes) (ti : NC_TRANSPORT_IMPL) (m : gmap bytes slot) (r : Z) (m' : gmap bytes slot)
    (P : nc_endpt → Z → nc_endpt → Prop) : Prop :=
  (r = -1 ∧ m' = m ∧ ∀ n x, name = Some n → m !! n = Some x → ¬ uses ti x.1) ∨
  (∃ n e b e', name = Some n ∧ m !! n = Some (e, b) ∧ uses ti e ∧ P e r e' ∧ m' = <[n := (e', b)]> m).

Lemma with_endpt_ok F s l name ti f (P : nc_endpt → Z → nc_endpt → Prop) w :
  rep s l false false → well_formed l (open_fds w) → endpt_fun f →
  (∀ F e w, opts_ok e → wpx F (f e) (λ '(r, e') _, P e r e') w) →
  wpx F (with_endpt name ti f) (λ r st, ∃ l', settled l w l' st ∧ changed name ti (slot_map l) r (slot_map l') P) (s, w).
Proof.
  intros Hr Hwf Hf HP. unfold with_endpt. apply wpx_bind. eapply wpx_lock_get; [done..| |].
  - intros s' Hr' Hn. apply wpx_ret. exists l. split; [done|]. left. split; [done|]. split; [done|].
    intros n x E. by apply Hn.
  - intros s1 i [e b] n Hr1 -> Hi Hm Hn Hu. apply wpx_bind. eapply wpx_endpt_at; [done..|]. cbn [fst].
    apply wpx_bind, wpx_on_env. pose proof Hwf as (Hd & Hok & _). pose proof (Forall_lookup_1 _ _ _ _ Hok Hi) as (H1 & H2 & H3).
    eapply wpx_mono; [apply wpx_and; [by apply Hf|by apply HP]|].
    intros [r e'] w' [(Hfd & Hne & Hoe) HPe]. apply wpx_bind. eapply wpx_put_endpt; [done..|]. intros s2 Hr2.
    apply wpx_bind. eapply wpx_endpt_unlock; [done|]. intros s3 Hr3. apply wpx_ret.
    assert (Hkey : slot_name (e', b) = slot_name (e, b)) by (unfold slot_name; cbn; by rewrite Hne).
    exists (<[i := (e', b)]> l). split.
    + split; [done|]. cbn [snd]. rewrite Hfd. destruct (split_at l i (e, b) Hi) as (k & Hk & Hky).
      destruct (well_formed_perm _ _ _ Hk Hwf) as [Hwk Ho].
      destruct (well_formed_change _ (e', b) _ _ Hwk) as [Hwy Hoy]; [done|by split; [cbn; rewrite Hne|]|done|].
      destruct (well_formed_perm _ _ _ (symmetry (Hky (e', b))) Hwy) as [H4 H5]. split; [done|]. congruence.
    + right. exists n, e, b, e'. split; [done|]. split; [done|]. split; [done|]. split; [done|].
      unfold slot_map. erewrite keyed_map_insert by done. by rewrite Hkey, Hn.
Qed.

(** ** Adding *)

(** The options a new endpoint gets. *)
Definition default_opts (ti : NC_TRANSPORT_IMPL) : option endpt_opts :=
  match ti with
  | NC_TI_LIBSSH => Some (OptsSsh new_ssh_opts)
  | NC_TI_OPENSSL => Some (OptsTls new_tls_opts)
  | NC_TI_UNIX => Some (OptsUnix (UnixOpts UNSET UNSET UNSET))
  | _ => None
  end.

(** Memory is available. *)
Definition memory : Prop := ∀ n w, 0 < n ≤ 2 ^ 32 → (malloc_ok n w).1 = true.

Lemma wpx_endpt_malloc F n (Q : bool → W → Prop) w :
  memory → 0 < n ≤ 2 ^ 32 → (∀ w', same_fds w w' → Q true w') → wpx F (call (malloc_ok n)) Q w.
Proof.
  intros Hm Hn HQ. apply wpx_call. rewrite Hm by done. apply HQ, malloc_fds.
Qed.

Lemma wpx_endpt_strdup F (n : bytes) (Q : option bytes → W → Prop) w :
  memory → zlen n < 2 ^ 32 → (∀ w', same_fds w w' → Q (Some n) w') → wpx F (strdup n) Q w.
Proof.
  intros Hm Hn HQ. pose proof (zlen_nonneg n). unfold strdup. apply wpx_bind, wpx_endpt_malloc; [done|lia|]. intros w' Hw.
  by apply wpx_ret, HQ.
Qed.

Lemma wpx_alloc_opts F ti o (Q : option endpt_opts → W → Prop) w :
  memory → default_opts ti = Some o → (∀ w', same_fds w w' → Q (Some o) w') → wpx F (alloc_opts ti) Q w.
Proof.
  intros Hm Ho HQ. destruct ti; try done; injection Ho as <-; unfold alloc_opts;
    (apply wpx_bind, wpx_endpt_malloc; [done|lia|]); intros w' Hw; by apply wpx_ret, HQ.
Qed.

Lemma opts_ok_default n ti o : default_opts ti = Some o → opts_ok (set_opts o (new_endpt n ti)).
Proof.
  intros Ho. destruct ti; try done; injection Ho as <-; [done|exists []..]; (split; [done|left; done]).
Qed.

Lemma rep_append s l bl el e b :
  rep s l bl el →
  rep (ServerConf (Some (default [] (endpts s) ++ [e])) (Some (default [] (binds s) ++ [Some b])) (zlen l + 1)
         (bind_locked s) (endpt_locked s)) (l ++ [(e, b)]) bl el.
Proof.
  intros (H1 & H2 & H3 & H4 & H5). unfold rep. cbn. rewrite !fmap_app, zlen_app. split_and!; try done.
  - left. destruct H1 as [->|[-> ->]]; done.
  - left. destruct H2 as [->|[-> ->]]; done.
Qed.

Lemma append_ok F s l name ti o (Q : Z → server_conf * W → Prop) w :
  memory → default_opts ti = Some o → zlen name < 2 ^ 31 → zlen l < 65535 → rep s l true true →
  (∀ s' w', rep s' (l ++ [(set_opts o (new_endpt (Some name) ti), new_bind)]) true true → same_fds w w' → Q 0 (s', w')) →
  wpx F (append_endpt name ti) Q (s, w).
Proof.
  intros Hm Ho Hn Hl Hr HQ. pose proof (zlen_nonneg l) as H0. destruct (Hr) as (Ha & Hb & Hc & _ & _).
  unfold append_endpt. apply wpx_bind, wpx_gets. cbn [fst]. rewrite Hc.
  apply wpx_bind, wpx_on_env, wpx_endpt_malloc; [done|lia|]. intros w1 Hw1. cbn [negb].
  rewrite u16_small by lia. apply wpx_bind, wpx_guarded; [lia|].
  apply wpx_bind, wpx_on_env, wpx_endpt_strdup; [done|lia|]. intros w2 Hw2.
  apply wpx_bind, wpx_on_env, wpx_endpt_malloc; [done|lia|]. intros w3 Hw3. cbn [negb].
  assert (Hbinds : match binds s with Some b => b | None => replicate (Z.to_nat (zlen l + 1 - 1)) None end = default [] (binds s)).
  { destruct Hb as [->|[E ->]]; [done|]. apply (f_equal length) in E. rewrite !length_fmap in E. by destruct l. }
  rewrite Hbinds. unfold set_arrays at 1. apply wpx_bind, wpx_modify. cbn [fst snd].
  apply wpx_bind, wpx_on_env, (wpx_alloc_opts _ _ o); [done..|]. intros w4 Hw4. apply wpx_bind.
  replace (zlen l + 1 - 1) with (Z.of_nat (length l)) by (unfold zlen; lia).
  eapply wpx_put_endpt; [by apply rep_append|by apply list_lookup_middle|]. intros s' Hr'. apply wpx_ret, HQ.
  - rewrite insert_app_r_alt, Nat.sub_diag in Hr' by lia. done.
  - unfold same_fds in *. congruence.
Qed.

Lemma add_ok F s l name ti o w :
  memory → default_opts ti = Some o → zlen name < 2 ^ 31 → zlen l < 65535 →
  rep s l false false → well_formed l (open_fds w) →
  wpx F (nc_server_add_endpt (Some name) ti) (λ r st, ∃ l', settled l w l' st ∧
    if decide (slot_map l !! name = None)
    then r = 0 ∧ slot_map l' = <[name := (set_opts o (new_endpt (Some name) ti), new_bind)]> (slot_map l)
    else r = -1 ∧ slot_map l' = slot_map l) (s, w).
Proof.
  intros Hm Ho Hn Hl Hr Hwf. unfold nc_server_add_endpt. apply wpx_bind. eapply wpx_bind_lock; [done|]. intros s1 Hr1.
  apply wpx_bind. eapply wpx_endpt_lock; [done|]. intros s2 Hr2. apply wpx_bind, wpx_gets. cbn [fst].
  apply wpx_bind. eapply wpx_find_all_endpts; [done..|]. intros r Hf. apply wpx_bind.
  destruct r as [z|].
  - apply wpx_ret. destruct Hf as (i & x & _ & _ & Hx & _). eapply wpx_unlock_both; [done|]. intros s3 Hr3. exists l.
    split; [done|]. rewrite decide_False; [done|]. by rewrite Hx.
  - assert (Hnone : slot_map l !! name = None).
    { destruct (slot_map l !! name) as [x|] eqn:E; [|done]. exfalso. apply (Hf x E). by left. }
    eapply append_ok; [done..|]. intros s3 w3 Hr3 Hw3. eapply wpx_unlock_both; [done|]. intros s4 Hr4.
    set (x := (set_opts o (new_endpt (Some name) ti), new_bind)) in *. exists (l ++ [x]).
    assert (Hxn : slot_name x = name) by done.
    destruct (well_formed_add x l (open_fds w) Hwf) as [H1 H2]; rewrite ?Hxn; try done.
    { split; [by eexists|]. split; [by apply opts_ok_default|done]. }
    rewrite decide_False in H1, H2 by (unfold x; simpl; lia). destruct (well_formed_perm _ (l ++ [x]) _ ltac:(by rewrite Permutation_app_comm) H1) as [H3 H4].
    split.
    + split; [done|]. cbn [snd]. rewrite Hw3. split; [done|]. by rewrite H4, <- H2.
    + rewrite decide_True by done. split; [done|]. unfold slot_map. rewrite keyed_map_snoc; [done|]. apply H3.
Qed.

(** ** Deleting *)

Lemma wpx_ssh_clear F o keys (Q : nc_server_ssh_opts → W → Prop) w :
  holds (hostkeys o) (hostkey_count o) keys → (∀ o', Q o' w) → wpx F (nc_server_ssh_clear_opts o) Q w.
Proof.
  intros Hh HQ. unfold nc_server_ssh_clear_opts, nc_server_ssh_del_hostkey. cbn [Z.ltb Z.compare].
  apply wpx_bind, wpx_bind. eapply wpx_free_all; [done|]. intros a. by apply wpx_ret, wpx_ret.
Qed.

Lemma wpx_tls_clear F o certs (Q : nc_server_tls_opts → W → Prop) w :
  holds (trusted_cert_lists o) (trusted_cert_list_count o) certs → (∀ o', Q o' w) → wpx F (nc_server_tls_clear_opts o) Q w.
Proof.
  intros Hh HQ. unfold nc_server_tls_clear_opts, nc_server_tls_del_trusted_cert_list. apply wpx_bind, wpx_bind.
  eapply wpx_free_all; [done|]. intros a. apply wpx_ret. by apply wpx_bind, wpx_ret, wpx_ret.
Qed.

Lemma wpx_clear_opts F e (Q : unit → W → Prop) w : opts_ok e → Q tt w → wpx F (clear_opts e) Q w.
Proof.
  unfold opts_ok, clear_opts. intros Ho HQ. destruct (ep_ti e), (ep_opts e); try done; destruct Ho as [k Ho]; apply wpx_bind.
  - eapply wpx_ssh_clear; [done|]. intros o'. by apply wpx_ret.
  - eapply wpx_tls_clear; [done|]. intros o'. by apply wpx_ret.
Qed.

(** The descriptors without that of a bind. *)
Definition without (b : nc_bind) (X : gset Z) : gset Z := if decide (0 ≤ bind_sock b) then X ∖ {[bind_sock b]} else X.

Lemma wpx_close_bind F b (Q : unit → server_conf * W → Prop) s w :
  (∀ w', open_fds w' = without b (open_fds w) → Q tt (s, w')) → wpx F (close_bind b) Q (s, w).
Proof.
  intros HQ. unfold close_bind, without in *. destruct (Z.ltb_spec (-1) (bind_sock b)).
  - apply wpx_modify, HQ. cbn. rewrite decide_True by lia. apply close_law.
  - apply wpx_ret, HQ. by rewrite decide_False by lia.
Qed.

Lemma rep_shrink s l bl el n (Q : unit → server_conf * W → Prop) F w :
  rep s l bl el → (n ≤ length l)%nat → (∀ s', rep s' (take n l) bl el → Q tt (s', w)) →
  wpx F (shrink (Z.of_nat n)) Q (s, w).
Proof.
  intros (H1 & H2 & H3 & H4 & H5) Hn HQ. unfold shrink, set_arrays. apply wpx_bind, wpx_gets. cbn [fst].
  destruct (Z.eqb_spec (Z.of_nat n) 0) as [E|E]; apply wpx_modify, HQ; unfold rep; cbn.
  - assert (n = 0%nat) as -> by lia. rewrite take_0. cbn. split_and!; try done; by right.
  - rewrite Nat2Z.id, !fmap_take. unfold zlen. rewrite length_take, Nat.min_l by lia. split_and!; try done.
    + destruct H1 as [->|[El ->]]; [by left|]. right. by rewrite El, take_nil.
    + destruct H2 as [->|[El ->]]; [by left|]. right. by rewrite El, take_nil.
Qed.

Lemma remove_ok F s l i x (Q : unit → server_conf * W → Prop) w :
  rep s l true true → Forall slot_ok l → l !! i = Some x →
  (∀ s' w', rep s' (swap_remove i l) true true → open_fds w' = without x.2 (open_fds w) → Q tt (s', w')) →
  wpx F (remove_endpt (Z.of_nat i)) Q (s, w).
Proof.
  intros Hr Hok Hi HQ. pose proof (Forall_lookup_1 _ _ _ _ Hok Hi) as (_ & Ho & _). destruct (Hr) as (_ & _ & Hc & _).
  pose proof (lookup_lt_Some _ _ _ Hi) as Hlt. set (n := (length l - 1)%nat).
  destruct (lookup_lt_is_Some_2 l n ltac:(lia)) as [y Hy]. destruct y as [e' b'].
  assert (Hsr : swap_remove i l = take n (<[i := (e', b')]> l)) by (unfold swap_remove; fold n; by rewrite Hy).
  assert (Hn : zlen l - 1 = Z.of_nat n) by (unfold zlen; lia).
  unfold remove_endpt. apply wpx_bind. eapply wpx_endpt_at; [done..|]. apply wpx_bind, wpx_on_env, wpx_clear_opts; [done|].
  apply wpx_bind. eapply wpx_bind_at; [done..|]. apply wpx_bind, wpx_close_bind. intros w' Hw'.
  apply wpx_bind, wpx_gets. cbn [fst]. rewrite Hc, Hn. destruct x as [e b].
  destruct (Z.ltb_spec (Z.of_nat i) (Z.of_nat n)).
  - apply wpx_bind. eapply wpx_bind_at; [done..|]. apply wpx_bind. eapply wpx_endpt_at; [done..|]. cbn [fst snd].
    apply wpx_bind. eapply wpx_put_bind; [done..|]. intros s1 Hr1.
    apply wpx_bind. eapply wpx_put_endpt; [done|by apply list_lookup_insert_eq|]. intros s2 Hr2.
    rewrite list_insert_insert_eq in Hr2. eapply rep_shrink; [done|rewrite length_insert; lia|]. intros s3 Hr3.
    apply HQ; [by rewrite Hsr|done].
  - assert (i = n) as -> by lia. eapply rep_shrink; [done|lia|]. intros s3 Hr3. apply HQ; [|done].
    rewrite Hsr. rewrite Hi in Hy. injection Hy as -> ->. by rewrite list_insert_id.
Qed.

(** Deleting the endpoint with a name. *)
Lemma del_endpt_name_ok F s l name ti i n (Q : Z → server_conf * W → Prop) w :
  rep s l true true → distinct slot_name l → Forall slot_ok l → (i + n = length l)%nat →
  (∀ x, x ∈ take i l → slot_name x ≠ name) →
  (slot_map l !! name = None → Q (-1) (s, w)) →
  (∀ j x s' w', l !! j = Some x → slot_name x = name → rep s' (swap_remove j l) true true →
     open_fds w' = without x.2 (open_fds w) → Q 0 (s', w')) →
  wpx F (del_endpts n (Z.of_nat i) (Some name) ti (-1)) Q (s, w).
Proof.
  intros Hr Hd Hok. revert i. induction n as [|n IH]; intros i Hi Hpre H1 H2; cbn [del_endpts].
  - apply wpx_ret, H1. apply eq_None_not_Some. intros [x [Hx E]%keyed_map_lookup]; [|done].
    rewrite take_ge in Hpre by lia. by apply (Hpre x).
  - destruct (Hr) as (_ & _ & Hc & _). apply wpx_bind, wpx_gets. cbn [fst]. rewrite Hc.
    rewrite (proj2 (Z.leb_gt _ _)) by (unfold zlen; lia).
    destruct (lookup_lt_is_Some_2 l i ltac:(lia)) as [x Hx]. apply wpx_bind. eapply wpx_endpt_at; [done..|].
    destruct (Forall_lookup_1 _ _ _ _ Hok Hx) as ([nm Hnm] & _). rewrite Hnm.
    assert (Hs : slot_name x = nm) by (unfold slot_name; by rewrite Hnm).
    unfold strcmp_eq. destruct (bool_decide_reflect (nm = name)) as [->|N].
    + apply wpx_bind. eapply remove_ok; [done..|]. intros s' w' Hr' Hw'. apply wpx_ret. by eapply H2.
    + replace (Z.of_nat i + 1) with (Z.of_nat (i + 1)) by lia. apply IH; [lia| |done..].
      intros y Hy. rewrite Nat.add_1_r, (take_S_r _ _ _ Hx) in Hy.
      apply elem_of_app in Hy as [Hy| ->%list_elem_of_singleton]; [by apply Hpre|congruence].
Qed.

Lemma del_ok F s l name ti w :
  rep s l false false → well_formed l (open_fds w) →
  wpx F (nc_server_del_endpt (Some name) ti) (λ r st, ∃ l', settled l w l' st ∧
    slot_map l' = delete name (slot_map l) ∧ r = if decide (slot_map l !! name = None) then -1 else 0) (s, w).
Proof.
  intros Hr Hwf. unfold nc_server_del_endpt. apply wpx_bind. eapply wpx_bind_lock; [done|]. intros s1 Hr1.
  apply wpx_bind. eapply wpx_endpt_lock; [done|]. intros s2 Hr2. apply wpx_bind, wpx_gets. cbn [fst].
  destruct (Hr2) as (_ & _ & -> & _). unfold zlen. rewrite Nat2Z.id. apply wpx_bind.
  pose proof Hwf as (Hd & Hok & _).
  apply (del_endpt_name_ok F s2 l name ti 0); [done..|by intros x ?%not_elem_of_nil| |].
  - intros Hn. eapply wpx_unlock_both; [done|]. intros s3 Hr3. exists l. split; [done|].
    rewrite decide_True by done. split; [|done]. by rewrite delete_id.
  - intros j x s3 w3 Hj Hx Hr3 Hw3. eapply wpx_unlock_both; [done|]. intros s4 Hr4. exists (swap_remove j l).
    destruct (keyed_map_swap_remove slot_name l j x Hj Hd) as [Hm _]. rewrite Hx in Hm.
    split; [|split; [done|]].
    + split; [done|]. cbn [snd]. rewrite Hw3.
      destruct (well_formed_perm _ _ _ (swap_remove_keyed_perm j l x Hj) Hwf) as [H1 H2].
      destruct (well_formed_remove _ _ _ H1) as [H3 H4]. split; [done|]. by rewrite <- H2, <- H4.
    + rewrite decide_False; [done|]. intros Hn. apply keyed_map_lookup_None in Hn. apply Hn.
      rewrite <- Hx. apply list_elem_of_fmap_2. by eapply list_elem_of_lookup_2.
Qed.

(** Deleting all. *)
Lemma wpx_clear_endpts F s l bl el n i (Q : unit → server_conf * W → Prop) w :
  rep s l bl el → Forall slot_ok l → (i + n = length l)%nat → Q tt (s, w) → wpx F (clear_endpts n (Z.of_nat i)) Q (s, w).
Proof.
  intros Hr Hok. revert i. induction n as [|n IH]; intros i Hi HQ; cbn [clear_endpts]; [by apply wpx_ret|].
  destruct (lookup_lt_is_Some_2 l i ltac:(lia)) as [x Hx]. apply wpx_bind. eapply wpx_endpt_at; [done..|].
  apply wpx_bind, wpx_on_env, wpx_clear_opts; [apply (Forall_lookup_1 _ _ _ _ Hok Hx)|].
  replace (Z.of_nat i + 1) with (Z.of_nat (i + 1)) by lia. apply IH; [lia|done].
Qed.

Lemma wpx_clear_binds F s l n i (Q : unit → server_conf * W → Prop) w :
  array_of (binds s) (Some <$> l.*2) → (i + n = length l)%nat →
  (∀ w', open_fds w' = open_fds w ∖ list_to_set (socks (drop i l)) → Q tt (s, w')) →
  wpx F (clear_binds n (Z.of_nat i)) Q (s, w).
Proof.
  intros Hb. revert i w. induction n as [|n IH]; intros i w Hi HQ; cbn [clear_binds].
  - apply wpx_ret, HQ. rewrite drop_ge by lia. cbn. by rewrite difference_empty_L.
  - destruct (lookup_lt_is_Some_2 l i ltac:(lia)) as [x Hx]. apply wpx_bind. unfold bind_at. apply wpx_bind, wpx_gets. cbn [fst].
    assert (binds s = Some (Some <$> l.*2)) as ->.
    { destruct Hb as [->|[E _]]; [done|]. apply (f_equal length) in E. rewrite !length_fmap in E. simpl in E. lia. }
    rewrite (proj2 (Z.ltb_ge _ _)), Nat2Z.id, !list_lookup_fmap, Hx by lia. apply wpx_ret.
    apply wpx_bind, wpx_close_bind. intros w' Hw'. replace (Z.of_nat i + 1) with (Z.of_nat (i + 1)) by lia. apply IH; [lia|]. intros w'' Hw''. apply HQ.
    rewrite (drop_S _ _ _ Hx), socks_cons, Nat.add_1_r in *. rewrite Hw'', Hw'. unfold without. destruct (decide _).
    + cbn [app]. rewrite list_to_set_cons. set_solver.
    + done.
Qed.

Lemma del_all_ok F s l w :
  rep s l false false → well_formed l (open_fds w) →
  wpx F (nc_server_del_endpt None NC_TI_NONE) (λ r st, settled l w [] st ∧ r = if decide (l = []) then -1 else 0) (s, w).
Proof.
  intros Hr Hwf. unfold nc_server_del_endpt. apply wpx_bind. eapply wpx_bind_lock; [done|]. intros s1 Hr1.
  apply wpx_bind. eapply wpx_endpt_lock; [done|]. intros s2 Hr2. apply wpx_bind, wpx_gets. cbn [fst].
  destruct (Hr2) as (_ & Hb & -> & Hbl & Hel). unfold zlen. rewrite Nat2Z.id. pose proof Hwf as (Hd & Hok & _ & _).
  apply wpx_bind, wpx_bind. apply (wpx_clear_endpts F s2 l true true _ 0); [done..|].
  unfold set_arrays. apply wpx_bind, wpx_modify, wpx_bind. cbn [fst snd].
  apply (wpx_clear_binds F _ l _ 0); [done..|]. intros w' Hw'. rewrite drop_0 in Hw'.
  apply wpx_bind, wpx_modify, wpx_ret. cbn [fst snd]. eapply (wpx_unlock_both _ _ []).
  { split_and!; try done; by right. }
  intros s3 Hr3. split; [|by destruct l].
  split; [done|]. cbn [snd]. split; [|unfold others; rewrite Hw'; cbn; by rewrite difference_empty_L].
  unfold well_formed. split_and!; [by apply NoDup_nil_2|done|by apply NoDup_nil_2|by intros ? ?%not_elem_of_nil|done].
Qed.

(** ** Addresses *)

(** Whether an endpoint with an address and port listens. *)
Definition listens (e : nc_endpt) (address : option bytes) (port : Z) : Prop :=
  address ≠ None ∧ (ep_ti e = NC_TI_UNIX ∨ port ≠ 0).

Lemma wpx_listen F e address port (Q : option Z → W → Prop) w :
  opts_ok e →
  (¬ listens e address port → Q None w) →
  (∀ fd w', listens e address port → new_fd w fd w' → Q (Some fd) w') →
  wpx F (listen_endpt e address port) Q w.
Proof.
  intros Ho H1 H2. unfold listen_endpt. destruct address as [a|]; [|apply wpx_ret, H1; by intros [? _]].
  destruct (decide (ep_ti e = NC_TI_UNIX)) as [Eu|Eu].
  - unfold opts_ok in Ho. rewrite Eu in Ho. destruct (ep_opts e); try done. apply wpx_bind.
    eapply wpx_mono; [apply listen_unix_fds|]. intros fd w' Hn. apply wpx_ret, H2; [|done]. split; [done|by left].
  - destruct (Z.eqb_spec port 0) as [->|Hp]; cbn [negb].
    + apply wpx_ret, H1. intros [_ [?|?]]; done.
    + apply wpx_bind. eapply wpx_mono; [apply listen_inet_fds|]. intros fd w' Hn. apply wpx_ret, H2; [|done].
      split; [done|by right].
Qed.

(** A bind with a new address or port: the socket is a new one if the endpoint can
    listen now, and the old one otherwise. *)
Definition rebound (e : nc_endpt) (b b' : nc_bind) (address : option bytes) (port : Z) : Prop :=
  bind_address b' = address ∧ bind_port b' = port ∧ bind_pollin b' = bind_pollin b ∧
  (¬ listens e address port → bind_sock b' = bind_sock b) ∧ (listens e address port → 0 ≤ bind_sock b').

(** What the arguments change. *)
Definition new_address (address : option bytes) (b : nc_bind) : option bytes :=
  match address with Some _ => address | None => bind_address b end.
Definition new_port (address : option bytes) (port : Z) (b : nc_bind) : Z :=
  match address with Some _ => bind_port b | None => port end.

(** Replacing the bind of an element, with its old socket closed. *)
Lemma well_formed_rebind l i e b b' X :
  well_formed l X → l !! i = Some (e, b) → bind_sock b' ∉ X → 0 ≤ bind_sock b' →
  let Y := without b ({[bind_sock b']} ∪ X) in
  well_formed (<[i := (e, b')]> l) Y ∧ others (<[i := (e, b')]> l) Y = others l X.
Proof.
  intros Hwf Hi Hn H0 Y. destruct (split_at l i (e, b) Hi) as (k & Hk & Hky).
  destruct (well_formed_perm _ _ _ Hk Hwf) as [Hwk Ho]. pose proof Hwk as (Hd & Hok & _ & Hin & Hlen).
  apply list.Forall_cons in Hok as [(Hb1 & Hb2 & Hb3) _]. apply NoDup_cons in Hd as [Hnk _].
  destruct (well_formed_remove _ _ _ Hwk) as [Hw2 Ho2]. cbn [snd] in *. fold (without b X) in *.
  assert (HY : Y = {[bind_sock b']} ∪ without b X).
  { subst Y. unfold without. destruct (decide _) as [Hs|Hs]; [|done].
    assert (bind_sock b ∈ X) by (apply Hin; rewrite socks_cons; cbn; rewrite decide_True by done; by left).
    assert (bind_sock b' ≠ bind_sock b) by congruence. set_solver. }
  destruct (well_formed_add (e, b') k (without b X) Hw2) as [Hw3 Ho3]; cbn [snd] in *.
  - by apply keyed_map_lookup_None.
  - split; [done|]. split; [done|]. cbn. lia.
  - rewrite zlen_cons in Hlen. lia.
  - intros _. unfold without. destruct (decide _); set_solver.
  - rewrite decide_True in Hw3, Ho3 by done. rewrite <- HY in Hw3, Ho3.
    destruct (well_formed_perm _ _ _ (symmetry (Hky (e, b'))) Hw3) as [H4 H5]. split; [done|]. by rewrite H5, Ho3, Ho2, Ho.
Qed.

(** Replacing the bind of an element by one with the same socket. *)
Lemma well_formed_same_sock l i e b b' X :
  well_formed l X → l !! i = Some (e, b) → bind_sock b' = bind_sock b →
  well_formed (<[i := (e, b')]> l) X ∧ others (<[i := (e, b')]> l) X = others l X.
Proof.
  intros Hwf Hi Hs. destruct (split_at l i (e, b) Hi) as (k & Hk & Hky).
  destruct (well_formed_perm _ _ _ Hk Hwf) as [Hwk Ho]. pose proof Hwk as (_ & [(Hb1 & Hb2 & Hb3) _]%list.Forall_cons & _).
  destruct (well_formed_change _ (e, b') _ _ Hwk) as [Hwy Hoy]; [done| |done|].
  { split; [done|]. split; [done|]. cbn in *. lia. }
  destruct (well_formed_perm _ _ _ (symmetry (Hky (e, b'))) Hwy) as [H4 H5]. split; [done|]. congruence.
Qed.
End ops.
