(* ===== verification/EndpointsTheorems.v ===== *)
(** * The endpoints of a server

    The functions on endpoints refine operations on a map from names, whatever order
    they are called in; and deleting by transport, which can leave an endpoint of
    that transport. *)

From S2P Require Import Prelude Session Env Sim Capabilities PtrArray SshOpts SshOptsProofs TlsOpts Sockets.
From S2P Require Import SocketsProofs Endpoints EndpointsProofs EndpointsOps.
From Stdlib Require Import ZArith Ascii String Lia.
From stdpp Require Import base list strings gmap numbers fin_sets.
Open Scope Z_scope.

Section ops.
Context {W : Type} `{!Env W} `{!SockEnv W} `{!SockLaws W}.
Implicit Types (l : list slot) (w : W) (s : server_conf).

(** ** Setting an address or a port *)

(** The last part: the bind [b] gets the socket [sock], if any. *)
Lemma finish_bind_ok F s l i e b b' sock (Q : Z → server_conf * W → Prop) w w0 :
  rep s l true true → well_formed l (open_fds w0) → l !! i = Some (e, b) →
  match sock with None => same_fds w0 w | Some fd => fd ≠ -1 ∧ new_fd w0 fd w end →
  bind_sock b' = default (bind_sock b) sock →
  (∀ s' w', rep s' (<[i := (e, b')]> l) true true → well_formed (<[i := (e, b')]> l) (open_fds w') →
     others (<[i := (e, b')]> l) (open_fds w') = others l (open_fds w0) → Q 0 (s', w')) →
  wpx F (_ ← match sock with None => mret tt | Some _ => close_bind b end; _ ← put_bind (Z.of_nat i) b'; mret 0) Q (s, w).
Proof.
  intros Hr Hwf Hi Hs Hb HQ. apply wpx_bind. destruct sock as [fd|]; cbn in Hb.
  - destruct Hs as [Hfd [[-> _]|(H0 & Hn & Ho)]]; [done|]. apply wpx_close_bind. intros w' Hw'. rewrite Ho in Hw'.
    apply wpx_bind. eapply wpx_put_bind; [done..|]. intros s' Hr'. apply wpx_ret.
    destruct (well_formed_rebind l i e b b' (open_fds w0) Hwf Hi) as [H1 H2]; rewrite ?Hb; try done.
    rewrite Hb, <- Hw' in H1, H2. by apply HQ.
  - apply wpx_ret, wpx_bind. eapply wpx_put_bind; [done..|]. intros s' Hr'. apply wpx_ret.
    destruct (well_formed_same_sock l i e b b' (open_fds w0) Hwf Hi Hb) as [H1 H2]. rewrite <- Hs in H1, H2.
    apply HQ; [done..|]. by rewrite <- Hs.
Qed.

Lemma set_address_port_ok F s l i e b address port (Q : Z → server_conf * W → Prop) w :
  memory (W := W) → (∀ a, address = Some a → zlen a < 2 ^ 31) →
  rep s l true true → well_formed l (open_fds w) → l !! i = Some (e, b) →
  (∀ w', same_fds w w' → Q (-1) (s, w')) →
  (∀ s' w' b', rep s' (<[i := (e, b')]> l) true true → well_formed (<[i := (e, b')]> l) (open_fds w') →
     others (<[i := (e, b')]> l) (open_fds w') = others l (open_fds w) →
     rebound e b b' (new_address address b) (new_port address port b) →
     ¬ (address = None ∧ ep_ti e = NC_TI_UNIX) → Q 0 (s', w')) →
  wpx F (set_address_port (Z.of_nat i) address port) Q (s, w).
Proof.
  intros Hm Ha Hr Hwf Hi Hfail HQ. pose proof Hwf as (_ & Hok & _). pose proof (Forall_lookup_1 _ _ _ _ Hok Hi) as (_ & Ho & _).
  unfold set_address_port. apply wpx_bind. eapply wpx_endpt_at; [done..|]. apply wpx_bind. eapply wpx_bind_at; [done..|].
  cbn [fst snd]. destruct (negb _ && _) eqn:Eu; [by apply wpx_ret, Hfail|].
  set (a' := if match address with Some _ => true | None => false end then address else bind_address b).
  set (p' := if match address with Some _ => true | None => false end then bind_port b else port).
  assert (Ea : a' = new_address address b) by (by destruct address).
  assert (Ep : p' = new_port address port b) by (by destruct address).
  assert (Hnu : ¬ (address = None ∧ ep_ti e = NC_TI_UNIX)).
  { intros [-> E]. cbn in Eu. by rewrite bool_decide_eq_true_2 in Eu. }
  apply wpx_bind, wpx_on_env, wpx_listen; [done|..].
  - intros Hnl. rewrite bool_decide_eq_false_2 by done. destruct address as [a|].
    + apply wpx_bind, wpx_ret, wpx_bind, wpx_on_env, wpx_endpt_strdup; [done|by specialize (Ha a eq_refl); lia|]. intros w1 Hw1.
      pose proof (finish_bind_ok F s l i e b (NcBind (Some a) (bind_port b) (bind_sock b) (bind_pollin b)) None Q w1 w) as Hf.
      apply Hf; [done..|]. intros s' w' H1 H2 H3. eapply HQ; [done..| |done]. rewrite <- Ea, <- Ep. by repeat split.
    + apply (finish_bind_ok F s l i e b (NcBind (bind_address b) p' (bind_sock b) (bind_pollin b)) None Q w w); [done..|].
      intros s' w' H1 H2 H3. eapply HQ; [done..| |done]. rewrite <- Ea, <- Ep. by repeat split.
  - intros fd w1 Hl Hn. destruct (bool_decide_reflect (Some fd = Some (-1))) as [[= ->]|Nfd].
    + destruct Hn as [[_ Hn]|[? _]]; [by apply wpx_ret, Hfail|lia].
    + assert (Hfd : fd ≠ -1) by congruence. assert (0 ≤ fd) by (destruct Hn as [[? _]|[? _]]; [done|lia]).
      destruct address as [a|].
      * apply wpx_bind, wpx_close_bind. intros w2 Hw2.
        apply wpx_bind, wpx_on_env, wpx_endpt_strdup; [done|by specialize (Ha a eq_refl); lia|]. intros w3 Hw3.
        apply wpx_bind. eapply wpx_put_bind; [done..|]. intros s' Hr'. apply wpx_ret.
        destruct Hn as [[? _]|(H0 & Hnew & Hop)]; [done|]. rewrite Hop in Hw2.
        set (b' := NcBind (Some a) (bind_port b) (default (bind_sock b) (Some fd)) (bind_pollin b)) in *.
        destruct (well_formed_rebind l i e b b' (open_fds w) Hwf Hi) as [H1 H2]; [done..|].
        change (bind_sock b') with fd in H1, H2. rewrite <- Hw2, <- Hw3 in H1, H2.
        eapply HQ; [done..| |done]. rewrite <- Ea, <- Ep. by repeat split.
      * apply (finish_bind_ok F s l i e b (NcBind (bind_address b) p' fd (bind_pollin b)) (Some fd) Q w1 w); [done..|].
        intros s' w' H1 H2 H3. eapply HQ; [done..| |done]. rewrite <- Ea, <- Ep. by repeat split.
Qed.

Lemma set_address_ok F s l name address port w :
  memory (W := W) → (∀ a, address = Some a → zlen a < 2 ^ 31) → rep s l false false → well_formed l (open_fds w) →
  wpx F (nc_server_endpt_set_address_port (Some name) address port) (λ r st, ∃ l', settled l w l' st ∧
    ((r = -1 ∧ slot_map l' = slot_map l) ∨
     (r = 0 ∧ (address = None ↔ port ≠ 0) ∧ ∃ e b b', slot_map l !! name = Some (e, b) ∧
        slot_map l' = <[name := (e, b')]> (slot_map l) ∧ rebound e b b' (new_address address b) (new_port address port b)))) (s, w).
Proof.
  intros Hm Ha Hr Hwf. unfold nc_server_endpt_set_address_port.
  assert (Hrefuse : ∀ st, settled l w l st → ∃ l', settled l w l' st ∧
    ((-1 = -1 ∧ slot_map l' = slot_map l) ∨
     (-1 = 0 ∧ (address = None ↔ port ≠ 0) ∧ ∃ e b b', slot_map l !! name = Some (e, b) ∧
        slot_map l' = <[name := (e, b')]> (slot_map l) ∧ rebound e b b' (new_address address b) (new_port address port b)))).
  { intros st Hst. exists l. split; [done|by left]. }
  assert (Hmain : (address = None ↔ port ≠ 0) →
    wpx F (_ ← bind_lock; r ← nc_server_endpt_lock_get (Some name) NC_TI_NONE;
      match r with
      | None => _ ← bind_unlock; mret (-1)
      | Some i => ret ← set_address_port i address port; _ ← endpt_unlock; _ ← bind_unlock; mret ret
      end) (λ r st, ∃ l', settled l w l' st ∧
    ((r = -1 ∧ slot_map l' = slot_map l) ∨
     (r = 0 ∧ (address = None ↔ port ≠ 0) ∧ ∃ e b b', slot_map l !! name = Some (e, b) ∧
        slot_map l' = <[name := (e, b')]> (slot_map l) ∧ rebound e b b' (new_address address b) (new_port address port b)))) (s, w)).
  { intros Hap. apply wpx_bind. eapply wpx_bind_lock; [done|]. intros s1 Hr1. apply wpx_bind.
    eapply wpx_lock_get; [done..| |].
    - intros s2 Hr2 _. apply wpx_bind. eapply wpx_bind_unlock; [done|]. intros s3 Hr3. apply wpx_ret. by apply Hrefuse.
    - intros s2 i [e b] n Hr2 [= <-] Hi Hx Hn _. apply wpx_bind. eapply set_address_port_ok; [done..| |].
      + intros w' Hw'. eapply wpx_unlock_both; [done|]. intros s3 Hr3. apply Hrefuse. split; [done|]. cbn. by rewrite Hw'.
      + intros s3 w3 b' Hr3 Hwf3 Ho3 Hb _. eapply wpx_unlock_both; [done|]. intros s4 Hr4. eexists. split; [by split|].
        right. split; [done|]. split; [done|]. exists e, b, b'. split; [done|]. split; [|done].
        unfold slot_map. erewrite keyed_map_insert; [|done|done|apply Hwf]. by rewrite <- Hn. }
  destruct address as [a|], (Z.eqb_spec port 0) as [E|E]; try (by apply wpx_ret, Hrefuse); apply Hmain; split; done.
Qed.
End ops.

(** ** All operations *)

Inductive endpt_op :=
| EAdd (name : bytes) (ti : NC_TRANSPORT_IMPL)
| EDel (name : bytes)
| EDelAll
| ESetAddress (name address : bytes)
| ESetPort (name : bytes) (port : Z)
| ESetPerms (name : bytes) (mode uid gid : Z)
| EEnableKeepalives (name : bytes) (enable : bool)
| ESetKeepalives (name : bytes) (idle_time max_probes probe_interval : Z).

Definition run_endpt_op {W} `{!Env W, !SockEnv W} (op : endpt_op) : M (server_conf * W) Z :=
  match op with
  | EAdd n ti => nc_server_add_endpt (Some n) ti
  | EDel n => nc_server_del_endpt (Some n) NC_TI_NONE
  | EDelAll => nc_server_del_endpt None NC_TI_NONE
  | ESetAddress n a => nc_server_endpt_set_address (Some n) (Some a)
  | ESetPort n p => nc_server_endpt_set_port (Some n) p
  | ESetPerms n m u g => nc_server_endpt_set_perms (Some n) m u g
  | EEnableKeepalives n b => nc_server_endpt_enable_keepalives (Some n) b
  | ESetKeepalives n i m p => nc_server_endpt_set_keepalives (Some n) i m p
  end.

(** A function of the endpoint [n] alone. *)
Definition endpt_changed (n : bytes) (f : nc_endpt → option nc_endpt) (m : gmap bytes slot) (r : Z)
    (m' : gmap bytes slot) : Prop :=
  match m !! n with
  | None => r = -1 ∧ m' = m
  | Some (e, b) => match f e with None => r = -1 ∧ m' = m | Some e' => r = 0 ∧ m' = <[n := (e', b)]> m end
  end.

(** What an operation returns and does to the map; listening may fail. *)
Definition endpt_op_spec (op : endpt_op) (m : gmap bytes slot) (r : Z) (m' : gmap bytes slot) : Prop :=
  match op with
  | EAdd n ti =>
    match m !! n, default_opts ti with
    | None, Some o => r = 0 ∧ m' = <[n := (set_opts o (new_endpt (Some n) ti), new_bind)]> m
    | _, _ => r = -1 ∧ m' = m
    end
  | EDel n => m' = delete n m ∧ r = if decide (m !! n = None) then -1 else 0
  | EDelAll => m' = ∅ ∧ r = if decide (m = ∅) then -1 else 0
  | ESetAddress n a =>
    (r = -1 ∧ m' = m) ∨
    (r = 0 ∧ ∃ e b b', m !! n = Some (e, b) ∧ m' = <[n := (e, b')]> m ∧ rebound e b b' (Some a) (bind_port b))
  | ESetPort n p =>
    (r = -1 ∧ m' = m) ∨
    (r = 0 ∧ p ≠ 0 ∧ ∃ e b b', m !! n = Some (e, b) ∧ m' = <[n := (e, b')]> m ∧ rebound e b b' (bind_address b) p)
  | ESetPerms n mode u g =>
    endpt_changed n (λ e, if decide (mode ≠ 0 ∧ ep_ti e = NC_TI_UNIX) then Some (set_opts (OptsUnix (UnixOpts mode u g)) e)
                          else None) m r m'
  | EEnableKeepalives n b =>
    endpt_changed n (λ e, Some (set_ka (Keepalives b (ka_idle_time (ep_ka e)) (ka_max_probes (ep_ka e))
                                          (ka_probe_interval (ep_ka e))) e)) m r m'
  | ESetKeepalives n i mp p => endpt_changed n (λ e, Some (set_ka (update_ka i mp p (ep_ka e)) e)) m r m'
  end.

(** Supported transports, and strings and numbers of endpoints that fit. *)
Definition endpt_op_safe (op : endpt_op) (l : list slot) : Prop :=
  match op with
  | EAdd n ti => is_Some (default_opts ti) ∧ zlen n < 2 ^ 31 ∧ zlen l < 65535
  | ESetAddress n a => zlen a < 2 ^ 31
  | _ => True
  end.

(** A function that always or never changes an endpoint. *)
Lemma with_endpt_changed {W} `{!Env W, !SockEnv W, !SockLaws W} F s l name (g : nc_endpt → option nc_endpt) f (w : W) :
  rep s l false false → well_formed l (open_fds w) → endpt_fun f →
  (∀ F e w, opts_ok e → wpx F (f e) (λ '(r, e') _, match g e with Some e1 => r = 0 ∧ e' = e1 | None => r = -1 ∧ e' = e end) w) →
  wpx F (with_endpt (Some name) NC_TI_NONE f)
    (λ r st, ∃ l', settled l w l' st ∧ endpt_changed name g (slot_map l) r (slot_map l')) (s, w).
Proof.
  intros Hr Hwf Hf Hg. eapply wpx_mono; [eapply with_endpt_ok; [done..|exact Hg]|]. intros r st (l' & Hs & Hc). exists l'.
  split; [done|]. unfold endpt_changed. destruct Hc as [(-> & -> & Hn)|(n & e & b & e' & [= <-] & Hl & _ & HP & ->)].
  - destruct (slot_map l !! name) as [[e b]|] eqn:E; [|done]. exfalso. apply (Hn name (e, b)); [done..|]. by left.
  - rewrite Hl. destruct (g e) as [e1|]; destruct HP as [-> ->]; [done|]. split; [done|]. by rewrite insert_id.
Qed.

Lemma slot_map_empty l : slot_map l = ∅ ↔ l = [].
Proof.
  split; [|by intros ->]. destruct l as [|x l]; [done|]. unfold slot_map. rewrite keyed_map_cons. intros E.
  by apply insert_non_empty in E.
Qed.

Lemma endpt_fun_pure {W} `{!Env W, !SockEnv W, !SockLaws W} (h : nc_endpt → Z * nc_endpt) :
  (∀ e, opts_ok e → ep_name (h e).2 = ep_name e ∧ opts_ok (h e).2) → endpt_fun (W := W) (λ e, mret (h e)).
Proof. intros Hh F e w Ho. apply wpx_ret. specialize (Hh e Ho). destruct (h e). done. Qed.

Lemma perms_ok {W} `{!Env W, !SockEnv W, !SockLaws W} F s l name mode uid gid (w : W) :
  rep s l false false → well_formed l (open_fds w) →
  wpx F (nc_server_endpt_set_perms (Some name) mode uid gid)
    (λ r st, ∃ l', settled l w l' st ∧ endpt_op_spec (ESetPerms name mode uid gid) (slot_map l) r (slot_map l')) (s, w).
Proof.
  intros Hr Hwf. unfold nc_server_endpt_set_perms. destruct (Z.eqb_spec mode 0) as [E|E].
  - apply wpx_ret. exists l. split; [done|]. cbn. unfold endpt_changed. destruct (slot_map l !! name) as [[e b]|]; [|done].
    rewrite decide_False; [done|]. by intros [? _].
  - apply with_endpt_changed; [done..| |].
    + intros F' e w' Ho. destruct (negb _) eqn:Eu; [by apply wpx_ret|]. unfold opts_ok in Ho |- *.
      apply negb_false_iff, bool_decide_eq_true in Eu. rewrite Eu in Ho. destruct (ep_opts e); try done.
      apply wpx_ret. cbn. by rewrite Eu.
    + intros F' e w' Ho. destruct (negb _) eqn:Eu.
      * apply negb_true_iff, bool_decide_eq_false in Eu. apply wpx_ret. rewrite decide_False; [done|]. by intros [_ ?].
      * apply negb_false_iff, bool_decide_eq_true in Eu. unfold opts_ok in Ho. rewrite Eu in Ho.
        destruct (ep_opts e) eqn:Eo; try done. apply wpx_ret. by rewrite decide_True.
Qed.

Lemma endpt_op_ok {W} `{!Env W, !SockEnv W, !SockLaws W} F op s l (w : W) :
  memory (W := W) → rep s l false false → well_formed l (open_fds w) → endpt_op_safe op l →
  wpx F (run_endpt_op op) (λ r st, ∃ l', settled l w l' st ∧ endpt_op_spec op (slot_map l) r (slot_map l')) (s, w).
Proof.
  intros Hm Hr Hwf Hs. destruct op as [n ti|n| |n a|n p|n mode u g|n b|n i mp p]; cbn [run_endpt_op endpt_op_safe] in *.
  - destruct Hs as ([o Ho] & Hn & Hl). eapply wpx_mono; [by eapply add_ok|]. intros r st (l' & Hst & H). exists l'.
    split; [done|]. cbn. rewrite Ho. destruct (slot_map l !! n); [by rewrite decide_False in H|by rewrite decide_True in H].
  - eapply wpx_mono; [by eapply del_ok|]. done.
  - eapply wpx_mono; [by eapply del_all_ok|]. intros r st [Hst ->]. exists []. split; [done|]. split; [done|].
    pose proof (slot_map_empty l). by destruct (decide (l = [])), (decide (slot_map l = ∅)); tauto.
  - eapply wpx_mono; [eapply set_address_ok; [done| |done..]|]; [by intros ? [= <-]|].
    intros r st (l' & Hst & H). exists l'. split; [done|]. destruct H as [?|(-> & _ & H)]; [by left|by right].
  - eapply wpx_mono; [eapply set_address_ok; [done| |done..]|]; [done|].
    intros r st (l' & Hst & H). exists l'. split; [done|]. destruct H as [?|(-> & Hp & H)]; [by left|right].
    split; [done|]. split; [by apply Hp|done].
  - by apply perms_ok.
  - apply with_endpt_changed; [done..|by apply endpt_fun_pure|]. intros F' e w' Ho. by apply wpx_ret.
  - apply with_endpt_changed; [done..|by apply endpt_fun_pure|]. intros F' e w' Ho. by apply wpx_ret.
Qed.


Lemma net_memory : memory (W := net).
Proof. intros n w Hn. simpl. unfold on_sim. simpl. replace (n =? 0) with false by lia. simpl. lia. Qed.


(** ** Deleting by transport *)

Section transport.
Context {W : Type} `{!Env W} `{!SockEnv W} `{!SockLaws W}.

(** Endpoints of other transports are kept. *)
Lemma del_other_ok F s l ti ret n i (Q : Z → server_conf * W → Prop) w :
  rep s l true true → (∀ j x, (i ≤ j)%nat → l !! j = Some x → ep_ti x.1 ≠ ti) → Q ret (s, w) →
  wpx F (del_endpts n (Z.of_nat i) None ti ret) Q (s, w).
Proof.
  intros Hr. revert i. induction n as [|n IH]; intros i Hl HQ; cbn [del_endpts]; [by apply wpx_ret|].
  destruct (Hr) as (_ & _ & Hc & _). apply wpx_bind, wpx_gets. cbn [fst]. rewrite Hc.
  destruct (Z.leb_spec (zlen l) (Z.of_nat i)); [by apply wpx_ret|].
  destruct (lookup_lt_is_Some_2 l i ltac:(unfold zlen in *; lia)) as [x Hx]. apply wpx_bind. eapply wpx_endpt_at; [done..|].
  rewrite decide_False by (by eapply Hl). replace (Z.of_nat i + 1) with (Z.of_nat (i + 1)) by lia. apply IH; [|done].
  intros j y Hj. apply Hl. lia.
Qed.

Lemma swap_remove_first {A} (x : A) l y : swap_remove 0 (x :: l ++ [y]) = y :: l.
Proof.
  unfold swap_remove. simpl length. rewrite length_app. simpl.
  replace (length l + 1 - 0)%nat with (S (length l)) by lia. simpl. rewrite list_lookup_middle by done.
  by rewrite take_app_length.
Qed.
End transport.

(** deleting the endpoints of one transport can leave one.  When the first and
    the last endpoint use the transport and no other does, the last one is moved to
    the place of the first and not looked at again: the function reports success and
    the endpoint is still there. *)
Theorem del_transport_leaves (W : Type) `{!Env W} `{!SockEnv W} `{!SockLaws W} s e1 b1 l e2 b2 ti (w : W) :
  rep s ((e1, b1) :: l ++ [(e2, b2)]) false false → Forall slot_ok ((e1, b1) :: l ++ [(e2, b2)]) →
  ti ≠ NC_TI_NONE → ep_ti e1 = ti → ep_ti e2 = ti → Forall (λ x, ep_ti x.1 ≠ ti) l →
  ∃ s' w', nc_server_del_endpt None ti (s, w) = Done (0, (s', w')) ∧ rep s' ((e2, b2) :: l) false false.
Proof.
  intros Hr Hok Hti E1 E2 Hl.
  assert (H : wp (nc_server_del_endpt None ti) (λ r st, r = 0 ∧ rep st.1 ((e2, b2) :: l) false false) (s, w)).
  { unfold nc_server_del_endpt. apply wpx_bind. eapply wpx_bind_lock; [done|]. intros s1 Hr1.
    apply wpx_bind. eapply wpx_endpt_lock; [done|]. intros s2 Hr2. apply wpx_bind, wpx_gets. cbn [fst].
    apply wpx_bind. destruct (Hr2) as (_ & _ & Hc & _).
    assert (Hd : wp (del_endpts (Z.to_nat (endpt_count s2)) 0 None ti (-1))
      (λ r st, wp (_ ← endpt_unlock; _ ← bind_unlock; mret r) (λ r st, r = 0 ∧ rep st.1 ((e2, b2) :: l) false false) st) (s2, w)).
    2: { by destruct ti. }
    rewrite Hc. unfold zlen. rewrite Nat2Z.id. cbn [length del_endpts]. apply wpx_bind, wpx_gets. cbn [fst]. rewrite Hc.
    rewrite (proj2 (Z.leb_gt _ _)) by (unfold zlen; simpl; lia). apply wpx_bind.
    apply (wpx_endpt_at _ _ _ _ _ 0 (e1, b1) _ _ Hr2 eq_refl). rewrite decide_True by done. apply wpx_bind.
    apply (remove_ok _ _ _ 0 (e1, b1) _ _ Hr2 Hok eq_refl). intros s3 w3 Hr3 _. rewrite swap_remove_first in Hr3.
    apply (del_other_ok _ _ _ _ _ _ 1 _ _ Hr3).
    - intros [|j] x Hj Hx; [lia|]. by eapply (Forall_lookup_1 _ _ _ _ Hl Hx).
    - eapply wpx_unlock_both; [done|]. intros s4 Hr4. done. }
  apply wp_total in H as (r & [s' w'] & E & -> & H). eauto.
Qed.

Lemma del_transport_leaves_witness :
  let e n := NcEndpt (Some (str n)) NC_TI_UNIX (Keepalives false 1 10 5) (OptsUnix (UnixOpts UNSET UNSET UNSET)) in
  let s := ServerConf (Some [e "a"; e "b"]) (Some [Some new_bind; Some new_bind]) 2 false false in
  let w := Net (Sim [] [] 0) ∅ [] in
  ∃ s' w', nc_server_del_endpt None NC_TI_UNIX (s, w) = Done (0, (s', w')) ∧ rep s' [(e "b", new_bind)] false false.
Proof.
  intros e s w. apply (del_transport_leaves net s (e "a"%string) new_bind [] (e "b"%string) new_bind NC_TI_UNIX w).
  - split_and!; try done; by left.
  - by repeat constructor.
  - discriminate.
  - reflexivity.
  - reflexivity.
  - constructor.
Defined.
