(* ===== verification/CallHome.v ===== *)
(** * Configuration of Call Home

    src/session_server.c: the clients a server connects to and their endpoints.
    [ch_client_lock] is a read-write lock on the array of clients, and every client
    has a mutex.  The functions of src/session_server_ssh.c and
    src/session_server_tls.c on Call Home endpoints end the file. *)

From S2P Require Import Prelude Session Env Capabilities PtrArray SshOpts TlsOpts Sockets Endpoints.
From Stdlib Require Import ZArith Ascii String Lia.
From stdpp Require Import base list strings gmap numbers fin_sets.
Open Scope Z_scope.

Inductive NC_CH_CONN_TYPE := NC_CH_CT_NOT_SET | NC_CH_PERSIST | NC_CH_PERIOD.
Inductive NC_CH_START_WITH := NC_CH_FIRST_LISTED | NC_CH_LAST_CONNECTED | NC_CH_RANDOM.

#[export] Instance NC_CH_CONN_TYPE_eq_dec : EqDecision NC_CH_CONN_TYPE.
Proof. solve_decision. Defined.
#[export] Instance NC_CH_START_WITH_eq_dec : EqDecision NC_CH_START_WITH.
Proof. solve_decision. Defined.

Record nc_ch_endpt := NcChEndpt {
  che_name : option bytes;
  che_ti : NC_TRANSPORT_IMPL;
  che_address : option bytes;
  che_port : Z;
  che_sock_pending : Z;
  che_ka : nc_keepalives;
  che_opts : endpt_opts;
}.

(** [conn.period]: the period, the anchor time and the idle timeout. *)
Record ch_period := ChPeriod { per_period : Z; per_anchor_time : Z; per_idle_timeout : Z }.

(** [None] for members of [conn] that were never set. *)
Record nc_ch_client := NcChClient {
  chc_name : option bytes;
  chc_endpts : option (list nc_ch_endpt);
  chc_endpt_count : Z;
  chc_conn_type : NC_CH_CONN_TYPE;
  chc_period : option ch_period;
  chc_start_with : NC_CH_START_WITH;
  chc_max_attempts : Z;
  chc_id : Z;
  chc_locked : bool;
}.

(** The members of [server_opts]: [ch_readers] and [ch_writer] say how the lock is
    held. *)
Record ch_conf := ChConf {
  ch_clients : option (list nc_ch_client);
  ch_client_count : Z;
  new_client_id : Z;
  ch_readers : nat;
  ch_writer : bool;
}.

Definition init_ch_conf : ch_conf := ChConf None 0 0 0 false.

Definition set_chc_locked (b : bool) (c : nc_ch_client) : nc_ch_client :=
  NcChClient (chc_name c) (chc_endpts c) (chc_endpt_count c) (chc_conn_type c) (chc_period c) (chc_start_with c)
    (chc_max_attempts c) (chc_id c) b.
Definition set_chc_endpts (l : option (list nc_ch_endpt)) (n : Z) (c : nc_ch_client) : nc_ch_client :=
  NcChClient (chc_name c) l n (chc_conn_type c) (chc_period c) (chc_start_with c) (chc_max_attempts c) (chc_id c)
    (chc_locked c).
Definition set_chc_conn (t : NC_CH_CONN_TYPE) (p : option ch_period) (c : nc_ch_client) : nc_ch_client :=
  NcChClient (chc_name c) (chc_endpts c) (chc_endpt_count c) t p (chc_start_with c) (chc_max_attempts c) (chc_id c)
    (chc_locked c).
Definition set_chc_start_with (v : NC_CH_START_WITH) (c : nc_ch_client) : nc_ch_client :=
  NcChClient (chc_name c) (chc_endpts c) (chc_endpt_count c) (chc_conn_type c) (chc_period c) v (chc_max_attempts c)
    (chc_id c) (chc_locked c).
Definition set_chc_max_attempts (v : Z) (c : nc_ch_client) : nc_ch_client :=
  NcChClient (chc_name c) (chc_endpts c) (chc_endpt_count c) (chc_conn_type c) (chc_period c) (chc_start_with c) v
    (chc_id c) (chc_locked c).

Definition set_che_address (a : option bytes) (e : nc_ch_endpt) : nc_ch_endpt :=
  NcChEndpt (che_name e) (che_ti e) a (che_port e) (che_sock_pending e) (che_ka e) (che_opts e).
Definition set_che_port (p : Z) (e : nc_ch_endpt) : nc_ch_endpt :=
  NcChEndpt (che_name e) (che_ti e) (che_address e) p (che_sock_pending e) (che_ka e) (che_opts e).
Definition set_che_ka (k : nc_keepalives) (e : nc_ch_endpt) : nc_ch_endpt :=
  NcChEndpt (che_name e) (che_ti e) (che_address e) (che_port e) (che_sock_pending e) k (che_opts e).
Definition set_che_opts (o : endpt_opts) (e : nc_ch_endpt) : nc_ch_endpt :=
  NcChEndpt (che_name e) (che_ti e) (che_address e) (che_port e) (che_sock_pending e) (che_ka e) o.
Definition set_che_pending (s : Z) (e : nc_ch_endpt) : nc_ch_endpt :=
  NcChEndpt (che_name e) (che_ti e) (che_address e) (che_port e) s (che_ka e) (che_opts e).

Section ch.
Context {W : Type} `{!Env W} `{!SockEnv W}.

Abbreviation HM := (M (ch_conf * W)).

Definition chconf : HM ch_conf := gets fst.

Definition set_clients (l : option (list nc_ch_client)) (n : Z) : HM unit :=
  modify (λ s, (ChConf l n (new_client_id s.1) (ch_readers s.1) (ch_writer s.1), s.2)).

(** ** Locks *)

(** A lock the caller holds in a way that excludes the new one is never granted. *)
Definition ch_rdlock : HM unit :=
  s ← chconf;
  if ch_writer s then no_fuel
  else modify (λ s, (ChConf (ch_clients s.1) (ch_client_count s.1) (new_client_id s.1) (S (ch_readers s.1)) (ch_writer s.1), s.2)).
Definition ch_rdunlock : HM unit :=
  modify (λ s, (ChConf (ch_clients s.1) (ch_client_count s.1) (new_client_id s.1) (pred (ch_readers s.1)) (ch_writer s.1), s.2)).
Definition ch_wrlock : HM unit :=
  s ← chconf;
  if ch_writer s || negb (Nat.eqb (ch_readers s) 0) then no_fuel
  else modify (λ s, (ChConf (ch_clients s.1) (ch_client_count s.1) (new_client_id s.1) (ch_readers s.1) true, s.2)).
Definition ch_wrunlock : HM unit :=
  modify (λ s, (ChConf (ch_clients s.1) (ch_client_count s.1) (new_client_id s.1) (ch_readers s.1) false, s.2)).

Definition client_at (i : Z) : HM nc_ch_client :=
  s ← chconf;
  match ch_clients s with
  | None => crash
  | Some l => match l !! Z.to_nat i with Some c => mret c | None => crash end
  end.

Definition put_client (i : Z) (c : nc_ch_client) : HM unit :=
  s ← chconf;
  set_clients ((λ l, <[Z.to_nat i := c]> l) <$> ch_clients s) (ch_client_count s).

Definition client_lock (i : Z) : HM unit :=
  c ← client_at i;
  if chc_locked c then no_fuel else put_client i (set_chc_locked true c).
Definition client_unlock (i : Z) : HM unit :=
  c ← client_at i;
  put_client i (set_chc_locked false c).

(** ** Looking for clients and endpoints *)

Fixpoint find_client (n : nat) (i : Z) (name : bytes) : HM (option Z) :=
  match n with
  | O => mret None
  | S n =>
    c ← client_at i;
    match chc_name c with
    | None => crash
    | Some s => if strcmp_eq s name then mret (Some i) else find_client n (i + 1) name
    end
  end.

Definition ch_endpt_at (c : nc_ch_client) (j : Z) : HM nc_ch_endpt :=
  match chc_endpts c with
  | None => crash
  | Some l => match l !! Z.to_nat j with Some e => mret e | None => crash end
  end.

(** An endpoint of the name, if one is given, and of the transport, if one is. *)
Fixpoint find_ch_endpt (n : nat) (j : Z) (c : nc_ch_client) (name : option bytes) (ti : NC_TRANSPORT_IMPL)
    : HM (option Z) :=
  match n with
  | O => mret None
  | S n =>
    e ← ch_endpt_at c j;
    b ← match name, che_name e with
        | None, _ => mret true
        | Some _, None => crash
        | Some nm, Some s => mret (strcmp_eq s nm)
        end;
    if b && (bool_decide (ti = NC_TI_NONE) || bool_decide (ti = che_ti e)) then mret (Some j)
    else find_ch_endpt n (j + 1) c name ti
  end.

(** The client stored in [client_p], with the locks held, and the endpoint
    returned. *)
Definition nc_server_ch_client_lock (name endpt_name : option bytes) (ti : NC_TRANSPORT_IMPL)
    : HM (option Z * option Z) :=
  match name with
  | None => mret (None, None)
  | Some name =>
    _ ← ch_rdlock;
    s ← chconf;
    r ← find_client (Z.to_nat (ch_client_count s)) 0 name;
    match r with
    | None => _ ← ch_rdunlock; mret (None, None)
    | Some i =>
      c ← client_at i;
      let any := bool_decide (endpt_name = None) && bool_decide (ti = NC_TI_NONE) in
      j ← (if any then mret None else find_ch_endpt (Z.to_nat (chc_endpt_count c)) 0 c endpt_name ti);
      if negb (bool_decide (endpt_name = None)) && negb (bool_decide (ti = NC_TI_NONE)) && bool_decide (j = None)
      then _ ← ch_rdunlock; mret (None, None)
      else _ ← client_lock i; mret (Some i, j)
    end
  end.

Definition nc_server_ch_client_unlock (i : Z) : HM unit :=
  _ ← client_unlock i;
  ch_rdunlock.

(** ** Functions on one client or endpoint *)

(** Functions that only need the client; [f] gives the result and the client. *)
Definition with_ch_client (name : option bytes) (f : nc_ch_client → HM (Z * nc_ch_client)) : HM Z :=
  '(c, _) ← nc_server_ch_client_lock name None NC_TI_NONE;
  match c with
  | None => mret (-1)
  | Some i =>
    c ← client_at i;
    '(r, c) ← f c;
    _ ← put_client i c;
    _ ← nc_server_ch_client_unlock i;
    mret r
  end.

(** Functions on an endpoint return when there is none, whatever is locked. *)
Definition with_ch_endpt (name endpt_name : option bytes) (ti : NC_TRANSPORT_IMPL) (f : nc_ch_endpt → M W (Z * nc_ch_endpt))
    : HM Z :=
  '(c, e) ← nc_server_ch_client_lock name endpt_name ti;
  match e, c with
  | None, _ => mret (-1)
  | Some _, None => crash
  | Some j, Some i =>
    c ← client_at i;
    e ← ch_endpt_at c j;
    '(r, e) ← on_env (f e);
    _ ← put_client i (set_chc_endpts ((λ l, <[Z.to_nat j := e]> l) <$> chc_endpts c) (chc_endpt_count c) c);
    _ ← nc_server_ch_client_unlock i;
    mret r
  end.

(** ** Deleting endpoints *)

Definition clear_ch_opts (e : nc_ch_endpt) : M W unit :=
  match che_ti e with
  | NC_TI_LIBSSH =>
    match che_opts e with OptsSsh o => _ ← nc_server_ssh_clear_opts o; mret tt | _ => crash end
  | NC_TI_OPENSSL =>
    match che_opts e with OptsTls o => _ ← nc_server_tls_clear_opts o; mret tt | _ => crash end
  | _ => mret tt
  end.

(** Freeing what an endpoint has. *)
Definition clear_ch_endpt (e : nc_ch_endpt) : HM unit :=
  _ ← (if negb (che_sock_pending e =? -1) then modify (λ s, (s.1, sock_close (che_sock_pending e) s.2)) else mret tt);
  on_env (clear_ch_opts e).

Fixpoint clear_ch_endpts (n : nat) (j : Z) (c : nc_ch_client) : HM unit :=
  match n with
  | O => mret tt
  | S n => e ← ch_endpt_at c j; _ ← clear_ch_endpt e; clear_ch_endpts n (j + 1) c
  end.

(** The loop for one endpoint: the last endpoint is moved to the empty place.  When
    the one deleted was the last, the array of clients is freed if there are none. *)
Fixpoint del_ch_endpt (n : nat) (j : Z) (c : nc_ch_client) (name : bytes) (ti : NC_TRANSPORT_IMPL)
    : HM (Z * nc_ch_client) :=
  match n with
  | O => mret (-1, c)
  | S n =>
    e ← ch_endpt_at c j;
    match che_name e with
    | None => crash
    | Some s =>
      if strcmp_eq s name && (bool_decide (ti = NC_TI_NONE) || bool_decide (ti = che_ti e)) then
        _ ← clear_ch_endpt e;
        let count := chc_endpt_count c - 1 in
        if j <? count then
          last ← ch_endpt_at c count;
          mret (0, set_chc_endpts ((λ l, take (Z.to_nat count) (<[Z.to_nat j := last]> l)) <$> chc_endpts c) count c)
        else
          st ← chconf;
          _ ← (if ch_client_count st =? 0 then set_clients None 0 else mret tt);
          mret (0, set_chc_endpts (take (Z.to_nat count) <$> chc_endpts c) count c)
      else del_ch_endpt n (j + 1) c name ti
    end
  end.

Definition _nc_server_ch_client_del_endpt (c : nc_ch_client) (endpt_name : option bytes) (ti : NC_TRANSPORT_IMPL)
    : HM (Z * nc_ch_client) :=
  match endpt_name with
  | None =>
    _ ← clear_ch_endpts (Z.to_nat (chc_endpt_count c)) 0 c;
    mret (0, set_chc_endpts None 0 c)
  | Some name => del_ch_endpt (Z.to_nat (chc_endpt_count c)) 0 c name ti
  end.

(** ** Clients *)

Definition nc_server_ch_add_client (name : option bytes) : HM Z :=
  match name with
  | None => mret (-1)
  | Some name =>
    _ ← ch_wrlock;
    s ← chconf;
    r ← find_client (Z.to_nat (ch_client_count s)) 0 name;
    match r with
    | Some _ => _ ← ch_wrunlock; mret (-1)
    | None =>
      let count := u16 (ch_client_count s + 1) in
      ok ← on_env (call (malloc_ok (count * 96)));
      if negb ok then _ ← set_clients None count; _ ← ch_wrunlock; mret (-1)
      else
        _ ← guarded (0 <? count);
        n ← on_env (strdup name);
        let c := NcChClient n None 0 NC_CH_CT_NOT_SET None NC_CH_FIRST_LISTED 3 (new_client_id s) false in
        _ ← modify (λ s, (ChConf (Some (default [] (ch_clients s.1) ++ [c])) count (u32 (new_client_id s.1 + 1))
                            (ch_readers s.1) (ch_writer s.1), s.2));
        _ ← ch_wrunlock;
        mret 0
    end
  end.

(** The loop that removes all clients. *)
Fixpoint clear_clients (n : nat) (i : Z) : HM unit :=
  match n with
  | O => mret tt
  | S n => c ← client_at i; _ ← _nc_server_ch_client_del_endpt c None NC_TI_NONE; clear_clients n (i + 1)
  end.

(** Removing the client [i]: the last one is moved to its place. *)
Definition remove_client (i : Z) : HM unit :=
  c ← client_at i;
  _ ← _nc_server_ch_client_del_endpt c None NC_TI_NONE;
  s ← chconf;
  let count := ch_client_count s - 1 in
  if i <? count then
    last ← client_at count;
    set_clients ((λ l, take (Z.to_nat count) (<[Z.to_nat i := last]> l)) <$> ch_clients s) count
  else if count =? 0 then set_clients None 0
  else set_clients (take (Z.to_nat count) <$> ch_clients s) count.

Definition nc_server_ch_del_client (name : option bytes) : HM Z :=
  _ ← ch_wrlock;
  s ← chconf;
  ret ←
    match name with
    | None =>
      _ ← clear_clients (Z.to_nat (ch_client_count s)) 0;
      _ ← set_clients None 0;
      mret (if ch_client_count s =? 0 then -1 else 0)
    | Some name =>
      r ← find_client (Z.to_nat (ch_client_count s)) 0 name;
      match r with
      | None => mret (-1)
      | Some i => _ ← remove_client i; mret 0
      end
    end;
  _ ← ch_wrunlock;
  mret ret.

Definition nc_server_ch_is_client (name : option bytes) : HM bool :=
  match name with
  | None => mret false
  | Some name =>
    _ ← ch_rdlock;
    s ← chconf;
    r ← find_client (Z.to_nat (ch_client_count s)) 0 name;
    _ ← ch_rdunlock;
    mret (match r with Some _ => true | None => false end)
  end.

(** ** Endpoints of clients *)

(** The options of a new endpoint; UNIX sockets are not for Call Home. *)
Definition alloc_ch_opts (ti : NC_TRANSPORT_IMPL) : M W (option endpt_opts) :=
  match ti with
  | NC_TI_LIBSSH | NC_TI_OPENSSL => alloc_opts ti
  | _ => mret None
  end.

(** Appending an endpoint to those of a client. *)
Definition append_ch_endpt (name : bytes) (ti : NC_TRANSPORT_IMPL) (c : nc_ch_client) : HM (Z * nc_ch_client) :=
  let count := u16 (chc_endpt_count c + 1) in
  ok ← on_env (call (malloc_ok (count * 64)));
  if negb ok then mret (-1, set_chc_endpts None count c)
  else
    _ ← guarded (0 <? count);
    n ← on_env (strdup name);
    o ← on_env (alloc_ch_opts ti);
    let e := NcChEndpt n ti None 0 (-1) (Keepalives false 1 10 5) (default OptsNull o) in
    mret (match o with Some _ => 0 | None => -1 end,
          set_chc_endpts (Some (default [] (chc_endpts c) ++ [e])) count c).

Definition nc_server_ch_client_add_endpt (client_name endpt_name : option bytes) (ti : NC_TRANSPORT_IMPL) : HM Z :=
  match client_name, endpt_name with
  | Some _, Some name =>
    if decide (ti = NC_TI_NONE) then mret (-1)
    else with_ch_client client_name (λ c,
      r ← find_ch_endpt (Z.to_nat (chc_endpt_count c)) 0 c (Some name) NC_TI_NONE;
      match r with
      | Some _ => mret (-1, c)
      | None => append_ch_endpt name ti c
      end)
  | _, _ => mret (-1)
  end.

Definition nc_server_ch_client_del_endpt (client_name endpt_name : option bytes) (ti : NC_TRANSPORT_IMPL) : HM Z :=
  with_ch_client client_name (λ c, _nc_server_ch_client_del_endpt c endpt_name ti).

Definition nc_server_ch_client_is_endpt (client_name endpt_name : option bytes) : HM bool :=
  match client_name, endpt_name with
  | Some cn, Some en =>
    _ ← ch_rdlock;
    s ← chconf;
    r ← find_client (Z.to_nat (ch_client_count s)) 0 cn;
    b ← match r with
        | None => mret false
        | Some i =>
          c ← client_at i;
          j ← find_ch_endpt (Z.to_nat (chc_endpt_count c)) 0 c (Some en) NC_TI_NONE;
          mret (match j with Some _ => true | None => false end)
        end;
    _ ← ch_rdunlock;
    mret b
  | _, _ => mret false
  end.

(** *** Settings of an endpoint *)

Definition nc_server_ch_client_endpt_set_address (client_name endpt_name address : option bytes) : HM Z :=
  match client_name, endpt_name, address with
  | Some _, Some _, Some a =>
    with_ch_endpt client_name endpt_name NC_TI_NONE (λ e, a ← strdup a; mret (0, set_che_address a e))
  | _, _, _ => mret (-1)
  end.

Definition nc_server_ch_client_endpt_set_port (client_name endpt_name : option bytes) (port : Z) : HM Z :=
  match client_name, endpt_name with
  | Some _, Some _ =>
    if port =? 0 then mret (-1)
    else with_ch_endpt client_name endpt_name NC_TI_NONE (λ e, mret (0, set_che_port port e))
  | _, _ => mret (-1)
  end.

Definition nc_server_ch_client_endpt_enable_keepalives (client_name endpt_name : option bytes) (enable : bool) : HM Z :=
  match client_name, endpt_name with
  | Some _, Some _ =>
    with_ch_endpt client_name endpt_name NC_TI_NONE (λ e,
      let k := che_ka e in
      mret (0, set_che_ka (Keepalives enable (ka_idle_time k) (ka_max_probes k) (ka_probe_interval k)) e))
  | _, _ => mret (-1)
  end.

Definition nc_server_ch_client_endpt_set_keepalives (client_name endpt_name : option bytes)
    (idle_time max_probes probe_interval : Z) : HM Z :=
  match client_name, endpt_name with
  | Some _, Some _ =>
    with_ch_endpt client_name endpt_name NC_TI_NONE (λ e,
      mret (0, set_che_ka (update_ka idle_time max_probes probe_interval (che_ka e)) e))
  | _, _ => mret (-1)
  end.

(** *** Settings of a client *)

Definition nc_server_ch_client_set_conn_type (client_name : option bytes) (conn_type : NC_CH_CONN_TYPE) : HM Z :=
  if decide (conn_type = NC_CH_CT_NOT_SET) then mret (-1)
  else with_ch_client client_name (λ c,
    mret (0, if decide (chc_conn_type c = conn_type) then c
             else match conn_type with
                  | NC_CH_PERIOD => set_chc_conn conn_type (Some (ChPeriod 60 0 120)) c
                  | _ => set_chc_conn conn_type (chc_period c) c
                  end)).

(** The functions for periodic connections; [conn.period] is set with the type. *)
Definition with_period (client_name : option bytes) (f : ch_period → ch_period) : HM Z :=
  with_ch_client client_name (λ c,
    if negb (bool_decide (chc_conn_type c = NC_CH_PERIOD)) then mret (-1, c)
    else mret (0, set_chc_conn (chc_conn_type c) (f <$> chc_period c) c)).

Definition nc_server_ch_client_periodic_set_period (client_name : option bytes) (period : Z) : HM Z :=
  if period =? 0 then mret (-1)
  else with_period client_name (λ p, ChPeriod period (per_anchor_time p) (per_idle_timeout p)).

Definition nc_server_ch_client_periodic_set_anchor_time (client_name : option bytes) (anchor_time : Z) : HM Z :=
  with_period client_name (λ p, ChPeriod (per_period p) anchor_time (per_idle_timeout p)).

Definition nc_server_ch_client_periodic_set_idle_timeout (client_name : option bytes) (idle_timeout : Z) : HM Z :=
  with_period client_name (λ p, ChPeriod (per_period p) (per_anchor_time p) idle_timeout).

Definition nc_server_ch_client_set_start_with (client_name : option bytes) (start_with : NC_CH_START_WITH) : HM Z :=
  with_ch_client client_name (λ c, mret (0, set_chc_start_with start_with c)).

Definition nc_server_ch_client_set_max_attempts (client_name : option bytes) (max_attempts : Z) : HM Z :=
  if max_attempts =? 0 then mret (-1)
  else with_ch_client client_name (λ c, mret (0, set_chc_max_attempts max_attempts c)).

(** *** SSH *)

Definition ssh_ch_endpt (client_name endpt_name : option bytes) (f : nc_server_ssh_opts → M W (Z * nc_server_ssh_opts))
    : HM Z :=
  with_ch_endpt client_name endpt_name NC_TI_LIBSSH (λ e, '(r, o) ← on_ssh f (che_opts e); mret (r, set_che_opts o e)).

Definition nc_server_ssh_ch_client_endpt_add_hostkey (client_name endpt_name name : option bytes) (idx : Z) : HM Z :=
  ssh_ch_endpt client_name endpt_name (nc_server_ssh_add_hostkey name idx).
Definition nc_server_ssh_ch_client_endpt_del_hostkey (client_name endpt_name name : option bytes) (idx : Z) : HM Z :=
  ssh_ch_endpt client_name endpt_name (nc_server_ssh_del_hostkey name idx).
Definition nc_server_ssh_ch_client_endpt_mov_hostkey (client_name endpt_name key_mov key_after : option bytes) : HM Z :=
  ssh_ch_endpt client_name endpt_name (nc_server_ssh_mov_hostkey key_mov key_after).
Definition nc_server_ssh_ch_client_endpt_set_auth_methods (client_name endpt_name : option bytes) (pam : bool) (methods : Z)
    : HM Z :=
  ssh_ch_endpt client_name endpt_name (λ o, mret (nc_server_ssh_set_auth_methods pam methods o)).
Definition nc_server_ssh_ch_client_endpt_get_auth_methods (client_name endpt_name : option bytes) : HM Z :=
  ssh_ch_endpt client_name endpt_name (λ o, mret (auth_methods o, o)).
Definition nc_server_ssh_ch_client_endpt_set_auth_attempts (client_name endpt_name : option bytes) (attempts : Z) : HM Z :=
  ssh_ch_endpt client_name endpt_name (λ o, mret (nc_server_ssh_set_auth_attempts attempts o)).
Definition nc_server_ssh_ch_client_endpt_set_auth_timeout (client_name endpt_name : option bytes) (timeout : Z) : HM Z :=
  ssh_ch_endpt client_name endpt_name (λ o, mret (nc_server_ssh_set_auth_timeout timeout o)).

(** *** TLS *)

Definition tls_ch_endpt (client_name endpt_name : option bytes) (f : nc_server_tls_opts → M W (Z * nc_server_tls_opts))
    : HM Z :=
  with_ch_endpt client_name endpt_name NC_TI_OPENSSL (λ e, '(r, o) ← on_tls f (che_opts e); mret (r, set_che_opts o e)).

Definition nc_server_tls_ch_client_endpt_set_server_cert (client_name endpt_name name : option bytes) : HM Z :=
  tls_ch_endpt client_name endpt_name (nc_server_tls_set_server_cert name).
Definition nc_server_tls_ch_client_endpt_add_trusted_cert_list (client_name endpt_name name : option bytes) : HM Z :=
  tls_ch_endpt client_name endpt_name (nc_server_tls_add_trusted_cert_list name).
Definition nc_server_tls_ch_client_endpt_del_trusted_cert_list (client_name endpt_name name : option bytes) : HM Z :=
  tls_ch_endpt client_name endpt_name (nc_server_tls_del_trusted_cert_list name).
Definition nc_server_tls_ch_client_endpt_set_trusted_ca_paths (client_name endpt_name ca_file ca_dir : option bytes) : HM Z :=
  tls_ch_endpt client_name endpt_name (nc_server_tls_set_trusted_ca_paths ca_file ca_dir).
Definition nc_server_tls_ch_client_endpt_clear_crls (client_name endpt_name : option bytes) : HM Z :=
  tls_ch_endpt client_name endpt_name (λ o, mret (0, nc_server_tls_clear_crls o)).
Definition nc_server_tls_ch_client_endpt_add_ctn (client_name endpt_name : option bytes) (id : Z)
    (fingerprint : option bytes) (map_type : NC_TLS_CTN_MAPTYPE) (name : option bytes) : HM Z :=
  tls_ch_endpt client_name endpt_name (nc_server_tls_add_ctn id fingerprint map_type name).
Definition nc_server_tls_ch_client_endpt_del_ctn (client_name endpt_name : option bytes) (id : Z)
    (fingerprint : option bytes) (map_type : NC_TLS_CTN_MAPTYPE) (name : option bytes) : HM Z :=
  tls_ch_endpt client_name endpt_name (nc_server_tls_del_ctn id fingerprint map_type name).

Definition nc_server_tls_ch_client_endpt_get_ctn (client_name endpt_name : option bytes) (q : ctn_query)
    : HM (Z * ctn_query) :=
  '(c, e) ← nc_server_ch_client_lock client_name endpt_name NC_TI_OPENSSL;
  match e, c with
  | None, _ => mret (-1, q)
  | Some _, None => crash
  | Some j, Some i =>
    c ← client_at i;
    e ← ch_endpt_at c j;
    r ← match che_opts e with OptsTls o => on_env (nc_server_tls_get_ctn q o) | _ => crash end;
    _ ← nc_server_ch_client_unlock i;
    mret r
  end.

Context `{!CrlEnv W}.

Definition nc_server_tls_ch_client_set_crl_paths (client_name endpt_name crl_file crl_dir : option bytes) : HM Z :=
  tls_ch_endpt client_name endpt_name (nc_server_tls_set_crl_paths crl_file crl_dir).
End ch.
