(* ===== verification/CallHomeProofs.v ===== *)
(** * Call Home: locks and settings

    A setting of an endpoint that exists changes it alone and releases the locks; a
    setting of an endpoint that does not exist keeps both locks, so that no client
    can be added or removed any more and the client cannot be used. *)

From S2P Require Import Prelude Session Env Sim Capabilities PtrArray SshOpts TlsOpts Sockets SocketsProofs.
From S2P Require Import Endpoints EndpointsProofs CallHome.
From Stdlib Require Import ZArith Ascii String Lia.
From stdpp Require Import base list strings gmap numbers fin_sets.
Open Scope Z_scope.

(** The endpoints [k] of a client, all with names. *)
Definition client_holds (c : nc_ch_client) (k : list nc_ch_endpt) : Prop :=
  array_of (chc_endpts c) k ∧ chc_endpt_count c = zlen k ∧ Forall (λ e, is_Some (che_name e)) k.

Definition client_ok (c : nc_ch_client) : Prop :=
  is_Some (chc_name c) ∧ ∃ k, client_holds c k.

(** The configuration holds the clients [l]; [n] read locks are held. *)
Definition ch_rep (s : ch_conf) (l : list nc_ch_client) (n : nat) : Prop :=
  array_of (ch_clients s) l ∧ ch_client_count s = zlen l ∧ ch_readers s = n ∧ ch_writer s = false ∧ Forall client_ok l.

(** The first client of a name, and the first endpoint of a name and transport. *)
Definition client_named (l : list nc_ch_client) (name : bytes) (i : nat) (c : nc_ch_client) : Prop :=
  l !! i = Some c ∧ chc_name c = Some name ∧ ∀ j d, (j < i)%nat → l !! j = Some d → chc_name d ≠ Some name.

Definition endpt_matches (name : option bytes) (ti : NC_TRANSPORT_IMPL) (e : nc_ch_endpt) : Prop :=
  (name = None ∨ che_name e = name) ∧ (ti = NC_TI_NONE ∨ ti = che_ti e).

Definition endpt_named (k : list nc_ch_endpt) (name : option bytes) (ti : NC_TRANSPORT_IMPL) (j : nat) (e : nc_ch_endpt)
    : Prop :=
  k !! j = Some e ∧ endpt_matches name ti e ∧ ∀ i d, (i < j)%nat → k !! i = Some d → ¬ endpt_matches name ti d.

Lemma client_named_eq l name i c i' c' : client_named l name i c → client_named l name i' c' → i' = i ∧ c' = c.
Proof.
  intros (Hi & Hn & Hlt) (Hi' & Hn' & Hlt').
  destruct (lt_eq_lt_dec i i') as [[?| ->]|?]; [exfalso; by eapply Hlt'|split; congruence|exfalso; by eapply Hlt].
Qed.

Lemma endpt_named_eq k name ti j e j' e' : endpt_named k name ti j e → endpt_named k name ti j' e' → j' = j ∧ e' = e.
Proof.
  intros (Hi & Hn & Hlt) (Hi' & Hn' & Hlt').
  destruct (lt_eq_lt_dec j j') as [[?| ->]|?]; [exfalso; by eapply Hlt'|split; congruence|exfalso; by eapply Hlt].
Qed.

Section ch.
Context {W : Type} `{!Env W} `{!SockEnv W}.
Implicit Types (l : list nc_ch_client) (w : W) (s : ch_conf).

Lemma wpx_client_at F s l n i c (Q : nc_ch_client → ch_conf * W → Prop) w :
  ch_rep s l n → l !! i = Some c → Q c (s, w) → wpx F (client_at (Z.of_nat i)) Q (s, w).
Proof.
  intros (Ha & _) Hi HQ. unfold client_at. apply wpx_bind, wpx_gets. cbn [fst].
  destruct Ha as [->|[-> _]]; [|done]. by rewrite Nat2Z.id, Hi.
Qed.

Lemma wpx_put_client F s l n i c c' (Q : unit → ch_conf * W → Prop) w :
  ch_rep s l n → l !! i = Some c → client_ok c' → (∀ s', ch_rep s' (<[i := c']> l) n → Q tt (s', w)) →
  wpx F (put_client (Z.of_nat i) c') Q (s, w).
Proof.
  intros (Ha & Hc & Hr & Hw & Hok) Hi Hc' HQ. unfold put_client, set_clients. apply wpx_bind, wpx_gets, wpx_modify, HQ. cbn [fst].
  rewrite Nat2Z.id. destruct Ha as [->|[-> _]]; [|done]. split_and!; try done.
  - by left.
  - cbn. rewrite Hc. unfold zlen. by rewrite length_insert.
  - cbn. by apply Forall_insert.
Qed.

Lemma wpx_rdlock F s l n (Q : unit → ch_conf * W → Prop) w :
  ch_rep s l n → (∀ s', ch_rep s' l (S n) → Q tt (s', w)) → wpx F ch_rdlock Q (s, w).
Proof.
  intros (Ha & Hc & Hr & Hw & Hok) HQ. unfold ch_rdlock. apply wpx_bind, wpx_gets. cbn [fst]. rewrite Hw.
  apply wpx_modify, HQ. split_and!; try done. cbn. by rewrite Hr.
Qed.

Lemma wpx_rdunlock F s l n (Q : unit → ch_conf * W → Prop) w :
  ch_rep s l (S n) → (∀ s', ch_rep s' l n → Q tt (s', w)) → wpx F ch_rdunlock Q (s, w).
Proof.
  intros (Ha & Hc & Hr & Hw & Hok) HQ. apply wpx_modify, HQ. split_and!; try done. cbn. by rewrite Hr.
Qed.

(** ** Finding *)

Lemma wpx_find_client F s l n name m i (Q : option Z → ch_conf * W → Prop) w :
  ch_rep s l n → (i + m = length l)%nat → (∀ j d, (j < i)%nat → l !! j = Some d → chc_name d ≠ Some name) →
  ((∀ j d, l !! j = Some d → chc_name d ≠ Some name) → Q None (s, w)) →
  (∀ j c, client_named l name j c → Q (Some (Z.of_nat j)) (s, w)) →
  wpx F (find_client m (Z.of_nat i) name) Q (s, w).
Proof.
  intros Hr. revert i. induction m as [|m IH]; intros i Hi Hpre H1 H2; cbn [find_client].
  - apply wpx_ret, H1. intros j d Hd. eapply Hpre; [|done]. apply lookup_lt_Some in Hd. lia.
  - destruct (lookup_lt_is_Some_2 l i ltac:(lia)) as [c Hc]. apply wpx_bind. eapply wpx_client_at; [done..|].
    destruct (Hr) as (_ & _ & _ & _ & Hok). destruct (Forall_lookup_1 _ _ _ _ Hok Hc) as [[nm Hnm] _]. rewrite Hnm.
    unfold strcmp_eq. destruct (bool_decide_reflect (nm = name)) as [->|N].
    + apply wpx_ret. eapply H2. split; [done|]. split; [done|]. exact Hpre.
    + replace (Z.of_nat i + 1) with (Z.of_nat (i + 1)) by lia. apply IH; [lia| |done..].
      intros j d Hj Hd. destruct (decide (j = i)) as [->|]; [congruence|]. apply (Hpre j); [lia|done].
Qed.

Lemma wpx_find_endpt F c k st name ti m i (Q : option Z → ch_conf * W → Prop) :
  client_holds c k → (i + m = length k)%nat → (∀ j d, (j < i)%nat → k !! j = Some d → ¬ endpt_matches name ti d) →
  ((∀ j d, k !! j = Some d → ¬ endpt_matches name ti d) → Q None st) →
  (∀ j e, endpt_named k name ti j e → Q (Some (Z.of_nat j)) st) →
  wpx F (find_ch_endpt m (Z.of_nat i) c name ti) Q st.
Proof.
  intros (Ha & _ & Hn). revert i. induction m as [|m IH]; intros i Hi Hpre H1 H2; cbn [find_ch_endpt].
  - apply wpx_ret, H1. intros j d Hd. eapply Hpre; [|done]. apply lookup_lt_Some in Hd. lia.
  - destruct (lookup_lt_is_Some_2 k i ltac:(lia)) as [e He]. apply wpx_bind. unfold ch_endpt_at.
    destruct Ha as [->|[-> _]]; [|done]. rewrite Nat2Z.id, He. apply wpx_ret.
    destruct (Forall_lookup_1 _ _ _ _ Hn He) as [nm Hnm]. rewrite Hnm.
    set (b := match name with None => true | Some n => strcmp_eq nm n end).
    assert (Hb : wpx F (match name with None => mret true | Some n => mret (strcmp_eq nm n) end)
      (λ b' st', wpx F (if b' && (bool_decide (ti = NC_TI_NONE) || bool_decide (ti = che_ti e)) then mret (Some (Z.of_nat i))
         else find_ch_endpt m (Z.of_nat i + 1) c name ti) Q st') st); [|by destruct name; apply wpx_bind].
    assert (Hmatch : b && (bool_decide (ti = NC_TI_NONE) || bool_decide (ti = che_ti e)) = true ↔ endpt_matches name ti e).
    { unfold endpt_matches. rewrite Hnm, andb_true_iff, orb_true_iff, !bool_decide_eq_true. subst b. destruct name as [n|].
      - unfold strcmp_eq. rewrite bool_decide_eq_true. split; [intros [-> ?]; auto|]. intros [[?|[= ->]] ?]; done.
      - split; [intros [_ ?]; auto|]. intros [_ ?]; done. }
    assert (Hgo : wpx F (if b && (bool_decide (ti = NC_TI_NONE) || bool_decide (ti = che_ti e)) then mret (Some (Z.of_nat i))
         else find_ch_endpt m (Z.of_nat i + 1) c name ti) Q st); [|subst b; by destruct name; apply wpx_ret].
    destruct (b && _).
    + apply wpx_ret. eapply H2. split; [done|]. split; [by apply Hmatch|exact Hpre].
    + replace (Z.of_nat i + 1) with (Z.of_nat (i + 1)) by lia. apply IH; [lia| |done..].
      intros j d Hj Hd. destruct (decide (j = i)) as [->|]; [|apply (Hpre j); [lia|done]].
      rewrite He in Hd. injection Hd as <-. intros ?%Hmatch. done.
Qed.

(** ** The two locks *)

(** Everything [nc_server_ch_client_lock] may do for a client that exists. *)
Lemma wpx_client_lock F s l n name endpt_name ti i c k (Q : option Z * option Z → ch_conf * W → Prop) w :
  ch_rep s l n → client_named l name i c → client_holds c k → chc_locked c = false →
  ((∀ j d, k !! j = Some d → ¬ endpt_matches endpt_name ti d) → endpt_name ≠ None → ti ≠ NC_TI_NONE →
     ∀ s', ch_rep s' l n → Q (None, None) (s', w)) →
  (∀ r s', ch_rep s' (<[i := set_chc_locked true c]> l) (S n) →
     match r with
     | None => (endpt_name = None ∧ ti = NC_TI_NONE) ∨
               ((endpt_name = None ∨ ti = NC_TI_NONE) ∧ ∀ j d, k !! j = Some d → ¬ endpt_matches endpt_name ti d)
     | Some z => ¬ (endpt_name = None ∧ ti = NC_TI_NONE) ∧ ∃ j e, z = Z.of_nat j ∧ endpt_named k endpt_name ti j e
     end → Q (Some (Z.of_nat i), r) (s', w)) →
  wpx F (nc_server_ch_client_lock (Some name) endpt_name ti) Q (s, w).
Proof.
  intros Hr Hc Hk Hl H1 H2. unfold nc_server_ch_client_lock. apply wpx_bind. eapply wpx_rdlock; [done|]. intros s1 Hr1.
  apply wpx_bind, wpx_gets. cbn [fst]. destruct (Hr1) as (_ & -> & _ & _ & Hok). unfold zlen. rewrite Nat2Z.id. apply wpx_bind.
  apply (wpx_find_client F s1 l (S n) name (length l) 0); [done..|lia| |].
  { intros Hno. exfalso. destruct Hc as (Hi & Hn & _). by eapply Hno. }
  intros i' c' Hc'. destruct (client_named_eq _ _ _ _ _ _ Hc Hc') as [-> ->].
  pose proof (proj1 Hc) as Hi. apply wpx_bind. eapply wpx_client_at; [done..|]. pose proof Hk as (_ & Hcount & _).
  rewrite Hcount. unfold zlen. rewrite Nat2Z.id.
  assert (Hlock : ∀ r, match r with
     | None => (endpt_name = None ∧ ti = NC_TI_NONE) ∨
               ((endpt_name = None ∨ ti = NC_TI_NONE) ∧ ∀ j d, k !! j = Some d → ¬ endpt_matches endpt_name ti d)
     | Some z => ¬ (endpt_name = None ∧ ti = NC_TI_NONE) ∧ ∃ j e, z = Z.of_nat j ∧ endpt_named k endpt_name ti j e
     end → wpx F (_ ← client_lock (Z.of_nat i); mret (Some (Z.of_nat i), r)) Q (s1, w)).
  { intros r Hres. apply wpx_bind. unfold client_lock. apply wpx_bind. eapply wpx_client_at; [done..|]. rewrite Hl.
    eapply wpx_put_client; [done..| |].
    - pose proof (Forall_lookup_1 _ _ _ _ Hok Hi) as [Hnm [k' Hk']]. split; [done|]. by exists k'.
    - intros s2 Hr2. apply wpx_ret. by apply H2. }
  destruct (bool_decide_reflect (endpt_name = None)) as [En|En], (bool_decide_reflect (ti = NC_TI_NONE)) as [Et|Et];
    cbn [andb negb]; apply wpx_bind.
  - apply wpx_ret. apply Hlock. by left.
  - apply (wpx_find_endpt F c k (s1, w) _ _ _ 0); [done..|lia| |].
    + intros Hno. apply Hlock. right. auto.
    + intros j e He. apply Hlock. split; [by intros [_ ?]|]. eauto.
  - apply (wpx_find_endpt F c k (s1, w) _ _ _ 0); [done..|lia| |].
    + intros Hno. apply Hlock. right. auto.
    + intros j e He. apply Hlock. split; [by intros [? _]|]. eauto.
  - apply (wpx_find_endpt F c k (s1, w) _ _ _ 0); [done..|lia| |].
    + intros Hno. rewrite bool_decide_eq_true_2 by done. apply wpx_bind. eapply wpx_rdunlock; [done|]. intros s2 Hr2.
      apply wpx_ret. by apply H1.
    + intros j e He. rewrite bool_decide_eq_false_2 by done. apply Hlock. split; [by intros [? _]|]. eauto.
Qed.

(** ** Functions on an endpoint *)

Lemma set_locked_id c : chc_locked c = false → set_chc_locked false (set_chc_locked true c) = c.
Proof. destruct c. cbn. by intros ->. Qed.

Lemma with_ch_endpt_ok F s l name endpt_name ti i c k j e f (P : Z → nc_ch_endpt → W → Prop) w :
  ch_rep s l 0 → client_named l name i c → client_holds c k → chc_locked c = false →
  ¬ (endpt_name = None ∧ ti = NC_TI_NONE) → endpt_named k endpt_name ti j e →
  wpx F (f e) (λ '(r, e') w', is_Some (che_name e') ∧ P r e' w') w →
  wpx F (with_ch_endpt (Some name) endpt_name ti f)
    (λ r st, ∃ e', P r e' st.2 ∧ ch_rep st.1 (<[i := set_chc_endpts (Some (<[j := e']> k)) (zlen k) c]> l) 0) (s, w).
Proof.
  intros Hr Hc Hk Hl Hsome He Hf. unfold with_ch_endpt. apply wpx_bind. pose proof (proj1 Hc) as Hi. pose proof (proj1 He) as Hj.
  eapply wpx_client_lock; [done..| |].
  { intros Hno. exfalso. destruct He as (_ & Hm & _). by eapply Hno. }
  intros r s1 Hr1 Hres. destruct r as [z|].
  2: { exfalso. destruct Hres as [?|[_ Hno]]; [done|]. destruct He as (_ & Hm & _). by eapply Hno. }
  destruct Hres as [_ (j' & e' & -> & He')]. destruct (endpt_named_eq _ _ _ _ _ _ _ He He') as [-> ->].
  pose proof (lookup_lt_Some _ _ _ Hi) as Hlt.
  apply wpx_bind. eapply wpx_client_at; [done|by apply list_lookup_insert_eq|]. apply wpx_bind. unfold ch_endpt_at. cbn.
  destruct Hk as (Ha & Hcount & Hnames). destruct Ha as [Ea|[-> _]]; [|done]. rewrite Ea, Nat2Z.id, Hj. apply wpx_ret.
  apply wpx_bind, wpx_on_env. eapply wpx_mono; [exact Hf|]. intros [r e1] w1 [Hn1 HP]. apply wpx_bind. cbn.
  rewrite Hcount.
  assert (Hok : ∀ b, client_ok (set_chc_locked b (set_chc_endpts (Some (<[j := e1]> k)) (zlen k) c))).
  { intros b. destruct Hr as (_ & _ & _ & _ & Hok). destruct (Forall_lookup_1 _ _ _ _ Hok Hi) as [Hn _]. split; [done|].
    exists (<[j := e1]> k). split; [by left|]. split; [cbn; unfold zlen; by rewrite length_insert|by apply Forall_insert]. }
  eapply wpx_put_client; [done|by apply list_lookup_insert_eq|exact (Hok true)|]. intros s2 Hr2. rewrite list_insert_insert_eq in Hr2.
  unfold nc_server_ch_client_unlock, client_unlock. do 3 apply wpx_bind.
  eapply wpx_client_at; [done|by apply list_lookup_insert_eq|].
  eapply wpx_put_client; [done|by apply list_lookup_insert_eq|exact (Hok false)|]. intros s3 Hr3. rewrite list_insert_insert_eq in Hr3.
  eapply wpx_rdunlock; [done|]. intros s4 Hr4. apply wpx_ret. exists e1. split; [done|].
  assert (set_chc_locked false (set_chc_endpts (Some (<[j:=e1]> k)) (zlen k) c) = set_chc_endpts (Some (<[j:=e1]> k)) (zlen k) c)
    as <- by (destruct c; cbn in *; by rewrite Hl). done.
Qed.

(** An endpoint that does not exist, looked for with its name only. *)
Lemma with_ch_endpt_missing s l name en i c k f w :
  ch_rep s l 0 → client_named l name i c → client_holds c k → chc_locked c = false →
  (∀ e, e ∈ k → che_name e ≠ Some en) →
  ∃ s', with_ch_endpt (Some name) (Some en) NC_TI_NONE f (s, w) = Done (-1, (s', w)) ∧
    ch_rep s' (<[i := set_chc_locked true c]> l) 1.
Proof.
  intros Hr Hc Hk Hl Hno.
  assert (Hnone : ∀ j d, k !! j = Some d → ¬ endpt_matches (Some en) NC_TI_NONE d).
  { intros j d Hd [[?|E] _]; [done|]. eapply Hno; [by eapply list_elem_of_lookup_2|done]. }
  assert (H : wp (with_ch_endpt (Some name) (Some en) NC_TI_NONE f)
    (λ r st, r = -1 ∧ st.2 = w ∧ ch_rep st.1 (<[i := set_chc_locked true c]> l) 1) (s, w)).
  { unfold with_ch_endpt. apply wpx_bind. eapply wpx_client_lock; [done..| |].
    - intros _ _ ?. done.
    - intros r s1 Hr1 Hres. destruct r as [z|]; [|by apply wpx_ret].
      exfalso. destruct Hres as [_ (j & e & _ & Hj & Hm & _)]. by eapply Hnone. }
  apply wp_total in H as (r & [s' w'] & E & -> & Hw & H). cbn in *. subst w'. eauto.
Qed.

(** ** Blocking *)

(** A run that cannot end with a value and does not crash never ends. *)
Lemma never_ends {A} (m : M (ch_conf * W) A) st : wpx True m (λ _ _, False) st → m st = NoFuel.
Proof. unfold wpx. by destruct (m st) as [[]| |]. Qed.

Lemma wrlock_blocks s l n w : ch_rep s l (S n) → wpx True ch_wrlock (λ _ _, False) (s, w).
Proof.
  intros (_ & _ & Hr & Hw & _). unfold ch_wrlock. apply wpx_bind, wpx_gets. cbn [fst]. rewrite Hr, Hw. by apply wpx_no_fuel.
Qed.

Lemma add_client_blocks s l n name w : ch_rep s l (S n) → nc_server_ch_add_client (Some name) (s, w) = NoFuel.
Proof.
  intros Hr. apply never_ends. unfold nc_server_ch_add_client. apply wpx_bind.
  eapply wpx_mono; [by eapply wrlock_blocks|done].
Qed.

Lemma del_client_blocks s l n name w : ch_rep s l (S n) → nc_server_ch_del_client name (s, w) = NoFuel.
Proof.
  intros Hr. apply never_ends. unfold nc_server_ch_del_client. apply wpx_bind.
  eapply wpx_mono; [by eapply wrlock_blocks|done].
Qed.

(** A client whose mutex is held. *)
Lemma locked_client_blocks s l n name i c k en ti f w :
  ch_rep s l n → client_named l name i c → client_holds c k → chc_locked c = true → en ≠ None → ti = NC_TI_NONE →
  with_ch_endpt (Some name) en ti f (s, w) = NoFuel.
Proof.
  intros Hr Hc Hk Hl Hen ->. apply never_ends. unfold with_ch_endpt. apply wpx_bind.
  eapply (wpx_mono _ _ (λ _ _, False)); [|done].
  { unfold nc_server_ch_client_lock. apply wpx_bind. eapply wpx_rdlock; [done|]. intros s1 Hr1.
    apply wpx_bind, wpx_gets. cbn [fst]. destruct (Hr1) as (_ & -> & _). unfold zlen. rewrite Nat2Z.id. apply wpx_bind.
    apply (wpx_find_client True s1 l (S n) name (length l) 0); [done..|lia| |].
    { intros Hno. exfalso. destruct Hc as (Hi & Hn & _). by eapply Hno. }
    intros i' c' Hc'. destruct (client_named_eq _ _ _ _ _ _ Hc Hc') as [-> ->].
    pose proof (proj1 Hc') as Hi. apply wpx_bind. eapply wpx_client_at; [done..|]. destruct (Hk) as (_ & -> & _).
    unfold zlen. rewrite Nat2Z.id. rewrite (bool_decide_eq_false_2 (en = None)) by done. cbn [andb negb]. apply wpx_bind.
    assert (Hlock : ∀ r : option Z, wpx True (_ ← client_lock (Z.of_nat i); mret (Some (Z.of_nat i), r)) (λ _ _, False) (s1, w)).
    { intros r. apply wpx_bind. unfold client_lock. apply wpx_bind. eapply wpx_client_at; [done..|]. rewrite Hl.
      by apply wpx_no_fuel. }
    apply (wpx_find_endpt True c k (s1, w) _ _ _ 0); [done..|lia| |]; intros; apply Hlock. }
Qed.
End ch.

(** ** Settings of an endpoint *)

Inductive ch_setting :=
| ChAddress (address : bytes)
| ChPort (port : Z)
| ChEnableKeepalives (enable : bool)
| ChKeepalives (idle_time max_probes probe_interval : Z).

Definition run_ch_setting {W} `{!Env W, !SockEnv W} (client endpt : bytes) (x : ch_setting) : M (ch_conf * W) Z :=
  match x with
  | ChAddress a => nc_server_ch_client_endpt_set_address (Some client) (Some endpt) (Some a)
  | ChPort p => nc_server_ch_client_endpt_set_port (Some client) (Some endpt) p
  | ChEnableKeepalives b => nc_server_ch_client_endpt_enable_keepalives (Some client) (Some endpt) b
  | ChKeepalives i m p => nc_server_ch_client_endpt_set_keepalives (Some client) (Some endpt) i m p
  end.

Definition apply_setting (x : ch_setting) (e : nc_ch_endpt) : nc_ch_endpt :=
  match x with
  | ChAddress a => set_che_address (Some a) e
  | ChPort p => set_che_port p e
  | ChEnableKeepalives b =>
    set_che_ka (Keepalives b (ka_idle_time (che_ka e)) (ka_max_probes (che_ka e)) (ka_probe_interval (che_ka e))) e
  | ChKeepalives i m p => set_che_ka (update_ka i m p (che_ka e)) e
  end.

Definition setting_ok (x : ch_setting) : Prop :=
  match x with ChAddress a => zlen a < 2 ^ 31 | ChPort p => p ≠ 0 | _ => True end.

(** All settings are functions on an endpoint looked for by its name. *)
Lemma run_ch_setting_endpt {W} `{!Env W, !SockEnv W} client endpt x :
  setting_ok x →
  ∃ f : nc_ch_endpt → M W (Z * nc_ch_endpt),
    run_ch_setting client endpt x = with_ch_endpt (Some client) (Some endpt) NC_TI_NONE f ∧
    ((∀ n w, 0 < n ≤ 2 ^ 32 → (malloc_ok n w).1 = true) →
      ∀ F e w, wpx F (f e) (λ '(r, e') _, r = 0 ∧ e' = apply_setting x e) w).
Proof.
  intros Hx. destruct x as [a|p|b|i m p]; cbn in *.
  - eexists. split; [done|]. intros Hm F e w. apply wpx_bind. unfold strdup. apply wpx_bind, wpx_call.
    rewrite Hm by (pose proof (zlen_nonneg a); lia). by apply wpx_ret, wpx_ret.
  - eexists. split; [unfold nc_server_ch_client_endpt_set_port; by rewrite (proj2 (Z.eqb_neq _ _) Hx)|].
    intros Hm F e w. by apply wpx_ret.
  - eexists. split; [done|]. intros Hm F e w. by apply wpx_ret.
  - eexists. split; [done|]. intros Hm F e w. by apply wpx_ret.
Qed.

Lemma apply_setting_name x e : che_name (apply_setting x e) = che_name e.
Proof. by destruct x. Qed.

(** setting the address, port or keepalives of a Call Home endpoint that exists
    changes this setting of the first endpoint of that name of the client, leaves all
    other clients and endpoints as they are, and releases the locks. *)
Theorem ch_setting_effect (W : Type) `{!Env W} `{!SockEnv W} s l client endpt i c k j e x (w : W) :
  (∀ n (w : W), 0 < n ≤ 2 ^ 32 → (malloc_ok n w).1 = true) →
  ch_rep s l 0 → client_named l client i c → client_holds c k → chc_locked c = false →
  endpt_named k (Some endpt) NC_TI_NONE j e → setting_ok x →
  ∃ s' w', run_ch_setting client endpt x (s, w) = Done (0, (s', w')) ∧
    ch_rep s' (<[i := set_chc_endpts (Some (<[j := apply_setting x e]> k)) (zlen k) c]> l) 0.
Proof.
  intros Hm Hr Hc Hk Hl He Hx. destruct (run_ch_setting_endpt (W := W) client endpt x Hx) as (f & -> & Hf).
  pose proof (with_ch_endpt_ok False s l client (Some endpt) NC_TI_NONE i c k j e f
    (λ r e' _, r = 0 ∧ e' = apply_setting x e) w Hr Hc Hk Hl) as H.
  apply wp_total in H as (r & [s' w'] & E & e' & [-> ->] & H); [eauto|by intros [? _]|done|].
  eapply wpx_mono; [by apply Hf|]. intros [r e'] w' [-> ->]. split; [|done]. rewrite apply_setting_name.
  destruct Hk as (_ & _ & Hn). exact (Forall_lookup_1 _ _ _ _ Hn (proj1 He)).
Qed.

(** a setting of a Call Home endpoint that does not exist reports an error but
    keeps the read lock on the clients and the mutex of the client: afterwards no
    client can be added or deleted, and no setting of the client returns. *)
Theorem ch_missing_endpt_blocks (W : Type) `{!Env W} `{!SockEnv W} s l client endpt i c k x (w : W) :
  ch_rep s l 0 → client_named l client i c → client_holds c k → chc_locked c = false →
  (∀ e, e ∈ k → che_name e ≠ Some endpt) → setting_ok x →
  ∃ s', run_ch_setting client endpt x (s, w) = Done (-1, (s', w)) ∧
    (∀ name, nc_server_ch_add_client (Some name) (s', w) = NoFuel) ∧
    (∀ name, nc_server_ch_del_client name (s', w) = NoFuel) ∧
    (∀ endpt' y, setting_ok y → run_ch_setting client endpt' y (s', w) = NoFuel).
Proof.
  intros Hr Hc Hk Hl Hno Hx. destruct (run_ch_setting_endpt (W := W) client endpt x Hx) as (f & -> & _).
  destruct (with_ch_endpt_missing s l client endpt i c k f w Hr Hc Hk Hl Hno) as (s' & E & Hr').
  exists s'. split; [done|]. split; [intros; by eapply add_client_blocks|]. split; [intros; by eapply del_client_blocks|].
  intros en y Hy. destruct (run_ch_setting_endpt (W := W) client en y Hy) as (g & -> & _).
  eapply (locked_client_blocks s' _ 1 client i (set_chc_locked true c) k); try done.
  destruct Hc as (Hi & Hn & Hlt). split; [apply list_lookup_insert_eq; by eapply lookup_lt_Some|]. split; [done|].
  intros j d Hj. rewrite list_lookup_insert_ne by lia. by apply Hlt.
Qed.

(** A client ["c"] with one endpoint ["e"]. *)
Definition demo_ch_endpt : nc_ch_endpt := NcChEndpt (Some (str "e")) NC_TI_LIBSSH None 0 (-1) (Keepalives false 1 10 5) OptsNull.
Definition demo_ch_client : nc_ch_client :=
  NcChClient (Some (str "c")) (Some [demo_ch_endpt]) 1 NC_CH_PERSIST None NC_CH_FIRST_LISTED 3 0 false.
Definition demo_ch_conf : ch_conf := ChConf (Some [demo_ch_client]) 1 1 0 false.

Lemma demo_ch_rep :
  ch_rep demo_ch_conf [demo_ch_client] 0 ∧ client_named [demo_ch_client] (str "c") 0 demo_ch_client ∧
  client_holds demo_ch_client [demo_ch_endpt].
Proof.
  assert (client_holds demo_ch_client [demo_ch_endpt]) by (split; [by left|]; split; [done|by repeat constructor]).
  split; [|split; [|done]].
  - split_and!; try done; [by left|]. repeat constructor; [done|]. by exists [demo_ch_endpt].
  - split; [done|]. split; [done|]. intros j d ?. lia.
Qed.

Lemma ch_setting_effect_witness :
  ∃ s' w', nc_server_ch_client_endpt_set_port (Some (str "c")) (Some (str "e")) 4334 (demo_ch_conf, Net (Sim [] [] 0) ∅ []) =
    Done (0, (s', w')) ∧ ch_rep s' [set_chc_endpts (Some [set_che_port 4334 demo_ch_endpt]) 1 demo_ch_client] 0.
Proof.
  destruct demo_ch_rep as (H1 & H2 & H3).
  apply (ch_setting_effect net demo_ch_conf [demo_ch_client] (str "c") (str "e") 0 demo_ch_client [demo_ch_endpt] 0
    demo_ch_endpt (ChPort 4334)).
  - intros n w Hn. simpl. unfold on_sim. simpl. replace (n =? 0) with false by lia. simpl. lia.
  - exact H1.
  - exact H2.
  - exact H3.
  - reflexivity.
  - split; [done|]. split; [by split; [right|left]|]. intros j d ?. lia.
  - discriminate.
Defined.

Lemma ch_missing_endpt_blocks_witness :
  ∃ s', nc_server_ch_client_endpt_set_port (Some (str "c")) (Some (str "x")) 4334 (demo_ch_conf, Net (Sim [] [] 0) ∅ []) =
      Done (-1, (s', Net (Sim [] [] 0) ∅ [])) ∧
    nc_server_ch_add_client (Some (str "d")) (s', Net (Sim [] [] 0) ∅ []) = NoFuel.
Proof.
  destruct demo_ch_rep as (H1 & H2 & H3).
  destruct (ch_missing_endpt_blocks net demo_ch_conf [demo_ch_client] (str "c") (str "x") 0 demo_ch_client [demo_ch_endpt]
    (ChPort 4334) (Net (Sim [] [] 0) ∅ [])) as (s' & E & Ha & _).
  - exact H1.
  - exact H2.
  - exact H3.
  - reflexivity.
  - intros e ->%list_elem_of_singleton. discriminate.
  - discriminate.
  - exists s'. split; [exact E|]. exact (Ha (str "d")).
Defined.
