(* ===== verification/Connect.v ===== *)
(** * Connecting

    src/session_client.c: [nc_sock_connect], used by clients and by the Call Home
    threads of a server.  A connection that does not come up in time is kept as the
    pending socket of the caller and tried again by the next call. *)

From S2P Require Import Prelude Session Env Sim Capabilities Sockets SocketsProofs.
From Stdlib Require Import ZArith Ascii String Lia.
From stdpp Require Import base list strings gmap numbers fin_sets.
Open Scope Z_scope.

(** One result of [getaddrinfo]. *)
Record addrinfo := Addrinfo { ai_family : af; ai_addr : bytes }.

(** The result of [select] on one socket. *)
Inductive select_result := SelError | SelTimeout | SelReady.

(** [conn_start] is a [connect] that succeeded or is in progress; [conn_error] is
    [getsockopt(SO_ERROR)], [None] when it fails. *)
Class ConnEnv (W : Type) := {
  sys_getaddrinfo : option bytes → Z → W → option (list addrinfo) * W;
  conn_start : Z → addrinfo → W → bool * W;
  conn_select : Z → Z → W → select_result * W;
  conn_error : Z → W → option bool * W;
}.

Class ConnLaws (W : Type) `{!Env W} `{!SockEnv W} `{!SockLaws W} `{!ConnEnv W} := {
  getaddrinfo_law h p w : open_fds (sys_getaddrinfo h p w).2 = open_fds w;
  conn_start_law fd a w : open_fds (conn_start fd a w).2 = open_fds w;
  conn_select_law fd t w : open_fds (conn_select fd t w).2 = open_fds w;
  conn_error_law fd w : open_fds (conn_error fd w).2 = open_fds w;
}.

(** What the caller's [ip_host] points to afterwards. *)
Inductive host_out := HostUnset | HostSet (s : bytes).

(** [*sock_pending = -1], when the caller has one. *)
Definition unset_pending (sock_pending : option Z) : option Z := (λ _, -1) <$> sock_pending.

Section connect.
Context {W : Type} `{!Env W} `{!SockEnv W} `{!ConnEnv W}.

(** The label [cleanup]: the socket is closed and not pending. *)
Definition conn_cleanup (sock : Z) (sock_pending : option Z) : M W (Z * option Z) :=
  _ ← modify (sock_close sock);
  mret (-1, unset_pending sock_pending).

(** The socket to wait for: the pending one, or a new one with a connection started
    (-1 when there is none, and whether all went well). *)
Definition conn_socket (sock_pending : option Z) (res : option addrinfo) : M W (bool * Z) :=
  if negb (default (-1) sock_pending =? -1) then mret (true, default (-1) sock_pending)
  else
    match res with
    | None => crash
    | Some a =>
      sock ← call (sock_socket (ai_family a));
      if sock =? -1 then mret (false, -1)
      else ok ← all_ok [call (sock_set_nonblock sock); call (conn_start sock a)]; mret (ok, sock)
    end.

Definition sock_connect (timeout_ms : Z) (sock_pending : option Z) (res : option addrinfo) (ka : nc_keepalives)
    : M W (Z * option Z) :=
  '(ok, sock) ← conn_socket sock_pending res;
  if sock =? -1 then mret (-1, sock_pending)
  else if negb ok then conn_cleanup sock sock_pending
  else
    sel ← call (conn_select sock timeout_ms);
    match sel with
    | SelError => conn_cleanup sock sock_pending
    | SelTimeout =>
      match sock_pending with
      | Some _ => mret (-1, Some sock)
      | None => _ ← modify (sock_close sock); mret (-1, None)
      end
    | SelReady =>
      err ← call (conn_error sock);
      match err with
      | Some false =>
        ok ← nc_sock_enable_keepalive sock ka;
        if negb ok then conn_cleanup sock sock_pending else mret (sock, unset_pending sock_pending)
      | _ => conn_cleanup sock sock_pending
      end
    end.

(** The label [error] of [nc_sock_connect]. *)
Definition connect_error (sock : Z) (sock_pending : option Z) : M W (Z * option Z * host_out) :=
  _ ← (if negb (sock =? -1) then modify (sock_close sock) else mret tt);
  mret (-1, unset_pending sock_pending, HostUnset).

(** A socket that is connected: its options and the address for the caller. *)
Definition connected (sock : Z) (sock_pending : option Z) (a : addrinfo) (ip_host : bool) : M W (Z * option Z * host_out) :=
  ok ← call (sock_setsockopt sock TCP_NODELAY 1);
  if negb ok then connect_error sock sock_pending
  else if ip_host && negb (match ai_family a with AF_UNIX => true | _ => false end) then
    ok ← call (malloc_ok INET6_ADDRSTRLEN);
    if negb ok then connect_error sock sock_pending
    else
      h ← call (sock_inet_ntop (ai_addr a));
      match h with
      | None => connect_error sock sock_pending
      | Some h => mret (sock, sock_pending, HostSet h)
      end
  else mret (sock, sock_pending, HostUnset).

(** The loop over the addresses of a host; [ip_host] says whether the caller wants
    the address. *)
Fixpoint connect_loop (l : list addrinfo) (timeout_ms : Z) (ka : nc_keepalives) (sock_pending : option Z) (ip_host : bool)
    : M W (Z * option Z * host_out) :=
  match l with
  | [] => mret (-1, sock_pending, HostUnset)
  | a :: l =>
    '(sock, sock_pending) ← sock_connect timeout_ms sock_pending (Some a) ka;
    if sock =? -1 then
      if match sock_pending with None => true | Some p => p =? -1 end
      then connect_loop l timeout_ms ka sock_pending ip_host
      else mret (-1, sock_pending, HostUnset)
    else connected sock sock_pending a ip_host
  end.

Definition nc_sock_connect (host : option bytes) (port timeout_ms : Z) (ka : nc_keepalives) (sock_pending : option Z)
    (ip_host : bool) : M W (Z * option Z * host_out) :=
  if default (-1) sock_pending =? -1 then
    l ← call (sys_getaddrinfo host port);
    match l with
    | None => connect_error (-1) sock_pending
    | Some l => connect_loop l timeout_ms ka sock_pending ip_host
    end
  else
    '(sock, sock_pending) ← sock_connect timeout_ms sock_pending None ka;
    mret (sock, sock_pending, HostUnset).
End connect.

(** ** Ownership of sockets *)

Section fds.
Context {W : Type} `{!Env W} `{!SockEnv W} `{!SockLaws W} `{!ConnEnv W} `{!ConnLaws W}.

(** A descriptor that is open and its own, or none. *)
Definition owned (fd : Z) (rest X : gset Z) : Prop :=
  (fd = -1 ∧ X = rest) ∨ (0 ≤ fd ∧ fd ∉ rest ∧ X = {[fd]} ∪ rest).

(** The outcome of a call: a connected socket and nothing pending, or none and maybe
    a pending one, when the caller keeps one; [rest] are the other open descriptors. *)
Definition conn_result (rest : gset Z) (p : option Z) (r : Z) (p' : option Z) (w' : W) : Prop :=
  (p = None → p' = None) ∧
  ((0 ≤ r ∧ default (-1) p' = -1 ∧ owned r rest (open_fds w')) ∨ (r = -1 ∧ owned (default (-1) p') rest (open_fds w'))).

Lemma default_unset (p : option Z) : default (-1) (unset_pending p) = -1.
Proof. by destruct p. Qed.

(** Nothing is left open. *)
Lemma none_result rest p w : open_fds w = rest → conn_result rest p (-1) (unset_pending p) w.
Proof. intros Ho. split; [by intros ->|]. right. split; [done|]. left. by rewrite default_unset. Qed.

Lemma owned_pos fd rest X : owned fd rest X → fd ≠ -1 → 0 ≤ fd ∧ fd ∉ rest ∧ X = {[fd]} ∪ rest.
Proof. by intros [[? _]|H] Hn. Qed.

Lemma cleanup_ok F sock p rest w :
  owned sock rest (open_fds w) → sock ≠ -1 →
  wpx F (conn_cleanup sock p) (λ '(r, p') w', conn_result rest p r p' w') w.
Proof.
  intros Hw Hs. destruct (owned_pos _ _ _ Hw Hs) as (H0 & Hn & Ho).
  apply wpx_bind, wpx_modify, wpx_ret, none_result. rewrite close_law, Ho. by apply close_new.
Qed.

Lemma connect_error_ok F sock p rest w :
  owned sock rest (open_fds w) → wpx F (connect_error sock p) (λ '(r, p', h) w', conn_result rest p r p' w' ∧ h = HostUnset) w.
Proof.
  intros Hw. apply wpx_bind. destruct (Z.eqb_spec sock (-1)) as [->|Hs]; cbn [negb].
  - apply wpx_ret, wpx_ret. split; [|done]. apply none_result. destruct Hw as [[_ H]|[? _]]; [done|lia].
  - destruct (owned_pos _ _ _ Hw Hs) as (H0 & Hn & Ho). apply wpx_modify, wpx_ret. split; [|done].
    apply none_result. rewrite close_law, Ho. by apply close_new.
Qed.

Lemma start_keeps sock a : keeps (all_ok [call (sock_set_nonblock sock); call (conn_start sock a)]).
Proof. apply keeps_all_ok. repeat constructor; apply keeps_call; intros; [apply nonblock_law|apply conn_start_law]. Qed.

(** A socket to wait for is one more, unless there was a pending one. *)
Lemma conn_socket_ok F p res rest w :
  owned (default (-1) p) rest (open_fds w) → (default (-1) p = -1 → is_Some res) →
  wpx F (conn_socket p res)
    (λ '(ok, sock) w', owned sock rest (open_fds w') ∧ (sock = -1 → default (-1) p = -1)) w.
Proof.
  intros Hw Hres. unfold conn_socket. destruct (Z.eqb_spec (default (-1) p) (-1)) as [E|E]; cbn [negb].
  2: { apply wpx_ret. by split. }
  destruct (Hres E) as [a ->]. rewrite E in Hw. destruct Hw as [[_ Hw]|[? _]]; [|lia].
  apply wpx_bind, wpx_call. pose proof (socket_law (ai_family a) w) as HL.
  destruct (sock_socket (ai_family a) w) as [sock w1]. cbn [fst snd].
  destruct HL as [[-> Ho]|(H0 & Hn & Ho)].
  - apply wpx_ret. split; [left; split; congruence|done].
  - destruct (Z.eqb_spec sock (-1)); [lia|]. apply wpx_bind. eapply wpx_mono; [apply start_keeps|].
    intros ok w2 H2. apply wpx_ret. split; [|done]. right. rewrite H2, Ho, Hw in *. done.
Qed.

Lemma timeout_ok F sock (p : option Z) rest w :
  owned sock rest (open_fds w) → sock ≠ -1 →
  wpx F match p with Some _ => mret (-1, Some sock) | None => _ ← modify (sock_close sock); mret (-1, None) end
    (λ '(r, p') w', conn_result rest p r p' w') w.
Proof.
  intros Hw Hs. destruct p; [apply wpx_ret; split; [done|by right]|].
  destruct (owned_pos _ _ _ Hw Hs) as (H0 & Hn & Ho).
  apply wpx_bind, wpx_modify, wpx_ret. split; [done|]. right. split; [done|]. left. split; [done|].
  rewrite close_law, Ho. by apply close_new.
Qed.

Lemma keepalive_keeps sock ka : keeps (nc_sock_enable_keepalive sock ka).
Proof.
  unfold nc_sock_enable_keepalive. apply keeps_bind; [apply keeps_call; intros; apply setsockopt_law|]. intros [].
  2: apply keeps_ret.
  cbn [negb]. destruct (ka_enabled ka); cbn [negb]; [|apply keeps_ret].
  apply keeps_all_ok. repeat constructor; apply keeps_call; intros; apply setsockopt_law.
Qed.

Lemma sock_connect_ok F t p res ka rest w :
  owned (default (-1) p) rest (open_fds w) → (default (-1) p = -1 → is_Some res) →
  wpx F (sock_connect t p res ka) (λ '(r, p') w', conn_result rest p r p' w' ) w.
Proof.
  intros Hw Hres. apply wpx_bind. eapply wpx_mono; [by apply (conn_socket_ok F p res rest w)|].
  intros [ok sock] w1 [Ho Hs]. destruct (Z.eqb_spec sock (-1)) as [->|Hn].
  { apply wpx_ret. rewrite Hs in * by done. split; [done|]. right. by rewrite Hs. }
  destruct ok; cbn [negb]; [|by apply cleanup_ok].
  apply wpx_bind, wpx_call. pose proof (conn_select_law sock t w1) as H2.
  destruct (conn_select sock t w1) as [sel w2]. cbn [fst snd] in *. rewrite <- H2 in Ho.
  destruct sel; [by apply cleanup_ok|by apply timeout_ok|].
  apply wpx_bind, wpx_call. pose proof (conn_error_law sock w2) as H3.
  destruct (conn_error sock w2) as [err w3]. cbn [fst snd] in *. rewrite <- H3 in Ho.
  destruct err as [[]|]; [by apply cleanup_ok| |by apply cleanup_ok].
  apply wpx_bind. eapply wpx_mono; [apply keepalive_keeps|]. unfold same_fds. intros ok w4 H4. rewrite <- H4 in Ho.
  destruct ok; cbn [negb]; [|by apply cleanup_ok]. apply wpx_ret.
  split; [by intros ->|]. left. rewrite default_unset. destruct (owned_pos _ _ _ Ho Hn). auto.
Qed.
Lemma conn_result_trans rest p p' r q w : (p = None → p' = None) → conn_result rest p' r q w → conn_result rest p r q w.
Proof. intros Hn [H1 H2]. split; auto. Qed.

Lemma result_trans F (m : M W (Z * option Z * host_out)) rest p p' w :
  (p = None → p' = None) → wpx F m (λ '(r, q, _) w', conn_result rest p' r q w') w →
  wpx F m (λ '(r, q, _) w', conn_result rest p r q w') w.
Proof. intros Hn H. eapply wpx_mono; [exact H|]. intros [[r q] h] w'. by apply conn_result_trans. Qed.

Lemma connected_ok F sock p a ip rest w :
  owned sock rest (open_fds w) → sock ≠ -1 → default (-1) p = -1 →
  wpx F (connected sock p a ip) (λ '(r, p', h) w', conn_result rest p r p' w') w.
Proof.
  intros Hw Hs Hp.
  assert (Hd : ∀ (h : host_out) w', open_fds w' = open_fds w →
    wpx (S := W) F (mret (sock, p, h)) (λ '(r, p', h') w', conn_result rest p r p' w') w').
  { intros h w' E. apply wpx_ret. split; [done|]. left. rewrite E. destruct (owned_pos _ _ _ Hw Hs). auto. }
  assert (He : ∀ w', open_fds w' = open_fds w →
    wpx F (connect_error sock p) (λ '(r, p', h) w', conn_result rest p r p' w') w').
  { intros w' E. eapply wpx_mono; [apply connect_error_ok; by rewrite E|]. by intros [[? ?] ?] ? [? _]. }
  unfold connected. apply wpx_bind, wpx_call. pose proof (setsockopt_law sock TCP_NODELAY 1 w) as H1.
  destruct (sock_setsockopt sock TCP_NODELAY 1 w) as [[] w1]; cbn [fst snd negb] in *; [|by apply He].
  destruct (ip && _); [|by apply Hd].
  apply wpx_bind, wpx_call. pose proof (malloc_fds INET6_ADDRSTRLEN w1) as H2.
  destruct (malloc_ok INET6_ADDRSTRLEN w1) as [[] w2]; cbn [fst snd negb] in *; [|apply He; congruence].
  apply wpx_bind, wpx_call. pose proof (inet_ntop_law (ai_addr a) w2) as H3.
  destruct (sock_inet_ntop (ai_addr a) w2) as [[h|] w3]; cbn [fst snd] in *; [apply Hd|apply He]; congruence.
Qed.

Lemma connect_loop_ok F l t ka p ip rest w :
  owned (default (-1) p) rest (open_fds w) →
  wpx F (connect_loop l t ka p ip) (λ '(r, p', h) w', conn_result rest p r p' w') w.
Proof.
  revert p w. induction l as [|a l IH]; intros p w Hw; cbn [connect_loop]; [apply wpx_ret; split; [done|by right]|].
  apply wpx_bind. eapply wpx_mono; [by apply (sock_connect_ok F t p (Some a) ka rest w)|].
  intros [sock p'] w1 [Hn Hr]. apply (result_trans F _ rest p p' _ Hn).
  destruct Hr as [(H0 & Hp & Ho)|[-> Ho]].
  - destruct (Z.eqb_spec sock (-1)); [lia|]. by apply connected_ok.
  - cbn [Z.eqb Pos.eqb]. destruct p' as [q|]; [|by apply IH].
    destruct (q =? -1); [by apply IH|]. apply wpx_ret. split; [done|by right].
Qed.

Lemma nc_sock_connect_ok F host port t ka p ip rest w :
  owned (default (-1) p) rest (open_fds w) →
  wpx F (nc_sock_connect host port t ka p ip) (λ '(r, p', h) w', conn_result rest p r p' w') w.
Proof.
  intros Hw. unfold nc_sock_connect. destruct (Z.eqb_spec (default (-1) p) (-1)) as [E|E].
  - apply wpx_bind, wpx_call. pose proof (getaddrinfo_law host port w) as H1.
    destruct (sys_getaddrinfo host port w) as [[l|] w1]; cbn [fst snd] in *; rewrite <- H1 in Hw.
    + by apply connect_loop_ok.
    + eapply wpx_mono; [apply connect_error_ok; by rewrite E in Hw|]. by intros [[? ?] ?] ? [? _].
  - apply wpx_bind. eapply wpx_mono; [by apply (sock_connect_ok F t p None ka rest w)|].
    intros [sock p'] w1 H1. by apply wpx_ret.
Qed.
End fds.

(** ** The simulated network *)

(** Every host has one address; a connection comes up when its socket is ready. *)
#[export] Instance net_conn : ConnEnv net := {
  sys_getaddrinfo h p w := (Some [Addrinfo AF_INET (str "10.0.0.2")], w);
  conn_start fd a w := (true, w);
  conn_select fd t w := (if bool_decide (fd ∈ net_ready w) then SelReady else SelTimeout, w);
  conn_error fd w := (Some false, w);
}.

#[export] Instance net_conn_laws : ConnLaws net.
Proof. by split. Qed.

(** C35: [nc_sock_connect] owns its sockets: it always returns, either with one new
    connected socket and nothing pending, or with -1 and as pending socket the one it
    has still open, if the caller keeps one; a socket that was pending before is the one
    returned or kept, or it is closed.  No other descriptor is touched on any path. *)
Theorem connect_owns {W} `{!Env W} `{!SockEnv W} `{!SockLaws W} `{!ConnEnv W} `{!ConnLaws W}
    host port t ka pending ip rest (w : W) :
  owned (default (-1) pending) rest (open_fds w) →
  ∃ r pending' h w', nc_sock_connect host port t ka pending ip w = Done ((r, pending', h), w') ∧
    conn_result rest pending r pending' w'.
Proof.
  intros Hw. destruct (proj1 (wp_total _ _ _) (nc_sock_connect_ok False host port t ka pending ip rest w Hw))
    as ([[r p'] h] & w' & E & H). eauto 6.
Qed.

Definition demo_net (ready : list Z) (fds : gset Z) : net := Net (Sim [] [] 0) fds ready.

Lemma connect_owns_witness : ∃ r pending' h w',
  nc_sock_connect (Some (str "box")) 4334 1000 (Keepalives false 1 10 5) (Some (-1)) true (demo_net [] {[3]}) =
    Done ((r, pending', h), w') ∧ conn_result {[3]} (Some (-1)) r pending' w'.
Proof.
  apply (connect_owns (W := net) (Some (str "box")) 4334 1000 (Keepalives false 1 10 5) (Some (-1)) true {[3]}
    (demo_net [] {[3]})). by left.
Defined.
