(* ===== verification/UserDb.v ===== *)
(** * Names of users

    [nc_getpwuid] of src/io.c: the name of a user in the system's database, which is read into a buffer that grows
    until the entry fits. *)

From S2P Require Import Prelude Session Env.
From Stdlib Require Import ZArith Ascii String Lia.
From stdpp Require Import base list strings gmap numbers.
Open Scope Z_scope.

(** The functions of the database with a buffer: an entry, [ERANGE], or neither. *)
Inductive db_result (A : Type) := DbFound (a : A) | DbRange | DbNone.
Arguments DbFound {A} a.
Arguments DbRange {A}.
Arguments DbNone {A}.

(** The user of the process, the effective one for [true], [sysconf(_SC_GETPW_R_SIZE_MAX)], and [getpwuid_r] with the size of
    the buffer, of which the name is used. *)
Class UserDb (W : Type) := {
  getuid : bool → Z;
  getpw_size_max : Z;
  getpwuid_r : Z → Z → W → db_result bytes * W;
}.

Section users.
Context {W : Type} `{!Env W} `{!UserDb W}.

(** The size of the next buffer; 0 before the first. *)
Definition next_size (buf_size : Z) : Z :=
  if buf_size =? 0 then if getpw_size_max =? -1 then 2048 else getpw_size_max
  else (buf_size + 2048) mod 2 ^ 64.

Fixpoint nc_getpwuid (fuel : nat) (uid : Z) (buf_size : Z) : M W (option bytes) :=
  match fuel with
  | O => no_fuel
  | S fuel =>
    let buf_size := next_size buf_size in
    ok ← call (malloc_ok buf_size);
    if negb ok then mret None
    else
      r ← call (getpwuid_r uid buf_size);
      match r with
      | DbFound n => mret (Some n)
      | DbNone => mret None
      | DbRange => nc_getpwuid fuel uid buf_size
      end
  end.

Lemma nc_getpwuid_grows fuel uid buf_size bound (w : W) :
  0 < buf_size < bound → bound < 2 ^ 32 → (∀ n w, bound ≤ n → (getpwuid_r uid n w).1 ≠ DbRange) →
  bound ≤ buf_size + 2048 * Z.of_nat fuel →
  ∃ r w', nc_getpwuid fuel uid buf_size w = Done (r, w').
Proof.
  intros Hb Hlt Hr. revert buf_size w Hb. induction fuel as [|fuel IH]; intros buf_size w Hb Hf; [lia|].
  cbn [nc_getpwuid]. unfold mbind, M_bind, call. assert (En : next_size buf_size = buf_size + 2048).
  { unfold next_size. rewrite (proj2 (Z.eqb_neq _ _)) by lia. apply Z.mod_small. lia. }
  rewrite En. destruct (malloc_ok _ w) as [[] w1]; cbn [negb]; [|eexists _, _; done].
  specialize (Hr (buf_size + 2048) w1) as Hr1. destruct (getpwuid_r uid _ w1) as [[n| |] w2]; [by eexists _, _| |by eexists _, _].
  apply IH; [|lia]. cbn in Hr1. split; [lia|]. destruct (Z.lt_ge_cases (buf_size + 2048) bound); [done|]. by destruct Hr1.
Qed.

(** With entries of less than [bound] bytes the loop of [nc_getpwuid] ends, after at most one buffer for every
    2048 of them. *)
Lemma nc_getpwuid_total fuel uid bound (w : W) :
  getpw_size_max = -1 ∨ 0 < getpw_size_max → bound < 2 ^ 32 → (∀ n w, bound ≤ n → (getpwuid_r uid n w).1 ≠ DbRange) →
  bound ≤ 2048 * Z.of_nat fuel →
  ∃ r w', nc_getpwuid (S fuel) uid 0 w = Done (r, w').
Proof.
  intros Hs Hlt Hr Hf. cbn [nc_getpwuid]. unfold mbind, M_bind, call. assert (En : 0 < next_size 0).
  { unfold next_size. cbn [Z.eqb]. destruct Hs as [->|Hs]; [done|]. by destruct (getpw_size_max =? -1). }
  destruct (malloc_ok _ w) as [[] w1]; cbn [negb]; [|eexists _, _; done].
  specialize (Hr (next_size 0) w1) as Hr1. destruct (getpwuid_r uid _ w1) as [[n| |] w2]; [by eexists _, _| |by eexists _, _].
  destruct (Z.lt_ge_cases (next_size 0) bound); [|by destruct Hr1]. eapply nc_getpwuid_grows; [|done..|]; lia.
Qed.
End users.
