(* ===== verification/SshAuth.v ===== *)
(** * SSH authentication of clients

    src/session_server_ssh.c: what the server does with the messages of an SSH client
    until the client is authenticated and has the subsystem "netconf" on a channel.
    libssh, PAM, the system's user database and the callbacks of the application are
    parameters. *)

From S2P Require Import Prelude Session Env Time Locks IoRead Capabilities PtrArray SshOpts SessionFree UserDb.
From Stdlib Require Import ZArith Ascii String Lia.
From stdpp Require Import base list strings gmap numbers.
Open Scope Z_scope.

(** The state of the signature of a public key request. *)
Inductive pk_state := SSH_PUBLICKEY_STATE_ERROR | SSH_PUBLICKEY_STATE_NONE | SSH_PUBLICKEY_STATE_VALID | SSH_PUBLICKEY_STATE_WRONG.

(** Authentication methods with what libssh read from the request. *)
Inductive auth_request (key : Type) :=
| SSH_AUTH_METHOD_NONE
| SSH_AUTH_METHOD_PASSWORD (password : bytes)
| SSH_AUTH_METHOD_PUBLICKEY (pubkey : key) (state : pk_state)
| SSH_AUTH_METHOD_HOSTBASED
| SSH_AUTH_METHOD_INTERACTIVE
| SSH_AUTH_METHOD_GSSAPI_MIC.
Arguments SSH_AUTH_METHOD_NONE {key}.
Arguments SSH_AUTH_METHOD_PASSWORD {key} password.
Arguments SSH_AUTH_METHOD_PUBLICKEY {key} pubkey state.
Arguments SSH_AUTH_METHOD_HOSTBASED {key}.
Arguments SSH_AUTH_METHOD_INTERACTIVE {key}.
Arguments SSH_AUTH_METHOD_GSSAPI_MIC {key}.

(** Messages by type and subtype; channels are numbers. *)
Inductive ssh_msg (key : Type) :=
| SSH_REQUEST_AUTH (user : option bytes) (r : auth_request key)
| SSH_REQUEST_CHANNEL_OPEN (session : bool)
| SSH_REQUEST_CHANNEL_SUBSYSTEM (channel : Z) (subsystem : bytes)
| SSH_REQUEST_CHANNEL_OTHER
| SSH_REQUEST_SERVICE
| SSH_REQUEST_GLOBAL
| SSH_REQUEST_UNKNOWN.
Arguments SSH_REQUEST_AUTH {key} user r.
Arguments SSH_REQUEST_CHANNEL_OPEN {key} session.
Arguments SSH_REQUEST_CHANNEL_SUBSYSTEM {key} channel subsystem.
Arguments SSH_REQUEST_CHANNEL_OTHER {key}.
Arguments SSH_REQUEST_SERVICE {key}.
Arguments SSH_REQUEST_GLOBAL {key}.
Arguments SSH_REQUEST_UNKNOWN {key}.

(** The replies the code sends itself: [ssh_message_reply_default],
    [ssh_message_auth_reply_success], [ssh_message_auth_reply_pk_ok_simple],
    [ssh_message_channel_request_open_reply_accept] and
    [ssh_message_channel_request_reply_success]. *)
Inductive ssh_reply := ReplyDefault | ReplyAuthSuccess | ReplyPkOk | ReplyChannelAccept | ReplyRequestSuccess.

Record spwd := Spwd { sp_pwdp : option bytes; sp_expire : Z }.

Inductive pam_ret := PAM_SUCCESS | PAM_ABORT | PAM_NEW_AUTHTOK_REQD | PAM_BUF_ERR | PAM_CONV_ERR | PAM_OTHER.
Inductive pam_style := PAM_PROMPT_ECHO_OFF | PAM_PROMPT_ECHO_ON | PAM_TEXT_INFO | PAM_ERROR_MSG | PAM_STYLE_OTHER.

#[export] Instance pam_ret_eq_dec : EqDecision pam_ret.
Proof. solve_decision. Defined.
#[export] Instance pam_style_eq_dec : EqDecision pam_style.
Proof. solve_decision. Defined.
#[export] Instance ssh_reply_eq_dec : EqDecision ssh_reply.
Proof. solve_decision. Defined.

Definition PAM_MAX_NUM_MSG : Z := 32.

(** The callbacks of the application ([None] when not set; true for a result of 0), the
    password of a passwd entry, [time(NULL)], [crypt], PAM and libssh.
    [ssh_queued_messages] are the messages [ssh_execute_message_callbacks] passes to the
    callback, [None] when it fails. *)
Class SshAuthEnv (W key : Type) := {
  passwd_auth_clb : option (nc_session → bytes → W → bool * W);
  pubkey_auth_clb : option (nc_session → key → W → bool * W);
  interactive_auth_clb : option (nc_session → W → Z * W);
  getpwnam_r : bytes → Z → W → db_result bytes * W;
  getspnam_r : bytes → Z → W → db_result spwd * W;
  sys_time : W → Z * W;
  crypt_r : bytes → bytes → W → option bytes * W;
  pam_start : option bytes → W → pam_ret * W;
  pam_authenticate : option bytes → W → pam_ret * W;
  pam_acct_mgmt : option bytes → W → pam_ret * W;
  pam_chauthtok : option bytes → W → pam_ret * W;
  ssh_message_get : W → option (ssh_msg key) * W;
  ssh_queued_messages : W → option (list (ssh_msg key)) * W;
  ssh_channel_accept : W → option Z * W;
  ssh_set_auth_methods : Z → W → W;
  ssh_interactive_request : list bytes → list bool → W → bool * W;
  ssh_kbdint_nanswers : W → Z * W;
  ssh_kbdint_answer : Z → W → bytes * W;
}.

Section passwords.
Context {W key : Type} `{!Env W} `{!SshAuthEnv W key}.

(** The loops of [auth_password_getpwnam] and [auth_password_getspnam], which also
    return the size of the buffer. *)
Fixpoint db_lookup {A} (fuel : nat) (get : Z → W → db_result A * W) (buf_size : Z) : M W (option A * Z) :=
  match fuel with
  | O => no_fuel
  | S fuel =>
    r ← call (get buf_size);
    match r with
    | DbFound a => mret (Some a, buf_size)
    | DbNone => mret (None, buf_size)
    | DbRange =>
      let buf_size := (buf_size * 4) mod 2 ^ 64 in
      ok ← call (malloc_ok buf_size);
      if ok : bool then db_lookup fuel get buf_size else mret (None, buf_size)
    end
  end.

Definition auth_password_getpwnam (fuel : nat) (username : bytes) (buf_size : Z) : M W (option bytes * Z) :=
  db_lookup fuel (getpwnam_r username) buf_size.

Definition auth_password_getspnam (fuel : nat) (username : bytes) (buf_size : Z) : M W (option spwd * Z) :=
  db_lookup fuel (getspnam_r username) buf_size.

(** The hash of a passwd entry, or of the shadow entry it refers to; [None] on the
    way to the label [error]. *)
Definition entry_hash (fuel : nat) (username pw_passwd : bytes) (buf_size : Z) : M W (option bytes) :=
  if strcmp_eq pw_passwd (str "x") then
    '(sp, _) ← auth_password_getspnam fuel username buf_size;
    match sp with
    | None => mret None
    | Some sp =>
      if -1 <? sp_expire sp then
        t ← call sys_time;
        mret (if sp_expire sp <=? Z.quot t (60 * 60 * 24) then None else sp_pwdp sp)
      else mret (sp_pwdp sp)
    end
  else mret (Some pw_passwd).

(** Hashes that stand for no password. *)
Definition no_password (pass_hash : bytes) : bool :=
  strcmp_eq pass_hash (str "*") || strcmp_eq pass_hash (str "!") || strcmp_eq pass_hash (str "*NP*").

Definition auth_password_get_pwd_hash (fuel : nat) (username : option bytes) : M W (option bytes) :=
  ok ← call (malloc_ok 256);
  if negb ok then mret None
  else
    match username with
    | None => crash
    | Some username =>
      '(pwd, buf_size) ← auth_password_getpwnam fuel username 256;
      match pwd with
      | None => mret None
      | Some pw =>
        h ← entry_hash fuel username pw buf_size;
        match h with
        | None => mret None
        | Some h => if no_password h then mret None else strdup h
        end
      end
    end.

(** True for the result 0. *)
Definition auth_password_compare_pwd (pass_hash pass_clear : bytes) : M W bool :=
  match pass_hash with
  | [] => mret (match pass_clear with [] => true | _ => false end)
  | _ =>
    h ← call (crypt_r pass_clear pass_hash);
    mret (match h with None => false | Some h => strcmp_eq h pass_hash end)
  end.

(** ** PAM *)

Definition nc_pam_auth (username : option bytes) : M W pam_ret :=
  r ← call (pam_start username);
  if negb (bool_decide (r = PAM_SUCCESS)) then mret r
  else
    r ← call (pam_authenticate username);
    if negb (bool_decide (r = PAM_SUCCESS)) then mret r
    else
      r ← call (pam_acct_mgmt username);
      if negb (bool_decide (r = PAM_SUCCESS)) && negb (bool_decide (r = PAM_NEW_AUTHTOK_REQD)) then mret r
      else if bool_decide (r = PAM_NEW_AUTHTOK_REQD) then call (pam_chauthtok username)
      else mret r.

Definition is_prompt (m : pam_style * bytes) : bool :=
  bool_decide (m.1 = PAM_PROMPT_ECHO_ON) || bool_decide (m.1 = PAM_PROMPT_ECHO_OFF).

(** Waiting for the reply of the user. *)
Fixpoint wait_reply (fuel : nat) (ts_timeout : option timespec) : M W bool :=
  match fuel with
  | O => no_fuel
  | S fuel =>
    c ← call ssh_is_connected;
    if negb c then mret false
    else
      r ← call ssh_message_get;
      match r with
      | Some _ => mret true
      | None =>
        _ ← modify (usleep NC_TIMEOUT_STEP);
        match ts_timeout with
        | None => mret false
        | Some ts => d ← nc_difftimespec_mono_cur ts; if 1 <=? d then wait_reply fuel ts_timeout else mret false
        end
      end
  end.

(** The answers, copied; [None] when a copy fails. *)
Fixpoint copy_answers (n : nat) (i : Z) : M W (option (list bytes)) :=
  match n with
  | O => mret (Some [])
  | S n =>
    a ← call (ssh_kbdint_answer i);
    a ← strdup a;
    match a with
    | None => mret None
    | Some a => l ← copy_answers n (i + 1); mret ((λ l, a :: l) <$> l)
    end
  end.

(** The conversation: the prompts of [msgs] are put to the user and the answers
    returned in [resp], an array of pointers that stay [NULL] on an error. *)
Definition nc_pam_conv_clb (fuel : nat) (auth_timeout : Z) (msgs : list (pam_style * bytes))
    : M W (pam_ret * option (list (option bytes))) :=
  let prompts := filter (λ m, is_prompt m = true) msgs in
  let n_requests := zlen msgs - zlen (filter (λ m : pam_style * bytes, m.1 = PAM_TEXT_INFO) msgs) in
  if (zlen msgs <=? 0) || (PAM_MAX_NUM_MSG <=? zlen msgs) then mret (PAM_CONV_ERR, None)
  else if existsb (λ m, bool_decide (m.1 = PAM_STYLE_OTHER)) msgs then mret (PAM_CONV_ERR, None)
  else if existsb (λ m, bool_decide (m.1 = PAM_ERROR_MSG)) msgs then mret (PAM_CONV_ERR, None)
  else if n_requests <=? 0 then mret (PAM_SUCCESS, None)
  else
    ok1 ← call (malloc_ok (n_requests * 16));
    ok2 ← call (malloc_ok (n_requests * 8));
    ok3 ← call (malloc_ok n_requests);
    let resp := if ok1 : bool then Some (repeat None (Z.to_nat n_requests)) else None in
    if negb (ok1 && ok2 && ok3) then mret (PAM_BUF_ERR, resp)
    else
      ok ← call (ssh_interactive_request (map snd prompts) (map (λ m, bool_decide (m.1 = PAM_PROMPT_ECHO_ON)) prompts));
      if negb ok then mret (PAM_CONV_ERR, resp)
      else
        ts ← (if auth_timeout =? 0 then mret None else ts ← nc_gettimespec_mono_add (auth_timeout * 1000); mret (Some ts));
        got ← wait_reply fuel ts;
        if negb got then mret (PAM_CONV_ERR, resp)
        else
          n ← call ssh_kbdint_nanswers;
          if negb (n =? n_requests) then mret (PAM_CONV_ERR, resp)
          else
            l ← copy_answers (Z.to_nat n) 0;
            mret (match l with None => (PAM_BUF_ERR, resp) | Some l => (PAM_SUCCESS, Some (map Some l)) end).
End passwords.

(** ** The server's side of an SSH session *)

(** The sessions on the SSH session with their channels, the authorized keys, and the
    replies sent so far, newest first. *)
Record ssh_srv (key : Type) := SshSrv {
  sv_store : gmap positive (nc_session * option Z);
  sv_keys : authkeys_state;
  sv_trace : list (ssh_msg key * ssh_reply);
}.
Arguments SshSrv {key} sv_store sv_keys sv_trace.
Arguments sv_store {key} s.
Arguments sv_keys {key} s.
Arguments sv_trace {key} s.

Definition has_flag (f : Z) (s : nc_session) : bool := negb (Z.land (flags s) f =? 0).
Definition add_flag (f : Z) (s : nc_session) : nc_session := set_flags (Z.lor (flags s) f) s.
Definition clear_flag (f : Z) (s : nc_session) : nc_session := set_flags (Z.land (flags s) (Z.lnot f)) s.

Definition set_username (u : option bytes) (s : nc_session) : nc_session :=
  Session (status s) (term_reason s) (killed_by s) (side s) (id s) (version s) (ti s) (io_lock s)
    u (host s) (port s) (path s) (flags s) (client s) (server s).
Definition set_host_port (h : option bytes) (p : Z) (s : nc_session) : nc_session :=
  Session (status s) (term_reason s) (killed_by s) (side s) (id s) (version s) (ti s) (io_lock s)
    (username s) h p (path s) (flags s) (client s) (server s).
Definition set_ti (t : transport) (s : nc_session) : nc_session :=
  Session (status s) (term_reason s) (killed_by s) (side s) (id s) (version s) t (io_lock s)
    (username s) (host s) (port s) (path s) (flags s) (client s) (server s).

(** [++session->opts.server.ssh_auth_attempts], a [uint16_t]. *)
Definition count_attempt (s : nc_session) : nc_session :=
  set_server (ServerOpts (session_start (server s)) (last_rpc (server s)) (ntf_status (server s)) (rpc_inuse (server s))
    (u16 (ssh_auth_attempts (server s) + 1))) s.

Section handlers.
Context {W key : Type} `{!Env W} `{!SshKeys W key} `{!SshAuthEnv W key}.

Abbreviation AU := (M (ssh_srv key * W)).

Definition get_session (p : positive) : AU nc_session :=
  m ← gets (λ s, sv_store s.1);
  match m !! p with Some (s, _) => mret s | None => crash end.

Definition upd_session (p : positive) (f : nc_session → nc_session) : AU unit :=
  modify (λ s, (SshSrv (alter (λ sc, (f sc.1, sc.2)) p (sv_store s.1)) (sv_keys s.1) (sv_trace s.1), s.2)).

Definition reply (m : ssh_msg key) (r : ssh_reply) : AU unit :=
  modify (λ s, (SshSrv (sv_store s.1) (sv_keys s.1) ((m, r) :: sv_trace s.1), s.2)).

Definition on_keys {A} (m : M (authkeys_state * W) A) : AU A := λ s,
  match m (sv_keys s.1, s.2) with
  | Done (a, (k, w)) => Done (a, (SshSrv (sv_store s.1) k (sv_trace s.1), w))
  | NoFuel => NoFuel
  | Crash => Crash
  end.

(** The ends of the authentication functions. *)
Definition auth_success (p : positive) (m : ssh_msg key) : AU unit :=
  _ ← upd_session p (add_flag NC_SESSION_SSH_AUTHENTICATED);
  reply m ReplyAuthSuccess.
Definition auth_failure (p : positive) (m : ssh_msg key) : AU unit :=
  _ ← upd_session p count_attempt;
  reply m ReplyDefault.

Definition nc_sshcb_auth_password (fuel : nat) (p : positive) (m : ssh_msg key) (password : bytes) : AU unit :=
  s ← get_session p;
  ok ← match passwd_auth_clb with
       | Some clb => on_env (call (clb s password))
       | None =>
         h ← on_env (auth_password_get_pwd_hash fuel (username s));
         match h with
         | None => mret false
         | Some h => on_env (auth_password_compare_pwd h password)
         end
       end;
  if ok : bool then auth_success p m else auth_failure p m.

Definition nc_sshcb_auth_kbdint (p : positive) (m : ssh_msg key) : AU unit :=
  s ← get_session p;
  auth_ret ← match interactive_auth_clb with
             | Some clb => on_env (call (clb s))
             | None => r ← on_env (nc_pam_auth (username s)); mret (if bool_decide (r = PAM_SUCCESS) then 0 else 1)
             end;
  if auth_ret =? -1 then mret tt
  else if auth_ret =? 0 then auth_success p m else auth_failure p m.

Definition nc_sshcb_auth_pubkey (p : positive) (m : ssh_msg key) (pubkey : key) (state : pk_state) : AU unit :=
  s ← get_session p;
  ok ← match pubkey_auth_clb with
       | Some clb => on_env (call (clb s pubkey))
       | None =>
         u ← on_keys (auth_pubkey_compare_key pubkey);
         match u, username s with
         | None, _ => mret false
         | Some _, None => crash
         | Some u, Some n => mret (strcmp_eq n u)
         end
       end;
  if negb ok then auth_failure p m
  else
    match state with
    | SSH_PUBLICKEY_STATE_VALID => auth_success p m
    | SSH_PUBLICKEY_STATE_NONE => reply m ReplyPkOk
    | _ => mret tt
    end.

(** True for the result 0; accepting the channel also replies. *)
Definition nc_sshcb_channel_open (p : positive) (m : ssh_msg key) : AU bool :=
  s ← get_session p;
  match ti s with
  | TiLibssh false next =>
    if negb (bool_decide (status s = NC_STATUS_STARTING)) then mret false
    else
      c ← on_env (call ssh_channel_accept);
      match c with
      | None => mret false
      | Some c =>
        _ ← reply m ReplyChannelAccept;
        _ ← modify (λ st, (SshSrv (alter (λ sc, (set_ti (TiLibssh true next) sc.1, Some c)) p (sv_store st.1))
                             (sv_keys st.1) (sv_trace st.1), st.2));
        mret true
      end
  | _ =>
    c ← on_env (call ssh_channel_accept);
    match c with
    | None => mret false
    | Some c => _ ← reply m ReplyChannelAccept; mret true
    end
  end.

(** [session->ti.libssh.next] *)
Definition ssh_link (s : nc_session) : option positive := match ti s with TiLibssh _ n => n | _ => None end.

(** A new session is put behind the one the message came for. *)
Definition new_channel_session (p : positive) (channel : Z) (s new : nc_session) (u h : option bytes) : AU unit :=
  m ← gets (λ st, sv_store st.1);
  let q := fresh (dom m) in
  let next := default p (ssh_link s) in
  let new := set_flags (Z.lor (Z.lor NC_SESSION_SSH_AUTHENTICATED NC_SESSION_SSH_SUBSYS_NETCONF) NC_SESSION_SHAREDCTX)
    (set_host_port h (port s) (set_username u (set_io_lock (io_lock s)
      (set_ti (TiLibssh true (Some next)) (set_status NC_STATUS_STARTING new))))) in
  modify (λ st, (SshSrv (<[q := (new, Some channel)]> (upd_next p (Some q) (sv_store st.1))) (sv_keys st.1) (sv_trace st.1),
                 st.2)).

Definition nc_sshcb_channel_subsystem (p : positive) (channel : Z) (subsystem : bytes) : AU bool :=
  if negb (strcmp_eq subsystem (str "netconf")) then mret false
  else
    m ← gets (λ st, sv_store st.1);
    match m !! p with
    | None => crash
    | Some (s, c) =>
      if bool_decide (c = Some channel) then
        if negb (bool_decide (ssh_link s = None)) || negb (bool_decide (status s = NC_STATUS_STARTING))
        then mret false
        else if has_flag NC_SESSION_SSH_SUBSYS_NETCONF s then mret false
        else _ ← upd_session p (add_flag NC_SESSION_SSH_SUBSYS_NETCONF); mret true
      else
        new ← on_env (nc_new_session NC_SERVER true);
        match new with
        | None => mret false
        | Some new =>
          match username s, host s with
          | Some u, Some h =>
            u ← on_env (strdup u);
            h ← on_env (strdup h);
            _ ← new_channel_session p channel s new u h;
            mret true
          | _, _ => crash
          end
        end
    end.
(** The methods of an authentication request, after the username was checked; the
    result says whether libssh has to reply. *)
Definition auth_method (fuel : nat) (p : positive) (m : ssh_msg key) (r : auth_request key) : AU bool :=
  match r with
  | SSH_AUTH_METHOD_PASSWORD password => _ ← nc_sshcb_auth_password fuel p m password; mret false
  | SSH_AUTH_METHOD_PUBLICKEY pubkey state => _ ← nc_sshcb_auth_pubkey p m pubkey state; mret false
  | SSH_AUTH_METHOD_INTERACTIVE => _ ← nc_sshcb_auth_kbdint p m; mret false
  | _ => mret true
  end.

(** An authentication request: the first username is kept. *)
Definition auth_msg (fuel : nat) (p : positive) (m : ssh_msg key) (user : option bytes) (r : auth_request key) : AU bool :=
  s ← get_session p;
  if has_flag NC_SESSION_SSH_AUTHENTICATED s then _ ← reply m ReplyDefault; mret false
  else
    match username s, user with
    | None, None => mret true
    | None, Some u => d ← on_env (strdup u); _ ← upd_session p (set_username d); auth_method fuel p m r
    | Some n, Some u =>
      if negb (strcmp_eq u n) then _ ← upd_session p (invalidate NC_SESSION_TERM_OTHER); mret true
      else auth_method fuel p m r
    | Some _, None => auth_method fuel p m r
    end.

(** True for the result 1: the message was not processed. *)
Definition nc_sshcb_msg (fuel : nat) (m : ssh_msg key) (session : option positive) : AU bool :=
  match session with
  | None => _ ← reply m ReplyDefault; mret false
  | Some p =>
    s ← get_session p;
    if bool_decide (status s = NC_STATUS_CLOSING) || bool_decide (status s = NC_STATUS_INVALID)
    then _ ← reply m ReplyDefault; mret false
    else
      _ ← upd_session p (add_flag NC_SESSION_SSH_NEW_MSG);
      match m with
      | SSH_REQUEST_AUTH user r => auth_msg fuel p m user r
      | SSH_REQUEST_CHANNEL_OPEN true =>
        if negb (has_flag NC_SESSION_SSH_AUTHENTICATED s) then mret true
        else
          ok ← nc_sshcb_channel_open p m;
          _ ← (if ok : bool then mret tt else reply m ReplyDefault);
          mret false
      | SSH_REQUEST_CHANNEL_SUBSYSTEM channel subsystem =>
        if negb (has_flag NC_SESSION_SSH_AUTHENTICATED s) then mret true
        else
          ok ← nc_sshcb_channel_subsystem p channel subsystem;
          _ ← reply m (if ok : bool then ReplyRequestSuccess else ReplyDefault);
          mret false
      | _ => mret true
      end
  end.

(** A message the callback did not process gets the default reply, here and in
    libssh. *)
Definition handle_msg (fuel : nat) (p : positive) (m : ssh_msg key) : AU unit :=
  unprocessed ← nc_sshcb_msg fuel m (Some p);
  if unprocessed : bool then reply m ReplyDefault else mret tt.

Definition session_connected (fuel : nat) (p : positive) : AU bool :=
  s ← get_session p;
  '(b, _) ← on_env (λ w, match nc_session_is_connected fuel (s, w) with
                         | Done (b, (s, w)) => Done ((b, s), w)
                         | NoFuel => NoFuel
                         | Crash => Crash
                         end);
  mret b.

(** The configured methods as flags of libssh. *)
Definition libssh_methods (methods : Z) : Z :=
  Z.lor (if negb (Z.land methods NC_SSH_AUTH_PUBLICKEY =? 0) then 4 else 0)
    (Z.lor (if negb (Z.land methods NC_SSH_AUTH_PASSWORD =? 0) then 2 else 0)
       (if negb (Z.land methods NC_SSH_AUTH_INTERACTIVE =? 0) then 16 else 0)).

(** The loop: 1, 0 after a timeout, -1 on an error. *)
Fixpoint auth_loop (fuel : nat) (p : positive) (o : nc_server_ssh_opts) (ts_timeout : option timespec) : AU Z :=
  match fuel with
  | O => no_fuel
  | S fuel =>
    c ← session_connected fuel p;
    if negb c then mret (-1)
    else
      m ← on_env (call ssh_message_get);
      _ ← match m with Some m => handle_msg fuel p m | None => mret tt end;
      s ← get_session p;
      if has_flag NC_SESSION_SSH_AUTHENTICATED s then mret 1
      else if auth_attempts o <=? ssh_auth_attempts (server s) then mret (-1)
      else
        _ ← on_env (modify (usleep NC_TIMEOUT_STEP));
        match ts_timeout with
        | None => auth_loop fuel p o ts_timeout
        | Some ts =>
          d ← on_env (nc_difftimespec_mono_cur ts);
          if d <? 1 then mret 0 else auth_loop fuel p o ts_timeout
        end
  end.

Definition nc_accept_ssh_session_auth (fuel : nat) (p : positive) (o : nc_server_ssh_opts) : AU Z :=
  _ ← on_env (modify (ssh_set_auth_methods (libssh_methods (auth_methods o))));
  ts ← (if auth_timeout o =? 0 then mret None
        else ts ← on_env (nc_gettimespec_mono_add (auth_timeout o * 1000)); mret (Some ts));
  auth_loop fuel p o ts.

(** ** Opening the channel *)

Fixpoint handle_all (fuel : nat) (p : positive) (l : list (ssh_msg key)) : AU unit :=
  match l with
  | [] => mret tt
  | m :: l => _ ← handle_msg fuel p m; handle_all fuel p l
  end.

Definition ssh_execute_message_callbacks (fuel : nat) (p : positive) : AU bool :=
  l ← on_env (call ssh_queued_messages);
  match l with None => mret false | Some l => _ ← handle_all fuel p l; mret true end.

Definition has_channel (s : nc_session) : bool := match ti s with TiLibssh c _ => c | _ => false end.

Definition open_channel_now (fuel : nat) (p : positive) : AU Z :=
  c ← session_connected fuel p;
  if negb c then mret (-1)
  else
    ok ← ssh_execute_message_callbacks fuel p;
    if negb ok then mret (-1)
    else
      s ← get_session p;
      if negb (has_channel s) then mret 0
      else
        ok ← ssh_execute_message_callbacks fuel p;
        if negb ok then mret (-1)
        else s ← get_session p; mret (if has_flag NC_SESSION_SSH_SUBSYS_NETCONF s then 1 else 0).

Fixpoint open_channel_loop (fuel : nat) (p : positive) (ts_timeout : option timespec) : AU Z :=
  match fuel with
  | O => no_fuel
  | S fuel =>
    c ← session_connected fuel p;
    if negb c then mret (-1)
    else
      ok ← ssh_execute_message_callbacks fuel p;
      if negb ok then mret (-1)
      else
        s ← get_session p;
        if has_channel s && has_flag NC_SESSION_SSH_SUBSYS_NETCONF s then mret 1
        else
          _ ← on_env (modify (usleep NC_TIMEOUT_STEP));
          match ts_timeout with
          | None => open_channel_loop fuel p ts_timeout
          | Some ts =>
            d ← on_env (nc_difftimespec_mono_cur ts);
            if d <? 1 then mret 0 else open_channel_loop fuel p ts_timeout
          end
  end.

Definition nc_accept_ssh_session_open_netconf_channel (fuel : nat) (p : positive) (timeout : Z) : AU Z :=
  if timeout =? 0 then open_channel_now fuel p
  else
    ts ← (if -1 <? timeout then ts ← on_env (nc_gettimespec_mono_add timeout); mret (Some ts) else mret None);
    open_channel_loop fuel p ts.
End handlers.
