(* ===== verification/SshAuthProofs.v ===== *)
(** * SSH authentication: who gets in

    A client is authenticated only with the credentials of the user it named, and it
    has a limited number of guesses. *)

From S2P Require Import Prelude Session Env Time Locks IoRead Capabilities PtrArray SshOpts SessionFree UserDb SshAuth Sim.
From Stdlib Require Import ZArith Ascii String Lia.
From stdpp Require Import base list strings gmap numbers.
Open Scope Z_scope.

(** What the system knows: the user databases, [crypt], a time that has passed, the
    verdicts of PAM, and the public keys that can be read. *)
Class AuthDb (W key : Type) `{!Env W} `{!SshKeys W key} `{!SshAuthEnv W key} := {
  pw_db : bytes → option bytes;
  sp_db : bytes → option spwd;
  crypt_of : bytes → bytes → option bytes;
  time0 : Z;
  pam_knows : option bytes → Prop;
  pam_allows : option bytes → Prop;
  key_of : authkey → option key;
  getpwnam_law u n w : match (getpwnam_r u n w).1 with DbFound e => pw_db u = Some e | _ => True end;
  getspnam_law u n w : match (getspnam_r u n w).1 with DbFound e => sp_db u = Some e | _ => True end;
  crypt_law p h w : (crypt_r p h w).1 = crypt_of p h;
  time_law w : time0 ≤ (sys_time w).1;
  pam_auth_law u w : (pam_authenticate u w).1 = PAM_SUCCESS → pam_knows u;
  pam_acct_law u w : (pam_acct_mgmt u w).1 = PAM_SUCCESS → pam_allows u;
  pam_chauthtok_law u w : (pam_chauthtok u w).1 = PAM_SUCCESS → pam_allows u;
  key_file_law a w k : ak_type a = NC_SSH_KEY_UNKNOWN →
    (ssh_pki_import_pubkey_file (ak_path a) w).1 = Some k → key_of a = Some k;
  key_text_law a w k : ak_type a ≠ NC_SSH_KEY_UNKNOWN →
    (ssh_pki_import_pubkey_base64 (ak_base64 a) (ak_type a) w).1 = Some k → key_of a = Some k;
}.

(** What holds of a result if there is one. *)
Definition post {S A} (m : M S A) (Q : A → S → Prop) (s : S) : Prop :=
  match m s with Done (a, s') => Q a s' | _ => True end.

Lemma post_bind {S A B} (m : M S A) (k : A → M S B) (Q : B → S → Prop) s :
  post m (λ a s', post (k a) Q s') s → post (m ≫= k) Q s.
Proof. unfold post, mbind, M_bind. by destruct (m s) as [[a s']| |]. Qed.

Lemma post_mono {S A} (m : M S A) (Q Q' : A → S → Prop) s :
  post m Q s → (∀ a s', Q a s' → Q' a s') → post m Q' s.
Proof. unfold post. destruct (m s) as [[a s']| |]; auto. Qed.

Lemma post_on_env {S W A} (m : M W A) (Q : A → S * W → Prop) s w :
  post m (λ a w', Q a (s, w')) w → post (on_env m) Q (s, w).
Proof. unfold post, on_env. simpl. by destruct (m w) as [[a w']| |]. Qed.

Lemma post_any {S A} (m : M S A) s : post m (λ _ _, True) s.
Proof. unfold post. by destruct (m s) as [[]| |]. Qed.

Lemma post_call {W A} (f : W → A * W) (Q : A → W → Prop) w : Q (f w).1 (f w).2 → post (call f) Q w.
Proof. unfold post, call. by destruct (f w). Qed.

Lemma post_gets {S A} (f : S → A) (Q : A → S → Prop) s : Q (f s) s → post (gets f) Q s.
Proof. done. Qed.

Lemma post_modify {S} (f : S → S) (Q : unit → S → Prop) s : Q tt (f s) → post (modify f) Q s.
Proof. done. Qed.

Lemma post_ret {S A} (a : A) (Q : A → S → Prop) s : Q a s → post (mret a) Q s.
Proof. done. Qed.

Section credentials.
Context {W key : Type} `{!Env W} `{!SshKeys W key} `{!SshAuthEnv W key} `{!AuthDb W key}.

(** [h] is the hash of the password of the user, whose account has not expired. *)
Definition hash_of (u h : bytes) : Prop :=
  ∃ e, pw_db u = Some e ∧
    if strcmp_eq e (str "x") then
      ∃ sp, sp_db u = Some sp ∧ sp_pwdp sp = Some h ∧ (sp_expire sp ≤ -1 ∨ Z.quot time0 86400 < sp_expire sp)
    else h = e.

Definition password_ok (u pw : bytes) : Prop :=
  ∃ h, hash_of u h ∧ no_password h = false ∧ match h with [] => pw = [] | _ => crypt_of pw h = Some h end.

(** One of the authorized keys of the user is the public key. *)
Definition key_ok (keys : list authkey) (u : bytes) (k : key) : Prop :=
  ∃ a k', a ∈ keys ∧ ak_username a = Some u ∧ key_of a = Some k' ∧ ssh_key_same k k' = true.

(** What gets a client in, for the username of the session. *)
Definition credentials (keys : list authkey) (u : option bytes) (r : auth_request key) : Prop :=
  match r with
  | SSH_AUTH_METHOD_PASSWORD pw =>
    match passwd_auth_clb with
    | Some clb => ∃ s w, username s = u ∧ (clb s pw w).1 = true
    | None => ∃ n, u = Some n ∧ password_ok n pw
    end
  | SSH_AUTH_METHOD_PUBLICKEY k SSH_PUBLICKEY_STATE_VALID =>
    match pubkey_auth_clb with
    | Some clb => ∃ s w, username s = u ∧ (clb s k w).1 = true
    | None => ∃ n, u = Some n ∧ key_ok keys n k
    end
  | SSH_AUTH_METHOD_INTERACTIVE =>
    match interactive_auth_clb with
    | Some clb => ∃ s w, username s = u ∧ (clb s w).1 = 0
    | None => pam_knows u ∧ pam_allows u
    end
  | _ => False
  end.

(** ** The checks *)

Lemma db_lookup_post {A} fuel (get : Z → W → db_result A * W) db n w :
  (∀ n w, match (get n w).1 with DbFound a => db = Some a | _ => True end) →
  post (db_lookup fuel get n) (λ r _, ∀ a, r.1 = Some a → db = Some a) w.
Proof.
  intros Hg. revert n w. induction fuel as [|fuel IH]; intros n w; [done|]. cbn [db_lookup]. apply post_bind.
  unfold call, post at 1. specialize (Hg n w). destruct (get n w) as [r w1]. cbn [fst] in Hg.
  destruct r as [a| |]; [intros a' [= <-]; done| |by intros a].
  apply post_bind. unfold post at 1, call. destruct (malloc_ok _ w1) as [[] w2]; [apply IH|by intros a].
Qed.

Lemma entry_hash_post fuel u e n w :
  pw_db u = Some e → post (entry_hash fuel u e n) (λ r _, ∀ h, r = Some h → hash_of u h) w.
Proof.
  intros He. unfold entry_hash, hash_of. destruct (strcmp_eq e (str "x")) eqn:Ex.
  2: { intros h [= <-]. exists e. by rewrite Ex. }
  apply post_bind. eapply post_mono; [apply (db_lookup_post fuel (getspnam_r u) (sp_db u)); intros; apply getspnam_law|].
  intros [[sp|] m] w1 Hs; [|by intros h]. specialize (Hs sp eq_refl). destruct (Z.ltb_spec (-1) (sp_expire sp)).
  - apply post_bind, post_call. intros h E. destruct (Z.leb_spec (sp_expire sp) (Z.quot (sys_time w1).1 (60 * 60 * 24))); [done|].
    exists e. rewrite Ex. split; [done|]. exists sp. split_and!; [done..|right].
    eapply Z.le_lt_trans; [|eassumption]. apply Z.quot_le_mono; [lia|apply time_law].
  - intros h E. exists e. rewrite Ex. split; [done|]. exists sp. split_and!; [done..|left; lia].
Qed.

Lemma hash_post fuel u w : post (auth_password_get_pwd_hash fuel u)
  (λ r _, ∀ h, r = Some h → ∃ n, u = Some n ∧ hash_of n h ∧ no_password h = false) w.
Proof.
  apply post_bind, post_call. destruct (negb _); [by intros h|]. destruct u as [u|]; [|done].
  apply post_bind. eapply post_mono; [apply (db_lookup_post fuel (getpwnam_r u) (pw_db u)); intros; apply getpwnam_law|].
  intros [[e|] n] w1 He; [|by intros h]. specialize (He e eq_refl). apply post_bind.
  eapply post_mono; [by apply entry_hash_post|]. intros [h|] w2 Hh; [|by intros h'].
  destruct (no_password h) eqn:En; [by intros h'|]. apply post_bind, post_call. intros h' E.
  destruct (malloc_ok _ w2).1; simplify_eq. exists u. auto.
Qed.

Lemma compare_pwd_post h pw w : post (auth_password_compare_pwd h pw)
  (λ b _, b = true → match h with [] => pw = [] | _ => crypt_of pw h = Some h end) w.
Proof.
  destruct h as [|c h]; [by destruct pw|]. apply post_bind, post_call. rewrite crypt_law. intros E.
  destruct (crypt_of pw (c :: h)) as [h'|]; [|done]. unfold strcmp_eq in E. apply bool_decide_eq_true in E. congruence.
Qed.

Lemma pam_post u w : post (nc_pam_auth u) (λ r _, r = PAM_SUCCESS → pam_knows u ∧ pam_allows u) w.
Proof.
  apply post_bind, post_call. case_bool_decide as E0; cbn [negb]; [|by intros E].
  apply post_bind, post_call. case_bool_decide as E1; cbn [negb]; [|by intros E]. apply pam_auth_law in E1.
  apply post_bind, post_call. destruct (pam_acct_mgmt u _) as [r w1] eqn:E2. cbn [fst snd].
  assert (Ha : r = PAM_SUCCESS → pam_allows u) by (intros ->; eapply pam_acct_law; by rewrite E2).
  destruct r; try (by intros E); cbn.
  - intros _. auto.
  - apply post_call. intros E. split; [done|]. by apply pam_chauthtok_law in E.
Qed.

Lemma compare_keys_post n i k st w :
  post (compare_keys n i k) (λ u s', s'.1 = st ∧ ∀ x, u = Some x → key_ok (default [] (authkeys st)) x k) (st, w).
Proof.
  revert i w. induction n as [|n IH]; intros i w; [done|]. cbn [compare_keys].
  apply post_bind. unfold authkey_at at 1. apply post_bind, post_gets. cbn [fst].
  destruct (authkeys st) as [keys|]; [|done]. destruct (keys !! Z.to_nat i) as [a|] eqn:Ea; [|done].
  apply post_ret, post_bind, post_on_env, post_call.
  assert (Hl : ∀ pub, (match ak_type a with
      | NC_SSH_KEY_UNKNOWN => ssh_pki_import_pubkey_file (ak_path a)
      | t => ssh_pki_import_pubkey_base64 (ak_base64 a) t
      end w).1 = Some pub → key_of a = Some pub).
  { intros pub E. destruct (ak_type a) eqn:Et; [by eapply key_file_law|..]; eapply key_text_law; rewrite ?Et; done. }
  destruct (_.1) as [pub|] eqn:Ep; [|apply IH]. specialize (Hl pub eq_refl).
  destruct (ssh_key_same k pub) eqn:Es; [|apply IH]. split; [done|]. intros x Hx. exists a, pub.
  split; [by eapply list_elem_of_lookup_2|done].
Qed.

Lemma compare_key_post k st w :
  post (auth_pubkey_compare_key k) (λ u s', s'.1 = st ∧ ∀ x, u = Some x → key_ok (default [] (authkeys st)) x k) (st, w).
Proof.
  apply post_bind. unfold ak_lock. apply post_bind, post_gets. cbn [fst]. destruct (authkey_held st) eqn:Eh; [done|].
  apply post_modify. apply post_bind, post_gets. cbn [fst snd authkey_count].
  apply post_bind. eapply post_mono; [apply compare_keys_post|]. intros u [st' w'] [E Hu]. cbn [fst snd] in *. subst st'.
  apply post_bind, post_modify, post_ret. split; [|done]. cbn. rewrite <- Eh. by destruct st.
Qed.

(** ** One message *)

(** A request that got in, for the username of the session. *)
Definition granted (keys : list authkey) (u : option bytes) (tr : list (ssh_msg key * ssh_reply)) : Prop :=
  ∃ user r, (SSH_REQUEST_AUTH user r, ReplyAuthSuccess) ∈ tr ∧ credentials keys u r ∧
    (∀ x y, u = Some x → user = Some y → x = y).

Definition authenticated (s : nc_session) : bool := has_flag NC_SESSION_SSH_AUTHENTICATED s.

(** What a message may do to a session that is not authenticated. *)
Definition auth_step (p : positive) (s : nc_session) (c : option Z) (st st' : ssh_srv key) : Prop :=
  sv_keys st' = sv_keys st ∧ ∃ s', sv_store st' !! p = Some (s', c) ∧ (username s = username s' ∨ username s = None) ∧
    0 ≤ ssh_auth_attempts (server s') ≤ ssh_auth_attempts (server s) + 1 ∧
    (authenticated s' = true → granted (default [] (authkeys (sv_keys st))) (username s') (sv_trace st')).

Lemma post_session p s c (Q : nc_session → ssh_srv key * W → Prop) st :
  sv_store st.1 !! p = Some (s, c) → Q s st → post (get_session p) Q st.
Proof. intros Hs HQ. apply post_bind, post_gets. by rewrite Hs. Qed.

Lemma success_post p s c st (w : W) user r :
  let m := SSH_REQUEST_AUTH user r in
  sv_store st !! p = Some (s, c) → 0 ≤ ssh_auth_attempts (server s) →
  credentials (default [] (authkeys (sv_keys st))) (username s) r →
  (∀ x y, username s = Some x → user = Some y → x = y) →
  post (auth_success p m) (λ _ st', auth_step p s c st st'.1) (st, w).
Proof.
  intros m Hs H0 Hc Hu. apply post_bind, post_modify, post_modify. split; [done|].
  exists (add_flag NC_SESSION_SSH_AUTHENTICATED s). cbn [fst sv_store]. rewrite lookup_alter_eq, Hs. split_and!; [done|by left|cbn; lia..|].
  intros _. exists user, r. split; [constructor|done].
Qed.

Lemma failure_post p s c st (w : W) m :
  sv_store st !! p = Some (s, c) → 0 ≤ ssh_auth_attempts (server s) → authenticated s = false →
  post (auth_failure p m) (λ _ st', auth_step p s c st st'.1) (st, w).
Proof.
  intros Hs H0 Ha. apply post_bind, post_modify, post_modify. split; [done|].
  exists (count_attempt s). cbn [fst sv_store]. rewrite lookup_alter_eq, Hs. split_and!; [done|by left| | |].
  - cbn. unfold u16. apply Z.mod_pos_bound. lia.
  - cbn. unfold u16. apply Z.mod_le; lia.
  - change (authenticated (count_attempt s)) with (authenticated s). by rewrite Ha.
Qed.

(** Nothing happened but a reply. *)
Lemma step_same p s c st tr : sv_store st !! p = Some (s, c) → 0 ≤ ssh_auth_attempts (server s) → authenticated s = false →
  auth_step p s c st (SshSrv (sv_store st) (sv_keys st) tr).
Proof. intros Hs H0 Ha. split; [done|]. exists s. split_and!; [done|by left|lia..|by rewrite Ha]. Qed.

Section message.
Context (p : positive) (s : nc_session) (c : option Z) (st : ssh_srv key) (user : option bytes).
Hypothesis Hs : sv_store st !! p = Some (s, c).
Hypothesis H0 : 0 ≤ ssh_auth_attempts (server s).
Hypothesis Ha : authenticated s = false.
Hypothesis Hu : ∀ x y, username s = Some x → user = Some y → x = y.

Abbreviation stepped := (λ _ (st' : ssh_srv key * W), auth_step p s c st st'.1).

Lemma password_post fuel pw w :
  post (nc_sshcb_auth_password fuel p (SSH_REQUEST_AUTH user (SSH_AUTH_METHOD_PASSWORD pw)) pw) stepped (st, w).
Proof.
  apply post_bind. eapply post_session; [exact Hs|]. apply post_bind.
  assert (Hend : ∀ ok w', (ok = true → credentials (default [] (authkeys (sv_keys st))) (username s) (SSH_AUTH_METHOD_PASSWORD pw)) →
    post (if ok : bool then auth_success p (SSH_REQUEST_AUTH user (SSH_AUTH_METHOD_PASSWORD pw)) 
          else auth_failure p (SSH_REQUEST_AUTH user (SSH_AUTH_METHOD_PASSWORD pw))) stepped (st, w')).
  { intros [] w' Hc; [by apply success_post; auto|by apply failure_post]. }
  unfold credentials in Hend. destruct passwd_auth_clb as [clb|].
  - apply post_on_env, post_call, Hend. intros E. by exists s, w.
  - apply post_bind, post_on_env. eapply post_mono; [apply hash_post|]. intros [h|] w1 Hh; [|by apply (Hend false)].
    apply post_on_env. eapply post_mono; [apply compare_pwd_post|]. intros b w2 Hb. apply Hend. intros ->.
    destruct (Hh h eq_refl) as (n & Hn & H1 & H2). exists n. split; [done|]. exists h. split_and!; [done..|by apply Hb].
Qed.

Lemma kbdint_post w :
  post (nc_sshcb_auth_kbdint p (SSH_REQUEST_AUTH user SSH_AUTH_METHOD_INTERACTIVE)) stepped (st, w).
Proof.
  apply post_bind. eapply post_session; [exact Hs|]. apply post_bind.
  assert (Hend : ∀ r w', (r = 0 → credentials (default [] (authkeys (sv_keys st))) (username s) SSH_AUTH_METHOD_INTERACTIVE) →
    post (if r =? -1 then mret tt else if r =? 0 then auth_success p (SSH_REQUEST_AUTH user SSH_AUTH_METHOD_INTERACTIVE)
          else auth_failure p (SSH_REQUEST_AUTH user SSH_AUTH_METHOD_INTERACTIVE)) stepped (st, w')).
  { intros r w' Hc. destruct (r =? -1). { apply post_ret. destruct st. by apply step_same. }
    destruct (Z.eqb_spec r 0); [by apply success_post; auto|by apply failure_post]. }
  unfold credentials in Hend. destruct interactive_auth_clb as [clb|].
  - apply post_on_env, post_call, Hend. intros E. by exists s, w.
  - apply post_bind, post_on_env. eapply post_mono; [apply pam_post|]. intros r w1 Hr. apply (Hend (if bool_decide (r = PAM_SUCCESS) then 0 else 1)).
    case_bool_decide; [auto|lia].
Qed.

Lemma pubkey_post k state w :
  post (nc_sshcb_auth_pubkey p (SSH_REQUEST_AUTH user (SSH_AUTH_METHOD_PUBLICKEY k state)) k state) stepped (st, w).
Proof.
  apply post_bind. eapply post_session; [exact Hs|]. apply post_bind.
  assert (Hend : ∀ ok w', (ok = true → state = SSH_PUBLICKEY_STATE_VALID →
      credentials (default [] (authkeys (sv_keys st))) (username s) (SSH_AUTH_METHOD_PUBLICKEY k state)) →
    post (if negb ok then auth_failure p (SSH_REQUEST_AUTH user (SSH_AUTH_METHOD_PUBLICKEY k state)) else
      match state with
      | SSH_PUBLICKEY_STATE_VALID => auth_success p (SSH_REQUEST_AUTH user (SSH_AUTH_METHOD_PUBLICKEY k state))
      | SSH_PUBLICKEY_STATE_NONE => reply (SSH_REQUEST_AUTH user (SSH_AUTH_METHOD_PUBLICKEY k state)) ReplyPkOk
      | _ => mret tt
      end) stepped (st, w')).
  { intros [] w' Hc; cbn [negb]; [|by apply failure_post]. destruct state.
    1, 4: apply post_ret; destruct st; by apply step_same.
    - by apply step_same.
    - by apply success_post; auto. }
  destruct pubkey_auth_clb as [clb|] eqn:Eclb.
  - apply post_on_env, post_call, Hend. intros E ->. cbn. rewrite Eclb. by exists s, w.
  - apply post_bind. unfold on_keys, post at 1. cbn [fst snd].
    pose proof (compare_key_post k (sv_keys st) w) as Hp. unfold post in Hp.
    destruct (auth_pubkey_compare_key k (sv_keys st, w)) as [[u [ks w1]]| |]; [|done..].
    destruct Hp as [E Hk]. cbn [fst snd] in *. subst ks. destruct st as [sto ks tr]. cbn [sv_store sv_keys sv_trace] in *.
    destruct u as [u|]; [|by apply (Hend false)]. destruct (username s) as [n|] eqn:En; [|done].
    apply (Hend (strcmp_eq n u)). intros Ee ->. unfold credentials. rewrite Eclb. exists n. split; [done|].
    unfold strcmp_eq in Ee. apply bool_decide_eq_true in Ee as ->. by apply Hk.
Qed.

Lemma method_post fuel r w : post (auth_method fuel p (SSH_REQUEST_AUTH user r) r) stepped (st, w).
Proof.
  destruct r; cbn [auth_method]; try (apply post_ret; destruct st; by apply step_same); apply post_bind.
  - eapply post_mono; [apply password_post|]. done.
  - eapply post_mono; [apply pubkey_post|]. done.
  - eapply post_mono; [apply kbdint_post|]. done.
Qed.
End message.

(** A step after a change of the session that does not matter here. *)
Lemma step_from p s s1 c st st1 st' :
  server s1 = server s → (username s = username s1 ∨ username s = None) → sv_keys st1 = sv_keys st →
  auth_step p s1 c st1 st' → auth_step p s c st st'.
Proof.
  intros E1 Hn E2 (Hk & s' & Hs & Hn' & Ha & Hg). split; [congruence|]. exists s'. rewrite E1, E2 in *.
  split_and!; [done| |lia..|done]. destruct Hn as [->|]; [done|by right].
Qed.

Lemma step_reply p s c st st' m r :
  auth_step p s c st st' → auth_step p s c st (SshSrv (sv_store st') (sv_keys st') ((m, r) :: sv_trace st')).
Proof.
  intros (Hk & s' & Hs & Hn & Ha & Hg). split; [done|]. exists s'. split_and!; [done..|lia|lia|].
  intros E. destruct (Hg E) as (u & q & Hin & H). exists u, q. split; [by right|done].
Qed.

Lemma auth_msg_post fuel p s c st user r w :
  sv_store st !! p = Some (s, c) → 0 ≤ ssh_auth_attempts (server s) → authenticated s = false →
  post (auth_msg fuel p (SSH_REQUEST_AUTH user r) user r) (λ _ st', auth_step p s c st st'.1) (st, w).
Proof.
  intros Hs H0 Ha. apply post_bind. eapply post_session; [exact Hs|]. unfold authenticated in Ha. rewrite Ha.
  destruct (username s) as [n|] eqn:En, user as [u|].
  - destruct (strcmp_eq u n) eqn:Eu; cbn [negb].
    + unfold strcmp_eq in Eu. apply bool_decide_eq_true in Eu as ->. apply method_post; try done. intros x y E. congruence.
    + apply post_bind, post_modify, post_ret. cbn [fst]. split; [done|]. exists (invalidate NC_SESSION_TERM_OTHER s).
      cbn [sv_store]. rewrite lookup_alter_eq, Hs. split_and!; [done|by left|cbn; lia..|].
      change (authenticated (invalidate NC_SESSION_TERM_OTHER s)) with (authenticated s). unfold authenticated. by rewrite Ha.
  - apply method_post; done.
  - apply post_bind, post_on_env. apply post_bind, post_call, post_ret. set (d := if _ : bool then _ else _).
    apply post_bind, post_modify. cbn [fst snd]. eapply post_mono; [apply (method_post p (set_username d s) c)|].
    + cbn [sv_store]. by rewrite lookup_alter_eq, Hs.
    + done.
    + done.
    + intros x y E1 E2. simpl in E1. subst d. destruct (_.1); congruence.
    + intros b st' H. eapply step_from; [..|exact H]; [done|by right|done].
  - apply post_ret. destruct st. by apply step_same.
Qed.

Lemma flag_other f g s : Z.land g f = 0 → has_flag f (add_flag g s) = has_flag f s.
Proof. intros E. unfold has_flag, add_flag. cbn [flags set_flags]. by rewrite Z.land_lor_distr_l, E, Z.lor_0_r. Qed.

Lemma handle_msg_post fuel p s c st m w :
  sv_store st !! p = Some (s, c) → 0 ≤ ssh_auth_attempts (server s) → authenticated s = false →
  post (handle_msg fuel p m) (λ _ st', auth_step p s c st st'.1) (st, w).
Proof.
  intros Hs H0 Ha. apply post_bind.
  assert (Hend : ∀ (b : bool) st' (w' : W), auth_step p s c st st' →
    post (if b then reply m ReplyDefault else mret tt) (λ _ st', auth_step p s c st st'.1) (st', w')).
  { intros [] st' w' H; [apply post_modify; by apply step_reply|by apply post_ret]. }
  unfold nc_sshcb_msg. apply post_bind. eapply post_session; [exact Hs|]. destruct (_ || _).
  { apply post_bind, post_modify, post_ret. cbn [fst snd]. by apply (Hend false), step_same. }
  apply post_bind, post_modify. cbn [fst snd]. set (st1 := SshSrv _ _ _). set (s1 := add_flag NC_SESSION_SSH_NEW_MSG s).
  assert (Hs1 : sv_store st1 !! p = Some (s1, c)) by (cbn [st1 sv_store]; by rewrite lookup_alter_eq, Hs).
  assert (Ha1 : authenticated s1 = false) by (unfold authenticated, s1 in *; by rewrite flag_other).
  assert (Hsame : auth_step p s c st st1).
  { eapply (step_from p s s1 c st st1); [done|by left|done|]. by apply (step_same p s1 c st1 (sv_trace st1)). }
  unfold authenticated in Ha. destruct m as [user r|[]|channel sub| | | |]; rewrite ?Ha; cbn [negb];
    try (by apply (Hend true)).
  eapply post_mono; [by apply (auth_msg_post fuel p s1 c st1)|]. intros b [st' w'] H. apply Hend.
  eapply step_from; [..|exact H]; [done|by left|done].
Qed.

(** ** The loop *)

(** The outcome of the authentication of session [p]. *)
Definition auth_outcome (p : positive) (s : nc_session) (c : option Z) (o : nc_server_ssh_opts) (st : ssh_srv key) (r : Z)
    (st' : ssh_srv key) : Prop :=
  sv_keys st' = sv_keys st ∧ ∃ s', sv_store st' !! p = Some (s', c) ∧ (username s = username s' ∨ username s = None) ∧
    ssh_auth_attempts (server s') ≤ auth_attempts o ∧
    (r = 1 → authenticated s' = true ∧ granted (default [] (authkeys (sv_keys st))) (username s') (sv_trace st')) ∧
    (r ≠ 1 → authenticated s' = false).

Lemma connected_post fuel p s c (st : ssh_srv key) w :
  sv_store st !! p = Some (s, c) → post (session_connected fuel p) (λ _ st', st'.1 = st) (st, w).
Proof.
  intros Hs. apply post_bind. eapply post_session; [exact Hs|]. apply post_bind, post_on_env. eapply post_mono; [apply post_any|].
  by intros [b s'] w' _.
Qed.

Lemma outcome_stays p s c o st r :
  sv_store st !! p = Some (s, c) → ssh_auth_attempts (server s) ≤ auth_attempts o → authenticated s = false → r ≠ 1 →
  auth_outcome p s c o st r st.
Proof. intros Hs Hb Ha Hr. split; [done|]. exists s. split_and!; [done|by left|done|done|done]. Qed.

Lemma outcome_trans p s s1 c o st st1 r st' :
  sv_keys st1 = sv_keys st → (username s = username s1 ∨ username s = None) →
  auth_outcome p s1 c o st1 r st' → auth_outcome p s c o st r st'.
Proof.
  intros E Hn (Hk & s' & Hs & Hn' & H). split; [congruence|]. exists s'. rewrite E in H. split_and!; [done| |apply H..].
  destruct Hn as [->|]; [done|by right].
Qed.

Lemma auth_loop_post fuel p o ts : ∀ s c st w,
  sv_store st !! p = Some (s, c) → 0 ≤ ssh_auth_attempts (server s) < auth_attempts o → authenticated s = false →
  post (auth_loop fuel p o ts) (λ r st', auth_outcome p s c o st r st'.1) (st, w).
Proof.
  induction fuel as [|fuel IH]; intros s c st w Hs Hb Ha; [done|]. cbn [auth_loop]. apply post_bind.
  eapply post_mono; [by apply (connected_post fuel p s c)|]. intros b [st0 w1] E. cbn [fst] in E. subst st0.
  destruct b; cbn [negb]; [|apply post_ret, outcome_stays; [done..|lia|done|lia]].
  apply post_bind, post_on_env, post_call. apply post_bind.
  eapply (post_mono _ (λ _ st', auth_step p s c st st'.1)).
  { destruct (ssh_message_get w1).1 as [m|]; [apply handle_msg_post; [done|lia|done]|apply post_ret].
    destruct st. apply step_same; [done|lia|done]. }
  intros _ [st1 w2] (Hk & s1 & Hs1 & Hn & Hb1 & Hg). cbn [fst] in *. apply post_bind.
  eapply post_session; [exact Hs1|]. destruct (has_flag _ s1) eqn:Ea.
  { apply post_ret. split; [done|]. exists s1. split_and!; [done..|lia| |done]. intros _. auto. }
  assert (Hnext : ∀ r, r ≠ 1 → auth_outcome p s c o st r st1).
  { intros r Hr. eapply outcome_trans; [done..|]. apply outcome_stays; [done|lia|done..]. }
  assert (Hrec : ∀ w', ssh_auth_attempts (server s1) < auth_attempts o →
    post (auth_loop fuel p o ts) (λ r st', auth_outcome p s c o st r st'.1) (st1, w')).
  { intros w' Hlt. eapply post_mono; [apply (IH s1 c st1 w'); [done|lia|done]|]. intros a st'. by apply outcome_trans. }
  destruct (Z.leb_spec (auth_attempts o) (ssh_auth_attempts (server s1))).
  { apply post_ret, Hnext. lia. }
  apply post_bind, post_on_env, post_modify. destruct ts as [ts|]; [|by apply Hrec].
  apply post_bind, post_on_env. eapply post_mono; [apply post_any|]. intros d w3 _.
  destruct (d <? 1); [apply post_ret, Hnext; lia|by apply Hrec].
Qed.
End credentials.

(** ** An example

    A client that sends requests as the user "bob": the next byte of the input says
    which.  The password of "bob" is "secret", and "key" is authorized for the user. *)

Definition bob : bytes := str "bob".

Definition demo_request (c : ascii) : ssh_msg bytes :=
  SSH_REQUEST_AUTH (Some bob)
    (if bool_decide (c = "s"%char) then SSH_AUTH_METHOD_PASSWORD (str "secret")
     else if bool_decide (c = "k"%char) then SSH_AUTH_METHOD_PUBLICKEY (str "key") SSH_PUBLICKEY_STATE_VALID
     else SSH_AUTH_METHOD_PASSWORD (str "guess")).

Definition demo_crypt (pw h : bytes) : option bytes := Some (if bool_decide (pw = str "secret") then str "$1$" else str "$2$").

#[export] Instance demo_keys : SshKeys (sim true true) bytes := {
  ssh_pki_import_pubkey_file f w := (None, w);
  ssh_pki_import_pubkey_base64 b t w := (b, w);
  ssh_key_same k k' := bool_decide (k = k');
}.

#[export] Instance demo_auth : SshAuthEnv (sim true true) bytes := {
  passwd_auth_clb := None;
  pubkey_auth_clb := None;
  interactive_auth_clb := None;
  getpwnam_r u n w := (if n <? 1000 then DbRange else if bool_decide (u = bob) then DbFound (str "x") else DbNone, w);
  getspnam_r u n w := (if bool_decide (u = bob) then DbFound (Spwd (Some (str "$1$")) (-1)) else DbNone, w);
  sys_time w := (1000000, w);
  crypt_r p h w := (demo_crypt p h, w);
  pam_start u w := (PAM_OTHER, w);
  pam_authenticate u w := (PAM_OTHER, w);
  pam_acct_mgmt u w := (PAM_OTHER, w);
  pam_chauthtok u w := (PAM_OTHER, w);
  ssh_message_get w :=
    match sim_in w with [] => (None, w) | c :: l => (Some (demo_request c), Sim l (sim_out w) (sim_now w)) end;
  ssh_queued_messages w := (Some [], w);
  ssh_channel_accept w := (Some 1, w);
  ssh_set_auth_methods m w := w;
  ssh_interactive_request p e w := (true, w);
  ssh_kbdint_nanswers w := (0, w);
  ssh_kbdint_answer i w := ([], w);
}.

#[export] Instance demo_db : AuthDb (sim true true) bytes.
Proof.
  refine {| pw_db u := if bool_decide (u = bob) then Some (str "x") else None;
            sp_db u := if bool_decide (u = bob) then Some (Spwd (Some (str "$1$")) (-1)) else None;
            crypt_of := demo_crypt; time0 := 0; pam_knows u := False; pam_allows u := False; key_of a := ak_base64 a |};
    try done.
  - intros u n w. cbn. destruct (_ <? _); [done|]. by destruct (bool_decide _).
  - intros u n w. cbn. by destruct (bool_decide _).
Defined.

Definition demo_session : nc_session := set_ti (TiLibssh false None) (set_status NC_STATUS_STARTING zero_session).

Definition demo_srv : ssh_srv bytes :=
  SshSrv {[1%positive := (demo_session, None)]}
    (AuthkeysState (Some [Authkey None (Some (str "key")) NC_SSH_KEY_RSA (Some bob)]) 1 false) [].

Definition demo_login (methods : Z) (input : string) : outcome (Z * (ssh_srv bytes * sim true true)) :=
  nc_accept_ssh_session_auth 20 1 (SshOpts None 0 methods 3 30) (demo_srv, Sim (str input) [] 0).

(** Two guesses and the password. *)
Definition demo_done : Z * (ssh_srv bytes * sim true true) :=
  Eval vm_compute in match demo_login NC_SSH_AUTH_PUBLICKEY "xxs" with Done x => x | _ => (0, (demo_srv, Sim [] [] 0)) end.



Definition with_methods (m : Z) (o : nc_server_ssh_opts) : nc_server_ssh_opts :=
  SshOpts (hostkeys o) (hostkey_count o) m (auth_attempts o) (auth_timeout o).

Lemma bind_ext {S A B} (m : M S A) (k k' : A → M S B) s : (∀ a s, k a s = k' a s) → (m ≫= k) s = (m ≫= k') s.
Proof. intros H. unfold mbind, M_bind. destruct (m s) as [[a s']| |]; auto. Qed.

Lemma bind_ext_l {S A B} (m m' : M S A) (k k' : A → M S B) s :
  m s = m' s → (∀ a s, k a s = k' a s) → (m ≫= k) s = (m' ≫= k') s.
Proof. intros E H. unfold mbind, M_bind. rewrite E. destruct (m' s) as [[a s']| |]; auto. Qed.

Lemma auth_loop_methods {W key} `{!Env W} `{!SshKeys W key} `{!SshAuthEnv W key} fuel p o m ts : ∀ st : ssh_srv key * W,
  auth_loop fuel p (with_methods m o) ts st = auth_loop fuel p o ts st.
Proof.
  induction fuel as [|fuel IH]; intros st; [done|]. cbn [auth_loop]. apply bind_ext. intros [] st1; [|done].
  cbn [negb]. apply bind_ext. intros x st2. apply bind_ext. intros [] st3. apply bind_ext. intros s st4.
  destruct (has_flag _ s); [done|]. change (auth_attempts (with_methods m o)) with (auth_attempts o).
  destruct (_ <=? _); [done|]. apply bind_ext. intros [] st5. destruct ts as [ts|]; [|apply IH].
  apply bind_ext. intros d st6. destruct (d <? 1); [done|apply IH].
Qed.

(** The authentication methods configured for an endpoint are only announced.  With
    a client that does not care what the server announces, authentication goes the same
    way whatever the configured methods are: a password gets in where only public keys
    are enabled. *)
Theorem ssh_methods_ignored {W key} `{!Env W} `{!SshKeys W key} `{!SshAuthEnv W key} fuel p o m (st : ssh_srv key) (w : W) :
  (∀ m m' (w : W), ssh_set_auth_methods m w = ssh_set_auth_methods m' w) →
  nc_accept_ssh_session_auth fuel p (with_methods m o) (st, w) = nc_accept_ssh_session_auth fuel p o (st, w).
Proof.
  intros H. unfold nc_accept_ssh_session_auth.
  apply bind_ext_l.
  - unfold on_env, modify. cbn. by rewrite (H _ (libssh_methods (auth_methods o))).
  - intros [] st1. apply bind_ext. intros ts st2. apply auth_loop_methods.
Qed.

Lemma ssh_methods_ignored_witness : ∃ x,
  demo_login (Z.lor NC_SSH_AUTH_PUBLICKEY NC_SSH_AUTH_PASSWORD) "s" = Done (1, x) ∧
  demo_login NC_SSH_AUTH_PUBLICKEY "s" = demo_login (Z.lor NC_SSH_AUTH_PUBLICKEY NC_SSH_AUTH_PASSWORD) "s".
Proof.
  eexists. split; [vm_compute; reflexivity|].
  apply (ssh_methods_ignored (W := sim true true) (key := bytes) 20 1
    (SshOpts None 0 (Z.lor NC_SSH_AUTH_PUBLICKEY NC_SSH_AUTH_PASSWORD) 3 30) NC_SSH_AUTH_PUBLICKEY demo_srv (Sim (str "s") [] 0)).
  reflexivity.
Defined.
