(* ===== verification/SshChannels.v ===== *)
(** * Sessions on further channels

    A client may open more channels of its SSH session and ask for the subsystem
    "netconf" on them; the new sessions join the ring of sessions. *)

From S2P Require Import Prelude Session Env Time Locks IoRead Capabilities PtrArray SshOpts SessionFree FreeProofs SshAuth Sim.
From S2P Require Import SshAuthProofs.
From Stdlib Require Import ZArith Ascii String Lia.
From stdpp Require Import base list strings gmap numbers.
Open Scope Z_scope.

Section join.
Context {W key : Type} `{!Env W} `{!SshKeys W key} `{!SshAuthEnv W key}.
Implicit Types m : gmap positive (nc_session * option Z).

(** The new session [q] is put behind [p]. *)
Lemma join_ring m p q s c new cq l :
  rest_ring m (p :: l) → m !! p = Some (s, c) → m !! q = None →
  ti new = TiLibssh true (Some (default p (ssh_link s))) →
  rest_ring (<[q := (new, cq)]> (upd_next p (Some q) m)) (p :: q :: l).
Proof.
  intros Hr Hp Hq Ht. assert (Hne : p ≠ q) by congruence.
  assert (Hnq : ∀ o, next_is m p o → o = ssh_link s).
  { intros o (s' & w & ch & E & Et). rewrite Hp in E. injection E as <- <-. unfold ssh_link. by rewrite Et. }
  assert (Hpn : ∀ o, next_is m p o → next_is (<[q := (new, cq)]> (upd_next p (Some q) m)) p (Some q)).
  { intros o H. destruct (upd_next_is m p (Some q) o H) as (s' & w & ch & E & Et). exists s', w, ch.
    rewrite lookup_insert_ne by done. done. }
  assert (Hqn : next_is (<[q := (new, cq)]> (upd_next p (Some q) m)) q (Some (default p (ssh_link s)))).
  { exists new, cq, true. by rewrite lookup_insert_eq. }
  destruct l as [|x l].
  - cbn [rest_ring] in Hr. pose proof (Hnq _ Hr) as E. rewrite <- E in Hqn. split; [split; [by eapply Hpn|done]|].
    repeat constructor; set_solver.
  - destruct Hr as [[Hx Hch] Hnd]. pose proof (Hnq _ Hx) as E. rewrite <- E in Hqn.
    assert (Hql : q ∉ x :: l).
    { intros H. destruct (chain_lookup _ _ _ _ _ Hch H) as (o & s' & w & ch & E' & _). congruence. }
    split; [split; [by eapply Hpn|split; [done|]]|].
    + eapply chain_frame; [|exact Hch]. intros y Hy. rewrite lookup_insert_ne by (by intros ->).
      apply upd_next_lookup_ne. intros ->. by apply list.NoDup_cons in Hnd as [? _].
    + apply list.NoDup_cons in Hnd as [Hn1 Hn2]. constructor; [set_solver|]. by constructor.
Qed.

(** What a session on channel [c] of an authenticated client looks like. *)
Definition channel_session (s new : nc_session) (u h : option bytes) : Prop :=
  status new = NC_STATUS_STARTING ∧ authenticated new = true ∧ has_flag NC_SESSION_SSH_SUBSYS_NETCONF new = true ∧
  username new = u ∧ host new = h ∧ port new = port s.

(** [q] is a new session on the channel, behind [p]. *)
Definition joined (p : positive) (l : list positive) (channel : Z) (s : nc_session) (u h : option bytes) (st st' : ssh_srv key)
    : Prop :=
  ∃ q n, sv_store st !! q = None ∧ rest_ring (sv_store st') (p :: q :: l) ∧ sv_store st' !! q = Some (n, Some channel) ∧
    channel_session s n u h ∧ (∀ x, x ≠ p → x ≠ q → sv_store st' !! x = sv_store st !! x).

Lemma new_channel_ok F p channel s c new u h l (st : ssh_srv key) (w : W) :
  rest_ring (sv_store st) (p :: l) → sv_store st !! p = Some (s, c) →
  wpx F (new_channel_session p channel s new u h) (λ _ sw, joined p l channel s u h st sw.1) (st, w).
Proof.
  intros Hr Hp. apply wpx_bind, wpx_gets. cbv zeta. apply wpx_modify. exists (fresh (dom (sv_store st))). eexists.
  assert (Hq : sv_store st !! fresh (dom (sv_store st)) = None) by (apply not_elem_of_dom, is_fresh).
  cbn [sv_store fst]. split_and!.
  - done.
  - by eapply join_ring.
  - by rewrite lookup_insert_eq.
  - done.
  - intros x Hxp Hxq. rewrite lookup_insert_ne by congruence. by apply upd_next_lookup_ne.
Qed.

(** A copy of a string, or none. *)
Lemma wpx_strdup F t (Q : option bytes → ssh_srv key * W → Prop) st w :
  (∀ d w', d ∈ [Some t; None] → Q d (st, w')) → wpx F (on_env (strdup t)) Q (st, w).
Proof.
  intros HQ. apply wpx_on_env. apply wpx_bind, wpx_call, wpx_ret, HQ. destruct (malloc_ok _ w).1; set_solver.
Qed.
End join.


Definition demo_authenticated : nc_session :=
  add_flag NC_SESSION_SSH_AUTHENTICATED (set_host_port (Some (str "10.0.0.1")) 22 (set_username (Some bob)
    (set_ti (TiLibssh true None) (set_status NC_STATUS_RUNNING zero_session)))).

Definition demo_ssh : ssh_srv bytes := SshSrv {[1%positive := (demo_authenticated, Some 7)]} (AuthkeysState None 0 false) [].

