(* ===== verification/ClientRpc.v ===== *)
(** * RPC objects of the client

    The constructors and the destructor of [struct nc_rpc] (src/messages_client.c)
    on a heap of C strings, arrays of strings, data trees and RPC structures.
    A parameter is shared with the caller, taken over, or copied, as the
    [NC_PARAMTYPE] argument says.  Using or freeing a pointer that is not
    allocated, [NULL] included where the code dereferences it, crashes. *)

From S2P Require Import Prelude Session Env IoWrite.
From Stdlib Require Import ZArith Ascii String Lia.
From stdpp Require Import base list strings gmap numbers.
Open Scope Z_scope.

(** ** Enumerations *)

Inductive NC_PARAMTYPE := NC_PARAMTYPE_CONST | NC_PARAMTYPE_FREE | NC_PARAMTYPE_DUP_AND_FREE.
#[export] Instance NC_PARAMTYPE_eq : EqDecision NC_PARAMTYPE.
Proof. solve_decision. Defined.

Inductive NC_DATASTORE :=
| NC_DATASTORE_ERROR
| NC_DATASTORE_CONFIG
| NC_DATASTORE_URL
| NC_DATASTORE_RUNNING
| NC_DATASTORE_STARTUP
| NC_DATASTORE_CANDIDATE.
#[export] Instance NC_DATASTORE_eq : EqDecision NC_DATASTORE.
Proof. solve_decision. Defined.

Inductive NC_RPC_EDIT_DFLTOP :=
| NC_RPC_EDIT_DFLTOP_UNKNOWN
| NC_RPC_EDIT_DFLTOP_MERGE
| NC_RPC_EDIT_DFLTOP_REPLACE
| NC_RPC_EDIT_DFLTOP_NONE.

Inductive NC_RPC_EDIT_TESTOPT :=
| NC_RPC_EDIT_TESTOPT_UNKNOWN
| NC_RPC_EDIT_TESTOPT_TESTSET
| NC_RPC_EDIT_TESTOPT_SET
| NC_RPC_EDIT_TESTOPT_TEST.

Inductive NC_RPC_EDIT_ERROPT :=
| NC_RPC_EDIT_ERROPT_UNKNOWN
| NC_RPC_EDIT_ERROPT_STOP
| NC_RPC_EDIT_ERROPT_CONTINUE
| NC_RPC_EDIT_ERROPT_ROLLBACK.

(** ** Structures

    The contents of the RPC structures, over the types [S] of strings, [A] of
    arrays of strings and [T] of data trees: pointers in the structures of the
    code, values in the specification. *)

Inductive push_trigger (S A : Type) :=
| Periodic (period : Z) (anchor_time : S)
| OnChange (dampening_period : Z) (sync_on_start : bool) (excluded_change : A).
Arguments Periodic {S A} period anchor_time.
Arguments OnChange {S A} dampening_period sync_on_start excluded_change.

Inductive modify_trigger (S : Type) :=
| ModPeriodic (period : Z) (anchor_time : S)
| ModOnChange (dampening_period : Z).
Arguments ModPeriodic {S} period anchor_time.
Arguments ModOnChange {S} dampening_period.

Inductive rpc_body (S A T : Type) :=
| RpcActGeneric (content : T + S)
| RpcGetconfig (source : NC_DATASTORE) (filter : S) (wd_mode : NC_WD_MODE)
| RpcEdit (target : NC_DATASTORE) (default_op : NC_RPC_EDIT_DFLTOP) (test_opt : NC_RPC_EDIT_TESTOPT)
    (error_opt : NC_RPC_EDIT_ERROPT) (edit_cont : S)
| RpcCopy (target : NC_DATASTORE) (url_trg : S) (source : NC_DATASTORE) (url_config_src : S)
    (wd_mode : NC_WD_MODE)
| RpcDelete (target : NC_DATASTORE) (url : S)
| RpcLock (target : NC_DATASTORE)
| RpcUnlock (target : NC_DATASTORE)
| RpcGet (filter : S) (wd_mode : NC_WD_MODE)
| RpcKill (sid : Z)
| RpcCommit (confirmed : bool) (confirm_timeout : Z) (persist persist_id : S)
| RpcDiscard
| RpcCancel (persist_id : S)
| RpcValidate (source : NC_DATASTORE) (url_config_src : S)
| RpcGetschema (identifier version format : S)
| RpcSubscribe (stream filter start stop : S)
| RpcGetdata (datastore filter config_filter : S) (origin_filter : A) (origin_filter_count : Z)
    (negated_origin_filter : bool) (max_depth : Z) (with_origin : bool) (wd_mode : NC_WD_MODE)
| RpcEditdata (datastore : S) (default_op : NC_RPC_EDIT_DFLTOP) (edit_cont : S)
| RpcEstablishsub (filter stream start stop encoding : S)
| RpcModifysub (sub_id : Z) (filter stop : S)
| RpcDeletesub (sub_id : Z)
| RpcKillsub (sub_id : Z)
| RpcEstablishpush (datastore filter stop encoding : S) (trigger : push_trigger S A)
| RpcModifypush (sub_id : Z) (datastore filter stop : S) (trigger : modify_trigger S)
| RpcResyncsub (sub_id : Z).
Arguments RpcActGeneric {S A T} content.
Arguments RpcGetconfig {S A T} source filter wd_mode.
Arguments RpcEdit {S A T} target default_op test_opt error_opt edit_cont.
Arguments RpcCopy {S A T} target url_trg source url_config_src wd_mode.
Arguments RpcDelete {S A T} target url.
Arguments RpcLock {S A T} target.
Arguments RpcUnlock {S A T} target.
Arguments RpcGet {S A T} filter wd_mode.
Arguments RpcKill {S A T} sid.
Arguments RpcCommit {S A T} confirmed confirm_timeout persist persist_id.
Arguments RpcDiscard {S A T}.
Arguments RpcCancel {S A T} persist_id.
Arguments RpcValidate {S A T} source url_config_src.
Arguments RpcGetschema {S A T} identifier version format.
Arguments RpcSubscribe {S A T} stream filter start stop.
Arguments RpcGetdata {S A T} datastore filter config_filter origin_filter origin_filter_count
  negated_origin_filter max_depth with_origin wd_mode.
Arguments RpcEditdata {S A T} datastore default_op edit_cont.
Arguments RpcEstablishsub {S A T} filter stream start stop encoding.
Arguments RpcModifysub {S A T} sub_id filter stop.
Arguments RpcDeletesub {S A T} sub_id.
Arguments RpcKillsub {S A T} sub_id.
Arguments RpcEstablishpush {S A T} datastore filter stop encoding trigger.
Arguments RpcModifypush {S A T} sub_id datastore filter stop trigger.
Arguments RpcResyncsub {S A T} sub_id.

(** ** The heap *)

(** A pointer, [None] for [NULL]. *)
Notation ptr := (option positive).

(** A data tree of libyang as the calls that built it: the module and the name of
    a node, its value, its metadata and its children in the order of their
    creation.  Where libyang places a new node among its siblings is left to
    the printer.  [d_ctx] says whether the node belongs to the context of the
    session. *)
Inductive dvalue :=
| VInner
| VTerm (value : option bytes)
| VAny (xml : bool) (value : option bytes).

Inductive dnode := DNode {
  d_ctx : bool;
  d_module : bytes;
  d_name : bytes;
  d_value : dvalue;
  d_meta : list (bytes * bytes);
  d_children : list dnode;
}.

(** [struct nc_rpc]: the contents and the [free] flag (the structures without a
    parameter to free have none, and it is not used in them). *)
Record rpc_object := NcRpc {
  rpc_content : rpc_body ptr ptr ptr;
  rpc_free : bool;
}.

(** A cell of the heap.  An array has the slots written so far; a tree says
    whether it has no siblings; [CRaw] is an RPC structure before its fields are
    set. *)
Inductive heap_cell :=
| CStr (s : bytes)
| CArr (l : list ptr)
| CTree (single : bool) (t : dnode)
| CRaw
| CRpc (rpc : rpc_object).

Notation cheap := (gmap positive heap_cell).
Notation CH W := (M (cheap * W)).

(** libyang: [lyd_dup_single] may fail. *)
Class LyDup (W : Type) := {
  lyd_dup_ok : dnode → W → bool * W;
}.

Section heap.
Context {W : Type} `{!Env W}.

(** New memory with the contents [c]. *)
Definition c_new (c : heap_cell) : CH W ptr :=
  h ← gets fst;
  let p := fresh (dom (h : cheap)) in
  modify (λ st, (<[p := c]> st.1, st.2));;
  mret (Some p).

(** [malloc(n)], the memory getting the contents [c]. *)
Definition c_alloc (c : heap_cell) (n : Z) : CH W ptr :=
  ok ← on_env (call (malloc_ok n));
  if (ok : bool) then c_new c else mret None.

Definition c_free (p : ptr) : CH W unit :=
  match p with
  | None => mret tt
  | Some p =>
    h ← gets fst;
    guarded (bool_decide (is_Some ((h : cheap) !! p)));;
    modify (λ st, (delete p st.1, st.2))
  end.

#[global] Arguments c_free : simpl never.

Fixpoint c_frees (l : list ptr) : CH W unit :=
  match l with
  | [] => mret tt
  | p :: l => c_free p;; c_frees l
  end.

Definition c_load (p : ptr) : CH W heap_cell :=
  h ← gets fst;
  match p ≫= ((h : cheap) !!.) with
  | Some c => mret c
  | None => crash
  end.

Definition c_store (p : positive) (c : heap_cell) : CH W unit :=
  h ← gets fst;
  guarded (bool_decide (is_Some ((h : cheap) !! p)));;
  modify (λ st, (<[p := c]> st.1, st.2)).

Definition c_str (p : ptr) : CH W bytes :=
  c ← c_load p;
  match c with CStr s => mret s | _ => crash end.

Definition c_arr (p : ptr) : CH W (list ptr) :=
  c ← c_load p;
  match c with CArr l => mret l | _ => crash end.

Definition c_strdup (p : ptr) : CH W ptr :=
  s ← c_str p;
  c_alloc (CStr s) (zlen s + 1).

(** [if (x && (paramtype == NC_PARAMTYPE_DUP_AND_FREE)) strdup(x) else x] *)
Definition param (paramtype : NC_PARAMTYPE) (x : ptr) : CH W ptr :=
  if bool_decide (is_Some x) && bool_decide (paramtype = NC_PARAMTYPE_DUP_AND_FREE)
  then c_strdup x else mret x.

Definition isalpha (c : ascii) : bool :=
  let n := Z.of_N (N_of_ascii c) in
  ((65 <=? n) && (n <=? 90)) || ((97 <=? n) && (n <=? 122)).

(** The checks of the first character: an XML subtree or an alphabetic character,
    and a slash too where an XPath is allowed.  The string is not [NULL]. *)
Definition first_char (slash : bool) (s : bytes) : bool :=
  match s with
  | [] => true
  | c :: _ => bool_decide (c = "<"%char) || (slash && bool_decide (c = "/"%char)) || isalpha c
  end.

Definition check_first (slash : bool) (x : ptr) : CH W bool :=
  match x with
  | None => mret true
  | Some _ => s ← c_str x; mret (first_char slash s)
  end.

Definition free_flag (paramtype : NC_PARAMTYPE) : bool := negb (bool_decide (paramtype = NC_PARAMTYPE_CONST)).

(** [malloc(sizeof *rpc)] and, unless it failed, the code that fills the structure. *)
Definition new_rpc (size : Z) (fill : CH W rpc_object) : CH W ptr :=
  p ← c_alloc CRaw size;
  match p with
  | None => mret None
  | Some r => rpc ← fill; c_store r (CRpc rpc);; mret (Some r)
  end.
End heap.

(** ** [nc_rpc_free] *)

Section rpc_free.
Context {W : Type} `{!Env W}.

(** [for (i = 0; i < count; ++i) free(origin_filter[i]);] *)
Fixpoint free_first (arr : ptr) (i n : nat) : CH W unit :=
  match n with
  | O => mret tt
  | S n =>
    l ← c_arr arr;
    match l !! i with
    | None => crash
    | Some e => c_free e;; free_first arr (i + 1) n
    end
  end.

(** [for (i = 0; excluded_change[i]; ++i) free(excluded_change[i]);] on the slots
    of the array. *)
Fixpoint free_until_null (l : list ptr) : CH W unit :=
  match l with
  | [] => crash
  | None :: _ => mret tt
  | e :: l => c_free e;; free_until_null l
  end.

Definition nc_rpc_free_content (rpc : rpc_body ptr ptr ptr) : CH W unit :=
  match rpc with
  | RpcActGeneric (inl data) => c_free data
  | RpcActGeneric (inr xml_str) => c_free xml_str
  | RpcGetconfig _ filter _ => c_free filter
  | RpcEdit _ _ _ _ edit_cont => c_free edit_cont
  | RpcCopy _ url_trg _ url_config_src _ => c_frees [url_config_src; url_trg]
  | RpcDelete _ url => c_free url
  | RpcGet filter _ => c_free filter
  | RpcCommit _ _ persist persist_id => c_frees [persist; persist_id]
  | RpcCancel persist_id => c_free persist_id
  | RpcValidate _ url_config_src => c_free url_config_src
  | RpcGetschema identifier version format => c_frees [identifier; version; format]
  | RpcSubscribe stream filter start stop => c_frees [stream; filter; start; stop]
  | RpcGetdata datastore filter config_filter origin_filter count _ _ _ _ =>
    c_frees [datastore; filter; config_filter];;
    free_first origin_filter 0 (Z.to_nat count);;
    c_free origin_filter
  | RpcEditdata datastore _ edit_cont => c_frees [datastore; edit_cont]
  | RpcEstablishsub filter stream start stop encoding => c_frees [filter; stream; start; stop; encoding]
  | RpcModifysub _ filter stop => c_frees [filter; stop]
  | RpcEstablishpush datastore filter stop encoding trigger =>
    c_frees [datastore; filter; stop; encoding];;
    match trigger with
    | Periodic _ anchor_time => c_free anchor_time
    | OnChange _ _ None => mret tt
    | OnChange _ _ excluded_change =>
      l ← c_arr excluded_change;
      free_until_null l;;
      c_free excluded_change
    end
  | RpcModifypush _ datastore filter stop trigger =>
    c_frees [datastore; filter; stop];;
    match trigger with
    | ModPeriodic _ anchor_time => c_free anchor_time
    | ModOnChange _ => mret tt
    end
  | RpcLock _ | RpcUnlock _ | RpcKill _ | RpcDiscard | RpcDeletesub _ | RpcKillsub _ | RpcResyncsub _ => mret tt
  end.

Definition nc_rpc_free (rpc : ptr) : CH W unit :=
  match rpc with
  | None => mret tt
  | Some _ =>
    c ← c_load rpc;
    match c with
    | CRpc x => (if rpc_free x then nc_rpc_free_content (rpc_content x) else mret tt);; c_free rpc
    | _ => crash
    end
  end.
End rpc_free.

(** ** The constructors *)

Section constructors.
Context {W : Type} `{!Env W} `{!LyDup W}.

Definition nc_rpc_act_generic (data : ptr) (paramtype : NC_PARAMTYPE) : CH W ptr :=
  match data with
  | None => mret None
  | Some _ =>
    c ← c_load data;
    match c with
    | CTree false _ => mret None
    | CTree true t =>
      p ← c_alloc CRaw 24;
      match p with
      | None => mret None
      | Some r =>
        if bool_decide (paramtype = NC_PARAMTYPE_DUP_AND_FREE) then
          ok ← on_env (call (lyd_dup_ok t));
          d ← (if (ok : bool) then c_new (CTree true t) else mret None);
          match d with
          | None => c_free p;; mret None
          | _ => c_store r (CRpc (NcRpc (RpcActGeneric (inl d)) (free_flag paramtype)));; mret p
          end
        else
          c_store r (CRpc (NcRpc (RpcActGeneric (inl data)) (free_flag paramtype)));; mret p
      end
    | _ => crash
    end
  end.

Definition nc_rpc_act_generic_xml (xml_str : ptr) (paramtype : NC_PARAMTYPE) : CH W ptr :=
  match xml_str with
  | None => mret None
  | _ =>
    new_rpc 24 (
      x ← param paramtype xml_str;
      mret (NcRpc (RpcActGeneric (inr x)) (free_flag paramtype)))
  end.

Definition nc_rpc_getconfig (source : NC_DATASTORE) (filter : ptr) (wd_mode : NC_WD_MODE)
    (paramtype : NC_PARAMTYPE) : CH W ptr :=
  if bool_decide (source = NC_DATASTORE_ERROR) then mret None else
  ok ← check_first true filter;
  if negb ok then mret None else
  new_rpc 24 (
    f ← param paramtype filter;
    mret (NcRpc (RpcGetconfig source f wd_mode) (free_flag paramtype))).

Definition nc_rpc_edit (target : NC_DATASTORE) (default_op : NC_RPC_EDIT_DFLTOP)
    (test_opt : NC_RPC_EDIT_TESTOPT) (error_opt : NC_RPC_EDIT_ERROPT) (edit_content : ptr)
    (paramtype : NC_PARAMTYPE) : CH W ptr :=
  if bool_decide (target = NC_DATASTORE_ERROR) then mret None else
  if bool_decide (edit_content = None) then mret None else
  ok ← check_first false edit_content;
  if negb ok then mret None else
  new_rpc 40 (
    e ← param paramtype edit_content;
    mret (NcRpc (RpcEdit target default_op test_opt error_opt e) (free_flag paramtype))).

Definition nc_rpc_copy (target : NC_DATASTORE) (url_trg : ptr) (source : NC_DATASTORE)
    (url_or_config_src : ptr) (wd_mode : NC_WD_MODE) (paramtype : NC_PARAMTYPE) : CH W ptr :=
  if bool_decide (target = NC_DATASTORE_ERROR) then mret None else
  if bool_decide (source = NC_DATASTORE_ERROR) then mret None else
  ok ← check_first false url_or_config_src;
  if negb ok then mret None else
  new_rpc 40 (
    t ← param paramtype url_trg;
    u ← param paramtype url_or_config_src;
    mret (NcRpc (RpcCopy target t source u wd_mode) (free_flag paramtype))).

Definition nc_rpc_delete (target : NC_DATASTORE) (url : ptr) (paramtype : NC_PARAMTYPE) : CH W ptr :=
  if bool_decide (target = NC_DATASTORE_ERROR) then mret None else
  new_rpc 24 (
    u ← param paramtype url;
    mret (NcRpc (RpcDelete target u) (free_flag paramtype))).

Definition nc_rpc_lock (target : NC_DATASTORE) : CH W ptr :=
  if bool_decide (target = NC_DATASTORE_ERROR) then mret None else
  new_rpc 8 (mret (NcRpc (RpcLock target) false)).

Definition nc_rpc_unlock (target : NC_DATASTORE) : CH W ptr :=
  if bool_decide (target = NC_DATASTORE_ERROR) then mret None else
  new_rpc 8 (mret (NcRpc (RpcUnlock target) false)).

Definition nc_rpc_get (filter : ptr) (wd_mode : NC_WD_MODE) (paramtype : NC_PARAMTYPE) : CH W ptr :=
  ok ← check_first true filter;
  if negb ok then mret None else
  new_rpc 24 (
    f ← param paramtype filter;
    mret (NcRpc (RpcGet f wd_mode) (free_flag paramtype))).

Definition nc_rpc_kill (session_id : Z) : CH W ptr :=
  if session_id =? 0 then mret None else
  new_rpc 8 (mret (NcRpc (RpcKill session_id) false)).

Definition nc_rpc_commit (confirmed : bool) (confirm_timeout : Z) (persist persist_id : ptr)
    (paramtype : NC_PARAMTYPE) : CH W ptr :=
  new_rpc 40 (
    a ← param paramtype persist;
    b ← param paramtype persist_id;
    mret (NcRpc (RpcCommit confirmed confirm_timeout a b) (free_flag paramtype))).

Definition nc_rpc_discard : CH W ptr := new_rpc 4 (mret (NcRpc RpcDiscard false)).

Definition nc_rpc_cancel (persist_id : ptr) (paramtype : NC_PARAMTYPE) : CH W ptr :=
  new_rpc 24 (
    a ← param paramtype persist_id;
    mret (NcRpc (RpcCancel a) (free_flag paramtype))).

Definition nc_rpc_validate (source : NC_DATASTORE) (url_or_config : ptr) (paramtype : NC_PARAMTYPE) : CH W ptr :=
  if bool_decide (source = NC_DATASTORE_ERROR) then mret None else
  ok ← check_first false url_or_config;
  if negb ok then mret None else
  new_rpc 24 (
    u ← param paramtype url_or_config;
    mret (NcRpc (RpcValidate source u) (free_flag paramtype))).

Definition nc_rpc_getschema (identifier version format : ptr) (paramtype : NC_PARAMTYPE) : CH W ptr :=
  if bool_decide (identifier = None) then mret None else
  new_rpc 40 (
    a ← param paramtype identifier;
    b ← param paramtype version;
    c ← param paramtype format;
    mret (NcRpc (RpcGetschema a b c) (free_flag paramtype))).

Definition nc_rpc_subscribe (stream_name filter start_time stop_time : ptr) (paramtype : NC_PARAMTYPE) : CH W ptr :=
  ok ← check_first true filter;
  if negb ok then mret None else
  new_rpc 48 (
    a ← param paramtype stream_name;
    f ← param paramtype filter;
    b ← param paramtype start_time;
    c ← param paramtype stop_time;
    mret (NcRpc (RpcSubscribe a f b c) (free_flag paramtype))).

(** The loop that copies [origin_filter]: whether it finished and the
    [origin_filter_count] it has reached. *)
Fixpoint dup_origin (src : ptr) (dst : positive) (i n : nat) : CH W (bool * Z) :=
  match n with
  | O => mret (true, Z.of_nat i)
  | S n =>
    l ← c_arr src;
    match l !! i with
    | None => crash
    | Some e =>
      d ← c_strdup e;
      match d with
      | None => mret (false, Z.of_nat i)
      | _ =>
        l' ← c_arr (Some dst);
        c_store dst (CArr (l' ++ [d]));;
        dup_origin src dst (i + 1) n
      end
    end
  end.

Definition nc_rpc_getdata (datastore filter config_filter origin_filter : ptr) (origin_filter_count : Z)
    (negated_origin_filter : bool) (max_depth : Z) (with_origin : bool) (wd_mode : NC_WD_MODE)
    (paramtype : NC_PARAMTYPE) : CH W ptr :=
  ok ← check_first true filter;
  if negb ok then mret None else
  if bool_decide (datastore = None) then mret None else
  p ← c_alloc CRaw 64;
  match p with
  | None => mret None
  | Some r =>
    d ← param paramtype datastore;
    f ← param paramtype filter;
    c ← param paramtype config_filter;
    let error origin count :=
      c_store r (CRpc (NcRpc (RpcGetdata d f c origin count false 0 false NC_WD_UNKNOWN) (free_flag paramtype)));;
      nc_rpc_free p;;
      mret None in
    let finish origin count :=
      c_store r (CRpc (NcRpc (RpcGetdata d f c origin count negated_origin_filter max_depth with_origin wd_mode)
        (free_flag paramtype)));;
      mret p in
    if bool_decide (is_Some origin_filter) && bool_decide (paramtype = NC_PARAMTYPE_DUP_AND_FREE) then
      arr ← c_alloc (CArr []) (u64 (origin_filter_count * 8));
      match arr with
      | None => error None 0
      | Some a =>
        '(ok, count) ← dup_origin origin_filter a 0 (Z.to_nat origin_filter_count);
        if (ok : bool) then finish arr count else error arr count
      end
    else finish origin_filter origin_filter_count
  end.

Definition nc_rpc_editdata (datastore : ptr) (default_op : NC_RPC_EDIT_DFLTOP) (edit_content : ptr)
    (paramtype : NC_PARAMTYPE) : CH W ptr :=
  if bool_decide (datastore = None) then mret None else
  if bool_decide (edit_content = None) then mret None else
  ok ← check_first false edit_content;
  if negb ok then mret None else
  new_rpc 40 (
    d ← param paramtype datastore;
    e ← param paramtype edit_content;
    mret (NcRpc (RpcEditdata d default_op e) (free_flag paramtype))).

Definition nc_rpc_establishsub (filter stream_name start_time stop_time encoding : ptr)
    (paramtype : NC_PARAMTYPE) : CH W ptr :=
  if bool_decide (stream_name = None) then mret None else
  ok ← check_first true filter;
  if negb ok then mret None else
  new_rpc 56 (
    f ← param paramtype filter;
    a ← param paramtype stream_name;
    b ← param paramtype start_time;
    c ← param paramtype stop_time;
    e ← param paramtype encoding;
    mret (NcRpc (RpcEstablishsub f a b c e) (free_flag paramtype))).

Definition nc_rpc_modifysub (sub_id : Z) (filter stop_time : ptr) (paramtype : NC_PARAMTYPE) : CH W ptr :=
  if sub_id =? 0 then mret None else
  ok ← check_first true filter;
  if negb ok then mret None else
  new_rpc 32 (
    f ← param paramtype filter;
    b ← param paramtype stop_time;
    mret (NcRpc (RpcModifysub sub_id f b) (free_flag paramtype))).

Definition nc_rpc_deletesub (sub_id : Z) : CH W ptr :=
  if sub_id =? 0 then mret None else
  new_rpc 8 (mret (NcRpc (RpcDeletesub sub_id) false)).

Definition nc_rpc_killsub (sub_id : Z) : CH W ptr :=
  if sub_id =? 0 then mret None else
  new_rpc 8 (mret (NcRpc (RpcKillsub sub_id) false)).

Definition nc_rpc_establishpush_periodic (datastore filter stop_time encoding : ptr) (period : Z)
    (anchor_time : ptr) (paramtype : NC_PARAMTYPE) : CH W ptr :=
  if bool_decide (datastore = None) then mret None else
  if period =? 0 then mret None else
  ok ← check_first true filter;
  if negb ok then mret None else
  new_rpc 72 (
    d ← param paramtype datastore;
    f ← param paramtype filter;
    b ← param paramtype stop_time;
    e ← param paramtype encoding;
    a ← param paramtype anchor_time;
    mret (NcRpc (RpcEstablishpush d f b e (Periodic period a)) (free_flag paramtype))).

(** The loop that copies [excluded_change] on the slots [l] of the argument, with
    the copies [acc] made so far in the array [arr].  The array is enlarged with
    [realloc] whose failure is not checked: the next write is through [NULL]. *)
Fixpoint dup_excluded (l : list ptr) (arr : ptr) (acc : list ptr) : CH W ptr :=
  match l with
  | [] => crash
  | None :: _ => mret arr
  | e :: l =>
    ok ← on_env (call (malloc_ok ((zlen acc + 2) * 8)));
    guarded ok;;
    c_free arr;;
    arr ← c_new (CArr []);
    d ← c_strdup e;
    match arr with
    | None => crash
    | Some a =>
      c_store a (CArr (acc ++ [d; None]));;
      dup_excluded l arr (acc ++ [d])
    end
  end.

Definition nc_rpc_establishpush_onchange (datastore filter stop_time encoding : ptr) (dampening_period : Z)
    (sync_on_start : bool) (excluded_change : ptr) (paramtype : NC_PARAMTYPE) : CH W ptr :=
  if bool_decide (datastore = None) then mret None else
  ok ← check_first true filter;
  if negb ok then mret None else
  new_rpc 72 (
    d ← param paramtype datastore;
    f ← param paramtype filter;
    b ← param paramtype stop_time;
    e ← param paramtype encoding;
    x ← (if bool_decide (is_Some excluded_change) && bool_decide (paramtype = NC_PARAMTYPE_DUP_AND_FREE)
         then l ← c_arr excluded_change; dup_excluded l None []
         else mret excluded_change);
    mret (NcRpc (RpcEstablishpush d f b e (OnChange dampening_period sync_on_start x)) (free_flag paramtype))).

Definition nc_rpc_modifypush_periodic (sub_id : Z) (datastore filter stop_time : ptr) (period : Z)
    (anchor_time : ptr) (paramtype : NC_PARAMTYPE) : CH W ptr :=
  if sub_id =? 0 then mret None else
  if bool_decide (datastore = None) then mret None else
  ok ← check_first true filter;
  if negb ok then mret None else
  new_rpc 64 (
    d ← param paramtype datastore;
    f ← param paramtype filter;
    b ← param paramtype stop_time;
    a ← param paramtype anchor_time;
    mret (NcRpc (RpcModifypush sub_id d f b (ModPeriodic period a)) (free_flag paramtype))).

Definition nc_rpc_modifypush_onchange (sub_id : Z) (datastore filter stop_time : ptr) (dampening_period : Z)
    (paramtype : NC_PARAMTYPE) : CH W ptr :=
  if sub_id =? 0 then mret None else
  if bool_decide (datastore = None) then mret None else
  ok ← check_first true filter;
  if negb ok then mret None else
  new_rpc 64 (
    d ← param paramtype datastore;
    f ← param paramtype filter;
    b ← param paramtype stop_time;
    mret (NcRpc (RpcModifypush sub_id d f b (ModOnChange dampening_period)) (free_flag paramtype))).

Definition nc_rpc_resyncsub (sub_id : Z) : CH W ptr :=
  if sub_id =? 0 then mret None else
  new_rpc 8 (mret (NcRpc (RpcResyncsub sub_id) false)).

(** The constructor called with the arguments that [args] holds. *)
Definition construct (args : rpc_body ptr ptr ptr) (pt : NC_PARAMTYPE) : CH W ptr :=
  match args with
  | RpcActGeneric (inl data) => nc_rpc_act_generic data pt
  | RpcActGeneric (inr xml) => nc_rpc_act_generic_xml xml pt
  | RpcGetconfig source filter wd => nc_rpc_getconfig source filter wd pt
  | RpcEdit target op test err cont => nc_rpc_edit target op test err cont pt
  | RpcCopy target url source src wd => nc_rpc_copy target url source src wd pt
  | RpcDelete target url => nc_rpc_delete target url pt
  | RpcLock target => nc_rpc_lock target
  | RpcUnlock target => nc_rpc_unlock target
  | RpcGet filter wd => nc_rpc_get filter wd pt
  | RpcKill sid => nc_rpc_kill sid
  | RpcCommit confirmed timeout persist persist_id => nc_rpc_commit confirmed timeout persist persist_id pt
  | RpcDiscard => nc_rpc_discard
  | RpcCancel persist_id => nc_rpc_cancel persist_id pt
  | RpcValidate source src => nc_rpc_validate source src pt
  | RpcGetschema identifier version format => nc_rpc_getschema identifier version format pt
  | RpcSubscribe stream filter start stop => nc_rpc_subscribe stream filter start stop pt
  | RpcGetdata ds filter config origin count negated depth with_origin wd =>
    nc_rpc_getdata ds filter config origin count negated depth with_origin wd pt
  | RpcEditdata ds op cont => nc_rpc_editdata ds op cont pt
  | RpcEstablishsub filter stream start stop encoding => nc_rpc_establishsub filter stream start stop encoding pt
  | RpcModifysub sub filter stop => nc_rpc_modifysub sub filter stop pt
  | RpcDeletesub sub => nc_rpc_deletesub sub
  | RpcKillsub sub => nc_rpc_killsub sub
  | RpcEstablishpush ds filter stop encoding (Periodic period anchor) =>
    nc_rpc_establishpush_periodic ds filter stop encoding period anchor pt
  | RpcEstablishpush ds filter stop encoding (OnChange damp sync excluded) =>
    nc_rpc_establishpush_onchange ds filter stop encoding damp sync excluded pt
  | RpcModifypush sub ds filter stop (ModPeriodic period anchor) =>
    nc_rpc_modifypush_periodic sub ds filter stop period anchor pt
  | RpcModifypush sub ds filter stop (ModOnChange damp) =>
    nc_rpc_modifypush_onchange sub ds filter stop damp pt
  | RpcResyncsub sub => nc_rpc_resyncsub sub
  end.
End constructors.
