(* ===== verification/ClientRpcProofs.v ===== *)
(** * Memory and contents of RPC objects

    What the constructors of [ClientRpc] build and that [nc_rpc_free] returns
    exactly the memory that the object owns. *)

From S2P Require Import Prelude Session Env Time Locks Sim IoWrite IoReadProofs IoWriteProofs.
From S2P Require Import ClientRpc.
From Stdlib Require Import ZArith Ascii String Lia.
From stdpp Require Import base list strings gmap numbers.
Open Scope Z_scope.

(** ** Contents of the heap *)

(** The string behind a pointer; the tree; the strings of an array up to [NULL]. *)
Definition rstr (h : cheap) (p : ptr) : option bytes :=
  match p ≫= (h !!.) with Some (CStr s) => Some s | _ => None end.

Definition rtree (h : cheap) (p : ptr) : option dnode :=
  match p ≫= (h !!.) with Some (CTree _ t) => Some t | _ => None end.

Fixpoint upto_null (l : list ptr) : list positive :=
  match l with Some p :: l => p :: upto_null l | _ => [] end.

Definition slots (h : cheap) (p : ptr) : list positive :=
  match p ≫= (h !!.) with Some (CArr l) => upto_null l | _ => [] end.

Definition rarr (h : cheap) (p : ptr) : list (option bytes) := (λ q, rstr h (Some q)) <$> slots h p.

(** [NULL] or a C string of less than 4 GiB. *)
Definition str_ok (h : cheap) (p : ptr) : Prop :=
  match p with None => True | Some q => ∃ s, h !! q = Some (CStr s) ∧ zlen s < 2 ^ 32 end.

Definition tree_ok (h : cheap) (p : ptr) : Prop :=
  match p with None => True | Some q => ∃ b t, h !! q = Some (CTree b t) end.

(** [NULL] or an array of strings followed by [last]. *)
Definition arr_ok (h : cheap) (last : list ptr) (n : nat → Prop) (p : ptr) : Prop :=
  match p with
  | None => True
  | Some q => ∃ qs, h !! q = Some (CArr ((Some <$> qs) ++ last)) ∧ n (length qs) ∧
      Forall (λ e, str_ok h (Some e)) qs
  end.

(** The string parameters of an RPC, in the order the constructor handles them. *)
Definition strs {A T} (b : rpc_body ptr A T) : list ptr :=
  match b with
  | RpcActGeneric (inl _) => []
  | RpcActGeneric (inr x) => [x]
  | RpcGetconfig _ f _ | RpcGet f _ => [f]
  | RpcEdit _ _ _ _ e => [e]
  | RpcCopy _ t _ u _ => [t; u]
  | RpcDelete _ u => [u]
  | RpcCommit _ _ a b => [a; b]
  | RpcCancel a => [a]
  | RpcValidate _ u => [u]
  | RpcGetschema a b c => [a; b; c]
  | RpcSubscribe a f b c => [a; f; b; c]
  | RpcGetdata d f c _ _ _ _ _ _ => [d; f; c]
  | RpcEditdata d _ e => [d; e]
  | RpcEstablishsub f a b c e => [f; a; b; c; e]
  | RpcModifysub _ f b => [f; b]
  | RpcEstablishpush d f b e (Periodic _ a) => [d; f; b; e; a]
  | RpcEstablishpush d f b e _ => [d; f; b; e]
  | RpcModifypush _ d f b (ModPeriodic _ a) => [d; f; b; a]
  | RpcModifypush _ d f b _ => [d; f; b]
  | RpcLock _ | RpcUnlock _ | RpcKill _ | RpcDiscard | RpcDeletesub _ | RpcKillsub _ | RpcResyncsub _ => []
  end.

(** The tree and the array of an RPC. *)
Definition tree_of {S A} (b : rpc_body S A ptr) : ptr :=
  match b with RpcActGeneric (inl d) => d | _ => None end.

Definition rpc_array {S T} (b : rpc_body S ptr T) : ptr :=
  match b with
  | RpcGetdata _ _ _ o _ _ _ _ _ => o
  | RpcEstablishpush _ _ _ _ (OnChange _ _ x) => x
  | _ => None
  end.

(** The parameters are strings, trees and arrays of the heap: [origin_filter] has
    [origin_filter_count] elements, [excluded_change] ends with [NULL]. *)
Definition body_ok (h : cheap) (b : rpc_body ptr ptr ptr) : Prop :=
  Forall (str_ok h) (strs b) ∧ tree_ok h (tree_of b) ∧
  match b with
  | RpcGetdata _ _ _ o count _ _ _ _ =>
    arr_ok h [] (λ n, Z.of_nat n = count ∧ count < 2 ^ 29) o ∧ (o = None → count ≤ 0)
  | RpcEstablishpush _ _ _ _ (OnChange _ _ x) => arr_ok h [None] (λ n, Z.of_nat n < 2 ^ 28) x
  | _ => True
  end.

Definition nonnull (l : list ptr) : list positive := omap (λ x, x) l.

(** The cells that belong to an RPC. *)
Definition own (h : cheap) (b : rpc_body ptr ptr ptr) : list positive :=
  nonnull (strs b) ++ option_list (tree_of b) ++ slots h (rpc_array b) ++ option_list (rpc_array b).

(** ** Growing and shrinking heaps *)

(** [H] is [h] and the cells [l]. *)
Definition grown (h H : cheap) (l : list positive) : Prop :=
  h ⊆ H ∧ NoDup l ∧ ∀ p, p ∈ l ↔ is_Some (H !! p) ∧ h !! p = None.

Definition without_cells (l : list positive) (h : cheap) : cheap := filter (λ kv, kv.1 ∉ l) h.

Lemma without_lookup l h p : without_cells l h !! p = if decide (p ∈ l) then None else h !! p.
Proof.
  unfold without_cells. rewrite map_lookup_filter. case_decide; destruct (h !! p) eqn:E; simpl; try done.
  - by rewrite option_guard_False by naive_solver.
  - by rewrite option_guard_True.
Qed.

Lemma without_nil h : without_cells [] h = h.
Proof. apply map_eq. intros p. rewrite without_lookup. by case_decide; [set_solver|]. Qed.

Lemma without_app l l' h : without_cells l' (without_cells l h) = without_cells (l ++ l') h.
Proof.
  apply map_eq. intros p. rewrite !without_lookup. repeat case_decide; set_solver.
Qed.

Lemma without_single p h : without_cells [p] h = delete p h.
Proof.
  apply map_eq. intros q. rewrite without_lookup, lookup_delete. repeat case_decide; set_solver.
Qed.

Lemma without_same l l' h : (∀ p, p ∈ l ↔ p ∈ l') → without_cells l h = without_cells l' h.
Proof.
  intros E. apply map_eq. intros p. rewrite !without_lookup. specialize (E p).
  repeat case_decide; tauto.
Qed.

Lemma grown_without h H l : grown h H l → without_cells l H = h.
Proof.
  intros (Hs & _ & Hl). apply map_eq. intros p. rewrite without_lookup. case_decide as Hp.
  - apply Hl in Hp. by destruct Hp as [_ ->].
  - destruct (h !! p) eqn:E; [by apply (lookup_weaken _ _ _ _ E)|].
    destruct (H !! p) eqn:E'; [|done]. destruct Hp. apply Hl. by rewrite E'.
Qed.

Lemma grown_refl h : grown h h [].
Proof.
  split; [done|]. split; [constructor|]. intros p. split; [set_solver|]. intros [[x E] E']. congruence.
Qed.

Lemma grown_new h H l p c : grown h H l → H !! p = None → grown h (<[p := c]> H) (l ++ [p]).
Proof.
  intros (Hs & Hn & Hl) Hp. assert (Hh : h !! p = None) by (by apply (lookup_weaken_None _ _ _ Hp Hs)).
  split; [by apply insert_subseteq_r|]. split.
  - apply list.NoDup_app. repeat split; [done| |apply NoDup_singleton].
    intros q Hq ->%list_elem_of_singleton. apply Hl in Hq as [[x E] _]. congruence.
  - intros q. rewrite elem_of_app, list_elem_of_singleton, Hl. destruct (decide (q = p)) as [->|Hne].
    + rewrite lookup_insert_eq. naive_solver.
    + rewrite lookup_insert_ne by done. naive_solver.
Qed.

Lemma grown_store h H l p c c' : grown h H l → H !! p = Some c → p ∈ l → grown h (<[p := c']> H) l.
Proof.
  intros (Hs & Hn & Hl) Hp Hin. pose proof (proj1 (Hl p) Hin) as [_ Hh].
  split; [by apply insert_subseteq_r|]. split; [done|].
  intros q. rewrite Hl. destruct (decide (q = p)) as [->|Hne].
  - rewrite lookup_insert_eq, Hp. naive_solver.
  - by rewrite lookup_insert_ne.
Qed.

Lemma grown_perm h H l l' : l ≡ₚ l' → grown h H l → grown h H l'.
Proof.
  intros Hp (Hs & Hn & Hl). split; [done|]. split; [by rewrite <- Hp|]. intros p. by rewrite <- Hp.
Qed.

Lemma grown_fresh h H l p c : grown h H l → h !! p = Some c → p ∉ l.
Proof. intros (_ & _ & Hl) Hp Hin. apply Hl in Hin as [_ Hin]. congruence. Qed.

(** ** [nc_rpc_free] *)

Section free.
Context {W : Type} `{!Env W}.
Implicit Types (H : cheap) (w : W) (p : ptr).

Definition live H p : Prop := ∀ q, p = Some q → is_Some (H !! q).

Lemma live_without H l p : live H p → (∀ q, p = Some q → q ∉ l) → live (without_cells l H) p.
Proof. intros Hl Hn q ->. rewrite without_lookup, decide_False by exact (Hn q eq_refl). by apply Hl. Qed.

Lemma str_live H p : str_ok H p → live H p.
Proof. intros Hs q ->. destruct Hs as (s & -> & _). done. Qed.

Lemma strs_live H l : Forall (str_ok H) l → Forall (live H) l.
Proof. intros Hs. eapply Forall_impl; [|apply Hs]. intros p Hp. by apply str_live. Qed.

Lemma live_ptrs H l ps : Forall (live H) ps → (∀ q, Some q ∈ ps → q ∉ l) → Forall (live (without_cells l H)) ps.
Proof.
  rewrite !list.Forall_forall. intros Hl Hn p Hp. apply live_without; [by apply Hl|]. intros q ->. by apply Hn.
Qed.

Lemma live_cells H l qs :
  Forall (λ q, live H (Some q)) qs → (∀ q, q ∈ qs → q ∉ l) → Forall (λ q, live (without_cells l H) (Some q)) qs.
Proof.
  rewrite !list.Forall_forall. intros Hl Hn p Hp. apply live_without; [by apply Hl|]. intros q [= <-]. by apply Hn.
Qed.

Lemma str_cells H qs : Forall (λ q, str_ok H (Some q)) qs → Forall (λ q, live H (Some q)) qs.
Proof. rewrite !list.Forall_forall. intros Hl p Hp. by apply str_live, Hl. Qed.

Lemma wpx_free F p (Q : unit → cheap * W → Prop) H w :
  live H p → Q tt (without_cells (option_list p) H, w) → wpx F (c_free p) Q (H, w).
Proof.
  intros Hl HQ. unfold c_free. destruct p as [q|]; simpl in *.
  - apply wpx_bind, wpx_gets, wpx_bind, wpx_guarded; [by apply bool_decide_eq_true, Hl|].
    apply wpx_modify. simpl. by rewrite without_single in HQ.
  - apply wpx_ret. by rewrite without_nil in HQ.
Qed.

Lemma elem_of_nonnull q l : q ∈ nonnull l ↔ Some q ∈ l.
Proof. unfold nonnull. rewrite list_elem_of_omap. naive_solver. Qed.

Lemma nonnull_cons p l : nonnull (p :: l) = option_list p ++ nonnull l.
Proof. by destruct p. Qed.

Lemma wpx_frees F l (Q : unit → cheap * W → Prop) H w :
  Forall (live H) l → NoDup (nonnull l) → Q tt (without_cells (nonnull l) H, w) → wpx F (c_frees l) Q (H, w).
Proof.
  revert H. induction l as [|p l IH]; intros H Hl Hn HQ; cbn [c_frees].
  - apply wpx_ret. cbn in HQ. by rewrite without_nil in HQ.
  - apply list.Forall_cons in Hl as [Hp Hl]. rewrite nonnull_cons in Hn, HQ.
    apply list.NoDup_app in Hn as (_ & Hd & Hn). apply wpx_bind, wpx_free; [done|].
    apply IH; [|done|by rewrite without_app].
    apply live_ptrs; [done|]. intros q Hq Hin. apply (Hd q Hin). by apply elem_of_nonnull.
Qed.

Lemma wpx_arr F q l (Q : list ptr → cheap * W → Prop) H w :
  H !! q = Some (CArr l) → Q l (H, w) → wpx F (c_arr (Some q)) Q (H, w).
Proof.
  intros Hq HQ. unfold c_arr, c_load. apply wpx_bind, wpx_bind, wpx_gets. simpl. rewrite Hq.
  by apply wpx_ret, wpx_ret.
Qed.

Lemma wpx_free_first F a qs n i (Q : unit → cheap * W → Prop) H w :
  H !! a = Some (CArr (Some <$> qs)) → (i + n = length qs)%nat → NoDup (a :: drop i qs) →
  Forall (λ q, live H (Some q)) (drop i qs) →
  Q tt (without_cells (drop i qs) H, w) → wpx F (free_first (Some a) i n) Q (H, w).
Proof.
  revert i H. induction n as [|n IH]; intros i H Ha Hi Hn Hl HQ; cbn [free_first].
  - apply wpx_ret. rewrite drop_ge, without_nil in HQ by lia. done.
  - destruct (lookup_lt_is_Some_2 qs i) as [q Hq]; [lia|].
    rewrite (drop_S _ _ _ Hq) in Hn, Hl, HQ. apply list.Forall_cons in Hl as [Hlq Hl].
    apply list.NoDup_cons in Hn as [Hna Hn]. apply list.NoDup_cons in Hn as [Hnq Hn].
    apply wpx_bind. eapply wpx_arr; [done|]. rewrite list_lookup_fmap, Hq. simpl.
    apply wpx_bind, wpx_free; [done|]. simpl. rewrite Nat.add_1_r. apply IH; [|lia| | |].
    + rewrite without_lookup, decide_False; [done|set_solver].
    + apply list.NoDup_cons. set_solver.
    + apply live_cells; [done|]. set_solver.
    + by rewrite without_app.
Qed.

Lemma wpx_free_until_null F qs tl (Q : unit → cheap * W → Prop) H w :
  NoDup qs → Forall (λ q, live H (Some q)) qs →
  Q tt (without_cells qs H, w) → wpx F (free_until_null ((Some <$> qs) ++ None :: tl)) Q (H, w).
Proof.
  revert H. induction qs as [|q qs IH]; intros H Hn Hl HQ; cbn [free_until_null fmap list_fmap app].
  - apply wpx_ret. by rewrite without_nil in HQ.
  - apply list.Forall_cons in Hl as [Hlq Hl]. apply list.NoDup_cons in Hn as [Hnq Hn].
    apply wpx_bind, wpx_free; [done|]. simpl. apply IH; [done| |by rewrite without_app].
    apply live_cells; [done|]. set_solver.
Qed.

Lemma until_null_app qs l : upto_null ((Some <$> qs) ++ l) = qs ++ upto_null l.
Proof. induction qs as [|q qs IH]; [done|]. cbn. f_equal. apply IH. Qed.

Lemma slots_arr h q qs l : h !! q = Some (CArr ((Some <$> qs) ++ l)) → slots h (Some q) = qs ++ upto_null l.
Proof. intros E. unfold slots. cbn [mbind option_bind]. rewrite E. apply until_null_app. Qed.

(** The strings of an RPC go first, then its array. *)
Lemma wpx_frees_then F l r (k : CH W unit) (Q : unit → cheap * W → Prop) H w :
  Forall (str_ok H) l → NoDup (nonnull l ++ r) →
  wpx F k Q (without_cells (nonnull l) H, w) → wpx F (c_frees l;; k) Q (H, w).
Proof.
  intros Hs Hn HQ. apply list.NoDup_app in Hn as (Hn & _). apply wpx_bind, wpx_frees; [by apply strs_live|done..].
Qed.

Lemma free_getdata F a qs count l (Q : unit → cheap * W → Prop) H w :
  H !! a = Some (CArr (Some <$> qs)) → Z.of_nat (length qs) = count →
  Forall (λ e, str_ok H (Some e)) qs → NoDup (l ++ qs ++ [a]) →
  Q tt (without_cells (l ++ qs ++ [a]) H, w) →
  wpx F (free_first (Some a) 0 (Z.to_nat count);; c_free (Some a)) Q (without_cells l H, w).
Proof.
  intros Ha Hc Hs Hn HQ. apply list.NoDup_app in Hn as (_ & Hd & Hn).
  assert (Hdq : ∀ q, q ∈ qs ++ [a] → q ∉ l) by set_solver.
  apply list.NoDup_app in Hn as (Hn & Hd' & _).
  apply wpx_bind. eapply (wpx_free_first _ a qs).
  - rewrite without_lookup, decide_False; [done|set_solver].
  - rewrite <- Hc. lia.
  - rewrite drop_0. apply list.NoDup_cons. set_solver.
  - rewrite drop_0. apply live_cells; [by apply str_cells|]. set_solver.
  - rewrite drop_0. apply wpx_free; simpl.
    + apply live_without; [apply live_without|]; intros y [= <-]; [by rewrite Ha|set_solver..].
    + by rewrite !without_app, <- ?app_assoc.
Qed.

Lemma free_onchange F a qs l (Q : unit → cheap * W → Prop) H w :
  H !! a = Some (CArr ((Some <$> qs) ++ [None])) →
  Forall (λ e, str_ok H (Some e)) qs → NoDup (l ++ qs ++ [a]) →
  Q tt (without_cells (l ++ qs ++ [a]) H, w) →
  wpx F (x ← c_arr (Some a); free_until_null x;; c_free (Some a)) Q (without_cells l H, w).
Proof.
  intros Ha Hs Hn HQ. apply list.NoDup_app in Hn as (_ & Hd & Hn).
  assert (Hdq : ∀ q, q ∈ qs ++ [a] → q ∉ l) by set_solver.
  apply list.NoDup_app in Hn as (Hn & Hd' & _).
  apply wpx_bind. eapply wpx_arr; [rewrite without_lookup, decide_False; [done|set_solver]|].
  apply wpx_bind, wpx_free_until_null; [done| |].
  - apply live_cells; [by apply str_cells|]. set_solver.
  - apply wpx_free; simpl.
    + apply live_without; [apply live_without|]; intros y [= <-]; [by rewrite Ha|set_solver..].
    + by rewrite !without_app, <- ?app_assoc.
Qed.

Lemma wpx_free_one F p (Q : unit → cheap * W → Prop) H w :
  wpx F (c_frees [p]) Q (H, w) → wpx F (c_free p) Q (H, w).
Proof.
  cbn [c_frees]. intros H1%wpx_bind_inv. eapply wpx_mono; [apply H1|]. by intros [] sw.
Qed.

Lemma wpx_free_tail F l p (Q : unit → cheap * W → Prop) H w :
  wpx F (c_frees (l ++ [p])) Q (H, w) → wpx F (c_frees l;; c_free p) Q (H, w).
Proof.
  revert H w. induction l as [|x l IH]; intros H w; cbn [c_frees app].
  - intros Hq. by apply wpx_bind, wpx_ret, wpx_free_one.
  - intros H1%wpx_bind_inv. apply wpx_bind, wpx_bind. eapply wpx_mono; [apply H1|].
    intros [] [H' w'] H2. by apply wpx_bind_inv, IH.
Qed.

Lemma nonnull_perm l l' : l ≡ₚ l' → nonnull l ≡ₚ nonnull l'.
Proof. apply omap_Permutation. Qed.

Lemma free_strs F b l (Q : unit → cheap * W → Prop) H w :
  Forall (str_ok H) (strs b) → tree_of b = None → rpc_array b = None → l ≡ₚ strs b →
  NoDup (own H b) → Q tt (without_cells (own H b) H, w) → wpx F (c_frees l) Q (H, w).
Proof.
  unfold own. intros Hs -> -> Hl Hn HQ. cbn in Hn, HQ. rewrite app_nil_r in Hn, HQ.
  apply wpx_frees; [rewrite Hl; by apply strs_live|by rewrite (nonnull_perm _ _ Hl)|].
  erewrite without_same; [done|]. intros p. by rewrite (nonnull_perm _ _ Hl).
Qed.

Lemma nc_rpc_free_content_ok F b (Q : unit → cheap * W → Prop) H w :
  body_ok H b → NoDup (own H b) → Q tt (without_cells (own H b) H, w) →
  wpx F (nc_rpc_free_content b) Q (H, w).
Proof.
  intros (Hs & Ht & Ha) Hn HQ. pose proof (λ l, free_strs F b l Q H w Hs) as Hfree.
  destruct b as [[d|x]| | | | | | | | | | | | | | |ds f c o count neg dep wo wd| | | | | |ds f st e [per a|da sy x]|sub ds f st [per a|da]|];
    cbn [nc_rpc_free_content];
    try (first [apply wpx_free_one|idtac]; apply Hfree; done || apply perm_swap);
    try (apply wpx_free_tail, Hfree; done);
    try (apply wpx_ret; unfold own in HQ; cbn in HQ; by rewrite without_nil in HQ).
  - unfold own in HQ. cbn in HQ, Ht. rewrite app_nil_r in HQ. apply wpx_free; [|done].
    intros q ->. by destruct Ht as (? & ? & ->).
  - unfold own in Hn, HQ. cbn [strs tree_of rpc_array option_list app] in Hn, HQ, Hs.
    eapply wpx_frees_then; [done|done|]. destruct Ha as [Ha Hnull]. destruct o as [a|].
    + destruct Ha as (qs & Ea & [Hc _] & Hq). rewrite app_nil_r in Ea.
      assert (Esl : slots H (Some a) = qs).
      { rewrite (slots_arr _ _ qs []) by (by rewrite app_nil_r). cbn. apply app_nil_r. }
      rewrite Esl in Hn, HQ. by eapply free_getdata.
    + replace (Z.to_nat count) with 0%nat by (specialize (Hnull eq_refl); lia). cbn [free_first].
      apply wpx_bind, wpx_ret, wpx_free; [done|]. cbn [option_list]. rewrite without_app. done.
  - unfold own in Hn, HQ. cbn [strs tree_of rpc_array option_list app] in Hn, HQ, Hs.
    eapply wpx_frees_then; [done|done|]. destruct x as [a|].
    + destruct Ha as (qs & Ea & _ & Hq).
      assert (Esl : slots H (Some a) = qs) by (rewrite (slots_arr _ _ qs [None]) by done; apply app_nil_r).
      rewrite Esl in Hn, HQ. by eapply free_onchange.
    + apply wpx_ret. cbn [option_list slots] in HQ. by rewrite app_nil_r in HQ.
  - apply wpx_bind. eapply wpx_mono; [by apply (Hfree [ds; f; st])|]. by intros [] sw.
Qed.

(** Freeing an RPC object returns its structure and, if it owns its parameters, these. *)
Lemma nc_rpc_free_ok F r b fr (Q : unit → cheap * W → Prop) H w :
  H !! r = Some (CRpc (NcRpc b fr)) → body_ok H b →
  (fr = true → NoDup (own H b ++ [r])) →
  Q tt (without_cells ((if fr then own H b else []) ++ [r]) H, w) →
  wpx F (nc_rpc_free (Some r)) Q (H, w).
Proof.
  intros Hr Hb Hn HQ. unfold nc_rpc_free, c_load. apply wpx_bind, wpx_bind, wpx_gets. simpl. rewrite Hr.
  apply wpx_ret, wpx_bind. cbn [rpc_free rpc_content]. destruct fr.
  - apply list.NoDup_app in Hn as (Hn & Hd & _); [|done]. apply nc_rpc_free_content_ok; [done|done|].
    apply wpx_free; [|by rewrite without_app]. apply live_without; [|set_solver].
    intros q [= <-]. by rewrite Hr.
  - apply wpx_ret, wpx_free; [|done]. intros q [= <-]. by rewrite Hr.
Qed.
End free.

(** ** What the constructors accept and build *)

Definition first_ok (slash : bool) (x : option bytes) : bool := from_option (first_char slash) true x.

(** The checks of the constructors' arguments. *)
Definition rpc_accepted (h : cheap) (args : rpc_body ptr ptr ptr) : bool :=
  let set (ds : NC_DATASTORE) := bool_decide (ds ≠ NC_DATASTORE_ERROR) in
  let given (p : ptr) := bool_decide (p ≠ None) in
  match args with
  | RpcActGeneric (inl d) => match d ≫= (h !!.) with Some (CTree single _) => single | _ => false end
  | RpcActGeneric (inr x) => given x
  | RpcGetconfig s f _ => set s && first_ok true (rstr h f)
  | RpcEdit t _ _ _ e => set t && given e && first_ok false (rstr h e)
  | RpcCopy t _ s u _ => set t && set s && first_ok false (rstr h u)
  | RpcDelete t _ | RpcLock t | RpcUnlock t => set t
  | RpcGet f _ | RpcSubscribe _ f _ _ => first_ok true (rstr h f)
  | RpcKill n | RpcDeletesub n | RpcKillsub n | RpcResyncsub n => negb (n =? 0)
  | RpcCommit _ _ _ _ | RpcDiscard | RpcCancel _ => true
  | RpcValidate s u => set s && first_ok false (rstr h u)
  | RpcGetschema i _ _ => given i
  | RpcGetdata d f _ _ _ _ _ _ _ => given d && first_ok true (rstr h f)
  | RpcEditdata d _ e => given d && given e && first_ok false (rstr h e)
  | RpcEstablishsub f s _ _ _ => given s && first_ok true (rstr h f)
  | RpcModifysub n f _ => negb (n =? 0) && first_ok true (rstr h f)
  | RpcEstablishpush d f _ _ (Periodic n _) => given d && negb (n =? 0) && first_ok true (rstr h f)
  | RpcEstablishpush d f _ _ _ => given d && first_ok true (rstr h f)
  | RpcModifypush n d f _ _ => negb (n =? 0) && given d && first_ok true (rstr h f)
  end.

(** The contents of an RPC: strings, lists of strings and trees in place of pointers. *)
Definition rpc_value := rpc_body (option bytes) (list (option bytes)) (option dnode).

Definition view (h : cheap) (b : rpc_body ptr ptr ptr) : rpc_value :=
  let s := rstr h in
  match b with
  | RpcActGeneric (inl d) => RpcActGeneric (inl (rtree h d))
  | RpcActGeneric (inr x) => RpcActGeneric (inr (s x))
  | RpcGetconfig ds f wd => RpcGetconfig ds (s f) wd
  | RpcEdit t op te er e => RpcEdit t op te er (s e)
  | RpcCopy t u sr us wd => RpcCopy t (s u) sr (s us) wd
  | RpcDelete t u => RpcDelete t (s u)
  | RpcLock t => RpcLock t
  | RpcUnlock t => RpcUnlock t
  | RpcGet f wd => RpcGet (s f) wd
  | RpcKill n => RpcKill n
  | RpcCommit c n p q => RpcCommit c n (s p) (s q)
  | RpcDiscard => RpcDiscard
  | RpcCancel p => RpcCancel (s p)
  | RpcValidate ds u => RpcValidate ds (s u)
  | RpcGetschema i v f => RpcGetschema (s i) (s v) (s f)
  | RpcSubscribe a f b c => RpcSubscribe (s a) (s f) (s b) (s c)
  | RpcGetdata d f c o n neg dep wo wd => RpcGetdata (s d) (s f) (s c) (rarr h o) n neg dep wo wd
  | RpcEditdata d op e => RpcEditdata (s d) op (s e)
  | RpcEstablishsub f a b c e => RpcEstablishsub (s f) (s a) (s b) (s c) (s e)
  | RpcModifysub n f b => RpcModifysub n (s f) (s b)
  | RpcDeletesub n => RpcDeletesub n
  | RpcKillsub n => RpcKillsub n
  | RpcEstablishpush d f b e (Periodic n a) => RpcEstablishpush (s d) (s f) (s b) (s e) (Periodic n (s a))
  | RpcEstablishpush d f b e (OnChange n sy x) => RpcEstablishpush (s d) (s f) (s b) (s e) (OnChange n sy (rarr h x))
  | RpcModifypush n d f b (ModPeriodic m a) => RpcModifypush n (s d) (s f) (s b) (ModPeriodic m (s a))
  | RpcModifypush n d f b (ModOnChange m) => RpcModifypush n (s d) (s f) (s b) (ModOnChange m)
  | RpcResyncsub n => RpcResyncsub n
  end.

(** The strings of one heap are in another. *)
Definition same_strs (H H' : cheap) : Prop := ∀ q s, H !! q = Some (CStr s) → H' !! q = Some (CStr s).

#[export] Instance same_strs_preorder : PreOrder same_strs.
Proof. split; [by intros H q s|]. intros H1 H2 H3 H12 H23 q s Hq. by apply H23, H12. Qed.

Lemma same_strs_sub H H' : H ⊆ H' → same_strs H H'.
Proof. intros Hs q s Hq. by eapply lookup_weaken. Qed.

Definition no_str (H : cheap) (p : positive) : Prop := ∀ s, H !! p ≠ Some (CStr s).

Lemma same_strs_insert H p c : no_str H p → same_strs H (<[p := c]> H).
Proof. intros Hp q s Hq. rewrite lookup_insert_ne; [done|]. intros ->. by apply (Hp s). Qed.

Lemma same_strs_delete H p : no_str H p → same_strs H (delete p H).
Proof. intros Hp q s Hq. rewrite lookup_delete_ne; [done|]. intros ->. by apply (Hp s). Qed.

Lemma str_ok_mono H H' p : same_strs H H' → str_ok H p → str_ok H' p.
Proof. intros Hs. destruct p as [q|]; [|done]. intros (s & Hq & Hl). exists s. split; [by apply Hs|done]. Qed.

Lemma rstr_mono H H' p : same_strs H H' → str_ok H p → rstr H' p = rstr H p.
Proof.
  intros Hs. destruct p as [q|]; [|done]. intros (s & Hq & _). unfold rstr. simpl. by rewrite Hq, (Hs _ _ Hq).
Qed.

(** Duplicating a tree does not touch the transport. *)
Class LyDupLaws (W : Type) `{!Env W, !EnvLaws W, !LyDup W} := {
  lyd_dup_law (t : dnode) (w : W) : no_traffic w (lyd_dup_ok t w).2;
}.

Section build.
Context {W : Type} `{!Env W} `{!EnvLaws W} `{!LyDup W} `{!LyDupLaws W}.
Implicit Types (h H : cheap) (w : W) (st : cheap * W).

(** Memory is available, and [malloc(0)] returns a pointer as in glibc. *)
Definition memory_left : Prop :=
  (∀ n w, 0 ≤ n ≤ 2 ^ 32 → (malloc_ok n w).1 = true) ∧ (∀ t w, (lyd_dup_ok t w).1 = true).

Lemma wpx_new F c (Q : ptr → cheap * W → Prop) H w :
  (∀ p, H !! p = None → Q (Some p) (<[p := c]> H, w)) → wpx F (c_new c) Q (H, w).
Proof.
  intros HQ. unfold c_new. apply wpx_bind, wpx_gets. cbn [fst]. apply wpx_bind, wpx_modify, wpx_ret, HQ.
  apply not_elem_of_dom, is_fresh.
Qed.

Lemma wpx_heap_malloc F n (Q : bool → cheap * W → Prop) H w :
  (∀ w' ok, no_traffic w w' → (memory_left → 0 ≤ n ≤ 2 ^ 32 → ok = true) → Q ok (H, w')) →
  wpx F (on_env (call (malloc_ok n))) Q (H, w).
Proof.
  intros HQ. apply wpx_on_env, wpx_call. apply HQ.
  - destruct (malloc_law n w) as (? & ? & ?). repeat split; lia || done.
  - intros [Hm _] Hn. by apply Hm.
Qed.

Lemma wpx_alloc F c n (Q : ptr → cheap * W → Prop) H w :
  (∀ w', no_traffic w w' → ¬ (memory_left ∧ 0 ≤ n ≤ 2 ^ 32) → Q None (H, w')) →
  (∀ w' p, no_traffic w w' → H !! p = None → Q (Some p) (<[p := c]> H, w')) →
  wpx F (c_alloc c n) Q (H, w).
Proof.
  intros H1 H2. apply wpx_bind, wpx_heap_malloc. intros w' [] Hw Hm.
  - apply wpx_new. intros p Hp. by apply H2.
  - apply wpx_ret, H1; [done|]. intros [Hl Hn]. by discriminate (Hm Hl Hn).
Qed.

Lemma wpx_str F q s (Q : bytes → cheap * W → Prop) H w :
  H !! q = Some (CStr s) → Q s (H, w) → wpx F (c_str (Some q)) Q (H, w).
Proof.
  intros Hq HQ. unfold c_str, c_load. apply wpx_bind, wpx_bind, wpx_gets. simpl. rewrite Hq.
  by apply wpx_ret, wpx_ret.
Qed.

Lemma wpx_store F p c (Q : unit → cheap * W → Prop) H w :
  is_Some (H !! p) → Q tt (<[p := c]> H, w) → wpx F (c_store p c) Q (H, w).
Proof.
  intros Hp HQ. unfold c_store. apply wpx_bind, wpx_gets, wpx_bind. apply wpx_guarded; [by apply bool_decide_eq_true|].
  by apply wpx_modify.
Qed.

Lemma wpx_check F slash x (Q : bool → cheap * W → Prop) H w :
  str_ok H x → Q (first_ok slash (rstr H x)) (H, w) → wpx F (check_first slash x) Q (H, w).
Proof.
  destruct x as [q|]; simpl; intros Hx HQ; [|by apply wpx_ret].
  destruct Hx as (s & Hq & _). apply wpx_bind. eapply wpx_str; [done|]. apply wpx_ret.
  unfold rstr in HQ. simpl in HQ. by rewrite Hq in HQ.
Qed.

(** [strdup] of a string of the heap [h] that [H] extends. *)
Lemma wpx_heap_strdup F h q (Q : ptr → cheap * W → Prop) H w :
  h ⊆ H → str_ok h (Some q) →
  (∀ w', no_traffic w w' → ¬ memory_left → Q None (H, w')) →
  (∀ w' p, no_traffic w w' → H !! p = None → same_strs H (<[p := CStr (default [] (rstr h (Some q)))]> H) →
    str_ok (<[p := CStr (default [] (rstr h (Some q)))]> H) (Some p) →
    rstr (<[p := CStr (default [] (rstr h (Some q)))]> H) (Some p) = rstr h (Some q) →
    Q (Some p) (<[p := CStr (default [] (rstr h (Some q)))]> H, w')) →
  wpx F (c_strdup (Some q)) Q (H, w).
Proof.
  intros Hs (s & Hq & Hl) H1 H2.
  assert (E : rstr h (Some q) = Some s) by (unfold rstr; simpl; by rewrite Hq). rewrite E in H2. cbn [default from_option] in H2.
  apply wpx_bind. eapply wpx_str; [by eapply lookup_weaken|]. apply wpx_alloc.
  - intros w' Hw Hm. apply H1; [done|]. intros Hml. apply Hm. split; [done|]. pose proof (zlen_nonneg s). lia.
  - intros w' p Hw Hp. apply H2; [done|done| | |].
    + apply same_strs_insert. intros s'. by rewrite Hp.
    + exists s. by rewrite lookup_insert_eq.
    + unfold rstr. simpl. by rewrite lookup_insert_eq.
Qed.

(** *** Parameters *)

Section params.
Context (h : cheap) (pt : NC_PARAMTYPE) (w0 : W).

(** The field [y] of the object for the argument [x]. *)
Definition kept H (x y : ptr) : Prop :=
  str_ok H y ∧ (memory_left → rstr H y = rstr h x) ∧ (pt ≠ NC_PARAMTYPE_DUP_AND_FREE → y = x).

Definition copies (l : list positive) : list positive :=
  if decide (pt = NC_PARAMTYPE_DUP_AND_FREE) then l else [].

(** The object [r] is being filled: its first fields [ys] are made from the
    arguments [xs], and the cells [ex] are new too. *)
Definition filling (r : positive) (xs ys : list ptr) (ex : list positive) st : Prop :=
  grown h st.1 (r :: copies (nonnull ys) ++ ex) ∧ Forall2 (kept st.1) xs ys ∧
  st.1 !! r = Some CRaw ∧ no_traffic w0 st.2.

Lemma kept_mono H H' x y : same_strs H H' → kept H x y → kept H' x y.
Proof.
  intros Hs (Hy & Hm & Hp). split; [by eapply str_ok_mono|]. split; [|done].
  intros Hml. by rewrite (rstr_mono _ _ _ Hs Hy), Hm.
Qed.

Lemma kepts_mono H H' xs ys : same_strs H H' → Forall2 (kept H) xs ys → Forall2 (kept H') xs ys.
Proof. intros Hs. apply Forall2_impl. intros x y. by apply kept_mono. Qed.

Lemma kept_strs H xs ys : Forall2 (kept H) xs ys → Forall (str_ok H) ys.
Proof. induction 1 as [|x y xs ys [Hk _] _ IH]; by constructor. Qed.

Lemma kept_views H xs ys : Forall2 (kept H) xs ys → memory_left → rstr H <$> ys = rstr h <$> xs.
Proof.
  intros Hk Hm. induction Hk as [|x y xs ys (_ & Hv & _) _ IH]; [done|]. cbn. f_equal; [by apply Hv|done].
Qed.

Lemma kept_same H xs ys : Forall2 (kept H) xs ys → pt ≠ NC_PARAMTYPE_DUP_AND_FREE → ys = xs.
Proof.
  intros Hk Hp. induction Hk as [|x y xs ys (_ & _ & Hv) _ IH]; [done|]. f_equal; [by apply Hv|done].
Qed.

Lemma kept_null H : kept H None None.
Proof. done. Qed.

Lemma nonnull_snoc l p : nonnull (l ++ [p]) = nonnull l ++ option_list p.
Proof. unfold nonnull. rewrite omap_app. by destruct p. Qed.

Lemma filling_snoc_same r xs ys x st :
  filling r xs ys [] st → kept st.1 x x → (pt = NC_PARAMTYPE_DUP_AND_FREE → x = None) →
  filling r (xs ++ [x]) (ys ++ [x]) [] st.
Proof.
  intros (Hg & Hk & Hr & Hw) Hx Hp. split; [|split; [by apply Forall2_app; [|constructor]|done]].
  unfold copies in *. case_decide; [|done]. rewrite nonnull_snoc, Hp by done. cbn [option_list]. by rewrite app_nil_r.
Qed.

Lemma wpx_param F r xs ys x (Q : ptr → cheap * W → Prop) st :
  filling r xs ys [] st → str_ok h x →
  (∀ y st', filling r (xs ++ [x]) (ys ++ [y]) [] st' → Q y st') →
  wpx F (param pt x) Q st.
Proof.
  intros Hf Hx HQ. unfold param. destruct x as [q|].
  2: { apply wpx_ret, HQ, filling_snoc_same; [done|apply kept_null|done]. }
  rewrite bool_decide_true by done. cbn [andb]. pose proof Hf as (Hg & Hk & Hr & Hw). case_bool_decide as Hpt.
  - destruct st as [H w]. apply (wpx_heap_strdup F h); [apply Hg|done| |].
    + intros w' Hw' Hm. apply HQ. split; [|split; [|split; [done|by etrans]]].
      * unfold copies in *. rewrite decide_True in * by done. rewrite nonnull_snoc. cbn [option_list].
        by rewrite app_nil_r.
      * apply Forall2_app; [done|]. repeat constructor; [by intros ?|done].
    + intros w' p Hw' Hp Hss Hso Hrs. apply HQ. cbn [fst snd] in *. split; [|split; [|split; [|by etrans]]].
      * pose proof (grown_new _ _ _ p (CStr (default [] (rstr h (Some q)))) Hg Hp) as Hg'.
        unfold copies in *. rewrite decide_True in * by done. rewrite nonnull_snoc. cbn [option_list].
        by rewrite !app_nil_r in *.
      * apply Forall2_app; [by eapply kepts_mono|]. constructor; [|done]. repeat split; done.
      * cbn [fst]. rewrite lookup_insert_ne; [done|congruence].
  - apply wpx_ret, HQ, filling_snoc_same; [done| |done].
    assert (Hss : same_strs h st.1) by apply same_strs_sub, Hg.
    split; [by eapply str_ok_mono|]. split; [|done]. intros _. by apply rstr_mono.
Qed.

(** What a constructor called with [args] leaves: nothing new if the arguments are
    not accepted or memory ran out, else an object with the contents of the
    arguments, that owns its copies of them. *)
Definition built (args : rpc_body ptr ptr ptr) (p : ptr) st : Prop :=
  no_traffic w0 st.2 ∧
  match p with
  | None => st.1 = h ∧ (memory_left → rpc_accepted h args = false)
  | Some r =>
    rpc_accepted h args = true ∧ ∃ b fr, st.1 !! r = Some (CRpc (NcRpc b fr)) ∧
      grown h st.1 (r :: copies (own st.1 b)) ∧ body_ok st.1 b ∧
      (memory_left → view st.1 b = view h args) ∧
      (pt ≠ NC_PARAMTYPE_DUP_AND_FREE → b = args) ∧
      (fr = free_flag pt ∨ own st.1 b = [] ∧ own h args = [])
  end.

(** RPCs with string parameters only. *)
Definition simple (b : rpc_body ptr ptr ptr) : Prop :=
  tree_of b = None ∧ rpc_array b = None ∧ ∀ H, Forall (str_ok H) (strs b) → body_ok H b.

Lemma own_simple H b : simple b → own H b = nonnull (strs b).
Proof. intros (E1 & E2 & _). unfold own. rewrite E1, E2. cbn. by rewrite !app_nil_r. Qed.

Lemma object_filled r xs ys ex st c :
  filling r xs ys ex st →
  grown h (<[r := c]> st.1) (r :: copies (nonnull ys) ++ ex) ∧ Forall2 (kept (<[r := c]> st.1)) xs ys ∧
  same_strs st.1 (<[r := c]> st.1).
Proof.
  intros (Hg & Hk & Hr & Hw).
  assert (Hss : same_strs st.1 (<[r := c]> st.1)) by (apply same_strs_insert; intros s; by rewrite Hr).
  split; [eapply grown_store; [done|done|by left]|]. split; [by eapply kepts_mono|done].
Qed.

Lemma built_simple r args b fr st :
  rpc_accepted h args = true → filling r (strs args) (strs b) [] st → simple b → simple args →
  (fr = free_flag pt ∨ strs b = [] ∧ strs args = []) →
  (∀ H, rstr H <$> strs b = rstr h <$> strs args → view H b = view h args) →
  (strs b = strs args → b = args) →
  built args (Some r) (<[r := CRpc (NcRpc b fr)]> st.1, st.2).
Proof.
  intros Hacc Hf Hb Ha Hfr Hv He. destruct (object_filled _ _ _ _ _ (CRpc (NcRpc b fr)) Hf) as (Hg & Hk & _).
  split; [apply Hf|]. split; [done|]. exists b, fr. cbn [fst]. rewrite lookup_insert_eq, !own_simple by done.
  rewrite app_nil_r in Hg. split; [done|]. split; [done|]. split; [by apply Hb, (kept_strs _ (strs args))|].
  split; [intros Hm; by apply Hv, kept_views|]. split; [intros Hp; by apply He, (kept_same _ _ _ Hk)|].
  destruct Hfr as [?|[-> ->]]; [by left|by right].
Qed.

Lemma filling_start r c w : c = CRaw → h !! r = None → no_traffic w0 w → filling r [] [] [] (<[r := c]> h, w).
Proof.
  intros -> Hr Hw. split; [|split; [constructor|split; [apply lookup_insert_eq|done]]].
  pose proof (grown_new _ _ _ r CRaw (grown_refl h) Hr) as Hg. unfold copies. by case_decide.
Qed.

Lemma new_rpc_ok F size fill args :
  0 ≤ size ≤ 2 ^ 32 → rpc_accepted h args = true → simple args →
  (∀ r st (Q : rpc_object → cheap * W → Prop), filling r [] [] [] st →
    (∀ b fr st', filling r (strs args) (strs b) [] st' → simple b →
      (fr = free_flag pt ∨ strs b = [] ∧ strs args = []) →
      (∀ H, rstr H <$> strs b = rstr h <$> strs args → view H b = view h args) →
      (strs b = strs args → b = args) → Q (NcRpc b fr) st') →
    wpx F fill Q st) →
  wpx F (new_rpc size fill) (built args) (h, w0).
Proof.
  intros Hsz Hacc Ha Hfill. unfold new_rpc. apply wpx_bind, wpx_alloc.
  - intros w' Hw Hm. apply wpx_ret. split; [done|]. split; [done|]. intros Hml. by destruct Hm.
  - intros w' r Hw Hr. apply wpx_bind, (Hfill r); [by apply filling_start|].
    intros b fr [H w] Hf Hb Hfr Hv He. apply wpx_bind, wpx_store.
    + destruct Hf as (_ & _ & E & _). cbn in E. by rewrite E.
    + apply wpx_ret. by apply (built_simple r args b fr (H, w)).
Qed.

Lemma built_refused args : rpc_accepted h args = false → built args None (h, w0).
Proof. intros E. by repeat split. Qed.

Ltac refuse := apply wpx_ret, built_refused; cbn [rpc_accepted]; subst;
  repeat match goal with E : _ = _ |- _ => rewrite E end; rewrite ?andb_false_r; done.

Ltac accept := cbn [rpc_accepted]; repeat match goal with E : _ = _ |- _ => rewrite E end;
  repeat (rewrite bool_decide_true by done); done.

(** One check of a constructor. *)
Ltac check_arg := lazymatch goal with
  | |- wpx _ (if bool_decide ?P then _ else _) _ _ => destruct (decide P); [rewrite bool_decide_true by done|rewrite bool_decide_false by done]; [refuse|]
  | |- wpx _ (if ?n =? 0 then _ else _) _ _ => destruct (n =? 0) eqn:?; [refuse|]
  | |- wpx _ (check_first ?b ?x ≫= _) _ _ =>
    apply wpx_bind, wpx_check; [done|]; destruct (first_ok b (rstr h x)) eqn:?; cbn [negb]; [|refuse]
  end.

Ltac fill := intros r st Q Hf HQ;
  repeat (apply wpx_bind; eapply wpx_param; [exact Hf|done|]; clear Hf; intros ? ? Hf; cbn [app] in Hf);
  apply wpx_ret, HQ; [exact Hf|done|by (left + right)|intros ? [=]; cbn [view]; congruence|by intros [= ]; subst].

(** The constructors that only have string parameters. *)
Definition plain_args (args : rpc_body ptr ptr ptr) : Prop :=
  match args with
  | RpcActGeneric (inl _) | RpcGetdata _ _ _ _ _ _ _ _ _ | RpcEstablishpush _ _ _ _ (OnChange _ _ _) => False
  | _ => True
  end.

Lemma plain_simple args : plain_args args → simple args.
Proof.
  intros Hp. destruct args as [[]| | | | | | | | | | | | | | | | | | | | |? ? ? ? []|? ? ? ? []|]; try done;
    (split; [done|]; split; [done|]; intros H Hs; by repeat split).
Qed.

Lemma construct_plain F args : body_ok h args → plain_args args → wpx F (construct args pt) (built args) (h, w0).
Proof.
  intros (Hs & _) Hp. pose proof (plain_simple _ Hp) as Hsim.
  destruct args as [[d|x]| | | | | | | | | | | | | | |ds f c o count neg dep wo wd| | | | | |ds f sp e [per a|da sy x]|sub ds f sp [per a|da]|];
    try done; cbn [strs] in Hs; rewrite ?list.Forall_cons in Hs; destruct_and?; cbn [construct].
  { unfold nc_rpc_act_generic_xml. destruct x as [x|]; [|refuse]. apply new_rpc_ok; [lia|accept|done|fill]. }
  all: unfold nc_rpc_getconfig, nc_rpc_edit, nc_rpc_copy, nc_rpc_delete, nc_rpc_lock, nc_rpc_unlock, nc_rpc_get,
    nc_rpc_kill, nc_rpc_commit, nc_rpc_discard, nc_rpc_cancel, nc_rpc_validate, nc_rpc_getschema,
    nc_rpc_subscribe, nc_rpc_editdata, nc_rpc_establishsub, nc_rpc_modifysub, nc_rpc_deletesub, nc_rpc_killsub,
    nc_rpc_establishpush_periodic, nc_rpc_modifypush_periodic, nc_rpc_modifypush_onchange, nc_rpc_resyncsub.
  all: repeat check_arg; apply new_rpc_ok; [lia|accept|done|fill].
Qed.

(** *** [nc_rpc_act_generic] *)

Lemma built_tree r d d' t H w :
  rpc_accepted h (RpcActGeneric (inl (Some d))) = true →
  grown h H (r :: copies [d']) → H !! d' = Some (CTree true t) → rtree h (Some d) = Some t → d' ≠ r →
  no_traffic w0 w → is_Some (H !! r) → (pt ≠ NC_PARAMTYPE_DUP_AND_FREE → d' = d) →
  built (RpcActGeneric (inl (Some d))) (Some r)
    (<[r := CRpc (NcRpc (RpcActGeneric (inl (Some d'))) (free_flag pt))]> H, w).
Proof.
  intros Hacc Hg Hd Ht Hne Hw [c Hr] He. split; [done|]. split; [done|]. eexists _, _. cbn [fst].
  assert (Hd' : <[r:=CRpc (NcRpc (RpcActGeneric (inl (Some d'))) (free_flag pt))]> H !! d' = Some (CTree true t))
    by (by rewrite lookup_insert_ne).
  split; [apply lookup_insert_eq|]. split; [|split; [|split; [|split; [|by left]]]].
  - eapply grown_store; [done|done|by left].
  - split; [constructor|]. split; [|done]. by exists true, t.
  - intros _. cbn [view]. rewrite Ht. unfold rtree. cbn [mbind option_bind]. by rewrite Hd'.
  - intros Hp. by rewrite He.
Qed.

Lemma grown_undo r c : h !! r = None → without_cells [r] (<[r := c]> h) = h.
Proof. intros Hr. rewrite without_single. by apply delete_insert_id. Qed.

Lemma construct_tree F data :
  body_ok h (RpcActGeneric (inl data)) →
  wpx F (nc_rpc_act_generic data pt) (built (RpcActGeneric (inl data))) (h, w0).
Proof.
  intros (_ & Ht & _). unfold nc_rpc_act_generic. destruct data as [d|]; [|refuse]. cbn in Ht. destruct Ht as (b & t & Hd).
  unfold c_load. apply wpx_bind, wpx_bind, wpx_gets. cbn [fst mbind option_bind]. rewrite Hd. apply wpx_ret.
  destruct b; [|apply wpx_ret, built_refused; cbn; by rewrite Hd].
  assert (Hacc : rpc_accepted h (RpcActGeneric (inl (Some d))) = true) by (cbn; by rewrite Hd).
  assert (Et : rtree h (Some d) = Some t) by (unfold rtree; cbn; by rewrite Hd).
  apply wpx_bind, wpx_alloc; [intros w' Hw Hm; apply wpx_ret; repeat split; [apply Hw..|]; intros Hml; by destruct Hm|].
  intros w' r Hw Hr. pose proof (grown_new _ _ _ r CRaw (grown_refl h) Hr) as Hg. case_bool_decide as Hpt.
  - apply wpx_bind, wpx_on_env, wpx_call. destruct (lyd_dup_ok t w') as [ok w2] eqn:E2.
    assert (Hw2 : no_traffic w0 w2) by (etrans; [done|]; pose proof (lyd_dup_law t w') as L; by rewrite E2 in L).
    apply wpx_bind. destruct ok; cbn [fst snd].
    + apply wpx_new. intros d' Hd'. apply wpx_bind. apply wpx_store.
      * rewrite lookup_insert_ne by (intros ->; by rewrite lookup_insert_eq in Hd'). by rewrite lookup_insert_eq.
      * apply wpx_ret. apply (built_tree r d d' t); cbn [fst snd]; try done.
        -- pose proof (grown_new _ _ _ d' (CTree true t) Hg Hd') as Hg'. unfold copies. by rewrite decide_True.
        -- apply lookup_insert_eq.
        -- intros ->. by rewrite lookup_insert_eq in Hd'.
        -- rewrite lookup_insert_ne by (intros ->; by rewrite lookup_insert_eq in Hd'). by rewrite lookup_insert_eq.
    + apply wpx_ret, wpx_bind, wpx_free; [intros q [= <-]; by rewrite lookup_insert_eq|]. apply wpx_ret.
      split; [done|]. split; [by apply grown_undo|].
      intros [_ Hdup]. specialize (Hdup t w'). rewrite E2 in Hdup. done.
  - apply wpx_bind. apply wpx_store; [by rewrite lookup_insert_eq|]. apply wpx_ret.
    apply (built_tree r d d t); cbn [fst snd]; try done.
    + unfold copies. by rewrite decide_False.
    + rewrite lookup_insert_ne; [done|congruence].
    + congruence.
    + by rewrite lookup_insert_eq.
Qed.

(** *** Arrays *)

Lemma filling_perm r xs ys ex ex' st : ex ≡ₚ ex' → filling r xs ys ex st → filling r xs ys ex' st.
Proof. intros Hp (Hg & Hr). split; [|done]. eapply grown_perm; [|apply Hg]. by rewrite Hp. Qed.

Lemma filling_new r xs ys ex H w p c w' :
  filling r xs ys ex (H, w) → H !! p = None → no_traffic w w' → filling r xs ys (ex ++ [p]) (<[p := c]> H, w').
Proof.
  intros (Hg & Hk & Hr & Hw) Hp Hw'. cbn [fst snd] in *. split; [|split; [|split; [|by etrans]]]; cbn [fst].
  - rewrite app_assoc. by apply (grown_new _ _ (r :: copies (nonnull ys) ++ ex)).
  - eapply kepts_mono; [|done]. apply same_strs_insert. intros s. by rewrite Hp.
  - rewrite lookup_insert_ne; [done|congruence].
Qed.

Lemma filling_store r xs ys ex H w a l l' :
  filling r xs ys ex (H, w) → H !! a = Some (CArr l) → a ∈ ex → filling r xs ys ex (<[a := CArr l']> H, w).
Proof.
  intros (Hg & Hk & Hr & Hw) Ha Hin. cbn [fst snd] in *. split; [|split; [|split; [|done]]]; cbn [fst].
  - eapply grown_store; [done|done|]. set_solver.
  - eapply kepts_mono; [|done]. apply same_strs_insert. intros s. by rewrite Ha.
  - rewrite lookup_insert_ne; [done|congruence].
Qed.

Lemma grown_delete H l p : grown h H (p :: l) → grown h (delete p H) l.
Proof.
  intros (Hs & Hn & Hl). apply list.NoDup_cons in Hn as [Hp Hn].
  pose proof (proj1 (Hl p) (list_elem_of_here p l)) as [_ Hh].
  split; [|split; [done|]].
  - apply map_subseteq_spec. intros q c Hq. rewrite lookup_delete_ne by congruence. by eapply lookup_weaken.
  - intros q. specialize (Hl q). rewrite list.elem_of_cons in Hl. destruct (decide (q = p)) as [->|Hne].
    + rewrite lookup_delete_eq. split; [done|]. by intros [[] _].
    + rewrite lookup_delete_ne by done. rewrite <- Hl. naive_solver.
Qed.

Lemma filling_free r xs ys ex H w a l :
  filling r xs ys (a :: ex) (H, w) → H !! a = Some (CArr l) → filling r xs ys ex (delete a H, w).
Proof.
  intros (Hg & Hk & Hr & Hw) Ha. cbn [fst snd] in *. split; [|split; [|split; [|done]]]; cbn [fst].
  - apply grown_delete. eapply grown_perm; [|apply Hg]. rewrite <- Permutation_middle. apply perm_swap.
  - eapply kepts_mono; [|done]. apply same_strs_delete. intros s. by rewrite Ha.
  - rewrite lookup_delete_ne; [done|congruence].
Qed.

Lemma arr_ok_insert H r c last n y :
  H !! r = Some CRaw → upto_null last = [] → arr_ok H last n y →
  arr_ok (<[r := c]> H) last n y ∧ slots (<[r := c]> H) y = slots H y ∧ rarr (<[r := c]> H) y = rarr H y.
Proof.
  intros Hr E. destruct y as [a|]; [|done]. intros (qs & Ha & Hn & Hq).
  assert (Ha' : <[r := c]> H !! a = Some (CArr ((Some <$> qs) ++ last))) by (rewrite lookup_insert_ne; congruence).
  assert (Hss : same_strs H (<[r := c]> H)) by (apply same_strs_insert; intros s; by rewrite Hr).
  assert (Es : slots (<[r := c]> H) (Some a) = slots H (Some a)) by (by rewrite !(slots_arr _ _ qs last)).
  split; [|split; [done|]].
  - exists qs. split; [done|]. split; [done|]. eapply Forall_impl; [|apply Hq]. intros e. by apply str_ok_mono.
  - unfold rarr. rewrite Es, (slots_arr _ _ qs last), E, app_nil_r by done. rewrite list.Forall_forall in Hq.
    apply list_fmap_ext. intros i q Hi. apply rstr_mono; [done|]. by apply Hq, (list_elem_of_lookup_2 _ i).
Qed.

(** An object with an array parameter, [x] for the argument and [y] for the field. *)
Lemma built_array r args b ex last n x y H w :
  rpc_accepted h args = true → filling r (strs args) (strs b) ex (H, w) →
  tree_of b = None → rpc_array b = y → ex ≡ₚ copies (slots H y ++ option_list y) →
  upto_null last = [] → arr_ok H last n y → (memory_left → rarr H y = rarr h x) →
  (pt ≠ NC_PARAMTYPE_DUP_AND_FREE → y = x) →
  (∀ H', Forall (str_ok H') (strs b) → arr_ok H' last n y → body_ok H' b) →
  (∀ H', rstr H' <$> strs b = rstr h <$> strs args → rarr H' y = rarr h x → view H' b = view h args) →
  (strs b = strs args → y = x → b = args) →
  built args (Some r) (<[r := CRpc (NcRpc b (free_flag pt))]> H, w).
Proof.
  intros Hacc Hf Ht Hy Hex Hl Ha Hm Hpt Hb Hv He.
  destruct (object_filled _ _ _ _ _ (CRpc (NcRpc b (free_flag pt))) Hf) as (Hg & Hk & _). cbn [fst] in *.
  destruct Hf as (_ & _ & Hr & Hw). cbn [fst snd] in *.
  destruct (arr_ok_insert _ _ (CRpc (NcRpc b (free_flag pt))) _ _ _ Hr Hl Ha) as (Ha' & Es & Er).
  split; [done|]. split; [done|]. exists b, (free_flag pt). cbn [fst].
  split; [apply lookup_insert_eq|]. split; [|split; [|split; [|split; [|by left]]]].
  - eapply grown_perm; [|apply Hg]. constructor. unfold own. rewrite Ht, Hy, Es, Hex.
    unfold copies. case_decide; [|done]. by cbn [option_list app].
  - apply Hb; [by eapply kept_strs|done].
  - intros Hml. apply Hv; [by apply kept_views|]. by rewrite Er, Hm.
  - intros Hp. apply He; [by apply (kept_same _ _ _ Hk)|by apply Hpt].
Qed.

(** The strings [qs] copy the first elements of [src]. *)
Definition copied (src qs : list positive) H : Prop :=
  Forall (λ q, str_ok H (Some q)) qs ∧
  (memory_left → (λ q, rstr H (Some q)) <$> qs = (λ q, rstr h (Some q)) <$> take (length qs) src).

Lemma copied_mono src qs H H' : same_strs H H' → copied src qs H → copied src qs H'.
Proof.
  intros Hs (Hq & Hm). rewrite list.Forall_forall in Hq. split.
  - apply list.Forall_forall. intros q Hin. by eapply str_ok_mono, Hq.
  - intros Hml. rewrite <- Hm by done. apply list_fmap_ext. intros i q Hi. apply rstr_mono; [done|].
    by apply Hq, (list_elem_of_lookup_2 _ i).
Qed.

Lemma copied_snoc src qs H q p :
  copied src qs H → src !! length qs = Some q → str_ok H (Some p) →
  rstr H (Some p) = rstr h (Some q) → copied src (qs ++ [p]) H.
Proof.
  intros (Hq & Hm) Hsrc Hp Hv. split; [apply Forall_app_2; [done|by constructor]|].
  intros Hml. rewrite length_app, Nat.add_1_r, (take_S_r _ _ _ Hsrc), !fmap_app, Hm by done. cbn. by rewrite Hv.
Qed.

Definition origin_inv r xs ys (src : list positive) a qs st : Prop :=
  filling r xs ys (a :: qs) st ∧ st.1 !! a = Some (CArr (Some <$> qs)) ∧ copied src qs st.1.

Lemma dup_origin_ok F r xs ys src o a n (Q : bool * Z → cheap * W → Prop) :
  h !! o = Some (CArr (Some <$> src)) → Forall (λ q, str_ok h (Some q)) src →
  (∀ ok qs st, origin_inv r xs ys src a qs st →
    (if ok : bool then length qs = length src else (length qs ≤ length src)%nat ∧ ¬ memory_left) → Q (ok, Z.of_nat (length qs)) st) →
  ∀ qs st, origin_inv r xs ys src a qs st → (length qs + n = length src)%nat →
  wpx F (dup_origin (Some o) a (length qs) n) Q st.
Proof.
  intros Ho Hsrc HQ. induction n as [|n IH]; intros qs [H w] Hi Hn; cbn [dup_origin].
  { apply wpx_ret. apply (HQ true); [done|lia]. }
  destruct (lookup_lt_is_Some_2 src (length qs)) as [q Hq]; [lia|]. pose proof Hi as (Hf & Ha & Hc). cbn [fst] in *.
  assert (Hsub : h ⊆ H) by apply Hf.
  apply wpx_bind. eapply wpx_arr; [by eapply lookup_weaken|]. rewrite list_lookup_fmap, Hq. cbn [fmap option_fmap option_map].
  apply wpx_bind, (wpx_heap_strdup F h); [done|by eapply Forall_lookup_1 in Hsrc| |].
  { intros w' Hw Hm. apply wpx_ret. apply (HQ false qs); [|split; [lia|done]]. split; [|done].
    destruct Hf as (? & ? & ? & Hw'). do 3 (split; [done|]). cbn [snd] in *. by etrans. }
  intros w' p Hw Hp Hss Hso Hrs. set (H1 := <[p := _]> H) in *.
  pose proof (filling_new _ _ _ _ _ _ p (CStr (default [] (rstr h (Some q)))) w' Hf Hp Hw) as Hf1.
  assert (Ha1 : H1 !! a = Some (CArr (Some <$> qs))) by (unfold H1; rewrite lookup_insert_ne; congruence).
  apply wpx_bind. eapply wpx_arr; [done|]. apply wpx_bind. apply wpx_store; [by rewrite Ha1|].
  assert (Hss2 : same_strs H1 (<[a := CArr ((Some <$> qs) ++ [Some p])]> H1))
    by (apply same_strs_insert; intros s; by rewrite Ha1).
  replace (length qs + 1)%nat with (length (qs ++ [p])) by (rewrite length_app; cbn; lia).
  apply IH; [|rewrite length_app; cbn; lia]. split; [|split; cbn [fst]].
  - eapply filling_store; [exact Hf1|done|]. cbn. by left.
  - rewrite lookup_insert_eq, fmap_app. done.
  - eapply copied_snoc; [|done| |].
    + eapply copied_mono, Hc. by etrans.
    + by eapply str_ok_mono.
    + rewrite <- Hrs. by apply rstr_mono.
Qed.

Lemma filling_time r xs ys ex H w w' : filling r xs ys ex (H, w) → no_traffic w w' → filling r xs ys ex (H, w').
Proof. intros (? & ? & ? & Hw) Hw'. do 3 (split; [done|]). cbn [snd] in *. by etrans. Qed.

Lemma copied_nil src H : copied src [] H.
Proof. split; [constructor|done]. Qed.

Lemma copied_all src qs H a o last last' :
  upto_null last = [] → upto_null last' = [] →
  copied src qs H → length qs = length src → H !! a = Some (CArr ((Some <$> qs) ++ last)) →
  h !! o = Some (CArr ((Some <$> src) ++ last')) →
  slots H (Some a) = qs ∧ (memory_left → rarr H (Some a) = rarr h (Some o)).
Proof.
  intros El El' (Hq & Hm) Hlen Ha Ho. unfold rarr.
  rewrite (slots_arr _ _ qs last), (slots_arr _ _ src last'), El, El', !app_nil_r by done.
  split; [done|]. intros Hml. rewrite (Hm Hml), Hlen, firstn_all. done.
Qed.

Lemma arr_ok_sub H last n y :
  h ⊆ H → upto_null last = [] → arr_ok h last n y → arr_ok H last n y ∧ rarr H y = rarr h y.
Proof.
  intros Hs E. destruct y as [a|]; [|done]. intros (qs & Ha & Hn & Hq). pose proof (same_strs_sub _ _ Hs) as Hss.
  rewrite list.Forall_forall in Hq. assert (Ha' : H !! a = Some (CArr ((Some <$> qs) ++ last))) by (by eapply lookup_weaken).
  split.
  - exists qs. split; [done|]. split; [done|]. apply list.Forall_forall. intros q Hin. by eapply str_ok_mono, Hq.
  - unfold rarr. rewrite !(slots_arr _ _ qs last), E, app_nil_r by done.
    apply list_fmap_ext. intros i q Hi. apply rstr_mono; [done|]. by apply Hq, (list_elem_of_lookup_2 _ i).
Qed.

(** The error path of a constructor: the unfinished object is freed with its copies. *)
Lemma undo_rpc F r xs b ex last n y (Q : ptr → cheap * W → Prop) H w :
  pt = NC_PARAMTYPE_DUP_AND_FREE → filling r xs (strs b) ex (H, w) →
  tree_of b = None → rpc_array b = y → ex ≡ₚ slots H y ++ option_list y →
  upto_null last = [] → arr_ok H last n y →
  (∀ H', Forall (str_ok H') (strs b) → arr_ok H' last n y → body_ok H' b) →
  (∀ w', no_traffic w0 w' → Q None (h, w')) →
  wpx F (c_store r (CRpc (NcRpc b (free_flag pt)));; nc_rpc_free (Some r);; mret None) Q (H, w).
Proof.
  intros Hpt Hf Ht Hy Hex Hl Ha Hb HQ.
  destruct (object_filled _ _ _ _ _ (CRpc (NcRpc b (free_flag pt))) Hf) as (Hg & Hk & _).
  destruct Hf as (_ & _ & Hr & Hw). cbn [fst snd] in *.
  destruct (arr_ok_insert _ _ (CRpc (NcRpc b (free_flag pt))) _ _ _ Hr Hl Ha) as (Ha' & Es & _).
  apply wpx_bind. apply wpx_store; [by rewrite Hr|]. set (H' := <[r := _]> H) in *.
  assert (Hg' : grown h H' (own H' b ++ [r])).
  { eapply grown_perm, Hg. rewrite <- Permutation_cons_append. constructor. unfold own, copies.
    rewrite Ht, Hy, Es, Hex, decide_True by done. by cbn [option_list app]. }
  apply wpx_bind. eapply nc_rpc_free_ok; [apply lookup_insert_eq| | |].
  - apply Hb; [by eapply kept_strs|done].
  - intros _. apply Hg'.
  - assert (E : free_flag pt = true) by (unfold free_flag; by rewrite Hpt).
    apply wpx_ret. rewrite E, (grown_without h) by done. by apply HQ.
Qed.

Section getdata.
Context (d f c o : ptr) (count : Z) (neg : bool) (dep : Z) (wo : bool) (wd : NC_WD_MODE).
Let args : rpc_body ptr ptr ptr := RpcGetdata d f c o count neg dep wo wd.
Let len (n : nat) : Prop := Z.of_nat n = count ∧ count < 2 ^ 29.

Lemma getdata_finish F r d' f' c' o' ex H w :
  rpc_accepted h args = true → filling r [d; f; c] [d'; f'; c'] ex (H, w) →
  ex ≡ₚ copies (slots H o' ++ option_list o') → arr_ok H [] len o' → (o' = None → count ≤ 0) →
  (memory_left → rarr H o' = rarr h o) → (pt ≠ NC_PARAMTYPE_DUP_AND_FREE → o' = o) →
  wpx F (c_store r (CRpc (NcRpc (RpcGetdata d' f' c' o' count neg dep wo wd) (free_flag pt)));; mret (Some r))
    (built args) (H, w).
Proof.
  intros Hacc Hf Hex Ha Hn Hm He. apply wpx_bind. apply wpx_store.
  { destruct Hf as (_ & _ & E & _). cbn in E. by rewrite E. }
  apply wpx_ret. eapply (built_array r args _ ex [] len o o'); try done.
  - intros H' [=] E. unfold args. cbn [view]. congruence.
  - intros [= -> -> ->] ->. done.
Qed.

Lemma getdata_error F r d' f' c' o' ex n H w :
  pt = NC_PARAMTYPE_DUP_AND_FREE → ¬ memory_left → filling r [d; f; c] [d'; f'; c'] ex (H, w) →
  ex ≡ₚ slots H o' ++ option_list o' →
  arr_ok H [] (λ m, Z.of_nat m = n ∧ n < 2 ^ 29) o' → (o' = None → n ≤ 0) →
  wpx F (c_store r (CRpc (NcRpc (RpcGetdata d' f' c' o' n false 0 false NC_WD_UNKNOWN) (free_flag pt)));;
      nc_rpc_free (Some r);; mret None) (built args) (H, w).
Proof.
  intros Hpt Hm Hf Hex Ha Hn.
  apply (undo_rpc F r [d; f; c] (RpcGetdata d' f' c' o' n false 0 false NC_WD_UNKNOWN) ex []
    (λ m, Z.of_nat m = n ∧ n < 2 ^ 29) o'); done.
Qed.
End getdata.

Lemma construct_getdata F d f c o count neg dep wo wd :
  body_ok h (RpcGetdata d f c o count neg dep wo wd) →
  wpx F (nc_rpc_getdata d f c o count neg dep wo wd pt) (built (RpcGetdata d f c o count neg dep wo wd)) (h, w0).
Proof.
  intros (Hs & _ & Ha & Hnull). cbn [strs] in Hs. rewrite !list.Forall_cons in Hs. destruct Hs as (Hd & Hf & Hc & _).
  unfold nc_rpc_getdata. check_arg. check_arg.
  assert (Hacc : rpc_accepted h (RpcGetdata d f c o count neg dep wo wd) = true) by accept.
  apply wpx_bind, wpx_alloc; [intros w' Hw Hm; apply wpx_ret; repeat split; [apply Hw..|]; intros Hml; by destruct Hm|].
  intros w' r Hw Hr. pose proof (filling_start r CRaw w' eq_refl Hr Hw) as Hi.
  apply wpx_bind. eapply wpx_param; [exact Hi|done|]. clear Hi. intros d' st1 Hi.
  apply wpx_bind. eapply wpx_param; [exact Hi|done|]. clear Hi. intros f' st2 Hi.
  apply wpx_bind. eapply wpx_param; [exact Hi|done|]. clear Hi. intros c' [H1 w1] Hi. cbn [app] in Hi. cbv zeta.
  assert (Hsub : h ⊆ H1) by apply Hi.
  destruct (decide (is_Some o ∧ pt = NC_PARAMTYPE_DUP_AND_FREE)) as [[[oq ->] Hpt]|Hno].
  - rewrite !bool_decide_true by done. cbn [andb].
    destruct Ha as (src & Ho & [Hlen Hmax] & Hsrc). rewrite app_nil_r in Ho.
    assert (Eu : u64 (count * 8) = count * 8) by (unfold u64; apply Z.mod_small; lia).
    apply wpx_bind, wpx_alloc.
    + intros w2 Hw2 Hm. rewrite Eu in Hm. eapply (getdata_error _ _ _ _ _ _ _ _ _ F r d' f' c' None []); try done.
      * intros Hml. apply Hm. split; [done|lia].
      * by eapply filling_time.
    + intros w2 a Hw2 Ha. apply wpx_bind.
      pose proof (filling_new _ _ _ _ _ _ a (CArr []) w2 Hi Ha Hw2) as Hi2. rewrite app_nil_l in Hi2.
      eapply (dup_origin_ok F r _ _ src oq a (Z.to_nat count) _ Ho Hsrc) with (qs := []).
      * intros ok qs [H3 w3] (Hf3 & Ha3 & Hc3) Hok. cbn [fst] in *.
        assert (Hsl : slots H3 (Some a) = qs) by (rewrite (slots_arr _ _ qs []); rewrite ?app_nil_r; done).
        assert (Hex : a :: qs ≡ₚ slots H3 (Some a) ++ option_list (Some a)) by (rewrite Hsl; apply Permutation_cons_append).
        destruct ok.
        -- replace (Z.of_nat (length qs)) with count by lia.
           destruct (copied_all src qs H3 a oq [] []) as [_ Hv]; rewrite ?app_nil_r; try done.
           eapply getdata_finish; try done.
           ++ rewrite Hex. unfold copies. by rewrite decide_True.
           ++ exists qs. rewrite app_nil_r. split; [done|]. split; [split; lia|apply Hc3].
        -- destruct Hok as [Hle Hm]. eapply getdata_error; try done. exists qs. rewrite app_nil_r.
           split; [done|]. split; [split; lia|apply Hc3].
      * split; [exact Hi2|]. split; [apply lookup_insert_eq|apply copied_nil].
      * cbn. lia.
  - assert (Hc2 : copies (slots H1 o ++ option_list o) = []).
    { unfold copies. case_decide; [|done]. destruct o; [|done]. destruct Hno. by split. }
    replace (bool_decide (is_Some o) && bool_decide (pt = NC_PARAMTYPE_DUP_AND_FREE)) with false.
    2: { symmetry. apply andb_false_iff. rewrite !bool_decide_eq_false. destruct (decide (is_Some o)); tauto. }
    destruct (arr_ok_sub H1 [] _ o Hsub eq_refl Ha) as [Ha1 Hv]. eapply getdata_finish; try done. by rewrite Hc2.
Qed.

(** The copy of [excluded_change] made so far. *)
Definition excluded_inv r xs ys (src : list positive) (arr : ptr) qs st : Prop :=
  filling r xs ys (option_list arr ++ qs) st ∧ copied src qs st.1 ∧
  match arr with
  | None => qs = []
  | Some a => st.1 !! a = Some (CArr ((Some <$> qs) ++ [None]))
  end.

Lemma excluded_free F r xs ys src arr qs (Q : unit → cheap * W → Prop) st :
  excluded_inv r xs ys src arr qs st →
  (∀ st', filling r xs ys qs st' → copied src qs st'.1 → Q tt st') →
  wpx F (c_free arr) Q st.
Proof.
  destruct st as [H w]. intros (Hf & Hc & Ha) HQ. destruct arr as [a|]; cbn [fst] in *.
  - apply wpx_free; [intros q [= <-]; by rewrite Ha|]. change (option_list (Some a)) with [a].
    rewrite without_single. apply HQ; [by eapply filling_free|]. cbn [fst].
    eapply copied_mono, Hc. apply same_strs_delete. intros s. by rewrite Ha.
  - apply wpx_free; [done|]. change (option_list None) with (@nil positive). rewrite without_nil. by apply HQ.
Qed.

Lemma dup_excluded_ok F r xs ys src n (Q : ptr → cheap * W → Prop) :
  memory_left → Forall (λ q, str_ok h (Some q)) src → Z.of_nat (length src) < 2 ^ 28 →
  (∀ arr qs st, excluded_inv r xs ys src arr qs st → length qs = length src → Q arr st) →
  ∀ arr qs st, excluded_inv r xs ys src arr qs st → (length qs + n = length src)%nat →
  wpx F (dup_excluded ((Some <$> drop (length qs) src) ++ [None]) arr (Some <$> qs)) Q st.
Proof.
  intros Hml Hsrc Hmax HQ. induction n as [|n IH]; intros arr qs [H w] Hi Hn.
  { rewrite drop_ge by lia. cbn [fmap list_fmap app dup_excluded]. apply wpx_ret. apply (HQ arr qs); [done|lia]. }
  destruct (lookup_lt_is_Some_2 src (length qs)) as [q Hq]; [lia|].
  rewrite (drop_S _ _ _ Hq). cbn [fmap list_fmap app dup_excluded].
  apply wpx_bind, wpx_heap_malloc. intros w1 ok Hw1 Hok.
  rewrite Hok; [|done|unfold zlen; rewrite length_fmap; lia]. apply wpx_bind. apply wpx_guarded; [done|].
  apply wpx_bind. eapply excluded_free.
  { destruct Hi as (Hf & Hc & Ha). split; [by eapply filling_time|done]. }
  intros [H2 w2] Hf2 Hc2. apply wpx_bind, wpx_new. intros a Ha. cbn [fst] in *.
  pose proof (filling_new _ _ _ _ _ _ a (CArr []) w2 Hf2 Ha (reflexivity _)) as Hf3.
  apply wpx_bind, (wpx_heap_strdup F h); [apply Hf3|by eapply Forall_lookup_1 in Hsrc|done|].
  intros w4 p Hw4 Hp Hss Hso Hrs. set (H4 := <[p := _]> _) in *.
  pose proof (filling_new _ _ _ _ _ _ p (CStr (default [] (rstr h (Some q)))) w4 Hf3 Hp Hw4) as Hf4.
  assert (Ha4 : H4 !! a = Some (CArr [])).
  { unfold H4. rewrite lookup_insert_ne; [by rewrite lookup_insert_eq|]. intros ->. by rewrite lookup_insert_eq in Hp. }
  apply wpx_bind. apply wpx_store; [by rewrite Ha4|].
  assert (Hss2 : same_strs H4 (<[a := CArr ((Some <$> qs) ++ [Some p; None])]> H4))
    by (apply same_strs_insert; intros s; by rewrite Ha4).
  assert (E : length (qs ++ [p]) = S (length qs)) by (rewrite length_app; cbn; lia).
  rewrite <- E. replace ((Some <$> qs) ++ [Some p]) with (Some <$> (qs ++ [p])) by (by rewrite fmap_app).
  apply IH; [|lia]. split; [|split; cbn [fst]].
  - eapply filling_perm; [|eapply filling_store; [exact Hf4|done|]]; [|set_solver].
    rewrite <- app_assoc. exact (symmetry (Permutation_middle qs [p] a)).
  - eapply copied_snoc; [|done|by eapply str_ok_mono|rewrite <- Hrs; by apply rstr_mono].
    eapply copied_mono, Hc2. etrans; [|done]. etrans; [|done]. apply same_strs_insert. intros s. by rewrite Ha.
  - rewrite lookup_insert_eq, fmap_app, <- app_assoc. done.
Qed.

Lemma construct_onchange F d f b e n sy x :
  body_ok h (RpcEstablishpush d f b e (OnChange n sy x)) →
  (x ≠ None → pt = NC_PARAMTYPE_DUP_AND_FREE → memory_left) →
  wpx F (nc_rpc_establishpush_onchange d f b e n sy x pt) (built (RpcEstablishpush d f b e (OnChange n sy x))) (h, w0).
Proof.
  intros (Hs & _ & Ha) Hmem. cbn [strs] in Hs. rewrite !list.Forall_cons in Hs. destruct Hs as (Hd & Hf & Hb & He & _).
  unfold nc_rpc_establishpush_onchange. check_arg. check_arg.
  assert (Hacc : rpc_accepted h (RpcEstablishpush d f b e (OnChange n sy x)) = true) by accept.
  unfold new_rpc. apply wpx_bind, wpx_alloc;
    [intros w' Hw Hm; apply wpx_ret; repeat split; [apply Hw..|]; intros Hml; by destruct Hm|].
  intros w' r Hw Hr. pose proof (filling_start r CRaw w' eq_refl Hr Hw) as Hi. apply wpx_bind.
  apply wpx_bind. eapply wpx_param; [exact Hi|done|]. clear Hi. intros d' st1 Hi.
  apply wpx_bind. eapply wpx_param; [exact Hi|done|]. clear Hi. intros f' st2 Hi.
  apply wpx_bind. eapply wpx_param; [exact Hi|done|]. clear Hi. intros b' st3 Hi.
  apply wpx_bind. eapply wpx_param; [exact Hi|done|]. clear Hi. intros e' [H1 w1] Hi. cbn [app] in Hi.
  assert (Hsub : h ⊆ H1) by apply Hi.
  apply wpx_bind. eapply wpx_mono with (Q := λ x' st, ∃ ex,
    filling r [d; f; b; e] [d'; f'; b'; e'] ex st ∧ ex ≡ₚ copies (slots st.1 x' ++ option_list x') ∧
    arr_ok st.1 [None] (λ n, Z.of_nat n < 2 ^ 28) x' ∧ (memory_left → rarr st.1 x' = rarr h x) ∧
    (pt ≠ NC_PARAMTYPE_DUP_AND_FREE → x' = x)).
  2: { intros x' [H w] (ex & Hf' & Hex & Ha' & Hv & Hsame). apply wpx_ret, wpx_bind. apply wpx_store.
    { destruct Hf' as (_ & _ & E & _). cbn in E. by rewrite E. }
    apply wpx_ret. eapply (built_array r _ _ ex [None] _ x x'); try done.
    - intros H' [=] E. cbn [view]. congruence.
    - intros [= -> -> -> ->] ->. done. }
  destruct (decide (is_Some x ∧ pt = NC_PARAMTYPE_DUP_AND_FREE)) as [[[xq ->] Hpt]|Hno].
  - rewrite !bool_decide_true by done. cbn [andb]. destruct Ha as (src & Hx & Hmax & Hsrc).
    apply wpx_bind. eapply wpx_arr; [by eapply lookup_weaken|].
    eapply (dup_excluded_ok F r _ _ src (length src) _ (Hmem ltac:(done) Hpt) Hsrc Hmax) with (qs := []) (arr := None).
    + intros arr qs [H2 w2] (Hf2 & Hc2 & Ha2) Hlen. cbn [fst] in *. destruct arr as [a|].
      * destruct (copied_all src qs H2 a xq [None] [None]) as [Esl Hv]; try done.
        exists (a :: qs). split; [done|]. rewrite Esl. split; [|split; [|done]].
        -- unfold copies. rewrite decide_True by done. apply Permutation_cons_append.
        -- exists qs. split; [done|]. split; [lia|apply Hc2].
      * subst qs. destruct src; [|done]. exists []. split; [done|]. split; [|split; [done|split; [|done]]].
        -- unfold copies. by case_decide.
        -- intros _. unfold rarr. by rewrite (slots_arr _ _ [] [None] Hx).
    + split; [exact Hi|]. split; [apply copied_nil|done].
    + done.
  - assert (Hc2 : copies (slots H1 x ++ option_list x) = []).
    { unfold copies. case_decide; [|done]. destruct x; [|done]. destruct Hno. by split. }
    replace (bool_decide (is_Some x) && bool_decide (pt = NC_PARAMTYPE_DUP_AND_FREE)) with false.
    2: { symmetry. apply andb_false_iff. rewrite !bool_decide_eq_false. destruct (decide (is_Some x)); tauto. }
    destruct (arr_ok_sub H1 [None] _ x Hsub eq_refl Ha) as [Ha1 Hv]. apply wpx_ret. exists []. cbn [fst]. by rewrite Hc2.
Qed.

(** The constructor whose [realloc] is not checked. *)
Definition unchecked (args : rpc_body ptr ptr ptr) : Prop :=
  match args with
  | RpcEstablishpush _ _ _ _ (OnChange _ _ (Some _)) => pt = NC_PARAMTYPE_DUP_AND_FREE
  | _ => False
  end.

Lemma construct_ok F args :
  body_ok h args → (unchecked args → memory_left) → wpx F (construct args pt) (built args) (h, w0).
Proof.
  intros Hok Hu.
  destruct args as [[d|x]| | | | | | | | | | | | | | | | | | | | |? ? ? ? [|? ? x]|? ? ? ? []|];
    try by apply construct_plain.
  - by apply construct_tree.
  - by apply construct_getdata.
  - apply construct_onchange; [done|]. intros Hx Hpt. apply Hu. by destruct x.
Qed.
End params.

(** ** Freeing what was built *)

Lemma own_live h b q : body_ok h b → q ∈ own h b → is_Some (h !! q).
Proof.
  intros (Hs & Ht & Ha). unfold own. rewrite !elem_of_app, elem_of_nonnull. rewrite list.Forall_forall in Hs.
  assert (Harr : ∀ last n p, upto_null last = [] → arr_ok h last n p → q ∈ slots h p ∨ q ∈ option_list p → is_Some (h !! q)).
  { intros last n [a|] E; [|set_solver]. intros (qs & Hqa & _ & Hq). rewrite (slots_arr _ _ qs last), E, app_nil_r by done.
    rewrite list.Forall_forall in Hq. intros [Hin| ->%list_elem_of_singleton]; [|by rewrite Hqa].
    by apply (str_live _ _ (Hq q Hin)). }
  intros [Hq|[Hq|Hq]].
  - by apply (str_live _ _ (Hs _ Hq)).
  - destruct (tree_of b) as [d|]; [|set_solver]. apply list_elem_of_singleton in Hq as ->.
    destruct Ht as (? & ? & ->). done.
  - destruct b as [| | | | | | | | | | | | | | | | | | | | |? ? ? ? []| |]; cbn [rpc_array] in Hq;
      try (cbn in Hq; set_solver).
Qed.

Lemma own_mono h H b : h ⊆ H → body_ok h b → own H b = own h b.
Proof.
  intros Hs (_ & _ & Ha). unfold own.
  assert (Harr : ∀ last n p, upto_null last = [] → arr_ok h last n p → slots H p = slots h p).
  { intros last n [a|] E; [|done]. intros (qs & Hqa & _ & _).
    rewrite !(slots_arr _ _ qs last); [done|done|by eapply lookup_weaken]. }
  destruct b as [| | | | | | | | | | | | | | | | | | | | |? ? ? ? []| |]; try done; cbn [rpc_array].
  - by rewrite (Harr [] _ _ eq_refl (proj1 Ha)).
  - by rewrite (Harr [None] _ _ eq_refl Ha).
Qed.

Lemma without_grown h H r l : grown h H [r] → without_cells (l ++ [r]) H = without_cells l h.
Proof.
  intros Hg. rewrite (without_same _ ([r] ++ l)) by (intros p; rewrite !elem_of_app; tauto).
  etrans; [symmetry; apply without_app|]. by rewrite (grown_without _ _ _ Hg).
Qed.

(** What is left after an object built from [args] is freed. *)
Definition left_over (h : cheap) (pt : NC_PARAMTYPE) (args : rpc_body ptr ptr ptr) (made : bool) : cheap :=
  match pt with
  | NC_PARAMTYPE_FREE => if made then without_cells (own h args) h else h
  | _ => h
  end.

Lemma free_built F h pt w0 args p H w :
  body_ok h args → NoDup (own h args) → built h pt w0 args p (H, w) →
  wpx F (nc_rpc_free p) (λ _ st, st = (left_over h pt args (bool_decide (is_Some p)), w)) (H, w).
Proof.
  intros Hok Hn (_ & Hp). destruct p as [r|].
  2: { cbn [nc_rpc_free]. apply wpx_ret. cbn [fst] in Hp. destruct Hp as [-> _]. unfold left_over. by destruct pt. }
  destruct Hp as (_ & b & fr & Hr & Hg & Hb & _ & Hsame & Hfr). cbn [fst] in *.
  eapply nc_rpc_free_ok; [done|done| |].
  - intros ->. destruct Hg as (Hs & Hnd & Hl). unfold copies in *. case_decide as Hpt.
    + eapply NoDup_Permutation_proper; [|apply Hnd]. by rewrite <- Permutation_cons_append.
    + rewrite (Hsame Hpt), (own_mono h) by done. apply list.NoDup_app. split; [done|]. split; [|apply NoDup_singleton].
      intros q Hq ->%list_elem_of_singleton. apply own_live in Hq as [c Hc]; [|done].
      destruct (proj1 (Hl r)) as [_ E]; [by left|]. congruence.
  - f_equal. rewrite bool_decide_true by done. unfold copies in Hg. case_decide as Hpt.
    + assert (E : (if fr then own H b else []) = own H b).
      { destruct fr; [done|]. destruct Hfr as [Hf|[-> _]]; [|done]. subst pt. done. }
      rewrite E. subst pt. cbn [left_over]. apply (grown_without h). eapply grown_perm; [|apply Hg].
      by rewrite <- Permutation_cons_append.
    + rewrite (without_grown h) by done. rewrite (Hsame Hpt) in *. rewrite (own_mono h) in * by (done || apply Hg).
      destruct Hfr as [->|[_ E]].
      * unfold free_flag. destruct pt; cbn; [by rewrite without_nil|done|done].
      * rewrite E. replace (if fr then [] else []) with (@nil positive) by (by destruct fr).
        rewrite without_nil. destruct pt; cbn; rewrite ?E, ?without_nil; done.
Qed.
End build.
