(* ===== verification/SendRpc.v ===== *)
(** * Sending RPCs

    [nc_send_rpc] (src/session_client.c): the data tree of an RPC object is built
    with libyang and sent.  libyang is a parameter: which modules are implemented
    in the context, which nodes it accepts, what it parses. *)

From S2P Require Import Prelude Session Env Locks IoWrite ClientRpc.
From Stdlib Require Import ZArith Ascii String Lia.
From stdpp Require Import base list strings gmap numbers.
Open Scope Z_scope.

(** A call that creates a node or metadata: the parent (or, for metadata, the
    node), the module, the name and the value. *)
Inductive ly_new :=
| NewInner (parent : option dnode) (module name : bytes)
| NewTerm (parent : option dnode) (module name : bytes) (value : option bytes)
| NewAny (parent : option dnode) (module name : bytes) (xml : bool) (value : option bytes)
| NewMeta (node : option dnode) (name value : bytes).

Class LyBuild (W : Type) := {
  ly_ctx_get_module_implemented : bytes → W → bool * W;
  lyd_new_ok : ly_new → W → bool * W;
  lyd_parse_rpc : bytes → W → option dnode * W;
}.

(** The local variables of [nc_send_rpc]: [data], with [cont] and [node] being its
    last child, and whether [lyrc] is [LY_SUCCESS]. *)
Record rpc_build := RpcBuild {
  b_data : option dnode;
  b_lyrc : bool;
}.

(** The parent of a new node: none, [data] or [cont]. *)
Inductive ly_parent := PNull | PData | PCont.

Definition last_child (t : dnode) : option dnode := list.last (d_children t).

(** Replaces the last child of a node. *)
Definition on_last (f : dnode → dnode) (t : dnode) : dnode :=
  match last_child t with
  | None => t
  | Some c => DNode (d_ctx t) (d_module t) (d_name t) (d_value t) (d_meta t)
      (removelast (d_children t) ++ [f c])
  end.

Definition ly_add_child (c t : dnode) : dnode :=
  DNode (d_ctx t) (d_module t) (d_name t) (d_value t) (d_meta t) (d_children t ++ [c]).

Definition add_meta (name value : bytes) (t : dnode) : dnode :=
  DNode (d_ctx t) (d_module t) (d_name t) (d_value t) (d_meta t ++ [(name, value)]) (d_children t).

Definition attach (p : ly_parent) (c : dnode) (data : option dnode) : option dnode :=
  match p with
  | PNull => Some c
  | PData => ly_add_child c <$> data
  | PCont => on_last (ly_add_child c) <$> data
  end.

Definition parent_node (p : ly_parent) (data : option dnode) : option dnode :=
  match p with
  | PNull => None
  | PData => data
  | PCont => data ≫= last_child
  end.

Definition nc_wd2str (wd : NC_WD_MODE) : option bytes :=
  match wd with
  | NC_WD_ALL => Some (str "report-all")
  | NC_WD_ALL_TAG => Some (str "report-all-tagged")
  | NC_WD_TRIM => Some (str "trim")
  | NC_WD_EXPLICIT => Some (str "explicit")
  | NC_WD_UNKNOWN => None
  end.

Definition ncds2str (ds : NC_DATASTORE) : option bytes :=
  match ds with
  | NC_DATASTORE_ERROR => None
  | NC_DATASTORE_CONFIG => Some (str "config")
  | NC_DATASTORE_URL => Some (str "url")
  | NC_DATASTORE_RUNNING => Some (str "running")
  | NC_DATASTORE_STARTUP => Some (str "startup")
  | NC_DATASTORE_CANDIDATE => Some (str "candidate")
  end.

Definition rpcedit_dfltop2str (op : NC_RPC_EDIT_DFLTOP) : option bytes :=
  match op with
  | NC_RPC_EDIT_DFLTOP_UNKNOWN => None
  | NC_RPC_EDIT_DFLTOP_MERGE => Some (str "merge")
  | NC_RPC_EDIT_DFLTOP_REPLACE => Some (str "replace")
  | NC_RPC_EDIT_DFLTOP_NONE => Some (str "none")
  end.

Definition rpcedit_testopt2str (op : NC_RPC_EDIT_TESTOPT) : option bytes :=
  match op with
  | NC_RPC_EDIT_TESTOPT_UNKNOWN => None
  | NC_RPC_EDIT_TESTOPT_TESTSET => Some (str "test-then-set")
  | NC_RPC_EDIT_TESTOPT_SET => Some (str "set")
  | NC_RPC_EDIT_TESTOPT_TEST => Some (str "test-only")
  end.

Definition rpcedit_erropt2str (op : NC_RPC_EDIT_ERROPT) : option bytes :=
  match op with
  | NC_RPC_EDIT_ERROPT_UNKNOWN => None
  | NC_RPC_EDIT_ERROPT_STOP => Some (str "stop-on-error")
  | NC_RPC_EDIT_ERROPT_CONTINUE => Some (str "continue-on-error")
  | NC_RPC_EDIT_ERROPT_ROLLBACK => Some (str "rollback-on-error")
  end.

(** The modules that have to be implemented for an RPC. *)
Definition NETCONF : bytes := str "ietf-netconf".
Definition MONITORING : bytes := str "ietf-netconf-monitoring".
Definition NOTIFICATIONS : bytes := str "notifications".
Definition NMDA : bytes := str "ietf-netconf-nmda".
Definition SUBSCRIBED : bytes := str "ietf-subscribed-notifications".
Definition YANG_PUSH : bytes := str "ietf-yang-push".
Definition WITH_DEFAULTS : bytes := str "ietf-netconf-with-defaults".

Definition rpc_modules {S A T} (b : rpc_body S A T) : list bytes :=
  match b with
  | RpcActGeneric _ => []
  | RpcGetconfig _ _ _ | RpcEdit _ _ _ _ _ | RpcCopy _ _ _ _ _ | RpcDelete _ _ | RpcLock _ | RpcUnlock _
  | RpcGet _ _ | RpcKill _ | RpcCommit _ _ _ _ | RpcDiscard | RpcCancel _ | RpcValidate _ _ => [NETCONF]
  | RpcGetschema _ _ _ => [MONITORING]
  | RpcSubscribe _ _ _ _ => [NOTIFICATIONS]
  | RpcGetdata _ _ _ _ _ _ _ _ _ | RpcEditdata _ _ _ => [NMDA]
  | RpcEstablishsub _ _ _ _ _ | RpcModifysub _ _ _ | RpcDeletesub _ | RpcKillsub _ => [SUBSCRIBED]
  | RpcEstablishpush _ _ _ _ _ | RpcModifypush _ _ _ _ _ => [SUBSCRIBED; YANG_PUSH]
  | RpcResyncsub _ => [YANG_PUSH]
  end.

Section build.
Context {W : Type} `{!Env W} `{!LyBuild W}.
Context (h : cheap).

Notation BM := (M (rpc_build * (nc_session * W))).

(** A call of libyang on the environment. *)
Definition ly {A} (f : W → A * W) : BM A := on_env (on_env (call f)).

Definition set_lyrc (ok : bool) : BM bool :=
  modify (λ s, (RpcBuild (b_data s.1) ok, s.2));;
  mret ok.

Definition put_data (f : option dnode → option dnode) : BM unit :=
  modify (λ s, (RpcBuild (f (b_data s.1)) (b_lyrc s.1), s.2)).

(** [lyrc = func_call]: the node is attached when libyang accepts it. *)
Definition ly_attach (p : ly_parent) (call : option dnode → ly_new) (c : dnode) : BM bool :=
  data ← gets (λ s, b_data s.1);
  ok ← ly (lyd_new_ok (call (parent_node p data)));
  if (ok : bool) then put_data (attach p c);; set_lyrc true else set_lyrc false.

Definition lyd_new_inner (p : ly_parent) (m name : bytes) : BM bool :=
  ly_attach p (λ t, NewInner t m name) (DNode true m name VInner [] []).

Definition lyd_new_term (p : ly_parent) (m name : bytes) (v : option bytes) : BM bool :=
  ly_attach p (λ t, NewTerm t m name v) (DNode true m name (VTerm v) [] []).

Definition lyd_new_any (p : ly_parent) (m name : bytes) (xml : bool) (v : option bytes) : BM bool :=
  ly_attach p (λ t, NewAny t m name xml v) (DNode true m name (VAny xml v) [] []).

(** [lyd_new_meta(NULL, node, NULL, name, value, 0, NULL)] *)
Definition lyd_new_meta (name value : bytes) : BM bool :=
  data ← gets (λ s, b_data s.1);
  ok ← ly (lyd_new_ok (NewMeta (data ≫= last_child) name value));
  if (ok : bool) then put_data (fmap (on_last (add_meta name value)));; set_lyrc true else set_lyrc false.

(** A [NULL] name is refused with [LY_EINVAL]. *)
Definition lyd_new_named (p : ly_parent) (m : bytes) (name v : option bytes) : BM bool :=
  match name with
  | None => set_lyrc false
  | Some name => lyd_new_term p m name v
  end.

(** Reading a string, and a pointer that may be [NULL]. *)
Definition rd (p : ptr) : BM bytes :=
  match p ≫= (h !!.) with
  | Some (CStr s) => mret s
  | _ => crash
  end.

Definition rd_opt (p : ptr) : BM (option bytes) :=
  match p with
  | None => mret None
  | Some _ => s ← rd p; mret (Some s)
  end.

(** [sprintf(str, PERCENT u, n)] into [char str[11]] *)
Definition sprintf_u (n : Z) : BM bytes :=
  guarded (zlen (print_dec n) + 1 <=? 11);;
  mret (print_dec n).
End build.

(** [CHECK_LYRC_BREAK(c)] followed by [k]. *)
Notation "c ;;? k" := (ok ← c; if (ok : bool) then k else mret tt)
  (at level 100, k at level 200, right associativity) : nc_scope.
(** [if (p) { CHECK... }] followed by [k]: the branch says whether to go on. *)
Definition ly_when {S} (b : bool) (c : M S bool) : M S bool := if b then c else mret true.

Definition first_is (c : ascii) (s : bytes) : bool :=
  match s with x :: _ => bool_decide (x = c) | [] => false end.

(** [!s[0] || (s[0] == '<')] *)
Definition is_xml (s : bytes) : bool := bool_decide (s = []) || first_is "<"%char s.

Section rpc_tree.
Context {W : Type} `{!Env W} `{!LyBuild W}.
Context (h : cheap).
Notation BM := (M (rpc_build * (nc_session * W))).

(** [if (p) CHECK_LYRC_BREAK(lyd_new_term(parent, mod, name, p, 0, NULL))] *)
Definition opt_term (p : ly_parent) (m name : bytes) (x : ptr) : BM bool :=
  match x with
  | None => mret true
  | Some _ => s ← rd h x; lyd_new_term p m name (Some s)
  end.

(** The same for a number that is not zero. *)
Definition opt_number (p : ly_parent) (m name : bytes) (n : Z) : BM bool :=
  if n =? 0 then mret true else
  s ← sprintf_u n;
  lyd_new_term p m name (Some s).

(** The [filter] of get, get-config and create-subscription, with its metadata. *)
Definition filter_any (m : bytes) (filter : ptr) : BM bool :=
  match filter with
  | None => mret true
  | Some _ =>
    s ← rd h filter;
    if is_xml s then
      ok ← lyd_new_any PData m (str "filter") true (Some s);
      if (ok : bool) then lyd_new_meta (str "ietf-netconf:type") (str "subtree") else mret false
    else
      ok ← lyd_new_any PData m (str "filter") false None;
      if (ok : bool) then
        ok ← lyd_new_meta (str "ietf-netconf:type") (str "xpath");
        if (ok : bool) then lyd_new_meta (str "ietf-netconf:select") s else mret false
      else mret false
  end.

(** [with-defaults] of get, get-config and copy-config. *)
Definition with_defaults (wd : NC_WD_MODE) : BM bool :=
  match wd with
  | NC_WD_UNKNOWN => mret true
  | _ =>
    found ← ly (ly_ctx_get_module_implemented WITH_DEFAULTS);
    if negb found then set_lyrc false
    else lyd_new_term PData WITH_DEFAULTS (str "with-defaults") (nc_wd2str wd)
  end.

(** An XML configuration or a URL. *)
Definition config_or_url (p : ly_parent) (m : bytes) (x : ptr) : BM bool :=
  s ← rd h x;
  if is_xml s then lyd_new_any p m (str "config") true (Some s)
  else lyd_new_term p m (str "url") (Some s).

(** A subtree filter, an XPath filter or a reference to a filter. *)
Definition sub_filter (m subtree xpath name : bytes) (filter : ptr) : BM bool :=
  match filter with
  | None => mret true
  | Some _ =>
    s ← rd h filter;
    if is_xml s then lyd_new_any PData m subtree true (Some s)
    else if first_is "/"%char s then lyd_new_term PData m xpath (Some s)
    else lyd_new_term PData m name (Some s)
  end.

(** The loop over [origin_filter]: [CHECK_LYRC_BREAK] in it only leaves the loop,
    the statements after it are executed in any case. *)
Fixpoint origin_filters (m name : bytes) (arr : ptr) (i n : nat) : BM unit :=
  match n with
  | O => mret tt
  | S n =>
    match arr ≫= (h !!.) with
    | Some (CArr l) =>
      match l !! i with
      | None => crash
      | Some e =>
        v ← rd_opt h e;
        lyd_new_term PData m name v;;?
        origin_filters m name arr (i + 1) n
      end
    | _ => crash
    end
  end.

(** The loop over [excluded_change], on its slots; nothing follows it. *)
Fixpoint excluded_changes (l : list ptr) : BM unit :=
  match l with
  | [] => crash
  | None :: _ => mret tt
  | e :: l =>
    s ← rd h e;
    lyd_new_term PCont YANG_PUSH (str "excluded-change") (Some s);;?
    excluded_changes l
  end.

Definition rpc_get_data (datastore filter config_filter origin_filter : ptr) (count : Z) (negated : bool)
    (max_depth : Z) (with_origin : bool) (wd_mode : NC_WD_MODE) : BM unit :=
  lyd_new_inner PNull NMDA (str "get-data");;?
  (v ← rd_opt h datastore; lyd_new_term PData NMDA (str "datastore") v);;?
  match filter with
  | None => mret true
  | Some _ =>
    s ← rd h filter;
    if is_xml s then lyd_new_any PData NMDA (str "subtree-filter") true (Some s)
    else lyd_new_term PData NMDA (str "xpath-filter") (Some s)
  end;;?
  opt_term PData NMDA (str "config-filter") config_filter;;?
  (origin_filters NMDA (if negated then str "negated-origin-filter" else str "origin-filter") origin_filter
    0 (Z.to_nat count);;
  opt_number PData NMDA (str "max-depth") max_depth;;?
  ly_when with_origin (lyd_new_term PData NMDA (str "with-origin") None);;?
  match wd_mode with
  | NC_WD_UNKNOWN => mret tt
  | _ => lyd_new_term PData NMDA (str "with-defaults") (nc_wd2str wd_mode);;? mret tt
  end).

Definition push_periodic (period : Z) (anchor_time : ptr) : BM unit :=
  lyd_new_inner PData YANG_PUSH (str "periodic");;?
  (s ← sprintf_u period; lyd_new_term PCont YANG_PUSH (str "period") (Some s));;?
  opt_term PCont YANG_PUSH (str "anchor-time") anchor_time;;? mret tt.

Definition rpc_establish_push (datastore filter stop encoding : ptr) (trigger : push_trigger ptr ptr) : BM unit :=
  lyd_new_inner PNull SUBSCRIBED (str "establish-subscription");;?
  (v ← rd_opt h datastore; lyd_new_term PData YANG_PUSH (str "datastore") v);;?
  sub_filter YANG_PUSH (str "datastore-subtree-filter") (str "datastore-xpath-filter")
    (str "selection-filter-ref") filter;;?
  opt_term PData SUBSCRIBED (str "stop-time") stop;;?
  opt_term PData SUBSCRIBED (str "encoding") encoding;;?
  match trigger with
  | Periodic period anchor_time => push_periodic period anchor_time
  | OnChange dampening sync excluded =>
    lyd_new_inner PData YANG_PUSH (str "on-change");;?
    opt_number PCont YANG_PUSH (str "dampening-period") dampening;;?
    lyd_new_term PCont YANG_PUSH (str "sync-on-start") (Some (if sync then str "true" else str "false"));;?
    match excluded ≫= (h !!.) with
    | Some (CArr l) => excluded_changes l
    | _ => match excluded with None => mret tt | Some _ => crash end
    end
  end.

Definition rpc_modify_push (sub_id : Z) (datastore filter stop : ptr) (trigger : modify_trigger ptr) : BM unit :=
  lyd_new_inner PNull SUBSCRIBED (str "modify-subscription");;?
  (s ← sprintf_u sub_id; lyd_new_term PData SUBSCRIBED (str "id") (Some s));;?
  (v ← rd_opt h datastore; lyd_new_term PData YANG_PUSH (str "datastore") v);;?
  sub_filter YANG_PUSH (str "datastore-subtree-filter") (str "datastore-xpath-filter")
    (str "selection-filter-ref") filter;;?
  opt_term PData SUBSCRIBED (str "stop-time") stop;;?
  match trigger with
  | ModPeriodic period anchor_time => push_periodic period anchor_time
  | ModOnChange dampening =>
    lyd_new_inner PData YANG_PUSH (str "on-change");;?
    opt_number PCont YANG_PUSH (str "dampening-period") dampening;;? mret tt
  end.
End rpc_tree.

Section send.
Context {W : Type} `{!Env W} `{!LyBuild W}.
Context {envelope : Type} `{!Printer dnode envelope}.
Notation BM := (M (rpc_build * (nc_session * W))).

(** [lock], [unlock], [delete-config] and the like: a datastore in [target]. *)
Definition ds_container (h : cheap) (cont : bytes) (url : ptr) (ds : NC_DATASTORE) : BM bool :=
  ok ← lyd_new_inner PData NETCONF cont;
  if negb ok then mret false else
  match url with
  | Some _ => s ← rd h url; lyd_new_term PCont NETCONF (str "url") (Some s)
  | None => lyd_new_named PCont NETCONF (ncds2str ds) None
  end.

(** The same where the contents may be XML too. *)
Definition src_container (h : cheap) (src : ptr) (ds : NC_DATASTORE) : BM bool :=
  ok ← lyd_new_inner PData NETCONF (str "source");
  if negb ok then mret false else
  match src with
  | Some _ => config_or_url h PCont NETCONF src
  | None => lyd_new_named PCont NETCONF (ncds2str ds) None
  end.

Definition term_id (m name : bytes) (n : Z) : BM bool :=
  s ← sprintf_u n;
  lyd_new_term PData m name (Some s).

(** [if (x) CHECK...(data, mod, name, table[x])] *)
Definition opt_enum (m name : bytes) (v : option bytes) : BM bool :=
  match v with
  | None => mret true
  | Some _ => lyd_new_term PData m name v
  end.

Definition send_act_generic (h : cheap) (data : ptr) : BM unit :=
  match data ≫= (h !!.) with
  | Some (CTree _ t) => put_data (λ _, Some t)
  | _ => crash
  end.

Definition send_act_generic_xml (h : cheap) (xml_str : ptr) : BM unit :=
  s ← rd h xml_str;
  ok ← ly (ly_in_new_memory s);
  guarded ok;;
  t ← ly (lyd_parse_rpc s);
  put_data (λ _, t);;
  set_lyrc (bool_decide (is_Some t));;
  mret tt.

Definition send_getconfig (h : cheap) (source : NC_DATASTORE) (filter : ptr) (wd_mode : NC_WD_MODE) : BM unit :=
  lyd_new_inner PNull NETCONF (str "get-config");;?
  ds_container h (str "source") None source;;?
  filter_any h NETCONF filter;;?
  with_defaults wd_mode;;? mret tt.

Definition send_edit (h : cheap) (target : NC_DATASTORE) (default_op : NC_RPC_EDIT_DFLTOP) (test_opt : NC_RPC_EDIT_TESTOPT) (error_opt : NC_RPC_EDIT_ERROPT) (edit_cont : ptr) : BM unit :=
  lyd_new_inner PNull NETCONF (str "edit-config");;?
  ds_container h (str "target") None target;;?
  opt_enum NETCONF (str "default-operation") (rpcedit_dfltop2str default_op);;?
  opt_enum NETCONF (str "test-option") (rpcedit_testopt2str test_opt);;?
  opt_enum NETCONF (str "error-option") (rpcedit_erropt2str error_opt);;?
  config_or_url h PData NETCONF edit_cont;;? mret tt.

Definition send_copy (h : cheap) (target : NC_DATASTORE) (url_trg : ptr) (source : NC_DATASTORE) (url_config_src : ptr) (wd_mode : NC_WD_MODE) : BM unit :=
  lyd_new_inner PNull NETCONF (str "copy-config");;?
  ds_container h (str "target") url_trg target;;?
  src_container h url_config_src source;;?
  with_defaults wd_mode;;? mret tt.

Definition send_delete (h : cheap) (target : NC_DATASTORE) (url : ptr) : BM unit :=
  lyd_new_inner PNull NETCONF (str "delete-config");;?
  ds_container h (str "target") url target;;? mret tt.

Definition send_lock (h : cheap) (target : NC_DATASTORE) : BM unit :=
  lyd_new_inner PNull NETCONF (str "lock");;?
  ds_container h (str "target") None target;;? mret tt.

Definition send_unlock (h : cheap) (target : NC_DATASTORE) : BM unit :=
  lyd_new_inner PNull NETCONF (str "unlock");;?
  ds_container h (str "target") None target;;? mret tt.

Definition send_get (h : cheap) (filter : ptr) (wd_mode : NC_WD_MODE) : BM unit :=
  lyd_new_inner PNull NETCONF (str "get");;?
  filter_any h NETCONF filter;;?
  with_defaults wd_mode;;? mret tt.

Definition send_kill (sid : Z) : BM unit :=
  lyd_new_inner PNull NETCONF (str "kill-session");;?
  term_id NETCONF (str "session-id") sid;;? mret tt.

Definition send_commit (h : cheap) (confirmed : bool) (confirm_timeout : Z) (persist : ptr) (persist_id : ptr) : BM unit :=
  lyd_new_inner PNull NETCONF (str "commit");;?
  ly_when confirmed (lyd_new_term PData NETCONF (str "confirmed") None);;?
  opt_number PData NETCONF (str "confirm-timeout") confirm_timeout;;?
  opt_term h PData NETCONF (str "persist") persist;;?
  opt_term h PData NETCONF (str "persist-id") persist_id;;? mret tt.

Definition send_discard : BM unit :=
  lyd_new_inner PNull NETCONF (str "discard-changes");;? mret tt.

Definition send_cancel (h : cheap) (persist_id : ptr) : BM unit :=
  lyd_new_inner PNull NETCONF (str "cancel-commit");;?
  opt_term h PData NETCONF (str "persist-id") persist_id;;? mret tt.

Definition send_validate (h : cheap) (source : NC_DATASTORE) (url_config_src : ptr) : BM unit :=
  lyd_new_inner PNull NETCONF (str "validate");;?
  src_container h url_config_src source;;? mret tt.

Definition send_getschema (h : cheap) (identifier : ptr) (version : ptr) (format : ptr) : BM unit :=
  lyd_new_inner PNull MONITORING (str "get-schema");;?
  (v ← rd_opt h identifier; lyd_new_term PData MONITORING (str "identifier") v);;?
  opt_term h PData MONITORING (str "version") version;;?
  opt_term h PData MONITORING (str "format") format;;? mret tt.

Definition send_subscribe (h : cheap) (stream : ptr) (filter : ptr) (start : ptr) (stop : ptr) : BM unit :=
  lyd_new_inner PNull NOTIFICATIONS (str "create-subscription");;?
  opt_term h PData NOTIFICATIONS (str "stream") stream;;?
  filter_any h NOTIFICATIONS filter;;?
  opt_term h PData NOTIFICATIONS (str "startTime") start;;?
  opt_term h PData NOTIFICATIONS (str "stopTime") stop;;? mret tt.

Definition send_editdata (h : cheap) (datastore : ptr) (default_op : NC_RPC_EDIT_DFLTOP) (edit_cont : ptr) : BM unit :=
  lyd_new_inner PNull NMDA (str "edit-data");;?
  (v ← rd_opt h datastore; lyd_new_term PData NMDA (str "datastore") v);;?
  opt_enum NMDA (str "default-operation") (rpcedit_dfltop2str default_op);;?
  config_or_url h PData NMDA edit_cont;;? mret tt.

Definition send_establishsub (h : cheap) (filter : ptr) (stream : ptr) (start : ptr) (stop : ptr) (encoding : ptr) : BM unit :=
  lyd_new_inner PNull SUBSCRIBED (str "establish-subscription");;?
  sub_filter h SUBSCRIBED (str "stream-subtree-filter") (str "stream-xpath-filter")
    (str "stream-filter-name") filter;;?
  (v ← rd_opt h stream; lyd_new_term PData SUBSCRIBED (str "stream") v);;?
  opt_term h PData SUBSCRIBED (str "replay-start-time") start;;?
  opt_term h PData SUBSCRIBED (str "stop-time") stop;;?
  opt_term h PData SUBSCRIBED (str "encoding") encoding;;? mret tt.

Definition send_modifysub (h : cheap) (sub_id : Z) (filter : ptr) (stop : ptr) : BM unit :=
  lyd_new_inner PNull SUBSCRIBED (str "modify-subscription");;?
  term_id SUBSCRIBED (str "id") sub_id;;?
  sub_filter h SUBSCRIBED (str "stream-subtree-filter") (str "stream-xpath-filter")
    (str "stream-filter-name") filter;;?
  opt_term h PData SUBSCRIBED (str "stop-time") stop;;? mret tt.

Definition send_deletesub (sub_id : Z) : BM unit :=
  lyd_new_inner PNull SUBSCRIBED (str "delete-subscription");;?
  term_id SUBSCRIBED (str "id") sub_id;;? mret tt.

Definition send_killsub (sub_id : Z) : BM unit :=
  lyd_new_inner PNull SUBSCRIBED (str "kill-subscription");;?
  term_id SUBSCRIBED (str "id") sub_id;;? mret tt.

Definition send_resyncsub (sub_id : Z) : BM unit :=
  lyd_new_inner PNull YANG_PUSH (str "resync-subscription");;?
  term_id YANG_PUSH (str "id") sub_id;;? mret tt.

(** The second [switch] of [nc_send_rpc]. *)
Definition build_rpc (h : cheap) (b : rpc_body ptr ptr ptr) : BM unit :=
  match b with
  | RpcActGeneric (inl data) => send_act_generic h data
  | RpcActGeneric (inr xml_str) => send_act_generic_xml h xml_str
  | RpcGetconfig source filter wd_mode => send_getconfig h source filter wd_mode
  | RpcEdit target default_op test_opt error_opt edit_cont => send_edit h target default_op test_opt error_opt edit_cont
  | RpcCopy target url_trg source url_config_src wd_mode => send_copy h target url_trg source url_config_src wd_mode
  | RpcDelete target url => send_delete h target url
  | RpcLock target => send_lock h target
  | RpcUnlock target => send_unlock h target
  | RpcGet filter wd_mode => send_get h filter wd_mode
  | RpcKill sid => send_kill sid
  | RpcCommit confirmed confirm_timeout persist persist_id => send_commit h confirmed confirm_timeout persist persist_id
  | RpcDiscard => send_discard
  | RpcCancel persist_id => send_cancel h persist_id
  | RpcValidate source url_config_src => send_validate h source url_config_src
  | RpcGetschema identifier version format => send_getschema h identifier version format
  | RpcSubscribe stream filter start stop => send_subscribe h stream filter start stop
  | RpcGetdata datastore filter config_filter origin_filter count negated max_depth with_origin wd_mode =>
    rpc_get_data h datastore filter config_filter origin_filter count negated max_depth with_origin wd_mode
  | RpcEditdata datastore default_op edit_cont => send_editdata h datastore default_op edit_cont
  | RpcEstablishsub filter stream start stop encoding => send_establishsub h filter stream start stop encoding
  | RpcModifysub sub_id filter stop => send_modifysub h sub_id filter stop
  | RpcDeletesub sub_id => send_deletesub sub_id
  | RpcKillsub sub_id => send_killsub sub_id
  | RpcEstablishpush datastore filter stop encoding trigger =>
    rpc_establish_push h datastore filter stop encoding trigger
  | RpcModifypush sub_id datastore filter stop trigger =>
    rpc_modify_push h sub_id datastore filter stop trigger
  | RpcResyncsub sub_id => send_resyncsub sub_id
  end.

(** Runs the building of the tree with its local variables. *)
Definition run_build (m : BM unit) : SM W rpc_build := λ s,
  match m (RpcBuild None true, s) with
  | Done (_, (b, s')) => Done (b, s')
  | NoFuel => NoFuel
  | Crash => Crash
  end.

Fixpoint modules_implemented (l : list bytes) : SM W bool :=
  match l with
  | [] => mret true
  | m :: l =>
    found ← on_env (call (ly_ctx_get_module_implemented m));
    if (found : bool) then modules_implemented l else mret false
  end.

Definition nc_send_msg_io (fuel : nat) (io_timeout : Z) (op : dnode) : SM W NC_MSG_TYPE :=
  if negb (d_ctx op) then mret NC_MSG_ERROR
  else nc_write_msg_io fuel io_timeout (OutRpc (envelope := envelope) op None).

(** The result and, when the RPC was sent, the message id stored for the caller. *)
Definition nc_send_rpc (fuel : nat) (h : cheap) (rpc : ptr) (timeout : Z) : SM W (NC_MSG_TYPE * option Z) :=
  match rpc with
  | None => mret (NC_MSG_ERROR, None)
  | Some _ =>
    s ← gets fst;
    if negb (bool_decide (status s = NC_STATUS_RUNNING)) || negb (bool_decide (side s = NC_CLIENT)) then
      mret (NC_MSG_ERROR, None)
    else
      match rpc ≫= (h !!.) with
      | Some (CRpc x) =>
        found ← modules_implemented (rpc_modules (rpc_content x));
        if negb found then mret (NC_MSG_ERROR, None) else
        b ← run_build (build_rpc h (rpc_content x));
        if negb (b_lyrc b) then mret (NC_MSG_ERROR, None) else
        match b_data b with
        | None => crash
        | Some data =>
          r ← nc_send_msg_io fuel timeout data;
          s ← gets fst;
          mret (r, if bool_decide (r = NC_MSG_RPC) then Some (msgid (client s)) else None)
        end
      | _ => crash
      end
  end.
End send.
