(* ===== verification/SendRpcProofs.v ===== *)
(** * The messages that RPC objects become

    The tree that [nc_send_rpc] sends is the one of the contents of the RPC, and
    what is sent is all of it or nothing; with [ClientRpcProofs] and the writer,
    from the arguments of a constructor to the bytes on the wire. *)

From S2P Require Import Prelude Session Env Time Locks Sim IoRead IoReadProofs Framing.
From S2P Require Import IoWrite IoWriteProofs IoWriteSafe Capabilities CapabilitiesProofs.
From S2P Require Import ClientRpc ClientRpcProofs SendRpc.
From Stdlib Require Import ZArith Ascii String Lia.
From stdpp Require Import base list strings gmap numbers.
Open Scope Z_scope.

(** ** The reference trees *)

Definition inner (m name : bytes) (children : list dnode) : dnode := DNode true m name VInner [] children.
Definition leaf (m name : bytes) (v : option bytes) : dnode := DNode true m name (VTerm v) [] [].
Definition anyxml (m name s : bytes) : dnode := DNode true m name (VAny true (Some s)) [] [].

Definition opt_leaf (m name : bytes) (v : option bytes) : list dnode :=
  match v with Some s => [leaf m name (Some s)] | None => [] end.

Definition number_leaf (m name : bytes) (n : Z) : dnode := leaf m name (Some (print_dec n)).

Definition opt_number_leaf (m name : bytes) (n : Z) : list dnode :=
  if n =? 0 then [] else [number_leaf m name n].

Definition flag_leaf (m name : bytes) (b : bool) : list dnode := if b then [leaf m name None] else [].

(** RFC 6241, section 6: a subtree filter, or an XPath in an attribute. *)
Definition filter_nodes (m : bytes) (f : option bytes) : list dnode :=
  match f with
  | None => []
  | Some s =>
    if is_xml s
    then [DNode true m (str "filter") (VAny true (Some s)) [(str "ietf-netconf:type", str "subtree")] []]
    else [DNode true m (str "filter") (VAny false None)
      [(str "ietf-netconf:type", str "xpath"); (str "ietf-netconf:select", s)] []]
  end.

Definition config_node (m s : bytes) : dnode :=
  if is_xml s then anyxml m (str "config") s else leaf m (str "url") (Some s).

Definition sub_filter_nodes (m subtree xpath name : bytes) (f : option bytes) : list dnode :=
  match f with
  | None => []
  | Some s =>
    [if is_xml s then anyxml m subtree s else leaf m (if first_is "/"%char s then xpath else name) (Some s)]
  end.

Definition ds_name (ds : NC_DATASTORE) : bytes := default [] (ncds2str ds).

Definition target_node (name : bytes) (url : option bytes) (ds : NC_DATASTORE) : dnode :=
  inner NETCONF name [match url with Some s => leaf NETCONF (str "url") (Some s) | None => leaf NETCONF (ds_name ds) None end].

Definition source_node (src : option bytes) (ds : NC_DATASTORE) : dnode :=
  inner NETCONF (str "source") [match src with Some s => config_node NETCONF s | None => leaf NETCONF (ds_name ds) None end].

Definition periodic_node (period : Z) (anchor : option bytes) : dnode :=
  inner YANG_PUSH (str "periodic")
    (number_leaf YANG_PUSH (str "period") period :: opt_leaf YANG_PUSH (str "anchor-time") anchor).

Definition trigger_node (t : push_trigger (option bytes) (list (option bytes))) : dnode :=
  match t with
  | Periodic n a => periodic_node n a
  | OnChange n sync excluded =>
    inner YANG_PUSH (str "on-change")
      (opt_number_leaf YANG_PUSH (str "dampening-period") n ++
       leaf YANG_PUSH (str "sync-on-start") (Some (if sync then str "true" else str "false")) ::
       (leaf YANG_PUSH (str "excluded-change") <$> excluded))
  end.

Definition push_filter (f : option bytes) : list dnode :=
  sub_filter_nodes YANG_PUSH (str "datastore-subtree-filter") (str "datastore-xpath-filter") (str "selection-filter-ref") f.

Definition stream_filter (f : option bytes) : list dnode :=
  sub_filter_nodes SUBSCRIBED (str "stream-subtree-filter") (str "stream-xpath-filter") (str "stream-filter-name") f.

(** The tree of an RPC; [parse] is what libyang makes of raw XML. *)
Definition rpc_tree (parse : bytes → option dnode) (v : rpc_value) : option dnode :=
  match v with
  | RpcActGeneric (inl t) => t
  | RpcActGeneric (inr x) => x ≫= parse
  | RpcGetconfig ds f wd => Some (inner NETCONF (str "get-config")
      (target_node (str "source") None ds :: filter_nodes NETCONF f ++
       opt_leaf WITH_DEFAULTS (str "with-defaults") (nc_wd2str wd)))
  | RpcEdit ds op te er e => Some (inner NETCONF (str "edit-config")
      (target_node (str "target") None ds ::
       opt_leaf NETCONF (str "default-operation") (rpcedit_dfltop2str op) ++
       opt_leaf NETCONF (str "test-option") (rpcedit_testopt2str te) ++
       opt_leaf NETCONF (str "error-option") (rpcedit_erropt2str er) ++
       [config_node NETCONF (default [] e)]))
  | RpcCopy t u s src wd => Some (inner NETCONF (str "copy-config")
      (target_node (str "target") u t :: source_node src s ::
       opt_leaf WITH_DEFAULTS (str "with-defaults") (nc_wd2str wd)))
  | RpcDelete t u => Some (inner NETCONF (str "delete-config") [target_node (str "target") u t])
  | RpcLock t => Some (inner NETCONF (str "lock") [target_node (str "target") None t])
  | RpcUnlock t => Some (inner NETCONF (str "unlock") [target_node (str "target") None t])
  | RpcGet f wd => Some (inner NETCONF (str "get")
      (filter_nodes NETCONF f ++ opt_leaf WITH_DEFAULTS (str "with-defaults") (nc_wd2str wd)))
  | RpcKill n => Some (inner NETCONF (str "kill-session") [number_leaf NETCONF (str "session-id") n])
  | RpcCommit c n p q => Some (inner NETCONF (str "commit")
      (flag_leaf NETCONF (str "confirmed") c ++ opt_number_leaf NETCONF (str "confirm-timeout") n ++
       opt_leaf NETCONF (str "persist") p ++ opt_leaf NETCONF (str "persist-id") q))
  | RpcDiscard => Some (inner NETCONF (str "discard-changes") [])
  | RpcCancel p => Some (inner NETCONF (str "cancel-commit") (opt_leaf NETCONF (str "persist-id") p))
  | RpcValidate s src => Some (inner NETCONF (str "validate") [source_node src s])
  | RpcGetschema i v f => Some (inner MONITORING (str "get-schema")
      (leaf MONITORING (str "identifier") i :: opt_leaf MONITORING (str "version") v ++
       opt_leaf MONITORING (str "format") f))
  | RpcSubscribe a f b c => Some (inner NOTIFICATIONS (str "create-subscription")
      (opt_leaf NOTIFICATIONS (str "stream") a ++ filter_nodes NOTIFICATIONS f ++
       opt_leaf NOTIFICATIONS (str "startTime") b ++ opt_leaf NOTIFICATIONS (str "stopTime") c))
  | RpcGetdata d f c o _ neg dep wo wd => Some (inner NMDA (str "get-data")
      (leaf NMDA (str "datastore") d ::
       match f with
       | None => []
       | Some s => [if is_xml s then anyxml NMDA (str "subtree-filter") s else leaf NMDA (str "xpath-filter") (Some s)]
       end ++
       opt_leaf NMDA (str "config-filter") c ++
       (leaf NMDA (if neg then str "negated-origin-filter" else str "origin-filter") <$> o) ++
       opt_number_leaf NMDA (str "max-depth") dep ++ flag_leaf NMDA (str "with-origin") wo ++
       opt_leaf NMDA (str "with-defaults") (nc_wd2str wd)))
  | RpcEditdata d op e => Some (inner NMDA (str "edit-data")
      (leaf NMDA (str "datastore") d :: opt_leaf NMDA (str "default-operation") (rpcedit_dfltop2str op) ++
       [config_node NMDA (default [] e)]))
  | RpcEstablishsub f a b c e => Some (inner SUBSCRIBED (str "establish-subscription")
      (stream_filter f ++ leaf SUBSCRIBED (str "stream") a :: opt_leaf SUBSCRIBED (str "replay-start-time") b ++
       opt_leaf SUBSCRIBED (str "stop-time") c ++ opt_leaf SUBSCRIBED (str "encoding") e))
  | RpcModifysub n f b => Some (inner SUBSCRIBED (str "modify-subscription")
      (number_leaf SUBSCRIBED (str "id") n :: stream_filter f ++ opt_leaf SUBSCRIBED (str "stop-time") b))
  | RpcDeletesub n => Some (inner SUBSCRIBED (str "delete-subscription") [number_leaf SUBSCRIBED (str "id") n])
  | RpcKillsub n => Some (inner SUBSCRIBED (str "kill-subscription") [number_leaf SUBSCRIBED (str "id") n])
  | RpcEstablishpush d f b e t => Some (inner SUBSCRIBED (str "establish-subscription")
      (leaf YANG_PUSH (str "datastore") d :: push_filter f ++ opt_leaf SUBSCRIBED (str "stop-time") b ++
       opt_leaf SUBSCRIBED (str "encoding") e ++ [trigger_node t]))
  | RpcModifypush n d f b t => Some (inner SUBSCRIBED (str "modify-subscription")
      (number_leaf SUBSCRIBED (str "id") n :: leaf YANG_PUSH (str "datastore") d :: push_filter f ++
       opt_leaf SUBSCRIBED (str "stop-time") b ++
       [match t with
        | ModPeriodic m a => periodic_node m a
        | ModOnChange m => inner YANG_PUSH (str "on-change") (opt_number_leaf YANG_PUSH (str "dampening-period") m)
        end]))
  | RpcResyncsub n => Some (inner YANG_PUSH (str "resync-subscription") [number_leaf YANG_PUSH (str "id") n])
  end.

(** The numbers of an RPC are 32-bit values. *)
Definition numbers {S A T} (b : rpc_body S A T) : list Z :=
  match b with
  | RpcKill n | RpcCommit _ n _ _ | RpcModifysub n _ _ | RpcDeletesub n | RpcKillsub n | RpcResyncsub n => [n]
  | RpcGetdata _ _ _ _ _ _ dep _ _ => [dep]
  | RpcEstablishpush _ _ _ _ (Periodic n _) | RpcEstablishpush _ _ _ _ (OnChange n _ _) => [n]
  | RpcModifypush n _ _ _ (ModPeriodic m _) | RpcModifypush n _ _ _ (ModOnChange m) => [n; m]
  | _ => []
  end.

Definition is_u32 (n : Z) : Prop := 0 ≤ n < 2 ^ 32.

(** libyang works on the context and on trees only, and what it makes of a text
    depends on the text. *)
Class LyBuildLaws (W : Type) `{!Env W, !EnvLaws W, !LyBuild W} := {
  ly_parsed : bytes → option dnode;
  ly_module_law m (w : W) : no_traffic w (ly_ctx_get_module_implemented m w).2;
  ly_new_law c (w : W) : no_traffic w (lyd_new_ok c w).2;
  ly_parse_law s (w : W) : (lyd_parse_rpc s w).1 = ly_parsed s ∧ no_traffic w (lyd_parse_rpc s w).2;
  ly_parsed_ctx s t : ly_parsed s = Some t → d_ctx t = true;
}.

Section build.
Context {W : Type} `{!Env W} `{!EnvLaws W} `{!LyBuild W} `{!LyBuildLaws W}.
Context (h : cheap) (s : nc_session) (F : Prop).
Implicit Types (w : W).
Notation BM := (M (rpc_build * (nc_session * W))).

(** The context implements the modules and libyang creates every node. *)
Definition ly_accepts : Prop :=
  (∀ m w, (ly_ctx_get_module_implemented m w).1 = true) ∧ (∀ c w, (lyd_new_ok c w).1 = true).

(** A call can append to the children at [p] of the trees [f cs], and, at [data],
    change the last one. *)
Definition focus (p : ly_parent) (f : list dnode → option dnode) : Prop :=
  (∀ cs c, attach p c (f cs) = f (cs ++ [c])) ∧
  (p = PData → ∀ g cs c, on_last g <$> f (cs ++ [c]) = f (cs ++ [g c])) ∧
  ∀ cs, is_Some (f cs).

Definition at_data (m name : bytes) (cs : list dnode) : option dnode := Some (inner m name cs).

Lemma on_last_snoc g ctx m n v me cs c :
  on_last g (DNode ctx m n v me (cs ++ [c])) = DNode ctx m n v me (cs ++ [g c]).
Proof. unfold on_last, last_child. cbn [d_children]. by rewrite last_snoc, removelast_last. Qed.

Lemma focus_data m name : focus PData (at_data m name).
Proof.
  split; [done|]. split; [|by eexists]. intros _ g cs c. unfold at_data, inner. cbn [fmap option_fmap option_map].
  by rewrite on_last_snoc.
Qed.

(** The last child of [data] becomes [cont]. *)
Lemma focus_cont f cs m name : focus PData f → focus PCont (λ cs', f (cs ++ [inner m name cs'])).
Proof. intros (_ & Hf & Hs). split; [|done]. intros cs' c. cbn [attach]. by rewrite Hf. Qed.

(** The statement [c] appends the nodes [ns] or breaks, which it does not do when
    libyang accepts everything. *)
Definition ly_adds (p : ly_parent) (c : BM bool) (ns : list dnode) : Prop :=
  ∀ f cs rc w (Q : bool → rpc_build * (nc_session * W) → Prop), focus p f →
  (∀ w' rc', no_traffic w w' → (rc = true → rc' = true) → (ns ≠ [] → rc' = true) →
    Q true (RpcBuild (f (cs ++ ns)) rc', (s, w'))) →
  (∀ w' d, no_traffic w w' → ¬ ly_accepts → Q false (RpcBuild d false, (s, w'))) →
  wpx F c Q (RpcBuild (f cs) rc, (s, w)).

Lemma wpx_ly {A} (g : W → A * W) (Q : A → rpc_build * (nc_session * W) → Prop) bd w :
  Q (g w).1 (bd, (s, (g w).2)) → wpx F (ly g) Q (bd, (s, w)).
Proof. intros HQ. by apply wpx_on_env, wpx_on_env, wpx_call. Qed.

Lemma wpx_set_lyrc ok (Q : bool → rpc_build * (nc_session * W) → Prop) bd w :
  Q ok (RpcBuild (b_data bd) ok, (s, w)) → wpx F (set_lyrc ok) Q (bd, (s, w)).
Proof. intros HQ. by apply wpx_bind, wpx_modify, wpx_ret. Qed.

Lemma wpx_ly_attach p call c (Q : bool → rpc_build * (nc_session * W) → Prop) bd w :
  (∀ w', no_traffic w w' → Q true (RpcBuild (attach p c (b_data bd)) true, (s, w'))) →
  (∀ w', no_traffic w w' → ¬ ly_accepts → Q false (RpcBuild (b_data bd) false, (s, w'))) →
  wpx F (ly_attach p call c) Q (bd, (s, w)).
Proof.
  intros H1 H2. unfold ly_attach. apply wpx_bind, wpx_gets, wpx_bind, wpx_ly. cbn [fst].
  set (x := call _). pose proof (ly_new_law x w) as Hw. destruct (lyd_new_ok x w) as [[] w'] eqn:E; cbn [fst snd] in *.
  - apply wpx_bind, wpx_modify, wpx_set_lyrc. cbn [fst b_data]. by apply H1.
  - apply wpx_set_lyrc, H2; [done|]. intros [_ Hn]. specialize (Hn x w). by rewrite E in Hn.
Qed.

Lemma adds_attach p call c : ly_adds p (ly_attach p call c) [c].
Proof.
  intros f cs rc w Q Hf H1 H2. apply wpx_ly_attach; [|intros w' Hw Hn; by apply H2]. intros w' Hw. cbn [b_data]. rewrite (proj1 Hf). by apply H1.
Qed.

Lemma adds_inner p m name : ly_adds p (lyd_new_inner p m name) [inner m name []].
Proof. apply adds_attach. Qed.

Lemma adds_term p m name v : ly_adds p (lyd_new_term p m name v) [leaf m name v].
Proof. apply adds_attach. Qed.

Lemma adds_any p m name x : ly_adds p (lyd_new_any p m name true (Some x)) [anyxml m name x].
Proof. apply adds_attach. Qed.

Lemma adds_nothing p : ly_adds p (mret true) [].
Proof.
  intros f cs rc w Q Hf H1 H2. apply wpx_ret. rewrite <- (app_nil_r cs). by apply H1.
Qed.

Lemma wpx_rd x t (Q : bytes → rpc_build * (nc_session * W) → Prop) st :
  rstr h x = Some t → Q t st → wpx F (rd h x) Q st.
Proof.
  unfold rstr, rd. intros E HQ. destruct (x ≫= _) as [[]|]; try done. injection E as ->. by apply wpx_ret.
Qed.

Lemma str_ok_some x : str_ok h x → is_Some x → is_Some (rstr h x).
Proof. intros Hx [q ->]. destruct Hx as (t & Ht & _). unfold rstr. cbn. by rewrite Ht. Qed.

Lemma str_ok_cases x : str_ok h x → (x = None ∧ rstr h x = None) ∨ ∃ q t, x = Some q ∧ rstr h x = Some t.
Proof.
  intros Hx. destruct x as [q|]; [|by left]. right. destruct (str_ok_some _ Hx) as [t Ht]; [done|]. eauto.
Qed.

Lemma wpx_rd_opt x (Q : option bytes → rpc_build * (nc_session * W) → Prop) st :
  str_ok h x → Q (rstr h x) st → wpx F (rd_opt h x) Q st.
Proof.
  intros Hx HQ. destruct (str_ok_cases x Hx) as [[-> E]|(q & t & -> & E)]; rewrite E in HQ; cbn [rd_opt].
  - by apply wpx_ret.
  - apply wpx_bind. eapply wpx_rd; [done|]. by apply wpx_ret.
Qed.

Lemma wpx_sprintf n (Q : bytes → rpc_build * (nc_session * W) → Prop) st :
  is_u32 n → Q (print_dec n) st → wpx F (sprintf_u n) Q st.
Proof.
  intros Hn HQ. apply wpx_bind. apply wpx_guarded; [|by apply wpx_ret].
  pose proof (print_u32_length n Hn). apply Z.leb_le. lia.
Qed.

(** *** The statements of [nc_send_rpc] *)

Lemma adds_opt_term p m name x : str_ok h x → ly_adds p (opt_term h p m name x) (opt_leaf m name (rstr h x)).
Proof.
  intros Hx. destruct (str_ok_cases x Hx) as [[-> E]|(q & t & -> & E)]; rewrite E; cbn [opt_term opt_leaf].
  - apply adds_nothing.
  - intros f cs rc w Q Hf H1 H2. apply wpx_bind. eapply wpx_rd; [done|]. by eapply adds_term.
Qed.

Lemma adds_value_term p m name x :
  str_ok h x → ly_adds p (v ← rd_opt h x; lyd_new_term p m name v) [leaf m name (rstr h x)].
Proof. intros Hx f cs rc w Q Hf H1 H2. apply wpx_bind, wpx_rd_opt; [done|]. by eapply adds_term. Qed.

Lemma adds_number p m name n :
  is_u32 n → ly_adds p (t ← sprintf_u n; lyd_new_term p m name (Some t)) [number_leaf m name n].
Proof. intros Hn f cs rc w Q Hf H1 H2. apply wpx_bind, wpx_sprintf; [done|]. by eapply adds_term. Qed.

Lemma adds_opt_number p m name n : is_u32 n → ly_adds p (opt_number p m name n) (opt_number_leaf m name n).
Proof.
  intros Hn. unfold opt_number, opt_number_leaf. destruct (n =? 0); [apply adds_nothing|by apply adds_number].
Qed.

Lemma adds_enum m name v : ly_adds PData (opt_enum m name v) (opt_leaf m name v).
Proof. destruct v; [apply adds_term|apply adds_nothing]. Qed.

Lemma adds_flag m name b : ly_adds PData (ly_when b (lyd_new_term PData m name None)) (flag_leaf m name b).
Proof. destruct b; [apply adds_term|apply adds_nothing]. Qed.

Lemma adds_config p m x t : rstr h x = Some t → ly_adds p (config_or_url h p m x) [config_node m t].
Proof.
  intros E f cs rc w Q Hf H1 H2. apply wpx_bind. eapply wpx_rd; [done|]. unfold config_node in H1.
  destruct (is_xml t); [by eapply adds_any|by eapply adds_term].
Qed.

Lemma adds_sub_filter m a b c x :
  str_ok h x → ly_adds PData (sub_filter h m a b c x) (sub_filter_nodes m a b c (rstr h x)).
Proof.
  intros Hx. destruct (str_ok_cases x Hx) as [[-> E]|(q & t & -> & E)]; rewrite E; cbn [sub_filter sub_filter_nodes].
  - apply adds_nothing.
  - intros f cs rc w Q Hf H1 H2. apply wpx_bind. eapply wpx_rd; [done|].
    destruct (is_xml t); [by eapply adds_any|]. destruct (first_is _ t); by eapply adds_term.
Qed.

Lemma wpx_meta f cs c name v (Q : bool → rpc_build * (nc_session * W) → Prop) rc w :
  focus PData f →
  (∀ w', no_traffic w w' → Q true (RpcBuild (f (cs ++ [add_meta name v c])) true, (s, w'))) →
  (∀ w' d, no_traffic w w' → ¬ ly_accepts → Q false (RpcBuild d false, (s, w'))) →
  wpx F (lyd_new_meta name v) Q (RpcBuild (f (cs ++ [c])) rc, (s, w)).
Proof.
  intros Hf H1 H2. unfold lyd_new_meta. apply wpx_bind, wpx_gets, wpx_bind, wpx_ly. cbn [fst b_data].
  set (x := NewMeta _ _ _). pose proof (ly_new_law x w) as Hw. destruct (lyd_new_ok x w) as [[] w'] eqn:E; cbn [fst snd] in *.
  - apply wpx_bind, wpx_modify, wpx_set_lyrc. cbn [fst b_data]. rewrite (proj1 (proj2 Hf)) by done. by apply H1.
  - apply wpx_set_lyrc, H2; [done|]. intros [_ Hn]. specialize (Hn x w). by rewrite E in Hn.
Qed.

Lemma adds_filter m x : str_ok h x → ly_adds PData (filter_any h m x) (filter_nodes m (rstr h x)).
Proof.
  intros Hx. destruct (str_ok_cases x Hx) as [[-> E]|(q & t & -> & E)]; rewrite E; cbn [filter_any filter_nodes].
  - apply adds_nothing.
  - intros f cs rc w Q Hf H1 H2. apply wpx_bind. eapply wpx_rd; [done|]. destruct (is_xml t); apply wpx_bind.
    + eapply adds_attach; [done| |].
      * intros w1 rc1 Hw1 _ _. eapply wpx_meta; [done| |].
        -- intros w2 Hw2. apply H1; [by etrans|done|done].
        -- intros w2 d Hw2. apply H2. by etrans.
      * intros w1 d Hw1 Hn. by apply wpx_ret, H2.
    + eapply adds_attach; [done| |].
      * intros w1 rc1 Hw1 _ _. apply wpx_bind. eapply wpx_meta; [done| |].
        -- intros w2 Hw2. eapply wpx_meta; [done| |].
           ++ intros w3 Hw3. apply H1; [by etrans; [|etrans]|done|done].
           ++ intros w3 d Hw3. apply H2. by etrans; [|etrans].
        -- intros w2 d Hw2 Hn. apply wpx_ret, H2; [by etrans|done].
      * intros w1 d Hw1 Hn. by apply wpx_ret, H2.
Qed.

Lemma adds_with_defaults wd :
  ly_adds PData (with_defaults wd) (opt_leaf WITH_DEFAULTS (str "with-defaults") (nc_wd2str wd)).
Proof.
  intros f cs rc w Q Hf H1 H2.
  assert (Hdo : ∀ v, (∀ w' rc', no_traffic w w' → (rc = true → rc' = true) → (v ≠ None → rc' = true) →
      Q true (RpcBuild (f (cs ++ [leaf WITH_DEFAULTS (str "with-defaults") v])) rc', (s, w'))) →
    wpx F (found ← ly (ly_ctx_get_module_implemented WITH_DEFAULTS);
      if negb found then set_lyrc false else lyd_new_term PData WITH_DEFAULTS (str "with-defaults") v)
      Q (RpcBuild (f cs) rc, (s, w))).
  { intros v HQ. apply wpx_bind, wpx_ly. pose proof (ly_module_law WITH_DEFAULTS w) as Hw.
    destruct (ly_ctx_get_module_implemented WITH_DEFAULTS w) as [[] w1] eqn:E; cbn [fst snd negb] in *.
    - eapply adds_term; [done| |].
      + intros w2 rc2 Hw2 Hr2 Hn2. apply HQ; [by etrans|done|]. intros _. by apply Hn2.
      + intros w2 d Hw2. apply H2. by etrans.
    - apply wpx_set_lyrc, H2; [done|]. intros [Hm _]. specialize (Hm WITH_DEFAULTS w). by rewrite E in Hm. }
  destruct wd; cbn [nc_wd2str opt_leaf] in H1; [by eapply adds_nothing|..];
    (apply Hdo; intros w' rc' Hw Hr Hn; apply H1; [done|done|]; intros _; by apply Hn).
Qed.

(** A container with one child. *)
Lemma adds_container (c : BM bool) m name n :
  ly_adds PCont c [n] →
  ly_adds PData (ok ← lyd_new_inner PData m name; if negb ok then mret false else c) [inner m name [n]].
Proof.
  intros Hc f cs rc w Q Hf H1 H2. apply wpx_bind. eapply adds_inner; [done| |].
  - intros w1 rc1 Hw1 _ Hrc1. cbn [negb]. eapply (Hc (λ cs', f (cs ++ [inner m name cs'])) []); [by apply focus_cont| |].
    + intros w2 rc2 Hw2 Hr2 Hn2. apply H1; [by etrans|intros _; by apply Hn2|intros _; by apply Hn2].
    + intros w2 d Hw2. apply H2. by etrans.
  - intros w1 d Hw1 Hn. by apply wpx_ret, H2.
Qed.

Lemma adds_ds p ds : ds ≠ NC_DATASTORE_ERROR → ly_adds p (lyd_new_named p NETCONF (ncds2str ds) None) [leaf NETCONF (ds_name ds) None].
Proof. intros Hds. destruct ds; [done|apply adds_term..]. Qed.

Lemma adds_target name url ds :
  str_ok h url → ds ≠ NC_DATASTORE_ERROR → ly_adds PData (ds_container h name url ds) [target_node name (rstr h url) ds].
Proof.
  intros Hu Hds. apply adds_container.
  destruct (str_ok_cases url Hu) as [[-> E]|(q & t & -> & E)]; rewrite E; [by apply adds_ds|].
  intros f cs rc w Q Hf H1 H2. apply wpx_bind. eapply wpx_rd; [done|]. by eapply adds_term.
Qed.

Lemma adds_source src ds :
  str_ok h src → ds ≠ NC_DATASTORE_ERROR → ly_adds PData (src_container h src ds) [source_node (rstr h src) ds].
Proof.
  intros Hu Hds. apply adds_container.
  destruct (str_ok_cases src Hu) as [[-> E]|(q & t & -> & E)]; rewrite E; [by apply adds_ds|by apply adds_config].
Qed.

(** *** Sequences of statements *)

Section sequences.
Context (w0 : W) (strict : Prop) (t : option dnode).

(** The building ends with the tree [t], with [lyrc] set only when libyang refused
    something or there is no tree.  The tree may differ when [strict] is false. *)
Definition builds_post (_ : unit) (st : rpc_build * (nc_session * W)) : Prop :=
  st.2.1 = s ∧ no_traffic w0 st.2.2 ∧
  if b_lyrc st.1 then is_Some (b_data st.1) ∧ (strict → b_data st.1 = t) else ¬ ly_accepts ∨ t = None.

Definition junk : Prop := ¬ ly_accepts ∧ ¬ strict.

Definition builds (k : BM unit) (d : option dnode) : Prop :=
  ∀ w rc, no_traffic w0 w → rc = true ∨ junk → wpx F k builds_post (RpcBuild d rc, (s, w)).

Lemma builds_end d : is_Some d → d = t ∨ junk → builds (mret tt) d.
Proof.
  intros Hsome Hd w rc Hw Hrc. apply wpx_ret. split; [done|]. split; [done|]. cbn [fst b_lyrc b_data].
  unfold junk in *. destruct rc; [|left; by destruct Hrc as [|[]]]. split; [done|]. intros Hs. by destruct Hd as [|[_ Hn]].
Qed.

Lemma builds_stop w d : no_traffic w0 w → ¬ ly_accepts → builds_post tt (RpcBuild d false, (s, w)).
Proof. intros Hw Hn. split; [done|]. split; [done|]. by left. Qed.

Lemma builds_seq p c ns k f cs :
  ly_adds p c ns → focus p f → builds k (f (cs ++ ns)) → builds (c;;? k) (f cs).
Proof.
  intros Hc Hf Hk w rc Hw Hrc. apply wpx_bind. eapply Hc; [done| |].
  - intros w' rc' Hw' Hr _. apply Hk; [by etrans|]. destruct Hrc as [->|]; [left; by apply Hr|by right].
  - intros w' d Hw' Hn. apply wpx_ret, builds_stop; [by etrans|done].
Qed.

Lemma builds_root m name k d : builds k (at_data m name []) → builds (lyd_new_inner PNull m name;;? k) d.
Proof.
  intros Hk w rc Hw Hrc. apply wpx_bind, wpx_ly_attach.
  - intros w' Hw'. apply Hk; [by etrans|by left].
  - intros w' Hw' Hn. apply wpx_ret, builds_stop; [by etrans|done].
Qed.

(** The last statement of a sequence. *)
Lemma builds_last p c ns f cs :
  ly_adds p c ns → focus p f → f (cs ++ ns) = t ∨ junk → builds (c;;? mret tt) (f cs).
Proof. intros Hc Hf Ht. eapply builds_seq; [done|done|]. apply builds_end; [apply Hf|done]. Qed.

Lemma excluded_ok qs f cs tl :
  focus PCont f → Forall (λ q, str_ok h (Some q)) qs →
  f (cs ++ (leaf YANG_PUSH (str "excluded-change") <$> ((λ q, rstr h (Some q)) <$> qs))) = t →
  builds (excluded_changes h ((Some <$> qs) ++ None :: tl)) (f cs).
Proof.
  intros Hf Hq. revert cs. induction Hq as [|q qs Hq _ IH]; intros cs Ht; cbn [fmap list_fmap app excluded_changes].
  - apply builds_end; [apply Hf|]. left. by rewrite app_nil_r in Ht.
  - destruct (str_ok_some _ Hq) as [x Ex]; [done|]. cbn [fmap list_fmap] in Ht. rewrite Ex in Ht.
    intros w rc Hw Hrc. apply wpx_bind. eapply wpx_rd; [done|].
    revert w rc Hw Hrc. eapply builds_seq; [apply adds_term|done|]. apply IH. rewrite <- app_assoc. done.
Qed.

Lemma push_periodic_ok n a f cs :
  is_u32 n → str_ok h a → focus PData f → f (cs ++ [periodic_node n (rstr h a)]) = t →
  builds (push_periodic h n a) (f cs).
Proof.
  intros Hn Ha Hf Ht. eapply builds_seq; [apply adds_inner|done|].
  pose proof (focus_cont f cs YANG_PUSH (str "periodic") Hf) as Hc.
  set (g := λ cs', f (cs ++ [inner YANG_PUSH (str "periodic") cs'])) in Hc.
  apply (builds_seq PCont _ [number_leaf YANG_PUSH (str "period") n] _ g []); [by apply adds_number|done|].
  apply (builds_last PCont _ (opt_leaf YANG_PUSH (str "anchor-time") (rstr h a)) g); [by apply adds_opt_term|done|].
  by left.
Qed.
End sequences.

Lemma origin_ok qs a name f (Q : unit → rpc_build * (nc_session * W) → Prop) :
  focus PData f → h !! a = Some (CArr (Some <$> qs)) → Forall (λ q, str_ok h (Some q)) qs →
  ∀ n i cs rc w, (i + n = length qs)%nat →
  (∀ w' rc', no_traffic w w' → (rc = true → rc' = true) →
    Q tt (RpcBuild (f (cs ++ (leaf NMDA name <$> ((λ q, rstr h (Some q)) <$> drop i qs)))) rc', (s, w'))) →
  (∀ w' cs', no_traffic w w' → ¬ ly_accepts → qs ≠ [] → Q tt (RpcBuild (f cs') false, (s, w'))) →
  wpx F (origin_filters h NMDA name (Some a) i n) Q (RpcBuild (f cs) rc, (s, w)).
Proof.
  intros Hf Ha Hq. induction n as [|n IH]; intros i cs rc w Hi H1 H2; cbn [origin_filters].
  - apply wpx_ret. specialize (H1 w rc (reflexivity _)). rewrite drop_ge in H1 by lia. cbn in H1.
    rewrite app_nil_r in H1. by apply H1.
  - cbn [mbind option_bind]. rewrite Ha. destruct (lookup_lt_is_Some_2 qs i) as [q Hqi]; [lia|].
    rewrite list_lookup_fmap, Hqi. cbn [fmap option_fmap option_map]. rewrite (drop_S _ _ _ Hqi) in H1.
    apply wpx_bind, wpx_rd_opt; [by eapply Forall_lookup_1 in Hq|]. apply wpx_bind, wpx_ly_attach; cbn [b_data].
    + intros w1 Hw1. rewrite Nat.add_1_r, (proj1 Hf). apply IH; [lia| |].
      * intros w2 rc2 Hw2 Hr2. rewrite <- app_assoc. apply H1; [by etrans|auto].
      * intros w2 d Hw2. apply H2. by etrans.
    + intros w1 Hw1 Hn. apply wpx_ret, H2; [done|done|]. by intros ->.
Qed.

(** ** The tree of an RPC object *)

(** What the code relies on in an object. *)
Definition complete_rpc (v : rpc_value) : Prop :=
  match v with
  | RpcActGeneric (inl x) => is_Some x
  | RpcActGeneric (inr x) => is_Some x
  | RpcGetconfig ds _ _ | RpcLock ds | RpcUnlock ds | RpcDelete ds _ | RpcValidate ds _ => ds ≠ NC_DATASTORE_ERROR
  | RpcEdit ds _ _ _ e => ds ≠ NC_DATASTORE_ERROR ∧ is_Some e
  | RpcCopy t _ s _ _ => t ≠ NC_DATASTORE_ERROR ∧ s ≠ NC_DATASTORE_ERROR
  | RpcEditdata _ _ e => is_Some e
  | _ => True
  end.

(** The RPCs with a loop whose errors may get lost are sent whole if there is no error. *)
Definition whole (v : rpc_value) : Prop :=
  match v with
  | RpcGetdata _ _ _ (_ :: _) _ _ _ _ _ => ly_accepts
  | _ => True
  end.

Ltac unfold_send := unfold send_act_generic, send_act_generic_xml, send_getconfig, send_edit, send_copy, send_delete, send_lock, send_unlock, send_get, send_kill, send_commit, send_discard, send_cancel, send_validate, send_getschema, send_subscribe, send_editdata, send_establishsub, send_modifysub, send_deletesub, send_killsub, send_resyncsub.

Ltac adds_tac := first
  [ by apply adds_opt_term | by apply adds_value_term | by apply adds_number | by apply adds_opt_number
  | apply adds_enum | apply adds_flag | apply adds_config; eassumption | by apply adds_sub_filter | by apply adds_filter
  | apply adds_with_defaults | by apply adds_target | by apply adds_source | apply adds_inner | apply adds_term ].

Ltac builds_tac :=
  apply builds_root;
  repeat (eapply builds_seq; [adds_tac|apply focus_data|]);
  try (apply builds_end; [by eexists|]; left; unfold at_data; rewrite <- ?app_assoc; reflexivity).

Lemma builds_filter_getdata x :
  str_ok h x →
  ly_adds PData (match x with
    | None => mret true
    | Some _ => y ← rd h x;
      if is_xml y then lyd_new_any PData NMDA (str "subtree-filter") true (Some y)
      else lyd_new_term PData NMDA (str "xpath-filter") (Some y)
    end)
    (match rstr h x with
     | None => []
     | Some y => [if is_xml y then anyxml NMDA (str "subtree-filter") y else leaf NMDA (str "xpath-filter") (Some y)]
     end).
Proof.
  intros Hx. destruct (str_ok_cases x Hx) as [[-> E]|(q & y & -> & E)]; rewrite E.
  - apply adds_nothing.
  - intros f cs rc w Q Hf H1 H2. apply wpx_bind. eapply wpx_rd; [done|].
    destruct (is_xml y); [by eapply adds_any|by eapply adds_term].
Qed.

(** *** The RPCs with particular statements *)

Lemma build_tree_ok w0 d :
  tree_ok h d → is_Some (rtree h d) → builds w0 True (rtree h d) (build_rpc h (RpcActGeneric (inl d))) None.
Proof.
  intros Ht [t Et] w rc Hw Hrc. unfold build_rpc, send_act_generic. rewrite Et. unfold rtree in Et.
  destruct (d ≫= _) as [[]|]; try done. injection Et as ->. apply wpx_modify. split; [done|]. split; [done|].
  cbn. destruct rc; [by eauto|]. by destruct Hrc as [|[_ []]].
Qed.

Lemma build_text_ok w0 x :
  is_Some (rstr h x) → (∀ y w, (ly_in_new_memory y w).1 = true) →
  builds w0 True (rstr h x ≫= ly_parsed) (build_rpc h (RpcActGeneric (inr x))) None.
Proof.
  intros [y Ey] Hmem w rc Hw Hrc. cbn [build_rpc]. unfold send_act_generic_xml. rewrite Ey. cbn [mbind option_bind].
  apply wpx_bind. eapply wpx_rd; [done|]. apply wpx_bind, wpx_ly. rewrite Hmem.
  destruct (ly_in_law y w) as (? & ? & ?). set (w1 := (ly_in_new_memory y w).2) in *.
  apply wpx_bind. apply wpx_guarded; [done|]. apply wpx_bind, wpx_ly.
  destruct (ly_parse_law y w1) as [-> Hw2]. apply wpx_bind, wpx_modify, wpx_bind, wpx_set_lyrc, wpx_ret.
  split; [done|]. split; [etrans; [done|]; etrans; [|done]; repeat split; lia || done|].
  cbn [fst b_lyrc b_data]. case_bool_decide as E; [by split|]. right. by destruct (ly_parsed y); [destruct E|].
Qed.

Lemma build_edit_ok w0 ds op te er e :
  str_ok h e → ds ≠ NC_DATASTORE_ERROR → is_Some (rstr h e) →
  builds w0 True (rpc_tree ly_parsed (view h (RpcEdit ds op te er e))) (build_rpc h (RpcEdit ds op te er e)) None.
Proof. intros He Hds [y Ey]. cbn [view rpc_tree]. rewrite Ey. cbn [build_rpc]. unfold_send. builds_tac. Qed.

Lemma build_editdata_ok w0 d op e :
  str_ok h d → str_ok h e → is_Some (rstr h e) →
  builds w0 True (rpc_tree ly_parsed (view h (RpcEditdata d op e))) (build_rpc h (RpcEditdata d op e)) None.
Proof. intros Hd He [y Ey]. cbn [view rpc_tree]. rewrite Ey. cbn [build_rpc]. unfold_send. builds_tac. Qed.

Lemma getdata_rest w0 strict t cs dep wo wd :
  is_u32 dep →
  at_data NMDA (str "get-data") (cs ++ opt_number_leaf NMDA (str "max-depth") dep ++
    flag_leaf NMDA (str "with-origin") wo ++ opt_leaf NMDA (str "with-defaults") (nc_wd2str wd)) = t ∨ junk strict →
  builds w0 strict t
    (opt_number PData NMDA (str "max-depth") dep;;?
     ly_when wo (lyd_new_term PData NMDA (str "with-origin") None);;?
     match wd with
     | NC_WD_UNKNOWN => mret tt
     | _ => lyd_new_term PData NMDA (str "with-defaults") (nc_wd2str wd);;? mret tt
     end) (at_data NMDA (str "get-data") cs).
Proof.
  intros Hn Hcs. eapply builds_seq; [adds_tac|apply focus_data|]. eapply builds_seq; [adds_tac|apply focus_data|].
  rewrite !app_assoc in Hcs. destruct wd; cbn [nc_wd2str opt_leaf] in *;
    [apply builds_end; [by eexists|]; by rewrite app_nil_r in Hcs|..];
    (eapply builds_last; [apply adds_term|apply focus_data|done]).
Qed.

Lemma build_getdata_ok w0 d f c o count neg dep wo wd :
  let v := view h (RpcGetdata d f c o count neg dep wo wd) in
  body_ok h (RpcGetdata d f c o count neg dep wo wd) → is_u32 dep →
  builds w0 (whole v) (rpc_tree ly_parsed v) (rpc_get_data h d f c o count neg dep wo wd) None.
Proof.
  intros v (Hs & _ & Ha & Hnull) Hn. cbn [strs] in Hs. rewrite !list.Forall_cons in Hs. destruct_and?.
  unfold rpc_get_data. apply builds_root.
  eapply builds_seq; [adds_tac|apply focus_data|]. eapply builds_seq; [by apply builds_filter_getdata|apply focus_data|].
  eapply builds_seq; [adds_tac|apply focus_data|]. intros w rc Hw Hrc. apply wpx_bind. destruct o as [a|].
  - destruct Ha as (qs & Ha & [Hc _] & Hq). rewrite app_nil_r in Ha.
    assert (Er : rarr h (Some a) = (λ q, rstr h (Some q)) <$> qs).
    { unfold rarr. rewrite (slots_arr _ _ qs []) by (by rewrite app_nil_r). cbn [upto_null]. by rewrite app_nil_r. }
    eapply (origin_ok qs a); [apply focus_data|done|done|rewrite <- Hc; lia| |].
    + intros w' rc' Hw' Hr. apply getdata_rest; [done| |by etrans|].
      * left. unfold v. cbn [view rpc_tree]. rewrite Er, <- ?app_assoc. done.
      * destruct Hrc as [->|]; [left; by apply Hr|by right].
    + intros w' cs' Hw' Hna Hne.
      assert (Hj : junk (whole v)).
      { split; [done|]. unfold v. cbn [view whole]. rewrite Er. by destruct qs. }
      apply getdata_rest; [done|by right|by etrans|by right].
  - replace (Z.to_nat count) with 0%nat by (specialize (Hnull eq_refl); lia). cbn [origin_filters]. apply wpx_ret.
    apply getdata_rest; [done| |done|done]. left. unfold v. cbn [view rpc_tree]. rewrite <- ?app_assoc. done.
Qed.

Lemma build_establishpush_ok w0 d f b e t :
  let v := view h (RpcEstablishpush d f b e t) in
  body_ok h (RpcEstablishpush d f b e t) → Forall is_u32 (numbers (RpcEstablishpush d f b e t : rpc_body ptr ptr ptr)) →
  builds w0 True (rpc_tree ly_parsed v) (rpc_establish_push h d f b e t) None.
Proof.
  intros v (Hs & _ & Ha) Hn.
  assert (Hs' : str_ok h d ∧ str_ok h f ∧ str_ok h b ∧ str_ok h e).
  { destruct t; cbn [strs] in Hs; rewrite !list.Forall_cons in Hs; tauto. }
  destruct Hs' as (Hd & Hf & Hb & He). unfold rpc_establish_push. apply builds_root.
  do 4 (eapply builds_seq; [adds_tac|apply focus_data|]). set (cs := _ ++ opt_leaf _ _ (rstr h e)).
  destruct t as [n a|n sy x]; cbn [numbers] in Hn; rewrite list.Forall_cons in Hn; destruct Hn as [Hn _].
  - cbn [strs] in Hs. rewrite !list.Forall_cons in Hs. apply push_periodic_ok; [done|tauto|apply focus_data|].
    unfold v, cs. cbn [view rpc_tree trigger_node]. unfold at_data. by rewrite <- ?app_assoc.
  - eapply builds_seq; [adds_tac|apply focus_data|].
    pose (g := λ cs', at_data SUBSCRIBED (str "establish-subscription") (cs ++ [inner YANG_PUSH (str "on-change") cs'])).
    assert (Hg : focus PCont g) by (apply focus_cont, focus_data).
    apply (builds_seq w0 True _ PCont _ (opt_number_leaf YANG_PUSH (str "dampening-period") n) _ g []); [by apply adds_opt_number|done|].
    eapply (builds_seq w0 True _ PCont _ _ _ g); [apply adds_term|done|].
    destruct x as [a|].
    + destruct Ha as (qs & Ha & _ & Hq). cbn [mbind option_bind]. rewrite Ha. apply excluded_ok; [done|done|].
      unfold v, g, cs. cbn [view rpc_tree trigger_node]. unfold rarr. rewrite (slots_arr _ _ qs [None] Ha). cbn [upto_null].
      rewrite app_nil_r. unfold at_data. by rewrite <- ?app_assoc.
    + cbn [mbind option_bind]. apply builds_end; [by eexists|]. left. unfold v, g, cs, at_data. cbn [view rpc_tree trigger_node].
      by rewrite <- ?app_assoc.
Qed.

Lemma build_modifypush_ok w0 n d f b t :
  let v := view h (RpcModifypush n d f b t) in
  body_ok h (RpcModifypush n d f b t) → Forall is_u32 (numbers (RpcModifypush n d f b t : rpc_body ptr ptr ptr)) →
  builds w0 True (rpc_tree ly_parsed v) (rpc_modify_push h n d f b t) None.
Proof.
  intros v (Hs & _) Hn.
  assert (Hs' : str_ok h d ∧ str_ok h f ∧ str_ok h b).
  { destruct t; cbn [strs] in Hs; rewrite !list.Forall_cons in Hs; tauto. }
  assert (Hn1 : is_u32 n) by (destruct t; cbn [numbers] in Hn; rewrite !list.Forall_cons in Hn; tauto).
  destruct Hs' as (Hd & Hf & Hb). unfold rpc_modify_push. apply builds_root.
  do 4 (eapply builds_seq; [adds_tac|apply focus_data|]). set (cs := _ ++ opt_leaf _ _ (rstr h b)).
  destruct t as [m a|m]; cbn [numbers] in Hn; rewrite !list.Forall_cons in Hn; destruct Hn as (_ & Hm & _).
  - cbn [strs] in Hs. rewrite !list.Forall_cons in Hs. apply push_periodic_ok; [done|tauto|apply focus_data|].
    unfold v, cs, at_data. cbn [view rpc_tree]. by rewrite <- ?app_assoc.
  - eapply builds_seq; [adds_tac|apply focus_data|].
    pose (g := λ cs', at_data SUBSCRIBED (str "modify-subscription") (cs ++ [inner YANG_PUSH (str "on-change") cs'])).
    assert (Hg : focus PCont g) by (apply focus_cont, focus_data).
    apply (builds_last w0 True _ PCont _ (opt_number_leaf YANG_PUSH (str "dampening-period") m) g []); [by apply adds_opt_number|done|].
    left. unfold v, g, cs, at_data. cbn [view rpc_tree]. by rewrite <- ?app_assoc.
Qed.

Lemma build_rpc_ok w0 b :
  body_ok h b → complete_rpc (view h b) → Forall is_u32 (numbers b) →
  (match b with RpcActGeneric (inr _) => ∀ x w, (ly_in_new_memory x w).1 = true | _ => True end) →
  builds w0 (whole (view h b)) (rpc_tree ly_parsed (view h b)) (build_rpc h b) None.
Proof.
  intros Hok Hsend Hn Hmem. pose proof Hok as (Hs & Ht & _).
  destruct b as [[d|x]| | | | | | | | | | | | | | | | | | | | | | |];
    cbn [strs numbers complete_rpc view] in Hs, Hn, Hsend; rewrite ?list.Forall_cons in Hs;
    try (rewrite ?list.Forall_cons in Hn); destruct_and?.
  all: try (cbn [build_rpc view]; unfold_send; builds_tac; fail).
  - by apply build_tree_ok.
  - by apply build_text_ok.
  - by apply build_edit_ok.
  - by apply build_getdata_ok.
  - by apply build_editdata_ok.
  - pose proof (build_establishpush_ok w0 _ _ _ _ _ Hok Hn). by destruct trigger.
  - pose proof (build_modifypush_ok w0 _ _ _ _ _ Hok Hn). by destruct trigger.
Qed.

Lemma modules_ok l w :
  wpx F (modules_implemented l)
    (λ r st, st.1 = s ∧ no_traffic w st.2 ∧ (r = false → ¬ ly_accepts)) (s, w).
Proof.
  revert w. induction l as [|m l IH]; intros w; cbn [modules_implemented]; [by apply wpx_ret|].
  apply wpx_bind, wpx_on_env, wpx_call. pose proof (ly_module_law m w) as Hw.
  destruct (ly_ctx_get_module_implemented m w) as [[] w'] eqn:E; cbn [fst snd] in *.
  - eapply wpx_mono; [apply IH|]. intros r st (? & Hw' & ?). split; [done|]. split; [by etrans|done].
  - apply wpx_ret. split; [done|]. split; [done|]. intros _ [Hm _]. specialize (Hm m w). by rewrite E in Hm.
Qed.
End build.

Section send.
Context {W : Type} `{!Env W} `{!EnvLaws W} `{!LyBuild W} `{!LyBuildLaws W}.
Context {envelope : Type} `{!Printer dnode envelope}.
Implicit Types (h : cheap) (w : W).

Lemma accepted_sendable h b : body_ok h b → rpc_accepted h b = true → complete_rpc (view h b).
Proof.
  intros (Hs & Ht & _) Hacc.
  assert (Hstr : ∀ x, x ∈ strs b → bool_decide (x ≠ None) = true → is_Some (rstr h x)).
  { intros x Hx Hn%bool_decide_eq_true. rewrite list.Forall_forall in Hs. apply str_ok_some; [by apply Hs|].
    by destruct x. }
  destruct b as [[d|x]| | | | | | | | | | | | | | | | | | | | | | |]; cbn [rpc_accepted view complete_rpc strs] in *;
    rewrite ?andb_true_iff in Hacc; destruct_and?;
    repeat match goal with H : bool_decide (_ ≠ NC_DATASTORE_ERROR) = true |- _ => apply bool_decide_eq_true in H end;
    try done; try (by apply Hstr; [set_solver|]); try (split; [done|]; by apply Hstr; [set_solver|]).
  - unfold rtree. by destruct (d ≫= _) as [[]|].
  - by destruct trigger.
  - by destruct trigger.
Qed.

(** [nc_send_rpc] writes the tree of the RPC as one message, or it returns an error
    without having written anything. *)
Definition sent_or_error (fuel : nat) (timeout : Z) (tree : option dnode) (s : nc_session) (w : W)
    (res : NC_MSG_TYPE * option Z) (st : nc_session * W) : Prop :=
  (res = (NC_MSG_ERROR, None) ∧ st.1 = s ∧ no_traffic w st.2 ∧
    (¬ ly_accepts (W := W) ∨ ∀ t, tree = Some t → d_ctx t = false)) ∨
  (∃ t w1, tree = Some t ∧ d_ctx t = true ∧ no_traffic w w1 ∧
    nc_write_msg_io fuel timeout (OutRpc (envelope := envelope) t None) (s, w1) = Done (res.1, st) ∧
    res.2 = (if bool_decide (res.1 = NC_MSG_RPC) then Some (msgid (client st.1)) else None)).

Lemma nc_send_rpc_ok F fuel h r b fr timeout s w :
  h !! r = Some (CRpc (NcRpc b fr)) → body_ok h b → complete_rpc (view h b) → Forall is_u32 (numbers b) →
  (match b with RpcActGeneric (inr _) => ∀ x (w : W), (ly_in_new_memory x w).1 = true | _ => True end) →
  status s = NC_STATUS_RUNNING → side s = NC_CLIENT → whole (W := W) (view h b) →
  (∀ t w1, rpc_tree ly_parsed (view h b) = Some t → d_ctx t = true → no_traffic w w1 →
     wpx F (nc_write_msg_io fuel timeout (OutRpc (envelope := envelope) t None)) (λ _ _, True) (s, w1)) →
  wpx F (nc_send_rpc (envelope := envelope) fuel h (Some r) timeout)
    (sent_or_error fuel timeout (rpc_tree ly_parsed (view h b)) s w) (s, w).
Proof.
  intros Hr Hok Hsend Hn Hmem Hst Hsd Hwh Hwr. unfold nc_send_rpc. apply wpx_bind, wpx_gets. cbn [fst].
  rewrite Hst, Hsd, !bool_decide_true by done. cbn [negb orb mbind option_bind]. rewrite Hr. cbn [rpc_content].
  apply wpx_bind. eapply wpx_mono; [apply modules_ok|]. intros found [s1 w1] (Es & Hw1 & Hf). cbn [fst snd] in *. subst s1.
  destruct found; cbn [negb]; [|apply wpx_ret; left; repeat (split; [done|]); left; by apply Hf].
  apply wpx_bind. eapply wpx_mono with (Q := λ bd st, builds_post s w (whole (view h b)) (rpc_tree ly_parsed (view h b)) tt (bd, st)).
  { pose proof (build_rpc_ok h s F w b Hok Hsend Hn Hmem w1 true Hw1 (or_introl eq_refl)) as Hb.
    unfold run_build, wpx in *. by destruct (build_rpc h b _) as [[[] [bd st]]| |]. }
  intros bd [s2 w2] (Es & Hw2 & Hb). cbn [fst snd] in *. subst s2. destruct (b_lyrc bd); cbn [negb].
  2: { apply wpx_ret. left. repeat (split; [done|]). destruct Hb as [Hb|Hb]; [by left|right]. by intros t; rewrite Hb. }
  destruct Hb as [[t Et] Hb]. rewrite Et in Hb |- *. specialize (Hb Hwh). rewrite <- Hb in *.
  unfold nc_send_msg_io. destruct (d_ctx t) eqn:Ec; cbn [negb].
  - apply wpx_bind. pose proof (Hwr t w2 eq_refl Ec Hw2) as Hw. apply wpx_run in Hw.
    eapply wpx_mono; [exact Hw|]. intros r' [s3 w3] [Erun _]. apply wpx_bind, wpx_gets, wpx_ret. right. by exists t, w2.
  - apply wpx_bind, wpx_ret, wpx_bind, wpx_gets, wpx_ret. left. repeat (split; [done|]). right. by intros t' [= <-].
Qed.
End send.
