(* ===== verification/RpcTheorems.v ===== *)
(** * RPCs of the client, from the arguments to the peer

    The theorems on RPC objects: their memory, what is sent for them, and the
    composition with the writer and the reader. *)

From S2P Require Import Prelude Session Env Time Locks Sim IoRead IoReadProofs Framing.
From S2P Require Import IoWrite IoWriteProofs IoWriteSafe IoTheorems Capabilities CapabilitiesProofs.
From S2P Require Import ClientRpc ClientRpcProofs SendRpc SendRpcProofs.
From Stdlib Require Import ZArith Ascii String Lia.
From stdpp Require Import base list strings gmap numbers.
Open Scope Z_scope.

(** ** libyang on the simulated environment *)

#[export] Instance sim_dup {m0 up} : LyDup (sim m0 up) := { lyd_dup_ok t w := (true, w) }.

#[export] Instance sim_dup_laws {m0 up} : LyDupLaws (sim m0 up).
Proof. constructor. intros t w. done. Qed.

(** It creates every node but a term called [refused], and parses no RPC. *)
Definition sim_ly (refused : option bytes) : LyBuild (sim true true) := {|
  ly_ctx_get_module_implemented m w := (true, w);
  lyd_new_ok c w := (match c with NewTerm _ _ name _ => negb (bool_decide (Some name = refused)) | _ => true end, w);
  lyd_parse_rpc s w := (None, w);
|}.

Definition sim_ly_laws refused : @LyBuildLaws (sim true true) _ _ (sim_ly refused).
Proof. refine {| ly_parsed := λ _, None |}; done. Defined.

(** Trees printed as XML without namespaces. *)
Fixpoint print_tree (t : dnode) : bytes :=
  match t with
  | DNode _ _ name v _ cs =>
    str "<" ++ name ++ str ">" ++
    match v with VTerm (Some s) | VAny _ (Some s) => s | _ => [] end ++
    concat (print_tree <$> cs) ++ str "</" ++ name ++ str ">"
  end.

#[export] Instance tree_printer : Printer dnode bytes := {
  is_action t := false;
  lyd_print _ t := ([print_tree t], true);
  opaq_ok e := inner [] (str "ok") [];
  opaq_reply e cs := inner [] (str "rpc-reply") cs;
}.

Definition demo_rpc_session : nc_session :=
  Session NC_STATUS_RUNNING NC_SESSION_TERM_NONE 0 NC_CLIENT 1 NC_VERSION_11 (TiFd 4 5) (Some false)
    None None 0 None 0 (ClientOpts 0 None [] false 0 0) (ServerOpts 0 0 0 false 0).

(** A heap with the arguments of a get-data. *)
Definition demo_heap : cheap :=
  list_to_map [(1%positive, CStr (str "ds:operational")); (2%positive, CStr (str "or:intended"));
    (3%positive, CArr [Some 2%positive])].

Definition demo_args (dep : Z) : rpc_body ptr ptr ptr :=
  RpcGetdata (Some 1%positive) None None (Some 3%positive) 1 false dep false NC_WD_UNKNOWN.

(** ** Theorems *)

Section memory.
Context {W : Type} `{!Env W} `{!EnvLaws W} `{!LyDup W} `{!LyDupLaws W}.

(** C24: RPC objects do not leak and are not freed twice.  Whatever the constructor
    and its arguments, and whichever allocations fail, building an object and
    freeing it with [nc_rpc_free] succeeds and leaves the heap as it was, without
    the arguments when these were handed over with [NC_PARAMTYPE_FREE]; an object
    is only made from acceptable arguments, and always if memory is available.
    Only the constructor that copies [excluded_change] needs memory for it. *)
Theorem rpc_memory h pt args (w : W) :
  body_ok h args → NoDup (own h args) → (unchecked pt args → memory_left (W := W)) →
  ∃ p h1 w1, construct args pt (h, w) = Done (p, (h1, w1)) ∧
    nc_rpc_free p (h1, w1) = Done (tt, (left_over h pt args (bool_decide (is_Some p)), w1)) ∧
    (is_Some p → rpc_accepted h args = true) ∧
    (memory_left (W := W) → rpc_accepted h args = true → is_Some p).
Proof.
  intros Hok Hn Hu.
  destruct (proj1 (wp_total _ _ _) (construct_ok h pt w False args Hok Hu)) as (p & [h1 w1] & E & Hb).
  destruct (proj1 (wp_total _ _ _) (free_built False h pt w args p h1 w1 Hok Hn Hb)) as ([] & st & E2 & ->).
  exists p, h1, w1. split; [done|]. split; [done|]. destruct Hb as [_ Hb]. split.
  - intros [r ->]. apply Hb.
  - intros Hm Hacc. destruct p as [r|]; [done|]. destruct Hb as [_ Hb]. rewrite Hb in Hacc; done.
Qed.
End memory.

Lemma numbers_view h b : numbers (view h b) = numbers b.
Proof. by destruct b as [[]| | | | | | | | | | | | | | | | | | | | |? ? ? ? []|? ? ? ? []|]. Qed.

(** [ly_in_new_memory] works, as far as the RPC uses it. *)
Definition text_memory (W : Type) `{!Env W} (b : rpc_body ptr ptr ptr) : Prop :=
  match b with RpcActGeneric (inr _) => ∀ x (w : W), (ly_in_new_memory x w).1 = true | _ => True end.

Lemma text_memory_all {W} `{!Env W} b : (∀ x (w : W), (ly_in_new_memory x w).1 = true) → text_memory W b.
Proof. intros Hm. by destruct b as [[]| | | | | | | | | | | | | | | | | | | | | | |]. Qed.

Section any_libyang.
Context {W : Type} `{!Env W} `{!EnvLaws W} `{!LyBuild W} `{!LyBuildLaws W}.
Context {envelope : Type} `{!Printer dnode envelope}.

(** Whatever libyang accepts or refuses and whatever the transport does,
    [nc_send_rpc] of a complete RPC object does not crash, and it sends the whole
    tree of the object as one message or returns an error with nothing written,
    the session and its message id as they were.  A get-data RPC with origin
    filters is excepted unless libyang refuses nothing. *)
Theorem rpc_all_or_nothing fuel h r b fr timeout s (w : W) :
  h !! r = Some (CRpc (NcRpc b fr)) → body_ok h b → complete_rpc (view h b) → Forall is_u32 (numbers b) →
  (∀ x (w : W), (ly_in_new_memory x w).1 = true) →
  status s = NC_STATUS_RUNNING → side s = NC_CLIENT → io_lock s = Some false → whole (W := W) (view h b) →
  (∀ t, rpc_tree ly_parsed (view h b) = Some t → sendable s (OutRpc (envelope := envelope) t None)) →
  nc_send_rpc (envelope := envelope) fuel h (Some r) timeout (s, w) ≠ Crash ∧
  ∀ res st, nc_send_rpc (envelope := envelope) fuel h (Some r) timeout (s, w) = Done (res, st) →
    sent_or_error (envelope := envelope) fuel timeout (rpc_tree ly_parsed (view h b)) s w res st.
Proof.
  intros Hr Hok Hc Hn Hmem Hst Hsd Hl Hwh Hs.
  assert (Hmem' : text_memory W b) by (by apply text_memory_all).
  assert (Hwr : ∀ t w1, rpc_tree ly_parsed (view h b) = Some t → d_ctx t = true → no_traffic w w1 →
    wlp (nc_write_msg_io fuel timeout (OutRpc (envelope := envelope) t None)) (λ _ _, True) (s, w1)).
  { intros t w1 Ht _ _. eapply wpx_mono; [apply nc_write_msg_io_safe; [done|by apply Hs]|done]. }
  pose proof (nc_send_rpc_ok True fuel h r b fr timeout s w Hr Hok Hc Hn Hmem' Hst Hsd Hwh Hwr) as H.
  unfold wpx in H. destruct (nc_send_rpc _ _ _ _ _) as [[res st]| |]; [|done|done].
  split; [done|]. by intros ? ? [= <- <-].
Qed.
End any_libyang.

Section end_to_end.
Context {W1 W2 : Type} `{RL1 : Reliable W1} `{RL2 : Reliable W2}.
Context `{!LyDup W1} `{!LyDupLaws W1} `{!LyBuild W1} `{!LyBuildLaws W1}.
Context {envelope : Type} `{!Printer dnode envelope}.

(** C11: From the arguments of a constructor to the peer: when memory is available,
    libyang creates the nodes and the transport works, an object made from
    acceptable arguments is sent, and the peer reads the text of exactly the tree
    that these arguments stand for, in an [rpc] element with the message id that
    [nc_send_rpc] returns. *)
Theorem rpc_end_to_end h pt args t fuel1 fuel2 t1 t2 s1 s2 (w1 : W1) :
  let m := OutRpc (envelope := envelope) t None in
  body_ok h args → rpc_accepted h args = true → Forall is_u32 (numbers args) →
  memory_left (W := W1) → ly_accepts (W := W1) →
  rpc_tree (ly_parsed (W := W1)) (view h args) = Some t → d_ctx t = true →
  status s1 = NC_STATUS_RUNNING → side s1 = NC_CLIENT → ready s1 → io_lock s1 = Some false →
  msg_ok fuel1 s1 m → frameable (version s1) (msg_payload s1 m) →
  open_session s2 → io_lock s2 = Some false → version s2 = version s1 →
  ∃ r h1 w2 w3 out, construct args pt (h, w1) = Done (Some r, (h1, w2)) ∧
    nc_send_rpc (envelope := envelope) fuel1 h1 (Some r) t1 (s1, w2) =
      Done ((NC_MSG_RPC, Some (u64 (msgid (client s1) + 1))), (after_msg m s1, w3)) ∧
    outq w3 = outq w1 ++ out ∧
    ∀ (w : W2) rest, inq w = out ++ rest → zlen (inq w) < 2 ^ 31 → zlen (inq w) < Z.of_nat fuel2 →
      ∃ w', nc_read_msg_poll_io fuel2 t2 (s2, w) = Done ((1, Some (msg_payload s1 m)), (s2, w')) ∧ inq w' = rest.
Proof.
  intros m Hok Hacc Hn Hmem Hly Ht Hctx Hst Hsd Hrdy Hl Hm Hfr Ho2 Hl2 Hv.
  destruct (proj1 (wp_total _ _ _) (construct_ok h pt w1 False args Hok (λ _, Hmem))) as (p & [h1 w2] & E & Hw2 & Hb).
  cbn [fst snd] in *. destruct p as [r|]; [|destruct Hb as [_ Hb]; by rewrite Hb in Hacc].
  destruct Hb as (_ & b & fr & Hr & _ & Hbok & Hview & _). specialize (Hview Hmem).
  assert (Hnb : Forall is_u32 (numbers b)) by (by rewrite <- (numbers_view h1), Hview, numbers_view).
  assert (Hcomplete : complete_rpc (view h1 b)) by (rewrite Hview; by apply accepted_sendable).
  assert (Hwh : whole (W := W1) (view h1 b)) by (unfold whole; by repeat case_match).
  assert (Hwrite : ∀ t' w, rpc_tree ly_parsed (view h1 b) = Some t' → d_ctx t' = true → no_traffic w2 w →
    wp (nc_write_msg_io fuel1 t1 (OutRpc (envelope := envelope) t' None)) (λ _ _, True) (s1, w)).
  { intros t' w Et' _ _. rewrite Hview, Ht in Et'. injection Et' as <-.
    eapply wpx_mono; [by apply nc_write_msg_io_spec|done]. }
  destruct (proj1 (wp_total _ _ _) (nc_send_rpc_ok False fuel1 h1 r b fr t1 s1 w2 Hr Hbok Hcomplete Hnb
    (text_memory_all b (rel_ly_in (W := W1))) Hst Hsd Hwh Hwrite)) as ([rt id] & [s3 w3] & Esend & Hsent).
  rewrite Hview, Ht in Hsent. destruct Hsent as [(_ & _ & _ & [Hna|Hna])|(t' & w2' & [= <-] & _ & Hw' & Erun & Eid)].
  { done. }
  { rewrite (Hna t) in Hctx; done. }
  destruct (write_then_read (W1 := W1) (W2 := W2) fuel1 fuel2 t1 t2 m s1 s2 w2' Hrdy Hl Hm Hfr Ho2 Hl2 Hv)
    as (w4 & out & Ew & _ & Hout & Hrd).
  rewrite (Ew : nc_write_msg_io fuel1 t1 (OutRpc t None) (s1, w2') = _) in Erun. injection Erun as <- <- <-. cbn [fst snd] in *. subst id.
  exists r, h1, w2, w4, out. split; [done|]. split; [exact Esend|]. split.
  - rewrite Hout. destruct Hw' as (_ & _ & ->), Hw2 as (_ & _ & ->). done.
  - intros w rest Hin Hlen Hf. destruct (Hrd w rest Hin Hlen Hf) as (w' & ? & ? & _). eauto.
Qed.
End end_to_end.

(** An origin filter that libyang refuses (an unknown identity, say) gets lost: the
    loop of [nc_send_rpc] over the filters is left, but the node created for the
    depth resets the error, and the get-data RPC is sent without the filter.
    Without a depth the error is returned. *)
Theorem origin_filter_lost :
  let ly := sim_ly (Some (str "origin-filter")) in
  let h dep := <[4%positive := CRpc (NcRpc (demo_args dep) false)]> demo_heap in
  let send dep : outcome (NC_MSG_TYPE * option Z * (nc_session * sim true true)) :=
    nc_send_rpc (LyBuild0 := ly) (envelope := bytes) 2000 (h dep) (Some 4%positive) 0 (demo_rpc_session, demo_world []) in
  (∃ st, send 3 = Done ((NC_MSG_RPC, Some 1), st) ∧
    outq st.2 = framed NC_VERSION_11 [msg_payload demo_rpc_session (OutRpc (envelope := bytes)
      (inner NMDA (str "get-data") [leaf NMDA (str "datastore") (Some (str "ds:operational"));
        leaf NMDA (str "max-depth") (Some (str "3"))]) None)]) ∧
  (∃ st, send 0 = Done ((NC_MSG_ERROR, None), st)).
Proof. split; eexists; vm_compute; repeat split; reflexivity. Qed.

(** ** Evaluation *)

Lemma sim_memory_left : memory_left (W := sim true true).
Proof. split; [|done]. intros n w Hn. cbn. destruct (n =? 0); cbn; lia. Qed.

Lemma demo_args_ok dep : body_ok demo_heap (demo_args dep).
Proof.
  split; [|split; [done|split; [|done]]].
  - repeat constructor. by eexists.
  - exists [2%positive]. repeat split; try done. repeat constructor. by eexists.
Qed.

Lemma rpc_memory_witness :
  ∃ p h1 w1,
    construct (demo_args 3) NC_PARAMTYPE_FREE (demo_heap, demo_world (m0 := true) (up := true) []) = Done (p, (h1, w1)) ∧
    nc_rpc_free p (h1, w1) = Done (tt, (left_over demo_heap NC_PARAMTYPE_FREE (demo_args 3) true, w1)) ∧
    left_over demo_heap NC_PARAMTYPE_FREE (demo_args 3) true = ∅.
Proof.
  destruct (rpc_memory demo_heap NC_PARAMTYPE_FREE (demo_args 3) (demo_world (m0 := true) (up := true) []))
    as (p & h1 & w1 & E & Ef & _ & Hp).
  - apply demo_args_ok.
  - apply (bool_decide_unpack _). vm_compute. exact I.
  - intros [].
  - exists p, h1, w1. split; [exact E|]. rewrite bool_decide_true in Ef by (apply Hp; [apply sim_memory_left|reflexivity]).
    split; [exact Ef|]. vm_compute. reflexivity.
Defined.

(** The lock RPC when libyang refuses the node of the datastore. *)
Lemma rpc_all_or_nothing_witness :
  let ly := sim_ly (Some (str "running")) in
  let h : cheap := {[4%positive := CRpc (NcRpc (RpcLock NC_DATASTORE_RUNNING) false)]} in
  nc_send_rpc (LyBuild0 := ly) (envelope := bytes) 2000 h (Some 4%positive) 0
    (demo_rpc_session, demo_world (m0 := true) (up := true) []) ≠ Crash.
Proof.
  intros ly h.
  apply (rpc_all_or_nothing (LyBuildLaws0 := sim_ly_laws (Some (str "running"))) 2000 h 4 (RpcLock NC_DATASTORE_RUNNING) false);
    try reflexivity.
  - repeat split. constructor.
  - discriminate.
  - constructor.
  - intros t [= <-]. split; [|reflexivity]. intros wd. repeat constructor.
Defined.

Lemma rpc_end_to_end_witness :
  ∃ r h1 w2 w3 out,
    construct (demo_args 3) NC_PARAMTYPE_DUP_AND_FREE (demo_heap, demo_world (m0 := true) (up := true) []) =
      Done (Some r, (h1, w2)) ∧
    nc_send_rpc (LyBuild0 := sim_ly None) (envelope := bytes) 2000 h1 (Some r) 0 (demo_rpc_session, w2) =
      Done ((NC_MSG_RPC, Some 1), (set_msgid 1 demo_rpc_session, w3)) ∧ outq w3 = out.
Proof.
  destruct (rpc_end_to_end (W2 := sim true true) (LyBuildLaws0 := sim_ly_laws None) (envelope := bytes)
    demo_heap NC_PARAMTYPE_DUP_AND_FREE (demo_args 3)
    (inner NMDA (str "get-data") [leaf NMDA (str "datastore") (Some (str "ds:operational"));
      leaf NMDA (str "origin-filter") (Some (str "or:intended")); leaf NMDA (str "max-depth") (Some (str "3"))])
    2000 2000 0 0 demo_rpc_session (demo_session NC_VERSION_11 (TiFd 4 5)) (demo_world []))
    as (r & h1 & w2 & w3 & out & E1 & E2 & E3 & _); try reflexivity.
  - apply demo_args_ok.
  - repeat constructor; discriminate.
  - apply sim_memory_left.
  - split; [|intros [] w]; reflexivity.
  - split; [split|]; done.
  - split; [reflexivity|]. split; [split; [reflexivity|]|]; repeat constructor.
  - split; [|discriminate]. apply (bool_decide_unpack (ascii_of_N 0 ∉ _)). vm_compute. exact I.
  - split; done.
  - exists r, h1, w2, w3, out. split; [exact E1|]. split; [exact E2|exact E3].
Defined.
