(* ===== verification/SshCliOpts.v ===== *)
(** * SSH options of a client

    src/session_client_ssh.c: the options for connecting with SSH and the ones for
    Call Home, each with the callbacks of the application, the key pairs, the
    preferences of authentication methods and the username.  Every function of the
    API exists for both; here they have the argument [ch]. *)

From S2P Require Import Prelude Session Env Capabilities SshOpts.
From Stdlib Require Import ZArith Ascii String Lia.
From stdpp Require Import base list strings gmap numbers.
Open Scope Z_scope.

(** A callback with its private data: [None] is the function of the library, numbers
    are functions and data of the application (0 for [NULL] data). *)
Record auth_clb := AuthClb { clb_fn : option Z; clb_priv : Z }.

(** A copied path is [None] when there was no memory for it. *)
Record keypair := Keypair { pubkey_path : option bytes; privkey_path : option bytes; privkey_crypt : bool }.

(** The values of the three slots of [auth_pref], the array of key pairs ([None] for
    [NULL]), the callbacks and the username. *)
Record nc_client_ssh_opts := NcClientSshOpts {
  pref_interactive : Z;
  pref_password : Z;
  pref_publickey : Z;
  so_keys : option (list keypair);
  so_key_count : Z;
  so_hostkey_check : auth_clb;
  so_auth_password : auth_clb;
  so_auth_interactive : auth_clb;
  so_privkey_passphrase : auth_clb;
  so_username : option bytes;
}.

(** The initial options of a context. *)
Definition init_ssh_opts : nc_client_ssh_opts :=
  NcClientSshOpts 1 2 3 None 0 (AuthClb None 0) (AuthClb None 0) (AuthClb None 0) (AuthClb None 0) None.

Record client_ssh := ClientSsh { ssh_opts : nc_client_ssh_opts; ssh_ch_opts : nc_client_ssh_opts }.

Definition set_keys (l : option (list keypair)) (n : Z) (o : nc_client_ssh_opts) : nc_client_ssh_opts :=
  NcClientSshOpts (pref_interactive o) (pref_password o) (pref_publickey o) l n (so_hostkey_check o) (so_auth_password o)
    (so_auth_interactive o) (so_privkey_passphrase o) (so_username o).
Definition set_prefs (i p k : Z) (o : nc_client_ssh_opts) : nc_client_ssh_opts :=
  NcClientSshOpts i p k (so_keys o) (so_key_count o) (so_hostkey_check o) (so_auth_password o)
    (so_auth_interactive o) (so_privkey_passphrase o) (so_username o).
Definition set_clbs (h p i k : auth_clb) (o : nc_client_ssh_opts) : nc_client_ssh_opts :=
  NcClientSshOpts (pref_interactive o) (pref_password o) (pref_publickey o) (so_keys o) (so_key_count o) h p i k (so_username o).
Definition set_so_username (u : option bytes) (o : nc_client_ssh_opts) : nc_client_ssh_opts :=
  NcClientSshOpts (pref_interactive o) (pref_password o) (pref_publickey o) (so_keys o) (so_key_count o) (so_hostkey_check o)
    (so_auth_password o) (so_auth_interactive o) (so_privkey_passphrase o) u.

(** Reading the file of a private key: [fopen], and [fgets] of the next line. *)
Class KeyFileEnv (W : Type) := {
  key_fopen : bytes → W → bool * W;
  key_fgets : W → option bytes * W;
}.

(** Setting or reading a callback.  A getter reports the function of the library as
    [NULL]. *)
Inductive clb_op := ClbSet (f : option Z) (priv : Z) | ClbGet.

Definition run_clb (op : clb_op) (c : auth_clb) : auth_clb :=
  match op with
  | ClbSet (Some f) priv => AuthClb (Some f) priv
  | ClbSet None _ => AuthClb None 0
  | ClbGet => c
  end.

(** [tolower] in the C locale. *)
Definition tolower (c : ascii) : ascii :=
  let n := N_of_ascii c in if ((65 <=? n) && (n <=? 90))%N then ascii_of_N (n + 32) else c.

(** [strcasestr(hay, needle) != NULL] for a needle in lower case. *)
Fixpoint has_nocase (hay needle : bytes) : bool :=
  strncmp_eq (map tolower hay) needle (length needle) ||
  match hay with [] => false | _ :: hay => has_nocase hay needle end.

Section opts.
Context {W : Type} `{!Env W} `{!KeyFileEnv W}.

Abbreviation OM := (M (nc_client_ssh_opts * W)).
Abbreviation CM := (M (client_ssh * W)).

Definition opts : OM nc_client_ssh_opts := gets fst.
Definition upd_opts (f : nc_client_ssh_opts → nc_client_ssh_opts) : OM unit := modify (λ s, (f s.1, s.2)).

(** [&ssh_opts] or [&ssh_ch_opts]. *)
Definition on_opts {A} (ch : bool) (m : OM A) : CM A := λ s,
  match m (if ch then ssh_ch_opts s.1 else ssh_opts s.1, s.2) with
  | Done (a, (o, w)) => Done (a, (if ch then ClientSsh (ssh_opts s.1) o else ClientSsh o (ssh_ch_opts s.1), w))
  | NoFuel => NoFuel
  | Crash => Crash
  end.

(** [opts->keys[i]] *)
Definition key_at (i : Z) : OM keypair :=
  o ← opts;
  _ ← guarded (0 <=? i);
  match so_keys o with
  | None => crash
  | Some l => match l !! Z.to_nat i with None => crash | Some k => mret k end
  end.

Definition put_key (i : Z) (k : keypair) : OM unit :=
  upd_opts (λ o, set_keys ((λ l, <[Z.to_nat i := k]> l) <$> so_keys o) (so_key_count o) o).

(** ** Callbacks *)

Definition nc_client_ssh_auth_hostkey_check_clb (ch : bool) (op : clb_op) : CM auth_clb :=
  on_opts ch (
    _ ← upd_opts (λ o, set_clbs (run_clb op (so_hostkey_check o)) (so_auth_password o) (so_auth_interactive o)
                         (so_privkey_passphrase o) o);
    o ← opts; mret (so_hostkey_check o)).

Definition nc_client_ssh_auth_password_clb (ch : bool) (op : clb_op) : CM auth_clb :=
  on_opts ch (
    _ ← upd_opts (λ o, set_clbs (so_hostkey_check o) (run_clb op (so_auth_password o)) (so_auth_interactive o)
                         (so_privkey_passphrase o) o);
    o ← opts; mret (so_auth_password o)).

Definition nc_client_ssh_auth_interactive_clb (ch : bool) (op : clb_op) : CM auth_clb :=
  on_opts ch (
    _ ← upd_opts (λ o, set_clbs (so_hostkey_check o) (so_auth_password o) (run_clb op (so_auth_interactive o))
                         (so_privkey_passphrase o) o);
    o ← opts; mret (so_auth_interactive o)).

Definition nc_client_ssh_auth_privkey_passphrase_clb (ch : bool) (op : clb_op) : CM auth_clb :=
  on_opts ch (
    _ ← upd_opts (λ o, set_clbs (so_hostkey_check o) (so_auth_password o) (so_auth_interactive o)
                         (run_clb op (so_privkey_passphrase o)) o);
    o ← opts; mret (so_privkey_passphrase o)).

(** ** Key pairs *)

(** [strcmp(s, t) == 0] where [s] may be [NULL]. *)
Definition path_is (s : option bytes) (t : bytes) : OM bool :=
  match s with None => crash | Some s => mret (strcmp_eq s t) end.

(** Is the pair there already? *)
Fixpoint has_keypair (n : nat) (i : Z) (pub_key priv_key : bytes) : OM bool :=
  match n with
  | O => mret false
  | S n =>
    k ← key_at i;
    same_pub ← path_is (pubkey_path k) pub_key;
    same_priv ← (if same_pub then mret true else path_is (privkey_path k) priv_key);
    if negb (same_pub || same_priv) then has_keypair n (i + 1) pub_key priv_key
    else if negb same_pub then has_keypair n (i + 1) pub_key priv_key
    else
      same_priv ← path_is (privkey_path k) priv_key;
      if negb same_priv then has_keypair n (i + 1) pub_key priv_key else mret true
  end.

(** The second line of the private key says whether it is encrypted; a file that
    cannot be opened is left for later. *)
Definition check_encryption (i : Z) (priv_key : bytes) : OM Z :=
  ok ← on_env (call (key_fopen priv_key));
  if negb ok then mret 0
  else
    line ← on_env (call key_fgets);
    match line with
    | None => mret (-1)
    | Some _ =>
      line ← on_env (call key_fgets);
      match line with
      | None => mret (-1)
      | Some line =>
        if has_nocase line (str "encrypted") then
          k ← key_at i;
          _ ← put_key i (Keypair (pubkey_path k) (privkey_path k) true);
          mret 0
        else mret 0
      end
    end.

Definition nc_client_ssh_add_keypair (ch : bool) (pub_key priv_key : option bytes) : CM Z :=
  on_opts ch (
    match pub_key, priv_key with
    | None, _ => mret (-1)
    | _, None => mret (-1)
    | Some pub_key, Some priv_key =>
      o ← opts;
      dup ← has_keypair (Z.to_nat (so_key_count o)) 0 pub_key priv_key;
      if dup : bool then mret (-1)
      else
        let key_count := u16 (so_key_count o + 1) in
        ok ← on_env (call (malloc_ok (key_count * 24)));
        if negb ok then _ ← upd_opts (set_keys None key_count); mret (-1)
        else
          _ ← guarded (0 <? key_count);
          pub ← on_env (strdup pub_key);
          priv ← on_env (strdup priv_key);
          _ ← upd_opts (set_keys (Some (ztake (key_count - 1) (default [] (so_keys o)) ++ [Keypair pub priv false])) key_count);
          match pub, priv with
          | Some _, Some _ => check_encryption (key_count - 1) priv_key
          | _, _ => mret (-1)
          end
    end).

Definition nc_client_ssh_del_keypair (ch : bool) (idx : Z) : CM Z :=
  on_opts ch (
    o ← opts;
    if so_key_count o <=? idx then mret (-1)
    else
      _ ← key_at idx;
      let key_count := so_key_count o - 1 in
      _ ← (if idx <? key_count then k ← key_at key_count; put_key idx k else mret tt);
      if negb (key_count =? 0) then
        ok ← on_env (call (malloc_ok (key_count * 24)));
        if negb ok then _ ← upd_opts (set_keys None key_count); mret (-1)
        else _ ← upd_opts (λ o, set_keys (ztake key_count <$> so_keys o) key_count o); mret 0
      else _ ← upd_opts (set_keys None key_count); mret 0).

Definition nc_client_ssh_get_keypair_count (ch : bool) : CM Z :=
  on_opts ch (o ← opts; mret (so_key_count o)).

(** [want] says which of the two output parameters are given. *)
Definition nc_client_ssh_get_keypair (ch : bool) (idx : Z) (want_pub want_priv : bool)
    : CM (Z * option (option bytes * option bytes)) :=
  on_opts ch (
    o ← opts;
    if so_key_count o <=? idx then mret (-1, None)
    else if negb want_pub && negb want_priv then mret (-1, None)
    else k ← key_at idx; mret (0, Some (pubkey_path k, privkey_path k))).

(** ** Preferences and the username *)

Definition nc_client_ssh_set_auth_pref (ch : bool) (auth_type pref : Z) : CM unit :=
  on_opts ch (
    let pref := if pref <? 0 then -1 else pref in
    upd_opts (λ o,
      if auth_type =? NC_SSH_AUTH_INTERACTIVE then set_prefs pref (pref_password o) (pref_publickey o) o
      else if auth_type =? NC_SSH_AUTH_PASSWORD then set_prefs (pref_interactive o) pref (pref_publickey o) o
      else if auth_type =? NC_SSH_AUTH_PUBLICKEY then set_prefs (pref_interactive o) (pref_password o) pref o
      else o)).

(** The preference for a method, 0 for something else. *)
Definition pref_of (o : nc_client_ssh_opts) (auth_type : Z) : Z :=
  if auth_type =? NC_SSH_AUTH_INTERACTIVE then pref_interactive o
  else if auth_type =? NC_SSH_AUTH_PASSWORD then pref_password o
  else if auth_type =? NC_SSH_AUTH_PUBLICKEY then pref_publickey o else 0.

Definition nc_client_ssh_get_auth_pref (ch : bool) (auth_type : Z) : CM Z :=
  on_opts ch (o ← opts; mret (pref_of o auth_type)).

Definition nc_client_ssh_set_username (ch : bool) (username : option bytes) : CM Z :=
  on_opts ch (
    match username with
    | None => _ ← upd_opts (set_so_username None); mret 0
    | Some u =>
      u ← on_env (strdup u);
      _ ← upd_opts (set_so_username u);
      mret (match u with Some _ => 0 | None => -1 end)
    end).

Definition nc_client_ssh_get_username (ch : bool) : CM (option bytes) :=
  on_opts ch (o ← opts; mret (so_username o)).

(** Freeing key pairs up to the count. *)
Fixpoint free_keys (n : nat) (i : Z) : OM unit :=
  match n with
  | O => mret tt
  | S n => _ ← key_at i; free_keys n (i + 1)
  end.

(** The count is kept. *)
Definition _nc_client_ssh_destroy_opts : OM unit :=
  o ← opts;
  _ ← free_keys (Z.to_nat (so_key_count o)) 0;
  upd_opts (λ o, set_so_username None (set_keys None (so_key_count o) o)).

Definition nc_client_ssh_destroy_opts : CM unit :=
  _ ← on_opts false _nc_client_ssh_destroy_opts;
  on_opts true _nc_client_ssh_destroy_opts.
End opts.
