(* ===== verification/SshCliOptsProofs.v ===== *)
(** * SSH options of a client: the invariant of their representation

    Every sequence of calls of the API keeps the options well-formed: the count is the
    length of the array, the array is [NULL] exactly when it is empty, paths are set, no
    pair is there twice, preferences are -1 or a number of 15 bits. *)

From S2P Require Import Prelude Session Env PtrArray Capabilities SshOpts Sim SshCliOpts.
From Stdlib Require Import ZArith Ascii String Lia.
From stdpp Require Import base list strings gmap numbers.
Open Scope Z_scope.

(** The paths of a pair. *)
Definition paths (k : keypair) : option bytes * option bytes := (pubkey_path k, privkey_path k).

Definition pair_ok (k : keypair) : Prop := is_Some (pubkey_path k) ∧ is_Some (privkey_path k).

(** The array of key pairs is the list [l]. *)
Definition keys_are (o : nc_client_ssh_opts) (l : list keypair) : Prop :=
  so_keys o = match l with [] => None | _ => Some l end ∧ so_key_count o = zlen l.

Definition pref_ok (p : Z) : Prop := -1 ≤ p < 2 ^ 15.

Definition prefs_ok (o : nc_client_ssh_opts) : Prop :=
  pref_ok (pref_interactive o) ∧ pref_ok (pref_password o) ∧ pref_ok (pref_publickey o).

Definition keys_ok (l : list keypair) : Prop := Forall pair_ok l ∧ NoDup (map paths l).

(** Well-formed options with at most [n] key pairs. *)
Definition opts_ok (n : Z) (o : nc_client_ssh_opts) : Prop :=
  prefs_ok o ∧ ∃ l, keys_are o l ∧ keys_ok l ∧ zlen l ≤ n.

(** ** Lists of key pairs *)

Lemma keys_ok_swap i l k : keys_ok l → l !! i = Some k → keys_ok (swap_remove i l).
Proof.
  intros [Hk Hn] Hi. pose proof (swap_remove_keyed_perm i l k Hi) as Hp. split.
  - rewrite Hp in Hk. by inversion Hk.
  - rewrite Hp in Hn. cbn in Hn. by apply list.NoDup_cons in Hn as [_ ?].
Qed.

(** Allocations of moderate size succeed. *)
Class Memory (W : Type) `{!Env W} := mem_ok n (w : W) : 0 < n ≤ 2 ^ 32 → (malloc_ok n w).1 = true.

#[export] Instance sim_memory m0 up : Memory (sim m0 up).
Proof. intros n w Hn. cbn. destruct (Z.eqb_spec n 0); [lia|]. cbn. lia. Qed.

Definition pick_opts (ch : bool) (c : client_ssh) : nc_client_ssh_opts := if ch then ssh_ch_opts c else ssh_opts c.
Definition put_opts (ch : bool) (o : nc_client_ssh_opts) (c : client_ssh) : client_ssh :=
  if ch then ClientSsh (ssh_opts c) o else ClientSsh o (ssh_ch_opts c).

(** A string that can be copied. *)
Definition short (s : bytes) : Prop := zlen s < 2 ^ 32.

Section keys.
Context {W : Type} `{!Env W} `{!KeyFileEnv W} `{!Memory W}.

Lemma wpx_on_opts {A} F ch (m : M (nc_client_ssh_opts * W) A) (Q : A → client_ssh * W → Prop) c w :
  wpx F m (λ a s, Q a (put_opts ch s.1 c, s.2)) (pick_opts ch c, w) → wpx F (on_opts ch m) Q (c, w).
Proof. unfold wpx, on_opts. cbn. by destruct ch; cbn; destruct (m _) as [[a [o w']]| |]. Qed.

Lemma wpx_key_at F i o w l k (Q : keypair → nc_client_ssh_opts * W → Prop) :
  keys_are o l → l !! Z.to_nat i = Some k → 0 ≤ i → Q k (o, w) → wpx F (key_at i) Q (o, w).
Proof.
  intros [Hl _] Hi H0 HQ. apply wpx_bind, wpx_gets, wpx_bind, wpx_guarded; [lia|]. cbn [fst]. rewrite Hl.
  destruct l; [done|]. by rewrite Hi.
Qed.

Lemma wpx_copy F t (Q : option bytes → nc_client_ssh_opts * W → Prop) o w :
  short t → (∀ w', Q (Some t) (o, w')) → wpx F (on_env (strdup t)) Q (o, w).
Proof.
  intros Ht HQ. apply wpx_on_env. apply wpx_bind, wpx_call, wpx_ret. rewrite mem_ok; [apply HQ|].
  unfold short in Ht. pose proof (zlen_nonneg t). lia.
Qed.

(** The search finds exactly the pair itself. *)
Lemma has_keypair_ok F pub priv o pre suf w (Q : bool → nc_client_ssh_opts * W → Prop) :
  keys_are o (pre ++ suf) → Forall pair_ok suf →
  Q (bool_decide ((Some pub, Some priv) ∈ map paths suf)) (o, w) →
  wpx F (has_keypair (length suf) (zlen pre) pub priv) Q (o, w).
Proof.
  revert pre. induction suf as [|k suf IH]; intros pre Hk Hs HQ; [done|].
  cbn [has_keypair length]. apply wpx_bind. eapply (wpx_key_at _ _ _ _ _ k); [exact Hk| |apply zlen_nonneg|].
  { unfold zlen. by rewrite Nat2Z.id, lookup_app_r, Nat.sub_diag. }
  apply list.Forall_cons in Hs as [[[p Hp] [q Hq]] Hs].
  assert (IH' : paths k ≠ (Some pub, Some priv) → wpx F (has_keypair (length suf) (zlen pre + 1) pub priv) Q (o, w)).
  { intros Hne. replace (zlen pre + 1) with (zlen (pre ++ [k])) by (rewrite zlen_app; done). apply IH; [by rewrite <- app_assoc|done|].
    cbn [map] in HQ. erewrite bool_decide_ext; [exact HQ|]. rewrite elem_of_cons. split; [by right|by intros [E|]]. }
  unfold paths in IH'. rewrite Hp, Hq in *. unfold path_is, strcmp_eq. apply wpx_bind, wpx_ret.
  destruct (bool_decide_reflect (p = pub)) as [->|Hne]; cbn [orb negb].
  - apply wpx_bind, wpx_ret. cbn [orb negb]. apply wpx_bind, wpx_ret.
    destruct (bool_decide_reflect (q = priv)) as [->|Hne']; cbn [negb]; [|apply IH'; congruence].
    rewrite bool_decide_true in HQ; [exact HQ|]. cbn [map]. unfold paths. rewrite Hp, Hq. left.
  - apply wpx_bind, wpx_ret. destruct (bool_decide (q = priv)); cbn [orb negb]; apply IH'; congruence.
Qed.

(** The pair at the end of the array, encrypted or not. *)
Definition with_pair (pub priv : bytes) (c : bool) (l : list keypair) (o : nc_client_ssh_opts) : nc_client_ssh_opts :=
  set_keys (Some (l ++ [Keypair (Some pub) (Some priv) c])) (zlen l + 1) o.

Lemma with_pair_keys pub priv c l o : keys_are (with_pair pub priv c l o) (l ++ [Keypair (Some pub) (Some priv) c]).
Proof. split; cbn; [by destruct l|]. by rewrite zlen_app. Qed.

Lemma check_encryption_ok F pub priv l o w :
  wpx F (check_encryption (zlen l) priv)
    (λ r s, (r = 0 ∨ r = -1) ∧ ∃ c, s.1 = with_pair pub priv c l o) (with_pair pub priv false l o, w).
Proof.
  apply wpx_bind, wpx_on_env, wpx_call. destruct (key_fopen priv w).1; cbn [negb]; [|apply wpx_ret; eauto].
  apply wpx_bind, wpx_on_env, wpx_call. destruct (key_fgets _).1; [|apply wpx_ret; eauto].
  apply wpx_bind, wpx_on_env, wpx_call. destruct (key_fgets _).1; [|apply wpx_ret; eauto].
  destruct (has_nocase _ _); [|apply wpx_ret; eauto]. apply wpx_bind.
  eapply wpx_key_at; [apply with_pair_keys| |apply zlen_nonneg|].
  { unfold zlen. by rewrite Nat2Z.id, lookup_app_r, Nat.sub_diag. }
  apply wpx_bind, wpx_modify, wpx_ret. split; [by left|]. exists true. unfold with_pair, set_keys. cbn. f_equal. f_equal.
  unfold zlen. rewrite Nat2Z.id, insert_app_r_alt, Nat.sub_diag by lia. done.
Qed.

(** Adding a pair appends it, unless it is there. *)
Lemma add_keypair_ok F ch pub priv c l w :
  keys_are (pick_opts ch c) l → Forall pair_ok l → zlen l + 1 < 2 ^ 16 → short pub → short priv →
  wpx F (nc_client_ssh_add_keypair ch (Some pub) (Some priv))
    (λ r s, if bool_decide ((Some pub, Some priv) ∈ map paths l) then r = -1 ∧ s.1 = put_opts ch (pick_opts ch c) c
            else (r = 0 ∨ r = -1) ∧ ∃ b, s.1 = put_opts ch (with_pair pub priv b l (pick_opts ch c)) c) (c, w).
Proof.
  intros Hk Hf Hn Hp Hq. apply wpx_on_opts, wpx_bind, wpx_gets, wpx_bind. cbn [fst].
  pose proof Hk as [Hl Hc]. rewrite Hc. unfold zlen at 1. rewrite Nat2Z.id.
  apply (has_keypair_ok F pub priv _ [] l); [done|done|]. destruct (bool_decide _); [by apply wpx_ret|].
  pose proof (zlen_nonneg l). rewrite u16_small by lia.
  apply wpx_bind, wpx_on_env, wpx_call. rewrite mem_ok by lia. cbn [negb].
  apply wpx_bind, wpx_guarded; [lia|]. apply wpx_bind, wpx_copy; [done|]. intros w1. apply wpx_bind, wpx_copy; [done|]. intros w2.
  apply wpx_bind, wpx_modify. cbn [fst snd]. replace (zlen l + 1 - 1) with (zlen l) by lia.
  assert (ztake (zlen l) (default [] (so_keys (pick_opts ch c))) = l) as ->.
  { rewrite Hl. destruct l as [|k l]; cbn [default]; [done|]. by apply ztake_all. }
  eapply wpx_mono; [apply (check_encryption_ok F pub priv l)|]. intros r s [Hr [b E]]. split; [done|]. exists b. by rewrite E.
Qed.

Lemma set_keys_prefs l n o : prefs_ok o → prefs_ok (set_keys l n o).
Proof. done. Qed.

(** Deleting a pair moves the last one to its place. *)
Lemma del_keypair_ok F ch idx c l w :
  keys_are (pick_opts ch c) l → zlen l < 2 ^ 16 → 0 ≤ idx →
  wpx F (nc_client_ssh_del_keypair ch idx)
    (λ r s, if idx <? zlen l then r = 0 ∧ ∃ o, s.1 = put_opts ch o c ∧ keys_are o (swap_remove (Z.to_nat idx) l) ∧
              ∃ k n, o = set_keys k n (pick_opts ch c)
            else r = -1 ∧ s.1 = put_opts ch (pick_opts ch c) c) (c, w).
Proof.
  intros Hk Hn H0. apply wpx_on_opts, wpx_bind, wpx_gets. cbn [fst]. pose proof Hk as [Hl Hc]. rewrite Hc.
  destruct (Z.leb_spec (zlen l) idx) as [Hi|Hi]; [rewrite (proj2 (Z.ltb_ge idx (zlen l))) by done; by apply wpx_ret|].
  rewrite (proj2 (Z.ltb_lt idx (zlen l))) by done.
  assert (is_Some (l !! Z.to_nat idx)) as [k Ek] by (apply lookup_lt_is_Some; unfold zlen in Hi; lia).
  apply wpx_bind. eapply wpx_key_at; [exact Hk|exact Ek|done|]. apply wpx_bind.
  assert (is_Some (list.last l)) as [y Ey] by (apply last_is_Some; by intros ->).
  assert (El : l !! Z.to_nat (zlen l - 1) = Some y).
  { rewrite <- Ey, last_lookup. f_equal. unfold zlen. lia. }
  set (l1 := if idx <? zlen l - 1 then <[Z.to_nat idx := y]> l else l).
  assert (Hl1 : ztake (zlen l - 1) l1 = swap_remove (Z.to_nat idx) l).
  { unfold swap_remove, ztake, l1, zlen in *. replace (length l - 1)%nat with (Z.to_nat (Z.of_nat (length l) - 1)) by lia. rewrite El.
    destruct (Z.ltb_spec idx (Z.of_nat (length l) - 1)); [done|]. symmetry. apply take_insert_ge. lia. }
  assert (Hne : l1 ≠ []) by (unfold l1; destruct (idx <? _), l; try done; by destruct (Z.to_nat idx)).
  assert (G : wpx F (if idx <? zlen l - 1 then k ← key_at (zlen l - 1); put_key idx k else mret tt)
    (λ _ s, s.1 = set_keys (Some l1) (zlen l) (pick_opts ch c)) (pick_opts ch c, w)).
  { unfold l1. destruct (Z.ltb_spec idx (zlen l - 1)).
    - apply wpx_bind. eapply wpx_key_at; [exact Hk|exact El|lia|]. apply wpx_modify. cbn [fst]. unfold set_keys. rewrite Hl, Hc.
      by destruct l.
    - apply wpx_ret. cbn [fst]. unfold set_keys. destruct l; [done|]. rewrite <- Hl, <- Hc. by destruct (pick_opts ch c). }
  eapply wpx_mono; [exact G|]. intros [] [o w1] E. cbn [fst] in E. subst o. cbn beta.
  assert (Hz : zlen (swap_remove (Z.to_nat idx) l) = zlen l - 1).
  { apply length_swap_remove in Ek. unfold zlen in *. lia. }
  destruct (Z.eqb_spec (zlen l - 1) 0) as [E|E]; cbn [negb].
  - apply wpx_bind, wpx_modify, wpx_ret. split; [done|]. eexists. split; [reflexivity|]. split; [|by eexists _, _].
    rewrite E in *. apply zlen_nil_inv in Hz. by rewrite Hz.
  - apply wpx_bind, wpx_on_env, wpx_call. rewrite mem_ok by lia. cbn [negb]. apply wpx_bind, wpx_modify, wpx_ret.
    split; [done|]. eexists. split; [reflexivity|]. split; [|by eexists _, _]. unfold keys_are. cbn. rewrite Hl1, Hz. split; [|done].
    destruct (swap_remove _ l); [|done]. change (zlen (@nil keypair)) with 0 in Hz. lia.
Qed.
End keys.

(** ** Sequences of calls *)

Inductive ssh_cmd :=
| CmdHostkeyClb (op : clb_op)
| CmdPasswordClb (op : clb_op)
| CmdInteractiveClb (op : clb_op)
| CmdPassphraseClb (op : clb_op)
| CmdAddKeypair (pub_key priv_key : option bytes)
| CmdDelKeypair (idx : Z)
| CmdKeypairCount
| CmdGetKeypair (idx : Z) (want_pub want_priv : bool)
| CmdSetPref (auth_type pref : Z)
| CmdGetPref (auth_type : Z)
| CmdSetUsername (username : option bytes)
| CmdGetUsername.

Section commands.
Context {W : Type} `{!Env W} `{!KeyFileEnv W}.

Definition run_cmd (ch : bool) (cmd : ssh_cmd) : M (client_ssh * W) unit :=
  match cmd with
  | CmdHostkeyClb op => _ ← nc_client_ssh_auth_hostkey_check_clb ch op; mret tt
  | CmdPasswordClb op => _ ← nc_client_ssh_auth_password_clb ch op; mret tt
  | CmdInteractiveClb op => _ ← nc_client_ssh_auth_interactive_clb ch op; mret tt
  | CmdPassphraseClb op => _ ← nc_client_ssh_auth_privkey_passphrase_clb ch op; mret tt
  | CmdAddKeypair pub_key priv_key => _ ← nc_client_ssh_add_keypair ch pub_key priv_key; mret tt
  | CmdDelKeypair idx => _ ← nc_client_ssh_del_keypair ch idx; mret tt
  | CmdKeypairCount => _ ← nc_client_ssh_get_keypair_count ch; mret tt
  | CmdGetKeypair idx want_pub want_priv => _ ← nc_client_ssh_get_keypair ch idx want_pub want_priv; mret tt
  | CmdSetPref auth_type pref => nc_client_ssh_set_auth_pref ch auth_type pref
  | CmdGetPref auth_type => _ ← nc_client_ssh_get_auth_pref ch auth_type; mret tt
  | CmdSetUsername username => _ ← nc_client_ssh_set_username ch username; mret tt
  | CmdGetUsername => _ ← nc_client_ssh_get_username ch; mret tt
  end.

Fixpoint run_cmds (cmds : list (bool * ssh_cmd)) : M (client_ssh * W) unit :=
  match cmds with
  | [] => mret tt
  | (ch, cmd) :: cmds => _ ← run_cmd ch cmd; run_cmds cmds
  end.
End commands.

(** Arguments of their C types: an index is not negative, a preference has 16 bits. *)
Definition cmd_ok (cmd : ssh_cmd) : Prop :=
  match cmd with
  | CmdAddKeypair (Some pub) (Some priv) => short pub ∧ short priv
  | CmdDelKeypair idx | CmdGetKeypair idx _ _ => 0 ≤ idx
  | CmdSetPref _ pref => - 2 ^ 15 ≤ pref < 2 ^ 15
  | CmdSetUsername (Some u) => short u
  | _ => True
  end.

Definition client_ok (n : Z) (c : client_ssh) : Prop := opts_ok n (ssh_opts c) ∧ opts_ok n (ssh_ch_opts c).

Section typing.
Context {W : Type} `{!Env W} `{!KeyFileEnv W} `{!Memory W}.

Lemma opts_ok_mono n n' o : n ≤ n' → opts_ok n o → opts_ok n' o.
Proof. intros Hn (Hp & l & Hk & Hl & Hz). split; [done|]. exists l. split_and!; [done..|lia]. Qed.

Lemma client_ok_pick n ch c : client_ok n c → opts_ok n (pick_opts ch c).
Proof. intros [? ?]. by destruct ch. Qed.

Lemma client_ok_put n n' ch o c : n ≤ n' → client_ok n c → opts_ok n' o → client_ok n' (put_opts ch o c).
Proof. intros Hn [H1 H2] Ho. destruct ch; split; cbn; try done; by eapply opts_ok_mono. Qed.

(** Changes that leave the keys and preferences as they are. *)
Lemma clb_ok n h p i k o : opts_ok n o → opts_ok n (set_clbs h p i k o).
Proof. done. Qed.

Lemma username_ok n u o : opts_ok n o → opts_ok n (set_so_username u o).
Proof. done. Qed.

Lemma pref_typed n t p o : - 2 ^ 15 ≤ p < 2 ^ 15 → opts_ok n o →
  opts_ok n (let p := if p <? 0 then -1 else p in
    if t =? NC_SSH_AUTH_INTERACTIVE then set_prefs p (pref_password o) (pref_publickey o) o
    else if t =? NC_SSH_AUTH_PASSWORD then set_prefs (pref_interactive o) p (pref_publickey o) o
    else if t =? NC_SSH_AUTH_PUBLICKEY then set_prefs (pref_interactive o) (pref_password o) p o
    else o).
Proof.
  intros Hp ((H1 & H2 & H3) & Hl). assert (pref_ok (if p <? 0 then -1 else p)) as Hq.
  { unfold pref_ok. destruct (Z.ltb_spec p 0); lia. }
  cbv zeta. destruct (t =? NC_SSH_AUTH_INTERACTIVE); [by split|]. destruct (t =? NC_SSH_AUTH_PASSWORD); [by split|].
  destruct (t =? NC_SSH_AUTH_PUBLICKEY); by split.
Qed.

Lemma add_typed F n ch pub priv c (w : W) :
  client_ok n c → n + 1 < 2 ^ 16 → short pub → short priv →
  wpx F (nc_client_ssh_add_keypair ch (Some pub) (Some priv)) (λ _ s, client_ok (n + 1) s.1) (c, w).
Proof.
  intros Hc Hn Hp Hq. destruct (client_ok_pick n ch c Hc) as (Hpr & l & Hk & [Hf Hd] & Hz).
  eapply wpx_mono; [apply (add_keypair_ok F ch pub priv c l w); [done|done|lia|done|done]|]. intros r [c' w']. cbn [fst].
  assert (H1 : n ≤ n + 1) by lia.
  destruct (bool_decide_reflect ((Some pub, Some priv) ∈ map paths l)) as [Hi|Hi].
  - intros [_ ->]. eapply client_ok_put; [exact H1|done|]. split; [done|]. exists l. split_and!; [done..|lia].
  - intros [_ [b ->]]. eapply client_ok_put; [exact H1|done|]. split; [done|].
    eexists. split; [apply with_pair_keys|]. rewrite zlen_app. cbn [zlen length]. split; [split|].
    + apply Forall_app. split; [done|]. repeat constructor; by eexists.
    + rewrite map_app. apply list.NoDup_app. split; [done|]. split; [|apply list.NoDup_singleton].
      intros x Hx [->|[]%not_elem_of_nil]%elem_of_cons. by apply Hi.
    + unfold zlen at 2. cbn. lia.
Qed.

Lemma del_typed F n ch idx c (w : W) :
  client_ok n c → n < 2 ^ 16 → 0 ≤ idx → wpx F (nc_client_ssh_del_keypair ch idx) (λ _ s, client_ok n s.1) (c, w).
Proof.
  intros Hc Hn H0. destruct (client_ok_pick n ch c Hc) as (Hpr & l & Hk & Hl & Hz).
  eapply wpx_mono; [apply (del_keypair_ok F ch idx c l w); [done|lia|done]|]. intros r [c' w']. cbn [fst].
  destruct (Z.ltb_spec idx (zlen l)) as [Hi|Hi].
  - intros [_ (o & -> & Ho & k & m & ->)]. eapply (client_ok_put n n); [lia|done|]. split; [done|]. eexists. split; [exact Ho|].
    assert (is_Some (l !! Z.to_nat idx)) as [x Ex] by (apply lookup_lt_is_Some; unfold zlen in Hi; lia).
    split; [by eapply keys_ok_swap|]. apply length_swap_remove in Ex. unfold zlen in *. lia.
  - intros [_ ->]. eapply (client_ok_put n n); [lia|done|]. split; [done|]. exists l. split_and!; [done..|lia].
Qed.

(** A call that changes one of the options and answers. *)
Lemma typed_on_opts {A} F n ch (m : M (nc_client_ssh_opts * W) A) c w :
  client_ok n c → (∀ o, opts_ok n o → wpx F m (λ _ s, opts_ok n s.1) (o, w)) →
  wpx F (on_opts ch m) (λ _ s, client_ok n s.1) (c, w).
Proof.
  intros Hc Hm. apply wpx_on_opts. eapply wpx_mono; [by apply Hm, client_ok_pick|]. intros a s Hs. cbn [fst].
  by apply (client_ok_put n n).
Qed.

Lemma cmd_typed F n ch cmd c (w : W) :
  client_ok n c → n + 1 < 2 ^ 16 → cmd_ok cmd → wpx F (run_cmd ch cmd) (λ _ s, client_ok (n + 1) s.1) (c, w).
Proof.
  intros Hc Hn Hok.
  assert (Hw : ∀ A (m : M (client_ssh * W) A), wpx F m (λ _ s, client_ok n s.1) (c, w) →
    wpx F m (λ _ s, client_ok (n + 1) s.1) (c, w)).
  { intros A m H. eapply wpx_mono; [exact H|]. intros a [c1 w1] [H1 H2]. split; eapply opts_ok_mono; [|exact H1| |exact H2]; lia. }
  destruct cmd as [op|op|op|op|[pub|] [priv|]|idx| |idx a b|t p|t|[u|]|]; cbn [run_cmd cmd_ok] in *.
  all: try (apply wpx_bind; eapply wpx_mono; [by apply (add_typed F n); [..|apply Hok|apply Hok]|]; intros; by apply wpx_ret).
  all: apply Hw; try (apply wpx_bind).
  all: try (eapply wpx_mono; [apply typed_on_opts; [exact Hc|]; intros o Ho; by apply wpx_ret || (apply wpx_bind, wpx_modify; done)
                             |intros; by apply wpx_ret]; fail).
  - eapply wpx_mono; [apply del_typed; [exact Hc|lia|done]|]. intros. by apply wpx_ret.
  - eapply wpx_mono; [apply typed_on_opts; [exact Hc|]|intros; by apply wpx_ret]. intros o Ho. apply wpx_bind, wpx_gets. cbn [fst].
    destruct Ho as (Hp & l & Hk & Hl & Hz). pose proof Hk as [_ E]. rewrite E.
    destruct (Z.leb_spec (zlen l) idx); [apply wpx_ret; by split; [|exists l]|].
    destruct (negb a && negb b); [apply wpx_ret; by split; [|exists l]|].
    assert (is_Some (l !! Z.to_nat idx)) as [x Ex] by (apply lookup_lt_is_Some; unfold zlen in *; lia).
    apply wpx_bind. eapply wpx_key_at; [exact Hk|exact Ex|done|]. apply wpx_ret. by split; [|exists l].
  - apply typed_on_opts; [exact Hc|]. intros o Ho. cbv zeta. apply wpx_modify. by apply pref_typed.
  - eapply wpx_mono; [apply typed_on_opts; [exact Hc|]|intros; by apply wpx_ret]. intros o Ho.
    apply wpx_bind, wpx_copy; [done|]. intros w1. by apply wpx_bind, wpx_modify, wpx_ret.
Qed.

Lemma cmds_typed F n cmds c (w : W) :
  client_ok n c → n + zlen cmds < 2 ^ 16 → Forall (λ x, cmd_ok x.2) cmds →
  wpx F (run_cmds cmds) (λ _ s, client_ok (n + zlen cmds) s.1) (c, w).
Proof.
  revert n c w. induction cmds as [|[ch cmd] cmds IH]; intros n c w Hc Hn Hf.
  { apply wpx_ret. by replace (n + zlen []) with n by (unfold zlen; cbn; lia). }
  apply list.Forall_cons in Hf as [Hcmd Hf]. rewrite zlen_cons in *. pose proof (zlen_nonneg cmds).
  apply wpx_bind. eapply wpx_mono; [apply (cmd_typed F n); [done|lia|done]|]. intros [] [c1 w1] H1.
  replace (n + (1 + zlen cmds)) with (n + 1 + zlen cmds) by lia. apply IH; [done|lia|done].
Qed.
End typing.

(** C20: The options of a client keep their type.  Whatever calls of the API an
    application makes on the options for SSH and for SSH Call Home, with indices that are not negative and
    as long as there is memory, all of them return, and afterwards the key count is the
    length of the array of key pairs, the array is [NULL] exactly when it is empty, every path is
    set, no pair is stored twice, and every preference is -1 or a number of 15 bits. *)
Theorem client_ssh_opts_typed {W} `{!Env W} `{!KeyFileEnv W} `{!Memory W} cmds n c (w : W) :
  client_ok n c → n + zlen cmds < 2 ^ 16 → Forall (λ x, cmd_ok x.2) cmds →
  ∃ c' w', run_cmds cmds (c, w) = Done (tt, (c', w')) ∧ client_ok (n + zlen cmds) c'.
Proof.
  intros Hc Hn Hf. destruct (proj1 (wp_total _ _ _) (cmds_typed False n cmds c w Hc Hn Hf)) as ([] & [c' w'] & E & H). eauto.
Qed.

(** Private keys that cannot be opened. *)
#[export] Instance sim_keyfile m0 up : KeyFileEnv (sim m0 up) := {
  key_fopen p w := (false, w);
  key_fgets w := (None, w);
}.

Definition demo_client : client_ssh := ClientSsh init_ssh_opts init_ssh_opts.

Lemma init_ok n : 0 ≤ n → opts_ok n init_ssh_opts.
Proof. intros Hn. split; [by repeat split|]. exists []. split; [done|]. split; [|done]. by split; constructor. Qed.

Definition demo_cmds : list (bool * ssh_cmd) :=
  [(false, CmdAddKeypair (Some (str "a.pub")) (Some (str "a"))); (false, CmdAddKeypair (Some (str "b.pub")) (Some (str "b")));
   (false, CmdDelKeypair 0); (true, CmdSetPref 2 (-7)); (false, CmdSetUsername (Some (str "bob")))].

Lemma client_ssh_opts_typed_witness : ∃ c' w',
  run_cmds demo_cmds (demo_client, Sim (m0 := true) (up := true) [] [] 0) = Done (tt, (c', w')) ∧
  client_ok (0 + zlen demo_cmds) c'.
Proof.
  apply (client_ssh_opts_typed (W := sim true true) demo_cmds 0 demo_client (Sim [] [] 0)).
  - split; by apply init_ok.
  - done.
  - repeat (apply list.Forall_cons; split; [try (by split; vm_compute); by vm_compute|]). by apply list.Forall_nil.
Defined.

(** A pair of which the private key has a single line is refused, but stays: adding
    it again reports that it is there. *)
Theorem failed_keypair_stays {W} `{!Env W} `{!KeyFileEnv W} `{!Memory W} ch pub priv c l (w : W) r c' w' :
  keys_are (pick_opts ch c) l → Forall pair_ok l → zlen l + 1 < 2 ^ 16 → short pub → short priv →
  (Some pub, Some priv) ∉ map paths l →
  nc_client_ssh_add_keypair ch (Some pub) (Some priv) (c, w) = Done (r, (c', w')) →
  ∃ b, keys_are (pick_opts ch c') (l ++ [Keypair (Some pub) (Some priv) b]).
Proof.
  intros Hk Hf Hn Hp Hq Hi E. pose proof (add_keypair_ok False ch pub priv c l w Hk Hf Hn Hp Hq) as H.
  apply (wpx_Done _ _ _ _ _ _ H) in E. rewrite bool_decide_false in E by done. destruct E as [_ [b E]]. cbn [fst] in E. subst c'.
  exists b. destruct ch; apply with_pair_keys.
Qed.

(** After the options were destroyed the count is left, and the next search for a
    pair reads an array that is not there. *)
Theorem destroyed_opts_crash :
  match (_ ← run_cmds [(false, CmdAddKeypair (Some (str "a.pub")) (Some (str "a")))]; nc_client_ssh_destroy_opts)
    (demo_client, Sim (m0 := true) (up := true) [] [] 0) with
  | Done (_, s) => nc_client_ssh_add_keypair false (Some (str "b.pub")) (Some (str "b")) s = Crash
  | _ => False
  end.
Proof. vm_compute. reflexivity. Qed.
