(* ===== verification/SshPrompt.v ===== *)
(** * Questions to the user of an SSH client

    src/session_client_ssh.c: the callbacks of the library that ask on the terminal for
    a password, the answer to a prompt of the server or the passphrase of a key, and
    that have the user confirm an unknown host key.  The terminal, the resolver and the
    host key functions of libssh are parameters. *)

From S2P Require Import Prelude Session Env Capabilities.
From Stdlib Require Import ZArith Ascii String Lia.
From stdpp Require Import base list strings gmap numbers.
Open Scope Z_scope.

(** The settings of a terminal; [c_rest] are the others. *)
Record termios := Termios { c_echo : bool; c_icanon : bool; c_rest : Z }.

(** [fopen] of a terminal for reading and for writing, [fclose], [tcgetattr],
    [tcsetattr] (true for success), [ttyname_r], [fprintf] and [fputs] (false for an
    error), [fgetc] ([None] for the end), and [fscanf("%4s")] with the word read. *)
Class TtyEnv (W : Type) := {
  tty_open_read : bytes → W → option Z * W;
  tty_open_write : bytes → W → option Z * W;
  tty_close : Z → W → W;
  tty_getattr : Z → W → option termios * W;
  tty_setattr : Z → termios → W → bool * W;
  tty_name : Z → W → option bytes * W;
  tty_print : Z → bytes → W → bool * W;
  tty_getc : Z → W → option ascii * W;
  tty_word : Z → W → option bytes * W;
}.

Definition STDIN_FILENO : Z := 0.
Definition STDOUT_FILENO : Z := 1.
Definition DEV_TTY : bytes := str "/dev/tty".
Definition nl : ascii := ascii_of_nat 10.

Section terminal.
Context {W : Type} `{!Env W} `{!TtyEnv W}.

Definition open_tty_noecho (path : bytes) : M W (option (Z * termios)) :=
  f ← call (tty_open_read path);
  match f with
  | None => mret None
  | Some f =>
    oldterm ← call (tty_getattr f);
    match oldterm with
    | None => _ ← modify (tty_close f); mret None
    | Some oldterm =>
      ok ← call (tty_setattr f (Termios false false (c_rest oldterm)));
      if ok : bool then mret (Some (f, oldterm)) else _ ← modify (tty_close f); mret None
    end
  end.

(** The input with the settings to restore, if they were changed. *)
Definition open_in (echo : bool) (path : bytes) : M W (option (Z * option termios)) :=
  if negb echo then
    f ← open_tty_noecho path;
    mret ((λ '(f, t), (f, Some t)) <$> f)
  else f ← call (tty_open_read path); mret ((λ f, (f, None)) <$> f).

Definition nc_open_in (echo : bool) : M W (option (Z * option termios)) :=
  f ← open_in echo DEV_TTY;
  match f with
  | Some f => mret (Some f)
  | None =>
    name ← call (tty_name STDIN_FILENO);
    match name with
    | None => mret None
    | Some name => open_in echo name
    end
  end.

Definition nc_open_out : M W (option Z) :=
  f ← call (tty_open_write DEV_TTY);
  match f with
  | Some f => mret (Some f)
  | None =>
    name ← call (tty_name STDOUT_FILENO);
    match name with
    | None => mret None
    | Some name => call (tty_open_write name)
    end
  end.

Definition nc_close_inout (f : Z) (oldterm : option termios) : M W unit :=
  _ ← match oldterm with Some t => _ ← call (tty_setattr f t); mret tt | None => mret tt end;
  modify (tty_close f).

(** ** Reading an answer *)

(** How the size of the buffer grows: an [int] must not overflow, an [unsigned int]
    wraps around. *)
Inductive buf_type := BufInt | BufUnsigned.

Definition double (t : buf_type) (buflen : Z) : M W Z :=
  match t with
  | BufInt => _ ← guarded (buflen * 2 <? 2 ^ 31); mret (buflen * 2)
  | BufUnsigned => mret (u32 (buflen * 2))
  end.

(** The characters up to the end of the line; a character is stored at the index
    [zlen buf] of a buffer of [buflen] bytes.  [None] when the buffer cannot grow. *)
Fixpoint read_answer (fuel : nat) (t : buf_type) (f : Z) (buf : bytes) (buflen : Z) : M W (option (bytes * Z)) :=
  match fuel with
  | O => no_fuel
  | S fuel =>
    c ← call (tty_getc f);
    match c with
    | None => mret (Some (buf, buflen))
    | Some c =>
      if bool_decide (c = nl) then mret (Some (buf, buflen))
      else
        grown ← (if buflen - 1 <=? zlen buf then
                   buflen ← double t buflen;
                   ok ← call (malloc_ok buflen);
                   mret (if ok : bool then Some buflen else None)
                 else mret (Some buflen));
        match grown with
        | None => mret None
        | Some buflen =>
          _ ← guarded (zlen buf <? buflen);
          read_answer fuel t f (buf ++ [c]) buflen
        end
    end
  end.

Fixpoint print_all (f : Z) (texts : list bytes) : M W bool :=
  match texts with
  | [] => mret true
  | x :: texts => ok ← call (tty_print f x); if ok : bool then print_all f texts else mret false
  end.

(** What the three questions have in common: the texts are printed and a line is
    read, terminated in the buffer. *)
Definition ask (fuel : nat) (t : buf_type) (buflen : Z) (echo : bool) (texts : list bytes) : M W (option bytes) :=
  ok ← call (malloc_ok buflen);
  if negb ok then mret None
  else
    input ← nc_open_in echo;
    match input with
    | None => mret None
    | Some (input, oldterm) =>
      output ← nc_open_out;
      match output with
      | None => _ ← nc_close_inout input oldterm; mret None
      | Some output =>
        ok ← print_all output texts;
        answer ← (if negb ok then mret None
                  else
                    r ← read_answer fuel t input [] buflen;
                    match r with
                    | None => mret None
                    | Some (buf, buflen) =>
                      _ ← guarded (zlen buf <? buflen);
                      _ ← call (tty_print output [nl]);
                      mret (Some buf)
                    end);
        _ ← nc_close_inout input oldterm;
        _ ← nc_close_inout output None;
        mret answer
      end
    end.

Definition sshauth_password (fuel : nat) (username hostname : bytes) : M W (option bytes) :=
  ask fuel BufInt 1024 false [username ++ str "@" ++ hostname ++ str " password: "].

Definition sshauth_interactive (fuel : nat) (auth_name instruction : option bytes) (prompt : bytes) (echo : bool)
    : M W (option bytes) :=
  ask fuel BufUnsigned 64 echo
    (match auth_name with Some a => [a ++ [nl]] | None => [] end ++
     match instruction with Some i => [i ++ [nl]] | None => [] end ++ [prompt]).

Definition sshauth_privkey_passphrase (fuel : nat) (privkey_path : bytes) : M W (option bytes) :=
  ask fuel BufInt 1024 false [str "Enter passphrase for the key '" ++ privkey_path ++ str "': "].
End terminal.

(** ** Host keys *)

Inductive ssh_keytype := SSH_KEYTYPE_UNKNOWN | SSH_KEYTYPE_DSS | SSH_KEYTYPE_RSA | SSH_KEYTYPE_RSA1 | SSH_KEYTYPE_ECDSA
  | SSH_KEYTYPE_ED25519 | SSH_KEYTYPE_OTHER.

Inductive known_hosts := SSH_KNOWN_HOSTS_ERROR | SSH_KNOWN_HOSTS_NOT_FOUND | SSH_KNOWN_HOSTS_UNKNOWN | SSH_KNOWN_HOSTS_OK
  | SSH_KNOWN_HOSTS_CHANGED | SSH_KNOWN_HOSTS_OTHER.

#[export] Instance known_hosts_eq_dec : EqDecision known_hosts.
Proof. solve_decision. Defined.

(** A trusted answer of the resolver: whether it can be parsed, the return code, the
    flag AD, the question, and the records with their type and the buffer from their
    data on. *)
Record dns_answer := DnsAnswer {
  dns_parses : bool;
  dns_rcode : Z;
  dns_ad : bool;
  dns_question : option (bytes * Z * Z);
  dns_records : list (Z * bytes);
}.

(** [val_res_query] for SSHFP records ([None] when it fails or is not trusted); the
    state of the host in the file of known hosts, the type of the key of the server
    and its SHA1 hash ([None] on an error), and [ssh_session_update_known_hosts]. *)
Class HostKeyEnv (W : Type) := {
  dns_sshfp : bytes → W → option dns_answer * W;
  ssh_session_is_known_server : W → known_hosts * W;
  ssh_server_key_type : W → option ssh_keytype * W;
  ssh_server_key_sha1 : W → option bytes * W;
  ssh_session_update_known_hosts : W → bool * W;
  ssh_key_type_to_char : ssh_keytype → bytes;
  ssh_get_hexa : bytes → bytes;
}.

Section hostkey.
Context {W : Type} `{!Env W} `{!TtyEnv W} `{!HostKeyEnv W}.

(** The bytes of a record against the hash: both have to be there. *)
Definition same_hash (rdata sha1hash : bytes) : M W bool :=
  _ ← guarded ((22 <=? zlen rdata) && (20 <=? zlen sha1hash));
  mret (strncmp_eq (drop 2 rdata) sha1hash 20).

(** The first record for the type of the key and of the hash decides. *)
Fixpoint find_sshfp (l : list (Z * bytes)) (sha1hash : bytes) (type alg : ascii) (ret : Z) : M W Z :=
  match l with
  | [] => mret 2
  | (rtype, rdata) :: l =>
    if negb (rtype =? 44) then find_sshfp l sha1hash type alg ret
    else
      match rdata with
      | t :: a :: _ =>
        if negb (bool_decide (t = type)) then find_sshfp l sha1hash type alg ret
        else if negb (bool_decide (a = alg)) then find_sshfp l sha1hash type alg ret
        else ok ← same_hash rdata sha1hash; mret (if ok : bool then ret else 2)
      | _ => crash
      end
  end.

Definition sshauth_hostkey_hash_dnssec_check (hostname sha1hash : bytes) (type alg : nat) : M W Z :=
  r ← call (dns_sshfp hostname);
  match r with
  | None => mret 2
  | Some r =>
    if negb (dns_parses r) then mret 2
    else if negb (dns_rcode r =? 0) then mret 2
    else
      let ret := if dns_ad r then 0 else 1 in
      match dns_question r with
      | None => mret 2
      | Some (name, qtype, qclass) =>
        if negb (strcmp_eq hostname name) || negb (qtype =? 44) || negb (qclass =? 1) then mret 2
        else find_sshfp (dns_records r) sha1hash (ascii_of_nat type) (ascii_of_nat alg) ret
      end
  end.

(** The rest of the line. *)
Fixpoint skip_line (fuel : nat) (f : Z) : M W unit :=
  match fuel with
  | O => no_fuel
  | S fuel =>
    c ← call (tty_getc f);
    match c with
    | None => mret tt
    | Some c => if bool_decide (c = nl) then mret tt else skip_line fuel f
    end
  end.

(** The question is repeated until the answer is "yes" or "no"; true for "yes". *)
Fixpoint confirm (fuel : nat) (input output : Z) : M W bool :=
  match fuel with
  | O => no_fuel
  | S fuel =>
    answer ← call (tty_word input);
    match answer with
    | None => mret false
    | Some answer =>
      _ ← skip_line fuel input;
      if strcmp_eq (str "yes") answer then _ ← call ssh_session_update_known_hosts; mret true
      else if strcmp_eq (str "no") answer then mret false
      else
        ok ← call (tty_print output (str "Please type 'yes' or 'no': "));
        if negb ok then mret false else confirm fuel input output
    end
  end.

(** The user is asked; [notes] is what was found with DNS. *)
Definition ask_hostkey (fuel : nat) (hostname hexa : bytes) (type : ssh_keytype) (notes : list bytes) : M W Z :=
  input ← nc_open_in true;
  match input with
  | None => mret (-1)
  | Some (input, oldterm) =>
    output ← nc_open_out;
    match output with
    | None => _ ← nc_close_inout input None; mret (-1)
    | Some output =>
      ok ← print_all output
        ([str "The authenticity of the host '" ++ hostname ++ str "' cannot be established." ++ [nl];
          ssh_key_type_to_char type ++ str " key fingerprint is " ++ hexa ++ str "." ++ [nl]] ++ notes ++
         [str "Are you sure you want to continue connecting (yes/no)? "]);
      yes ← (if ok : bool then confirm fuel input output else mret false);
      _ ← nc_close_inout input None;
      _ ← nc_close_inout output None;
      mret (if yes : bool then 0 else -1)
    end
  end.

(** [dnssec] is the macro ENABLE_DNSSEC.  The variable [ret] still has the value 0 of
    the hash function when DNS is not asked. *)
Definition sshauth_hostkey_check (dnssec : bool) (fuel : nat) (hostname : bytes) : M W Z :=
  state ← call ssh_session_is_known_server;
  type ← call ssh_server_key_type;
  match type with
  | None => mret (-1)
  | Some type =>
    hash ← call ssh_server_key_sha1;
    match hash with
    | None => mret (-1)
    | Some hash =>
      match state with
      | SSH_KNOWN_HOSTS_OK => mret 0
      | SSH_KNOWN_HOSTS_CHANGED | SSH_KNOWN_HOSTS_ERROR => mret (-1)
      | SSH_KNOWN_HOSTS_OTHER | SSH_KNOWN_HOSTS_NOT_FOUND | SSH_KNOWN_HOSTS_UNKNOWN =>
        if negb dnssec then ask_hostkey fuel hostname (ssh_get_hexa hash) type []
        else
          ret ← match type with
                | SSH_KEYTYPE_DSS => sshauth_hostkey_hash_dnssec_check hostname hash 2 1
                | SSH_KEYTYPE_RSA => sshauth_hostkey_hash_dnssec_check hostname hash 1 1
                | SSH_KEYTYPE_ECDSA => sshauth_hostkey_hash_dnssec_check hostname hash 3 1
                | _ => mret 0
                end;
          let asked := match type with SSH_KEYTYPE_UNKNOWN | SSH_KEYTYPE_RSA1 => false | _ => true end in
          if asked && (ret =? 0) then _ ← call ssh_session_update_known_hosts; mret 0
          else
            ask_hostkey fuel hostname (ssh_get_hexa hash) type
              (if ret =? 2 then [str "No matching host key fingerprint found using DNS." ++ [nl]]
               else if ret =? 1 then [str "Matching host key fingerprint found using DNS." ++ [nl]] else [])
      end
    end
  end.
End hostkey.
