(* ===== verification/SshClient.v ===== *)
(** * SSH authentication of a client

    src/session_client_ssh.c: [connect_ssh_session] connects to a server, checks its
    host key and authenticates with the methods of the options, [open_netconf_channel] opens
    a channel with the subsystem "netconf".  libssh and the callbacks of the application
    are parameters. *)

From S2P Require Import Prelude Session Env Time Locks IoRead Capabilities SshOpts SshAuth SshCliOpts SshPrompt.
From Stdlib Require Import ZArith Ascii String Lia.
From stdpp Require Import base list strings gmap numbers.
Open Scope Z_scope.

Inductive ssh_rc := SSH_OK | SSH_AGAIN | SSH_EOF | SSH_ERROR.
Inductive auth_rc := SSH_AUTH_SUCCESS | SSH_AUTH_DENIED | SSH_AUTH_PARTIAL | SSH_AUTH_INFO | SSH_AUTH_AGAIN | SSH_AUTH_ERROR.

#[export] Instance ssh_rc_eq_dec : EqDecision ssh_rc.
Proof. solve_decision. Defined.
#[export] Instance auth_rc_eq_dec : EqDecision auth_rc.
Proof. solve_decision. Defined.

(** Functions of libssh on the session of the client, and the callbacks of the
    application by their number and private data. *)
Class SshCliEnv (W : Type) := {
  cli_connect : W → ssh_rc * W;
  cli_auth_none : W → auth_rc * W;
  cli_auth_list : W → Z * W;
  cli_auth_password : option bytes → bytes → W → auth_rc * W;
  cli_auth_kbdint : W → auth_rc * W;
  cli_kbd_nprompts : W → Z * W;
  cli_kbd_prompt : Z → W → option (bytes * bool) * W;
  cli_kbd_name : W → option bytes * W;
  cli_kbd_instruction : W → option bytes * W;
  cli_kbd_setanswer : Z → option bytes → W → bool * W;
  cli_import_pubkey : option bytes → W → ssh_rc * W;
  cli_try_publickey : option bytes → W → auth_rc * W;
  cli_import_privkey : option bytes → option bytes → W → ssh_rc * W;
  cli_auth_publickey : option bytes → W → auth_rc * W;
  cli_channel_new : W → bool * W;
  cli_channel_open : W → ssh_rc * W;
  cli_request_subsystem : bytes → W → ssh_rc * W;
  usr_hostkey_check : Z → Z → option bytes → W → Z * W;
  usr_password : Z → Z → option bytes → option bytes → W → option bytes * W;
  usr_interactive : Z → Z → option bytes → option bytes → bytes → bool → W → option bytes * W;
  usr_passphrase : Z → Z → option bytes → W → option bytes * W;
}.

Definition NC_TRANSPORT_TIMEOUT : Z := 10000.

(** Flags of [ssh_userauth_list]. *)
Definition LIBSSH_PASSWORD : Z := 0x2.
Definition LIBSSH_PUBLICKEY : Z := 0x4.
Definition LIBSSH_INTERACTIVE : Z := 0x10.

(** How [printf] shows a string that is [NULL]. *)
Definition printed (s : option bytes) : bytes := default (str "(null)") s.

Definition has_method (userauthlist m : Z) : bool := negb (Z.land userauthlist m =? 0).
Definition drop_method (userauthlist m : Z) : Z := Z.land userauthlist (Z.lnot m).

Section auth.
Context {W : Type} `{!Env W} `{!TtyEnv W} `{!HostKeyEnv W} `{!SshCliEnv W}.
(** ENABLE_DNSSEC *)
Context (dnssec : bool).

(** ** Callbacks *)

Definition auth_hostkey_check (fuel : nat) (o : nc_client_ssh_opts) (host : option bytes) : M W Z :=
  match clb_fn (so_hostkey_check o) with
  | None => sshauth_hostkey_check dnssec fuel (printed host)
  | Some f => call (usr_hostkey_check f (clb_priv (so_hostkey_check o)) host)
  end.

Definition auth_password (fuel : nat) (o : nc_client_ssh_opts) (username host : option bytes) : M W (option bytes) :=
  match clb_fn (so_auth_password o) with
  | None => sshauth_password fuel (printed username) (printed host)
  | Some f => call (usr_password f (clb_priv (so_auth_password o)) username host)
  end.

Definition auth_interactive (fuel : nat) (o : nc_client_ssh_opts) (name instruction : option bytes) (prompt : bytes) (echo : bool)
    : M W (option bytes) :=
  match clb_fn (so_auth_interactive o) with
  | None => sshauth_interactive fuel name instruction prompt echo
  | Some f => call (usr_interactive f (clb_priv (so_auth_interactive o)) name instruction prompt echo)
  end.

Definition auth_privkey_passphrase (fuel : nat) (o : nc_client_ssh_opts) (path : option bytes) : M W (option bytes) :=
  match clb_fn (so_privkey_passphrase o) with
  | None => sshauth_privkey_passphrase fuel (printed path)
  | Some f => call (usr_passphrase f (clb_priv (so_privkey_passphrase o)) path)
  end.

(** ** Waiting for libssh *)

(** The end of waiting; a negative timeout waits for ever. *)
Definition deadline (timeout : Z) : M W (option timespec) :=
  if -1 <? timeout then ts ← nc_gettimespec_mono_add timeout; mret (Some ts) else mret None.

Definition expired (ts : option timespec) : M W bool :=
  match ts with
  | None => mret false
  | Some ts => d ← nc_difftimespec_mono_cur ts; mret (d <? 1)
  end.

(** [while ((ret = op()) == AGAIN) { usleep; if (expired) break; }] *)
Fixpoint again {A} (fuel : nat) (ts : option timespec) (op : W → A * W) (is_again : A → bool) : M W A :=
  match fuel with
  | O => no_fuel
  | S fuel =>
    r ← call op;
    if is_again r then
      _ ← modify (usleep NC_TIMEOUT_STEP);
      e ← expired ts;
      if e : bool then mret r else again fuel ts op is_again
    else mret r
  end.

Definition rc_again (r : ssh_rc) : bool := bool_decide (r = SSH_AGAIN).
Definition auth_again (r : auth_rc) : bool := bool_decide (r = SSH_AUTH_AGAIN).

(** ** Methods *)

(** [None]: the callback has no password. *)
Definition try_password (fuel : nat) (s : nc_session) (o : nc_client_ssh_opts) (timeout : Z) : M W (option auth_rc) :=
  p ← auth_password fuel o (username s) (host s);
  match p with
  | None => mret None
  | Some p =>
    ts ← deadline timeout;
    r ← again fuel ts (cli_auth_password (username s) p) auth_again;
    mret (Some r)
  end.

(** The answers to the prompts from [j] on; false is [SSH_AUTH_ERROR]. *)
Fixpoint answer_prompts (fuel : nat) (o : nc_client_ssh_opts) (j : Z) : M W bool :=
  match fuel with
  | O => no_fuel
  | S fuel =>
    n ← call cli_kbd_nprompts;
    if n <=? j then mret true
    else
      p ← call (cli_kbd_prompt j);
      match p with
      | None => mret false
      | Some (prompt, echo) =>
        name ← call cli_kbd_name;
        instruction ← call cli_kbd_instruction;
        answer ← auth_interactive fuel o name instruction prompt echo;
        ok ← call (cli_kbd_setanswer j answer);
        if ok : bool then answer_prompts fuel o (j + 1) else mret false
      end
  end.

Fixpoint try_kbdint (fuel : nat) (o : nc_client_ssh_opts) (timeout : Z) (ts : option timespec) : M W auth_rc :=
  match fuel with
  | O => no_fuel
  | S fuel =>
    r ← call cli_auth_kbdint;
    match r with
    | SSH_AUTH_AGAIN =>
      _ ← modify (usleep NC_TIMEOUT_STEP);
      e ← expired ts;
      if e : bool then mret r else try_kbdint fuel o timeout ts
    | SSH_AUTH_INFO =>
      ok ← answer_prompts fuel o 0;
      if negb ok then mret SSH_AUTH_ERROR
      else ts ← deadline timeout; try_kbdint fuel o timeout ts
    | _ => mret r
    end
  end.

(** The key pairs from [l] on; [ret_auth] is the result so far, kept by the pairs that
    cannot be imported. *)
Fixpoint try_keys (fuel : nat) (o : nc_client_ssh_opts) (timeout : Z) (l : list keypair) (ret_auth : auth_rc) : M W auth_rc :=
  match l with
  | [] => mret ret_auth
  | k :: l =>
    r ← call (cli_import_pubkey (pubkey_path k));
    match r with
    | SSH_EOF | SSH_ERROR => try_keys fuel o timeout l ret_auth
    | _ =>
      ts ← deadline timeout;
      ret_auth ← again fuel ts (cli_try_publickey (pubkey_path k)) auth_again;
      match ret_auth with
      | SSH_AUTH_DENIED => try_keys fuel o timeout l ret_auth
      | SSH_AUTH_SUCCESS =>
        s ← (if privkey_crypt k then auth_privkey_passphrase fuel o (privkey_path k) else mret None);
        r ← call (cli_import_privkey (privkey_path k) s);
        match r with
        | SSH_EOF | SSH_ERROR => try_keys fuel o timeout l ret_auth
        | _ =>
          ts ← deadline timeout;
          ret_auth ← again fuel ts (cli_auth_publickey (privkey_path k)) auth_again;
          match ret_auth with
          | SSH_AUTH_DENIED => try_keys fuel o timeout l ret_auth
          | _ => mret ret_auth
          end
        end
      | _ => mret ret_auth
      end
    end
  end.

(** The first [key_count] entries of the array. *)
Definition try_publickey (fuel : nat) (o : nc_client_ssh_opts) (timeout : Z) (ret_auth : auth_rc) : M W auth_rc :=
  if so_key_count o =? 0 then mret ret_auth
  else
    match so_keys o with
    | None => crash
    | Some l => _ ← guarded (so_key_count o <=? zlen l); try_keys fuel o timeout (ztake (so_key_count o) l) ret_auth
    end.

(** The method to try next, 0 for none. *)
Definition next_method (o : nc_client_ssh_opts) (userauthlist : Z) : Z :=
  let '(auth, pref) := if has_method userauthlist LIBSSH_INTERACTIVE then (NC_SSH_AUTH_INTERACTIVE, pref_interactive o) else (0, 0) in
  let '(auth, pref) := if has_method userauthlist LIBSSH_PASSWORD && (pref <? pref_password o)
                       then (NC_SSH_AUTH_PASSWORD, pref_password o) else (auth, pref) in
  if has_method userauthlist LIBSSH_PUBLICKEY && (pref <? pref_publickey o) then NC_SSH_AUTH_PUBLICKEY else auth.

(** Methods that are disabled are not tried. *)
Definition enabled_methods (o : nc_client_ssh_opts) (userauthlist : Z) : Z :=
  let l := if pref_interactive o <? 0 then drop_method userauthlist LIBSSH_INTERACTIVE else userauthlist in
  let l := if pref_password o <? 0 then drop_method l LIBSSH_PASSWORD else l in
  if pref_publickey o <? 0 then drop_method l LIBSSH_PUBLICKEY else l.

(** One method after the other; [ret_auth] is the result of the last one. *)
Fixpoint try_methods (fuel : nat) (s : nc_session) (o : nc_client_ssh_opts) (timeout userauthlist : Z) (ret_auth : auth_rc) : M W Z :=
  match fuel with
  | O => no_fuel
  | S fuel =>
    let auth := next_method o userauthlist in
    if auth =? 0 then mret (-1)
    else
      '(userauthlist, r) ←
        (if auth =? NC_SSH_AUTH_PASSWORD then
           r ← try_password fuel s o timeout; mret (drop_method userauthlist LIBSSH_PASSWORD, r)
         else if auth =? NC_SSH_AUTH_INTERACTIVE then
           ts ← deadline timeout;
           r ← try_kbdint fuel o timeout ts; mret (drop_method userauthlist LIBSSH_INTERACTIVE, Some r)
         else r ← try_publickey fuel o timeout ret_auth; mret (drop_method userauthlist LIBSSH_PUBLICKEY, Some r));
      match r with
      | None => mret (-1)
      | Some SSH_AUTH_AGAIN => mret 0
      | Some SSH_AUTH_ERROR => mret (-1)
      | Some SSH_AUTH_INFO => mret (-1)
      | Some SSH_AUTH_SUCCESS => mret 1
      | Some ret_auth => try_methods fuel s o timeout userauthlist ret_auth
      end
  end.

(** ** The connection *)

(** Connecting and checking the host key: 1 to go on. *)
Definition connect_and_check (fuel : nat) (s : nc_session) (o : nc_client_ssh_opts) : M W Z :=
  ts ← nc_gettimespec_mono_add NC_TRANSPORT_TIMEOUT;
  r ← again fuel (Some ts) cli_connect rc_again;
  match r with
  | SSH_AGAIN => mret 0
  | SSH_OK => r ← auth_hostkey_check fuel o (host s); mret (if r =? 0 then 1 else -1)
  | _ => mret (-1)
  end.

Definition authenticate (fuel : nat) (s : nc_session) (o : nc_client_ssh_opts) (timeout : Z) : M W Z :=
  ts ← deadline timeout;
  r ← again fuel ts cli_auth_none auth_again;
  match r with
  | SSH_AUTH_AGAIN => mret 0
  | SSH_AUTH_ERROR => mret (-1)
  | SSH_AUTH_SUCCESS => mret 1
  | _ =>
    userauthlist ← call cli_auth_list;
    try_methods fuel s o timeout (enabled_methods o userauthlist) r
  end.

Definition connect_ssh_session (fuel : nat) (s : nc_session) (o : nc_client_ssh_opts) (timeout : Z) : M W Z :=
  r ← connect_and_check fuel s o;
  if negb (r =? 1) then mret r else authenticate fuel s o timeout.

(** ** The channel *)

Definition set_channel (c : bool) (s : nc_session) : nc_session :=
  match ti s with TiLibssh _ next => set_ti (TiLibssh c next) s | _ => s end.

(** An operation on the channel that failed frees it. *)
Definition channel_result (r : ssh_rc) : SM W (option Z) :=
  match r with
  | SSH_AGAIN => _ ← upd_ses (set_channel false); mret (Some 0)
  | SSH_ERROR => _ ← upd_ses (set_channel false); mret (Some (-1))
  | _ => mret None
  end.

Definition open_netconf_channel (fuel : nat) (timeout : Z) : SM W Z :=
  c ← env (call ssh_is_connected);
  if negb c then mret (-1)
  else
    s ← ses;
    if has_channel s then mret (-1)
    else
      ts ← env (deadline timeout);
      ok ← env (call cli_channel_new);
      _ ← upd_ses (set_channel ok);
      r ← env (again fuel ts cli_channel_open rc_again);
      e ← channel_result r;
      match e with
      | Some e => mret e
      | None =>
        ts ← env (deadline timeout);
        r ← env (again fuel ts (cli_request_subsystem (str "netconf")) rc_again);
        e ← channel_result r;
        mret (default 1 e)
      end.
End auth.

(** What a client shows to the server. *)
Inductive credential :=
| CredPassword (p : bytes)
| CredKbdint
| CredProbe (pubkey : option bytes)
| CredSignature (privkey : option bytes).

Definition cred_method (c : credential) : Z :=
  match c with
  | CredPassword _ => NC_SSH_AUTH_PASSWORD
  | CredKbdint => NC_SSH_AUTH_INTERACTIVE
  | CredProbe _ | CredSignature _ => NC_SSH_AUTH_PUBLICKEY
  end.
