(* ===== verification/SshPromptProofs.v ===== *)
(** * Questions to the user: terminals and host keys

    Prompts leave the terminal as it was, and host keys are accepted for a reason; a simulated terminal and SSH server
    serve as an example. *)

From S2P Require Import Prelude Session Env Sim Sockets SocketsProofs SshOpts SshCliOpts SshPrompt SshClient Capabilities SshAuthProofs.
From Stdlib Require Import ZArith Ascii String Lia.
From stdpp Require Import base list strings gmap numbers.
Open Scope Z_scope.

(** ** A simulated desk

    The simulated environment with a terminal on which a user types, and an SSH server
    with its host key, its methods, one password and some public keys. *)

(** What the server is and accepts: the state of its host key and the type of it, the flags of its methods, its
    password, the answer to its one prompt, the public keys it knows; the private key
    files that can be read. *)
Record ssh_server := SshServer {
  srv_known : known_hosts;
  srv_type : ssh_keytype;
  srv_methods : Z;
  srv_password : bytes;
  srv_pubkeys : list (option bytes);
  srv_privkeys : list (option bytes);
}.

(** The terminal: changed settings, open streams, text to be typed, words read; and what
    the server has seen: whether the client is authenticated, and its credentials. *)
Record desk := Desk {
  dk_sim : sim true true;
  dk_modes : gmap bytes termios;
  dk_fds : gmap Z bytes;
  dk_input : bytes;
  dk_said : list bytes;
  dk_server : ssh_server;
  dk_log : bool * list credential;
}.

Definition on_desk {A} (f : sim true true → A * sim true true) (w : desk) : A * desk :=
  let (a, s) := f (dk_sim w) in
  (a, Desk s (dk_modes w) (dk_fds w) (dk_input w) (dk_said w) (dk_server w) (dk_log w)).

#[export] Instance desk_env : Env desk := {
  clock_mono := on_desk clock_mono;
  clock_real := on_desk clock_real;
  usleep n w := (on_desk (λ s, (tt, usleep n s)) w).2;
  malloc_ok n := on_desk (malloc_ok n);
  sys_read fd n := on_desk (sys_read fd n);
  ssh_channel_read n := on_desk (ssh_channel_read n);
  ssh_channel_is_eof := on_desk ssh_channel_is_eof;
  ssh_channel_is_closed := on_desk ssh_channel_is_closed;
  ssl_read n := on_desk (ssl_read n);
  sys_poll fd t := on_desk (sys_poll fd t);
  ssh_channel_poll_timeout t := on_desk (ssh_channel_poll_timeout t);
  ssh_is_connected := on_desk ssh_is_connected;
  ssl_pending := on_desk ssl_pending;
  ssl_get_fd := on_desk ssl_get_fd;
  sys_write fd bs := on_desk (sys_write fd bs);
  ssh_channel_write bs := on_desk (ssh_channel_write bs);
  ssl_write bs := on_desk (ssl_write bs);
  ly_in_new_memory bs := on_desk (ly_in_new_memory bs);
  lyd_new_opaq2 bs := on_desk (lyd_new_opaq2 bs);
  mutex_lock l := on_desk (mutex_lock l);
  mutex_timedlock l ts := on_desk (mutex_timedlock l ts);
  mutex_trylock l := on_desk (mutex_trylock l);
  mutex_unlock l := on_desk (mutex_unlock l);
  cond_timedwait l ts := on_desk (cond_timedwait l ts);
  cond_wait l := on_desk (cond_wait l);
}.

(** A new stream of a terminal. *)
Definition desk_open (p : bytes) (w : desk) : option Z * desk :=
  let f := above (map fst (map_to_list (dk_fds w))) in
  (Some f, Desk (dk_sim w) (dk_modes w) (<[f := p]> (dk_fds w)) (dk_input w) (dk_said w) (dk_server w) (dk_log w)).

Definition cooked : termios := Termios true true 7.

(** Words end at white space and have at most four characters. *)
Definition desk_word (w : desk) : option bytes * desk :=
  match dk_input w with
  | [] => (None, w)
  | _ =>
    let a := take 4 (span (λ c, negb (isspace c)) (dk_input w)).1 in
    (Some a, Desk (dk_sim w) (dk_modes w) (dk_fds w) (drop (length a) (dk_input w)) (dk_said w ++ [a]) (dk_server w) (dk_log w))
  end.

#[export] Instance desk_tty : TtyEnv desk := {
  tty_open_read := desk_open;
  tty_open_write := desk_open;
  tty_close f w := Desk (dk_sim w) (dk_modes w) (delete f (dk_fds w)) (dk_input w) (dk_said w) (dk_server w) (dk_log w);
  tty_getattr f w := ((λ p, default cooked (dk_modes w !! p)) <$> dk_fds w !! f, w);
  tty_setattr f t w :=
    match dk_fds w !! f with
    | None => (false, w)
    | Some p => (true, Desk (dk_sim w) (<[p := t]> (dk_modes w)) (dk_fds w) (dk_input w) (dk_said w) (dk_server w) (dk_log w))
    end;
  tty_name f w := (Some (str "/dev/pts/0"), w);
  tty_print f s w := (true, w);
  tty_getc f w :=
    match dk_input w with
    | [] => (None, w)
    | c :: i => (Some c, Desk (dk_sim w) (dk_modes w) (dk_fds w) i (dk_said w) (dk_server w) (dk_log w))
    end;
  tty_word f := desk_word;
}.

#[export] Instance desk_hostkey : HostKeyEnv desk := {
  dns_sshfp h w := (None, w);
  ssh_session_is_known_server w := (srv_known (dk_server w), w);
  ssh_server_key_type w := (Some (srv_type (dk_server w)), w);
  ssh_server_key_sha1 w := (Some (repeat (ascii_of_nat 1) 20), w);
  ssh_session_update_known_hosts w := (true, w);
  ssh_key_type_to_char t := str "key";
  ssh_get_hexa h := str "01:01";
}.

(** The server sees a credential, which may authenticate the client. *)
Definition judge (c : credential) (ok : bool) (w : desk) : desk :=
  Desk (dk_sim w) (dk_modes w) (dk_fds w) (dk_input w) (dk_said w) (dk_server w) ((dk_log w).1 || ok, (dk_log w).2 ++ [c]).

Definition verdict (ok : bool) : auth_rc := if ok then SSH_AUTH_SUCCESS else SSH_AUTH_DENIED.

#[export] Instance desk_ssh : SshCliEnv desk := {
  cli_connect w := (SSH_OK, w);
  cli_auth_none w := (SSH_AUTH_DENIED, w);
  cli_auth_list w := (srv_methods (dk_server w), w);
  cli_auth_password u p w :=
    let ok := bool_decide (p = srv_password (dk_server w)) in (verdict ok, judge (CredPassword p) ok w);
  cli_auth_kbdint w := (SSH_AUTH_DENIED, judge CredKbdint false w);
  cli_kbd_nprompts w := (0, w);
  cli_kbd_prompt j w := (None, w);
  cli_kbd_name w := (None, w);
  cli_kbd_instruction w := (None, w);
  cli_kbd_setanswer j a w := (true, w);
  cli_import_pubkey p w := (SSH_OK, w);
  cli_try_publickey p w := (verdict (bool_decide (p ∈ srv_pubkeys (dk_server w))), judge (CredProbe p) false w);
  cli_import_privkey p s w := (if bool_decide (p ∈ srv_privkeys (dk_server w)) then SSH_OK else SSH_ERROR, w);
  cli_auth_publickey p w := (SSH_AUTH_SUCCESS, judge (CredSignature p) true w);
  cli_channel_new w := (true, w);
  cli_channel_open w := (SSH_OK, w);
  cli_request_subsystem n w := (SSH_OK, w);
  usr_hostkey_check f d h w := (0, w);
  usr_password f d u h w := (Some (str "guess"), w);
  usr_interactive f d n i p e w := (None, w);
  usr_passphrase f d p w := (None, w);
}.

(** A desk where [input] is typed. *)
Definition demo_desk (srv : ssh_server) (input : bytes) : desk := Desk (Sim [] [] 0) ∅ ∅ input [] srv (false, []).

Definition demo_server : ssh_server :=
  SshServer SSH_KNOWN_HOSTS_UNKNOWN SSH_KEYTYPE_ED25519 6 (str "secret") [Some (str "b.pub")] [].

(** ** Questions to the user: terminals and host keys

    A question restores the terminal, closes what it opened and returns the line that
    was typed; a host key that is not known is accepted only by the user. *)

(** The settings of terminals by name, the open streams with their terminals, and what
    the user is going to type. *)
Class TtyLaws (W : Type) `{!Env W} `{!TtyEnv W} := {
  tty_mode : W → bytes → termios;
  tty_fds : W → gmap Z bytes;
  tty_input : W → bytes;
  open_read_law p w :
    let (r, w') := tty_open_read p w in
    (∀ q, tty_mode w' q = tty_mode w q) ∧ tty_input w' = tty_input w ∧
    match r with None => tty_fds w' = tty_fds w | Some f => tty_fds w !! f = None ∧ tty_fds w' = <[f := p]> (tty_fds w) end;
  open_write_law p w :
    let (r, w') := tty_open_write p w in
    (∀ q, tty_mode w' q = tty_mode w q) ∧ tty_input w' = tty_input w ∧
    match r with None => tty_fds w' = tty_fds w | Some f => tty_fds w !! f = None ∧ tty_fds w' = <[f := p]> (tty_fds w) end;
  tty_close_law f w : (∀ q, tty_mode (tty_close f w) q = tty_mode w q) ∧ tty_input (tty_close f w) = tty_input w ∧
    tty_fds (tty_close f w) = delete f (tty_fds w);
  getattr_law f p w : tty_fds w !! f = Some p →
    let (r, w') := tty_getattr f w in
    (∀ q, tty_mode w' q = tty_mode w q) ∧ tty_input w' = tty_input w ∧ tty_fds w' = tty_fds w ∧
    match r with None => True | Some t => t = tty_mode w p end;
  setattr_law f t p w : tty_fds w !! f = Some p →
    let (ok, w') := tty_setattr f t w in
    (∀ q, tty_mode w' q = if ok && bool_decide (q = p) then t else tty_mode w q) ∧
    tty_input w' = tty_input w ∧ tty_fds w' = tty_fds w;
  tty_name_law f w : let w' := (tty_name f w).2 in
    (∀ q, tty_mode w' q = tty_mode w q) ∧ tty_input w' = tty_input w ∧ tty_fds w' = tty_fds w;
  print_law f s w : let w' := (tty_print f s w).2 in
    (∀ q, tty_mode w' q = tty_mode w q) ∧ tty_input w' = tty_input w ∧ tty_fds w' = tty_fds w;
  tty_malloc_law n w : let w' := (malloc_ok n w).2 in
    (∀ q, tty_mode w' q = tty_mode w q) ∧ tty_input w' = tty_input w ∧ tty_fds w' = tty_fds w;
  getc_law f w :
    let (c, w') := tty_getc f w in
    (∀ q, tty_mode w' q = tty_mode w q) ∧ tty_fds w' = tty_fds w ∧
    match c with Some c => tty_input w = c :: tty_input w' | None => tty_input w = [] ∧ tty_input w' = [] end;
}.

(** Settings of an open terminal can be restored. *)
Class TtyRestores (W : Type) `{TtyLaws W} :=
  setattr_ok f t p w : tty_fds w !! f = Some p → (tty_setattr f t w).1 = true.

Section restore.
Context {W : Type} `{!Env W} `{!TtyEnv W} `{TL : !TtyLaws W} `{!TtyRestores W}.

(** Nothing but the input has changed. *)
Definition same_tty (w w' : W) : Prop := (∀ q, tty_mode w' q = tty_mode w q) ∧ tty_fds w' = tty_fds w.

(** Nothing has changed. *)
Definition idle_tty (w w' : W) : Prop := same_tty w w' ∧ tty_input w' = tty_input w.

Lemma same_refl w : same_tty w w.
Proof. by split. Qed.

Lemma same_trans w1 w2 w3 : same_tty w1 w2 → same_tty w2 w3 → same_tty w1 w3.
Proof. intros [M1 F1] [M2 F2]. split; [intros q; by rewrite M2|congruence]. Qed.

Lemma idle_malloc n w : idle_tty w (malloc_ok n w).2.
Proof. destruct (tty_malloc_law n w) as (?&?&?). by split. Qed.

Lemma idle_print f s w : idle_tty w (tty_print f s w).2.
Proof. destruct (print_law f s w) as (?&?&?). by split. Qed.

Lemma idle_name f w : idle_tty w (tty_name f w).2.
Proof. destruct (tty_name_law f w) as (?&?&?). by split. Qed.

Lemma idle_trans w1 w2 w3 : idle_tty w1 w2 → idle_tty w2 w3 → idle_tty w1 w3.
Proof. intros [S1 I1] [S2 I2]. split; [by eapply same_trans|congruence]. Qed.

(** The line the user types and what is behind it. *)
Definition not_nl (c : ascii) : bool := negb (bool_decide (c = nl)).
Definition typed_line (s : bytes) : bytes := (span not_nl s).1.
Definition behind_line (s : bytes) : bytes := drop 1 (span not_nl s).2.

Lemma line_cons c s : c ≠ nl → typed_line (c :: s) = c :: typed_line s ∧ behind_line (c :: s) = behind_line s.
Proof.
  intros Hc. unfold typed_line, behind_line, not_nl. cbn. rewrite (bool_decide_false _ Hc). cbn. by destruct (span _ s).
Qed.

Lemma line_nl s : typed_line (nl :: s) = [] ∧ behind_line (nl :: s) = s.
Proof. done. Qed.

(** The buffer always has room, and holds the line at the end. *)
Lemma read_answer_ok fuel t f buf buflen w :
  (length (tty_input w) < fuel)%nat → 0 < buflen → zlen buf < buflen → zlen buf + zlen (tty_input w) < 2 ^ 29 → buflen < 2 ^ 30 →
  wp (read_answer fuel t f buf buflen) (λ r w', same_tty w w' ∧
    match r with
    | None => True
    | Some (buf', n) => zlen buf' < n ∧ buf' = buf ++ typed_line (tty_input w) ∧ tty_input w' = behind_line (tty_input w)
    end) w.
Proof.
  revert buf buflen w. induction fuel as [|fuel IH]; intros buf buflen w Hf H0 Hb Hlen Hmax; [lia|].
  cbn [read_answer]. apply wpx_bind, wpx_call. pose proof (getc_law f w) as HL.
  destruct (tty_getc f w) as [[c|] w1]; cbn [fst snd]; destruct HL as (HM & HF & HI).
  2: { apply wpx_ret. split; [by split|]. destruct HI as [-> ->]. unfold typed_line. cbn. by rewrite app_nil_r. }
  assert (Hs1 : same_tty w w1) by by split.
  destruct (bool_decide_reflect (c = nl)) as [->|Hc].
  { apply wpx_ret. split; [done|]. rewrite HI. destruct (line_nl (tty_input w1)) as [-> ->]. by rewrite app_nil_r. }
  destruct (line_cons c (tty_input w1) Hc) as [E1 E2]. rewrite HI in *. rewrite zlen_cons in Hlen. pose proof (zlen_nonneg (tty_input w1)).
  assert (IH' : ∀ n w2, idle_tty w1 w2 → zlen buf + 1 < n → n < 2 ^ 30 → wp (read_answer fuel t f (buf ++ [c]) n) (λ r w', same_tty w w' ∧
    match r with
    | None => True
    | Some (buf', n) => zlen buf' < n ∧ buf' = buf ++ typed_line (c :: tty_input w1) ∧ tty_input w' = behind_line (c :: tty_input w1)
    end) w2).
  { intros n w2 [Hs2 Hi2] Hn Hn2. eapply wpx_mono; [apply IH; rewrite ?zlen_app, ?Hi2; change (zlen [c]) with 1|].
    - cbn in Hf. lia.
    - pose proof (zlen_nonneg buf). lia.
    - lia.
    - lia.
    - done.
    - intros r w' [Hs Hr]. split; [eapply same_trans; [exact Hs1|]; by eapply same_trans|]. destruct r as [[b n']|]; [|done].
      rewrite Hi2, <- app_assoc in Hr. by rewrite E1, E2. }
  apply wpx_bind. destruct (Z.leb_spec (buflen - 1) (zlen buf)).
  - pose proof (zlen_nonneg buf). apply wpx_bind.
    assert (Hd : wp (double t buflen) (λ n w2, n = buflen * 2 ∧ w2 = w1) w1).
    { destruct t; [apply wpx_bind, wpx_guarded; [lia|]; by apply wpx_ret|]. apply wpx_ret. split; [|done]. apply u32_small. lia. }
    eapply wpx_mono; [exact Hd|]. intros n w2 [-> ->]. apply wpx_bind, wpx_call, wpx_ret.
    pose proof (idle_malloc (buflen * 2) w1) as Hm. destruct (malloc_ok (buflen * 2) w1) as [[] w2]; cbn [fst snd] in *.
    + apply wpx_bind, wpx_guarded; [lia|]. apply IH'; [done|lia|lia].
    + apply wpx_ret. split; [|done]. eapply same_trans; [exact Hs1|apply Hm].
  - apply wpx_ret, wpx_bind, wpx_guarded; [lia|]. apply IH'; [by split; [apply same_refl|]|lia|done].
Qed.

(** [f] is a new stream of the terminal [p] of which the settings [old] were changed,
    if there are any. *)
Definition opened (w : W) (f : Z) (p : bytes) (old : option termios) (w' : W) : Prop :=
  tty_fds w !! f = None ∧ tty_fds w' = <[f := p]> (tty_fds w) ∧ tty_input w' = tty_input w ∧
  match old with
  | None => ∀ q, tty_mode w' q = tty_mode w q
  | Some t => t = tty_mode w p ∧ ∀ q, q ≠ p → tty_mode w' q = tty_mode w q
  end.

Lemma opened_idle w w1 f p old w' : idle_tty w w1 → opened w1 f p old w' → opened w f p old w'.
Proof.
  intros [[HM HF] HI] (H1 & H2 & H3 & H4). rewrite HF in *. split_and!; [done|done|congruence|]. destruct old as [t|].
  - destruct H4 as [-> H4]. split; [done|]. intros q Hq. rewrite H4 by done. apply HM.
  - intros q. by rewrite H4.
Qed.

Lemma open_tty_noecho_ok F p w :
  wpx F (open_tty_noecho p) (λ r w', match r with None => idle_tty w w' | Some (f, t) => opened w f p (Some t) w' end) w.
Proof.
  apply wpx_bind, wpx_call. pose proof (open_read_law p w) as HL. destruct (tty_open_read p w) as [[f|] w1]; cbn [fst snd];
    destruct HL as (HM & HI & HF); [|by apply wpx_ret]. destruct HF as [Hn HF].
  assert (Ef : tty_fds w1 !! f = Some p) by (by rewrite HF, lookup_insert_eq).
  assert (Hclose : ∀ w2, (∀ q, tty_mode w2 q = tty_mode w q) → tty_fds w2 = tty_fds w1 → tty_input w2 = tty_input w →
    wpx F (_ ← modify (tty_close f); mret None) (λ r w', match r with None => idle_tty w w' | Some (f, t) => opened w f p (Some t) w' end) w2).
  { intros w2 M2 F2 I2. apply wpx_bind, wpx_modify, wpx_ret. destruct (tty_close_law f w2) as (M3 & I3 & F3).
    split; [split|]; [intros q; by rewrite M3| |congruence]. rewrite F3, F2, HF. by apply delete_insert_id. }
  apply wpx_bind, wpx_call. pose proof (getattr_law f p w1 Ef) as HG. destruct (tty_getattr f w1) as [[t|] w2]; cbn [fst snd];
    destruct HG as (M2 & I2 & F2 & Ht).
  2: { apply Hclose; [intros q; by rewrite M2|done|congruence]. }
  rewrite <- F2 in Ef. apply wpx_bind, wpx_call. pose proof (setattr_law f (Termios false false (c_rest t)) p w2 Ef) as HS.
  destruct (tty_setattr f _ w2) as [[] w3]; cbn [fst snd]; destruct HS as (M3 & I3 & F3).
  - apply wpx_ret. split_and!; [done|congruence|congruence|by rewrite Ht, HM|]. intros q Hq. rewrite M3, (bool_decide_false _ Hq). cbn.
    by rewrite M2, HM.
  - apply Hclose; [intros q; by rewrite M3, M2, HM|congruence|congruence].
Qed.

Lemma open_in_ok F echo p w :
  wpx F (open_in echo p) (λ r w', match r with None => idle_tty w w' | Some (f, old) => opened w f p old w' end) w.
Proof.
  unfold open_in. destruct echo; cbn [negb].
  - apply wpx_bind, wpx_call, wpx_ret. pose proof (open_read_law p w) as HL.
    destruct (tty_open_read p w) as [[f|] w1]; cbn [fst snd fmap option_fmap option_map]; destruct HL as (HM & HI & HF); [|done].
    by destruct HF.
  - apply wpx_bind. eapply wpx_mono; [apply open_tty_noecho_ok|]. intros [[f t]|] w1 H1; by apply wpx_ret.
Qed.

Lemma nc_open_in_ok F echo w :
  wpx F (nc_open_in echo) (λ r w', match r with None => idle_tty w w' | Some (f, old) => ∃ p, opened w f p old w' end) w.
Proof.
  apply wpx_bind. eapply wpx_mono; [apply open_in_ok|]. intros [[f old]|] w1 H1; [apply wpx_ret; eauto|].
  apply wpx_bind, wpx_call. pose proof (idle_name STDIN_FILENO w1) as Hn. destruct (tty_name _ w1) as [[n|] w2]; cbn [fst snd] in *.
  - eapply wpx_mono; [apply open_in_ok|]. intros [[f old]|] w3 H3; [|by do 2 (eapply idle_trans; [done|])].
    exists n. by do 2 (eapply opened_idle; [done|]).
  - apply wpx_ret. by eapply idle_trans.
Qed.

Lemma nc_open_out_ok F w :
  wpx F nc_open_out (λ r w', match r with None => idle_tty w w' | Some f => ∃ p, opened w f p None w' end) w.
Proof.
  assert (Ho : ∀ n w0, match (tty_open_write n w0).1 with
    | None => idle_tty w0 (tty_open_write n w0).2 | Some f => opened w0 f n None (tty_open_write n w0).2 end).
  { intros n w0. pose proof (open_write_law n w0) as HL. destruct (tty_open_write n w0) as [[f|] w1]; cbn [fst snd];
      destruct HL as (HM & HI & HF); [|done]. by destruct HF. }
  apply wpx_bind, wpx_call. pose proof (Ho DEV_TTY w) as H1. destruct (tty_open_write DEV_TTY w) as [[f|] w1]; cbn [fst snd] in *.
  { apply wpx_ret. eauto. }
  apply wpx_bind, wpx_call. pose proof (idle_name STDOUT_FILENO w1) as Hn. destruct (tty_name _ w1) as [[n|] w2]; cbn [fst snd] in *.
  - apply wpx_call. pose proof (Ho n w2) as H3. destruct (tty_open_write n w2) as [[f|] w3]; cbn [fst snd] in *.
    + exists n. by do 2 (eapply opened_idle; [done|]).
    + by do 2 (eapply idle_trans; [done|]).
  - apply wpx_ret. by eapply idle_trans.
Qed.

(** Closing restores the settings and removes the stream. *)
Lemma nc_close_inout_ok F f p old w :
  tty_fds w !! f = Some p →
  wpx F (nc_close_inout f old) (λ _ w', tty_fds w' = delete f (tty_fds w) ∧ tty_input w' = tty_input w ∧
    ∀ q, tty_mode w' q = match old with Some t => if decide (q = p) then t else tty_mode w q | None => tty_mode w q end) w.
Proof.
  intros Hf. apply wpx_bind. destruct old as [t|].
  - apply wpx_bind, wpx_call. pose proof (setattr_law f t p w Hf) as HS. pose proof (setattr_ok f t p w Hf) as Hok.
    destruct (tty_setattr f t w) as [ok w1]; cbn [fst snd] in *. subst ok. destruct HS as (M1 & I1 & F1). apply wpx_ret, wpx_modify.
    destruct (tty_close_law f w1) as (M2 & I2 & F2). split_and!; [congruence|congruence|]. intros q. rewrite M2, M1. cbn.
    destruct (decide (q = p)); [by rewrite bool_decide_true|by rewrite bool_decide_false].
  - apply wpx_ret, wpx_modify. destruct (tty_close_law f w) as (M2 & I2 & F2). split_and!; [done|done|]. intros q. apply M2.
Qed.

(** A stream that was opened and used is closed. *)
Lemma close_opened F f p old w w1 w2 :
  opened w f p old w1 → same_tty w1 w2 →
  wpx F (nc_close_inout f old) (λ _ w', same_tty w w' ∧ tty_input w' = tty_input w2) w2.
Proof.
  intros (Hn & HF & HI & HM) [M2 F2]. eapply wpx_mono; [apply (nc_close_inout_ok F f p)|].
  { rewrite F2, HF. apply lookup_insert_eq. }
  intros [] w3 (F3 & I3 & M3). split; [|done]. split.
  - intros q. rewrite M3. destruct old as [t|]; [|by rewrite M2]. destruct HM as [-> HM]. destruct (decide (q = p)) as [->|Hq]; [done|].
    by rewrite M2, HM.
  - rewrite F3, F2, HF. by apply delete_insert_id.
Qed.

Lemma close_both F {A} f p old g q (a : A) w w1 w2 w3 :
  opened w f p old w1 → opened w1 g q None w2 → same_tty w2 w3 →
  wpx F (_ ← nc_close_inout f old; _ ← nc_close_inout g None; mret a)
    (λ r w', r = a ∧ same_tty w w' ∧ tty_input w' = tty_input w3) w3.
Proof.
  intros (Hn & HF & HI & HM) (Hn' & HF' & HI' & HM') [M3 F3].
  assert (Hne : g ≠ f) by (intros ->; by rewrite HF, lookup_insert_eq in Hn').
  apply wpx_bind. eapply wpx_mono; [apply (nc_close_inout_ok F f p)|].
  { rewrite F3, HF', HF, lookup_insert_ne by done. apply lookup_insert_eq. }
  intros [] w4 (F4 & I4 & M4). apply wpx_bind. eapply wpx_mono; [apply (nc_close_inout_ok F g q)|].
  { rewrite F4, F3, HF', lookup_delete_ne, lookup_insert_eq; done. }
  intros [] w5 (F5 & I5 & M5). apply wpx_ret. split_and!; [done| |congruence]. split.
  - intros x. rewrite M5, M4. destruct old as [t|]; [|by rewrite M3, HM'].
    destruct HM as [-> HM]. destruct (decide (x = p)) as [->|Hx]; [done|]. by rewrite M3, HM', HM.
  - rewrite F5, F4, F3, HF', HF. rewrite delete_insert_ne by done. rewrite (delete_insert_id (tty_fds w) f p Hn).
    apply delete_insert_id. by rewrite HF, lookup_insert_ne in Hn' by done.
Qed.

Lemma print_all_ok F f texts w : wpx F (print_all f texts) (λ _ w', idle_tty w w') w.
Proof.
  revert w. induction texts as [|x texts IH]; intros w; [by apply wpx_ret|]. cbn [print_all]. apply wpx_bind, wpx_call.
  pose proof (idle_print f x w) as H1. destruct (tty_print f x w) as [[] w1]; cbn [fst snd] in *; [|by apply wpx_ret].
  eapply wpx_mono; [apply IH|]. intros b w2 H2. by eapply idle_trans.
Qed.

(** What a question does. *)
Definition asked (w : W) (r : option bytes) (w' : W) : Prop :=
  same_tty w w' ∧ ∀ line, r = Some line → line = typed_line (tty_input w) ∧ tty_input w' = behind_line (tty_input w).

Lemma asked_none w w' : same_tty w w' → asked w None w'.
Proof. by split. Qed.

Lemma ask_ok fuel t buflen echo texts w :
  (length (tty_input w) < fuel)%nat → zlen (tty_input w) < 2 ^ 29 → 0 < buflen < 2 ^ 30 →
  wp (ask fuel t buflen echo texts) (λ r w', asked w r w') w.
Proof.
  intros Hf Hlen Hb. apply wpx_bind, wpx_call. pose proof (idle_malloc buflen w) as H1.
  destruct (malloc_ok buflen w) as [[] w1]; cbn [fst snd negb] in *; [|apply wpx_ret, asked_none, H1].
  destruct H1 as [S1 I1]. apply wpx_bind. eapply wpx_mono; [apply nc_open_in_ok|]. intros [[f old]|] w2 H2.
  2: { apply wpx_ret, asked_none. eapply same_trans; [done|apply H2]. }
  destruct H2 as [p H2]. apply wpx_bind. eapply wpx_mono; [apply nc_open_out_ok|]. intros [g|] w3 H3.
  2: { apply wpx_bind. eapply wpx_mono; [eapply close_opened; [exact H2|apply H3]|]. intros [] w4 [H4 _].
       apply wpx_ret, asked_none. by eapply same_trans. }
  destruct H3 as [q H3]. apply wpx_bind. eapply wpx_mono; [apply print_all_ok|]. intros ok w4 [S4 I4].
  assert (Hin : tty_input w4 = tty_input w) by (destruct H2 as (_&_&?&_), H3 as (_&_&?&_); congruence).
  set (k := λ a : option bytes, _ ← nc_close_inout f old; _ ← nc_close_inout g None; mret a).
  assert (Hk : ∀ a w5, same_tty w4 w5 → asked w a w5 ∨ a = None ∨
      (∀ line, a = Some line → line = typed_line (tty_input w) ∧ tty_input w5 = behind_line (tty_input w)) →
      wp (k a) (λ r w', asked w r w') w5).
  { intros a w5 S5 Ha. eapply wpx_mono; [eapply close_both; [exact H2|exact H3|by eapply same_trans]|].
    intros r w6 (-> & S6 & I6). split; [by eapply same_trans|]. intros line ->. rewrite I6.
    destruct Ha as [[_ Ha]|[Ha|Ha]]; [by apply Ha|done|by apply Ha]. }
  apply wpx_bind. destruct ok; cbn [negb]; [|apply wpx_ret, (Hk None w4 (same_refl w4)); auto].
  apply wpx_bind. eapply wpx_mono; [apply (read_answer_ok fuel t f [] buflen w4); rewrite ?Hin; change (zlen (@nil ascii)) with 0; lia|].
  intros [[buf n]|] w5 [S5 H5]; [|apply wpx_ret, (Hk None w5 S5); auto].
  destruct H5 as (Hn & Eb & I5). cbn [app] in Eb. rewrite Hin in *. apply wpx_bind, wpx_guarded; [lia|].
  apply wpx_bind, wpx_call, wpx_ret, (Hk (Some buf)); [eapply same_trans; [exact S5|apply idle_print]|].
  right. right. intros line [= <-]. split; [done|]. destruct (idle_print g [nl] w5) as [_ I6]. congruence.
Qed.
End restore.

(** ** The simulated terminal *)

Lemma above_not_in (m : gmap Z bytes) : m !! above (map fst (map_to_list m)) = None.
Proof.
  destruct (m !! above _) as [p|] eqn:E; [|done]. apply elem_of_map_to_list in E.
  assert (above (map fst (map_to_list m)) ∈ map fst (map_to_list m)) as H%above_fresh; [|lia].
  apply list_elem_of_fmap. exists (above (map fst (map_to_list m)), p). by split.
Qed.

#[export] Instance desk_tty_laws : TtyLaws desk.
Proof.
  refine {| tty_mode w p := default cooked (dk_modes w !! p); tty_fds := dk_fds; tty_input := dk_input |}; try done.
  1, 2: intros p w; split_and!; [done|done|apply above_not_in|done].
  - intros f p w Hf. cbn in *. rewrite Hf. by split_and!.
  - intros f t p w Hf. cbn in *. rewrite Hf. split_and!; [|done|done]. intros q. cbn.
    destruct (bool_decide_reflect (q = p)) as [->|Hq]; [by rewrite lookup_insert_eq|by rewrite lookup_insert_ne].
  - intros f w. cbn. destruct (dk_input w) as [|c i] eqn:E; cbn; by rewrite ?E.
Defined.

#[export] Instance desk_restores : TtyRestores desk.
Proof. intros f t p w Hf. cbn in *. by rewrite Hf. Qed.



(** ** Host keys *)

(** The words the user has given as answers; only reading an answer adds one. *)
Class SaidLaws (W : Type) `{!TtyEnv W} `{!HostKeyEnv W} := {
  said : W → list bytes;
  said_open_read p w : said (tty_open_read p w).2 = said w;
  said_open_write p w : said (tty_open_write p w).2 = said w;
  said_close f w : said (tty_close f w) = said w;
  said_getattr f w : said (tty_getattr f w).2 = said w;
  said_setattr f t w : said (tty_setattr f t w).2 = said w;
  said_name f w : said (tty_name f w).2 = said w;
  said_print f s w : said (tty_print f s w).2 = said w;
  said_getc f w : said (tty_getc f w).2 = said w;
  said_word f w : said (tty_word f w).2 = said w ++ match (tty_word f w).1 with Some a => [a] | None => [] end;
  said_dns h w : said (dns_sshfp h w).2 = said w;
  said_known w : said (ssh_session_is_known_server w).2 = said w;
  said_type w : said (ssh_server_key_type w).2 = said w;
  said_sha1 w : said (ssh_server_key_sha1 w).2 = said w;
  said_update w : said (ssh_session_update_known_hosts w).2 = said w;
}.

#[export] Hint Rewrite @said_open_read @said_open_write @said_close @said_getattr @said_setattr @said_name @said_print
  @said_getc @said_dns @said_known @said_type @said_sha1 @said_update : said.

Section known.
Context {W : Type} `{!Env W} `{!TtyEnv W} `{!HostKeyEnv W} `{!SaidLaws W}.

(** A computation that reads no answer. *)
Definition silent {A} (m : M W A) : Prop := ∀ w, post m (λ _ w', said w' = said w) w.

Lemma silent_ret {A} (a : A) : silent (mret a).
Proof. done. Qed.

Lemma silent_call {A} (f : W → A * W) : (∀ w, said (f w).2 = said w) → silent (call f).
Proof. intros Hf w. apply post_call, Hf. Qed.

Lemma silent_modify (f : W → W) : (∀ w, said (f w) = said w) → silent (modify f).
Proof. intros Hf w. apply post_modify, Hf. Qed.

Lemma silent_bind {A B} (m : M W A) (k : A → M W B) : silent m → (∀ a, silent (k a)) → silent (m ≫= k).
Proof.
  intros Hm Hk w. apply post_bind. eapply post_mono; [apply Hm|]. intros a w1 E. eapply post_mono; [apply Hk|]. intros. congruence.
Qed.

Ltac silent_step :=
  match goal with
  | |- silent (mret _) => apply silent_ret
  | |- silent (call _) => apply silent_call; intros; by autorewrite with said
  | |- silent (modify _) => apply silent_modify; intros; by autorewrite with said
  | |- silent (_ ≫= _) => apply silent_bind; [|intros ?]
  | |- silent (if ?b then _ else _) => destruct b
  | |- silent (match ?x with _ => _ end) => destruct x
  | |- silent _ => progress cbv beta zeta
  end.

Lemma silent_open_in echo : silent (nc_open_in echo).
Proof. unfold nc_open_in, open_in, open_tty_noecho. repeat silent_step. Qed.

Lemma silent_open_out : silent nc_open_out.
Proof. unfold nc_open_out. repeat silent_step. Qed.

Lemma silent_close f t : silent (nc_close_inout f t).
Proof. unfold nc_close_inout. repeat silent_step. Qed.

Lemma silent_print_all f l : silent (print_all f l).
Proof. induction l as [|x l IH]; cbn [print_all]; repeat silent_step. done. Qed.

Lemma silent_skip_line fuel f : silent (skip_line fuel f).
Proof. induction fuel as [|fuel IH]; [by intros w|]. cbn [skip_line]. repeat silent_step. done. Qed.

(** The user's last word is "yes". *)
Definition said_yes (w w' : W) : Prop := ∃ l, said w' = said w ++ l ++ [str "yes"].

Lemma confirm_post fuel f g w : post (confirm fuel f g) (λ b w', b = true → said_yes w w') w.
Proof.
  revert w. induction fuel as [|fuel IH]; intros w; [done|]. cbn [confirm]. apply post_bind, post_call.
  pose proof (said_word f w) as E. destruct (tty_word f w) as [[a|] w1]; cbn [fst snd] in *; [|by apply post_ret].
  apply post_bind. eapply post_mono; [apply silent_skip_line|]. intros u2 w2 E2. cbn beta in E2.
  unfold strcmp_eq. destruct (bool_decide_reflect (str "yes" = a)) as [<-|Hy].
  - apply post_bind, post_call, post_ret. intros _. exists []. rewrite said_update. by rewrite E2, E.
  - destruct (bool_decide _); [by apply post_ret|]. apply post_bind, post_call.
    pose proof (said_print g (str "Please type 'yes' or 'no': ") w2) as E3. destruct (tty_print g _ w2) as [[] w3]; cbn [fst snd negb] in *.
    + eapply post_mono; [apply IH|]. intros b w4 H4 Hb. destruct (H4 Hb) as [l El]. exists (a :: l). rewrite El, E3, E2, E.
      by rewrite <- app_assoc.
    + by apply post_ret.
Qed.

Lemma ask_hostkey_post fuel h hexa t notes w : post (ask_hostkey fuel h hexa t notes) (λ r w', r = 0 → said_yes w w') w.
Proof.
  unfold ask_hostkey. apply post_bind. eapply post_mono; [apply silent_open_in|]. intros [[f old]|] w1 E1; [|by apply post_ret].
  apply post_bind. eapply post_mono; [apply silent_open_out|]. intros [g|] w2 E2.
  2: { apply post_bind. eapply post_mono; [apply post_any|]. intros. by apply post_ret. }
  apply post_bind. eapply post_mono; [apply silent_print_all|]. intros ok w3 E3. apply post_bind.
  assert (Hc : post (if ok then confirm fuel f g else mret false) (λ b w', b = true → said_yes w w') w3).
  { destruct ok; [|by apply post_ret]. eapply post_mono; [apply confirm_post|]. intros b w' H Hb. destruct (H Hb) as [l El].
    exists l. congruence. }
  eapply post_mono; [exact Hc|]. intros yes w4 H4. apply post_bind. eapply post_mono; [apply silent_close|]. intros u5 w5 E5.
  apply post_bind. eapply post_mono; [apply silent_close|]. intros u6 w6 E6. apply post_ret. destruct yes; [|done].
  intros _. destruct (H4 eq_refl) as [l El]. exists l. congruence.
Qed.

(** The host is new: its key did not change, and there was no error. *)
Definition new_host (k : known_hosts) : Prop :=
  k = SSH_KNOWN_HOSTS_OTHER ∨ k = SSH_KNOWN_HOSTS_NOT_FOUND ∨ k = SSH_KNOWN_HOSTS_UNKNOWN.

(** The number of a type of key in SSHFP records, if the code knows one. *)
Definition sshfp_number (t : ssh_keytype) : option nat :=
  match t with SSH_KEYTYPE_DSS => Some 2%nat | SSH_KEYTYPE_RSA => Some 1%nat | SSH_KEYTYPE_ECDSA => Some 3%nat | _ => None end.

(** A secure answer for the host has a SHA1 record of the key. *)
Definition sshfp_confirms (host hash : bytes) (n : nat) : Prop :=
  ∃ w r rdata, (dns_sshfp host w).1 = Some r ∧ dns_rcode r = 0 ∧ dns_ad r = true ∧ dns_question r = Some (host, 44, 1) ∧
    (44, ascii_of_nat n :: ascii_of_nat 1 :: rdata) ∈ dns_records r ∧ take 20 rdata = take 20 hash.

Lemma find_sshfp_post l hash t a ret (w : W) : post (find_sshfp l hash t a ret)
  (λ r _, r = 0 → ret = 0 ∧ ∃ rdata, (44, t :: a :: rdata) ∈ l ∧ take 20 rdata = take 20 hash) w.
Proof.
  induction l as [|[rt rdata] l IH]; [by apply post_ret|]. cbn [find_sshfp].
  assert (IH' : post (find_sshfp l hash t a ret) (λ r _, r = 0 → ret = 0 ∧ ∃ rd,
    (44, t :: a :: rd) ∈ (rt, rdata) :: l ∧ take 20 rd = take 20 hash) w).
  { eapply post_mono; [exact IH|]. intros r w' H Hr. destruct (H Hr) as (? & rd & Hin & ?). split; [done|]. exists rd. split; [by right|done]. }
  destruct (Z.eqb_spec rt 44) as [->|]; cbn [negb]; [|done]. destruct rdata as [|t' [|a' rdata]]; [done..|].
  destruct (bool_decide_reflect (t' = t)) as [->|]; cbn [negb]; [|done].
  destruct (bool_decide_reflect (a' = a)) as [->|]; cbn [negb]; [|done].
  apply post_bind. unfold same_hash. apply post_bind. unfold guarded. destruct (_ && _); [|done]. apply post_ret, post_ret, post_ret.
  unfold strncmp_eq. cbn [drop]. rewrite drop_0. destruct (bool_decide_reflect (take 20 rdata = take 20 hash)); [|done]. intros ->. split; [done|].
  exists rdata. split; [left|done].
Qed.

Lemma dnssec_post host hash n (w : W) : post (sshauth_hostkey_hash_dnssec_check host hash n 1)
  (λ r _, r = 0 → sshfp_confirms host hash n) w.
Proof.
  apply post_bind, post_call. destruct (dns_sshfp host w) as [[r|] w1] eqn:E; cbn [fst snd]; [|by apply post_ret].
  destruct (dns_parses r); cbn [negb]; [|by apply post_ret]. destruct (Z.eqb_spec (dns_rcode r) 0) as [Hrc|]; cbn [negb]; [|by apply post_ret].
  destruct (dns_question r) as [[[name qt] qc]|] eqn:Eq; [|by apply post_ret]. unfold strcmp_eq.
  destruct (bool_decide_reflect (host = name)) as [<-|]; cbn [negb orb]; [|by apply post_ret].
  destruct (Z.eqb_spec qt 44) as [->|]; cbn [negb orb]; [|by apply post_ret].
  destruct (Z.eqb_spec qc 1) as [->|]; cbn [negb orb]; [|by apply post_ret].
  eapply post_mono; [apply find_sshfp_post|]. intros x w2 H Hx. destruct (H Hx) as (Hret & rd & Hin & Ht).
  exists w, r, rd. rewrite E. split_and!; try done. by destruct (dns_ad r).
Qed.

Lemma silent_find_sshfp l hash t a ret : silent (find_sshfp l hash t a ret).
Proof.
  induction l as [|[rt rdata] l IH]; cbn [find_sshfp]; [apply silent_ret|]. destruct (negb _); [done|].
  destruct rdata as [|t' [|a' rdata]]; [by intros w..|]. do 2 (destruct (negb _); [done|]).
  apply silent_bind; [|intros; apply silent_ret]. unfold same_hash, guarded. apply silent_bind; [|intros; apply silent_ret].
  destruct (_ && _); [apply silent_ret|by intros w].
Qed.

Lemma silent_dnssec host hash n a : silent (sshauth_hostkey_hash_dnssec_check host hash n a).
Proof. unfold sshauth_hostkey_hash_dnssec_check. repeat silent_step. apply silent_find_sshfp. Qed.

(** What DNS says about a key, for the types the code knows. *)
Lemma dns_verdict host hash t (w : W) :
  post (match t with
        | SSH_KEYTYPE_DSS => sshauth_hostkey_hash_dnssec_check host hash 2 1
        | SSH_KEYTYPE_RSA => sshauth_hostkey_hash_dnssec_check host hash 1 1
        | SSH_KEYTYPE_ECDSA => sshauth_hostkey_hash_dnssec_check host hash 3 1
        | _ => mret 0
        end) (λ r w', said w' = said w ∧ (r = 0 → ∀ n, sshfp_number t = Some n → sshfp_confirms host hash n)) w.
Proof.
  assert (Hand : ∀ n, post (sshauth_hostkey_hash_dnssec_check host hash n 1)
    (λ r w', said w' = said w ∧ (r = 0 → ∀ n', Some n = Some n' → sshfp_confirms host hash n')) w).
  { intros n. pose proof (silent_dnssec host hash n 1 w) as H1. pose proof (dnssec_post host hash n w) as H2. unfold post in *.
    destruct (sshauth_hostkey_hash_dnssec_check host hash n 1 w) as [[r w1]| |]; [|done..]. split; [done|].
    intros Hr n' [= <-]. by apply H2. }
  destruct t; try apply Hand; by apply post_ret.
Qed.
End known.

#[export] Instance desk_said : SaidLaws desk.
Proof.
  refine {| said := dk_said |}; try done; intros; cbn.
  - by destruct (dk_fds w !! f).
  - by destruct (dk_input w).
  - unfold desk_word. destruct (dk_input w); cbn; [by rewrite app_nil_r|done].
Defined.

(** Why a host key is accepted. *)
Definition host_accepted {W} `{!TtyEnv W} `{!HostKeyEnv W} `{!SaidLaws W} (dnssec : bool) (host : bytes) (w w' : W) : Prop :=
  (ssh_session_is_known_server w).1 = SSH_KNOWN_HOSTS_OK ∨
  (new_host (ssh_session_is_known_server w).1 ∧
   (said_yes w w' ∨
    (dnssec = true ∧ ∃ t n hash, (ssh_server_key_type (ssh_session_is_known_server w).2).1 = Some t ∧ sshfp_number t = Some n ∧
       (ssh_server_key_sha1 (ssh_server_key_type (ssh_session_is_known_server w).2).2).1 = Some hash ∧
       sshfp_confirms host hash n))).

(** C9: A host key is accepted only for a reason: the host is known with this key, or it is
    new and the user's answer was "yes", or - with DNSSEC - a secure answer of the
    resolver has a SHA1 fingerprint record with the hash of this key.  A key that differs from the known
    one is never accepted.  With DNSSEC the statement needs a type of key the code has
    a record number for. *)
Theorem hostkey_accepted {W} `{!Env W} `{!TtyEnv W} `{!HostKeyEnv W} `{!SaidLaws W} dnssec fuel host (w w' : W) :
  (dnssec = true → match (ssh_server_key_type (ssh_session_is_known_server w).2).1 with
                   | Some SSH_KEYTYPE_ED25519 | Some SSH_KEYTYPE_OTHER => False | _ => True end) →
  sshauth_hostkey_check dnssec fuel host w = Done (0, w') → host_accepted dnssec host w w'.
Proof.
  intros Hd E.
  assert (G : post (sshauth_hostkey_check dnssec fuel host) (λ r w', r = 0 → host_accepted dnssec host w w') w).
  2: { unfold post in G. rewrite E in G. by apply G. }
  unfold sshauth_hostkey_check, host_accepted. apply post_bind, post_call.
  pose proof (said_known w) as S1. destruct (ssh_session_is_known_server w) as [k w1] eqn:E1. cbn [fst snd] in *.
  apply post_bind, post_call. pose proof (said_type w1) as S2. destruct (ssh_server_key_type w1) as [[t|] w2] eqn:E2; cbn [fst snd] in *;
    [|by apply post_ret].
  apply post_bind, post_call. pose proof (said_sha1 w2) as S3. destruct (ssh_server_key_sha1 w2) as [[hash|] w3] eqn:E3; cbn [fst snd] in *;
    [|by apply post_ret].
  assert (Hask : ∀ w4 notes, said w4 = said w → post (ask_hostkey fuel host (ssh_get_hexa hash) t notes) (λ r w', r = 0 → said_yes w w') w4).
  { intros w4 notes S4. eapply post_mono; [apply ask_hostkey_post|]. intros r w5 H Hr. destruct (H Hr) as [l El]. exists l. congruence. }
  set (new := if negb dnssec then _ else _). assert (Hnew : post new (λ r w', r = 0 → said_yes w w' ∨ (dnssec = true ∧
    ∃ t0 n hash0, Some t = Some t0 ∧ sshfp_number t0 = Some n ∧ Some hash = Some hash0 ∧ sshfp_confirms host hash0 n)) w3).
  2: { assert (H' : new_host k → post new (λ r w', r = 0 → k = SSH_KNOWN_HOSTS_OK ∨ (new_host k ∧ (said_yes w w' ∨ (dnssec = true ∧
         ∃ t0 n hash0, Some t = Some t0 ∧ sshfp_number t0 = Some n ∧ Some hash = Some hash0 ∧ sshfp_confirms host hash0 n)))) w3).
       { intros Hk. eapply post_mono; [exact Hnew|]. intros r w4 H4 Hr. right. split; [done|]. by apply H4. }
       unfold new_host in H'. destruct k; [by apply post_ret|by apply H'; auto|by apply H'; auto| |by apply post_ret|by apply H'; auto].
       apply post_ret. by left. }
  unfold new. destruct dnssec; cbn [negb].
  2: { eapply post_mono; [apply Hask; congruence|]. intros r w4 H4 Hr. left. by apply H4. }
  specialize (Hd eq_refl). apply post_bind. eapply post_mono; [apply dns_verdict|]. intros ret w4 [S4 H4].
  destruct (_ && _) eqn:Ea.
  - apply andb_true_iff in Ea as [Ea Er%Z.eqb_eq]. apply post_bind, post_call, post_ret. intros _. right. split; [done|].
    destruct t; try done; eexists _, _, hash; (split; [done|]; split; [done|]; split; [done|]; by apply H4).
  - eapply post_mono; [apply Hask; congruence|]. intros r w5 H5 Hr. left. by apply H5.
Qed.

Lemma hostkey_accepted_witness : ∃ w',
  sshauth_hostkey_check false 20 (str "box") (demo_desk demo_server (str "yes" ++ [nl])) = Done (0, w') ∧
  host_accepted false (str "box") (demo_desk demo_server (str "yes" ++ [nl])) w'.
Proof.
  destruct (sshauth_hostkey_check false 20 (str "box") (demo_desk demo_server (str "yes" ++ [nl]))) as [[r w']| |] eqn:E.
  2, 3: exfalso; vm_compute in E; discriminate.
  assert (r = 0) as ->.
  { assert (Hr : match sshauth_hostkey_check false 20 (str "box") (demo_desk demo_server (str "yes" ++ [nl])) with
      | Done (r, _) => r | _ => 1 end = 0) by (vm_compute; reflexivity). by rewrite E in Hr. }
  exists w'. split; [done|]. by apply (hostkey_accepted false 20 (str "box") (demo_desk demo_server (str "yes" ++ [nl])) w').
Defined.

(** With DNSSEC an unknown host with an Ed25519 key (or any key that is not RSA, DSA or
    plain ECDSA) is accepted without asking the resolver or the user: the variable that says whether
    the check succeeded still has the result of the hash function. *)
Theorem dnssec_check_skipped {W} `{!Env W} `{!TtyEnv W} `{!HostKeyEnv W} `{!SaidLaws W} fuel host (w : W) t hash :
  new_host (ssh_session_is_known_server w).1 →
  (ssh_server_key_type (ssh_session_is_known_server w).2).1 = Some t → t = SSH_KEYTYPE_ED25519 ∨ t = SSH_KEYTYPE_OTHER →
  (ssh_server_key_sha1 (ssh_server_key_type (ssh_session_is_known_server w).2).2).1 = Some hash →
  ∃ w', sshauth_hostkey_check true fuel host w = Done (0, w') ∧ said w' = said w.
Proof.
  intros Hn Ht Hed Hh.
  assert (G : wp (sshauth_hostkey_check true fuel host) (λ r w', r = 0 ∧ said w' = said w) w).
  2: { apply wp_total in G as (r & w' & E & -> & S). eauto. }
  apply wpx_bind, wpx_call. pose proof (said_known w) as S1. destruct (ssh_session_is_known_server w) as [k w1]. cbn [fst snd] in *.
  apply wpx_bind, wpx_call. pose proof (said_type w1) as S2. destruct (ssh_server_key_type w1) as [ty w2]. cbn [fst snd] in *. subst ty.
  apply wpx_bind, wpx_call. pose proof (said_sha1 w2) as S3. destruct (ssh_server_key_sha1 w2) as [h w3]. cbn [fst snd] in *. subst h.
  assert (Hup : wp (_ ← call ssh_session_update_known_hosts; mret 0) (λ r w', r = 0 ∧ said w' = said w) w3).
  { apply wpx_bind, wpx_call, wpx_ret. split; [done|]. rewrite said_update. congruence. }
  destruct Hn as [->|[->| ->]], Hed as [->| ->]; exact Hup.
Qed.

Lemma dnssec_check_skipped_witness : ∃ w',
  sshauth_hostkey_check true 20 (str "evil") (demo_desk demo_server []) = Done (0, w') ∧ said w' = said (demo_desk demo_server []).
Proof.
  apply (dnssec_check_skipped 20 (str "evil") (demo_desk demo_server []) SSH_KEYTYPE_ED25519 (repeat (ascii_of_nat 1) 20)).
  - by right; right.
  - done.
  - by left.
  - done.
Defined.
