(* ===== verification/SshClientProofs.v ===== *)
(** * SSH authentication of a client: what is sent, when, and what success means

    Credentials are sent only after the host key was accepted, only by methods the server
    offers and the options enable, by falling preference; success is reported only
    when the server has authenticated the client, except for one error of the code. *)

From S2P Require Import Prelude Session Env Time Locks IoRead Capabilities SshOpts SshAuth SshAuthProofs SshCliOpts SshPrompt.
From S2P Require Import SshClient SshPromptProofs.
From Stdlib Require Import ZArith Ascii String Lia Sorted.
From stdpp Require Import base list strings gmap numbers.
Open Scope Z_scope.

Definition success (r : auth_rc) : bool := bool_decide (r = SSH_AUTH_SUCCESS).

(** Whether the server has authenticated the client, and the credentials it was
    shown.  [SSH_AUTH_SUCCESS] of an authentication function means the former; asking
    whether a public key would do does not authenticate. *)
Class AuthLog (W : Type) `{!Env W} `{!TtyEnv W} `{!HostKeyEnv W} `{!SshCliEnv W} := {
  auth_log : W → bool * list credential;
  log_clock w : auth_log (clock_mono w).2 = auth_log w;
  log_usleep n w : auth_log (usleep n w) = auth_log w;
  log_malloc n w : auth_log (malloc_ok n w).2 = auth_log w;
  log_open_read p w : auth_log (tty_open_read p w).2 = auth_log w;
  log_open_write p w : auth_log (tty_open_write p w).2 = auth_log w;
  log_close f w : auth_log (tty_close f w) = auth_log w;
  log_getattr f w : auth_log (tty_getattr f w).2 = auth_log w;
  log_setattr f t w : auth_log (tty_setattr f t w).2 = auth_log w;
  log_name f w : auth_log (tty_name f w).2 = auth_log w;
  log_print f s w : auth_log (tty_print f s w).2 = auth_log w;
  log_getc f w : auth_log (tty_getc f w).2 = auth_log w;
  log_word f w : auth_log (tty_word f w).2 = auth_log w;
  log_dns h w : auth_log (dns_sshfp h w).2 = auth_log w;
  log_known w : auth_log (ssh_session_is_known_server w).2 = auth_log w;
  log_type w : auth_log (ssh_server_key_type w).2 = auth_log w;
  log_sha1 w : auth_log (ssh_server_key_sha1 w).2 = auth_log w;
  log_update w : auth_log (ssh_session_update_known_hosts w).2 = auth_log w;
  log_connect w : auth_log (cli_connect w).2 = auth_log w;
  log_list w : auth_log (cli_auth_list w).2 = auth_log w;
  log_nprompts w : auth_log (cli_kbd_nprompts w).2 = auth_log w;
  log_prompt j w : auth_log (cli_kbd_prompt j w).2 = auth_log w;
  log_kbd_name w : auth_log (cli_kbd_name w).2 = auth_log w;
  log_kbd_instruction w : auth_log (cli_kbd_instruction w).2 = auth_log w;
  log_setanswer j a w : auth_log (cli_kbd_setanswer j a w).2 = auth_log w;
  log_import_pubkey p w : auth_log (cli_import_pubkey p w).2 = auth_log w;
  log_import_privkey p s w : auth_log (cli_import_privkey p s w).2 = auth_log w;
  log_usr_hostkey f d h w : auth_log (usr_hostkey_check f d h w).2 = auth_log w;
  log_usr_password f d u h w : auth_log (usr_password f d u h w).2 = auth_log w;
  log_usr_interactive f d n i p e w : auth_log (usr_interactive f d n i p e w).2 = auth_log w;
  log_usr_passphrase f d p w : auth_log (usr_passphrase f d p w).2 = auth_log w;
  log_none w : let (r, w') := cli_auth_none w in auth_log w' = ((auth_log w).1 || success r, (auth_log w).2);
  log_password u p w : let (r, w') := cli_auth_password u p w in
    auth_log w' = ((auth_log w).1 || success r, (auth_log w).2 ++ [CredPassword p]);
  log_kbdint w : let (r, w') := cli_auth_kbdint w in
    auth_log w' = ((auth_log w).1 || success r, (auth_log w).2 ++ [CredKbdint]);
  log_probe k w : auth_log (cli_try_publickey k w).2 = ((auth_log w).1, (auth_log w).2 ++ [CredProbe k]);
  log_publickey k w : let (r, w') := cli_auth_publickey k w in
    auth_log w' = ((auth_log w).1 || success r, (auth_log w).2 ++ [CredSignature k]);
}.

#[export] Hint Rewrite @log_clock @log_usleep @log_malloc @log_open_read @log_open_write @log_close @log_getattr @log_setattr
  @log_name @log_print @log_getc @log_word @log_dns @log_known @log_type @log_sha1 @log_update @log_connect @log_list
  @log_nprompts @log_prompt @log_kbd_name @log_kbd_instruction @log_setanswer @log_import_pubkey @log_import_privkey
  @log_usr_hostkey @log_usr_password @log_usr_interactive @log_usr_passphrase : authlog.

Section quiet.
Context {W : Type} `{!Env W} `{!TtyEnv W} `{!HostKeyEnv W} `{!SshCliEnv W} `{!AuthLog W}.

(** A computation that shows nothing to the server. *)
Definition quiet {A} (m : M W A) : Prop := ∀ w, post m (λ _ w', auth_log w' = auth_log w) w.

Lemma quiet_ret {A} (a : A) : quiet (mret a).
Proof. done. Qed.

Lemma quiet_call {A} (f : W → A * W) : (∀ w, auth_log (f w).2 = auth_log w) → quiet (call f).
Proof. intros Hf w. apply post_call, Hf. Qed.

Lemma quiet_modify (f : W → W) : (∀ w, auth_log (f w) = auth_log w) → quiet (modify f).
Proof. intros Hf w. apply post_modify, Hf. Qed.

Lemma quiet_bind {A B} (m : M W A) (k : A → M W B) : quiet m → (∀ a, quiet (k a)) → quiet (m ≫= k).
Proof.
  intros Hm Hk w. apply post_bind. eapply post_mono; [apply Hm|]. intros a w1 E. eapply post_mono; [apply Hk|]. intros. congruence.
Qed.

Lemma quiet_crash {A} : quiet (A := A) crash.
Proof. by intros w. Qed.

Lemma quiet_no_fuel {A} : quiet (A := A) no_fuel.
Proof. by intros w. Qed.
End quiet.

Create HintDb quiet.
Ltac quiet_step :=
  match goal with
  | |- quiet (mret _) => apply quiet_ret
  | |- quiet crash => apply quiet_crash
  | |- quiet no_fuel => apply quiet_no_fuel
  | |- quiet (call _) => apply quiet_call; intros; by autorewrite with authlog
  | |- quiet (modify _) => apply quiet_modify; intros; by autorewrite with authlog
  | |- quiet _ => solve [auto with quiet nocore]
  | |- quiet (guarded ?b) => unfold guarded; destruct b
  | |- quiet (_ ≫= _) => apply quiet_bind; [|intros ?]
  | |- quiet (if ?b then _ else _) => destruct b
  | |- quiet (match ?x with _ => _ end) => destruct x
  | |- quiet _ => progress cbv beta zeta
  end.
Ltac quiet := repeat quiet_step.

Section quiet_parts.
Context {W : Type} `{!Env W} `{!TtyEnv W} `{!HostKeyEnv W} `{!SshCliEnv W} `{!AuthLog W}.
Implicit Types w : W.

Lemma quiet_open_in echo : quiet (nc_open_in echo).
Proof. unfold nc_open_in, open_in, open_tty_noecho. quiet. Qed.

Lemma quiet_open_out : quiet nc_open_out.
Proof. unfold nc_open_out. quiet. Qed.

Lemma quiet_close f t : quiet (nc_close_inout f t).
Proof. unfold nc_close_inout. quiet. Qed.

Lemma quiet_print_all f l : quiet (print_all f l).
Proof. induction l as [|x l IH]; cbn [print_all]; quiet. Qed.

Lemma quiet_skip_line fuel f : quiet (skip_line fuel f).
Proof. induction fuel as [|fuel IH]; cbn [skip_line]; quiet. Qed.

Lemma quiet_confirm fuel f g : quiet (confirm fuel f g).
Proof. induction fuel as [|fuel IH]; cbn [confirm]; quiet. apply quiet_skip_line. Qed.

Lemma quiet_find_sshfp l h t a r : quiet (find_sshfp l h t a r).
Proof. induction l as [|[rt rd] l IH]; cbn [find_sshfp]; unfold same_hash; quiet. Qed.

Lemma quiet_dnssec h x n a : quiet (sshauth_hostkey_hash_dnssec_check h x n a).
Proof. unfold sshauth_hostkey_hash_dnssec_check. quiet. apply quiet_find_sshfp. Qed.

Lemma quiet_hostkey_check d fuel h : quiet (sshauth_hostkey_check d fuel h).
Proof.
  unfold sshauth_hostkey_check, ask_hostkey.
  quiet; auto using quiet_open_in, quiet_open_out, quiet_close, quiet_print_all, quiet_confirm, quiet_dnssec.
Qed.

Lemma quiet_read_answer fuel t f buf n : quiet (read_answer fuel t f buf n).
Proof. revert buf n. induction fuel as [|fuel IH]; intros; cbn [read_answer]; unfold double; quiet. Qed.

Lemma quiet_ask fuel t n e l : quiet (ask fuel t n e l).
Proof. unfold ask. quiet; auto using quiet_open_in, quiet_open_out, quiet_close, quiet_print_all, quiet_read_answer. Qed.

Lemma quiet_gettime msec : quiet (nc_gettimespec_mono_add msec).
Proof. unfold nc_gettimespec_mono_add, timespec_add. quiet. Qed.

Lemma quiet_difftime ts : quiet (nc_difftimespec_mono_cur ts).
Proof. unfold nc_difftimespec_mono_cur. quiet. apply quiet_gettime. Qed.

Lemma quiet_deadline t : quiet (deadline t).
Proof. unfold deadline. quiet. apply quiet_gettime. Qed.

Lemma quiet_expired t : quiet (expired t).
Proof. unfold expired. quiet. apply quiet_difftime. Qed.

Lemma quiet_again {A} fuel ts (op : W → A * W) p : (∀ w, auth_log (op w).2 = auth_log w) → quiet (again fuel ts op p).
Proof.
  intros Hop. induction fuel as [|fuel IH]; cbn [again]; [apply quiet_no_fuel|]. apply quiet_bind; [by apply quiet_call|]. intros r.
  quiet; auto using quiet_expired.
Qed.
End quiet_parts.
#[export] Hint Resolve quiet_hostkey_check quiet_ask quiet_gettime quiet_difftime quiet_deadline quiet_expired : quiet.

Section methods.
Context {W : Type} `{!Env W} `{!TtyEnv W} `{!HostKeyEnv W} `{!SshCliEnv W} `{!AuthLog W}.
Implicit Types w : W.

(** Between [w] and [w'] only credentials of the method [m] were shown, and they
    authenticated the client exactly if [ok]. *)
Definition shown (m : Z) w (ok : bool) w' : Prop :=
  ∃ g, (auth_log w').2 = (auth_log w).2 ++ g ∧ Forall (λ c, cred_method c = m) g ∧ (auth_log w').1 = (auth_log w).1 || ok.

Lemma shown_quiet m w w' : auth_log w' = auth_log w → shown m w false w'.
Proof. intros E. exists []. by rewrite E, app_nil_r, orb_false_r. Qed.

Lemma shown_trans m w ok w1 ok' w2 : shown m w ok w1 → shown m w1 ok' w2 → shown m w (ok || ok') w2.
Proof.
  intros (g & E & Hg & Ho) (g' & E' & Hg' & Ho'). exists (g ++ g'). split_and!.
  - by rewrite E', E, app_assoc.
  - by apply Forall_app.
  - by rewrite Ho', Ho, orb_assoc.
Qed.

Lemma shown_quiet_l m w w1 ok w2 : auth_log w1 = auth_log w → shown m w1 ok w2 → shown m w ok w2.
Proof. intros E H. unfold shown in *. by rewrite E in H. Qed.

Lemma shown_quiet_r m w w1 ok w2 : shown m w ok w1 → auth_log w2 = auth_log w1 → shown m w ok w2.
Proof. intros H E. unfold shown in *. by rewrite E. Qed.

(** A step after one that shows nothing. *)
Lemma post_quiet {A B} (m : M W A) (k : A → M W B) (Q : B → W → Prop) w :
  quiet m → (∀ a w', auth_log w' = auth_log w → post (k a) Q w') → post (m ≫= k) Q w.
Proof. intros Hm Hk. apply post_bind. eapply post_mono; [apply Hm|]. auto. Qed.

(** Repeating an operation that shows a credential. *)
Lemma again_shown fuel ts (op : W → auth_rc * W) m w :
  (∀ w, shown m w (success (op w).1) (op w).2) →
  post (again fuel ts op auth_again) (λ r w', shown m w (success r) w') w.
Proof.
  intros Hop. revert w. induction fuel as [|fuel IH]; intros w; [done|]. cbn [again]. apply post_bind, post_call.
  specialize (Hop w). destruct (op w) as [r w1]; cbn [fst snd] in *. unfold auth_again.
  destruct (bool_decide_reflect (r = SSH_AUTH_AGAIN)) as [->|Hr]; [|by apply post_ret].
  apply post_quiet; [quiet|]. intros _ w2 E2. apply post_quiet; [quiet|]. intros [] w3 E3.
  - apply post_ret. eapply shown_quiet_r; [exact Hop|congruence].
  - eapply post_mono; [apply IH|]. intros r w4 H4. change (success r) with (false || success r).
    eapply shown_trans; [eapply shown_quiet_r; [exact Hop|]|exact H4]. congruence.
Qed.

Lemma one_shown m c w w' b : cred_method c = m → auth_log w' = ((auth_log w).1 || b, (auth_log w).2 ++ [c]) → shown m w b w'.
Proof. intros Hc E. exists [c]. rewrite E. by repeat constructor. Qed.

Lemma password_shown u p w : shown NC_SSH_AUTH_PASSWORD w (success (cli_auth_password u p w).1) (cli_auth_password u p w).2.
Proof. pose proof (log_password u p w) as H. destruct (cli_auth_password u p w). by eapply one_shown; [|exact H]. Qed.

Lemma kbdint_shown w : shown NC_SSH_AUTH_INTERACTIVE w (success (cli_auth_kbdint w).1) (cli_auth_kbdint w).2.
Proof. pose proof (log_kbdint w) as H. destruct (cli_auth_kbdint w). by eapply one_shown; [|exact H]. Qed.

Lemma publickey_shown k w : shown NC_SSH_AUTH_PUBLICKEY w (success (cli_auth_publickey k w).1) (cli_auth_publickey k w).2.
Proof. pose proof (log_publickey k w) as H. destruct (cli_auth_publickey k w). by eapply one_shown; [|exact H]. Qed.

Lemma quiet_auth_password fuel o u h : quiet (auth_password fuel o u h).
Proof. unfold auth_password, sshauth_password. quiet. Qed.

Lemma quiet_auth_interactive fuel o n i p e : quiet (auth_interactive fuel o n i p e).
Proof. unfold auth_interactive, sshauth_interactive. quiet. Qed.

Lemma quiet_passphrase fuel o p : quiet (auth_privkey_passphrase fuel o p).
Proof. unfold auth_privkey_passphrase, sshauth_privkey_passphrase. quiet. Qed.

Lemma quiet_answer_prompts fuel o j : quiet (answer_prompts fuel o j).
Proof. revert j. induction fuel as [|fuel IH]; intros j; cbn [answer_prompts]; quiet. apply quiet_auth_interactive. Qed.

Definition ok_of (r : option auth_rc) : bool := match r with Some r => success r | None => false end.

Lemma try_password_post fuel s o t w :
  post (try_password fuel s o t) (λ r w', shown NC_SSH_AUTH_PASSWORD w (ok_of r) w') w.
Proof.
  apply post_quiet; [apply quiet_auth_password|]. intros [p|] w1 E1; [|by apply post_ret, shown_quiet].
  apply post_quiet; [quiet|]. intros ts w2 E2. apply post_bind. eapply post_mono; [apply again_shown; apply password_shown|].
  intros r w3 H3. apply post_ret. eapply shown_quiet_l; [|exact H3]. congruence.
Qed.

Lemma try_kbdint_post fuel o t ts w :
  post (try_kbdint fuel o t ts) (λ r w', shown NC_SSH_AUTH_INTERACTIVE w (success r) w') w.
Proof.
  revert ts w. induction fuel as [|fuel IH]; intros ts w; [done|]. cbn [try_kbdint]. apply post_bind, post_call.
  pose proof (kbdint_shown w) as H1. destruct (cli_auth_kbdint w) as [r w1]; cbn [fst snd] in *.
  assert (Hnext : ∀ ts w2, auth_log w2 = auth_log w1 → success r = false →
    post (try_kbdint fuel o t ts) (λ r w', shown NC_SSH_AUTH_INTERACTIVE w (success r) w') w2).
  { intros ts' w2 E2 Hr. eapply post_mono; [apply IH|]. intros r' w' H'. change (success r') with (false || success r').
    rewrite <- Hr. eapply shown_trans; [exact H1|]. by eapply shown_quiet_l. }
  destruct r; try (by apply post_ret).
  - apply post_quiet; [apply quiet_answer_prompts|]. intros [] w2 E2; cbn [negb].
    + apply post_quiet; [quiet|]. intros ts' w3 E3. apply Hnext; [congruence|done].
    + apply post_ret. by eapply shown_quiet_r.
  - apply post_quiet; [quiet|]. intros _ w2 E2. apply post_quiet; [quiet|]. intros [] w3 E3.
    + apply post_ret. eapply shown_quiet_r; [exact H1|congruence].
    + apply Hnext; [congruence|done].
Qed.

Lemma probe_shown fuel ts k w :
  post (again fuel ts (cli_try_publickey k) auth_again) (λ _ w', shown NC_SSH_AUTH_PUBLICKEY w false w') w.
Proof.
  revert w. induction fuel as [|fuel IH]; intros w; [done|]. cbn [again]. apply post_bind, post_call.
  assert (H1 : shown NC_SSH_AUTH_PUBLICKEY w false (cli_try_publickey k w).2).
  { eapply (one_shown _ (CredProbe k)); [done|]. by rewrite log_probe, orb_false_r. }
  destruct (cli_try_publickey k w) as [r w1]; cbn [fst snd] in *. destruct (auth_again r); [|by apply post_ret].
  apply post_quiet; [quiet|]. intros _ w2 E2. apply post_quiet; [quiet|]. intros [] w3 E3.
  - apply post_ret. eapply shown_quiet_r; [exact H1|congruence].
  - eapply post_mono; [apply IH|]. intros r4 w4 H4. change false with (false || false).
    eapply shown_trans; [eapply shown_quiet_r; [exact H1|]|exact H4]. congruence.
Qed.

(** Some private key cannot be imported. *)
Definition unusable_key : Prop :=
  ∃ p s w, (cli_import_privkey p s w).1 = SSH_EOF ∨ (cli_import_privkey p s w).1 = SSH_ERROR.

(** What the public key method does, starting with the result [ret]. *)
Definition keys_post (ret : auth_rc) w (r : auth_rc) w' : Prop :=
  ∃ ok, shown NC_SSH_AUTH_PUBLICKEY w ok w' ∧ (ok = true → r = SSH_AUTH_SUCCESS) ∧
    (r = SSH_AUTH_SUCCESS → ok = true ∨ unusable_key ∨ ret = SSH_AUTH_SUCCESS).

Lemma keys_post_after ret ret' w w1 r w' :
  shown NC_SSH_AUTH_PUBLICKEY w false w1 → (ret' = SSH_AUTH_SUCCESS → unusable_key ∨ ret = SSH_AUTH_SUCCESS) →
  keys_post ret' w1 r w' → keys_post ret w r w'.
Proof.
  intros H1 Hret (ok & H2 & Ha & Hb). exists ok. split; [by apply (shown_trans _ _ false _ ok _ H1)|]. split; [done|].
  intros Hr. destruct (Hb Hr) as [?|[?|Hr']]; auto.
Qed.

Lemma keys_post_end ret w r w' : shown NC_SSH_AUTH_PUBLICKEY w (success r) w' → keys_post ret w r w'.
Proof.
  intros H. exists (success r). unfold success in *. split; [done|]. split; [by intros ?%bool_decide_eq_true|].
  intros ->. left. by apply bool_decide_eq_true.
Qed.

Lemma try_keys_post fuel o t l ret w : post (try_keys fuel o t l ret) (keys_post ret w) w.
Proof.
  revert ret w. induction l as [|k l IH]; intros ret w.
  { apply post_ret. exists false. split; [by apply shown_quiet|]. split; [done|]. intros ->. auto. }
  assert (Hnext : ∀ ret' w1, shown NC_SSH_AUTH_PUBLICKEY w false w1 → (ret' = SSH_AUTH_SUCCESS → unusable_key ∨ ret = SSH_AUTH_SUCCESS) →
    post (try_keys fuel o t l ret') (keys_post ret w) w1).
  { intros ret' w1 H1 Hret. eapply post_mono; [apply IH|]. intros r w'. by apply keys_post_after. }
  cbn [try_keys]. apply post_quiet; [quiet|]. intros rc w1 E1.
  assert (G : post (ts ← deadline t; ret_auth ← again fuel ts (cli_try_publickey (pubkey_path k)) auth_again;
    match ret_auth with
    | SSH_AUTH_DENIED => try_keys fuel o t l ret_auth
    | SSH_AUTH_SUCCESS =>
      s ← (if privkey_crypt k then auth_privkey_passphrase fuel o (privkey_path k) else mret None);
      r ← call (cli_import_privkey (privkey_path k) s);
      match r with
      | SSH_EOF | SSH_ERROR => try_keys fuel o t l ret_auth
      | _ =>
        ts ← deadline t;
        ret_auth ← again fuel ts (cli_auth_publickey (privkey_path k)) auth_again;
        match ret_auth with
        | SSH_AUTH_DENIED => try_keys fuel o t l ret_auth
        | _ => mret ret_auth
        end
      end
    | _ => mret ret_auth
    end) (keys_post ret w) w1).
  2: { destruct rc; try exact G; (apply Hnext; [by apply shown_quiet|auto]). }
  apply post_quiet; [quiet|]. intros ts w2 E2. apply post_bind. eapply post_mono; [apply probe_shown|]. intros r w3 H3.
  assert (H3' : shown NC_SSH_AUTH_PUBLICKEY w false w3) by (eapply shown_quiet_l; [|exact H3]; congruence).
  destruct r; try (apply post_ret; exists false; by split_and!; [|done|intros [=]]); [|by apply Hnext].
  apply post_quiet; [destruct (privkey_crypt k); [apply quiet_passphrase|quiet]|]. intros pw w4 E4. apply post_bind, post_call.
  pose proof (log_import_privkey (privkey_path k) pw w4) as E5.
  destruct (cli_import_privkey (privkey_path k) pw w4) as [rc' w5] eqn:Ei; cbn [fst snd] in *.
  assert (H5 : shown NC_SSH_AUTH_PUBLICKEY w false w5) by (eapply shown_quiet_r; [exact H3'|congruence]).
  assert (Hbad : rc' = SSH_EOF ∨ rc' = SSH_ERROR → unusable_key) by (intros Hrc; eexists _, _, _; by rewrite Ei).
  assert (G : post (ts ← deadline t; ret_auth ← again fuel ts (cli_auth_publickey (privkey_path k)) auth_again;
    match ret_auth with SSH_AUTH_DENIED => try_keys fuel o t l ret_auth | _ => mret ret_auth end) (keys_post ret w) w5).
  2: { destruct rc'; try exact G; (apply Hnext; [done|auto]). }
  apply post_quiet; [quiet|]. intros ts' w6 E6. apply post_bind. eapply post_mono; [apply again_shown; apply publickey_shown|].
  intros r w7 H7.
  assert (H7' : shown NC_SSH_AUTH_PUBLICKEY w (success r) w7).
  { change (success r) with (false || success r). eapply shown_trans; [eapply shown_quiet_r; [exact H5|exact E6]|exact H7]. }
  destruct r; try (by apply post_ret, keys_post_end). by apply Hnext.
Qed.

Lemma try_publickey_post fuel o t ret w : ret ≠ SSH_AUTH_SUCCESS →
  post (try_publickey fuel o t ret) (λ r w', ∃ ok, shown NC_SSH_AUTH_PUBLICKEY w ok w' ∧ (ok = true → r = SSH_AUTH_SUCCESS) ∧
    (r = SSH_AUTH_SUCCESS → ok = true ∨ unusable_key)) w.
Proof.
  intros Hret. unfold try_publickey. destruct (_ =? _).
  { apply post_ret. exists false. split; [by apply shown_quiet|]. by split. }
  destruct (so_keys o) as [l|]; [|done]. apply post_bind. unfold guarded. destruct (_ <=? _); [|done]. apply post_ret.
  eapply post_mono; [apply try_keys_post|]. intros r w' (ok & H1 & H2 & H3). exists ok. split; [done|]. split; [done|].
  intros Hr. destruct (H3 Hr) as [?|[?|?]]; auto.
Qed.
End methods.

(** ** The order of methods *)

(** The flag of libssh for a method. *)
Definition method_flag (m : Z) : Z :=
  if m =? NC_SSH_AUTH_INTERACTIVE then LIBSSH_INTERACTIVE
  else if m =? NC_SSH_AUTH_PASSWORD then LIBSSH_PASSWORD else LIBSSH_PUBLICKEY.

Definition is_method (m : Z) : Prop := m = NC_SSH_AUTH_INTERACTIVE ∨ m = NC_SSH_AUTH_PASSWORD ∨ m = NC_SSH_AUTH_PUBLICKEY.

(** The methods chosen one after the other from a list of flags. *)
Inductive tries (o : nc_client_ssh_opts) : Z → list Z → Prop :=
| tries_nil ul : tries o ul []
| tries_cons ul ms : next_method o ul ≠ 0 → tries o (drop_method ul (method_flag (next_method o ul))) ms →
    tries o ul (next_method o ul :: ms).

(** A flag is a power of two. *)
Lemma has_method_bit ul n : 0 ≤ n → has_method ul (2 ^ n) = Z.testbit ul n.
Proof.
  intros Hn. unfold has_method. assert (E : Z.land ul (2 ^ n) = if Z.testbit ul n then 2 ^ n else 0).
  { apply Z.bits_inj'. intros k Hk. rewrite Z.land_spec, Z.pow2_bits_eqb by done.
    destruct (Z.eqb_spec n k) as [->|]; [|rewrite andb_false_r; destruct (Z.testbit ul n); by rewrite ?Z.pow2_bits_false, ?Z.bits_0].
    rewrite andb_true_r. destruct (Z.testbit ul k); [by rewrite Z.pow2_bits_true|by rewrite Z.bits_0]. }
  rewrite E. destruct (Z.testbit ul n); [|done]. pose proof (Z.pow_pos_nonneg 2 n). destruct (Z.eqb_spec (2 ^ n) 0); [lia|done].
Qed.

Lemma drop_method_bit ul n k : 0 ≤ n → 0 ≤ k → Z.testbit (drop_method ul (2 ^ n)) k = Z.testbit ul k && negb (n =? k).
Proof. intros Hn Hk. unfold drop_method. by rewrite Z.land_spec, Z.lnot_spec, Z.pow2_bits_eqb by done. Qed.

(** The bit of a method. *)
Definition method_bit (m : Z) : Z := if m =? NC_SSH_AUTH_INTERACTIVE then 4 else if m =? NC_SSH_AUTH_PASSWORD then 1 else 2.

Lemma method_flag_bit m : method_flag m = 2 ^ method_bit m.
Proof. unfold method_flag, method_bit. by destruct (m =? _); [|destruct (m =? _)]. Qed.

Lemma method_bit_nonneg m : 0 ≤ method_bit m.
Proof. unfold method_bit. destruct (m =? _); [lia|]. destruct (m =? _); lia. Qed.

Lemma method_bit_inj m m' : is_method m → is_method m' → method_bit m = method_bit m' → m = m'.
Proof. intros [->|[->| ->]] [->|[->| ->]]; done. Qed.

Definition method_offered (ul m : Z) : bool := has_method ul (method_flag m).

Lemma offered_bit ul m : method_offered ul m = Z.testbit ul (method_bit m).
Proof. unfold method_offered. rewrite method_flag_bit. apply has_method_bit, method_bit_nonneg. Qed.

Lemma offered_drop ul m m' : is_method m → is_method m' →
  method_offered (drop_method ul (method_flag m)) m' = method_offered ul m' && negb (bool_decide (m = m')).
Proof.
  intros Hm Hm'. rewrite !offered_bit, method_flag_bit, drop_method_bit by apply method_bit_nonneg. f_equal. f_equal.
  apply eq_true_iff_eq. rewrite Z.eqb_eq, bool_decide_eq_true. split; [by apply method_bit_inj|by intros ->].
Qed.

(** The method chosen is method_offered, and none that is method_offered is preferred to it. *)
Lemma next_method_spec o ul : next_method o ul ≠ 0 →
  is_method (next_method o ul) ∧ method_offered ul (next_method o ul) = true ∧
  ∀ m, is_method m → method_offered ul m = true → pref_of o m ≤ pref_of o (next_method o ul).
Proof.
  unfold next_method.
  change (has_method ul LIBSSH_INTERACTIVE) with (method_offered ul NC_SSH_AUTH_INTERACTIVE).
  change (has_method ul LIBSSH_PASSWORD) with (method_offered ul NC_SSH_AUTH_PASSWORD).
  change (has_method ul LIBSSH_PUBLICKEY) with (method_offered ul NC_SSH_AUTH_PUBLICKEY).
  assert (Ei : pref_of o NC_SSH_AUTH_INTERACTIVE = pref_interactive o) by done.
  assert (Ep : pref_of o NC_SSH_AUTH_PASSWORD = pref_password o) by done.
  assert (Ek : pref_of o NC_SSH_AUTH_PUBLICKEY = pref_publickey o) by done.
  destruct (method_offered ul NC_SSH_AUTH_INTERACTIVE) eqn:Oi, (method_offered ul NC_SSH_AUTH_PASSWORD) eqn:Op,
    (method_offered ul NC_SSH_AUTH_PUBLICKEY) eqn:Ok; cbn [andb];
    repeat match goal with |- context [?a <? ?b] => destruct (Z.ltb_spec a b) end; intros Hn; try done;
    (split; [unfold is_method; tauto|]; split; [done|]; intros m [->|[->| ->]] Ho; rewrite ?Ei, ?Ep, ?Ek; congruence || lia).
Qed.

(** Properties of the methods tried. *)
Lemma tries_spec o ul ms : tries o ul ms →
  NoDup ms ∧ Forall (λ m, is_method m ∧ method_offered ul m = true) ms ∧ StronglySorted (λ a b, pref_of o b ≤ pref_of o a) ms.
Proof.
  induction 1 as [ul|ul ms Hn _ (Hd & Hf & Hs)]; [by repeat constructor|].
  destruct (next_method_spec o ul Hn) as (Hm & Ho & Hmax). rewrite list.Forall_forall in Hf.
  assert (Hrest : ∀ m, m ∈ ms → is_method m ∧ method_offered ul m = true ∧ m ≠ next_method o ul).
  { intros m Hin. destruct (Hf m Hin) as [Hm' Ho']. rewrite offered_drop in Ho' by done. apply andb_true_iff in Ho' as [? Hne].
    split_and!; [done..|]. intros ->. by rewrite bool_decide_true in Hne. }
  split_and!.
  - constructor; [|done]. intros Hin. by destruct (Hrest _ Hin) as (_ & _ & ?).
  - constructor; [done|]. apply list.Forall_forall. intros m Hin. by destruct (Hrest _ Hin) as (? & ? & _).
  - constructor; [done|]. apply list.Forall_forall. intros m Hin. destruct (Hrest _ Hin) as (? & ? & _). by apply Hmax.
Qed.

(** A disabled method is not method_offered any more. *)
Lemma enabled_spec o ul m : is_method m → method_offered (enabled_methods o ul) m = true → method_offered ul m = true ∧ 0 ≤ pref_of o m.
Proof.
  unfold enabled_methods. change LIBSSH_INTERACTIVE with (method_flag NC_SSH_AUTH_INTERACTIVE).
  change LIBSSH_PASSWORD with (method_flag NC_SSH_AUTH_PASSWORD). change LIBSSH_PUBLICKEY with (method_flag NC_SSH_AUTH_PUBLICKEY).
  set (i := NC_SSH_AUTH_INTERACTIVE). set (p := NC_SSH_AUTH_PASSWORD). set (k := NC_SSH_AUTH_PUBLICKEY).
  assert (Hi : is_method i) by (by left). assert (Hp : is_method p) by (by right; left). assert (Hk : is_method k) by (by right; right).
  change (pref_interactive o) with (pref_of o i). change (pref_password o) with (pref_of o p). change (pref_publickey o) with (pref_of o k).
  intros Hm. destruct (Z.ltb_spec (pref_of o i) 0), (Z.ltb_spec (pref_of o p) 0), (Z.ltb_spec (pref_of o k) 0);
    rewrite ?offered_drop by done; rewrite ?andb_true_iff; intros Ho;
    (split; [tauto|]); destruct Hm as [->|[->| ->]]; try done; exfalso; naive_solver.
Qed.

(** ** The whole of it *)

Section session.
Context {W : Type} `{!Env W} `{!TtyEnv W} `{!HostKeyEnv W} `{!SshCliEnv W} `{!AuthLog W}.
Implicit Types w : W.

(** The credentials shown from [w] to [w'] are, method by method, those of [ms]. *)
Definition shown_by (ms : list Z) w w' : Prop :=
  ∃ gs, (auth_log w').2 = (auth_log w).2 ++ concat gs ∧ Forall2 (λ m g, Forall (λ c, cred_method c = m) g) ms gs.

(** The result says whether the server has authenticated the client. *)
Definition truthful w (r : Z) w' : Prop :=
  (r = 1 → (auth_log w').1 = true ∨ unusable_key) ∧ (r ≠ 1 → (auth_log w').1 = (auth_log w).1).

Definition tried (o : nc_client_ssh_opts) (ul : Z) w (r : Z) w' : Prop :=
  ∃ ms, tries o ul ms ∧ shown_by ms w w' ∧ truthful w r w'.

Lemma tried_nothing o ul w r : r ≠ 1 → tried o ul w r w.
Proof. intros Hr. exists []. split; [constructor|]. split; [exists []; by rewrite app_nil_r|]. by split. Qed.

(** The method chosen was tried, with the outcome [ok], and then perhaps others. *)
Lemma tried_step o ul w ok w1 r w' :
  next_method o ul ≠ 0 → shown (next_method o ul) w ok w1 →
  (ok = true → r = 1 ∧ w' = w1) →
  (ok = false → tried o (drop_method ul (method_flag (next_method o ul))) w1 r w' ∨ (w' = w1 ∧ (r = 1 → unusable_key))) →
  tried o ul w r w'.
Proof.
  intros Hn (g & E & Hg & Ho) Ht Hf.
  assert (Hone : ∀ w'', w'' = w1 → truthful w r w'' → tried o ul w r w'').
  { intros w'' -> Htr. exists [next_method o ul]. split; [by repeat constructor|]. split; [|done]. exists [g]. cbn. rewrite app_nil_r.
    split; [done|]. by repeat constructor. }
  destruct ok.
  - destruct (Ht eq_refl) as [-> ->]. apply Hone; [done|]. split; [|done]. intros _. left. by rewrite Ho, orb_true_r.
  - rewrite orb_false_r in Ho. destruct (Hf eq_refl) as [(ms & Hms & (gs & Egs & Hgs) & H1 & H2)|[-> Hr]].
    + exists (next_method o ul :: ms). split; [by constructor|]. split; [|split; [done|intros Hr; rewrite H2 by done; done]].
      exists (g :: gs). cbn. rewrite Egs, E, app_assoc. split; [done|]. by constructor.
    + apply Hone; [done|]. split; [|done]. intros H1. right. by apply Hr.
Qed.

Lemma try_methods_post fuel s o t ul ret w : ret ≠ SSH_AUTH_SUCCESS →
  post (try_methods fuel s o t ul ret) (λ r w', tried o ul w r w') w.
Proof.
  revert ul ret w. induction fuel as [|fuel IH]; intros ul ret w Hret; [done|]. cbn [try_methods].
  destruct (Z.eqb_spec (next_method o ul) 0) as [E|Hn]; [by apply post_ret, tried_nothing|].
  destruct (next_method_spec o ul Hn) as (Hm & _ & _). apply post_bind.
  assert (G : post (if next_method o ul =? NC_SSH_AUTH_PASSWORD then
      r ← try_password fuel s o t; mret (drop_method ul LIBSSH_PASSWORD, r)
    else if next_method o ul =? NC_SSH_AUTH_INTERACTIVE then
      ts ← deadline t;
      r ← try_kbdint fuel o t ts; mret (drop_method ul LIBSSH_INTERACTIVE, Some r)
    else r ← try_publickey fuel o t ret; mret (drop_method ul LIBSSH_PUBLICKEY, Some r))
    (λ '(ul', r) w1, ul' = drop_method ul (method_flag (next_method o ul)) ∧ ∃ ok, shown (next_method o ul) w ok w1 ∧
      (ok = true → r = Some SSH_AUTH_SUCCESS) ∧ (r = Some SSH_AUTH_SUCCESS → ok = true ∨ unusable_key)) w).
  { destruct Hm as [->|[->| ->]]; cbn [Z.eqb Pos.eqb].
    - apply post_quiet; [quiet|]. intros ts w1 E1. apply post_bind. eapply post_mono; [apply try_kbdint_post|]. intros r w2 H2.
      apply post_ret. split; [done|]. exists (success r). split; [by eapply shown_quiet_l|]. unfold success.
      split; [by intros ->%bool_decide_eq_true|intros [= ->]; auto].
    - apply post_bind. eapply post_mono; [apply try_password_post|]. intros r w2 H2. apply post_ret. split; [done|].
      exists (ok_of r). split; [done|]. destruct r as [r|]; cbn; unfold success; [|done].
      split; [by intros ->%bool_decide_eq_true|intros [= ->]; auto].
    - apply post_bind. eapply post_mono; [by apply try_publickey_post|]. intros r w2 (ok & H2 & H3 & H4). apply post_ret.
      split; [done|]. exists ok. split; [done|]. split; [intros Hok; f_equal; auto|intros [= ->]; auto]. }
  eapply post_mono; [exact G|]. clear G. intros [ul' r] w1 [-> (ok & H1 & H2 & H3)].
  assert (Hend : ∀ x, r ≠ Some SSH_AUTH_SUCCESS → x ≠ 1 → tried o ul w x w1).
  { intros x Hr Hx. destruct ok; [by specialize (H2 eq_refl)|]. by apply (tried_step o ul w false w1); [..|right]. }
  destruct r as [r|]; [|by apply post_ret, Hend]. destruct r; try (by apply post_ret, Hend).
  - apply post_ret. apply (tried_step o ul w ok w1); [done..|]. intros ->. right. split; [done|]. intros _. by destruct (H3 eq_refl).
  - destruct ok; [by specialize (H2 eq_refl)|]. eapply post_mono; [by apply IH|]. intros r w2 H. apply (tried_step o ul w false w1); auto. done.
  - destruct ok; [by specialize (H2 eq_refl)|]. eapply post_mono; [by apply IH|]. intros r w2 H. apply (tried_step o ul w false w1); auto. done.
Qed.
End session.

Section sound.
Context {W : Type} `{!Env W} `{!TtyEnv W} `{!HostKeyEnv W} `{!SshCliEnv W} `{!AuthLog W}.
Implicit Types w : W.

(** The methods tried are those a server offers and the options enable, each at most
    once, the preferred ones first. *)
Definition allowed_methods (o : nc_client_ssh_opts) (ul : Z) (ms : list Z) : Prop :=
  NoDup ms ∧ Forall (λ m, is_method m ∧ method_offered ul m = true ∧ 0 ≤ pref_of o m) ms ∧
  StronglySorted (λ a b, pref_of o b ≤ pref_of o a) ms.

Lemma tries_allowed o ul ms : tries o (enabled_methods o ul) ms → allowed_methods o ul ms.
Proof.
  intros (Hd & Hf & Hs)%tries_spec. split_and!; [done| |done]. eapply Forall_impl; [|exact Hf]. cbn. intros m [Hm Ho].
  split; [done|]. by apply enabled_spec.
Qed.

Lemma none_again fuel ts w :
  post (again fuel ts cli_auth_none auth_again) (λ r w', auth_log w' = ((auth_log w).1 || success r, (auth_log w).2)) w.
Proof.
  revert w. induction fuel as [|fuel IH]; intros w; [done|]. cbn [again]. apply post_bind, post_call.
  pose proof (log_none w) as H1. destruct (cli_auth_none w) as [r w1]; cbn [fst snd] in *. unfold auth_again.
  destruct (bool_decide_reflect (r = SSH_AUTH_AGAIN)) as [->|Hr]; [|by apply post_ret].
  apply post_quiet; [quiet|]. intros _ w2 E2. apply post_quiet; [quiet|]. intros [] w3 E3.
  - apply post_ret. congruence.
  - eapply post_mono; [apply IH|]. intros r w4 H4. rewrite H4, E3, E2, H1. cbn. by rewrite orb_false_r.
Qed.

(** The outcome of authentication from [w] on. *)
Definition authenticated_by (o : nc_client_ssh_opts) w (r : Z) w' : Prop :=
  ∃ wl ms, allowed_methods o (cli_auth_list wl).1 ms ∧ shown_by ms w w' ∧ truthful w r w'.

Lemma authenticate_post fuel s o t w : post (authenticate fuel s o t) (authenticated_by o w) w.
Proof.
  assert (Hnone : ∀ r w', auth_log w' = auth_log w ∧ r ≠ 1 ∨ auth_log w' = (true, (auth_log w).2) ∧ r = 1 → authenticated_by o w r w').
  { intros r w' H. exists w, []. split; [by repeat constructor|]. split.
    - exists []. rewrite app_nil_r. split; [|constructor]. by destruct H as [[-> _]|[-> _]].
    - unfold truthful. destruct H as [[-> ?]|[-> ->]]; split; try done. by left. }
  apply post_quiet; [quiet|]. intros ts w1 E1. apply post_bind. eapply post_mono; [apply none_again|]. intros r w2 E2.
  rewrite E1 in E2. destruct r; cbn [success] in E2.
  1: { apply post_ret, Hnone. right. rewrite E2. unfold success. by rewrite orb_true_r. }
  4, 5: apply post_ret, Hnone; left; rewrite E2; unfold success; cbn; rewrite orb_false_r; split; [by destruct (auth_log w)|done].
  all: rewrite orb_false_r in E2; apply post_bind, post_call; pose proof (log_list w2) as E3; destruct (cli_auth_list w2) as [ul w3] eqn:El;
    cbn [fst snd] in *; (eapply post_mono; [by apply try_methods_post|]); intros r w4 (ms & Hms & (gs & Egs & Hgs) & Ht1 & Ht2);
    rewrite E3, E2 in *; cbn [fst snd] in *; exists w2, ms; rewrite El; (split; [by apply tries_allowed|]); (split; [by exists gs|]);
    by split.
Qed.

Lemma quiet_check d fuel o h : quiet (auth_hostkey_check d fuel o h).
Proof. unfold auth_hostkey_check. quiet. Qed.

(** Connecting shows nothing, and goes on only with a host key that was accepted. *)
Lemma connect_and_check_post d fuel s o w : post (connect_and_check d fuel s o)
  (λ r w', auth_log w' = auth_log w ∧ (r = 1 → ∃ w0, auth_hostkey_check d fuel o (host s) w0 = Done (0, w'))) w.
Proof.
  apply post_quiet; [quiet|]. intros ts w1 E1. apply post_quiet; [apply quiet_again; intros; apply log_connect|].
  intros [] w2 E2; try (by apply post_ret; split; [congruence|]). apply post_bind. pose proof (quiet_check d fuel o (host s) w2) as H.
  unfold post in *. destruct (auth_hostkey_check d fuel o (host s) w2) as [[r w3]| |] eqn:E; [|done..]. cbn. split; [congruence|].
  destruct (Z.eqb_spec r 0) as [->|]; [|done]. intros _. by exists w2.
Qed.
End sound.

(** C6: A client gives its credentials only to a host whose key was accepted, and reports
    success only truthfully.  When [connect_ssh_session] returns, either no credential was
    shown and it failed, or the callback for host keys has accepted the host, and then: every credential belongs to
    a method the server offers and the options enable, each method is used once, the preferred ones first; the
    result is 1 only if the server has authenticated the client (or a private key cannot be
    imported, see [success_without_key]), and after any other result the client is as authenticated as before. *)
Theorem client_auth_sound {W} `{!Env W} `{!TtyEnv W} `{!HostKeyEnv W} `{!SshCliEnv W} `{!AuthLog W}
    d fuel s o timeout (w : W) r w' :
  connect_ssh_session d fuel s o timeout w = Done (r, w') →
  (auth_log w' = auth_log w ∧ r ≠ 1) ∨
  (∃ w0 w1, auth_hostkey_check d fuel o (host s) w0 = Done (0, w1) ∧ auth_log w1 = auth_log w ∧ authenticated_by o w1 r w').
Proof.
  intros E. assert (G : post (connect_ssh_session d fuel s o timeout) (λ r w', (auth_log w' = auth_log w ∧ r ≠ 1) ∨
    (∃ w0 w1, auth_hostkey_check d fuel o (host s) w0 = Done (0, w1) ∧ auth_log w1 = auth_log w ∧ authenticated_by o w1 r w')) w).
  2: { unfold post in G. by rewrite E in G. }
  apply post_bind. eapply post_mono; [apply connect_and_check_post|]. intros r1 w1 [E1 H1].
  destruct (Z.eqb_spec r1 1) as [->|Hr]; cbn [negb]; [|apply post_ret; by left]. destruct (H1 eq_refl) as [w0 E0].
  eapply post_mono; [apply authenticate_post|]. intros r2 w2 H2. right. eauto.
Qed.

(** ** The simulated server *)

#[export] Instance desk_log : AuthLog desk.
Proof.
  refine {| auth_log := dk_log |}; try done; intros; cbn.
  - by destruct (dk_fds w !! f).
  - by destruct (dk_input w).
  - unfold desk_word. by destruct (dk_input w).
  - rewrite orb_false_r. by destruct (dk_log w).
  - by destruct (bool_decide _).
  - by rewrite orb_false_r.
Defined.

(** Options with one key pair and a callback for passwords and host keys. *)
Definition demo_ssh_opts : nc_client_ssh_opts :=
  NcClientSshOpts 1 2 3 (Some [Keypair (Some (str "b.pub")) (Some (str "b")) false]) 1 (AuthClb (Some 1) 0) (AuthClb (Some 1) 0)
    (AuthClb None 0) (AuthClb None 0) None.

Definition demo_cli_session : nc_session := set_username (Some (str "bob")) (set_ti (TiLibssh false None) zero_session).

(** A server that knows the password the application gives. *)
Definition password_server : ssh_server := SshServer SSH_KNOWN_HOSTS_OK SSH_KEYTYPE_RSA 18 (str "guess") [] [].

Lemma client_auth_sound_witness : ∃ w',
  connect_ssh_session false 20 demo_cli_session demo_ssh_opts 1000 (demo_desk password_server []) = Done (1, w') ∧
  auth_log w' = (true, [CredPassword (str "guess")]) ∧
  ∃ w0 w1, auth_hostkey_check false 20 demo_ssh_opts None w0 = Done (0, w1) ∧ authenticated_by demo_ssh_opts w1 1 w'.
Proof.
  destruct (connect_ssh_session false 20 demo_cli_session demo_ssh_opts 1000 (demo_desk password_server [])) as [[r w']| |] eqn:E.
  2, 3: exfalso; vm_compute in E; discriminate.
  assert (H : match connect_ssh_session false 20 demo_cli_session demo_ssh_opts 1000 (demo_desk password_server []) with
    | Done (r, w') => (r, auth_log w') | _ => (0, (false, [])) end = (1, (true, [CredPassword (str "guess")])))
    by (vm_compute; reflexivity).
  rewrite E in H. injection H as -> HL. exists w'. split; [reflexivity|]. split; [exact HL|].
  destruct (client_auth_sound false 20 demo_cli_session demo_ssh_opts 1000 (demo_desk password_server []) 1 w' E)
    as [[_ H]|(w0 & w1 & H1 & _ & H2)]; [done|]. by exists w0, w1.
Defined.

(** A client can report success without being authenticated: when the server accepts
    a public key of which the private key cannot be imported, the loop over the key pairs goes on with the result of the
    question, and if it is the last pair the result is taken for success of the authentication. *)
Theorem success_without_key : ∃ w',
  connect_ssh_session false 20 demo_cli_session demo_ssh_opts 1000 (demo_desk demo_server []) = Done (1, w') ∧
  auth_log w' = (false, [CredProbe (Some (str "b.pub"))]).
Proof.
  destruct (connect_ssh_session false 20 demo_cli_session demo_ssh_opts 1000 (demo_desk demo_server [])) as [[r w']| |] eqn:E.
  2, 3: exfalso; vm_compute in E; discriminate.
  assert (H : match connect_ssh_session false 20 demo_cli_session demo_ssh_opts 1000 (demo_desk demo_server []) with
    | Done (r, w') => (r, auth_log w') | _ => (0, (true, [])) end = (1, (false, [CredProbe (Some (str "b.pub"))])))
    by (vm_compute; reflexivity).
  rewrite E in H. injection H as -> HL. by exists w'.
Qed.

(** A password with the preference 0 is never tried, although only negative
    preferences disable a method. *)
Theorem preference_zero_disabled o ul :
  pref_password o = 0 → 0 ≤ pref_interactive o → next_method o ul ≠ NC_SSH_AUTH_PASSWORD.
Proof.
  intros Hp Hi. unfold next_method. rewrite Hp.
  destruct (has_method ul LIBSSH_INTERACTIVE), (has_method ul LIBSSH_PASSWORD); cbn [andb];
    repeat match goal with |- context [?a <? ?b] => destruct (Z.ltb_spec a b) end; try lia;
    destruct (has_method ul LIBSSH_PUBLICKEY); cbn [andb]; repeat match goal with |- context [if ?b then _ else _] => destruct b end; done.
Qed.
