(* ===== verification/ModuleInfo.v ===== *)
(** * What a client knows about the modules of a server

    src/session_client.c: the list of modules of a server, built from the capabilities
    of its hello message or from its ietf-yang-library data.  Lists end with an element
    without a name, so that a name that could not be copied cuts the list. *)

From S2P Require Import Prelude Session Env Capabilities ClientRecv.
From Stdlib Require Import ZArith Ascii String Lia.
From stdpp Require Import base list strings gmap numbers.
Open Scope Z_scope.

(** [struct module_info].  The arrays are their slots before the terminating one. *)
Record module_info := ModuleInfo {
  mi_name : option bytes;
  mi_revision : option bytes;
  mi_submodules : option (list (option bytes * option bytes));
  mi_features : option (list (option bytes));
  mi_implemented : bool;
}.

(** An element after [calloc]. *)
Definition no_info : module_info := ModuleInfo None None None None false.

(** The elements of an array of strings before the first [NULL]. *)
Fixpoint until_null {A} (l : list (option A)) : list A :=
  match l with
  | Some x :: l => x :: until_null l
  | _ => []
  end.

(** The elements that a loop over the list sees. *)
Fixpoint listed (l : list module_info) : list (bytes * module_info) :=
  match l with
  | m :: l => match mi_name m with Some n => (n, m) :: listed l | None => [] end
  | [] => []
  end.

(** ** The capabilities *)

Definition not_amp (c : ascii) : bool := negb (bool_decide (c = "&"%char)).

(** The text up to the next ampersand. *)
Definition up_to_amp (s : bytes) : bytes := (span not_amp s).1.

(** The value of a parameter: the text behind the first occurrence of [name]. *)
Definition cpblt_param (s name : bytes) : option bytes := drop (length name) <$> strstr s name.

Section cpblts.
Context {W : Type} `{!Env W}.

(** The array grows by one; [nc_realloc] is not checked. *)
Definition add_feature (fs : list (option bytes)) (s : bytes) : M W (list (option bytes)) :=
  ok ← call (malloc_ok ((zlen fs + 2) * 8));
  _ ← guarded ok;
  d ← strdup s;
  mret (fs ++ [d]).

(** The loop over the features: [cur] is the text between [ptr2] and [ptr]. *)
Fixpoint get_features (ptr cur : bytes) (fs : list (option bytes)) : M W (list (option bytes)) :=
  match ptr with
  | c :: ptr =>
    if bool_decide (c = "&"%char) then add_feature fs cur
    else if bool_decide (c = ","%char) then fs ← add_feature fs cur; get_features ptr [] fs
    else get_features ptr (cur ++ [c]) fs
  | [] => add_feature fs cur
  end.

(** The module of a capability, if it has one. *)
Definition cpblt_module (cpblt : bytes) : M W (option module_info) :=
  match strstr cpblt (str "module=") with
  | None => mret None
  | Some module_cpblt =>
    name ← strdup (up_to_amp (drop 7 module_cpblt));
    rev ← match cpblt_param module_cpblt (str "revision=") with
          | None => mret None
          | Some ptr => strdup (up_to_amp ptr)
          end;
    fs ← match cpblt_param module_cpblt (str "features=") with
         | None => mret None
         | Some ptr => fs ← get_features ptr [] []; mret (Some fs)
         end;
    mret (Some (ModuleInfo name rev None fs true))
  end.

Fixpoint cpblts_modules (cpblts : list bytes) : M W (list module_info) :=
  match cpblts with
  | [] => mret []
  | c :: cpblts =>
    m ← cpblt_module c;
    l ← cpblts_modules cpblts;
    mret (match m with Some m => m :: l | None => l end)
  end.

(** The array, or [None] for the result -1. *)
Definition build_module_info_cpblts (cpblts : list bytes) : M W (option (list module_info)) :=
  ok ← call (malloc_ok ((zlen cpblts + 1) * 40));
  if negb ok then mret None
  else l ← cpblts_modules cpblts; mret (Some l).
End cpblts.

(** ** The data of ietf-yang-library *)

(** A node as the code looks at it: its schema - none for an opaque node - with its name and whether it
    belongs to the module of the list, its value and its children. *)
Inductive yl_node := YlNode {
  yl_schema : option (bytes * bool);
  yl_value : option bytes;
  yl_children : list yl_node;
}.

Section yang_library.
Context {W : Type} `{!Env W}.

Definition set_mi_name n (m : module_info) := ModuleInfo n (mi_revision m) (mi_submodules m) (mi_features m) (mi_implemented m).
Definition set_mi_revision r (m : module_info) := ModuleInfo (mi_name m) r (mi_submodules m) (mi_features m) (mi_implemented m).
Definition set_mi_submodules s (m : module_info) := ModuleInfo (mi_name m) (mi_revision m) s (mi_features m) (mi_implemented m).
Definition set_mi_features f (m : module_info) := ModuleInfo (mi_name m) (mi_revision m) (mi_submodules m) f (mi_implemented m).
Definition set_mi_implemented i (m : module_info) := ModuleInfo (mi_name m) (mi_revision m) (mi_submodules m) (mi_features m) i.

(** A child of a module entry with its value, unless it is ignored: nodes without a
    schema, of other modules (augments) or without a value. *)
Definition yl_leaf (iter : yl_node) : option (bytes * bytes) :=
  match yl_schema iter, yl_value iter with
  | Some (name, true), Some (c :: v) => Some (name, c :: v)
  | _, _ => None
  end.

(** The first loop over the children, with the number of submodules; [None] when there
    is no memory for the features. *)
Fixpoint yl_fields (l : list yl_node) (m : module_info) (submodules_count : Z) : M W (option (module_info * Z)) :=
  match l with
  | [] => mret (Some (m, submodules_count))
  | iter :: l =>
    match yl_leaf iter with
    | None => yl_fields l m submodules_count
    | Some (name, value) =>
      if strcmp_eq name (str "name") then d ← strdup value; yl_fields l (set_mi_name d m) submodules_count
      else if strcmp_eq name (str "revision") then d ← strdup value; yl_fields l (set_mi_revision d m) submodules_count
      else if strcmp_eq name (str "conformance-type") then
        yl_fields l (set_mi_implemented (strcmp_eq value (str "implement")) m) submodules_count
      else if strcmp_eq name (str "feature") then
        let fs := default [] (mi_features m) in
        ok ← call (malloc_ok ((zlen fs + 2) * 8));
        if negb ok then mret None
        else d ← strdup value; yl_fields l (set_mi_features (Some (fs ++ [d])) m) submodules_count
      else if strcmp_eq name (str "submodule") then yl_fields l m (submodules_count + 1)
      else yl_fields l m submodules_count
    end
  end.

(** The leaves of a submodule, copied into one slot. *)
Fixpoint yl_submodule (l : list yl_node) (slot : option bytes * option bytes) : M W (option bytes * option bytes) :=
  match l with
  | [] => mret slot
  | child :: l =>
    match yl_schema child with
    | None => crash
    | Some (name, own) =>
      if negb own then yl_submodule l slot
      else if strcmp_eq name (str "name") then
        match yl_value child with None => crash | Some v => d ← strdup v; yl_submodule l (d, slot.2) end
      else if strcmp_eq name (str "revision") then
        match yl_value child with None => crash | Some v => d ← strdup v; yl_submodule l (slot.1, d) end
      else yl_submodule l slot
    end
  end.

(** The second loop over the children.  The index [v] stays 0, so that every submodule
    goes to the first slot. *)
Fixpoint yl_submodules (l : list yl_node) (slot : option bytes * option bytes) : M W (option bytes * option bytes) :=
  match l with
  | [] => mret slot
  | iter :: l =>
    match yl_schema iter with
    | None => crash
    | Some (name, own) =>
      if own && strcmp_eq name (str "submodule")
      then slot ← yl_submodule (yl_children iter) slot; yl_submodules l slot
      else yl_submodules l slot
    end
  end.

(** One entry.  The slots of submodules after the first one stay as [calloc] left them. *)
Definition yl_module (n : yl_node) : M W (option module_info) :=
  r ← yl_fields (yl_children n) no_info 0;
  match r with
  | None => mret None
  | Some (m, submodules_count) =>
    if submodules_count =? 0 then mret (Some m)
    else
      ok ← call (malloc_ok ((submodules_count + 1) * 16));
      if negb ok then mret None
      else
        slot ← yl_submodules (yl_children n) (None, None);
        mret (Some (set_mi_submodules (Some (slot :: replicate (Z.to_nat (submodules_count - 1)) (None, None))) m))
  end.

Fixpoint yl_modules (l : list yl_node) : M W (option (list module_info)) :=
  match l with
  | [] => mret (Some [])
  | n :: l =>
    m ← yl_module n;
    match m with
    | None => mret None
    | Some m => r ← yl_modules l; mret (cons m <$> r)
    end
  end.
End yang_library.
