(* ===== verification/ModuleInfoProofs.v ===== *)
(** * The modules a client learns are the modules a server has

    The list built from the capabilities of a server names the modules of its context,
    with their revisions and enabled features.  Also how data of ietf-yang-library are read, and
    what is lost there. *)

From S2P Require Import Prelude Session Env Time Locks Sim IoRead IoReadProofs Framing IoWrite.
From S2P Require Import IoWriteProofs IoTheorems Capabilities CapabilitiesProofs Handshake ClientRecv ModuleInfo.
From Stdlib Require Import ZArith Ascii String Lia.
From stdpp Require Import base list strings gmap numbers.
Open Scope Z_scope.

(** ** Searching for a parameter

    A text is a sequence of pieces that end with an equals sign; the name of a parameter has
    none. *)

Abbreviation eqs := "="%char.

Lemma strstr_cons c hay needle :
  take (length needle) (c :: hay) ≠ needle → strstr (c :: hay) needle = strstr hay needle.
Proof. intros H. cbn [strstr]. by rewrite bool_decide_false. Qed.

Lemma strstr_hit needle rest : strstr (needle ++ rest) needle = Some (needle ++ rest).
Proof.
  assert (H : take (length needle) (needle ++ rest) = needle) by apply take_app_length.
  destruct (needle ++ rest) eqn:E; cbn [strstr]; rewrite bool_decide_true; done.
Qed.

(** An occurrence that begins before the end of a text without equals sign ends with it. *)
Lemma prefix_eqs (q N rest tail : bytes) :
  eqs ∉ q → eqs ∉ N → q ++ eqs :: rest = N ++ eqs :: tail → q = N ∧ rest = tail.
Proof.
  revert N. induction q as [|c q IH]; intros [|d N] Hq HN E; cbn in E; try done.
  - by injection E.
  - injection E as <- _. destruct HN. by left.
  - injection E as -> _. destruct Hq. by left.
  - injection E as -> E. destruct (IH N) as [-> ->]; try done.
    + intros ?. apply Hq. by right.
    + intros ?. apply HN. by right.
Qed.

Lemma take_needle (hay N : bytes) : take (length (N ++ [eqs])) hay = N ++ [eqs] → ∃ tail, hay = N ++ eqs :: tail.
Proof.
  intros E. exists (drop (length (N ++ [eqs])) hay). rewrite <- (take_drop (length (N ++ [eqs])) hay) at 1.
  rewrite E, <- app_assoc. done.
Qed.

(** The parameter of a piece that does not end with its name is behind the piece. *)
Lemma strstr_skip (q N rest : bytes) :
  eqs ∉ q → eqs ∉ N → N ≠ [] → ¬ N `suffix_of` q → strstr (q ++ eqs :: rest) (N ++ [eqs]) = strstr rest (N ++ [eqs]).
Proof.
  intros Hq HN Hne Hs. induction q as [|c q IH].
  - rewrite app_nil_l. apply strstr_cons. intros E. apply take_needle in E as [tail E].
    destruct N as [|d N]; [done|]. injection E as <- _. destruct HN. by left.
  - cbn [app]. rewrite strstr_cons.
    + apply IH; [intros ?; apply Hq; by right|]. intros [k ->]. apply Hs. by exists (c :: k).
    + intros E. apply take_needle in E as [tail E]. apply (prefix_eqs (c :: q)) in E as [<- _]; [|done..]. by destruct Hs.
Qed.

Lemma suffix_long (p t N : bytes) : (length N ≤ length t)%nat → ¬ N `suffix_of` t → ¬ N `suffix_of` p ++ t.
Proof.
  intros Hlen Hs [k E]. apply Hs. exists (drop (length p) k). assert (length k = length p + length t - length N)%nat.
  { apply (f_equal length) in E. rewrite !length_app in E. lia. }
  apply (f_equal (drop (length p))) in E. rewrite drop_app_length, drop_app_le in E by lia. done.
Qed.

Lemma strstr_none (q N : bytes) : eqs ∉ q → strstr q (N ++ [eqs]) = None.
Proof.
  induction q as [|c q IH]; intros Hq.
  - cbn [strstr]. rewrite bool_decide_false; [done|]. rewrite take_nil. by destruct N.
  - rewrite strstr_cons; [apply IH; intros ?; apply Hq; by right|]. intros E. apply take_needle in E as [tail E].
    apply Hq. rewrite E. apply elem_of_app. right. by left.
Qed.

(** The first equals sign of the text is that of the parameter. *)
Lemma strstr_found (p N rest : bytes) :
  eqs ∉ p ++ N → strstr (p ++ N ++ eqs :: rest) (N ++ [eqs]) = Some (N ++ eqs :: rest).
Proof.
  induction p as [|c p IH]; intros Hq.
  - cbn [app] in *. change (eqs :: rest) with ([eqs] ++ rest). rewrite app_assoc. apply strstr_hit.
  - cbn [app]. rewrite strstr_cons; [apply IH; intros ?; apply Hq; by right|]. intros E. apply take_needle in E as [tail E].
    rewrite app_comm_cons, app_assoc in E. apply (prefix_eqs ((c :: p) ++ N)) in E as [E _]; [|done|].
    + apply (f_equal length) in E. rewrite length_app in E. cbn in E. lia.
    + intros ?. apply Hq. cbn. right. apply elem_of_app. by right.
Qed.

(** ** The capability of a module *)

(** Names of modules and features, revisions: no character with a meaning in a
    capability. *)
Definition sym_free (s : bytes) : Prop := "&"%char ∉ s ∧ ","%char ∉ s ∧ eqs ∉ s.

Definition module_ok (m : lys_module) : Prop :=
  eqs ∉ mod_ns m ∧ sym_free (mod_name m) ∧ (∀ r, mod_revision m = Some r → sym_free r) ∧
  Forall sym_free (enabled_features m) ∧ Forall sym_free (default [] (mod_deviated_by m)).

(** What a client should know about a module. *)
Definition info_of (m : lys_module) : module_info :=
  ModuleInfo (Some (mod_name m)) (mod_revision m) None
    (match enabled_features m with [] => None | fs => Some (map Some fs) end) true.

(** The texts of a capability behind the name and behind the revision. *)
Definition revision_text (m : lys_module) : bytes :=
  match mod_revision m with Some r => str "&revision=" ++ r | None => [] end.

Definition tail_text (m : lys_module) : bytes :=
  features_text (enabled_features m) ++ deviations_text (mod_deviated_by m).

Lemma module_text_eq m :
  module_text m = mod_ns m ++ str "?" ++ str "module" ++ eqs :: mod_name m ++ revision_text m ++ tail_text m.
Proof.
  unfold module_text, module_base, revision_text, tail_text. rewrite <- !app_assoc.
  change (str "?module=") with (str "?" ++ str "module" ++ [eqs]). by rewrite <- !app_assoc.
Qed.

Definition amp_or_end (s : bytes) : Prop := match s with [] => True | c :: _ => c = "&"%char end.

Lemma amp_or_end_app a b : amp_or_end a → amp_or_end b → amp_or_end (a ++ b).
Proof. by destruct a. Qed.

Lemma amp_or_end_deviations d : amp_or_end (deviations_text d).
Proof. by destruct d. Qed.

Lemma amp_or_end_tail m : amp_or_end (tail_text m).
Proof. apply amp_or_end_app; [|apply amp_or_end_deviations]. by destruct (enabled_features m). Qed.

Lemma amp_or_end_revision m : amp_or_end (revision_text m).
Proof. unfold revision_text. by destruct (mod_revision m). Qed.

Lemma up_to_amp_app s rest : "&"%char ∉ s → amp_or_end rest → up_to_amp (s ++ rest) = s.
Proof.
  unfold up_to_amp. intros Hs Hr. induction s as [|c s IH].
  - cbn [app]. destruct rest as [|c rest]; [done|]. cbn in Hr. subst c. done.
  - cbn [app span]. assert (not_amp c = true) as ->.
    { apply negb_true_iff, bool_decide_false. intros ->. apply Hs. by left. }
    destruct (span not_amp (s ++ rest)) eqn:E. cbn [fst] in *. f_equal. apply IH. intros ?. apply Hs. by right.
Qed.

Lemma join_eqs l : Forall sym_free l → eqs ∉ CapabilitiesProofs.join l.
Proof.
  induction 1 as [|x l (? & ? & Hx) Hl IH]; [by intros ?%not_elem_of_nil|].
  cbn [CapabilitiesProofs.join]. destruct l as [|y l]; [done|]. rewrite !elem_of_app. intros [?|[Hc|?]]; try done.
  apply list_elem_of_singleton in Hc. done.
Qed.

Lemma eqs_not_in (s : bytes) : bool_decide (eqs ∈ s) = false → eqs ∉ s.
Proof. apply bool_decide_eq_false_1. Qed.

(** In the tail of a capability there is only one place for each parameter. *)
Lemma strstr_deviations x N d :
  eqs ∉ x → eqs ∉ N → N ≠ [] → (length N ≤ 11)%nat → ¬ N `suffix_of` str "&deviations" →
  Forall sym_free (default [] d) → strstr (x ++ deviations_text d) (N ++ [eqs]) = None.
Proof.
  intros Hx HN Hne Hlen Hs Hd. destruct d as [ds|]; cbn [deviations_text default] in *.
  - change (str "&deviations=") with (str "&deviations" ++ [eqs]). rewrite <- app_assoc, <- cons_middle, app_assoc.
    rewrite strstr_skip; try done; [by apply strstr_none, join_eqs| |by apply suffix_long]. rewrite elem_of_app. intros [?|Hc]; [done|].
    by apply (eqs_not_in (str "&deviations")) in Hc.
  - rewrite app_nil_r. by apply strstr_none.
Qed.

Lemma tail_no_revision x m :
  eqs ∉ x → Forall sym_free (enabled_features m) → Forall sym_free (default [] (mod_deviated_by m)) →
  strstr (x ++ tail_text m) (str "revision" ++ [eqs]) = None.
Proof.
  intros Hx Hf Hd. unfold tail_text.
  assert (Hr : ∀ y, eqs ∉ y → strstr (y ++ deviations_text (mod_deviated_by m)) (str "revision" ++ [eqs]) = None).
  { intros y Hy. apply strstr_deviations; [done|by apply eqs_not_in|done|vm_compute; lia| |done]. by apply (bool_decide_unpack _). }
  destruct (enabled_features m) as [|f fs] eqn:Ef; [by apply Hr|]. cbn [features_text].
  change (str "&features=") with (str "&features" ++ [eqs]). rewrite <- !app_assoc, <- cons_middle, app_assoc.
  rewrite strstr_skip; [apply Hr; by apply join_eqs| |by apply eqs_not_in|done|].
  2: { apply suffix_long; [vm_compute; lia|by apply (bool_decide_unpack _)]. }
  rewrite elem_of_app. intros [?|Hc]; [done|]. by apply (eqs_not_in (str "&features")) in Hc.
Qed.

Lemma tail_features x m :
  eqs ∉ x → Forall sym_free (default [] (mod_deviated_by m)) →
  strstr (x ++ tail_text m) (str "features" ++ [eqs]) =
    match enabled_features m with
    | [] => None
    | fs => Some (str "features" ++ eqs :: CapabilitiesProofs.join fs ++ deviations_text (mod_deviated_by m))
    end.
Proof.
  intros Hx Hd. unfold tail_text. destruct (enabled_features m) as [|f fs].
  - apply strstr_deviations; [done|by apply eqs_not_in|done|vm_compute; lia| |done]. by apply (bool_decide_unpack _).
  - cbn [features_text]. change (str "&features=") with (str "&" ++ str "features" ++ [eqs]).
    rewrite <- !app_assoc, <- cons_middle, app_assoc. apply strstr_found. rewrite !elem_of_app. intros [[?|Hc]|Hc]; [done|..].
    + by apply (eqs_not_in (str "&")) in Hc.
    + by apply (eqs_not_in (str "features")) in Hc.
Qed.

Lemma param_revision m : module_ok m →
  cpblt_param (str "module" ++ eqs :: mod_name m ++ revision_text m ++ tail_text m) (str "revision=") =
    (λ r, r ++ tail_text m) <$> mod_revision m.
Proof.
  intros (_ & (_ & _ & Hn) & Hr & Hf & Hd). unfold cpblt_param. change (str "revision=") with (str "revision" ++ [eqs]).
  rewrite strstr_skip; [|by apply eqs_not_in|by apply eqs_not_in|done|by apply (bool_decide_unpack _)].
  unfold revision_text. destruct (mod_revision m) as [r|]; [|rewrite app_nil_l; by rewrite tail_no_revision].
  change (str "&revision=") with (str "&" ++ str "revision" ++ [eqs]). rewrite <- !app_assoc, <- cons_middle, app_assoc.
  rewrite strstr_found; [done|]. rewrite !elem_of_app. intros [[?|Hc]|Hc]; [done|..].
  - by apply (eqs_not_in (str "&")) in Hc.
  - by apply (eqs_not_in (str "revision")) in Hc.
Qed.

Lemma param_features m : module_ok m →
  cpblt_param (str "module" ++ eqs :: mod_name m ++ revision_text m ++ tail_text m) (str "features=") =
    match enabled_features m with
    | [] => None
    | fs => Some (CapabilitiesProofs.join fs ++ deviations_text (mod_deviated_by m))
    end.
Proof.
  intros (_ & (_ & _ & Hn) & Hr & Hf & Hd). unfold cpblt_param. change (str "features=") with (str "features" ++ [eqs]).
  rewrite strstr_skip; [|by apply eqs_not_in|by apply eqs_not_in|done|by apply (bool_decide_unpack _)].
  assert (strstr (mod_name m ++ revision_text m ++ tail_text m) (str "features" ++ [eqs]) =
    match enabled_features m with
    | [] => None
    | fs => Some (str "features" ++ eqs :: CapabilitiesProofs.join fs ++ deviations_text (mod_deviated_by m))
    end) as ->; [|by destruct (enabled_features m)].
  unfold revision_text. destruct (mod_revision m) as [r|]; [|by apply tail_features].
  change (str "&revision=") with (str "&revision" ++ [eqs]). rewrite <- !app_assoc, <- cons_middle, app_assoc.
  rewrite strstr_skip; [apply tail_features; [by apply Hr|done]| |by apply eqs_not_in|done|].
  - rewrite elem_of_app. intros [?|Hc]; [done|]. by apply (eqs_not_in (str "&revision")) in Hc.
  - apply suffix_long; [vm_compute; lia|by apply (bool_decide_unpack _)].
Qed.

Lemma module_text_found m : module_ok m →
  strstr (module_text m) (str "module=") = Some (str "module" ++ eqs :: mod_name m ++ revision_text m ++ tail_text m).
Proof.
  intros (Hns & _). rewrite module_text_eq. change (str "module=") with (str "module" ++ [eqs]). rewrite app_assoc.
  apply strstr_found. rewrite !elem_of_app. intros [[?|Hc]|Hc]; [done|..].
  - by apply (eqs_not_in (str "?")) in Hc.
  - by apply (eqs_not_in (str "module")) in Hc.
Qed.

(** ** Building the list *)

Section build.
Context {W : Type} `{RL : Reliable W}.

Lemma add_feature_ok F fs s (w : W) :
  zlen fs < 2 ^ 20 → zlen s < 2 ^ 20 → wpx F (add_feature fs s) (λ r _, r = fs ++ [Some s]) w.
Proof.
  intros Hf Hs. pose proof (zlen_nonneg fs). unfold add_feature. apply wpx_bind, wpx_malloc_ok; [lia|]. intros w1 _.
  apply wpx_bind, wpx_guarded; [done|]. apply wpx_bind. eapply wpx_mono; [apply strdup_ok; lia|].
  intros d w2 [-> _]. by apply wpx_ret.
Qed.

Lemma get_features_app F s rest cur fs (Q : list (option bytes) → W → Prop) w :
  sym_free s → wpx F (get_features rest (cur ++ s) fs) Q w → wpx F (get_features (s ++ rest) cur fs) Q w.
Proof.
  revert cur. induction s as [|c s IH]; intros cur (Ha & Hc & He) H; [by rewrite app_nil_r in H|].
  cbn [app get_features]. rewrite !bool_decide_false.
  - apply IH; [|by rewrite <- app_assoc]. repeat split; intros ?; [apply Ha|apply Hc|apply He]; by right.
  - intros ->. apply Hc. by left.
  - intros ->. apply Ha. by left.
Qed.

Lemma get_features_ok F fs x acc d (w : W) :
  Forall sym_free (x :: fs) → zlen acc + zlen fs < 2 ^ 20 → Forall (λ f, zlen f < 2 ^ 20) (x :: fs) → amp_or_end d →
  wpx F (get_features (CapabilitiesProofs.join (x :: fs) ++ d) [] acc) (λ r _, r = acc ++ map Some (x :: fs)) w.
Proof.
  revert x acc w. induction fs as [|y fs IH]; intros x acc w Hs Hn Hl Hd; inversion Hs; inversion Hl; subst.
  - cbn [CapabilitiesProofs.join]. apply get_features_app; [done|]. cbn [app]. cbn in Hn.
    destruct d as [|c d]; cbn in Hd; [|subst c]; apply add_feature_ok; done || (unfold zlen in *; cbn in Hn; lia).
  - cbn [CapabilitiesProofs.join]. rewrite <- !app_assoc. apply get_features_app; [done|]. rewrite app_nil_l.
    change (str ",") with [","%char]. cbn [app get_features]. rewrite bool_decide_false, bool_decide_true by done.
    rewrite zlen_cons in Hn. pose proof (zlen_nonneg fs).
    apply wpx_bind. eapply wpx_mono; [apply add_feature_ok; [lia|done]|]. intros r w1 ->.
    eapply wpx_mono; [apply IH; try done|].
    + rewrite zlen_app. change (zlen [Some x]) with 1. lia.
    + intros r w2 ->. by rewrite <- app_assoc.
Qed.

Lemma join_bounds l : zlen l ≤ zlen (CapabilitiesProofs.join l) + 1 ∧ Forall (λ f, zlen f ≤ zlen (CapabilitiesProofs.join l)) l.
Proof.
  induction l as [|x l [IH1 IH2]]; [by split|]. cbn [CapabilitiesProofs.join]. destruct l as [|y l].
  - split; [rewrite zlen_cons; change (zlen []) with 0; pose proof (zlen_nonneg x); lia|]. by constructor.
  - rewrite !zlen_app, (zlen_cons x). change (zlen (str ",")) with 1. pose proof (zlen_nonneg x).
    pose proof (zlen_nonneg (CapabilitiesProofs.join (y :: l))). split; [lia|]. constructor; [lia|].
    eapply list.Forall_impl; [exact IH2|]. cbn beta. lia.
Qed.

Lemma features_bounds m n :
  zlen (module_text m) < n →
  zlen (mod_name m) < n ∧ (∀ r, mod_revision m = Some r → zlen r < n) ∧
  zlen (enabled_features m) ≤ n ∧ Forall (λ f, zlen f < n) (enabled_features m).
Proof.
  rewrite module_text_eq, !zlen_app, zlen_cons, !zlen_app. unfold revision_text, tail_text. intros H.
  pose proof (zlen_nonneg (mod_ns m)). pose proof (zlen_nonneg (mod_name m)). rewrite zlen_app in H.
  pose proof (zlen_nonneg (deviations_text (mod_deviated_by m))). change (zlen (str "?")) with 1 in H. change (zlen (str "module")) with 6 in H.
  assert (Hr : 0 ≤ zlen (match mod_revision m with Some r => str "&revision=" ++ r | None => [] end)) by apply zlen_nonneg.
  pose proof (zlen_nonneg (features_text (enabled_features m))).
  split_and!.
  - lia.
  - intros r E. rewrite E, zlen_app in H. pose proof (zlen_nonneg (str "&revision=")). lia.
  - destruct (join_bounds (enabled_features m)) as [Hj _]. destruct (enabled_features m) as [|f fs]; [change (zlen []) with 0; lia|].
    cbn [features_text] in H. rewrite zlen_app in H. change (zlen (str "&features=")) with 10 in H. lia.
  - destruct (join_bounds (enabled_features m)) as [_ Hj]. destruct (enabled_features m) as [|f fs]; [done|].
    cbn [features_text] in H. rewrite zlen_app in H. change (zlen (str "&features=")) with 10 in H.
    eapply list.Forall_impl; [exact Hj|]. cbn beta. lia.
Qed.

Lemma cpblt_module_ok F m (w : W) :
  module_ok m → zlen (module_text m) < 2 ^ 19 → wpx F (cpblt_module (module_text m)) (λ r _, r = Some (info_of m)) w.
Proof.
  intros Hm Hl. apply features_bounds in Hl as (Hln & Hlr & Hlc & Hlf). unfold cpblt_module.
  rewrite module_text_found by done. rewrite param_revision, param_features by done.
  destruct Hm as (_ & Hn & Hr & Hf & Hd). apply wpx_bind.
  replace (up_to_amp _) with (mod_name m).
  2: { symmetry. apply (up_to_amp_app (mod_name m)); [apply Hn|]. apply amp_or_end_app; [apply amp_or_end_revision|apply amp_or_end_tail]. }
  eapply wpx_mono; [apply strdup_ok; lia|]. intros n w1 [-> _]. apply wpx_bind. unfold info_of.
  assert (Hrev : wpx F (match (λ r, r ++ tail_text m) <$> mod_revision m with Some ptr => strdup (up_to_amp ptr) | None => mret None end)
    (λ r _, r = mod_revision m) w1).
  { destruct (mod_revision m) as [r|]; [|by apply wpx_ret]. cbn [fmap option_fmap option_map].
    rewrite up_to_amp_app; [|by apply Hr|apply amp_or_end_tail].
    eapply wpx_mono; [apply strdup_ok; specialize (Hlr r eq_refl); lia|]. by intros ? ? [-> _]. }
  eapply wpx_mono; [exact Hrev|]. intros r w2 ->. apply wpx_bind. destruct (enabled_features m) as [|f fs].
  { apply wpx_ret. by apply wpx_ret. }
  rewrite zlen_cons in Hlc. apply wpx_bind. eapply wpx_mono.
  { apply get_features_ok; [done|change (zlen []) with 0; lia| |apply amp_or_end_deviations].
    eapply list.Forall_impl; [exact Hlf|]. cbn beta. lia. }
  intros r w3 ->. apply wpx_ret. by apply wpx_ret.
Qed.

(** A capability of a module, or one that names none. *)
Definition cpblt_is (c : bytes) (x : option lys_module) : Prop :=
  match x with
  | None => strstr c (str "module=") = None
  | Some m => c = module_text m ∧ module_ok m ∧ zlen c < 2 ^ 19
  end.

Lemma cpblts_modules_ok F l xs (w : W) :
  Forall2 cpblt_is l xs → wpx F (cpblts_modules l) (λ r _, r = map info_of (omap (λ x, x) xs)) w.
Proof.
  intros H. revert w. induction H as [|c x l xs Hc Hl IH]; intros w; [by apply wpx_ret|]. cbn [cpblts_modules]. apply wpx_bind.
  assert (Hx : wpx F (cpblt_module c) (λ r _, r = info_of <$> x) w).
  { destruct x as [m|]; cbn in Hc; [|unfold cpblt_module; rewrite Hc; by apply wpx_ret].
    destruct Hc as (-> & Hm & Hn). eapply wpx_mono; [by apply cpblt_module_ok|]. by intros ? ? ->. }
  eapply wpx_mono; [exact Hx|]. intros r w1 ->. apply wpx_bind. eapply wpx_mono; [apply IH|]. intros r w2 ->. apply wpx_ret.
  by destruct x.
Qed.
End build.

(** ** The capabilities of a server *)

(** The modules that a server lists as capabilities. *)
Definition advertised_modules (ctx : ly_ctx) (version : LYS_VERSION) : list lys_module :=
  filter (λ m, is_library m = false ∧ skip_module version m = false) (ctx_modules ctx).

Lemma foldl_add_key_all l caps :
  NoDup (map cpblt_key (l ++ caps)) → foldl add_key l caps = l ++ caps.
Proof.
  revert l. induction caps as [|c caps IH]; intros l Hn; [by rewrite app_nil_r|]. cbn [foldl].
  assert (add_key l c = l ++ [c]) as ->.
  { unfold add_key. rewrite decide_False; [done|]. rewrite map_app in Hn. apply list.NoDup_app in Hn as (_ & Hd & _).
    intros Hc. apply (Hd _ Hc). cbn. by left. }
  rewrite IH; rewrite <- app_assoc; done.
Qed.

Lemma no_eqs_no_module c : eqs ∉ c → cpblt_is c None.
Proof. intros H. exact (strstr_none c (str "module") H). Qed.

Lemma wd_no_module basic also : cpblt_is (wd_text basic also) None.
Proof.
  unfold cpblt_is, wd_text, wd_flag.
  destruct basic, (Z.land also (wd_value NC_WD_ALL) =? 0), (Z.land also (wd_value NC_WD_ALL_TAG) =? 0),
    (Z.land also (wd_value NC_WD_TRIM) =? 0), (Z.land also (wd_value NC_WD_EXPLICIT) =? 0); vm_compute; reflexivity.
Qed.

Lemma netconf_no_module ctx : Forall (λ c, cpblt_is c None) (netconf_list ctx).
Proof.
  unfold netconf_list, feature_cpblt. destruct (ctx_implemented ctx (str "ietf-netconf")) as [m|]; [|done].
  repeat apply Forall_app_2; (case_match; [constructor; [vm_compute; reflexivity|done]|done]).
Qed.

(** The content id of the yang-library capability. *)
Definition content_id (ctx : ly_ctx) (o : nc_server_opts) : bytes :=
  match content_id_clb o with Some r => default [] r | None => print_dec (u32 (ctx_change_count ctx)) end.

Lemma print_dec_no_eqs n : 0 ≤ n < 2 ^ 64 → eqs ∉ print_dec n.
Proof.
  intros Hn Hc. destruct (print_dec_spec n Hn) as (_ & Hd & _). rewrite list.Forall_forall in Hd. by apply Hd in Hc.
Qed.

Lemma query_no_module (a b rev id : bytes) :
  eqs ∉ a → eqs ∉ b → eqs ∉ rev → eqs ∉ id → ¬ str "module" `suffix_of` a → (6 ≤ length b)%nat → ¬ str "module" `suffix_of` b →
  cpblt_is (a ++ eqs :: rev ++ b ++ eqs :: id) None.
Proof.
  intros Ha Hb Hr Hi Hsa Hlb Hsb. unfold cpblt_is. change (str "module=") with (str "module" ++ [eqs]).
  rewrite strstr_skip; [|done|by apply eqs_not_in|done|done]. rewrite app_assoc.
  rewrite strstr_skip; [by apply strstr_none| |by apply eqs_not_in|done|by apply suffix_long]. rewrite elem_of_app. by intros [?|?].
Qed.

Lemma library_no_module ctx o m :
  module_fits ctx o m → is_library m = true → eqs ∉ content_id ctx o → cpblt_is (library_text ctx o m) None.
Proof.
  unfold module_fits, library_text. intros Hf Hl Hc. rewrite Hl in Hf. destruct Hf as (Hrev & _ & _). fold (content_id ctx o).
  assert (Hr : eqs ∉ default [] (mod_revision m)) by (destruct Hrev as [-> | ->]; by apply eqs_not_in).
  case_match.
  - refine (query_no_module (str "urn:ietf:params:netconf:capability:yang-library:1.1?revision") (str "&content-id") _ _ _ _ Hr Hc _ _ _);
      first [by apply eqs_not_in|by apply (bool_decide_unpack _)|vm_compute; lia].
  - refine (query_no_module (str "urn:ietf:params:netconf:capability:yang-library:1.0?revision") (str "&module-set-id") _ _ _ _ Hr Hc _ _ _);
      first [by apply eqs_not_in|by apply (bool_decide_unpack _)|vm_compute; lia].
Qed.

(** Contexts and options of a server whose capabilities are not ambiguous. *)
Definition clear_cpblts (ctx : ly_ctx) (o : nc_server_opts) (version : LYS_VERSION) : Prop :=
  NoDup (map cpblt_key ([BASE_1_0; BASE_1_1] ++ offered ctx o version)) ∧
  Forall module_ok (ctx_modules ctx) ∧
  Forall (λ c, strstr c (str "module=") = None) (omap (λ x, x) (capabilities o)) ∧
  eqs ∉ content_id ctx o.

Lemma Forall2_none l : Forall (λ c, cpblt_is c None) l → Forall2 cpblt_is l (map (λ _, None) l).
Proof. induction 1; by constructor. Qed.

Lemma omap_none (l : list bytes) : omap (λ x, x) (map (λ _, None) l) = @nil lys_module.
Proof. by induction l. Qed.

Lemma models_are ctx o version mods :
  Forall (module_fits ctx o) mods → Forall module_ok mods → eqs ∉ content_id ctx o →
  ∃ xs, Forall2 cpblt_is (models_list ctx o version mods) xs ∧
    omap (λ x, x) xs = filter (λ m, is_library m = false ∧ skip_module version m = false) mods.
Proof.
  intros Hf Hm Hc. induction mods as [|m mods IH]; [by exists []|]. inversion Hf as [|? ? Hf1 Hf2]. inversion Hm as [|? ? Hm1 Hm2]. subst.
  destruct (IH Hf2 Hm2) as (xs & Hxs & Ex). rewrite models_list_cons. destruct (is_library m) eqn:El.
  - exists (None :: xs). split; [constructor; [by apply library_no_module|done]|]. rewrite filter_cons_False; [done|].
    intros [? _]. congruence.
  - destruct (skip_module version m) eqn:Es.
    + exists xs. split; [done|]. rewrite filter_cons_False; [done|]. intros [_ ?]. congruence.
    + exists (Some m :: xs). split.
      * constructor; [|done]. unfold module_fits in Hf1. rewrite El in Hf1. cbn. split_and!; [done|done|].
        unfold NC_CPBLT_BUF_LEN in Hf1. lia.
      * rewrite filter_cons_True by done. change (omap _ (Some m :: xs)) with (m :: omap (λ x, x) xs). by rewrite Ex.
Qed.

Lemma advertised_are ctx o version :
  fits ctx o version → clear_cpblts ctx o version →
  ∃ xs, Forall2 cpblt_is (advertised ctx o version) xs ∧ omap (λ x, x) xs = advertised_modules ctx version.
Proof.
  intros (_ & Hf & _) (Hn & Hm & Hu & Hc). unfold advertised. rewrite foldl_add_key_all by done.
  destruct (models_are ctx o version _ Hf Hm Hc) as (xs & Hxs & Ex). unfold offered.
  set (l := [BASE_1_0; BASE_1_1] ++ netconf_list ctx ++ withdefaults_list ctx o ++ omap (λ x, x) (capabilities o)).
  assert (Hl : Forall (λ c, cpblt_is c None) l).
  { repeat apply Forall_app_2; [|apply netconf_no_module| |exact Hu].
    - repeat constructor; by apply no_eqs_no_module, eqs_not_in.
    - unfold withdefaults_list. repeat case_match; try done. constructor; [apply wd_no_module|done]. }
  exists (map (λ _, None) l ++ xs). split.
  - replace ([BASE_1_0; BASE_1_1] ++ _) with (l ++ models_list ctx o version (ctx_modules ctx)) by (unfold l; by rewrite <- !app_assoc).
    apply Forall2_app; [by apply Forall2_none|done].
  - by rewrite omap_app, Ex, omap_none.
Qed.


Definition clear_opts : nc_server_opts := NcServerOpts NC_WD_ALL 4 [Some (str "urn:example:c?a=b")] None 0 0.


(** ** Data of ietf-yang-library *)

(** The values of the leaves of a name, in their order. *)
Definition leaves (x : string) (l : list yl_node) : list bytes :=
  omap (λ n, match yl_leaf n with
             | Some (name, v) => if strcmp_eq name (str x) then Some v else None
             | None => None
             end) l.

(** The last value, or the one that was there before. *)
Definition last_or {A} (l : list A) (x : option A) : option A := match list.last l with Some y => Some y | None => x end.

Lemma last_or_cons {A} (y : A) l x : last_or (y :: l) x = last_or l (Some y).
Proof. unfold last_or. rewrite last_cons. by destruct (list.last l). Qed.

(** An entry of the list of modules as the standard defines it. *)
Definition yl_info (l : list yl_node) (m : module_info) : module_info :=
  ModuleInfo (last_or (leaves "name" l) (mi_name m)) (last_or (leaves "revision" l) (mi_revision m)) (mi_submodules m)
    (match leaves "feature" l with [] => mi_features m | fs => Some (default [] (mi_features m) ++ map Some fs) end)
    (match list.last (leaves "conformance-type" l) with Some v => strcmp_eq v (str "implement") | None => mi_implemented m end).

(** Children of a reasonable size; an entry of the list [submodule] is not a leaf, it has no value. *)
Definition yl_ok (l : list yl_node) : Prop :=
  Forall (λ n, ∀ v, yl_value n = Some v → zlen v < 2 ^ 31) l ∧ zlen l < 2 ^ 28 ∧
  Forall (λ n, ∀ own, yl_schema n = Some (str "submodule", own) → yl_value n = None) l.

(** Comparisons of two literals. *)
Ltac literal_names :=
  repeat match goal with
         | |- context [strcmp_eq (str ?a) (str ?b)] =>
           let r := eval vm_compute in (strcmp_eq (str a) (str b)) in change (strcmp_eq (str a) (str b)) with r
         end.

Section yang_library.
Context {W : Type} `{RL : Reliable W}.

Lemma yl_leaf_value n name v : yl_leaf n = Some (name, v) → yl_value n = Some v ∧ yl_schema n = Some (name, true).
Proof. unfold yl_leaf. repeat case_match; try done. by intros [= -> <-]. Qed.

Lemma leaves_cons x n l :
  leaves x (n :: l) = match yl_leaf n with
                      | Some (name, v) => if strcmp_eq name (str x) then v :: leaves x l else leaves x l
                      | None => leaves x l
                      end.
Proof. unfold leaves. cbn. destruct (yl_leaf n) as [[name v]|]; [|done]. by destruct (strcmp_eq name (str x)). Qed.

Lemma yl_fields_ok F l m c (w : W) :
  yl_ok l → zlen (default [] (mi_features m)) + zlen l < 2 ^ 28 →
  wpx F (yl_fields l m c) (λ r _, r = Some (yl_info l m, c)) w.
Proof.
  revert m w. induction l as [|n l IH]; intros m w (Hv & Hn & Hs) Hf.
  { apply wpx_ret. by destruct m as [? ? ? [] ?]. }
  inversion Hv as [|? ? Hv1 Hv2]. inversion Hs as [|? ? Hs1 Hs2]. subst. rewrite zlen_cons in *.
  assert (Hl : yl_ok l) by (split_and!; [done|lia|done]).
  assert (Hfs : mi_features m = None ∨ ∃ fs, mi_features m = Some fs) by (destruct (mi_features m); eauto).
  cbn [yl_fields]. unfold yl_info. rewrite !leaves_cons. destruct (yl_leaf n) as [[name v]|] eqn:En; [|apply IH; [done|lia]].
  apply yl_leaf_value in En as [Ev Es]. specialize (Hv1 v Ev).
  assert (Hd : ∀ (k : option bytes → M W (option (module_info * Z))) Q w, (∀ w', wpx F (k (Some v)) Q w') → wpx F (d ← strdup v; k d) Q w).
  { intros k Q w0 Hk. apply wpx_bind. eapply wpx_mono; [by apply strdup_ok|]. intros d w1 [-> _]. apply Hk. }
  destruct (strcmp_eq name (str "name")) eqn:E1.
  { apply bool_decide_eq_true in E1 as ->. literal_names. apply Hd. intros w'.
    eapply wpx_mono; [apply IH; [done|cbn; lia]|]. intros r w1 ->. by rewrite last_or_cons. }
  destruct (strcmp_eq name (str "revision")) eqn:E2.
  { apply bool_decide_eq_true in E2 as ->. literal_names. apply Hd. intros w'.
    eapply wpx_mono; [apply IH; [done|cbn; lia]|]. intros r w1 ->. by rewrite last_or_cons. }
  destruct (strcmp_eq name (str "conformance-type")) eqn:E3.
  { apply bool_decide_eq_true in E3 as ->. literal_names. eapply wpx_mono; [apply IH; [done|cbn; lia]|]. intros r w1 ->.
    unfold yl_info. cbn [mi_name mi_revision mi_submodules mi_features mi_implemented set_mi_implemented]. rewrite last_cons. by destruct (list.last _). }
  destruct (strcmp_eq name (str "feature")) eqn:E4.
  { apply bool_decide_eq_true in E4 as ->. literal_names.
    pose proof (zlen_nonneg (default [] (mi_features m))). pose proof (zlen_nonneg l).
    apply wpx_bind, wpx_malloc_ok; [lia|]. intros w1 _. cbn [negb]. apply Hd. intros w2. eapply wpx_mono.
    { apply IH; [done|]. cbn. rewrite zlen_app. change (zlen [Some v]) with 1. lia. }
    intros r w3 ->. unfold yl_info. cbn [mi_name mi_revision mi_submodules mi_features mi_implemented set_mi_features].
    change (default [] (Some (default [] (mi_features m) ++ [Some v]))) with (default [] (mi_features m) ++ [Some v]).
    destruct (leaves "feature" l) eqn:El; [done|]. by rewrite <- app_assoc. }
  destruct (strcmp_eq name (str "submodule")) eqn:E5; [|apply IH; [done|lia]].
  apply bool_decide_eq_true in E5 as ->. by rewrite (Hs1 _ Es) in Ev.
Qed.

Lemma yl_module_ok F n (w : W) :
  yl_ok (yl_children n) → wpx F (yl_module n) (λ r _, r = Some (yl_info (yl_children n) no_info)) w.
Proof.
  intros Hl. unfold yl_module. apply wpx_bind. eapply wpx_mono; [apply yl_fields_ok; [done|]|].
  - change (zlen _) with 0 at 1. destruct Hl as (_ & ? & _). lia.
  - intros r w1 ->. by apply wpx_ret.
Qed.

Lemma yl_modules_ok F l (w : W) :
  Forall (λ n, yl_ok (yl_children n)) l →
  wpx F (yl_modules l) (λ r _, r = Some (map (λ n, yl_info (yl_children n) no_info) l)) w.
Proof.
  intros H. revert w. induction H as [|n l Hn Hl IH]; intros w; [by apply wpx_ret|]. cbn [yl_modules]. apply wpx_bind.
  eapply wpx_mono; [by apply yl_module_ok|]. intros r w1 ->. apply wpx_bind. eapply wpx_mono; [apply IH|]. intros r w2 ->.
  by apply wpx_ret.
Qed.
End yang_library.

(** From the data of ietf-yang-library a client takes the name, the revision and the features of every module and
    whether it is implemented, as the standard defines them - and never a submodule: an entry of the
    list [submodule] has no value, and children without a value are skipped before they are counted. *)
Theorem yl_info_exact {W} `{RL : Reliable W} l (w : W) :
  Forall (λ n, yl_ok (yl_children n)) l →
  ∃ infos w', yl_modules l w = Done (Some infos, w') ∧ infos = map (λ n, yl_info (yl_children n) no_info) l ∧
    Forall (λ i, mi_submodules i = None) infos.
Proof.
  intros H. destruct (proj1 (wp_total _ _ _) (yl_modules_ok False l w H)) as (r & w' & E & ->).
  exists (map (λ n, yl_info (yl_children n) no_info) l), w'. split_and!; [done|done|]. by apply Forall_map, Forall_true.
Qed.

Definition demo_leaf (name value : string) : yl_node := YlNode (Some (str name, true)) (Some (str value)) [].

Definition demo_entry : yl_node :=
  YlNode (Some (str "module", true)) None
    [demo_leaf "name" "m"; demo_leaf "revision" "2026-01-01"; demo_leaf "feature" "f"; demo_leaf "conformance-type" "implement";
     YlNode (Some (str "submodule", true)) None [demo_leaf "name" "s"; demo_leaf "revision" "2025-01-01"]].

Lemma yl_info_exact_witness :
  ∃ infos w', yl_modules [demo_entry] (demo_world (m0:=true) (up:=true) []) = Done (Some infos, w') ∧
    infos = [ModuleInfo (Some (str "m")) (Some (str "2026-01-01")) None (Some [Some (str "f")]) true].
Proof.
  destruct (yl_info_exact (W := sim true true) [demo_entry] (demo_world [])) as (infos & w' & E & Hi & _).
  - constructor; [|constructor]. split_and!; [repeat constructor; intros v; try discriminate; intros [= <-]; reflexivity|reflexivity|].
    repeat constructor; intros own [=].
  - exists infos, w'. split; [exact E|]. rewrite Hi. reflexivity.
Defined.
