(* ===== verification/Schemas.v ===== *)
(** * Loading the schemas of a server

    src/session_client.c: after the handshake a client fills its libyang context with
    the modules of the server - from local files, with get-schema from the server, or from a
    callback of the user.  libyang is a parameter ([LySchema]): which modules are in the context, where
    files are found, and the parser, which asks for imported modules while it runs. *)

From S2P Require Import Prelude Session Env Time Locks IoRead IoWrite Capabilities ClientRecv ClientRpc SendRpc ModuleInfo.
From Stdlib Require Import ZArith Ascii String Lia.
From stdpp Require Import base list strings gmap numbers.
Open Scope Z_scope.

(** [strcmp(a, b)], its sign. *)
Fixpoint strcmp (a b : bytes) : Z :=
  match a, b with
  | [], [] => 0
  | [], _ :: _ => -1
  | _ :: _, [] => 1
  | x :: a, y :: b =>
    if (N_of_ascii x <? N_of_ascii y)%N then -1 else if (N_of_ascii y <? N_of_ascii x)%N then 1 else strcmp a b
  end.

Inductive LYS_INFORMAT := LYS_IN_YANG | LYS_IN_YIN.

(** Operational data of a server as the code looks at it: the entries of the list of modules, if they are found,
    and whether there are schema mounts. *)
Record oper_data := OperData { od_modules : option (list yl_node); od_mounts : bool }.

(** The content of an anydata or anyxml node; a tree comes with its text. *)
Inductive any_value :=
| AnyString (s : bytes)
| AnyXml (s : bytes)
| AnyTree (t : option oper_data) (text : option bytes)
| AnyOther.

(** The first child of a reply: without a schema, or with its name, whether it is an
    anyxml node, and its content. *)
Inductive reply_child :=
| OpaqueChild
| SchemaChild (name : bytes) (anyxml : bool) (value : any_value).

Class ReplyData (node : Type) := lyd_child : node → option reply_child.

(** A run of the parser ends with a module or without one, or asks for a module or a
    submodule that is imported. *)
Inductive parse_step :=
| ParseDone (m : option Z)
| ParseImport (mod_name : bytes) (mod_rev submod_name sub_rev : option bytes).

Class LySchema (W : Type) := {
  ly_ctx_new : W → bool * W;
  ly_ctx_set_searchdir : bytes → W → W;
  search_dir_exists : W → bool * W;
  ctx_module_implemented : bytes → W → option Z * W;
  ctx_module_revision : bytes → bytes → W → option Z * W;
  ctx_module_latest : bytes → W → option Z * W;
  lys_set_implemented : Z → option (list bytes) → W → bool * W;
  lys_parse_start : bytes → LYS_INFORMAT → option (list bytes) → W → parse_step * W;
  lys_parse_resume : option (LYS_INFORMAT * bytes) → W → parse_step * W;
  ly_ctx_compile : W → bool * W;
  lys_search_localfile : bool → bytes → option bytes → W → option (option (bytes * LYS_INFORMAT)) * W;
  module_fopen : bytes → W → option Z * W;
  module_length : Z → W → Z * W;
  module_fread : Z → Z → W → bytes * W;
  module_fclose : Z → W → W;
  module_store : bytes → bytes → W → W;
  schema_clb : Z → Z → bytes → option bytes → option bytes → option bytes → W → option (LYS_INFORMAT * bytes) * W;
  lyd_validate_all : oper_data → W → bool * W;
}.

(** The callback for imports of the context: none, one of the user with its data, or
    [retrieve_module_data_imp] with [struct clb_data_s]. *)
Record clb_data_s := ClbData {
  cd_user : option (Z * Z);
  cd_modules : list module_info;
  cd_has_get_schema : bool;
}.

Inductive imp_clb := NoClb | UserClb (clb data : Z) | RetrieveClb (d : clb_data_s).

(** What the code changes in the context besides its modules, and the data for schema
    mounts of the session. *)
Record ctx_conf := CtxConf {
  cx_clb : imp_clb;
  cx_no_searchdirs : bool;
  cx_no_cwd : bool;
  cx_explicit_compile : bool;
  cx_ext_data : option oper_data;
}.

Definition set_clb c (x : ctx_conf) := CtxConf c (cx_no_searchdirs x) (cx_no_cwd x) (cx_explicit_compile x) (cx_ext_data x).
Definition set_no_searchdirs b (x : ctx_conf) := CtxConf (cx_clb x) b (cx_no_cwd x) (cx_explicit_compile x) (cx_ext_data x).
Definition set_explicit_compile b (x : ctx_conf) := CtxConf (cx_clb x) (cx_no_searchdirs x) (cx_no_cwd x) b (cx_ext_data x).
Definition set_ext_data d (x : ctx_conf) := CtxConf (cx_clb x) (cx_no_searchdirs x) (cx_no_cwd x) (cx_explicit_compile x) d.

(** Constants: the texts of src/modules/, which do not matter here, and the directory set when the library is built. *)
Class BuildConstants := {
  NC_CLIENT_SEARCH_DIR : bytes;
  ietf_netconf_yang : bytes;
  ietf_netconf_monitoring_yang : bytes;
}.

(** ** The options of a client for schemas *)

Record schema_opts := SchemaOpts {
  schema_searchpath : option bytes;
  schema_user_clb : option Z;
  schema_clb_data : Z;
}.

Section schema_opts.
Context {W : Type} `{!Env W}.

Definition nc_client_set_schema_searchpath (path : option bytes) : M (schema_opts * W) Z :=
  match path with
  | Some p =>
    d ← on_env (strdup p);
    _ ← modify (λ s, (SchemaOpts d (schema_user_clb s.1) (schema_clb_data s.1), s.2));
    mret (if bool_decide (d = None) then 1 else 0)
  | None => _ ← modify (λ s, (SchemaOpts None (schema_user_clb s.1) (schema_clb_data s.1), s.2)); mret 0
  end.

Definition nc_client_get_schema_searchpath : M (schema_opts * W) (option bytes) := gets (λ s, schema_searchpath s.1).

Definition nc_client_set_schema_callback (clb : option Z) (user_data : Z) : M (schema_opts * W) Z :=
  _ ← modify (λ s, (SchemaOpts (schema_searchpath s.1) clb (match clb with Some _ => user_data | None => 0 end), s.2));
  mret 0.

Definition nc_client_get_schema_callback : M (schema_opts * W) (option Z * Z) :=
  gets (λ s, (schema_user_clb s.1, schema_clb_data s.1)).
End schema_opts.

Section schemas.
Context {W node envelope : Type} `{!Env W} `{!LyBuild W} `{!Printer dnode envelope} `{!ClientEnv W node}.
Context `{!ReplyData node} `{!LySchema W} `{!BuildConstants}.
Context (opts : schema_opts) (fuel : nat).

Abbreviation XM := (M (ctx_conf * (nc_session * W))).

Definition conf : XM ctx_conf := gets fst.
Definition upd_conf (f : ctx_conf → ctx_conf) : XM unit := modify (λ s, (f s.1, s.2)).
Definition xses : XM nc_session := on_env ses.
Definition xcall {A} (f : W → A * W) : XM A := on_env (envcall f).

(** ** The context of a session *)

(** [shared] is whether the caller gave a context. *)
Definition nc_client_session_new_ctx (shared : bool) : XM bool :=
  if shared then
    _ ← on_env (upd_ses (λ s, set_flags (Z.lor (flags s) NC_SESSION_SHAREDCTX) s));
    mret true
  else
    ok ← xcall ly_ctx_new;
    if negb ok then mret false
    else
      _ ← match schema_searchpath opts with
          | Some p => on_env (on_env (modify (ly_ctx_set_searchdir p)))
          | None => mret tt
          end;
      found ← xcall search_dir_exists;
      _ ← (if (found : bool) then on_env (on_env (modify (ly_ctx_set_searchdir NC_CLIENT_SEARCH_DIR))) else mret tt);
      _ ← upd_conf (λ c, CtxConf (match schema_user_clb opts with Some f => UserClb f (schema_clb_data opts) | None => NoClb end)
                           false false false (cx_ext_data c));
      mret true.

(** ** Where modules come from *)

Definition retrieve_module_data_localfile (name : bytes) (rev : option bytes) : XM (option (LYS_INFORMAT * bytes)) :=
  c ← conf;
  r ← xcall (lys_search_localfile (negb (cx_no_cwd c)) name rev);
  match r with
  | None | Some None => mret None
  | Some (Some (localfile, format)) =>
    f ← xcall (module_fopen localfile);
    match f with
    | None => mret None
    | Some f =>
      length ← xcall (module_length f);
      data ←
        (if length <? 0 then mret None
         else
           ok ← xcall (malloc_ok (length + 1));
           if negb ok then mret None
           else
             d ← xcall (module_fread f length);
             mret (if zlen d =? length then Some (format, cstr d) else None));
      _ ← on_env (on_env (modify (module_fclose f)));
      mret data
    end
  end.

(** A computation on the memory of an RPC. *)
Definition with_heap {A} (h : cheap) (m : CH W A) : XM (A * cheap) := λ s,
  match m (h, s.2.2) with
  | Done (a, (h, w)) => Done ((a, h), (s.1, (s.2.1, w)))
  | NoFuel => NoFuel
  | Crash => Crash
  end.

(** [while ((msg = nc_send_rpc(...)) == NC_MSG_WOULDBLOCK) usleep(1000);] *)
Fixpoint send_loop (n : nat) (h : cheap) (rpc : ptr) : XM (NC_MSG_TYPE * option Z) :=
  match n with
  | O => no_fuel
  | S n =>
    '(msg, msgid) ← on_env (nc_send_rpc fuel h rpc 0);
    if bool_decide (msg = NC_MSG_WOULDBLOCK) then
      _ ← on_env (on_env (modify (usleep 1000)));
      send_loop n h rpc
    else mret (msg, msgid)
  end.

(** Notifications and replies to other RPCs are skipped. *)
Fixpoint recv_loop (n : nat) (rpc : ClientRecv.nc_rpc (node := node)) (msgid : Z)
    : XM (NC_MSG_TYPE * option (list (bytes * bytes)) * option node) :=
  match n with
  | O => no_fuel
  | S n =>
    '(msg, envp, op) ← on_env (nc_recv_reply fuel rpc msgid (NC_READ_ACT_TIMEOUT * 1000));
    if bool_decide (msg = NC_MSG_NOTIF) || bool_decide (msg = NC_MSG_REPLY_ERR_MSGID) then recv_loop n rpc msgid
    else mret (msg, envp, op)
  end.

(** Sends an RPC and waits for its reply; the memory of the RPC is released.  The message id is not initialised when sending
    neither succeeded nor failed, which does not happen.  [None] is a failed sending. *)
Definition exchange (h : cheap) (rpc : ptr) (t : NC_RPC_TYPE)
    : XM (option (NC_MSG_TYPE * option (list (bytes * bytes)) * option node)) :=
  '(msg, msgid) ← send_loop fuel h rpc;
  if bool_decide (msg = NC_MSG_ERROR) then _ ← with_heap h (nc_rpc_free rpc); mret None
  else
    match msgid with
    | None => crash
    | Some msgid =>
      r ← recv_loop fuel (ClientRecv.NcRpc t None) msgid;
      _ ← with_heap h (nc_rpc_free rpc);
      mret (Some r)
    end.

(** The texts of the arguments as memory, with their addresses. *)
Definition args_heap (l : list (option bytes)) : cheap :=
  list_to_map (omap (λ x, match x with (i, Some s) => Some (Pos.of_succ_nat i, CStr s) | _ => None end) (imap pair l)).

Definition arg (l : list (option bytes)) (i : nat) : ptr :=
  match l !! i with Some (Some _) => Some (Pos.of_succ_nat i) | _ => None end.

(** The name of the file a module is stored in. *)
Definition module_path (dir name : bytes) (rev : option bytes) : bytes :=
  dir ++ str "/" ++ name ++ match rev with Some r => str "@" ++ r | None => [] end ++ str ".yang".

(** A local copy of a module that was received, unless there is one. *)
Definition store_module (name : bytes) (rev : option bytes) (data : bytes) : XM unit :=
  found ← xcall (lys_search_localfile false name rev);
  match schema_searchpath opts, found with
  | Some dir, (None | Some None) =>
    ok ← xcall (malloc_ok (zlen (module_path dir name rev) + 1));
    if negb ok then mret tt else on_env (on_env (modify (module_store (module_path dir name rev) data)))
  | _, _ => mret tt
  end.

(** The text in the reply to get-schema. *)
Definition schema_text (op : node) : XM (option bytes) :=
  match lyd_child op with
  | None => mret None
  | Some OpaqueChild => crash
  | Some (SchemaChild _ false _) => mret None
  | Some (SchemaChild _ true v) =>
    match v with
    | AnyString s | AnyXml s => on_env (on_env (strdup s))
    | AnyTree _ text => mret text
    | AnyOther => mret None
    end
  end.

Definition retrieve_module_data_getschema (name : bytes) (rev : option bytes) : XM (option (LYS_INFORMAT * bytes)) :=
  let args := [Some name; rev; Some (str "yang")] in
  '(rpc, h) ← with_heap (args_heap args) (nc_rpc_getschema (arg args 0) (arg args 1) (arg args 2) NC_PARAMTYPE_CONST);
  r ← exchange h rpc NC_RPC_GETSCHEMA;
  match r with
  | None | Some (NC_MSG_WOULDBLOCK, _, _) | Some (NC_MSG_ERROR, _, _) => mret None
  | Some (_, envp, None) => _ ← guarded (bool_decide (is_Some envp)); mret None
  | Some (_, _, Some op) =>
    text ← schema_text op;
    match text with
    | None | Some [] => mret None
    | Some data => _ ← store_module name rev data; mret (Some (LYS_IN_YANG, data))
    end
  end.

(** [if (!model_data) model_data = ...] *)
Definition or_else {A} (r : option A) (m : XM (option A)) : XM (option A) :=
  match r with Some _ => mret r | None => m end.

Definition by_get_schema (d : clb_data_s) (name : bytes) (rev : option bytes) : XM (option (LYS_INFORMAT * bytes)) :=
  if cd_has_get_schema d then retrieve_module_data_getschema name rev else mret None.

Definition by_user (d : clb_data_s) (name : bytes) (rev sub sub_rev : option bytes) : XM (option (LYS_INFORMAT * bytes)) :=
  match cd_user d with
  | Some (f, x) => xcall (schema_clb f x name rev sub sub_rev)
  | None => mret None
  end.

Definition retrieve_module_data (d : clb_data_s) (mod_name : bytes) (mod_rev : option bytes) : XM (option (LYS_INFORMAT * bytes)) :=
  r ← retrieve_module_data_localfile mod_name mod_rev;
  r ← or_else r (by_get_schema d mod_name mod_rev);
  or_else r (by_user d mod_name mod_rev None None).

(** The loop for the revision of a module given without one: the revision and [match],
    the number of the last module of this name.  [strcmp] of a missing revision is undefined. *)
Fixpoint find_revision (mod_name : bytes) (l : list (bytes * module_info)) (u : nat) (mod_rev : option bytes) (mtch : nat)
    : XM (option bytes * nat) :=
  match l with
  | [] => mret (mod_rev, mtch)
  | (n, m) :: l =>
    if negb (strcmp_eq mod_name n) then find_revision mod_name l (u + 1) mod_rev mtch
    else
      replace ← (if (mtch =? 0)%nat then mret true
                 else match mod_rev, mi_revision m with
                      | Some a, Some b => mret (strcmp a b >? 0)
                      | _, _ => crash
                      end);
      find_revision mod_name l (u + 1) (if replace : bool then mi_revision m else mod_rev) (u + 1)
  end.

(** The revision of a submodule in the slots of its module: the last of its name. *)
Definition find_submodule (l : list (option bytes * option bytes)) (name : bytes) : option bytes :=
  foldl (λ rev x, if strcmp_eq name x.1 then x.2 else rev) None
    (until_null (map (λ x, match x.1 with Some n => Some (n, x.2) | None => None end) l)).

Definition retrieve_module_data_imp (d : clb_data_s) (mod_name : bytes) (mod_rev submod_name sub_rev : option bytes)
    : XM (option (LYS_INFORMAT * bytes)) :=
  '(mod_rev, mtch) ←
    match mod_rev with
    | None | Some [] => find_revision mod_name (listed (cd_modules d)) 0 mod_rev 0
    | _ => mret (mod_rev, 1%nat)
    end;
  let known := default no_info (cd_modules d !! (mtch - 1)%nat) in
  let target :=
    match submod_name with
    | None => Some (mod_name, mod_rev, sub_rev)
    | Some sub =>
      match sub_rev with
      | Some _ => Some (sub, sub_rev, sub_rev)
      | None =>
        if (mtch =? 0)%nat then Some (sub, None, sub_rev)
        else match mi_submodules known with
             | None => Some (sub, None, sub_rev)
             | Some l => match find_submodule l sub with Some r => Some (sub, Some r, Some r) | None => None end
             end
      end
    end in
  match target with
  | None => mret None
  | Some (name, rev, sub_rev) =>
    r ← (if (mtch =? 0)%nat then
           r ← by_get_schema d name rev;
           or_else r (retrieve_module_data_localfile name rev)
         else
           r ← retrieve_module_data_localfile name rev;
           or_else r (by_get_schema d name rev));
    or_else r (by_user d mod_name mod_rev submod_name sub_rev)
  end.

(** ** Loading a module *)

(** The callback of the context, called by the parser for an imported module.  Without
    one nothing is found, because the search directories are disabled. *)
Definition import_data (mod_name : bytes) (mod_rev submod_name sub_rev : option bytes) : XM (option (LYS_INFORMAT * bytes)) :=
  c ← conf;
  match cx_clb c with
  | NoClb => mret None
  | UserClb f x => xcall (schema_clb f x mod_name mod_rev submod_name sub_rev)
  | RetrieveClb d => retrieve_module_data_imp d mod_name mod_rev submod_name sub_rev
  end.

Fixpoint parse_imports (n : nat) (step : parse_step) : XM (option Z) :=
  match step with
  | ParseDone m => mret m
  | ParseImport mod_name mod_rev submod_name sub_rev =>
    match n with
    | O => no_fuel
    | S n =>
      data ← import_data mod_name mod_rev submod_name sub_rev;
      step ← xcall (lys_parse_resume data);
      parse_imports n step
    end
  end.

Definition lys_parse (data : bytes) (format : LYS_INFORMAT) (features : option (list bytes)) : XM (option Z) :=
  step ← xcall (lys_parse_start data format features);
  parse_imports fuel step.

(** The result and [*mod]. *)
Definition nc_ctx_load_module (name : bytes) (revision : option bytes) (features : option (list bytes)) (d : clb_data_s)
    : XM (Z * option Z) :=
  m ← xcall (ctx_module_implemented name);
  m ← match m with
      | Some _ => mret m
      | None => match revision with
                | Some r => xcall (ctx_module_revision name r)
                | None => xcall (ctx_module_latest name)
                end
      end;
  match m with
  | Some x =>
    ok ← xcall (lys_set_implemented x features);
    mret (if ok : bool then 0 else -1, m)
  | None =>
    data ← retrieve_module_data d name revision;
    m ← match data with
        | None => mret None
        | Some (format, text) =>
          _ ← upd_conf (set_clb (RetrieveClb d));
          m ← lys_parse text format features;
          _ ← upd_conf (set_clb NoClb);
          mret m
        end;
    mret (match m with None => -1 | Some _ => 0 end, m)
  end.

(** ** Operational data *)

(** The reply to get or get-data, with an XPath or a subtree filter; -1 when the session is no
    longer running. *)
Definition get_oper_data (has_get_data : bool) (filter : bytes) : XM (Z * option oper_data) :=
  '(rpc, h) ←
    (if has_get_data then
       let args := [Some (str "ietf-datastores:operational"); Some filter; Some (str "false")] in
       with_heap (args_heap args)
         (nc_rpc_getdata (arg args 0) (arg args 1) (arg args 2) None 0 false 0 false NC_WD_UNKNOWN NC_PARAMTYPE_CONST)
     else
       let args := [Some filter] in
       with_heap (args_heap args) (nc_rpc_get (arg args 0) NC_WD_UNKNOWN NC_PARAMTYPE_CONST));
  data ←
    match rpc with
    | None => mret None
    | Some _ =>
      r ← exchange h rpc (if has_get_data then NC_RPC_GETDATA else NC_RPC_GET);
      mret (match r with
            | None | Some (NC_MSG_WOULDBLOCK, _, _) | Some (NC_MSG_ERROR, _, _) | Some (_, _, None) => None
            | Some (_, _, Some op) =>
              match lyd_child op with
              | Some (SchemaChild name _ (AnyTree (Some t) _)) => if strcmp_eq name (str "data") then Some t else None
              | _ => None
              end
            end)
    end;
  s ← xses;
  mret (if bool_decide (status s = NC_STATUS_RUNNING) then 0 else -1, data).

Definition YL_XMLNS : bytes := str "urn:ietf:params:xml:ns:yang:ietf-yang-library".
Definition SM_XMLNS : bytes := str "urn:ietf:params:xml:ns:yang:ietf-yang-schema-mount".

Definition subtree (name ns : bytes) : bytes := str "<" ++ name ++ str " xmlns=" ++ [dq] ++ ns ++ [dq] ++ str "/>".

Definition yl_filter (xpath_sup : bool) : bytes :=
  if xpath_sup then str "/ietf-yang-library:*" else subtree (str "modules-state") YL_XMLNS.

Definition mounts_filter (xpath_sup : bool) : bytes :=
  if xpath_sup then str "/ietf-yang-library:* | /ietf-yang-schema-mount:*"
  else subtree (str "modules-state") YL_XMLNS ++ subtree (str "schema-mounts") SM_XMLNS.

(** The result and [*result]; a failed [get_oper_data] leaves the result 0. *)
Definition build_module_info_yl (get_data_sup xpath_sup : bool) : XM (Z * option (list module_info)) :=
  '(rc, data) ← get_oper_data get_data_sup (yl_filter xpath_sup);
  match (data : option oper_data) with
  | Some t =>
    if negb (rc =? 0) then mret (0, None)
    else
      match od_modules t with
      | None => mret (0, None)
      | Some mods =>
        ok ← xcall (malloc_ok ((zlen mods + 1) * 40));
        if negb ok then mret (-1, None)
        else
          r ← on_env (on_env (yl_modules mods));
          mret (match r with None => -1 | Some _ => 0 end, r)
      end
  | None => mret (0, None)
  end.

(** ** Filling the context *)

(** The modules are implemented one after the other; [false] is the end of the session. *)
Fixpoint nc_ctx_fill_loop (l : list (bytes * module_info)) (d : clb_data_s) : XM bool :=
  match l with
  | [] => mret true
  | (name, m) :: l =>
    if negb (mi_implemented m) then nc_ctx_fill_loop l d
    else
      '(_, x) ← nc_ctx_load_module name (mi_revision m) (until_null <$> mi_features m) d;
      match x with
      | Some _ => nc_ctx_fill_loop l d
      | None =>
        s ← xses;
        if negb (bool_decide (status s = NC_STATUS_RUNNING)) then mret false
        else
          _ ← on_env (upd_ses (λ s, set_flags (Z.lor (flags s) NC_SESSION_CLIENT_NOT_STRICT) s));
          nc_ctx_fill_loop l d
      end
  end.

Definition nc_ctx_fill (d : clb_data_s) : XM Z :=
  ok ← nc_ctx_fill_loop (listed (cd_modules d)) d;
  mret (if ok : bool then 0 else -1).

Definition nc_ctx_fill_ietf_netconf (d : clb_data_s) : XM Z :=
  match list_find (λ x, x.1 = str "ietf-netconf") (listed (cd_modules d)) with
  | None => mret (-1)
  | Some (_, (_, m)) =>
    _ ← guarded (mi_implemented m);
    let features := until_null <$> mi_features m in
    x ← xcall (ctx_module_implemented (str "ietf-netconf"));
    x ← match x with
        | Some i => _ ← xcall (lys_set_implemented i features); mret x
        | None =>
          '(_, x) ← nc_ctx_load_module (str "ietf-netconf") None features d;
          match x with
          | Some _ => mret x
          | None => lys_parse ietf_netconf_yang LYS_IN_YANG features
          end
        end;
    mret (match x with None => -1 | Some _ => 0 end)
  end.

Definition nc_ctx_schema_mount (get_data_sup xpath_sup : bool) : XM Z :=
  s ← xses;
  if negb (Z.land (flags s) NC_SESSION_SHAREDCTX =? 0) then mret 0
  else
    '(rc, data) ← get_oper_data get_data_sup (mounts_filter xpath_sup);
    if negb (rc =? 0) then mret rc
    else
      match data with
      | Some t =>
        if negb (od_mounts t) then mret 0
        else
          ok ← xcall (lyd_validate_all t);
          if negb ok then mret (-1)
          else _ ← upd_conf (set_ext_data (Some t)); mret 0
      | None => mret 0
      end.

(** ** [nc_ctx_check_and_fill] *)

(** The last capability with one of the prefixes, as its number plus 1: get-schema,
    yang-library, XPath and NMDA. *)
Record supported := Supported { sup_get_schema : nat; sup_yanglib : nat; sup_xpath : nat; sup_nmda : nat }.

Definition check_cpblt (i : nat) (c : bytes) (s : supported) : supported :=
  let has t := strncmp_eq c (str t) (String.length t) in
  if has "urn:ietf:params:xml:ns:yang:ietf-netconf-monitoring?"%string then Supported (1 + i) (sup_yanglib s) (sup_xpath s) (sup_nmda s)
  else if has "urn:ietf:params:netconf:capability:yang-library:"%string then Supported (sup_get_schema s) (1 + i) (sup_xpath s) (sup_nmda s)
  else if has "urn:ietf:params:netconf:capability:xpath:1.0"%string then Supported (sup_get_schema s) (sup_yanglib s) (1 + i) (sup_nmda s)
  else if has "urn:ietf:params:xml:ns:yang:ietf-netconf-nmda"%string then Supported (sup_get_schema s) (sup_yanglib s) (sup_xpath s) (1 + i)
  else s.

Fixpoint check_cpblts (i : nat) (l : list bytes) (s : supported) : supported :=
  match l with
  | [] => s
  | c :: l => check_cpblts (i + 1) l (check_cpblt i c s)
  end.

(** ietf-yang-library in the revision of its capability, and ietf-datastores with its
    newer revisions; whether yang-library can be used. *)
Definition load_yanglib (cpblt : bytes) (d : clb_data_s) : XM bool :=
  match strstr cpblt (str "revision=") with
  | None => mret false
  | Some r =>
    rev ← on_env (on_env (strdup (take 10 (drop 9 r))));
    '(r1, _) ← nc_ctx_load_module (str "ietf-yang-library") rev None d;
    match rev with
    | None => crash
    | Some rev =>
      if 0 <=? strcmp rev (str "2019-01-04") then
        '(r2, _) ← nc_ctx_load_module (str "ietf-datastores") None None d;
        mret ((r1 =? 0) && (r2 =? 0))
      else mret (r1 =? 0)
    end
  end.

(** The list of modules from yang-library, or else the list of the capabilities; [None] is an
    error. *)
Definition choose_modules (yanglib nmda xpath : bool) (modules : list module_info) : XM (option (list module_info)) :=
  if yanglib then
    '(rc, sm) ← build_module_info_yl nmda xpath;
    mret (if negb (rc =? 0) then None else Some (default modules sm))
  else mret (Some modules).

(** From the list of modules on, with the user's callback [user]. *)
Definition check_and_fill (cpblts : list bytes) (user : option (Z * Z)) : XM Z :=
  let sup := check_cpblts 0 cpblts (Supported 0 0 0 0) in
  mods ← on_env (on_env (build_module_info_cpblts cpblts));
  match mods with
  | None => mret (-1)
  | Some mods =>
    get_schema ← (if (sup_get_schema sup =? 0)%nat then mret false
                  else m ← lys_parse ietf_netconf_monitoring_yang LYS_IN_YANG None; mret (bool_decide (is_Some m)));
    let d := ClbData user mods get_schema in
    r ← nc_ctx_fill_ietf_netconf d;
    if negb (r =? 0) then mret (-1)
    else
      yanglib ← match sup_yanglib sup with
                | O => mret false
                | S i => match cpblts !! i with None => crash | Some c => load_yanglib c d end
                end;
      nmda ← (if (sup_nmda sup =? 0)%nat then mret false
              else '(r, _) ← nc_ctx_load_module (str "ietf-netconf-nmda") None None d; mret (r =? 0));
      let xpath := negb (sup_xpath sup =? 0)%nat in
      mods ← choose_modules yanglib nmda xpath mods;
      match mods with
      | None => mret (-1)
      | Some mods =>
        _ ← upd_conf (set_explicit_compile true);
        r ← nc_ctx_fill (ClbData user mods get_schema);
        if negb (r =? 0) then mret (-1)
        else
          ok ← xcall ly_ctx_compile;
          if negb ok then mret (-1)
          else
            r ← nc_ctx_schema_mount nmda xpath;
            mret (if r =? 0 then 0 else -1)
      end
  end.

(** The import callback of the context and two of its options are changed meanwhile. *)
Definition nc_ctx_check_and_fill : XM Z :=
  s ← xses;
  match cpblts (client s) with
  | None => crash
  | Some l =>
    c ← conf;
    let old := cx_clb c in
    let user := match old with UserClb f x => Some (f, x) | _ => None end in
    _ ← upd_conf (λ c, set_clb NoClb (set_no_searchdirs true c));
    ret ← check_and_fill l user;
    _ ← upd_conf (λ c, set_explicit_compile false (set_no_searchdirs false (set_clb old c)));
    mret ret
  end.
End schemas.
