(* ===== verification/SchemasProofs.v ===== *)
(** * Loading the schemas of a server: what stays as it was

    Filling the context changes its import callback and two of its options only for the
    time of the call, whatever the server and libyang do.  Also which revision of an imported
    module the client asks for. *)

From S2P Require Import Prelude Session Env Time Locks IoRead IoWrite Capabilities ClientRecv ClientRpc SendRpc.
From S2P Require Import SshAuthProofs Sim IoTheorems RpcTheorems ModuleInfo Schemas.
From Stdlib Require Import ZArith Ascii String Lia.
From stdpp Require Import base list strings gmap numbers.
Open Scope Z_scope.

(** ** The order of revisions *)

Lemma strcmp_refl a : strcmp a a = 0.
Proof. induction a as [|x a IH]; [done|]. cbn [strcmp]. by rewrite N.ltb_irrefl. Qed.

Lemma strcmp_le_trans a b c : strcmp a b ≤ 0 → strcmp b c ≤ 0 → strcmp a c ≤ 0.
Proof.
  revert b c. induction a as [|x a IH]; intros [|y b] [|z c]; cbn [strcmp]; try lia.
  destruct (N.ltb_spec (N_of_ascii x) (N_of_ascii y)), (N.ltb_spec (N_of_ascii y) (N_of_ascii x)),
    (N.ltb_spec (N_of_ascii y) (N_of_ascii z)), (N.ltb_spec (N_of_ascii z) (N_of_ascii y)),
    (N.ltb_spec (N_of_ascii x) (N_of_ascii z)), (N.ltb_spec (N_of_ascii z) (N_of_ascii x)); try lia. apply IH.
Qed.

Lemma strcmp_gt a b : strcmp a b > 0 → strcmp b a ≤ 0.
Proof.
  revert b. induction a as [|x a IH]; intros [|y b]; cbn [strcmp]; try lia.
  destruct (N.ltb_spec (N_of_ascii x) (N_of_ascii y)), (N.ltb_spec (N_of_ascii y) (N_of_ascii x)); try lia. apply IH.
Qed.

(** ** Computations that do not change the settings of the context *)

Definition stable {X Y A} (m : M (X * Y) A) : Prop := ∀ s, post m (λ _ s', s'.1 = s.1) s.

Section stable.
Context {X Y : Type}.
Implicit Types A B : Type.

Lemma stable_bind {A B} (m : M (X * Y) A) (k : A → M (X * Y) B) : stable m → (∀ a, stable (k a)) → stable (m ≫= k).
Proof.
  intros Hm Hk s. apply post_bind. eapply post_mono; [apply Hm|]. intros a s1 E. eapply post_mono; [apply Hk|].
  intros b s2 E2. congruence.
Qed.

Lemma stable_ret {A} (a : A) : stable (mret a : M (X * Y) A).
Proof. by intros s. Qed.

Lemma stable_gets {A} (f : X * Y → A) : stable (gets f).
Proof. by intros s. Qed.

Lemma stable_on_env {A} (m : M Y A) : stable (on_env m : M (X * Y) A).
Proof. intros [x y]. apply post_on_env. eapply post_mono; [apply post_any|]. done. Qed.

Lemma stable_no_fuel {A} : stable (no_fuel : M (X * Y) A).
Proof. by intros s. Qed.

Lemma stable_crash {A} : stable (crash : M (X * Y) A).
Proof. by intros s. Qed.

Lemma stable_guarded b : stable (guarded b : M (X * Y) unit).
Proof. by destruct b; intros s. Qed.
End stable.

Create HintDb stable.
#[export] Hint Resolve @stable_ret @stable_gets @stable_on_env @stable_no_fuel @stable_crash @stable_guarded : stable.

(** One step through a computation: a bind, a case distinction or a known lemma. *)
Ltac stable_step :=
  lazymatch goal with
  | |- stable (mbind _ _) => apply stable_bind; [|intros ?]
  | |- stable (match ?x with _ => _ end) => destruct x
  | |- stable _ => first [solve [auto with stable] | progress cbv beta zeta]
  end.

Ltac stable := repeat stable_step.

Section restored.
Context {W node envelope : Type} `{!Env W} `{!LyBuild W} `{!Printer dnode envelope} `{!ClientEnv W node}.
Context `{!ReplyData node} `{!LySchema W} `{!BuildConstants}.
Context (opts : schema_opts) (fuel : nat).

Abbreviation XM := (M (ctx_conf * (nc_session * W))).

Lemma stable_conf : stable (conf : XM _).
Proof. apply stable_gets. Qed.

Lemma stable_xcall {A} (f : W → A * W) : stable (xcall f).
Proof. apply stable_on_env. Qed.

Lemma stable_with_heap {A} h (m : CH W A) : stable (with_heap h m).
Proof. intros [c [s w]]. unfold post, with_heap. cbn. by destruct (m (h, w)) as [[a [h' w']]| |]. Qed.

Hint Resolve stable_conf @stable_xcall @stable_with_heap : stable.

Lemma stable_localfile name rev : stable (retrieve_module_data_localfile (W := W) name rev).
Proof. unfold retrieve_module_data_localfile. stable. Qed.

Lemma stable_send_loop n h rpc : stable (send_loop (W := W) (envelope := envelope) fuel n h rpc).
Proof. induction n; cbn [send_loop]; stable. Qed.

Lemma stable_recv_loop n rpc id : stable (recv_loop (W := W) (node := node) fuel n rpc id).
Proof. induction n; cbn [recv_loop]; stable. Qed.

Hint Resolve stable_localfile stable_send_loop stable_recv_loop : stable.

Lemma stable_exchange h rpc t : stable (exchange (W := W) (node := node) (envelope := envelope) fuel h rpc t).
Proof. unfold exchange. stable. Qed.

Hint Resolve stable_exchange : stable.

Lemma stable_getschema name rev :
  stable (retrieve_module_data_getschema (W := W) (node := node) (envelope := envelope) opts fuel name rev).
Proof. unfold retrieve_module_data_getschema, schema_text, store_module. stable. Qed.

Hint Resolve stable_getschema : stable.

Lemma stable_or_else {A} (r : option A) (m : XM (option A)) : stable m → stable (or_else r m).
Proof. intros Hm. by destruct r; [apply stable_ret|]. Qed.

Lemma stable_by_get_schema d name rev :
  stable (by_get_schema (W := W) (node := node) (envelope := envelope) opts fuel d name rev).
Proof. unfold by_get_schema. stable. Qed.

Lemma stable_by_user d name rev sub sub_rev : stable (by_user (W := W) d name rev sub sub_rev).
Proof. unfold by_user. stable. Qed.

Hint Resolve @stable_or_else stable_by_get_schema stable_by_user : stable.

Lemma stable_find_revision name l u rev k : stable (find_revision (W := W) name l u rev k).
Proof. revert u rev k. induction l as [|[n m] l IH]; intros u rev k; cbn [find_revision]; stable. Qed.

Hint Resolve stable_find_revision : stable.

Lemma stable_retrieve d name rev :
  stable (retrieve_module_data (W := W) (node := node) (envelope := envelope) opts fuel d name rev).
Proof. unfold retrieve_module_data. stable. Qed.

Lemma stable_retrieve_imp d name rev sub sub_rev :
  stable (retrieve_module_data_imp (W := W) (node := node) (envelope := envelope) opts fuel d name rev sub sub_rev).
Proof. unfold retrieve_module_data_imp. stable. Qed.

Hint Resolve stable_retrieve stable_retrieve_imp : stable.

Lemma stable_parse data format features :
  stable (lys_parse (W := W) (node := node) (envelope := envelope) opts fuel data format features).
Proof.
  unfold lys_parse. apply stable_bind; [apply stable_xcall|]. generalize fuel at 2. intros n. induction n as [|n IH]; intros []; cbn [parse_imports]; unfold import_data; stable.
Qed.

Hint Resolve stable_parse : stable.

(** ** Computations that leave the context without a callback *)

Definition mild {A} (m : XM A) : Prop := ∀ s, cx_clb s.1 = NoClb →
  post m (λ _ s', cx_clb s'.1 = NoClb ∧ cx_no_cwd s'.1 = cx_no_cwd s.1) s.

Lemma mild_stable {A} (m : XM A) : stable m → mild m.
Proof. intros Hm s Hs. eapply post_mono; [apply Hm|]. cbn. by intros a s' ->. Qed.

Lemma mild_bind {A B} (m : XM A) (k : A → XM B) : mild m → (∀ a, mild (k a)) → mild (m ≫= k).
Proof.
  intros Hm Hk s Hs. apply post_bind. eapply post_mono; [by apply Hm|]. intros a s1 [H1 E1]. eapply post_mono; [by apply Hk|].
  intros b s2 [H2 E2]. split; [done|congruence].
Qed.

Lemma mild_upd f : (∀ c, cx_clb (f c) = cx_clb c ∧ cx_no_cwd (f c) = cx_no_cwd c) → mild (upd_conf f).
Proof. intros Hf s Hs. apply post_modify. cbn. destruct (Hf s.1). split; congruence. Qed.

Ltac mild_step :=
  lazymatch goal with
  | |- mild (mbind _ _) => apply mild_bind; [|intros ?]
  | |- mild (match ?x with _ => _ end) => destruct x
  | |- mild (upd_conf _) => by apply mild_upd
  | |- mild _ => first [solve [auto with stable] | apply mild_stable; solve [auto with stable] | progress cbv beta zeta]
  end.

Ltac mild := repeat mild_step.

Lemma mild_load_module name rev features d :
  mild (nc_ctx_load_module (W := W) (node := node) (envelope := envelope) opts fuel name rev features d).
Proof.
  unfold nc_ctx_load_module. do 2 (apply mild_bind; [mild|intros ?]). mild_step; [mild|].
  apply mild_bind; [mild|intros data]. apply mild_bind; [|intros m; mild]. destruct data as [[format text]|]; [|mild].
  intros s Hs. apply post_bind, post_modify, post_bind. eapply post_mono; [apply stable_parse|]. intros m s1 E.
  apply post_bind, post_modify, post_ret. cbn. by rewrite E.
Qed.

Lemma stable_get_oper_data b filter :
  stable (get_oper_data (W := W) (node := node) (envelope := envelope) fuel b filter).
Proof. unfold get_oper_data. stable. Qed.

Hint Resolve mild_load_module stable_get_oper_data : stable.

Lemma mild_fill_ietf_netconf d :
  mild (nc_ctx_fill_ietf_netconf (W := W) (node := node) (envelope := envelope) opts fuel d).
Proof. unfold nc_ctx_fill_ietf_netconf. mild. Qed.

Lemma mild_fill d : mild (nc_ctx_fill (W := W) (node := node) (envelope := envelope) opts fuel d).
Proof.
  unfold nc_ctx_fill. apply mild_bind; [|intros ?; mild]. generalize (listed (cd_modules d)). intros l.
  induction l as [|[name m] l IH]; cbn [nc_ctx_fill_loop]; mild.
Qed.

Lemma mild_schema_mount b x : mild (nc_ctx_schema_mount (W := W) (node := node) (envelope := envelope) fuel b x).
Proof. unfold nc_ctx_schema_mount. mild. Qed.

Lemma stable_build_yl b x : stable (build_module_info_yl (W := W) (node := node) (envelope := envelope) fuel b x).
Proof. unfold build_module_info_yl. stable. Qed.

Hint Resolve mild_fill_ietf_netconf mild_fill mild_schema_mount stable_build_yl : stable.

Lemma mild_check_and_fill cpblts user :
  mild (check_and_fill (W := W) (node := node) (envelope := envelope) opts fuel cpblts user).
Proof. unfold check_and_fill, load_yanglib, choose_modules. mild. Qed.
End restored.


(** ** A client with a directory of modules

    Every module is found in a file, and parsing one asks for the module [b] first. *)

#[export] Instance demo_client_env : ClientEnv (sim true true) reply_child := {
  has_module _ w := (true, w);
  lyd_new_inner _ _ w := (Some OpaqueChild, w);
  generic_op _ w := (None, w);
  parse_reply _ _ w := (None, w);
  lyd_has_child _ := true;
  parse_notif _ w := (None, w);
  is_complete _ := false;
}.

#[export] Instance demo_reply : ReplyData reply_child := Some.

#[export] Instance demo_constants : BuildConstants := {
  NC_CLIENT_SEARCH_DIR := str "/usr/share/yang";
  ietf_netconf_yang := str "module ietf-netconf";
  ietf_netconf_monitoring_yang := str "module ietf-netconf-monitoring";
}.

#[export] Instance demo_schemas : LySchema (sim true true) := {
  ly_ctx_new w := (true, w);
  ly_ctx_set_searchdir _ w := w;
  search_dir_exists w := (true, w);
  ctx_module_implemented _ w := (None, w);
  ctx_module_revision _ _ w := (None, w);
  ctx_module_latest _ w := (None, w);
  lys_set_implemented _ _ w := (true, w);
  lys_parse_start _ _ _ w := (ParseImport (str "b") None None None, w);
  lys_parse_resume d w := (ParseDone (match d with Some _ => Some 1 | None => None end), w);
  ly_ctx_compile w := (true, w);
  lys_search_localfile _ name _ w := (Some (Some (name, LYS_IN_YANG)), w);
  module_fopen _ w := (Some 7, w);
  module_length _ w := (6, w);
  module_fread _ _ w := (str "module", w);
  module_fclose _ w := w;
  module_store _ _ w := w;
  schema_clb _ _ _ _ _ _ w := (None, w);
  lyd_validate_all _ w := (true, w);
}.

(** A session with a context of the user, after a hello with two modules. *)
Definition demo_filled : nc_session :=
  Session NC_STATUS_RUNNING NC_SESSION_TERM_NONE 0 NC_CLIENT 1 NC_VERSION_11 (TiFd 4 5) (Some false) None None 0 None
    NC_SESSION_SHAREDCTX
    (ClientOpts 0 (Some [str "urn:ietf:params:xml:ns:netconf:base:1.0?module=ietf-netconf&revision=2013-09-29";
                         str "urn:b?module=b&revision=2026-01-01"]) [] false 0 0) (ServerOpts 0 0 0 false 0).

Definition demo_conf : ctx_conf := CtxConf (UserClb 3 4) false true false None.


(** ** Which revision is imported *)

(** The modules of a name. *)
Definition of_name (name : bytes) (l : list (bytes * module_info)) : list module_info :=
  map snd (filter (λ x, x.1 = name) l).

Lemma find_revision_least {W} name l u r k (s : ctx_conf * (nc_session * W)) :
  k ≠ 0%nat → Forall (λ m, is_Some (mi_revision m)) (of_name name l) →
  ∃ r' k', find_revision name l u (Some r) k s = Done ((Some r', k'), s) ∧ k' ≠ 0%nat ∧
    (r' = r ∨ ∃ m, m ∈ of_name name l ∧ mi_revision m = Some r') ∧ strcmp r' r ≤ 0 ∧
    ∀ m x, m ∈ of_name name l → mi_revision m = Some x → strcmp r' x ≤ 0.
Proof.
  revert u r k. induction l as [|[n m] l IH]; intros u r k Hk Hl.
  { exists r, k. split_and!; [done|done|by left|by rewrite strcmp_refl|]. intros m x Hm. by apply not_elem_of_nil in Hm. }
  unfold of_name in *. cbn [find_revision]. unfold strcmp_eq. destruct (decide (n = name)) as [->|N].
  2: { rewrite bool_decide_false by done. cbn [negb]. rewrite filter_cons_False in * by done. by apply IH. }
  rewrite bool_decide_true by done. cbn [negb]. rewrite filter_cons_True in * by done. cbn [map snd] in *.
  inversion Hl as [|? ? [r1 Er1] Hl2]. subst. destruct k as [|k]; [done|]. cbn [Nat.eqb]. rewrite Er1.
  set (r2 := if strcmp r r1 >? 0 then r1 else r).
  assert (H2 : strcmp r2 r ≤ 0 ∧ strcmp r2 r1 ≤ 0 ∧ (r2 = r ∨ r2 = r1)).
  { unfold r2. destruct (Z.gtb_spec (strcmp r r1) 0) as [G|G]; rewrite strcmp_refl; split_and!; try lia; auto; try (apply strcmp_gt; lia). }
  destruct H2 as (Hr & Hr1 & Hin). destruct (IH (u + 1)%nat r2 (u + 1)%nat ltac:(lia) Hl2) as (r' & k' & E & Hk' & Hin' & Hle & Hmin).
  exists r', k'. split_and!; [|done| |by eapply strcmp_le_trans|].
  - rewrite <- E. unfold r2. unfold mbind, M_bind, mret, M_ret. by destruct (strcmp r r1 >? 0).
  - destruct Hin' as [->|(m' & Hm' & Em')]; [|right; exists m'; split; [by right|done]].
    destruct Hin as [->| ->]; [by left|]. right. exists m. split; [by left|done].
  - intros m' x [->|Hm']%elem_of_cons Ex; [|by eapply Hmin]. rewrite Er1 in Ex. injection Ex as <-. by eapply strcmp_le_trans.
Qed.

(** For an import without a revision the client means to ask for the newest revision that the server has of the module,
    and asks for the oldest one: the comparison is the wrong way round.  With a list of modules that all have revisions the one chosen is
    that of a module of the name, and no other is older. *)
Theorem import_oldest {W} name l (s : ctx_conf * (nc_session * W)) :
  of_name name l ≠ [] → Forall (λ m, is_Some (mi_revision m)) (of_name name l) →
  ∃ r k, find_revision name l 0 None 0 s = Done ((Some r, k), s) ∧
    (∃ m, m ∈ of_name name l ∧ mi_revision m = Some r) ∧
    ∀ m x, m ∈ of_name name l → mi_revision m = Some x → strcmp r x ≤ 0.
Proof.
  generalize 0%nat at 1. induction l as [|[n m] l IH]; intros u Hne Hl; [done|].
  cbn [find_revision]. unfold strcmp_eq, of_name in *. destruct (decide (n = name)) as [->|N].
  2: { rewrite bool_decide_false by done. cbn [negb]. rewrite filter_cons_False in * by done. by apply IH. }
  rewrite bool_decide_true by done. cbn [negb]. rewrite filter_cons_True in * by done. cbn [map snd] in *.
  inversion Hl as [|? ? [r1 Er1] Hl2]. subst. rewrite Er1.
  destruct (find_revision_least name l (u + 1) r1 (u + 1) s ltac:(lia) Hl2) as (r' & k' & E & _ & Hin & Hle & Hmin).
  exists r', k'. split_and!; [exact E| |].
  - destruct Hin as [->|(m' & Hm' & Em')]; [exists m; split; [by left|done]|]. exists m'. split; [by right|done].
  - intros m' x [->|Hm']%elem_of_cons Ex; [|by eapply Hmin]. rewrite Er1 in Ex. by injection Ex as <-.
Qed.

Definition demo_revision (r : string) : bytes * module_info :=
  (str "m", ModuleInfo (Some (str "m")) (Some (str r)) None None true).

Lemma import_oldest_witness :
  ∃ k s', find_revision (str "m") [demo_revision "2020-01-01"; demo_revision "2026-01-01"; demo_revision "2013-01-01"] 0 None 0
    (demo_conf, (demo_filled, demo_world (m0 := true) (up := true) [])) = Done ((Some (str "2013-01-01"), k), s').
Proof.
  destruct (import_oldest (str "m") [demo_revision "2020-01-01"; demo_revision "2026-01-01"; demo_revision "2013-01-01"]
    (demo_conf, (demo_filled, demo_world (m0 := true) (up := true) []))) as (r & k & E & (m & _ & _) & _).
  - by vm_compute.
  - repeat constructor; by eexists.
  - exists k, (demo_conf, (demo_filled, demo_world (m0 := true) (up := true) [])).
    assert (r = str "2013-01-01") as -> by (vm_compute in E; by injection E). exact E.
Defined.
