(* ===== verification/TlsCliOpts.v ===== *)
(** * TLS on the client side: options, SSL contexts, verification of the server

    src/session_client_tls.c: a client has two sets of TLS options, for connections it starts and
    for Call Home.  Before each connection the SSL context and the store of
    revocation lists are brought up to date; OpenSSL calls [tlsauth_verify_callback] for the certificates of the
    server while it connects.  OpenSSL is a parameter. *)

From S2P Require Import Prelude Session Env Time Locks IoRead Capabilities TlsOpts TlsVerify.
From Stdlib Require Import ZArith Ascii String Lia.
From stdpp Require Import base list strings gmap numbers.
Open Scope Z_scope.

(** What an [SSL_CTX] was told: its certificate and key, the locations of trusted
    certificates, the name expected of the server. *)
Record ssl_ctx := SslCtx {
  sc_cert : option bytes;
  sc_key : option bytes;
  sc_ca : option (option bytes * option bytes);
  sc_host : option bytes;
}.

(** A string owned by the options; a freed one must not be used or freed again. *)
Inductive cpath := NullPath | Path (s : bytes) | FreedPath.

Record nc_client_tls_opts := NcClientTlsOpts {
  cert_path : cpath;
  key_path : cpath;
  ca_file : cpath;
  ca_dir : cpath;
  tls_ctx_change : bool;
  tls_ctx : option ssl_ctx;
  crl_file : cpath;
  crl_dir : cpath;
  crl_store_change : bool;
  cli_crl_store : option (list crl_source);
}.

(** After [calloc] or [memset]. *)
Definition zero_tls_opts : nc_client_tls_opts := NcClientTlsOpts NullPath NullPath NullPath NullPath false None NullPath NullPath false None.

Record client_tls := ClientTls { tls_opts : nc_client_tls_opts; tls_ch_opts : nc_client_tls_opts }.

Definition set_cert_key c k (o : nc_client_tls_opts) :=
  NcClientTlsOpts c k (ca_file o) (ca_dir o) (tls_ctx_change o) (tls_ctx o) (crl_file o) (crl_dir o) (crl_store_change o) (cli_crl_store o).
Definition set_ca f d (o : nc_client_tls_opts) :=
  NcClientTlsOpts (cert_path o) (key_path o) f d (tls_ctx_change o) (tls_ctx o) (crl_file o) (crl_dir o) (crl_store_change o) (cli_crl_store o).
Definition set_ctx_change b (o : nc_client_tls_opts) :=
  NcClientTlsOpts (cert_path o) (key_path o) (ca_file o) (ca_dir o) b (tls_ctx o) (crl_file o) (crl_dir o) (crl_store_change o) (cli_crl_store o).
Definition set_tls_ctx x (o : nc_client_tls_opts) :=
  NcClientTlsOpts (cert_path o) (key_path o) (ca_file o) (ca_dir o) (tls_ctx_change o) x (crl_file o) (crl_dir o) (crl_store_change o) (cli_crl_store o).
Definition set_crl f d (o : nc_client_tls_opts) :=
  NcClientTlsOpts (cert_path o) (key_path o) (ca_file o) (ca_dir o) (tls_ctx_change o) (tls_ctx o) f d (crl_store_change o) (cli_crl_store o).
Definition set_crl_change b (o : nc_client_tls_opts) :=
  NcClientTlsOpts (cert_path o) (key_path o) (ca_file o) (ca_dir o) (tls_ctx_change o) (tls_ctx o) (crl_file o) (crl_dir o) b (cli_crl_store o).
Definition set_cli_crl_store x (o : nc_client_tls_opts) :=
  NcClientTlsOpts (cert_path o) (key_path o) (ca_file o) (ca_dir o) (tls_ctx_change o) (tls_ctx o) (crl_file o) (crl_dir o) (crl_store_change o) x.

(** A handshake: OpenSSL asks the callback about a certificate, with its own opinion, or the call of [SSL_connect] returns
    [1], wants to read more, or fails. *)
Inductive ssl_step (cert : Type) :=
| SslVerify (preverify_ok : bool) (c : cert)
| SslConnected
| SslWantRead
| SslFailed.
Arguments SslVerify {cert}.
Arguments SslConnected {cert}.
Arguments SslWantRead {cert}.
Arguments SslFailed {cert}.

Class TlsCliEnv (W cert : Type) := {
  SSL_CTX_new : W → bool * W;
  SSL_CTX_use_certificate_file : option bytes → W → bool * W;
  SSL_CTX_use_PrivateKey_file : option bytes → W → bool * W;
  SSL_CTX_load_verify_locations : option bytes → option bytes → W → bool * W;
  SSL_CTX_set_host : bytes → W → bool * W;
  cli_X509_STORE_new : W → bool * W;
  X509_STORE_add_lookup : bool → W → bool * W;
  X509_LOOKUP_add_dir : crl_source → W → bool * W;
  SSL_new : ssl_ctx → W → bool * W;
  SSL_set_fd : Z → W → W;
  SSL_connect : W → ssl_step cert * W;
  SSL_verified : bool → W → ssl_step cert * W;
  SSL_free : W → W;
  SSL_is_init_finished : W → bool * W;
}.

Section options.
Context {W : Type} `{!Env W}.

Abbreviation TM := (M (nc_client_tls_opts * W)).

Definition topts : TM nc_client_tls_opts := gets fst.
Definition upd_topts (f : nc_client_tls_opts → nc_client_tls_opts) : TM unit := modify (λ s, (f s.1, s.2)).

(** The functions of the API for the two sets differ only in the set. *)
Definition on_tls {A} (ch : bool) (m : TM A) : M (client_tls * W) A := λ s,
  match m (if ch then tls_ch_opts s.1 else tls_opts s.1, s.2) with
  | Done (a, (o, w)) => Done (a, (if ch then ClientTls (tls_opts s.1) o else ClientTls o (tls_ch_opts s.1), w))
  | NoFuel => NoFuel
  | Crash => Crash
  end.

(** [free(p)] *)
Definition free_path (p : cpath) : TM unit := guarded (match p with FreedPath => false | _ => true end).

(** The string of a path, [None] for [NULL]. *)
Definition path_val (p : cpath) : TM (option bytes) :=
  match p with NullPath => mret None | Path s => mret (Some s) | FreedPath => crash end.

Definition _nc_client_tls_destroy_opts : TM unit :=
  o ← topts;
  _ ← free_path (cert_path o);
  _ ← free_path (key_path o);
  _ ← free_path (ca_file o);
  _ ← free_path (ca_dir o);
  _ ← free_path (crl_file o);
  _ ← free_path (crl_dir o);
  upd_topts (λ _, zero_tls_opts).

Definition nc_client_tls_destroy_opts : M (client_tls * W) unit :=
  _ ← on_tls false _nc_client_tls_destroy_opts;
  on_tls true _nc_client_tls_destroy_opts.

(** A copy of an argument, or [NULL]; [None] when there is no memory. *)
Definition copy_path (p : option bytes) : TM (option cpath) :=
  match p with
  | None => mret (Some NullPath)
  | Some p => d ← on_env (strdup p); mret (Path <$> d)
  end.

(** The common part of the three functions that set two paths: both are freed, then both are copied.  When
    the first copy fails, the second path still points to the freed string. *)
Definition set_two_paths (get : nc_client_tls_opts → cpath * cpath) (set : cpath → cpath → nc_client_tls_opts → nc_client_tls_opts)
    (a b : option bytes) (changed : nc_client_tls_opts → nc_client_tls_opts) : TM Z :=
  o ← topts;
  _ ← free_path (get o).1;
  _ ← free_path (get o).2;
  x ← copy_path a;
  match x with
  | None => _ ← upd_topts (set NullPath (match (get o).2 with NullPath => NullPath | _ => FreedPath end)); mret (-1)
  | Some x =>
    y ← copy_path b;
    match y with
    | None => _ ← upd_topts (set x NullPath); mret (-1)
    | Some y => _ ← upd_topts (λ o, changed (set x y o)); mret 0
    end
  end.

Definition nc_client_tls_set_cert_key_paths (ch : bool) (client_cert client_key : option bytes) : M (client_tls * W) Z :=
  on_tls ch (
    match client_cert with
    | None => mret (-1)
    | Some _ => set_two_paths (λ o, (cert_path o, key_path o)) set_cert_key client_cert client_key (set_ctx_change true)
    end).

Definition nc_client_tls_get_cert_key_paths (ch : bool) : M (client_tls * W) (cpath * cpath) :=
  on_tls ch (o ← topts; mret (cert_path o, key_path o)).

Definition nc_client_tls_set_trusted_ca_paths (ch : bool) (file dir : option bytes) : M (client_tls * W) Z :=
  on_tls ch (
    match file, dir with
    | None, None => mret (-1)
    | _, _ => set_two_paths (λ o, (ca_file o, ca_dir o)) set_ca file dir (set_ctx_change true)
    end).

Definition nc_client_tls_get_trusted_ca_paths (ch : bool) : M (client_tls * W) (cpath * cpath) :=
  on_tls ch (o ← topts; mret (ca_file o, ca_dir o)).

Definition nc_client_tls_set_crl_paths (ch : bool) (file dir : option bytes) : M (client_tls * W) Z :=
  on_tls ch (
    match file, dir with
    | None, None => mret (-1)
    | _, _ => set_two_paths (λ o, (crl_file o, crl_dir o)) set_crl file dir (set_crl_change true)
    end).

Definition nc_client_tls_get_crl_paths (ch : bool) : M (client_tls * W) (cpath * cpath) :=
  on_tls ch (o ← topts; mret (crl_file o, crl_dir o)).
End options.

(** ** The SSL context *)

Section update.
Context {W cert : Type} `{!Env W} `{!TlsCliEnv W cert}.

Abbreviation TM := (M (nc_client_tls_opts * W)).
Abbreviation ssl := (λ f, on_env (call f)).

(** Changes what the context in the options was told. *)
Definition upd_ctx (f : ssl_ctx → ssl_ctx) : TM unit := upd_topts (λ o, set_tls_ctx (f <$> tls_ctx o) o).

(** A call that may fail, and what follows when it does not. *)
Definition or_fail (m : TM bool) (k : TM bool) : TM bool := ok ← m; if (ok : bool) then k else mret false.

(** A new context; [false] is the result -1.  What was set before a failure stays. *)
Definition new_ctx (peername : option bytes) : TM bool :=
  _ ← upd_topts (set_tls_ctx None);
  or_fail (ssl (SSL_CTX_new (cert := cert))) (
    _ ← upd_topts (set_tls_ctx (Some (SslCtx None None None None)));
    o ← topts;
    crt ← path_val (cert_path o);
    or_fail (ssl (SSL_CTX_use_certificate_file (cert := cert) crt)) (
      _ ← upd_ctx (λ x, SslCtx crt (sc_key x) (sc_ca x) (sc_host x));
      k ← path_val (key_path o);
      let key := match k with None => crt | Some _ => k end in
      or_fail (ssl (SSL_CTX_use_PrivateKey_file (cert := cert) key)) (
        _ ← upd_ctx (λ x, SslCtx (sc_cert x) key (sc_ca x) (sc_host x));
        f ← path_val (ca_file o);
        d ← path_val (ca_dir o);
        or_fail (ssl (SSL_CTX_load_verify_locations (cert := cert) f d)) (
          _ ← upd_ctx (λ x, SslCtx (sc_cert x) (sc_key x) (Some (f, d)) (sc_host x));
          match peername with
          | None => mret true
          | Some h =>
            or_fail (ssl (SSL_CTX_set_host (cert := cert) h)) (
              _ ← upd_ctx (λ x, SslCtx (sc_cert x) (sc_key x) (sc_ca x) (Some h));
              mret true)
          end)))).

(** One lookup of the store; [file] is the kind of the lookup. *)
Definition add_lookup (p : cpath) (file : bool) (src : bytes → crl_source) (k : TM bool) : TM bool :=
  v ← path_val p;
  match v with
  | None => k
  | Some s =>
    or_fail (ssl (X509_STORE_add_lookup (cert := cert) file)) (
      or_fail (ssl (X509_LOOKUP_add_dir (cert := cert) (src s))) (
        _ ← upd_topts (λ o, set_cli_crl_store ((λ l, l ++ [src s]) <$> cli_crl_store o) o);
        k))
  end.

Definition new_crl_store : TM bool :=
  _ ← upd_topts (set_cli_crl_store None);
  or_fail (ssl (cli_X509_STORE_new (cert := cert))) (
    _ ← upd_topts (set_cli_crl_store (Some []));
    o ← topts;
    add_lookup (crl_file o) true CrlFile (add_lookup (crl_dir o) false CrlDir (mret true))).

Definition is_path (p : cpath) : bool := match p with NullPath => false | _ => true end.

(** The change flags are never cleared, so that options that were set once make a new context for every connection. *)
Definition nc_client_tls_update_opts (peername : option bytes) : TM Z :=
  o ← topts;
  ok ← or_fail
    (match tls_ctx o with
     | Some _ => if tls_ctx_change o then new_ctx peername else mret true
     | None => new_ctx peername
     end)
    (o ← topts;
     if crl_store_change o || (match cli_crl_store o with None => is_path (crl_file o) || is_path (crl_dir o) | Some _ => false end)
     then new_crl_store else mret true);
  mret (if ok : bool then 0 else -1).
End update.

(** ** Verifying a server *)

Section verify.
Context {W cert name crl : Type} `{!Env W} `{!X509 W cert name crl} `{!TlsCliEnv W cert}.

(** [tlsauth_ch], a variable of the process, selects the options whose revocation lists are used. *)
Definition tlsauth_verify_callback (tlsauth_ch : bool) (c : client_tls) (preverify_ok : bool) (crt : cert) : M W bool :=
  if negb preverify_ok then mret false
  else
    e ← check_crls (cli_crl_store (if tlsauth_ch then tls_ch_opts c else tls_opts c)) crt;
    mret (match e with None => true | Some _ => false end).

(** One call of [SSL_connect], with the callbacks it makes. *)
Fixpoint ssl_callbacks (n : nat) (tlsauth_ch : bool) (c : client_tls) (step : ssl_step cert) : M W (ssl_step cert) :=
  match step with
  | SslVerify p crt =>
    match n with
    | O => no_fuel
    | S n =>
      b ← tlsauth_verify_callback tlsauth_ch c p crt;
      step ← call (SSL_verified b);
      ssl_callbacks n tlsauth_ch c step
    end
  | r => mret r
  end.

(** The loop around [SSL_connect]: connected, or not in time or at all.  [timeout] is negative for none. *)
Fixpoint tls_connect_loop (n fuel : nat) (tlsauth_ch : bool) (c : client_tls) (ts : option timespec) : M W bool :=
  match n with
  | O => no_fuel
  | S n =>
    step ← call SSL_connect;
    r ← ssl_callbacks fuel tlsauth_ch c step;
    match r with
    | SslConnected => mret true
    | SslWantRead =>
      _ ← modify (usleep NC_TIMEOUT_STEP);
      late ← match ts with None => mret false | Some ts => d ← nc_difftimespec_mono_cur ts; mret (d <? 1) end;
      if late : bool then mret false else tls_connect_loop n fuel tlsauth_ch c ts
    | _ => mret false
    end
  end.
End verify.
