(* ===== verification/TlsCliProofs.v ===== *)
(** * TLS on the client side: what a connection was checked for

    The options of TLS clients and the handshake, with concrete environments that have a component beside the simulated one. *)

From S2P Require Import Prelude Session Env TlsOpts TlsVerify Capabilities SshCliOptsProofs Time Locks IoRead TlsVerifyProofs SshAuthProofs Sim.
From S2P Require Import TlsCliOpts.
From Stdlib Require Import ZArith Ascii String Lia.
From stdpp Require Import base list strings gmap numbers.
Open Scope Z_scope.

(** ** An environment with something beside it

    Concrete environments for witnesses are built from [sim] by adding a component; the
    operations of [Env] and [X509] work on the first one. *)

Section product.
Context {W X : Type} `{!Env W}.

Definition lift {A} (f : W → A * W) (s : W * X) : A * (W * X) := let (a, w) := f s.1 in (a, (w, s.2)).

#[export] Instance prod_env : Env (W * X) := {
  clock_mono := lift clock_mono;
  clock_real := lift clock_real;
  usleep n s := (usleep n s.1, s.2);
  malloc_ok n := lift (malloc_ok n);
  sys_read fd n := lift (sys_read fd n);
  ssh_channel_read n := lift (ssh_channel_read n);
  ssh_channel_is_eof := lift ssh_channel_is_eof;
  ssh_channel_is_closed := lift ssh_channel_is_closed;
  ssl_read n := lift (ssl_read n);
  sys_poll fd t := lift (sys_poll fd t);
  ssh_channel_poll_timeout t := lift (ssh_channel_poll_timeout t);
  ssh_is_connected := lift ssh_is_connected;
  ssl_pending := lift ssl_pending;
  ssl_get_fd := lift ssl_get_fd;
  sys_write fd bs := lift (sys_write fd bs);
  ssh_channel_write bs := lift (ssh_channel_write bs);
  ssl_write bs := lift (ssl_write bs);
  ly_in_new_memory bs := lift (ly_in_new_memory bs);
  lyd_new_opaq2 bs := lift (lyd_new_opaq2 bs);
  mutex_lock l := lift (mutex_lock l);
  mutex_timedlock l ts := lift (mutex_timedlock l ts);
  mutex_trylock l := lift (mutex_trylock l);
  mutex_unlock l := lift (mutex_unlock l);
  cond_timedwait l ts := lift (cond_timedwait l ts);
  cond_wait l := lift (cond_wait l);
}.

Lemma lift_snd {A} (f : W → A * W) s : (lift f s).2.2 = s.2.
Proof. unfold lift. by destruct (f s.1). Qed.

Lemma lift_fst {A} (f : W → A * W) s : (lift f s).1 = (f s.1).1.
Proof. unfold lift. by destruct (f s.1). Qed.

#[export] Instance prod_memory `{!Memory W} : Memory (W * X).
Proof. intros n s Hn. cbn. rewrite lift_fst. by apply mem_ok. Qed.

#[export] Instance prod_x509 {cert name crl} `{!X509 W cert name crl} : X509 (W * X) cert name crl := {
  X509_get_subject_name := X509_get_subject_name (W := W);
  X509_get_issuer_name := X509_get_issuer_name (W := W);
  X509_NAME_oneline n := lift (X509_NAME_oneline n);
  X509_get_ext_san := X509_get_ext_san (W := W);
  X509_digest := X509_digest (W := W);
  X509_get0_pubkey_bitstr := X509_get0_pubkey_bitstr (W := W);
  X509_get_serialNumber := X509_get_serialNumber (W := W);
  X509_get_by_subject := X509_get_by_subject (W := W);
  X509_CRL_verify := X509_CRL_verify (W := W);
  X509_CRL_get0_nextUpdate := X509_CRL_get0_nextUpdate (W := W);
  X509_cmp_current_time t := lift (X509_cmp_current_time t);
  X509_CRL_get_REVOKED := X509_CRL_get_REVOKED (W := W);
}.
End product.

(** ** TLS on the client side: what a connection was checked for

    The SSL context of a connection is what the options say, with the name of the host; a
    server is accepted only if every certificate OpenSSL asked about was in order and is not revoked.  Also
    where the revocation lists do not work as meant. *)

(** ** The options *)

Definition paths_of (o : nc_client_tls_opts) : list cpath := [cert_path o; key_path o; ca_file o; ca_dir o; crl_file o; crl_dir o].

(** No path points to freed memory, and a context that is there is rebuilt for the next connection. *)
Definition tls_opts_ok (o : nc_client_tls_opts) : Prop :=
  Forall (λ p, p ≠ FreedPath) (paths_of o) ∧ (is_Some (tls_ctx o) → cert_path o ≠ NullPath → tls_ctx_change o = true).

Definition val (p : cpath) : option bytes := match p with Path s => Some s | _ => None end.

Lemma post_path_val {W} p (Q : option bytes → nc_client_tls_opts * W → Prop) s :
  Q (val p) s → post (path_val p) Q s.
Proof. by destruct p. Qed.

(** The context that the options ask for, and the store of revocation lists. *)
Definition wanted_ctx (o : nc_client_tls_opts) (host : option bytes) : ssl_ctx :=
  SslCtx (val (cert_path o)) (match val (key_path o) with None => val (cert_path o) | k => k end)
    (Some (val (ca_file o), val (ca_dir o))) host.

Definition wanted_crls (o : nc_client_tls_opts) : list crl_source :=
  match val (crl_file o) with Some s => [CrlFile s] | None => [] end ++ match val (crl_dir o) with Some s => [CrlDir s] | None => [] end.

Section update.
Context {W cert : Type} `{!Env W} `{!TlsCliEnv W cert}.

(** A step that fails ends with [false]; what has to be shown is what follows success. *)
Lemma post_or_fail (f : W → bool * W) (k : M (nc_client_tls_opts * W) bool) (Q : bool → nc_client_tls_opts * W → Prop) o w :
  (∀ s', Q false s') → (∀ w', post k Q (o, w')) → post (or_fail (on_env (call f)) k) Q (o, w).
Proof.
  intros Hf Hk. unfold or_fail. apply post_bind, post_on_env, post_call. destruct (f w) as [[] w1]; [apply Hk|].
  by apply post_ret.
Qed.

Lemma new_ctx_post host o (w : W) :
  post (new_ctx (cert := cert) host) (λ ok s, ok = true → s.1 = set_tls_ctx (Some (wanted_ctx o host)) o) (o, w).
Proof.
  unfold new_ctx. apply post_bind, post_modify. cbn [fst snd]. apply post_or_fail; [done|]. intros w1.
  apply post_bind, post_modify, post_bind, post_gets. cbn [fst snd]. apply post_bind, post_path_val.
  apply post_or_fail; [done|]. intros w2. apply post_bind, post_modify, post_bind. cbn [fst snd]. apply post_path_val.
  apply post_or_fail; [done|]. intros w3. apply post_bind, post_modify, post_bind. cbn [fst snd]. apply post_path_val, post_bind, post_path_val.
  apply post_or_fail; [done|]. intros w4. apply post_bind, post_modify. cbn [fst snd]. unfold wanted_ctx. destruct host as [h|].
  - apply post_or_fail; [done|]. intros w5. apply post_bind, post_modify, post_ret. intros _. cbn. by destruct (val (key_path o)).
  - apply post_ret. intros _. cbn. by destruct (val (key_path o)).
Qed.

Lemma add_lookup_post p file src k o (w : W) (Q : bool → nc_client_tls_opts * W → Prop) :
  (∀ s', Q false s') →
  (∀ w', post k Q (set_cli_crl_store ((λ l, l ++ match val p with Some s => [src s] | None => [] end) <$> cli_crl_store o) o, w')) →
  post (add_lookup (cert := cert) p file src k) Q (o, w).
Proof.
  intros Hf Hk. unfold add_lookup. apply post_bind, post_path_val. destruct (val p) as [s|].
  - apply post_or_fail; [done|]. intros w1. apply post_or_fail; [done|]. intros w2. apply post_bind, post_modify, Hk.
  - specialize (Hk w). destruct o as [? ? ? ? ? ? ? ? ? [l|]]; cbn in Hk; [|done]. by rewrite app_nil_r in Hk.
Qed.

Lemma new_crl_store_post o (w : W) :
  post (new_crl_store (cert := cert)) (λ ok s, ok = true → s.1 = set_cli_crl_store (Some (wanted_crls o)) o) (o, w).
Proof.
  unfold new_crl_store. apply post_bind, post_modify. cbn [fst snd]. apply post_or_fail; [done|]. intros w1.
  apply post_bind, post_modify, post_bind, post_gets. cbn [fst snd]. apply add_lookup_post; [done|]. intros w2.
  apply add_lookup_post; [done|]. intros w3. by apply post_ret.
Qed.

(** The options after a successful update: the rest stays. *)
Definition updated (host : option bytes) (o o' : nc_client_tls_opts) : Prop :=
  paths_of o' = paths_of o ∧ tls_ctx o' = Some (wanted_ctx o host) ∧
  (if crl_store_change o || is_path (crl_file o) || is_path (crl_dir o)
   then is_Some (cli_crl_store o') ∧ (crl_store_change o = true ∨ cli_crl_store o = None → cli_crl_store o' = Some (wanted_crls o))
   else cli_crl_store o' = cli_crl_store o).

Lemma update_post host o (w : W) :
  tls_ctx o = None ∨ tls_ctx_change o = true →
  post (nc_client_tls_update_opts (cert := cert) host) (λ r s, r = 0 → updated host o s.1) (o, w).
Proof.
  intros Hc. unfold nc_client_tls_update_opts. apply post_bind, post_gets, post_bind. cbn [fst]. unfold or_fail at 1. apply post_bind.
  assert (G : post (match tls_ctx o with Some _ => if tls_ctx_change o then new_ctx (cert := cert) host else mret true
                    | None => new_ctx (cert := cert) host end)
    (λ ok s, ok = true → s.1 = set_tls_ctx (Some (wanted_ctx o host)) o) (o, w)).
  { destruct (tls_ctx o); [|apply new_ctx_post]. destruct Hc as [?|Hc]; [done|]. rewrite Hc. apply new_ctx_post. }
  eapply post_mono; [exact G|]. cbn beta. intros [] [o1 w1] H1; [|by apply post_ret, post_ret]. cbn in H1. rewrite H1 by done. clear H1 G.
  apply post_bind, post_gets. cbn [fst]. set (o2 := set_tls_ctx _ o).
  assert (P : ∀ st, paths_of (set_cli_crl_store st o2) = paths_of o ∧ tls_ctx (set_cli_crl_store st o2) = Some (wanted_ctx o host)) by done.
  assert (U : updated host o (set_cli_crl_store (Some (wanted_crls o)) o2) ∨
    (crl_store_change o || is_path (crl_file o) || is_path (crl_dir o)) = false).
  { destruct (crl_store_change o || _ || _) eqn:E; [left|by right]. unfold updated. rewrite E. destruct (P (Some (wanted_crls o))). split_and!; try done. }
  change (crl_store_change o2) with (crl_store_change o). change (cli_crl_store o2) with (cli_crl_store o).
  change (crl_file o2) with (crl_file o). change (crl_dir o2) with (crl_dir o).
  destruct (crl_store_change o || match cli_crl_store o with None => is_path (crl_file o) || is_path (crl_dir o) | Some _ => false end) eqn:E.
  - eapply post_mono; [apply new_crl_store_post|]. intros [] [o3 w3] H3; apply post_ret; [|done]. intros _. cbn in *. rewrite H3 by done.
    destruct U as [U|U]; [exact U|]. rewrite <- orb_assoc in U. apply orb_false_iff in U as [U1 U2]. rewrite U1, U2 in E. by destruct (cli_crl_store o).
  - apply post_ret, post_ret. intros _. cbn. apply orb_false_iff in E as [E1 E2]. unfold updated. rewrite E1. cbn [orb]. split_and!; [done|done|].
    destruct (cli_crl_store o) as [l|] eqn:El; [|rewrite E2; exact El]. destruct (is_path (crl_file o) || is_path (crl_dir o)); [|exact El].
    split; [by eexists|]. intros [?|?]; done.
Qed.
End update.

(** ** The handshake *)

(** OpenSSL with [SSL_VERIFY_PEER]: the context an SSL session was made from, the questions it asked the callback and the answers, in
    the order of a handshake; it connects only if no answer was no. *)
Class TlsHandshake (W cert name crl : Type) `{!Env W} `{!X509 W cert name crl} `{!TlsCliEnv W cert} := {
  made_from : W → option ssl_ctx;
  questions : W → list (bool * cert);
  answers : W → list bool;
  connect_law w : let (st, w') := SSL_connect (cert := cert) w in
    questions w' = questions w ++ match st with SslVerify p c => [(p, c)] | _ => [] end ∧ answers w' = answers w ∧ made_from w' = made_from w ∧
    (st = SslConnected → Forall (eq true) (answers w'));
  verified_law b w : let (st, w') := SSL_verified (cert := cert) b w in
    questions w' = questions w ++ match st with SslVerify p c => [(p, c)] | _ => [] end ∧ answers w' = answers w ++ [b] ∧ made_from w' = made_from w ∧
    (st = SslConnected → Forall (eq true) (answers w'));
  hs_usleep n w : questions (usleep n w) = questions w ∧ answers (usleep n w) = answers w ∧ made_from (usleep n w) = made_from w;
  hs_clock w : questions (clock_mono w).2 = questions w ∧ answers (clock_mono w).2 = answers w ∧ made_from (clock_mono w).2 = made_from w;
  hs_time t w : questions (X509_cmp_current_time t w).2 = questions w ∧ answers (X509_cmp_current_time t w).2 = answers w ∧ made_from (X509_cmp_current_time t w).2 = made_from w;
}.

Section handshake.
Context {W cert name crl : Type} `{!Env W} `{X : !X509 W cert name crl} `{!TlsCliEnv W cert} `{!TlsHandshake W cert name crl}.

(** A certificate that OpenSSL found in order and that the list of its issuer does not revoke. *)
Definition in_order (o : nc_client_tls_opts) (q : bool * cert) : Prop :=
  q.1 = true ∧ not_revoked (W := W) (name := name) (crl := crl) (set_crl_store (cli_crl_store o) new_tls_opts) q.2.

Definition same_hs (w w' : W) : Prop := questions w' = questions w ∧ answers w' = answers w ∧ made_from w' = made_from w.

(** Every answer so far was right. *)
Definition answered (o : nc_client_tls_opts) (w : W) : Prop :=
  Forall2 (λ q (a : bool), a = true → in_order o q) (questions w) (answers w).

Lemma callback_post (ch : bool) c p crt (w : W) :
  post (tlsauth_verify_callback ch c p crt)
    (λ b w', same_hs w w' ∧ (b = true → in_order (if ch then tls_ch_opts c else tls_opts c) (p, crt))) w.
Proof.
  unfold tlsauth_verify_callback. destruct p; cbn [negb]; [|by apply post_ret].
  set (o := if ch then tls_ch_opts c else tls_opts c). apply post_bind.
  assert (G : post (check_crls (cli_crl_store o) crt) (λ e w', same_hs w w' ∧
    (e = None → not_revoked (W := W) (name := name) (crl := crl) (set_crl_store (cli_crl_store o) new_tls_opts) crt)) w).
  { destruct (check_crls (cli_crl_store o) crt w) as [[e w']| |] eqn:E; unfold post; rewrite E; try done. split.
    - unfold check_crls in E. destruct (cli_crl_store o) as [l|]; [|by injection E as <- <-].
      unfold mbind, M_bind in E. unfold check_subject_crl in E. destruct (X509_get_by_subject l _) as [x|]; [|by injection E as <- <-].
      destruct (negb _); [by injection E as <- <-|]. destruct (X509_CRL_get0_nextUpdate x) as [t|]; [|by injection E as <- <-].
      unfold mbind, M_bind, call in E. pose proof (hs_time t w) as Ht. destruct (X509_cmp_current_time t w) as [cmp w1]. cbn in Ht.
      destruct (cmp <? 0); by injection E as <- <-.
    - intros ->. by eapply not_revoked_ok. }
  eapply post_mono; [exact G|]. intros e w' [H1 H2]. apply post_ret. split; [done|]. destruct e; [done|]. intros _. split; [done|]. by apply H2.
Qed.

Lemma same_hs_diff ts (w : W) : post (nc_difftimespec_mono_cur ts) (λ _ w', same_hs w w') w.
Proof.
  unfold nc_difftimespec_mono_cur, nc_gettimespec_mono_add. apply post_bind, post_bind, post_call.
  destruct (clock_mono w).1 as [cur|]; [|done]. unfold timespec_add, post, guarded, mbind, M_bind, mret, M_ret.
  repeat case_match; simplify_eq; try done; apply hs_clock.
Qed.

(** The question that is still open in a step. *)
Definition pend (st : ssl_step cert) : list (bool * cert) := match st with SslVerify p c => [(p, c)] | _ => [] end.

Definition step_inv (o : nc_client_tls_opts) (x : option ssl_ctx) (st : ssl_step cert) (w : W) : Prop :=
  made_from w = x ∧ (∃ qs, questions w = qs ++ pend st ∧ Forall2 (λ q (a : bool), a = true → in_order o q) qs (answers w)) ∧
  (st = SslConnected → Forall (eq true) (answers w)).

Lemma callbacks_post n (ch : bool) c x st (w : W) :
  step_inv (if ch then tls_ch_opts c else tls_opts c) x st w →
  post (ssl_callbacks n ch c st) (λ r w', pend r = [] ∧ step_inv (if ch then tls_ch_opts c else tls_opts c) x r w') w.
Proof.
  revert st w. induction n as [|n IH]; intros st w Hst; destruct st as [p crt| | |]; cbn [ssl_callbacks]; try done.
  apply post_bind. eapply post_mono; [apply callback_post|]. intros b w1 [(Hq & Ha & Hm) Hb]. apply post_bind, post_call.
  pose proof (verified_law b w1) as Hl. destruct (SSL_verified b w1) as [st w2]. destruct Hl as (Hq2 & Ha2 & Hm2 & Hc2). apply IH.
  destruct Hst as (Hx & (qs & Eq & Hf) & _). cbn [fst snd pend] in *. split; [congruence|]. split; [|done]. exists (qs ++ [(p, crt)]).
  rewrite Hq2, Hq, Eq, Ha2, Ha. split; [done|]. apply Forall2_app; [done|]. by constructor.
Qed.

Lemma loop_post n fuel (ch : bool) c ts (w : W) :
  answered (if ch then tls_ch_opts c else tls_opts c) w →
  post (tls_connect_loop n fuel ch c ts)
    (λ ok w', ok = true → Forall (in_order (if ch then tls_ch_opts c else tls_opts c)) (questions w') ∧ made_from w' = made_from w) w.
Proof.
  revert w. induction n as [|n IH]; intros w Hw; [done|]. cbn [tls_connect_loop]. apply post_bind, post_call.
  pose proof (connect_law w) as Hl. destruct (SSL_connect w) as [st w1]. cbn [fst snd]. destruct Hl as (Hq & Ha & Hm & Hc).
  apply post_bind. eapply post_mono; [apply (callbacks_post _ _ _ (made_from w))|].
  { split; [done|]. split; [|done]. exists (questions w). rewrite Ha. split; [exact Hq|exact Hw]. }
  intros r w2 (Hr & Hx & (qs & Eq & Hf) & Hr2). rewrite Hr, app_nil_r in Eq. destruct r; try (by apply post_ret).
  - apply post_ret. intros _. split; [|done]. rewrite Eq. specialize (Hr2 eq_refl). clear -Hf Hr2. induction Hf; constructor; inversion Hr2; subst; auto.
  - apply post_bind, post_modify, post_bind. destruct (hs_usleep NC_TIMEOUT_STEP w2) as (Hu1 & Hu2 & Hu3). destruct ts as [ts|].
    + apply post_bind. eapply post_mono; [apply same_hs_diff|]. intros d w3 (H3 & H4 & H5). apply post_ret. destruct (d <? 1); [by apply post_ret|].
      eapply post_mono; [apply IH; unfold answered; by rewrite H3, H4, Hu1, Hu2, Eq|]. intros ok w4 Hok Eok.
      destruct (Hok Eok) as [? ?]. split; [done|congruence].
    + apply post_ret. eapply post_mono; [apply IH; unfold answered; by rewrite Hu1, Hu2, Eq|]. intros ok w4 Hok Eok.
      destruct (Hok Eok) as [? ?]. split; [done|congruence].
Qed.
End handshake.
