(* ===== verification/ClientCtx.v ===== *)
(** * The context of a client thread

    src/session_client.c: every thread has a context with the options of the client, made when it is
    first asked for; the main thread has a static one.  Threads can share a
    context, which counts its users and is released with the last of them.  Part of a context are the sockets a
    client listens on for Call Home. *)

From S2P Require Import Prelude Session Env Capabilities Sockets SshCliOpts TlsCliOpts Schemas.
From Stdlib Require Import ZArith Ascii String Lia.
From stdpp Require Import base list strings gmap numbers.
Open Scope Z_scope.

(** [struct nc_client_opts].  Slots of the two arrays that were not written yet are [None]; the arrays may be longer than
    the count. *)
Record nc_client_opts := NcClientOpts {
  co_schema : schema_opts;
  co_ka : nc_keepalives;
  ch_binds : option (list (option nc_bind));
  ch_binds_aux : option (list (option (NC_TRANSPORT_IMPL * option bytes)));
  ch_bind_count : Z;
}.

Definition set_binds b a n (o : nc_client_opts) : nc_client_opts := NcClientOpts (co_schema o) (co_ka o) b a n.

(** ** Sockets for Call Home *)

Section binds.
Context {W : Type} `{!Env W} `{!SockEnv W}.

Abbreviation BM := (M (nc_client_opts * W)).

Definition copts : BM nc_client_opts := gets fst.
Definition upd_copts (f : nc_client_opts → nc_client_opts) : BM unit := modify (λ s, (f s.1, s.2)).

(** The array with one more slot, of [n] in all. *)
Definition grown {A} (l : option (list (option A))) (n : Z) : list (option A) := ztake (n - 1) (default [] l) ++ [None].

(** Writing the last slot. *)
Definition last_slot {A} (l : option (list (option A))) (n : Z) (x : A) : option (list (option A)) := <[Z.to_nat (n - 1) := Some x]> <$> l.

Definition nc_client_ch_add_bind_listen (address : option bytes) (port : Z) (hostname : option bytes) (ti : NC_TRANSPORT_IMPL) : BM Z :=
  match address with
  | None => mret (-1)
  | Some addr =>
    if port =? 0 then mret (-1)
    else
      o ← copts;
      sock ← on_env (nc_sock_listen_inet addr port (co_ka o));
      if sock =? -1 then mret (-1)
      else
        let n := u16 (ch_bind_count o + 1) in
        ok ← on_env (call (malloc_ok (n * 24)));
        if negb ok then
          _ ← upd_copts (set_binds None (ch_binds_aux o) n);
          _ ← on_env (modify (sock_close sock));
          mret (-1)
        else
          let binds := grown (ch_binds o) n in
          ok ← on_env (call (malloc_ok (n * 16)));
          if negb ok then
            _ ← upd_copts (set_binds (Some binds) None n);
            _ ← on_env (modify (sock_close sock));
            mret (-1)
          else
            h ← match hostname with Some h => on_env (strdup h) | None => mret None end;
            a ← on_env (strdup addr);
            let aux := last_slot (Some (grown (ch_binds_aux o) n)) n (ti, h) in
            _ ← upd_copts (set_binds (last_slot (Some binds) n (NcBind a port sock false)) aux n);
            mret 0
  end.

(** The slot [i] of an array. *)
Definition slot {A} (l : option (list (option A))) (i : Z) : BM A :=
  match l with
  | None => crash
  | Some l => match l !! Z.to_nat i with Some (Some x) => mret x | _ => crash end
  end.

(** Deleting everything: the sockets of all entries are closed. *)
Fixpoint close_all (n : nat) (i : Z) : BM unit :=
  match n with
  | O => mret tt
  | S n =>
    o ← copts;
    b ← slot (ch_binds o) i;
    _ ← slot (ch_binds_aux o) i;
    _ ← on_env (modify (sock_close (bind_sock b)));
    close_all n (i + 1)
  end.

(** Does an entry match the address, the port and the transport, where they are given? *)
Definition bind_matches (address : option bytes) (port : Z) (ti : option NC_TRANSPORT_IMPL) (b : nc_bind)
    (aux : NC_TRANSPORT_IMPL * option bytes) : BM bool :=
  a ← match address with
      | None => mret true
      | Some x => match bind_address b with Some y => mret (strcmp_eq y x) | None => crash end
      end;
  mret (a && ((port =? 0) || (bind_port b =? port)) && match ti with None => true | Some t => bool_decide (aux.1 = t) end).

(** The entry [i] is replaced by the last one, which is not looked at again. *)
Definition remove_bind (i : Z) : BM unit :=
  o ← copts;
  let n := ch_bind_count o - 1 in
  if n =? 0 then upd_copts (set_binds None None n)
  else if i <? n then
    b ← slot (ch_binds o) n;
    a ← slot (ch_binds_aux o) n;
    upd_copts (set_binds (<[Z.to_nat i := Some b]> <$> ch_binds o) (<[Z.to_nat i := Some a]> <$> ch_binds_aux o) n)
  else upd_copts (set_binds (ch_binds o) (ch_binds_aux o) n).

Fixpoint del_loop (n : nat) (i : Z) (address : option bytes) (port : Z) (ti : option NC_TRANSPORT_IMPL) (ret : Z) : BM Z :=
  o ← copts;
  match n with
  | O => mret ret
  | S n =>
    if ch_bind_count o <=? i then mret ret
    else
      b ← slot (ch_binds o) i;
      a ← slot (ch_binds_aux o) i;
      m ← bind_matches address port ti b a;
      if (m : bool) then
        _ ← on_env (modify (sock_close (bind_sock b)));
        _ ← remove_bind i;
        del_loop n (i + 1) address port ti 0
      else del_loop n (i + 1) address port ti ret
  end.

Definition nc_client_ch_del_bind (address : option bytes) (port : Z) (ti : option NC_TRANSPORT_IMPL) : BM Z :=
  o ← copts;
  let n := Z.to_nat (ch_bind_count o) in
  match address, ti with
  | None, None =>
    if port =? 0 then
      _ ← close_all n 0;
      _ ← upd_copts (set_binds None None 0);
      mret (if ch_bind_count o =? 0 then -1 else 0)
    else del_loop n 0 address port ti (-1)
  | _, _ => del_loop n 0 address port ti (-1)
  end.

Definition nc_client_ssh_ch_add_bind_listen (address : option bytes) (port : Z) : BM Z :=
  nc_client_ch_add_bind_listen address port None NC_TI_LIBSSH.

Definition nc_client_ssh_ch_del_bind (address : option bytes) (port : Z) : BM Z :=
  nc_client_ch_del_bind address port (Some NC_TI_LIBSSH).

Definition nc_client_tls_ch_add_bind_hostname_listen (address : option bytes) (port : Z) (hostname : option bytes) : BM Z :=
  nc_client_ch_add_bind_listen address port hostname NC_TI_OPENSSL.

Definition nc_client_tls_ch_del_bind (address : option bytes) (port : Z) : BM Z :=
  nc_client_ch_del_bind address port (Some NC_TI_OPENSSL).
End binds.

(** ** Contexts *)

Record nc_client_context := NcClientContext {
  cc_refcount : Z;
  cc_opts : nc_client_opts;
  cc_ssh : client_ssh;
  cc_tls : client_tls;
}.

Definition set_refcount n (c : nc_client_context) : nc_client_context := NcClientContext n (cc_opts c) (cc_ssh c) (cc_tls c).

Definition no_client_opts (ka : nc_keepalives) : nc_client_opts := NcClientOpts (SchemaOpts None None 0) ka None None 0.

(** Only the static context has keepalives by default. *)
Definition context_main : nc_client_context :=
  NcClientContext 0 (no_client_opts (Keepalives true 1 10 5)) (ClientSsh init_ssh_opts init_ssh_opts)
    (ClientTls zero_tls_opts zero_tls_opts).

Definition new_context : nc_client_context :=
  NcClientContext 1 (no_client_opts (Keepalives false 0 0 0)) (ClientSsh init_ssh_opts init_ssh_opts)
    (ClientTls zero_tls_opts zero_tls_opts).

(** The contexts in memory - the static one has the address 1 - and the value of the key of each thread. *)
Record contexts := Contexts {
  cs_heap : gmap positive nc_client_context;
  cs_key : gmap nat positive;
}.

Definition MAIN : positive := 1.

(** The first thread of the process. *)
Definition main_thread : nat := 0.

Definition init_contexts : contexts := Contexts {[MAIN := context_main]} ∅.

Section contexts.
Context {W : Type} `{!Env W} `{!SockEnv W}.

Abbreviation PM := (M (contexts * W)).

Definition heap_ctx (p : positive) : PM nc_client_context :=
  s ← gets fst;
  match cs_heap s !! p with Some c => mret c | None => crash end.

Definition put_ctx (p : positive) (c : nc_client_context) : PM unit :=
  modify (λ s, (Contexts (<[p := c]> (cs_heap s.1)) (cs_key s.1), s.2)).

Definition pthread_setspecific (t : nat) (p : positive) : PM unit :=
  modify (λ s, (Contexts (cs_heap s.1) (<[t := p]> (cs_key s.1)), s.2)).

(** Closing the sockets of a context that is released. *)
Fixpoint close_binds (l : list (option nc_bind)) (n : nat) : PM unit :=
  match n, l with
  | O, _ => mret tt
  | S n, Some b :: l => _ ← on_env (modify (sock_close (bind_sock b))); close_binds l n
  | S _, _ => crash
  end.

(** A computation on the TLS options alone. *)
Definition run_free {S} (s : S) (m : M (S * W) unit) : PM unit := λ st,
  match m (s, st.2) with
  | Done (_, (_, w)) => Done (tt, (st.1, w))
  | NoFuel => NoFuel
  | Crash => Crash
  end.

Definition nc_client_context_free (p : positive) : PM unit :=
  c ← heap_ctx p;
  let n := u32 (cc_refcount c - 1) in
  _ ← put_ctx p (set_refcount n c);
  if negb (n =? 0) then mret tt
  else if bool_decide (p = MAIN) then mret tt
  else
    let o := cc_opts c in
    _ ← close_binds (default [] (ch_binds o)) (Z.to_nat (ch_bind_count o));
    _ ← run_free (cc_ssh c) nc_client_ssh_destroy_opts;
    _ ← run_free (cc_tls c) nc_client_tls_destroy_opts;
    modify (λ s, (Contexts (delete p (cs_heap s.1)) (cs_key s.1), s.2)).

(** The context of the thread [t]. *)
Definition nc_client_context_location (t : nat) : PM positive :=
  s ← gets fst;
  match cs_key s !! t with
  | Some e => mret e
  | None =>
    e ← (if bool_decide (t = main_thread) then mret MAIN
         else
           ok ← on_env (call (malloc_ok 584));
           _ ← guarded ok;
           let e := fresh (dom (cs_heap s)) in
           _ ← put_ctx e new_context;
           mret e);
    _ ← pthread_setspecific t e;
    mret e
  end.

Definition nc_client_get_thread_context (t : nat) : PM positive := nc_client_context_location t.

Definition nc_client_set_thread_context (t : nat) (context : option positive) : PM unit :=
  match context with
  | None => mret tt
  | Some new =>
    old ← nc_client_context_location t;
    if bool_decide (old = new) then mret tt
    else
      _ ← nc_client_context_free old;
      c ← heap_ctx new;
      _ ← put_ctx new (set_refcount (u32 (cc_refcount c + 1)) c);
      pthread_setspecific t new
  end.

(** The end of a thread: the destructor of the key. *)
Definition thread_exit (t : nat) : PM unit :=
  s ← gets fst;
  match cs_key s !! t with
  | None => mret tt
  | Some p =>
    _ ← modify (λ s, (Contexts (cs_heap s.1) (delete t (cs_key s.1)), s.2));
    nc_client_context_free p
  end.
End contexts.
