(* ===== verification/ClientCtxProofs.v ===== *)
(** * Contexts of client threads: counting users

    Threads get, share and give up contexts in any order.  The count of a context is the number of the threads that
    use it, so that it is released with its last user and no thread is left with a released one. *)

From S2P Require Import Prelude Session Env Sim SocketsProofs Capabilities Sockets SshCliOpts SshCliOptsProofs TlsCliOpts TlsCliProofs Schemas ClientCtx.
From Stdlib Require Import ZArith Ascii String Lia.
From stdpp Require Import base list strings gmap numbers fin_maps.
Open Scope Z_scope.

(** ** Well-formed options *)

Definition binds_ok (o : nc_client_opts) : Prop :=
  0 ≤ ch_bind_count o ∧ (Z.to_nat (ch_bind_count o) ≤ length (default [] (ch_binds o)))%nat ∧
  Forall is_Some (take (Z.to_nat (ch_bind_count o)) (default [] (ch_binds o))).

Definition no_freed (o : nc_client_tls_opts) : Prop := Forall (λ p, p ≠ FreedPath) (paths_of o).

Definition ctx_ok (c : nc_client_context) : Prop :=
  (∃ n, client_ok n (cc_ssh c)) ∧ no_freed (tls_opts (cc_tls c)) ∧ no_freed (tls_ch_opts (cc_tls c)) ∧ binds_ok (cc_opts c).

Lemma main_ok : ctx_ok context_main.
Proof.
  split_and!; [exists 0|repeat constructor; done..|split_and!; [done|done|constructor]].
  split; (split; [repeat split; done|]; exists []; repeat split; try done; constructor).
Qed.

Lemma new_ok : ctx_ok new_context.
Proof.
  split_and!; [exists 0|repeat constructor; done..|split_and!; [done|done|constructor]].
  split; (split; [repeat split; done|]; exists []; repeat split; try done; constructor).
Qed.

(** ** Releasing a context *)

(** What [nc_client_context_free] does to the memory. *)
Definition free_heap (p : positive) (h : gmap positive nc_client_context) : gmap positive nc_client_context :=
  match h !! p with
  | None => h
  | Some c =>
    let n := u32 (cc_refcount c - 1) in
    if (n =? 0) && negb (bool_decide (p = MAIN)) then delete p h else <[p := set_refcount n c]> h
  end.

Section release.
Context {W : Type} `{!Env W} `{!SockEnv W}.

Lemma free_keys_ok F o l n i (w : W) :
  keys_are o l → 0 ≤ i → i + Z.of_nat n ≤ zlen l → wpx F (free_keys n i) (λ _ s, s.1 = o) (o, w).
Proof.
  intros Hk. revert i. induction n as [|n IH]; intros i H0 Hi; [done|]. cbn [free_keys]. apply wpx_bind.
  assert (is_Some (l !! Z.to_nat i)) as [k Ek] by (apply lookup_lt_is_Some; unfold zlen in Hi; lia).
  eapply wpx_key_at; [done|done|done|]. apply IH; lia.
Qed.

Lemma destroy_opts_ok F n o (w : W) : opts_ok n o → wpx F _nc_client_ssh_destroy_opts (λ _ _, True) (o, w).
Proof.
  intros (_ & l & Hk & _). apply wpx_bind, wpx_gets, wpx_bind. cbn [fst]. pose proof Hk as [_ Hc]. rewrite Hc.
  eapply wpx_mono; [apply (free_keys_ok F o l); [done|lia|unfold zlen; lia]|]. intros [] s _. by apply wpx_modify.
Qed.

Lemma ssh_destroy_ok F n c (w : W) : client_ok n c → wpx F nc_client_ssh_destroy_opts (λ _ _, True) (c, w).
Proof.
  intros [H1 H2]. apply wpx_bind, wpx_on_opts. eapply wpx_mono; [by eapply destroy_opts_ok|]. intros [] [o w1] _. apply wpx_on_opts.
  eapply wpx_mono; [by eapply destroy_opts_ok|]. done.
Qed.

Lemma wpx_on_tls {A} F (ch : bool) (m : M (nc_client_tls_opts * W) A) (Q : A → client_tls * W → Prop) c w :
  wpx F m (λ a s, Q a (if ch then ClientTls (tls_opts c) s.1 else ClientTls s.1 (tls_ch_opts c), s.2))
    (if ch then tls_ch_opts c else tls_opts c, w) → wpx F (on_tls ch m) Q (c, w).
Proof. unfold wpx, on_tls. cbn. by destruct ch; destruct (m _) as [[a [o w']]| |]. Qed.

Lemma tls_destroy_opts_ok F o (w : W) : no_freed o → wpx F _nc_client_tls_destroy_opts (λ _ s, s = (zero_tls_opts, w)) (o, w).
Proof.
  intros H. unfold no_freed, paths_of in H. rewrite !list.Forall_cons in H. destruct H as (H1 & H2 & H3 & H4 & H5 & H6 & _).
  assert (G : ∀ p (Q : unit → nc_client_tls_opts * W → Prop), p ≠ FreedPath → Q tt (o, w) → wpx F (free_path p) Q (o, w)).
  { intros p Q Hp HQ. apply wpx_guarded; [by destruct p|done]. }
  apply wpx_bind, wpx_gets. cbn [fst]. do 6 (apply wpx_bind, G; [done|]). by apply wpx_modify.
Qed.

Lemma tls_destroy_ok F c (w : W) :
  no_freed (tls_opts c) → no_freed (tls_ch_opts c) → wpx F nc_client_tls_destroy_opts (λ _ _, True) (c, w).
Proof.
  intros H1 H2. apply wpx_bind, wpx_on_tls. eapply wpx_mono; [by apply tls_destroy_opts_ok|]. cbn [fst snd]. intros [] s ->. apply wpx_on_tls.
  eapply wpx_mono; [by apply tls_destroy_opts_ok|]. done.
Qed.

Lemma close_binds_ok F l n (s : contexts * W) :
  (n ≤ length l)%nat → Forall is_Some (take n l) → wpx F (close_binds l n) (λ _ s', s'.1 = s.1) s.
Proof.
  revert l s. induction n as [|n IH]; intros l [cs w] Hn Hl; [by destruct l|]. destruct l as [|x l]; [cbn in Hn; lia|].
  cbn in Hl. apply list.Forall_cons in Hl as [[b ->] Hl]. cbn [close_binds]. apply wpx_bind, wpx_on_env, wpx_modify.
  eapply wpx_mono; [apply IH; [cbn in Hn; lia|done]|]. done.
Qed.

Lemma wpx_run_free {S} F (x : S) (m : M (S * W) unit) (Q : unit → contexts * W → Prop) s :
  wpx F m (λ _ _, True) (x, s.2) → (∀ w, Q tt (s.1, w)) → wpx F (run_free x m) Q s.
Proof. unfold wpx, run_free. destruct (m (x, s.2)) as [[[] [y w]]| |]; auto. Qed.

Lemma context_free_ok F p c (s : contexts * W) :
  cs_heap s.1 !! p = Some c → ctx_ok c →
  wpx F (nc_client_context_free p) (λ _ s', s'.1 = Contexts (free_heap p (cs_heap s.1)) (cs_key s.1)) s.
Proof.
  intros Hp ([n Hs] & Ht & Htc & H0 & Hl & Hf). destruct s as [[h k] w]. cbn in Hp. unfold free_heap. cbn [cs_heap fst]. rewrite Hp.
  unfold nc_client_context_free. apply wpx_bind. unfold heap_ctx. apply wpx_bind, wpx_gets. cbn [fst cs_heap]. rewrite Hp. apply wpx_ret.
  apply wpx_bind, wpx_modify. cbn [fst snd cs_heap cs_key]. set (rc := u32 _). destruct (rc =? 0) eqn:E; cbn [negb andb]; [|by apply wpx_ret].
  destruct (bool_decide (p = MAIN)); cbn [negb]; [by apply wpx_ret|]. apply wpx_bind.
  eapply wpx_mono; [by apply close_binds_ok|]. intros [] [cs w1] Ecs. cbn in Ecs. subst cs. apply wpx_bind, wpx_run_free; [by eapply ssh_destroy_ok|].
  intros w2. apply wpx_bind, wpx_run_free; [by apply tls_destroy_ok|]. intros w3. apply wpx_modify. cbn. by rewrite delete_insert_eq.
Qed.
End release.

(** ** Users of a context *)

Definition users (k : gmap nat positive) (p : positive) : gset nat := dom (filter (λ x, x.2 = p) k).

Lemma elem_of_users k p t : t ∈ users k p ↔ k !! t = Some p.
Proof.
  unfold users. rewrite elem_of_dom. split.
  - intros [q Hq]. apply map_lookup_filter_Some in Hq as [Hq <-]. done.
  - intros H. exists p. by apply map_lookup_filter_Some.
Qed.

(** A number for every thread that ever runs. *)
Definition thread_num (t : nat) : Prop := Z.of_nat t < 2 ^ 31.

Lemma size_bound (X : gset nat) N : 0 ≤ N → (∀ t, t ∈ X → Z.of_nat t < N) → Z.of_nat (size X) ≤ N.
Proof.
  intros H0 H. assert (Hs : X ⊆ set_seq 0 (Z.to_nat N)).
  { intros t Ht. apply elem_of_set_seq. specialize (H t Ht). lia. }
  apply subseteq_size in Hs. rewrite size_set_seq in Hs. lia.
Qed.

Record contexts_inv (s : contexts) : Prop := {
  inv_main : is_Some (cs_heap s !! MAIN);
  inv_live t p : cs_key s !! t = Some p → is_Some (cs_heap s !! p);
  inv_ok p c : cs_heap s !! p = Some c → ctx_ok c;
  inv_count p c : cs_heap s !! p = Some c → p ≠ MAIN → cc_refcount c = Z.of_nat (size (users (cs_key s) p)) ∧ 0 < cc_refcount c;
  inv_threads t p : cs_key s !! t = Some p → thread_num t;
}.

Lemma users_bound s p : contexts_inv s → Z.of_nat (size (users (cs_key s) p)) ≤ 2 ^ 31.
Proof.
  intros H. apply size_bound; [done|]. intros t Ht%elem_of_users. by apply (inv_threads _ H _ _ Ht).
Qed.

Lemma users_delete_same k t p : k !! t = Some p → users (delete t k) p = users k p ∖ {[t]}.
Proof.
  intros H. apply set_eq. intros u. rewrite elem_of_difference, elem_of_singleton, !elem_of_users, lookup_delete_Some. naive_solver.
Qed.

Lemma users_delete_other k t p q : k !! t = Some p → q ≠ p → users (delete t k) q = users k q.
Proof.
  intros H Hq. apply set_eq. intros u. rewrite !elem_of_users, lookup_delete_Some. naive_solver.
Qed.

Lemma users_insert_same k t p : k !! t = None → users (<[t := p]> k) p = {[t]} ∪ users k p.
Proof.
  intros H. apply set_eq. intros u. rewrite elem_of_union, elem_of_singleton, !elem_of_users, lookup_insert_Some. naive_solver.
Qed.

Lemma users_insert_other k t p q : k !! t = None → q ≠ p → users (<[t := p]> k) q = users k q.
Proof.
  intros H Hq. apply set_eq. intros u. rewrite !elem_of_users, lookup_insert_Some. naive_solver.
Qed.

Lemma size_users_delete k t p : k !! t = Some p → Z.of_nat (size (users (delete t k) p)) = Z.of_nat (size (users k p)) - 1.
Proof.
  intros H. rewrite (users_delete_same k t p H). rewrite size_difference.
  - rewrite size_singleton. assert (size (users k p) ≠ 0%nat); [|lia]. apply size_non_empty_iff. apply elem_of_users in H. set_solver.
  - apply elem_of_users in H. set_solver.
Qed.

Lemma size_users_insert k t p : k !! t = None → Z.of_nat (size (users (<[t := p]> k) p)) = Z.of_nat (size (users k p)) + 1.
Proof.
  intros H. rewrite (users_insert_same k t p H), size_union.
  - rewrite size_singleton. lia.
  - apply disjoint_singleton_l. rewrite elem_of_users. congruence.
Qed.

(** A thread gives up its context. *)
Lemma leave_inv h k t p : contexts_inv (Contexts h k) → k !! t = Some p → contexts_inv (Contexts (free_heap p h) (delete t k)).
Proof.
  intros H Ht. destruct (inv_live _ H t p Ht) as [c Hc]. cbn in Hc. unfold free_heap. rewrite Hc.
  pose proof (size_users_delete k t p Ht) as Hsz. pose proof (users_bound _ p H) as Hb. cbn in Hb.
  set (n := u32 (cc_refcount c - 1)).
  assert (Hn : p ≠ MAIN → n = Z.of_nat (size (users (delete t k) p))).
  { intros Hp. destruct (inv_count _ H p c Hc Hp) as [Hr H0]. cbn in Hr. unfold n. rewrite u32_small; lia. }
  assert (Hlast : p ≠ MAIN → n = 0 → ∀ u, delete t k !! u ≠ Some p).
  { intros Hp H0 u Hu%elem_of_users. specialize (Hn Hp). assert (size (users (delete t k) p) = 0%nat) as Hz by lia.
    apply size_empty_inv in Hz. set_solver. }
  destruct ((n =? 0) && negb (bool_decide (p = MAIN))) eqn:E.
  - apply andb_true_iff in E as [E1%Z.eqb_eq E2%negb_true_iff%bool_decide_eq_false]. constructor; cbn.
    + rewrite lookup_delete_ne by congruence. apply (inv_main _ H).
    + intros u q Hu. destruct (decide (q = p)) as [->|Hq]; [by apply (Hlast E2 E1) in Hu|]. rewrite lookup_delete_ne by congruence.
      apply lookup_delete_Some in Hu as [_ Hu]. by apply (inv_live _ H u).
    + intros q d [_ Hd]%lookup_delete_Some. by apply (inv_ok _ H q).
    + intros q d [Hq Hd]%lookup_delete_Some Hm. rewrite (users_delete_other k t p q Ht) by congruence. by apply (inv_count _ H q).
    + intros u q [_ Hu]%lookup_delete_Some. by apply (inv_threads _ H u q).
  - assert (Hpos : p ≠ MAIN → 0 < n).
    { intros Hp. rewrite (bool_decide_false (p = MAIN)) in E by done. cbn in E. rewrite andb_true_r in E. apply Z.eqb_neq in E. specialize (Hn Hp). lia. }
    constructor; cbn.
    + destruct (decide (p = MAIN)) as [->|]; [by rewrite lookup_insert_eq|]. rewrite lookup_insert_ne by done. apply (inv_main _ H).
    + intros u q [_ Hu]%lookup_delete_Some. destruct (decide (q = p)) as [->|]; [by rewrite lookup_insert_eq|].
      rewrite lookup_insert_ne by done. by apply (inv_live _ H u).
    + intros q d [[<- <-]|[_ Hd]]%lookup_insert_Some; [by apply (inv_ok _ H p c)|by apply (inv_ok _ H q)].
    + intros q d [[<- <-]|[Hq Hd]]%lookup_insert_Some Hm; [split; [by apply Hn|by apply Hpos]|].
      rewrite (users_delete_other k t p q Ht) by congruence. by apply (inv_count _ H q).
    + intros u q [_ Hu]%lookup_delete_Some. by apply (inv_threads _ H u q).
Qed.

(** A thread without a context takes one that is there, or - with a count of 1 - a new one. *)
Lemma join_inv h k t p c : contexts_inv (Contexts h k) → k !! t = None → thread_num t → ctx_ok c →
  (p ≠ MAIN → cc_refcount c = Z.of_nat (size (users k p)) + 1) →
  contexts_inv (Contexts (<[p := c]> h) (<[t := p]> k)).
Proof.
  intros H Ht Hlt Hc Hr. pose proof (size_users_insert k t p Ht) as Hsz. constructor; cbn.
  - destruct (decide (p = MAIN)) as [->|]; [by rewrite lookup_insert_eq|]. rewrite lookup_insert_ne by done. apply (inv_main _ H).
  - intros u q [[<- <-]|[_ Hu]]%lookup_insert_Some; [by rewrite lookup_insert_eq|]. destruct (decide (q = p)) as [->|]; [by rewrite lookup_insert_eq|].
    rewrite lookup_insert_ne by done. by apply (inv_live _ H u).
  - intros q d [[<- <-]|[_ Hd]]%lookup_insert_Some; [done|by apply (inv_ok _ H q)].
  - intros q d [[<- <-]|[Hq Hd]]%lookup_insert_Some Hm; [specialize (Hr Hm); lia|].
    rewrite (users_insert_other k t p q Ht) by congruence. by apply (inv_count _ H q).
  - intros u q [[<- <-]|[_ Hu]]%lookup_insert_Some; [done|]. by apply (inv_threads _ H u q).
Qed.

(** ** The operations *)

Section threads.
Context {W : Type} `{!Env W} `{!SockEnv W} `{!Memory W}.
Implicit Types s : contexts * W.

Lemma location_ok F t s :
  contexts_inv s.1 → thread_num t →
  wpx F (nc_client_context_location t) (λ p s', contexts_inv s'.1 ∧ cs_key s'.1 !! t = Some p ∧ cs_heap s.1 ⊆ cs_heap s'.1) s.
Proof.
  intros Hi Ht. destruct s as [[h k] w]. cbn [fst] in *. unfold nc_client_context_location. apply wpx_bind, wpx_gets. cbn [fst cs_key cs_heap].
  destruct (k !! t) as [e|] eqn:Ek; [apply wpx_ret; split_and!; done|]. apply wpx_bind. case_bool_decide as Em.
  - apply wpx_ret, wpx_bind, wpx_modify, wpx_ret. cbn. split; [|by rewrite lookup_insert_eq]. destruct (inv_main _ Hi) as [c Hc]. cbn in Hc.
    rewrite <- (insert_id h MAIN c Hc). apply join_inv; try done. by apply (inv_ok _ Hi MAIN).
  - apply wpx_bind, wpx_on_env, wpx_call. rewrite mem_ok by lia. apply wpx_bind, wpx_guarded; [done|].
    set (e := fresh (dom h)). assert (He : h !! e = None) by (apply not_elem_of_dom; apply is_fresh).
    apply wpx_bind, wpx_modify, wpx_ret, wpx_bind, wpx_modify, wpx_ret. cbn [fst snd cs_heap cs_key]. split_and!.
    + apply join_inv; [done|done|done|apply new_ok|]. intros _. assert (users k e = ∅) as ->; [|done].
      apply set_eq. intros u. rewrite elem_of_users. split; [|set_solver]. intros Hu. destruct (inv_live _ Hi u e Hu) as [c Hc]. cbn in Hc. congruence.
    + by rewrite lookup_insert_eq.
    + by apply insert_subseteq.
Qed.

Lemma exit_ok F t s : contexts_inv s.1 → wpx F (thread_exit t) (λ _ s', contexts_inv s'.1) s.
Proof.
  intros Hi. destruct s as [[h k] w]. cbn [fst] in *. unfold thread_exit. apply wpx_bind, wpx_gets. cbn [fst cs_key].
  destruct (k !! t) as [p|] eqn:Ek; [|by apply wpx_ret]. apply wpx_bind, wpx_modify. cbn [fst snd cs_heap cs_key].
  destruct (inv_live _ Hi t p Ek) as [c Hc]. eapply wpx_mono; [apply (context_free_ok F p c); [done|by apply (inv_ok _ Hi p)]|].
  intros [] [cs w1] E. cbn in E. subst cs. by apply leave_inv.
Qed.

Lemma set_ok F t q s :
  contexts_inv s.1 → thread_num t → is_Some (cs_heap s.1 !! q) →
  wpx F (nc_client_set_thread_context t (Some q)) (λ _ s', contexts_inv s'.1 ∧ cs_key s'.1 !! t = Some q) s.
Proof.
  intros Hi Ht [c Hq]. cbn [nc_client_set_thread_context]. apply wpx_bind. eapply wpx_mono; [by apply location_ok|].
  intros old [[h k] w1] (Hi1 & Hk & Hsub). cbn [fst cs_heap cs_key] in *. eapply lookup_weaken in Hq; [|exact Hsub].
  case_bool_decide as Eo; [subst; by apply wpx_ret|]. apply wpx_bind.
  destruct (inv_live _ Hi1 t old Hk) as [co Hco]. eapply wpx_mono; [apply (context_free_ok F old co); [done|by apply (inv_ok _ Hi1 old)]|].
  intros [] [cs w2] E. cbn in E. subst cs. pose proof (leave_inv h k t old Hi1 Hk) as Hl.
  assert (Hq' : free_heap old h !! q = Some c).
  { unfold free_heap. cbn in Hco. rewrite Hco. case_match; by rewrite ?lookup_delete_ne, ?lookup_insert_ne. }
  apply wpx_bind. unfold heap_ctx. apply wpx_bind, wpx_gets. cbn [fst cs_heap]. rewrite Hq'. apply wpx_ret.
  apply wpx_bind, wpx_modify, wpx_modify. cbn [fst snd cs_heap cs_key]. split; [|by rewrite lookup_insert_eq].
  rewrite <- (insert_delete_eq k t q). apply join_inv; [done|by rewrite lookup_delete_eq|done| |].
  - pose proof (inv_ok _ Hl q c Hq') as Hok. exact Hok.
  - intros Hm. destruct (inv_count _ Hl q c Hq' Hm) as [Hr H0]. cbn in Hr |- *. pose proof (users_bound _ q Hl) as Hb. cbn in Hb.
    rewrite u32_small; lia.
Qed.
End threads.

(** ** Any number of threads

    A step is a call of one thread, or a change of the options in a context by a thread that has it. *)

Inductive ctx_step {W} `{!Env W} `{!SockEnv W} : contexts * W → contexts * W → Prop :=
| StepGet t p s s' : thread_num t → nc_client_get_thread_context t s = Done (p, s') → ctx_step s s'
| StepSet t q s s' : thread_num t → is_Some (cs_heap s.1 !! q) → nc_client_set_thread_context t (Some q) s = Done (tt, s') → ctx_step s s'
| StepExit t s s' : thread_exit t s = Done (tt, s') → ctx_step s s'
| StepEdit h k w w' p c c' : h !! p = Some c → ctx_ok c' → cc_refcount c' = cc_refcount c →
    ctx_step (Contexts h k, w) (Contexts (<[p := c']> h) k, w').

Lemma init_inv : contexts_inv init_contexts.
Proof.
  constructor; cbn [init_contexts cs_heap cs_key].
  - by eexists.
  - intros t p []%lookup_empty_Some.
  - intros p c [<- <-]%lookup_singleton_Some. apply main_ok.
  - by intros p c [<- <-]%lookup_singleton_Some.
  - intros t p []%lookup_empty_Some.
Qed.

Lemma step_inv_ctx {W} `{!Env W} `{!SockEnv W} `{!Memory W} (s s' : contexts * W) :
  contexts_inv s.1 → ctx_step s s' → contexts_inv s'.1.
Proof.
  intros Hi Hs. destruct Hs as [t p s s' Ht E|t q s s' Ht Hq E|t s s' E|h k w w' p c c' Hp Hc Hr].
  - exact (proj1 (wpx_Done _ _ _ _ _ _ (location_ok False t s Hi Ht) E)).
  - exact (proj1 (wpx_Done _ _ _ _ _ _ (set_ok False t q s Hi Ht Hq) E)).
  - exact (wpx_Done _ _ _ _ _ _ (exit_ok False t s Hi) E).
  - cbn in *. constructor; cbn.
    + destruct (decide (p = MAIN)) as [->|]; [by rewrite lookup_insert_eq|]. rewrite lookup_insert_ne by done. apply (inv_main _ Hi).
    + intros t q Hq. destruct (decide (q = p)) as [->|]; [by rewrite lookup_insert_eq|]. rewrite lookup_insert_ne by done. by apply (inv_live _ Hi t).
    + intros q d [[<- <-]|[_ Hd]]%lookup_insert_Some; [done|by apply (inv_ok _ Hi q)].
    + intros q d [[<- <-]|[_ Hd]]%lookup_insert_Some Hm; [rewrite Hr; by apply (inv_count _ Hi p)|by apply (inv_count _ Hi q)].
    + apply (inv_threads _ Hi).
Qed.


#[export] Instance net_memory : Memory net.
Proof. intros n w Hn. cbn. unfold on_sim. cbn. destruct (Z.eqb_spec n 0); [lia|]. cbn. lia. Qed.

Definition demo_ctx_net : net := Net (Sim [] [] 0) ∅ [].


(** ** Deleting sockets for Call Home

    The last entry is moved to the place of a deleted one and not looked at: of two entries with the address given one stays. *)
Theorem del_bind_skips :
  match (_ ← nc_client_ch_add_bind_listen (Some (str "::")) 4334 None NC_TI_LIBSSH;
         _ ← nc_client_ch_add_bind_listen (Some (str "::")) 4335 None NC_TI_LIBSSH;
         nc_client_ch_del_bind (Some (str "::")) 0 None) (no_client_opts (Keepalives false 0 0 0), demo_ctx_net) with
  | Done (0, (o, w)) => ch_bind_count o = 1 ∧ net_fds w ≠ ∅
  | _ => False
  end.
Proof. vm_compute. by split. Qed.
