(* ===== verification/ClientConnect.v ===== *)
(** * Connecting a client

    src/session_client.c, src/session_client_ssh.c and src/session_client_tls.c: a session is put
    together from a transport, the handshake and the schemas of the server, over two
    descriptors, a UNIX socket, SSH or TLS, or from a connection of a server (Call Home).  When a
    step fails the session is freed. *)

From S2P Require Import Prelude Session Env Time Locks IoRead IoWrite Capabilities PsQueue PollSession SessionFree ClientRecv ClientRpc SendRpc.
From S2P Require Import Sockets Connect TlsOpts TlsVerify UserDb SshAuth SshCliOpts SshPrompt SshClient TlsCliOpts ModuleInfo Schemas ClientCtx.
From Stdlib Require Import ZArith Ascii String Lia.
From stdpp Require Import base list strings gmap numbers.
Open Scope Z_scope.

(** Options of an SSH session. *)
Inductive ssh_option :=
| OptHost (h : bytes)
| OptPort (p : Z)
| OptUser (u : bytes)
| OptTimeout (s : Z)
| OptFd (fd : Z)
| OptBlocking (b : bool)
| OptHostkeys (l : bytes)
| OptPublickeys (l : bytes).

(** The rest of what connecting needs of the system and of libssh. *)
Class ConnectEnv (W : Type) := {
  unix_connect : Z → bytes → W → bool * W;
  ssh_new : W → bool * W;
  ssh_options_set : ssh_option → W → W;
  ssh_options_get_host : W → option bytes * W;
  ssh_options_get_port : W → Z * W;
  ssh_options_get_user : W → option bytes * W;
  ssh_get_fd : W → Z * W;
  ssh_channel_end : W → W;
  ssh_disconnect : W → W;
  ssh_free : W → W;
  SSL_shutdown : W → W;
}.

Definition NC_PORT_SSH : Z := 830.
Definition NC_PORT_TLS : Z := 6513.
Definition NC_SSH_TIMEOUT : Z := 10.

Definition KEY_TYPES : bytes :=
  str "ssh-ed25519,ecdsa-sha2-nistp256,ecdsa-sha2-nistp384,ecdsa-sha2-nistp521,ssh-rsa,rsa-sha2-512,rsa-sha2-256,ssh-dss".

Definition set_path (p : option bytes) (s : nc_session) : nc_session :=
  Session (status s) (term_reason s) (killed_by s) (side s) (id s) (version s) (ti s) (io_lock s)
    (username s) (host s) (port s) p (flags s) (client s) (server s).

(** The host to connect to; an empty string is as good as none. *)
Definition host_or_localhost (host : option bytes) : bytes :=
  match host with Some (c :: h) => c :: h | _ => str "localhost" end.

Section connect.
Context {W node envelope cert name crl : Type} `{!Env W} `{!LyBuild W} `{!Printer dnode envelope} `{!ClientEnv W node}.
Context `{!ReplyData node} `{!LySchema W} `{!BuildConstants} `{!HelloParser W} `{!SockEnv W} `{!ConnEnv W} `{!UserDb W} `{!ConnectEnv W}.
Context `{!TtyEnv W} `{!HostKeyEnv W} `{!SshCliEnv W} `{!X509 W cert name crl} `{!TlsCliEnv W cert}.
Context (dnssec : bool) (opts : nc_client_opts) (fuel : nat).

Abbreviation XM := (M (ctx_conf * (nc_session * W))).
Abbreviation KM := (M (ctx_conf * W)).

(** A computation on a session. *)
Definition run_session {A} (s : nc_session) (m : XM A) : KM (A * nc_session) := λ x,
  match m (x.1, (s, x.2)) with
  | Done (a, (c, (s, w))) => Done ((a, s), (c, w))
  | NoFuel => NoFuel
  | Crash => Crash
  end.

(** ** Freeing a session that is alone on its transport *)

Definition close_session_rpc (w : W) : option dnode * W :=
  let (b, w) := ly_ctx_get_module_implemented NETCONF w in
  if (b : bool) then
    let (ok, w) := lyd_new_ok (NewInner None NETCONF (str "close-session")) w in
    (if (ok : bool) then Some (DNode true NETCONF (str "close-session") VInner [] []) else None, w)
  else (None, w).

Definition close_fd (fd : Z) : SM W unit := if -1 <? fd then env (modify (sock_close fd)) else mret tt.

(** [nc_session_free_transport] without a ring: a connected SSH session is closed by libssh. *)
Definition free_transport : SM W unit :=
  connected ← nc_session_is_connected fuel;
  s ← ses;
  match ti s with
  | TiNone | TiFd _ _ => mret tt
  | TiUnix sock => close_fd sock
  | TiLibssh _ _ =>
    _ ← (if (connected : bool) then env (modify ssh_channel_end) else mret tt);
    r ← nc_session_io_lock NC_SESSION_FREE_LOCK_TIMEOUT;
    sock ← envcall ssh_get_fd;
    _ ← (if (connected : bool) then env (modify ssh_disconnect) else mret tt);
    _ ← env (modify ssh_free);
    _ ← (if r =? 1 then _ ← nc_session_io_unlock; mret tt else mret tt);
    if (connected : bool) then mret tt else close_fd sock
  | TiOpenssl =>
    sock ← envcall ssl_get_fd;
    _ ← (if (connected : bool) then env (modify SSL_shutdown) else mret tt);
    _ ← env (modify (SSL_free (cert := cert)));
    close_fd sock
  end.

Definition free_session : SM W unit :=
  s ← ses;
  if bool_decide (status s = NC_STATUS_CLOSING) then mret tt
  else
    _ ← stop_threads fuel;
    ok ← free_client (envelope := envelope) close_session_rpc fuel;
    if negb ok then mret tt
    else
      _ ← free_callhome fuel;
      free_transport.

(** ** The common part *)

(** The handshake and the schemas; whether all went well. *)
Definition hello_and_fill : XM bool :=
  r ← on_env (nc_handshake_io (node := dnode) (envelope := envelope) None (NcServerOpts NC_WD_UNKNOWN 0 [] None 0 0) fuel);
  if negb (bool_decide (r = NC_MSG_HELLO)) then mret false
  else
    _ ← on_env (upd_ses (set_status NC_STATUS_RUNNING));
    r ← nc_ctx_check_and_fill (node := node) (envelope := envelope) (co_schema opts) fuel;
    mret (negb (r =? -1)).

Definition establish (shared : bool) : XM bool :=
  ok ← nc_client_session_new_ctx (co_schema opts) shared;
  if negb ok then mret false else hello_and_fill.

(** A new session over a transport, with the data for schema mounts not set. *)
Definition new_client_session (t : transport) : KM (option nc_session) :=
  s ← on_env (nc_new_session NC_CLIENT false);
  _ ← modify (λ x, (set_ext_data None x.1, x.2));
  mret ((λ s, set_ti t (set_status NC_STATUS_STARTING s)) <$> s).

(** The end of a function that connects: the session, or [NULL] after it was freed. *)
Definition finish (ok : bool) (s : nc_session) : KM (option nc_session) :=
  if ok then mret (Some s) else _ ← run_session s (on_env free_session); mret None.

(** ** Descriptors and UNIX sockets *)

Definition nc_connect_inout (fdin fdout : Z) (shared : bool) : KM (option nc_session) :=
  if (fdin <? 0) || (fdout <? 0) then mret None
  else
    s ← new_client_session (TiFd fdin fdout);
    match s with
    | None => mret None
    | Some s => '(ok, s) ← run_session s (establish shared); finish ok s
    end.

(** The user name, the handshake and the rest of [nc_connect_unix]. *)
Definition unix_session (address : bytes) (shared : bool) : XM bool :=
  ok ← nc_client_session_new_ctx (co_schema opts) shared;
  if negb ok then mret false
  else
    p ← on_env (on_env (strdup address));
    _ ← on_env (upd_ses (set_path p));
    u ← on_env (on_env (nc_getpwuid fuel (getuid true) 0));
    match u with
    | None => mret false
    | Some u =>
      u ← on_env (on_env (strdup u));
      match u with
      | None => mret false
      | Some u =>
        _ ← on_env (upd_ses (set_username (Some u)));
        hello_and_fill
      end
    end.

(** The path is cut to the size of [sun_path]. *)
Definition nc_connect_unix (address : option bytes) (shared : bool) : KM (option nc_session) :=
  match address with
  | None => mret None
  | Some address =>
    sock ← on_env (call (sock_socket AF_UNIX));
    if sock <? 0 then mret None
    else
      ok ← on_env (all_ok [call (unix_connect sock (ztake (SUN_PATH - 1) address)); call (sock_set_nonblock sock)]);
      if negb ok then _ ← on_env (modify (sock_close sock)); mret None
      else
        s ← new_client_session (TiUnix sock);
        match s with
        | None => _ ← on_env (modify (sock_close sock)); mret None
        | Some s => '(ok, s) ← run_session s (unix_session address shared); finish ok s
        end
  end.

(** ** SSH *)

(** The user name of the process, the effective one for [true]. *)
Definition own_name (effective : bool) : M W (option bytes) :=
  u ← nc_getpwuid fuel (getuid effective) 0;
  match u with None => mret None | Some u => strdup u end.

(** The host of an SSH session.  One without a host has no socket: it is connected to localhost.  [None]: that failed. *)
Definition libssh_host (port : Z) : M W (option bytes) :=
  h ← call ssh_options_get_host;
  match h with
  | Some h => mret (Some h)
  | None =>
    d ← strdup (str "localhost");
    match d with
    | None => mret None
    | Some d =>
      _ ← modify (ssh_options_set (OptHost d));
      '(sock, _, ip_host) ← nc_sock_connect (Some d) port (-1) (co_ka opts) None true;
      if sock =? -1 then mret None
      else
        _ ← modify (ssh_options_set (OptFd sock));
        _ ← modify (ssh_options_set (OptBlocking false));
        match ip_host with HostSet h => mret (Some h) | HostUnset => crash end
    end
  end.

(** Authentication of an SSH session that is not connected yet; the session with host and user, and whether it is
    authenticated. *)
Definition libssh_auth (s : nc_session) (h : bytes) (u : option bytes) (o : nc_client_ssh_opts) (timeout : Z) : M W (bool * nc_session * option bytes) :=
  u ← match u with
      | Some u => mret (Some u)
      | None =>
        u ← match so_username o with None => own_name false | Some n => strdup n end;
        match u with None => mret None | Some n => _ ← modify (ssh_options_set (OptUser n)); mret (Some n) end
      end;
  match u with
  | None => mret (false, s, None)
  | Some n =>
    let s := set_username (Some n) (set_host_port (Some h) (port s) s) in
    r ← connect_ssh_session dnssec fuel s o timeout;
    mret (r =? 1, s, Some n)
  end.

Definition _nc_connect_libssh (ssh_session : bool) (shared : bool) (o : nc_client_ssh_opts) (timeout : Z) : KM (option nc_session) :=
  if negb ssh_session then mret None
  else
    s ← new_client_session (TiLibssh false None);
    match s with
    | None => mret None
    | Some s =>
      port ← on_env (call ssh_options_get_port);
      h ← on_env (libssh_host port);
      match h with
      | None => finish false s
      | Some h =>
        u ← on_env (call ssh_options_get_user);
        c ← on_env (call ssh_is_connected);
        '(ok, s, u) ← (if (c : bool) then mret (true, s, u) else on_env (libssh_auth s h u o timeout));
        if negb ok then finish false s
        else
          '(r, s) ← run_session s (on_env (open_netconf_channel fuel timeout));
          if negb (r =? 1) then finish false s
          else
            '(ok, s) ← run_session s (establish shared);
            finish ok (if (ok : bool) then set_host_port (Some h) port (set_username u s) else s)
      end
    end.

Definition nc_connect_libssh (ssh_session : bool) (shared : bool) (ssh : client_ssh) : KM (option nc_session) :=
  _nc_connect_libssh ssh_session shared (ssh_opts ssh) NC_TRANSPORT_TIMEOUT.

(** The transport of [nc_connect_ssh]: the session with its channel, and the address of the server. *)
Definition ssh_transport (ssh : client_ssh) (h : bytes) (port : Z) (name : bytes) (s : nc_session) : KM (bool * nc_session * option bytes) :=
  _ ← on_env (modify (λ w, ssh_options_set (OptTimeout NC_SSH_TIMEOUT) (ssh_options_set (OptUser name)
                             (ssh_options_set (OptPort port) (ssh_options_set (OptHost h) w)))));
  '(sock, _, ip_host) ← on_env (nc_sock_connect (Some h) port (-1) (co_ka opts) None true);
  if sock =? -1 then mret (false, s, None)
  else
    _ ← on_env (modify (λ w, ssh_options_set (OptBlocking false) (ssh_options_set (OptFd sock) w)));
    d ← on_env (strdup h);
    u ← on_env (strdup name);
    let s := set_username u (set_host_port d (Session.port s) s) in
    r ← on_env (connect_ssh_session dnssec fuel s (ssh_opts ssh) NC_TRANSPORT_TIMEOUT);
    if negb (r =? 1) then mret (false, s, None)
    else
      '(r, s) ← run_session s (on_env (open_netconf_channel fuel NC_TRANSPORT_TIMEOUT));
      mret (r =? 1, s, match ip_host with HostSet h => Some h | HostUnset => None end).

(** Without an SSH session there is nothing to free of the transport. *)
Definition nc_connect_ssh (ssh : client_ssh) (host : option bytes) (port : Z) (shared : bool) : KM (option nc_session) :=
  let h := host_or_localhost host in
  let port := if port =? 0 then NC_PORT_SSH else port in
  name ← match so_username (ssh_opts ssh) with
         | None => on_env (nc_getpwuid fuel (getuid false) 0)
         | Some n => mret (Some n)
         end;
  match name with
  | None => mret None
  | Some name =>
    s ← new_client_session (TiLibssh false None);
    match s with
    | None => mret None
    | Some s =>
      ok ← on_env (call ssh_new);
      if negb ok then finish false (set_ti TiNone s)
      else
        '(ok, s, ip_host) ← ssh_transport ssh h port name s;
        if negb ok then finish false s
        else
          '(ok, s) ← run_session s (establish shared);
          finish ok (if (ok : bool) then set_host_port ip_host port s else s)
    end
  end.

(** *** One more channel on an SSH session *)

Definition channel_session (shared : bool) : XM bool :=
  r ← on_env (nc_session_io_lock (-1));
  if negb (r =? 1) then mret false
  else
    r ← on_env (open_netconf_channel fuel NC_TRANSPORT_TIMEOUT);
    if negb (r =? 1) then mret false
    else
      _ ← on_env nc_session_io_unlock;
      establish shared.

(** [nc_session_free] of a session whose transport is used by another one: only its channel is closed. *)
Definition free_channel : SM W unit :=
  _ ← stop_threads fuel;
  ok ← free_client (envelope := envelope) close_session_rpc fuel;
  if negb ok then mret tt
  else
    _ ← free_callhome fuel;
    connected ← nc_session_is_connected fuel;
    _ ← (if (connected : bool) then env (modify ssh_channel_end) else mret tt);
    r ← nc_session_io_lock NC_SESSION_FREE_LOCK_TIMEOUT;
    if r =? 1 then _ ← nc_session_io_unlock; mret tt else mret tt.

(** The session at [p] gets a neighbour at [q] in its ring; the two share the mutex, so that its state is copied
    back.  [p] is the one before [q], and its link is as before when [q] is freed.  A session that is still starting does
    not count as a user of the transport. *)
Definition nc_connect_ssh_channel (p q : positive) (session : option nc_session) (shared : bool) : KM (option nc_session * option nc_session) :=
  match session with
  | None => mret (None, None)
  | Some old =>
    new ← on_env (nc_new_session NC_CLIENT true);
    match new, ti old with
    | None, _ => mret (None, Some old)
    | Some new, TiLibssh _ next =>
      let new := set_io_lock (io_lock old) (set_ti (TiLibssh false (Some (default p next))) (set_status NC_STATUS_STARTING new)) in
      let old := set_next (Some q) old in
      '(ok, new) ← run_session new (channel_session shared);
      if (ok : bool) then
        h ← match host old with Some h => on_env (strdup h) | None => crash end;
        u ← match username old with Some u => on_env (strdup u) | None => crash end;
        mret (Some (set_username u (set_host_port h (port old) new)), Some (set_io_lock (io_lock new) old))
      else
        _ ← guarded (negb (bool_decide (status old = NC_STATUS_STARTING)));
        '(_, new) ← run_session new (on_env free_channel);
        mret (None, Some (set_io_lock (io_lock new) (set_next next old)))
    | Some _, _ => crash
    end
  end.

Definition nc_accept_callhome_ssh_sock (ssh : client_ssh) (sock : Z) (host : bytes) (port : Z) (shared : bool) (timeout : Z) : KM (option nc_session) :=
  ok ← on_env (call ssh_new);
  if negb ok then _ ← on_env (modify (sock_close sock)); mret None
  else
    _ ← on_env (modify (λ w, ssh_options_set (OptTimeout NC_SSH_TIMEOUT) (ssh_options_set (OptPort port)
                               (ssh_options_set (OptHost host) (ssh_options_set (OptBlocking false) (ssh_options_set (OptFd sock) w))))));
    name ← match so_username (ssh_ch_opts ssh) with
           | None => on_env (nc_getpwuid fuel (getuid false) 0)
           | Some n => mret (Some n)
           end;
    match name with
    | None => _ ← on_env (modify ssh_free); mret None
    | Some name =>
      _ ← on_env (modify (λ w, ssh_options_set (OptPublickeys KEY_TYPES) (ssh_options_set (OptHostkeys KEY_TYPES)
                                 (ssh_options_set (OptUser name) w))));
      s ← _nc_connect_libssh true shared (ssh_ch_opts ssh) timeout;
      mret (add_flag NC_SESSION_CALLHOME <$> s)
    end.

(** ** TLS *)

(** What became of a TLS transport: the options or the memory failed, there is no SSL session, it is not connected, it is. *)
Inductive tls_conn :=
| TlsNothing
| TlsNoSsl (s : nc_session)
| TlsDown (s : nc_session)
| TlsUp (s : nc_session) (ip_host : option bytes).

(** The transport of [nc_connect_tls]: the SSL context, the socket, the handshake. *)
Definition tls_transport (host : bytes) (port : Z) : M (client_tls * W) tls_conn :=
  r ← on_tls false (nc_client_tls_update_opts (cert := cert) (Some host));
  if negb (r =? 0) then mret TlsNothing
  else
    s ← on_env (nc_new_session NC_CLIENT false);
    c ← gets fst;
    match s, tls_ctx (tls_opts c) with
    | None, _ => mret TlsNothing
    | Some _, None => crash
    | Some s, Some ctx =>
      let s := set_ti TiOpenssl (set_status NC_STATUS_STARTING s) in
      ok ← on_env (call (SSL_new (cert := cert) ctx));
      if negb ok then mret (TlsNoSsl s)
      else
        '(sock, _, ip_host) ← on_env (nc_sock_connect (Some host) port (-1) (co_ka opts) None true);
        if sock =? -1 then mret (TlsDown s)
        else
          _ ← on_env (modify (SSL_set_fd (cert := cert) sock));
          ts ← on_env (nc_gettimespec_mono_add NC_TRANSPORT_TIMEOUT);
          ok ← on_env (tls_connect_loop fuel fuel false c (Some ts));
          mret (if (ok : bool) then TlsUp s (match ip_host with HostSet h => Some h | HostUnset => None end) else TlsDown s)
    end.

Abbreviation LM := (M (client_tls * (ctx_conf * W))).

(** A computation that leaves the settings of the context alone. *)
Definition beside_conf {A} (m : M (client_tls * W) A) : LM A := λ s,
  match m (s.1, s.2.2) with
  | Done (a, (c, w)) => Done (a, (c, (s.2.1, w)))
  | NoFuel => NoFuel
  | Crash => Crash
  end.

(** Freeing a session whose SSL session is [NULL] asks it for its descriptor. *)
Definition nc_connect_tls (host : option bytes) (port : Z) (shared : bool) : LM (option nc_session) :=
  c ← gets fst;
  let o := tls_opts c in
  if negb (is_path (cert_path o)) || (negb (is_path (ca_file o)) && negb (is_path (ca_dir o))) then mret None
  else
    let h := host_or_localhost host in
    let port := if port =? 0 then NC_PORT_TLS else port in
    r ← beside_conf (tls_transport h port);
    match r with
    | TlsNothing => mret None
    | TlsNoSsl _ => crash
    | TlsDown s => on_env (finish false s)
    | TlsUp s ip_host =>
      _ ← on_env (modify (λ x, (set_ext_data None x.1, x.2)));
      '(ok, s) ← on_env (run_session s (establish shared));
      if negb ok then on_env (finish false s)
      else
        u ← on_env (on_env (strdup (str "certificate-based")));
        mret (Some (set_username u (set_host_port ip_host port s)))
    end.

(** The SSL session of the caller is not freed. *)
Definition nc_connect_libssl (tls : bool) (shared : bool) : KM (option nc_session) :=
  if negb tls then mret None
  else
    f ← on_env (call (SSL_is_init_finished (cert := cert)));
    if negb f then mret None
    else
      s ← new_client_session TiOpenssl;
      match s with
      | None => mret None
      | Some s => '(ok, s) ← run_session s (establish shared); finish ok (if (ok : bool) then s else set_ti TiNone s)
      end.

(** The handshake with a server that connected.  [None]: no SSL session. *)
Definition tls_ch_transport (sock timeout : Z) (peername : option bytes) : M (client_tls * W) (option bool) :=
  r ← on_tls true (nc_client_tls_update_opts (cert := cert) peername);
  if negb (r =? 0) then mret None
  else
    c ← gets fst;
    match tls_ctx (tls_ch_opts c) with
    | None => crash
    | Some ctx =>
      ok ← on_env (call (SSL_new (cert := cert) ctx));
      if negb ok then mret None
      else
        _ ← on_env (modify (SSL_set_fd (cert := cert) sock));
        ts ← (if -1 <? timeout then ts ← on_env (nc_gettimespec_mono_add timeout); mret (Some ts) else mret None);
        ok ← on_env (tls_connect_loop fuel fuel true c ts);
        mret (Some ok)
    end.

Definition nc_accept_callhome_tls_sock (sock : Z) (host : bytes) (port : Z) (shared : bool) (timeout : Z) (peername : option bytes)
    : LM (option nc_session) :=
  r ← beside_conf (tls_ch_transport sock timeout peername);
  s ← match r with Some true => on_env (nc_connect_libssl true shared) | _ => mret None end;
  match s with
  | None =>
    _ ← match r with Some _ => on_env (on_env (modify (SSL_free (cert := cert)))) | None => mret tt end;
    _ ← on_env (on_env (modify (sock_close sock)));
    mret None
  | Some s =>
    h ← on_env (on_env (strdup host));
    u ← on_env (on_env (strdup (str "certificate-based")));
    mret (Some (set_username u (set_host_port h port (add_flag NC_SESSION_CALLHOME s))))
  end.
End connect.

(** ** Call Home *)

Section callhome.
Context {W node envelope cert name crl : Type} `{!Env W} `{!LyBuild W} `{!Printer dnode envelope} `{!ClientEnv W node}.
Context `{!ReplyData node} `{!LySchema W} `{!BuildConstants} `{!HelloParser W} `{!SockEnv W} `{!ConnEnv W} `{!UserDb W} `{!ConnectEnv W}.
Context `{!TtyEnv W} `{!HostKeyEnv W} `{!SshCliEnv W} `{!X509 W cert name crl} `{!TlsCliEnv W cert}.
Context (dnssec : bool) (fuel : nat).

Abbreviation AM := (M (nc_client_opts * (client_tls * (ctx_conf * W)))).

(** A connection of a server, over the transport of the socket it came to: 1 and the session, 0 when there was none in time, or
    -1.  A descriptor 0 is taken for no connection. *)
Definition nc_accept_callhome (ssh : client_ssh) (timeout : Z) (shared : bool) : AM (Z * option nc_session) :=
  o ← gets fst;
  match ch_binds o with
  | None => mret (-1, None)
  | Some l =>
    match mapM (λ x, x) (ztake (ch_bind_count o) l) with
    | None => crash
    | Some binds =>
      '(sock, info, binds) ← on_env (on_env (on_env (nc_sock_accept_binds binds timeout)));
      let o := set_binds (Some (map Some binds ++ zdrop (ch_bind_count o) l)) (ch_binds_aux o) (ch_bind_count o) o in
      _ ← modify (λ x, (o, x.2));
      if sock <? 1 then mret (sock, None)
      else
        match info, default [] (ch_binds_aux o) with
        | Some (Some host, port, idx), aux =>
          match aux !! Z.to_nat idx with
          | Some (Some (NC_TI_LIBSSH, _)) =>
            s ← on_env (on_env (nc_accept_callhome_ssh_sock (node := node) (envelope := envelope) (cert := cert) dnssec o fuel ssh sock host port shared NC_TRANSPORT_TIMEOUT));
            mret (match s with Some _ => 1 | None => -1 end, s)
          | Some (Some (NC_TI_OPENSSL, hostname)) =>
            s ← on_env (nc_accept_callhome_tls_sock (node := node) (envelope := envelope) o fuel sock host port shared NC_TRANSPORT_TIMEOUT hostname);
            mret (match s with Some _ => 1 | None => -1 end, s)
          | Some (Some _) => _ ← on_env (on_env (on_env (modify (sock_close sock)))); mret (-1, None)
          | _ => crash
          end
        | _, _ => crash
        end
    end
  end.
End callhome.

(** [nc_client_destroy], without the library's own [nc_destroy]. *)
Definition nc_client_destroy {W} `{!Env W, !SockEnv W} : M (client_ssh * (client_tls * (nc_client_opts * W))) unit :=
  _ ← on_env (on_env (modify (λ x, (NcClientOpts (SchemaOpts None (schema_user_clb (co_schema x.1)) (schema_clb_data (co_schema x.1)))
                                     (co_ka x.1) (ch_binds x.1) (ch_binds_aux x.1) (ch_bind_count x.1), x.2))));
  _ ← on_env (on_env (nc_client_ch_del_bind None 0 None));
  _ ← nc_client_ssh_destroy_opts;
  on_env nc_client_tls_destroy_opts.

Definition nc_client_session_set_not_strict (s : nc_session) : nc_session :=
  if bool_decide (side s = NC_CLIENT) then add_flag NC_SESSION_CLIENT_NOT_STRICT s else s.
