(* ===== verification/ClientConnectProofs.v ===== *)
(** * Connecting a client: what a connection was checked for, what a failure leaves behind

    A TLS transport that is up was made with the context of the options and the name of the
    host, and every certificate OpenSSL asked about was in order.  A channel that cannot be opened leaves
    the mutex of the SSH session locked. *)

From S2P Require Import Prelude Session Env Time Locks IoRead IoReadProofs IoWrite Framing Capabilities SessionFree ClientRecv ClientRpc SendRpc ClientTheorems.
From S2P Require Import Sim IoTheorems RpcTheorems Handshake Sockets SocketsProofs Connect TlsOpts TlsVerify TlsVerifyProofs SshAuth SshAuthProofs SshCliOpts SshCliOptsProofs SshPrompt SshClient.
From S2P Require Import UserDb TlsCliProofs TlsCliOpts ModuleInfo Schemas SchemasProofs ClientCtx ClientConnect.
From Stdlib Require Import ZArith Ascii String Lia.
From stdpp Require Import base list strings gmap numbers.
Open Scope Z_scope.

(** ** A channel that is not opened *)

(** A mutex that this thread already holds. *)
Lemma io_lock_held {W} `{EL : EnvLaws W} F t s (w : W) :
  io_lock s = Some true → 0 ≤ t →
  wpx F (nc_session_io_lock t) (λ r sw, r = 0 ∧ sw.1 = s) (s, w).
Proof.
  intros Hl Ht. unfold nc_session_io_lock. apply wpx_bind, wpx_ses. rewrite Hl. unfold pthread_acquire.
  destruct (0 <? t) eqn:E; [|destruct (t =? 0) eqn:E0; [|lia]].
  - apply wpx_bind, wpx_bind, wpx_real_add; [lia|]. intros ts w1 _. by apply wpx_ret, wpx_ret.
  - by apply wpx_bind, wpx_ret, wpx_ret.
Qed.

Section channel.
Context {W node envelope : Type} `{RL : Reliable W} `{!LyBuild W} `{!Printer dnode envelope} `{!ClientEnv W node}.
Context `{!ReplyData node} `{!LySchema W} `{!BuildConstants} `{!HelloParser W} `{!ConnectEnv W} `{!SshCliEnv W}.
Context (opts : nc_client_opts).

Lemma wpx_run_session {A} F s (m : M (ctx_conf * (nc_session * W)) A) (Q : A * nc_session → ctx_conf * W → Prop) c w :
  wpx F m (λ a x, Q (a, x.2.1) (x.1, x.2.2)) (c, (s, w)) → wpx F (run_session s m) Q (c, w).
Proof. unfold wpx, run_session. cbn [fst snd]. by destruct (m (c, (s, w))) as [[a [c' [s' w']]]| |]. Qed.

(** A session that has no channel yet. *)
Definition fresh_channel (s : nc_session) : Prop :=
  side s = NC_CLIENT ∧ status s = NC_STATUS_STARTING ∧ msgs_held (client s) = false ∧ ntf_thread_running (client s) = 0 ∧
  ∃ next, ti s = TiLibssh false next.

(** The server refuses channels. *)
Definition refuses : Prop := ∀ w : W, (cli_channel_open w).1 = SSH_ERROR.

Lemma channel_session_refused F fuel shared s c w :
  refuses → fresh_channel s → io_lock s = Some false →
  wpx F (channel_session (node := node) (envelope := envelope) opts (S fuel) shared)
    (λ ok x, ok = false ∧ fresh_channel x.2.1 ∧ io_lock x.2.1 = Some true) (c, (s, w)).
Proof.
  intros Hr (Hs & Hst & Hm & Hn & next & Ht) Hl. unfold channel_session.
  apply wpx_bind, wpx_on_env. eapply wpx_mono; [by apply nc_session_io_lock_ok|]. intros r [s1 w1] (-> & Es & _). cbn [fst] in Es. subst s1.
  cbn [Z.eqb Pos.eqb negb]. apply wpx_bind, wpx_on_env. unfold open_netconf_channel.
  apply wpx_bind, wpx_on_env, wpx_call. rewrite rel_ssh_conn. cbn [negb].
  apply wpx_bind, wpx_ses. unfold has_channel. cbn [ti set_io_lock]. rewrite Ht.
  apply wpx_bind. unfold deadline. change (-1 <? NC_TRANSPORT_TIMEOUT) with true. cbv iota. unfold env at 1. apply wpx_on_env.
  apply wpx_bind, (wpx_on_env_inv s), wpx_mono_add; [done|]. intros ts w2 _ _ _. apply wpx_ret.
  apply wpx_bind, wpx_on_env, wpx_call. apply wpx_bind, wpx_upd_ses. apply wpx_bind, wpx_on_env. cbn [again]. apply wpx_bind, wpx_call.
  rewrite Hr. cbn [rc_again]. change (bool_decide (SSH_ERROR = SSH_AGAIN)) with false. cbv iota. apply wpx_ret.
  apply wpx_bind. unfold channel_result. apply wpx_bind, wpx_upd_ses, wpx_ret. apply wpx_ret. cbn [Z.eqb negb Z.opp]. apply wpx_ret.
  split; [done|]. unfold fresh_channel, set_channel. cbn [snd fst ti set_io_lock]. rewrite Ht. cbn. by eauto 10.
Qed.

Lemma free_client_starting F rpc fuel s (w : W) :
  side s = NC_CLIENT → status s = NC_STATUS_STARTING → msgs_held (client s) = false →
  wpx F (free_client (node := dnode) (envelope := envelope) rpc fuel)
    (λ ok sw, ok = true ∧ sw.1 = set_cpblts None (set_msgs_held false (set_msgs [] (set_msgs_held true s)))) (s, w).
Proof.
  intros Hs Hst Hm. unfold free_client. apply wpx_bind. eapply wpx_mono; [by apply msgs_lock_ok|].
  intros [r t] [s1 w1] (Er & Es & _). cbn [fst] in Er, Es. subst r s1. cbn [Z.eqb]. apply wpx_bind, wpx_upd_ses.
  apply wpx_bind, wpx_bind. eapply wpx_mono; [by apply msgs_unlock_ok|]. intros u [s2 w2] (Es & _). cbn [fst] in Es. subst s2.
  apply wpx_ret, wpx_bind, wpx_ses. cbn [status set_msgs_held set_msgs set_client]. rewrite Hst.
  change (bool_decide (NC_STATUS_STARTING = NC_STATUS_RUNNING)) with false. cbv iota.
  apply wpx_bind, wpx_ret, wpx_bind, wpx_upd_ses. by apply wpx_ret.
Qed.

Lemma free_channel_held F fuel s (w : W) :
  fresh_channel s → io_lock s = Some true →
  wpx F (free_channel (envelope := envelope) fuel) (λ _ sw, io_lock sw.1 = Some true) (s, w).
Proof.
  intros (Hs & Hst & Hm & Hn & next & Ht) Hl. unfold free_channel. apply wpx_bind.
  unfold stop_threads. apply wpx_bind, wpx_ses. rewrite Hn. rewrite andb_false_r. apply wpx_ret.
  apply wpx_bind. eapply wpx_mono; [by apply free_client_starting|]. intros ok [s1 w1] [-> Es]. cbn [fst] in Es. subst s1. cbn [negb].
  apply wpx_bind. unfold free_callhome. apply wpx_bind, wpx_ses. cbn [side set_cpblts set_msgs_held set_msgs set_client]. rewrite Hs.
  change (bool_decide (NC_CLIENT = NC_SERVER)) with false. cbn [andb]. cbv zeta iota.
  apply wpx_bind, wpx_ret, wpx_bind, wpx_upd_ses, wpx_bind, wpx_ret, wpx_ret.
  apply wpx_bind. unfold nc_session_is_connected. apply wpx_bind, wpx_ses. cbn [ti set_status set_cpblts set_msgs_held set_msgs set_client].
  rewrite Ht. apply wpx_envcall. rewrite rel_ssh_conn. apply wpx_bind, wpx_on_env, wpx_modify.
  apply wpx_bind. eapply wpx_mono; [by apply io_lock_held|]. intros r [s2 w2] [-> Es]. cbn [fst] in Es. subst s2.
  cbn [Z.eqb]. by apply wpx_ret.
Qed.

(** [nc_connect_ssh_channel] on an SSH session whose server refuses the channel returns no session, and leaves the mutex that the
    two sessions share locked: the failure path does not release it.  From then on the original session, otherwise
    unchanged, can not be used by its thread: an attempt to get its mutex times out, or blocks for ever without a timeout. *)
Theorem refused_channel_blocks fuel p q s shared c (w : W) :
  refuses → io_lock s = Some false → status s = NC_STATUS_RUNNING → (∃ ch next, ti s = TiLibssh ch next) →
  ∃ s' c' w', nc_connect_ssh_channel (node := node) (envelope := envelope) opts (S fuel) p q (Some s) shared (c, w)
      = Done ((None, Some s'), (c', w')) ∧
    s' = set_io_lock (Some true) s ∧
    (∀ t w1, 0 ≤ t → ∃ w2, nc_session_io_lock t (s', w1) = Done (0, (s', w2))) ∧
    (∀ t w1, t < 0 → nc_session_io_lock (W := W) t (s', w1) = NoFuel).
Proof.
  intros Hr Hl Hst (ch & next & Ht).
  assert (G : wp (nc_connect_ssh_channel (node := node) (envelope := envelope) opts (S fuel) p q (Some s) shared)
    (λ r _, r = (None, Some (set_io_lock (Some true) s))) (c, w)).
  { unfold nc_connect_ssh_channel. apply wpx_bind, wpx_on_env. unfold nc_new_session. apply wpx_bind, wpx_call. rewrite rel_malloc by done.
    cbn [negb]. apply wpx_ret. rewrite Ht. apply wpx_bind, wpx_run_session. eapply wpx_mono; [apply channel_session_refused; [done| |done]|].
    { unfold fresh_channel. by eauto 10. }
    intros ok [c1 [s1 w1]] (-> & Hf & Hl1). cbn [fst snd] in *. apply wpx_bind, wpx_guarded.
    { unfold set_next. rewrite Ht. cbn [status]. by rewrite Hst. }
    apply wpx_bind, wpx_run_session, wpx_on_env. eapply wpx_mono; [by apply free_channel_held|]. intros _ [s2 w2] Hl2. cbn [fst snd] in *.
    apply wpx_ret. f_equal. f_equal. rewrite Hl2. unfold set_next. cbn [ti]. rewrite Ht. cbn [ti]. destruct s; cbn in *. by subst. }
  destruct (proj1 (wp_total _ _ _) G) as (r & [c' w'] & E & ->). eexists _, c', w'. split; [exact E|]. split; [done|]. split.
  - intros t w1 Hz. destruct (proj1 (wp_total _ _ _) (io_lock_held False t (set_io_lock (Some true) s) w1 eq_refl Hz)) as (r & [s2 w2] & E2 & -> & Es).
    cbn [fst] in Es. subst s2. by exists w2.
  - intros t w1 Hz. unfold nc_session_io_lock, mbind, M_bind. cbn. destruct (0 <? t) eqn:E1; [lia|]. by destruct (t =? 0) eqn:E2; [lia|].
Qed.
End channel.

(** A server that is connected and refuses everything. *)
#[export] Instance refusing_ssh : SshCliEnv (sim true true) := {
  cli_connect w := (SSH_ERROR, w);
  cli_auth_none w := (SSH_AUTH_DENIED, w);
  cli_auth_list w := (0, w);
  cli_auth_password _ _ w := (SSH_AUTH_DENIED, w);
  cli_auth_kbdint w := (SSH_AUTH_DENIED, w);
  cli_kbd_nprompts w := (0, w);
  cli_kbd_prompt _ w := (None, w);
  cli_kbd_name w := (None, w);
  cli_kbd_instruction w := (None, w);
  cli_kbd_setanswer _ _ w := (false, w);
  cli_import_pubkey _ w := (SSH_ERROR, w);
  cli_try_publickey _ w := (SSH_AUTH_DENIED, w);
  cli_import_privkey _ _ w := (SSH_ERROR, w);
  cli_auth_publickey _ w := (SSH_AUTH_DENIED, w);
  cli_channel_new w := (true, w);
  cli_channel_open w := (SSH_ERROR, w);
  cli_request_subsystem _ w := (SSH_ERROR, w);
  usr_hostkey_check _ _ _ w := (1, w);
  usr_password _ _ _ _ w := (None, w);
  usr_interactive _ _ _ _ _ _ w := (None, w);
  usr_passphrase _ _ _ w := (None, w);
}.

#[export] Instance sim_connect : ConnectEnv (sim true true) := {
  unix_connect _ _ w := (true, w);
  ssh_new w := (true, w);
  ssh_options_set _ w := w;
  ssh_options_get_host w := (None, w);
  ssh_options_get_port w := (830, w);
  ssh_options_get_user w := (None, w);
  ssh_get_fd w := (3, w);
  ssh_channel_end w := w;
  ssh_disconnect w := w;
  ssh_free w := w;
  SSL_shutdown w := w;
}.

Definition demo_ssh_session : nc_session :=
  set_ti (TiLibssh true None) (set_io_lock (Some false) (set_status NC_STATUS_RUNNING (set_side NC_CLIENT zero_session))).

Lemma refused_channel_blocks_witness :
  ∃ s' c' w', nc_connect_ssh_channel (LyBuild0 := sim_ly None) (node := reply_child) (envelope := bytes) (no_client_opts (Keepalives false 0 0 0))
      10 1 2 (Some demo_ssh_session) false (demo_conf, demo_world (m0 := true) (up := true) []) = Done ((None, Some s'), (c', w')) ∧
    s' = set_io_lock (Some true) demo_ssh_session.
Proof.
  destruct (refused_channel_blocks (W := sim true true) (LyBuild0 := sim_ly None) (node := reply_child) (envelope := bytes)
    (no_client_opts (Keepalives false 0 0 0)) 9 1 2 demo_ssh_session false demo_conf (demo_world (m0 := true) (up := true) []))
    as (s' & c' & w' & E & Es & _).
  - intros w. reflexivity.
  - reflexivity.
  - reflexivity.
  - by exists true, None.
  - by exists s', c', w'.
Defined.

(** ** A TLS transport *)

(** A new SSL session has asked nothing; sockets, memory and the clock are nothing to it. *)
Class TlsNet (W cert name crl : Type) `{!Env W} `{!X509 W cert name crl} `{!TlsCliEnv W cert} `{!TlsHandshake W cert name crl}
    `{!SockEnv W} `{!ConnEnv W} := {
  net_ssl_new ctx w : let (ok, w') := SSL_new (cert := cert) ctx w in
    ok = true → made_from w' = Some ctx ∧ questions w' = [] ∧ answers w' = [];
  net_set_fd fd w : same_hs w (SSL_set_fd (cert := cert) fd w);
  net_malloc n w : same_hs w (malloc_ok n w).2;
  net_getaddrinfo h p w : same_hs w (sys_getaddrinfo h p w).2;
  net_socket a w : same_hs w (sock_socket a w).2;
  net_setsockopt fd o v w : same_hs w (sock_setsockopt fd o v w).2;
  net_nonblock fd w : same_hs w (sock_set_nonblock fd w).2;
  net_close fd w : same_hs w (sock_close fd w);
  net_ntop a w : same_hs w (sock_inet_ntop a w).2;
  net_start fd a w : same_hs w (conn_start fd a w).2;
  net_select fd t w : same_hs w (conn_select fd t w).2;
  net_error fd w : same_hs w (conn_error fd w).2;
}.

Section tls.
Context {W cert name crl : Type} `{!Env W} `{X : !X509 W cert name crl} `{!TlsCliEnv W cert} `{!TlsHandshake W cert name crl}.
Context `{!SockEnv W} `{!ConnEnv W} `{!TlsNet W cert name crl}.
Context (opts : nc_client_opts) (fuel : nat).

(** A computation that is no part of a handshake. *)
Definition aside {A} (m : M W A) : Prop := ∀ w, post m (λ _ w', same_hs w w') w.

Lemma same_hs_trans (w1 w2 w3 : W) : same_hs w1 w2 → same_hs w2 w3 → same_hs w1 w3.
Proof. intros (? & ? & ?) (? & ? & ?). unfold same_hs. split_and!; congruence. Qed.

Lemma aside_bind {A B} (m : M W A) (k : A → M W B) : aside m → (∀ a, aside (k a)) → aside (m ≫= k).
Proof.
  intros Hm Hk w. apply post_bind. eapply post_mono; [apply Hm|]. intros a w1 H1. eapply post_mono; [apply Hk|].
  intros b w2 H2. exact (same_hs_trans _ _ _ H1 H2).
Qed.

Lemma aside_ret {A} (a : A) : aside (mret a).
Proof. intros w. by apply post_ret. Qed.

Lemma aside_crash {A} : aside (A := A) crash.
Proof. done. Qed.

Lemma aside_call {A} (f : W → A * W) : (∀ w, same_hs w (f w).2) → aside (call f).
Proof. intros Hf w. apply post_call, Hf. Qed.

Lemma aside_modify (f : W → W) : (∀ w, same_hs w (f w)) → aside (modify f).
Proof. intros Hf w. apply post_modify, Hf. Qed.

Lemma aside_all_ok l : Forall aside l → aside (all_ok l).
Proof. induction 1 as [|m l Hm _ IH]; [apply aside_ret|]. apply aside_bind; [done|]. intros []; [done|apply aside_ret]. Qed.

Ltac aside_net :=
  match goal with
  | |- same_hs _ (malloc_ok _ _).2 => apply net_malloc
  | |- same_hs _ (sys_getaddrinfo _ _ _).2 => apply net_getaddrinfo
  | |- same_hs _ (sock_socket _ _).2 => apply net_socket
  | |- same_hs _ (sock_setsockopt _ _ _ _).2 => apply net_setsockopt
  | |- same_hs _ (sock_set_nonblock _ _).2 => apply net_nonblock
  | |- same_hs _ (sock_close _ _) => apply net_close
  | |- same_hs _ (sock_inet_ntop _ _).2 => apply net_ntop
  | |- same_hs _ (conn_start _ _ _).2 => apply net_start
  | |- same_hs _ (conn_select _ _ _).2 => apply net_select
  | |- same_hs _ (conn_error _ _).2 => apply net_error
  end.

Ltac aside_step :=
  match goal with
  | |- aside (mret _) => apply aside_ret
  | |- aside crash => apply aside_crash
  | |- aside (call _) => apply aside_call; intros; aside_net
  | |- aside (modify _) => apply aside_modify; intros; aside_net
  | |- aside (all_ok _) => apply aside_all_ok
  | |- Forall aside [] => apply Forall_nil_2
  | |- Forall aside (_ :: _) => apply Forall_cons_2
  | |- aside (_ ≫= _) => apply aside_bind; [|intros ?]
  | |- aside (if ?b then _ else _) => destruct b
  | |- aside (match ?x with _ => _ end) => destruct x
  end.
Ltac aside := repeat aside_step.

Lemma aside_sock_connect t p res ka : aside (sock_connect t p res ka).
Proof. unfold sock_connect, conn_socket, conn_cleanup, nc_sock_enable_keepalive. aside. Qed.

Lemma aside_connect h port t ka p b : aside (nc_sock_connect h port t ka p b).
Proof.
  assert (C : ∀ s p a b, aside (connected s p a b)) by (intros; unfold connected, connect_error; aside).
  assert (L : ∀ l p, aside (connect_loop l t ka p b)).
  { induction l as [|a l IH]; intros p'; cbn [connect_loop]; [aside|]. apply aside_bind; [apply aside_sock_connect|].
    intros [s q]. aside; auto. }
  unfold nc_sock_connect, connect_error. destruct (default (-1) p =? -1); [aside; apply L|]. apply aside_bind; [apply aside_sock_connect|]. intros [? ?]. aside.
Qed.

Lemma aside_gettime msec : aside (nc_gettimespec_mono_add msec).
Proof.
  unfold nc_gettimespec_mono_add. apply aside_bind; [apply aside_call; intros w; apply hs_clock|]. intros [ts|]; [|done].
  intros w. unfold timespec_add, post, guarded, mbind, M_bind, mret, M_ret. by repeat case_match; simplify_eq.
Qed.

Lemma aside_new_session sd b : aside (nc_new_session sd b).
Proof. unfold nc_new_session. aside. Qed.

Lemma post_aside {A} (m : M W A) {S} (s : S) (w : W) (Q : A → S * W → Prop) :
  aside m → (∀ a w', same_hs w w' → Q a (s, w')) → post (on_env m) Q (s, w).
Proof. intros Hm HQ. apply post_on_env. eapply post_mono; [apply Hm|]. auto. Qed.

Lemma post_on_tls {A} (ch : bool) (m : M (nc_client_tls_opts * W) A) (Q : A → client_tls * W → Prop) c w :
  post m (λ a s, Q a (if ch then ClientTls (tls_opts c) s.1 else ClientTls s.1 (tls_ch_opts c), s.2))
    (if ch then tls_ch_opts c else tls_opts c, w) → post (on_tls ch m) Q (c, w).
Proof. unfold post, on_tls. cbn [fst snd]. by destruct ch; destruct (m _) as [[a [o w']]| |]. Qed.

(** The options that a connection was made with: the rest of them and the other set stay. *)
Definition checked (ch : bool) (host : option bytes) (c c' : client_tls) (w : W) : Prop :=
  let opts_of x := if ch then tls_ch_opts x else tls_opts x in
  updated host (opts_of c) (opts_of c') ∧ (if ch then tls_opts c' = tls_opts c else tls_ch_opts c' = tls_ch_opts c) ∧
  made_from w = Some (wanted_ctx (opts_of c) host) ∧ Forall (in_order (opts_of c')) (questions w).

(** The handshake with a new SSL session. *)
Lemma handshake_checked (ch : bool) host c0 c n m ts (w : W) ctx :
  let opts_of x := if ch then tls_ch_opts x else tls_opts x in
  updated host (opts_of c0) (opts_of c) → (if ch then tls_opts c = tls_opts c0 else tls_ch_opts c = tls_ch_opts c0) →
  tls_ctx (opts_of c) = Some ctx → made_from w = Some ctx → questions w = [] → answers w = [] →
  post (on_env (tls_connect_loop n m ch c ts)) (λ ok s, s.1 = c ∧ (ok = true → checked ch host c0 c s.2)) (c, w).
Proof.
  intros opts_of Hu Hc Ht Hm Hq Ha. apply post_on_env. eapply post_mono.
  { apply loop_post. unfold answered. rewrite Hq, Ha. constructor. }
  intros ok w' Hok. split; [done|]. intros E. destruct (Hok E) as [Hf Hm']. unfold checked. split_and!; try done.
  destruct Hu as (_ & Hx & _). unfold opts_of in *. cbn [snd]. rewrite Hm', Hm, <- Ht. destruct ch; exact Hx.
Qed.

(** C10: When the transport of [nc_connect_tls] is up, its SSL session was made from a context with the certificate, the key and the trusted
    certificates of the options of the client and with the name of the host to be expected; the
    store of revocation lists is up to date with the options; and every certificate OpenSSL asked about was in order
    according to OpenSSL and is not revoked by these lists.  The options for Call Home have no part in it. *)
Theorem tls_client_checked host port c c' (w w' : W) s ip :
  tls_ctx (tls_opts c) = None ∨ tls_ctx_change (tls_opts c) = true →
  tls_transport opts fuel host port (c, w) = Done (TlsUp s ip, (c', w')) →
  checked false (Some host) c c' w'.
Proof.
  intros Hc E.
  assert (G : post (tls_transport opts fuel host port)
    (λ r x, match r with TlsUp _ _ => checked false (Some host) c x.1 x.2 | _ => True end) (c, w)).
  2: { unfold post in G. by rewrite E in G. }
  unfold tls_transport. apply post_bind, post_on_tls. eapply post_mono; [by apply update_post|].
  intros r [o1 w1] Hu. cbn [fst snd] in *. destruct (r =? 0) eqn:Er; cbn [negb]; [|by apply post_ret]. apply Z.eqb_eq in Er. specialize (Hu Er).
  apply post_bind, post_aside; [apply aside_new_session|]. intros [ns|] w2 _; apply post_bind, post_gets; cbn [fst tls_opts]; [|done].
  assert (Hx : tls_ctx o1 = Some (wanted_ctx (tls_opts c) (Some host))) by apply Hu. rewrite Hx.
  apply post_bind, post_on_env, post_call. pose proof (net_ssl_new (wanted_ctx (tls_opts c) (Some host)) w2) as Hn.
  destruct (SSL_new _ w2) as [ok w3]. cbn [fst snd] in *. destruct ok; cbn [negb]; [|by apply post_ret].
  destruct (Hn eq_refl) as (Hm & Hq & Ha). apply post_bind, post_aside; [apply aside_connect|]. intros [[sock p] h] w4 H4.
  destruct (sock =? -1); [by apply post_ret|]. apply post_bind, post_on_env, post_modify. pose proof (same_hs_trans _ _ _ H4 (net_set_fd sock w4)) as H5.
  apply post_bind, post_aside; [apply aside_gettime|]. intros ts w5 H6. pose proof (same_hs_trans _ _ _ H5 H6) as (Hq5 & Ha5 & Hm5).
  apply post_bind. eapply post_mono; [apply (handshake_checked false (Some host) c) with (ctx := wanted_ctx (tls_opts c) (Some host)); cbn [tls_opts tls_ch_opts]; try done; congruence|].
  intros ok [c5 w6] [Ec Hok]. cbn [fst snd] in *. subst c5. apply post_ret. destruct ok; [|done]. by apply Hok.
Qed.

(** The same of a connection that a server made, with the options for Call Home and the name set for the socket, if any. *)
Lemma tls_callhome_checked sock timeout peername c c' (w w' : W) :
  tls_ctx (tls_ch_opts c) = None ∨ tls_ctx_change (tls_ch_opts c) = true →
  tls_ch_transport fuel sock timeout peername (c, w) = Done (Some true, (c', w')) →
  checked true peername c c' w'.
Proof.
  intros Hc E.
  assert (G : post (tls_ch_transport fuel sock timeout peername)
    (λ r x, match r with Some true => checked true peername c x.1 x.2 | _ => True end) (c, w)).
  2: { unfold post in G. by rewrite E in G. }
  unfold tls_ch_transport. apply post_bind, post_on_tls. eapply post_mono; [by apply update_post|].
  intros r [o1 w1] Hu. cbn [fst snd] in *. destruct (r =? 0) eqn:Er; cbn [negb]; [|by apply post_ret]. apply Z.eqb_eq in Er. specialize (Hu Er).
  apply post_bind, post_gets. cbn [fst tls_ch_opts].
  assert (Hx : tls_ctx o1 = Some (wanted_ctx (tls_ch_opts c) peername)) by apply Hu. rewrite Hx.
  apply post_bind, post_on_env, post_call. pose proof (net_ssl_new (wanted_ctx (tls_ch_opts c) peername) w1) as Hn.
  destruct (SSL_new _ w1) as [ok w3]. cbn [fst snd] in *. destruct ok; cbn [negb]; [|by apply post_ret].
  destruct (Hn eq_refl) as (Hm & Hq & Ha). apply post_bind, post_on_env, post_modify. pose proof (net_set_fd sock w3) as H5.
  apply post_bind, post_mono with (Q := λ ts x, x.1 = ClientTls (tls_opts c) o1 ∧ same_hs w3 x.2).
  { destruct (-1 <? timeout); [|by apply post_ret]. apply post_bind, post_aside; [apply aside_gettime|]. intros ts w5 H6. apply post_ret.
    split; [done|]. exact (same_hs_trans _ _ _ H5 H6). }
  intros ts [c5 w5] (Ec5 & Hq5 & Ha5 & Hm5). cbn [fst snd] in *. subst c5.
  apply post_bind. eapply post_mono; [apply (handshake_checked true peername c) with (ctx := wanted_ctx (tls_ch_opts c) peername); cbn [tls_opts tls_ch_opts]; try done; congruence|].
  intros ok [c6 w6] [Ec Hok]. cbn [fst snd] in *. subst c6. apply post_ret. destruct ok; [|done]. by apply Hok.
Qed.
End tls.

(** *** A server with a chain of two certificates *)

Record hs_log := HsLog { hl_ctx : option ssl_ctx; hl_asked : list (bool * demo_cert); hl_said : list bool }.

Abbreviation tls_world := (sim true true * hs_log)%type.

Definition all_yes (l : list bool) : bool := forallb (λ b, b) l.

(** The next thing OpenSSL does: ask about the authority, ask about the server, connect. *)
Definition next_step (w : tls_world) : ssl_step demo_cert * tls_world :=
  let l := w.2 in
  let ask c := (SslVerify true c, (w.1, HsLog (hl_ctx l) (hl_asked l ++ [(true, c)]) (hl_said l))) in
  match hl_asked l with
  | [] => ask demo_ca
  | [_] => ask TlsVerifyProofs.demo_client
  | _ => if all_yes (hl_said l) then (SslConnected, w) else (SslFailed, w)
  end.

#[export] Instance demo_tls : TlsCliEnv tls_world demo_cert := {
  SSL_CTX_new w := (true, w);
  SSL_CTX_use_certificate_file _ w := (true, w);
  SSL_CTX_use_PrivateKey_file _ w := (true, w);
  SSL_CTX_load_verify_locations _ _ w := (true, w);
  SSL_CTX_set_host _ w := (true, w);
  cli_X509_STORE_new w := (true, w);
  X509_STORE_add_lookup _ w := (true, w);
  X509_LOOKUP_add_dir s w := (match s with CrlFile _ => false | _ => true end, w);
  SSL_new ctx w := (true, (w.1, HsLog (Some ctx) [] []));
  SSL_set_fd _ w := w;
  SSL_connect := next_step;
  SSL_verified b w := next_step (w.1, HsLog (hl_ctx w.2) (hl_asked w.2) (hl_said w.2 ++ [b]));
  SSL_free w := w;
  SSL_is_init_finished w := (true, w);
}.

#[export] Instance demo_socks : SockEnv tls_world := {
  sock_socket _ w := (3, w);
  sock_setsockopt _ _ _ w := (true, w);
  inet_pton_ok _ _ := true;
  sock_bind_inet _ _ _ _ w := (true, w);
  sock_bind_unix _ _ w := (true, w);
  sock_unlink _ w := w;
  sock_chmod _ _ w := (true, w);
  sock_chown _ _ _ w := (true, w);
  sock_listen _ _ w := (true, w);
  sock_close _ w := w;
  sock_poll _ _ w := ((0, []), w);
  sock_accept _ w := (None, w);
  sock_set_nonblock _ w := (true, w);
  sock_getsockname_unix _ w := (None, w);
  sock_inet_ntop a w := (Some a, w);
}.

#[export] Instance demo_conns : ConnEnv tls_world := {
  sys_getaddrinfo _ _ w := (Some [Addrinfo AF_INET (str "10.0.0.1")], w);
  conn_start _ _ w := (true, w);
  conn_select _ _ w := (SelReady, w);
  conn_error _ w := (Some false, w);
}.

Lemma next_step_law w :
  let (st, w') := next_step w in
  hl_asked w'.2 = hl_asked w.2 ++ pend st ∧ hl_said w'.2 = hl_said w.2 ∧ hl_ctx w'.2 = hl_ctx w.2 ∧
  (st = SslConnected → Forall (eq true) (hl_said w'.2)).
Proof.
  destruct w as [s [x [|a [|b l]] r]]; unfold next_step; cbn [snd fst hl_asked hl_said hl_ctx]; [done|done|].
  destruct (all_yes r) eqn:E; cbn; rewrite app_nil_r; split_and!; try done. intros _. unfold all_yes in E.
  rewrite List.forallb_forall in E. clear -E. induction r as [|c r IH]; [done|]. destruct c.
  - constructor; [done|]. apply IH. intros y Hy. apply E. by right.
  - by specialize (E false (or_introl eq_refl)).
Qed.

#[export] Instance demo_handshake : TlsHandshake tls_world demo_cert bytes (list Z).
Proof.
  refine {| made_from w := hl_ctx w.2; questions w := hl_asked w.2; answers w := hl_said w.2 |}.
  - intros w. exact (next_step_law w).
  - intros b w. exact (next_step_law (w.1, HsLog (hl_ctx w.2) (hl_asked w.2) (hl_said w.2 ++ [b]))).
  - done.
  - intros w. change (clock_mono w) with (lift (X := hs_log) clock_mono w). by rewrite lift_snd.
  - intros t w. change (X509_cmp_current_time t w) with (lift (X := hs_log) (X509_cmp_current_time t) w). by rewrite lift_snd.
Defined.

#[export] Instance demo_tls_net : TlsNet tls_world demo_cert bytes (list Z).
Proof. by split. Qed.

Definition demo_tls_opts : client_tls :=
  ClientTls (NcClientTlsOpts (Path (str "crt")) (Path (str "key")) (Path (str "ca")) NullPath true None NullPath (Path (str "crls")) true None)
    zero_tls_opts.

Lemma tls_client_checked_witness :
  ∃ s ip c' w', tls_transport (no_client_opts (Keepalives false 0 0 0)) 10 (str "host") 6513
      (demo_tls_opts, (demo_world (m0 := true) (up := true) [], HsLog None [] [])) = Done (TlsUp s ip, (c', w')) ∧
    checked (W := tls_world) (cert := demo_cert) (name := bytes) (crl := list Z) false (Some (str "host")) demo_tls_opts c' w' ∧
    map snd (hl_asked w'.2) = [demo_ca; TlsVerifyProofs.demo_client].
Proof.
  set (x := (demo_tls_opts, (demo_world (m0 := true) (up := true) [], HsLog None [] []))).
  destruct (tls_transport (no_client_opts (Keepalives false 0 0 0)) 10 (str "host") 6513 x) as [[r [c' w']]| |] eqn:E.
  2, 3: exfalso; vm_compute in E; discriminate.
  destruct r as [|s|s|s ip].
  1, 2, 3: exfalso; vm_compute in E; discriminate.
  exists s, ip, c', w'. split; [reflexivity|]. split.
  - refine (tls_client_checked _ 10 _ _ _ _ _ _ _ _ _ E). by right.
  - vm_compute in E. injection E as _ _ _ <-. reflexivity.
Defined.

(** A file of revocation lists is given to a function for directories: where that fails, no connection with such a file is made. *)
Lemma crl_file_fails {W cert} `{!Env W} `{!TlsCliEnv W cert} host o f (w : W) :
  (∀ s w, (X509_LOOKUP_add_dir (cert := cert) (CrlFile s) w).1 = false) →
  crl_file o = Path f → crl_store_change o = true →
  post (nc_client_tls_update_opts (cert := cert) host) (λ r _, r = -1) (o, w).
Proof.
  intros Hf Hp Hc. unfold nc_client_tls_update_opts. apply post_bind, post_gets, post_bind. cbn [fst]. unfold or_fail at 1. apply post_bind.
  assert (G : post (match tls_ctx o with Some _ => if tls_ctx_change o then new_ctx (cert := cert) host else mret true
                    | None => new_ctx (cert := cert) host end)
    (λ ok s, ok = true → crl_file s.1 = Path f ∧ crl_store_change s.1 = true) (o, w)).
  { destruct (tls_ctx o); [destruct (tls_ctx_change o); [|by apply post_ret]|].
    all: eapply post_mono; [apply new_ctx_post|]; intros ok st Hok Eok; by rewrite (Hok Eok). }
  eapply post_mono; [exact G|]. intros [] [o1 w1] H1; [|by apply post_ret, post_ret]. destruct (H1 eq_refl) as [H2 H3]. cbn [fst] in *.
  apply post_bind, post_gets. cbn [fst]. rewrite H3. cbn [orb]. unfold new_crl_store. apply post_bind, post_modify.
  apply post_or_fail; [done|]. intros w2. apply post_bind, post_modify, post_bind, post_gets. cbn [fst crl_file set_cli_crl_store].
  rewrite H2. unfold add_lookup at 1. apply post_bind, post_path_val. cbn [val]. apply post_or_fail; [done|]. intros w3.
  unfold or_fail. apply post_bind, post_on_env, post_call. rewrite Hf. by apply post_ret, post_ret.
Qed.
