(* ===== verification/SshStartProofs.v ===== *)
(** * Starting an SSH session of a server

    Text of private keys is in temporary files only while libssh reads them, and a session that is started belongs to a client that
    was authenticated as its user. *)

From S2P Require Import Prelude Session Env Sim Locks IoRead Capabilities PtrArray SshOpts SshAuth SshAuthProofs SshCliOptsProofs.
From S2P Require Import SshClient ClientConnect TlsCliProofs SshStart Time Sockets SessionFree FreeProofs UserDb.
From Stdlib Require Import ZArith Ascii String Lia.
From stdpp Require Import base list strings gmap numbers.
Open Scope Z_scope.

(** ** Starting an SSH session of a server: host keys and their files

    Text of private keys is written to temporary files only while libssh reads them. *)

(** The callback for a host key, as a function of the name. *)
Abbreviation hostkey_answer := (option (option bytes * option bytes * NC_SSH_KEY_TYPE)).

(** Files with their contents and the files of open descriptors; libssh reads a host key when it is told
    its path.  [unlink] of an existing file succeeds. *)
Class TmpFileLaws (W : Type) `{!Env W} `{!TmpFileEnv W} `{!SshBindEnv W} := {
  files : W → gmap bytes bytes;
  opened : W → gmap Z bytes;
  loaded : W → list (option bytes);
  hostkey_of : bytes → hostkey_answer;
  tf_malloc n w : files (malloc_ok n w).2 = files w ∧ opened (malloc_ok n w).2 = opened w ∧ loaded (malloc_ok n w).2 = loaded w;
  tf_mkstemp m w : let (r, w') := tmp_mkstemp m w in
    loaded w' = loaded w ∧
    match r with
    | None => files w' = files w ∧ opened w' = opened w
    | Some (fd, p) => zlen p = 11 ∧ files w !! p = None ∧ files w' = <[p := []]> (files w) ∧ opened w' = <[fd := p]> (opened w)
    end;
  tf_fdopen fd w : let w' := (tmp_fdopen fd w).2 in files w' = files w ∧ opened w' = opened w ∧ loaded w' = loaded w;
  tf_fwrite fd s p w : opened w !! fd = Some p →
    let (n, w') := tmp_fwrite fd s w in
    0 ≤ n ≤ zlen s ∧ files w' = <[p := default [] (files w !! p) ++ ztake n s]> (files w) ∧ opened w' = opened w ∧ loaded w' = loaded w;
  tf_fclose fd w : let w' := tmp_fclose fd w in files w' = files w ∧ opened w' = delete fd (opened w) ∧ loaded w' = loaded w;
  tf_unlink p w : let w' := (tmp_unlink p w).2 in files w' = delete p (files w) ∧ opened w' = opened w ∧ loaded w' = loaded w;
  tf_clb clb name w : hostkey_clb = Some clb →
    let (r, w') := clb name w in r = hostkey_of name ∧ files w' = files w ∧ opened w' = opened w ∧ loaded w' = loaded w;
  tf_load p w : let (ok, w') := ssh_bind_set_hostkey p w in
    files w' = files w ∧ opened w' = opened w ∧
    (ok = true → loaded w' = loaded w ++ [match p with Some p => files w !! p | None => None end]);
}.

Section hostkeys.
Context {W : Type} `{!Env W} `{!TmpFileEnv W} `{!SshBindEnv W} `{!TmpFileLaws W} `{!Memory W}.
Implicit Types w : W.

(** The files are as before, but for empty ones. *)
Definition no_key_left w w' : Prop := ∀ p c, files w' !! p = Some c → c = [] ∨ files w !! p = Some c.

(** What libssh has to read for a name. *)
Definition key_text w (name : bytes) : option bytes :=
  match hostkey_of name with
  | Some (_, Some data, t) => Some (concat (pem_parts data (nc_keytype2str t)))
  | Some (Some p, None, _) => files w !! p
  | _ => None
  end.

Lemma fwrite_all_spec fd p l s w :
  opened w !! fd = Some p → files w !! p = Some s →
  wp (fwrite_all fd l) (λ n w', 0 ≤ n ≤ zlen (concat l) ∧ opened w' = opened w ∧ loaded w' = loaded w ∧
    ∃ t, files w' = <[p := s ++ t]> (files w) ∧ (n = zlen (concat l) → t = concat l)) w.
Proof.
  revert s w. induction l as [|x l IH]; intros s w Ho Hf; cbn [fwrite_all].
  - apply wpx_ret. split; [done|]. split; [done|]. split; [done|]. exists []. rewrite app_nil_r. by rewrite insert_id.
  - apply wpx_bind, wpx_call. pose proof (tf_fwrite fd x p w Ho) as Hw. destruct (tmp_fwrite fd x w) as [n w1]. cbn [fst snd].
    destruct Hw as (Hn & Hf1 & Ho1 & Hl1). rewrite Hf in Hf1. cbn [default] in Hf1. apply wpx_bind.
    eapply wpx_mono; [apply (IH (s ++ ztake n x)); [by rewrite Ho1|by rewrite Hf1, lookup_insert_eq]|].
    intros m w2 (Hm & Ho2 & Hl2 & t & Hf2 & Ht). apply wpx_ret. cbn [concat]. rewrite zlen_app. split; [lia|]. split; [congruence|].
    split; [congruence|]. exists (ztake n x ++ t). rewrite Hf2, Hf1, insert_insert_eq, app_assoc. split; [done|].
    intros E. rewrite Ht by lia. f_equal. unfold ztake, zlen in *. apply take_ge. lia.
Qed.

(** The file with the key, or nothing that is more than an empty file. *)
Lemma key_file_spec data t w :
  wp (base64der_key_to_tmp_file (Some data) t) (λ r w', loaded w' = loaded w ∧
    match r with
    | None => no_key_left w w'
    | Some p => files w !! p = None ∧ files w' = <[p := concat (pem_parts data t)]> (files w)
    end) w.
Proof.
  unfold base64der_key_to_tmp_file. apply wpx_bind, wpx_call. pose proof (tf_mkstemp 0x7f w) as Hm.
  destruct (tmp_mkstemp 0x7f w) as [[[fd p]|] w1]; cbn [fst snd]; destruct Hm as [Hl1 Hm].
  2: { apply wpx_ret. split; [done|]. intros q c. destruct Hm as [-> _]. by right. }
  destruct Hm as (Hz & Hp & Hf1 & Ho1). apply wpx_bind, wpx_call. pose proof (tf_fdopen fd w1) as (Hf2 & Ho2 & Hl2).
  destruct (tmp_fdopen fd w1) as [ok w2]. cbn [fst snd] in *. destruct ok; cbn [negb].
  2: { apply wpx_bind, wpx_modify, wpx_ret. destruct (tf_fclose fd w2) as (Hf3 & _ & Hl3). split; [congruence|].
       intros q c. rewrite Hf3, Hf2, Hf1, lookup_insert_Some. intros [[_ <-]|[_ ?]]; [by left|by right]. }
  apply wpx_bind. eapply wpx_mono; [apply (fwrite_all_spec fd p _ []); [by rewrite Ho2, Ho1, lookup_insert_eq|by rewrite Hf2, Hf1, lookup_insert_eq]|].
  intros n w3 (Hn & Ho3 & Hl3 & s & Hf3 & Hs). cbn [app] in Hf3. rewrite Hf2, Hf1, insert_insert_eq in Hf3.
  apply wpx_bind, wpx_modify. destruct (tf_fclose fd w3) as (Hf4 & _ & Hl4). destruct (n =? zlen _) eqn:E; cbn [negb].
  - apply Z.eqb_eq in E. rewrite (Hs E) in Hf3. unfold strdup. apply wpx_bind, wpx_call.
    destruct (tf_malloc (zlen p + 1) (tmp_fclose fd w3)) as (Hf5 & _ & Hl5). rewrite mem_ok by lia.
    apply wpx_ret. split; [congruence|]. split; [done|]. congruence.
  - apply wpx_bind, wpx_call. destruct (tf_unlink p (tmp_fclose fd w3)) as (Hf5 & _ & Hl5). apply wpx_ret. split; [congruence|].
    intros q c. rewrite Hf5, Hf4, Hf3, delete_insert_eq, lookup_delete_Some. intros [_ ?]. by right.
Qed.

Lemma no_key_left_refl w w' : files w' = files w → no_key_left w w'.
Proof. intros E p c. rewrite E. by right. Qed.

Lemma add_hostkey_spec clb name w :
  hostkey_clb = Some clb →
  wp (add_hostkey clb name) (λ ok w', no_key_left w w' ∧ (ok = true → files w' = files w ∧ loaded w' = loaded w ++ [key_text w name])) w.
Proof.
  intros Hc. unfold add_hostkey. apply wpx_bind, wpx_call. pose proof (tf_clb clb name w Hc) as Hk.
  destruct (clb name w) as [r w1]. cbn [fst snd]. destruct Hk as (-> & Hf1 & _ & Hl1). unfold key_text.
  destruct (hostkey_of name) as [[[path [data|]] t]|]; [|apply wpx_call|].
  - apply wpx_bind. eapply wpx_mono; [apply key_file_spec|]. intros [p|] w2 [Hl2 H2].
    2: { apply wpx_ret. split; [|done]. intros q c Hq. destruct (H2 q c Hq) as [?|?]; [by left|right; congruence]. }
    destruct H2 as [Hp Hf2]. apply wpx_bind, wpx_call. pose proof (tf_load (Some p) w2) as H3.
    destruct (ssh_bind_set_hostkey (Some p) w2) as [ok w3]. cbn [fst snd]. destruct H3 as (Hf3 & _ & Hl3).
    apply wpx_bind, wpx_call. destruct (tf_unlink p w3) as (Hf4 & _ & Hl4). apply wpx_ret.
    assert (E : files (tmp_unlink p w3).2 = files w).
    { rewrite Hf4, Hf3, Hf2, delete_insert_id by done. congruence. }
    split; [by apply no_key_left_refl|]. intros ->. split; [done|]. rewrite Hl4, Hl3, Hl2, Hl1, Hf2, lookup_insert_eq by done. by destruct path.
  - pose proof (tf_load path w1) as H3. destruct (ssh_bind_set_hostkey path w1) as [ok w3]. cbn [fst snd]. destruct H3 as (Hf3 & _ & Hl3).
    split; [apply no_key_left_refl; congruence|]. intros E. rewrite Hl3, Hl1, Hf1 by done. split; [congruence|]. by destruct path.
  - apply wpx_ret. split; [by apply no_key_left_refl|done].
Qed.

(** The array of the names. *)
Definition key_names (l : list bytes) : ptrs := Some (map CLive l).

Lemma load_names {S} pre x l : load (S := S) (key_names (pre ++ x :: l)) (zlen pre) = mret (CLive x).
Proof.
  unfold load, key_names. destruct (zlen pre <? 0) eqn:E; [pose proof (zlen_nonneg pre); lia|].
  unfold zlen. rewrite Nat2Z.id, map_app, lookup_app_r by (by rewrite length_map). by rewrite length_map, Nat.sub_diag.
Qed.

Lemma add_hostkeys_spec clb pre l w :
  hostkey_clb = Some clb →
  wp (add_hostkeys clb (key_names (pre ++ l)) (length l) (zlen pre))
    (λ ok w', no_key_left w w' ∧ (ok = true → files w' = files w ∧ loaded w' = loaded w ++ map (key_text w) l)) w.
Proof.
  intros Hc. revert pre w. induction l as [|x l IH]; intros pre w; cbn [add_hostkeys length].
  - apply wpx_ret. split; [by apply no_key_left_refl|]. intros _. cbn. by rewrite app_nil_r.
  - rewrite load_names.
    apply wpx_bind, wpx_ret, wpx_bind. eapply wpx_mono; [by apply add_hostkey_spec|]. intros [] w1 [H1 H1'].
    2: { apply wpx_ret. split; [done|done]. }
    destruct (H1' eq_refl) as [Hf1 Hl1]. replace (zlen pre + 1) with (zlen (pre ++ [x])) by (rewrite zlen_app; done).
    rewrite cons_middle, app_assoc.
    eapply wpx_mono; [apply IH|]. intros ok w2 [H2 H2']. split.
    + intros p c Hp. destruct (H2 p c Hp) as [?|?]; [by left|right; congruence].
    + intros ->. destruct (H2' eq_refl) as [Hf2 Hl2]. split; [congruence|]. rewrite Hl2, Hl1, <- app_assoc. cbn [map app]. do 2 f_equal.
      apply List.map_ext. intros y. unfold key_text. by rewrite Hf1.
Qed.

End hostkeys.

(** ** A small file system *)

Record disk := Disk { dk_files : gmap bytes bytes; dk_open : gmap Z bytes; dk_read : list (option bytes) }.

Abbreviation disk_world := (sim true true * disk)%type.

Definition tmp_path (d : disk) : bytes := str "/tmp/" ++ ztake 6 (str "abcdef").

#[export] Instance disk_files : TmpFileEnv disk_world := {
  tmp_mkstemp _ w :=
    match dk_files w.2 !! tmp_path w.2 with
    | Some _ => (None, w)
    | None => (Some (5, tmp_path w.2), (w.1, Disk (<[tmp_path w.2 := []]> (dk_files w.2)) (<[5 := tmp_path w.2]> (dk_open w.2)) (dk_read w.2)))
    end;
  tmp_fdopen _ w := (true, w);
  tmp_fwrite fd s w :=
    match dk_open w.2 !! fd with
    | None => (0, w)
    | Some p => (zlen s, (w.1, Disk (<[p := default [] (dk_files w.2 !! p) ++ s]> (dk_files w.2)) (dk_open w.2) (dk_read w.2)))
    end;
  tmp_fclose fd w := (w.1, Disk (dk_files w.2) (delete fd (dk_open w.2)) (dk_read w.2));
  tmp_unlink p w := (true, (w.1, Disk (delete p (dk_files w.2)) (dk_open w.2) (dk_read w.2)));
}.

(** The key [rsa] is given as text, others by their path. *)
Definition demo_key (name : bytes) : hostkey_answer :=
  if strcmp_eq name (str "rsa") then Some (None, Some (str "MIIE"), NC_SSH_KEY_RSA) else Some (Some (str "/etc/" ++ name), None, NC_SSH_KEY_UNKNOWN).

#[export] Instance disk_bind : SshBindEnv disk_world := {
  hostkey_clb := Some (λ name w, (demo_key name, w));
  ssh_bind_new w := (true, w);
  ssh_bind_set_hostkey p w :=
    (true, (w.1, Disk (dk_files w.2) (dk_open w.2) (dk_read w.2 ++ [match p with Some p => dk_files w.2 !! p | None => None end])));
  ssh_bind_accept_fd _ w := (true, w);
  ssh_handle_key_exchange w := (SSH_OK, w);
}.

#[export] Instance disk_laws : TmpFileLaws disk_world.
Proof.
  refine {| files w := dk_files w.2; opened w := dk_open w.2; loaded w := dk_read w.2; hostkey_of := demo_key |}.
  - intros n w. change (malloc_ok n w) with (lift (X := disk) (malloc_ok n) w). by rewrite lift_snd.
  - intros m [s d]. cbn. destruct (dk_files d !! _) eqn:E; [done|]. by split_and!.
  - done.
  - intros fd s p [s0 d] E. cbn in *. rewrite E. pose proof (zlen_nonneg s). split; [lia|]. split; [|done]. cbn. do 3 f_equal.
    unfold ztake, zlen. by rewrite Nat2Z.id, firstn_all.
  - done.
  - done.
  - intros clb name w [= <-]. done.
  - intros p w. done.
Defined.

Definition demo_disk : disk_world := (Sim [] [] 0, Disk {[str "/etc/ec" := str "PEM"]} ∅ []).


(** ** Starting an SSH session of a server: who was let in

    A session that [nc_accept_ssh_session] starts belongs to a client that was authenticated as its user: what comes after the
    authentication does not change that. *)

Section login.
Context {W key : Type} `{!Env W} `{!SshKeys W key} `{!SshAuthEnv W key}.
Abbreviation AU := (M (ssh_srv key * W)).

(** What may become of the session at [p]: once authenticated, it stays so with its user. *)
Definition logged (p : positive) (s : nc_session) (st st' : ssh_srv key) : Prop :=
  (∀ x, x ∈ sv_trace st → x ∈ sv_trace st') ∧ ∃ s' c', sv_store st' !! p = Some (s', c') ∧ side s' = side s ∧
    (authenticated s = true → authenticated s' = true ∧ username s' = username s).

Definition stays (p : positive) {A} (m : AU A) : Prop :=
  ∀ st s c, sv_store st.1 !! p = Some (s, c) → post m (λ _ st', logged p s st.1 st'.1) st.

Lemma logged_refl p s c st : sv_store st !! p = Some (s, c) → logged p s st st.
Proof. intros Hs. split; [done|]. by exists s, c. Qed.

Lemma logged_trans p s s1 st st1 st2 :
  side s1 = side s → (authenticated s = true → authenticated s1 = true ∧ username s1 = username s) →
  (∀ x, x ∈ sv_trace st → x ∈ sv_trace st1) → logged p s1 st1 st2 → logged p s st st2.
Proof.
  intros Hd Ha Ht (Ht' & s2 & c2 & Hs2 & Hd2 & Ha2). split; [auto|]. exists s2, c2. split; [done|]. split; [congruence|].
  intros H. destruct (Ha H) as [H1 E1]. destruct (Ha2 H1) as [H2 E2]. split; congruence.
Qed.

Lemma stays_ret p {A} (a : A) : stays p (mret a).
Proof. intros st s c Hs. apply post_ret. by eapply logged_refl. Qed.

Lemma stays_crash p {A} : stays p (A := A) crash.
Proof. done. Qed.

Lemma stays_bind p {A B} (m : AU A) (k : A → AU B) : stays p m → (∀ a, stays p (k a)) → stays p (m ≫= k).
Proof.
  intros Hm Hk st s c Hs. apply post_bind. eapply post_mono; [by eapply Hm|]. intros a st1 (Ht & s1 & c1 & Hs1 & Hd & Ha).
  eapply post_mono; [by eapply Hk|]. intros b st2 H2. by eapply logged_trans.
Qed.

Lemma stays_env p {A} (m : M W A) : stays p (on_env m).
Proof. intros [st w] s c Hs. apply post_on_env. eapply post_mono; [apply post_any|]. intros a w' _. by eapply logged_refl. Qed.

Lemma stays_get p : stays p (get_session p).
Proof. intros st s c Hs. eapply post_session; [done|]. by eapply logged_refl. Qed.

Lemma stays_store p : stays p (gets (λ st : ssh_srv key * W, sv_store st.1)).
Proof. intros st s c Hs. apply post_gets. by eapply logged_refl. Qed.

Lemma post_upd p f s c st :
  sv_store st.1 !! p = Some (s, c) → side (f s) = side s → (authenticated s = true → authenticated (f s) = true ∧ username (f s) = username s) →
  post (upd_session p f) (λ _ (st' : ssh_srv key * W), logged p s st.1 st'.1) st.
Proof.
  intros Hs Hd Ha. apply post_modify. split; [done|]. exists (f s), c. cbn [fst sv_store]. by rewrite lookup_alter_eq, Hs.
Qed.

Lemma authenticated_add g s : authenticated s = true → authenticated (add_flag g s) = true.
Proof.
  unfold authenticated, has_flag, add_flag. cbn [flags set_flags]. rewrite Z.land_lor_distr_l, !negb_true_iff, !Z.eqb_neq, Z.lor_eq_0_iff. tauto.
Qed.

Lemma authenticated_clear s : authenticated s = true → authenticated (clear_flag NC_SESSION_SSH_NEW_MSG s) = true.
Proof. intros <-. unfold authenticated, has_flag, clear_flag. cbn [flags set_flags]. by rewrite <- Z.land_assoc. Qed.

Lemma stays_upd p f :
  (∀ s, side (f s) = side s ∧ username (f s) = username s ∧ (authenticated s = true → authenticated (f s) = true)) → stays p (upd_session p f).
Proof. intros Hf st s c Hs. destruct (Hf s) as (? & ? & ?). eapply post_upd; eauto. Qed.

Lemma stays_reply p m r : stays p (reply m r : AU unit).
Proof. intros st s c Hs. apply post_modify. split; [by right|]. by exists s, c. Qed.

Lemma stays_keys p {A} (m : M (authkeys_state * W) A) : stays p (on_keys m).
Proof.
  intros [st w] s c Hs. unfold post, on_keys. destruct (m _) as [[a [k w']]| |]; try done. split; [done|]. by exists s, c.
Qed.

Ltac stay_step :=
  match goal with
  | |- stays _ (mret _) => apply stays_ret
  | |- stays _ crash => apply stays_crash
  | |- stays _ no_fuel => done
  | |- stays _ (on_env _) => apply stays_env
  | |- stays _ (on_keys _) => apply stays_keys
  | |- stays _ (get_session _) => apply stays_get
  | |- stays _ (gets _) => apply stays_store
  | |- stays _ (reply _ _) => apply stays_reply
  | |- stays _ (upd_session _ _) => apply stays_upd; intros; split_and!; auto using authenticated_add, authenticated_clear
  | |- stays _ (_ ≫= _) => apply stays_bind; [|intros ?]
  | |- stays _ (if ?b then _ else _) => destruct b
  | |- stays _ (match ?x with _ => _ end) => destruct x eqn:?
  | |- stays _ _ => solve [auto]
  end.
Ltac stay := intros; repeat stay_step.

Lemma stays_method fuel p m r : stays p (auth_method fuel p m r).
Proof. unfold auth_method, nc_sshcb_auth_password, nc_sshcb_auth_pubkey, nc_sshcb_auth_kbdint, auth_success, auth_failure. stay. Qed.

Lemma stays_auth_msg fuel p m user r : stays p (auth_msg fuel p m user r).
Proof.
  intros [st w] s c Hs. unfold auth_msg. apply post_bind. eapply post_session; [done|]. destruct (has_flag _ s) eqn:Ea.
  - assert (G : stays p (_ ← reply m ReplyDefault; mret false)) by stay. by eapply G.
  - assert (H : ∀ d w', stays p (auth_method fuel p m r) → post (_ ← upd_session p (set_username d); auth_method fuel p m r)
      (λ _ st', logged p s st st'.1) (st, w')).
    { intros d w' Hm. apply post_bind. eapply post_mono; [eapply (post_upd p (set_username d) s c); [done|done|]|].
      { unfold authenticated. by rewrite Ea. }
      intros [] st1 (Ht & s1 & c1 & Hs1 & Hd & Ha). eapply post_mono; [by eapply Hm|]. intros b st2 H2. by eapply logged_trans. }
    pose proof (stays_method fuel p m r) as Hm. destruct (username s), user as [u|].
    + destruct (negb _); [|by eapply Hm]. assert (G : stays p (_ ← upd_session p (invalidate NC_SESSION_TERM_OTHER); mret true)) by stay. by eapply G.
    + by eapply Hm.
    + apply post_bind, post_on_env. eapply post_mono; [apply post_any|]. intros d w' _. by apply (H d).
    + apply post_ret. by eapply logged_refl.
Qed.

Lemma stays_channel_open p m : stays p (nc_sshcb_channel_open p m).
Proof.
  assert (G : ∀ n c, stays p (modify (λ st : ssh_srv key * W, (SshSrv (alter (λ sc, (set_ti (TiLibssh true n) sc.1, Some c)) p (sv_store st.1))
    (sv_keys st.1) (sv_trace st.1), st.2)))).
  { intros n c st s c0 Hs. apply post_modify. split; [done|]. exists (set_ti (TiLibssh true n) s), (Some c).
    cbn [fst sv_store]. by rewrite lookup_alter_eq, Hs. }
  unfold nc_sshcb_channel_open. stay.
Qed.

Lemma stays_channel_session p ch s new u h : stays p (new_channel_session p ch s new u h : AU unit).
Proof.
  intros st s0 c Hs. apply post_bind, post_gets. cbv zeta. apply post_modify. split; [done|]. cbn [fst sv_store].
  assert (Hne : fresh (dom (sv_store st.1)) ≠ p). { intros E. pose proof (is_fresh (dom (sv_store st.1))) as H. rewrite E in H. apply not_elem_of_dom in H. congruence. }
  rewrite lookup_insert_ne by done. unfold upd_next. rewrite lookup_alter_eq, Hs. cbn. eexists _, c. split; [done|].
  unfold set_next. by destruct (ti s0).
Qed.

Lemma stays_subsystem p ch sub : stays p (nc_sshcb_channel_subsystem p ch sub).
Proof. pose proof (stays_channel_session p ch). unfold nc_sshcb_channel_subsystem. stay. Qed.

Lemma stays_handle fuel p m : stays p (handle_msg fuel p m).
Proof.
  pose proof (stays_auth_msg fuel p). pose proof (stays_channel_open p). pose proof (stays_subsystem p).
  unfold handle_msg, nc_sshcb_msg. stay.
Qed.

Lemma stays_connected fuel p : stays p (session_connected fuel p).
Proof. unfold session_connected. stay. Qed.

Lemma stays_execute fuel p : stays p (ssh_execute_message_callbacks fuel p).
Proof.
  assert (L : ∀ l, stays p (handle_all fuel p l)).
  { induction l as [|m l IH]; cbn [handle_all]; [stay|]. apply stays_bind; [apply stays_handle|done]. }
  unfold ssh_execute_message_callbacks. stay.
Qed.

Lemma stays_open_channel fuel p t : stays p (nc_accept_ssh_session_open_netconf_channel fuel p t).
Proof.
  pose proof (λ f, stays_connected f p). pose proof (λ f, stays_execute f p).
  assert (L : ∀ n ts, stays p (open_channel_loop n p ts)).
  { induction n as [|n IH]; intros ts; cbn [open_channel_loop]; [done|]. stay. }
  unfold nc_accept_ssh_session_open_netconf_channel, open_channel_now. stay.
Qed.

(** ** The whole function *)

Context `{!AuthDb W key}.

(** A session with a user that was granted. *)
Definition let_in (p : positive) (sd : NC_SIDE) (keys : list authkey) (st : ssh_srv key) : Prop :=
  ∃ s c, sv_store st !! p = Some (s, c) ∧ side s = sd ∧ authenticated s = true ∧ granted keys (username s) (sv_trace st).

Lemma auth_loop_lets_in p o ts : ∀ fuel st s c w,
  sv_store st !! p = Some (s, c) → 0 ≤ ssh_auth_attempts (server s) → authenticated s = false →
  post (auth_loop fuel p o ts) (λ r st', 0 < r → let_in p (side s) (default [] (authkeys (sv_keys st))) st'.1) (st, w).
Proof.
  induction fuel as [|fuel IH]; intros st s c w Hs H0 Ha; [done|]. cbn [auth_loop]. apply post_bind.
  eapply post_mono; [by apply (connected_post fuel p s c)|]. intros b [st0 w1] E. cbn [fst] in E. subst st0.
  destruct b; cbn [negb]; [|by apply post_ret]. apply post_bind, post_on_env, post_call. apply post_bind.
  eapply (post_mono _ (λ _ st', auth_step p s c st st'.1 ∧ logged p s st st'.1)).
  { destruct (ssh_message_get w1).1 as [m|].
    - pose proof (handle_msg_post fuel p s c st m (ssh_message_get w1).2 Hs H0 Ha) as G1.
      pose proof (stays_handle fuel p m (st, (ssh_message_get w1).2) s c Hs) as G2. unfold post in *. destruct (handle_msg _ _ _ _) as [[]| |]; done.
    - apply post_ret. split; [destruct st; by apply step_same|by eapply logged_refl]. }
  intros _ [st1 w2] [(Hk & s1 & Hs1 & Hn & Hb1 & Hg) (_ & s1' & c1' & Hs1' & Hd & _)]. cbn [fst] in *.
  assert (s1' = s1) as -> by congruence. apply post_bind. eapply post_session; [exact Hs1|]. destruct (has_flag _ s1) eqn:Ea.
  { apply post_ret. intros _. exists s1, c. split_and!; auto. }
  assert (Hrec : ∀ w', post (auth_loop fuel p o ts) (λ r st', 0 < r → let_in p (side s) (default [] (authkeys (sv_keys st))) st'.1) (st1, w')).
  { intros w'. rewrite <- Hd, <- Hk. apply (IH st1 s1 c w'); [done|lia|done]. }
  destruct (auth_attempts o <=? _); [by apply post_ret|]. apply post_bind, post_on_env, post_modify. destruct ts as [ts|]; [|apply Hrec].
  apply post_bind, post_on_env. eapply post_mono; [apply post_any|]. intros d w3 _. destruct (d <? 1); [by apply post_ret|apply Hrec].
Qed.

Lemma let_in_logged p s c sd keys st st' :
  sv_store st !! p = Some (s, c) → side s = sd → authenticated s = true → granted keys (username s) (sv_trace st) →
  logged p s st st' → let_in p sd keys st'.
Proof.
  intros Hs Hd Ha (u & r & Hin & Hc & Hu) (Ht & s' & c' & Hs' & Hd' & Ha'). destruct (Ha' Ha) as [Ha1 Eu].
  exists s', c'. split; [done|]. split; [congruence|]. split; [done|]. rewrite Eu. exists u, r. auto.
Qed.

Lemma log_in_lets_in fuel p o t st s c w :
  sv_store st !! p = Some (s, c) → 0 ≤ ssh_auth_attempts (server s) → authenticated s = false →
  post (ssh_log_in fuel p o t) (λ r st', 0 < r → let_in p (side s) (default [] (authkeys (sv_keys st))) st'.1) (st, w).
Proof.
  intros Hs H0 Ha. unfold ssh_log_in. apply post_bind.
  apply post_mono with (Q := λ r st', 0 < r → let_in p (side s) (default [] (authkeys (sv_keys st))) st'.1).
  { unfold nc_accept_ssh_session_auth. apply post_bind, post_on_env, post_modify. apply post_bind.
    destruct (auth_timeout o =? 0); [apply post_ret; by eapply auth_loop_lets_in|].
    apply post_bind, post_on_env. eapply post_mono; [apply post_any|]. intros ts w1 _. apply post_ret. by eapply auth_loop_lets_in. }
  intros r st1 H. destruct (Z.eqb_spec r 1) as [->|]; cbn [negb]; [|by apply post_ret]. destruct (H ltac:(lia)) as (s1 & c1 & Hs1 & Hd1 & Ha1 & Hg1).
  assert (G : stays p (_ ← upd_session p (add_flag NC_SESSION_SSH_MSG_CB); r ← nc_accept_ssh_session_open_netconf_channel fuel p t;
    if negb (r =? 1) then mret r else _ ← upd_session p (clear_flag NC_SESSION_SSH_NEW_MSG); mret 1)).
  { pose proof (stays_open_channel fuel p t). stay. }
  eapply post_mono; [by eapply G|]. intros r2 st2 H2 _. by eapply let_in_logged.
Qed.

Context `{!TmpFileEnv W} `{!SshBindEnv W} `{!SockEnv W} `{!ConnectEnv W}.

Lemma ssh_session_lets_in fuel p o sock t st s c w :
  sv_store st !! p = Some (s, c) → 0 ≤ ssh_auth_attempts (server s) → authenticated s = false →
  post (nc_accept_ssh_session fuel p o sock t) (λ r st', 0 < r → let_in p (side s) (default [] (authkeys (sv_keys st))) st'.1) (st, w).
Proof.
  intros Hs H0 Ha. unfold nc_accept_ssh_session. apply post_bind, post_on_env, post_call. destruct (ssh_new w) as [[] w1]; cbn [fst snd negb].
  2: { by apply post_bind, post_on_env, post_modify, post_ret. }
  apply post_bind, post_modify. cbn [fst snd]. set (st1 := SshSrv _ _ _). apply post_bind, post_on_env.
  eapply (post_mono _ (λ r _, 0 < r.1 → r.1 = 1)).
  { unfold ssh_take_over. apply post_bind, post_call. destruct (negb _); [by apply post_ret|]. apply post_bind.
    eapply post_mono; [apply post_any|]. intros ok w2 _. destruct (negb ok); [by apply post_ret|]. apply post_bind, post_call.
    destruct (negb _); [by apply post_ret|]. apply post_bind, post_modify, post_bind. eapply post_mono; [apply post_any|]. intros ts w3 _.
    apply post_bind. eapply post_mono; [apply post_any|]. intros r w4 _. apply post_ret. by destruct r. }
  intros [rc taken] w2 Hrc. cbn [fst] in Hrc. apply post_bind.
  apply post_mono with (Q := λ r st', 0 < r → let_in p (side s) (default [] (authkeys (sv_keys st))) st'.1).
  { destruct (Z.eqb_spec rc 1) as [->|]; [|apply post_ret; lia]. apply (log_in_lets_in fuel p o t st1 (set_ti (TiLibssh false None) s) c); [|done..].
    cbn [st1 sv_store]. by rewrite lookup_alter_eq, Hs. }
  intros r [st3 w3] H3. apply post_bind. eapply (post_mono _ (λ _ st', st'.1 = st3)); [|by intros [] st4 E; apply post_ret; rewrite E].
  destruct taken; [by apply post_ret|by apply post_on_env, post_modify].
Qed.
End login.
