(* ===== verification/TlsStart.v ===== *)
(** * Starting a TLS session of a server

    src/session_server_tls.c: the certificate of the server, its chain and the trusted certificates come from callbacks of the
    application, as paths or as text; they are put into a new SSL context, and the client is verified during the
    handshake. *)

From S2P Require Import Prelude Session Env Time Locks IoRead Capabilities PtrArray SshOpts TlsOpts Sockets TlsVerify SshClient.
From Stdlib Require Import ZArith Ascii String Lia.
From stdpp Require Import base list strings gmap numbers.
Open Scope Z_scope.

(** A certificate or a key as the callbacks give it. *)
Inductive pem_source := PemPath (path : bytes) | PemText (text : bytes).

(** The answer of the callback for the certificate of the server. *)
Record server_cert_answer := ServerCertAnswer {
  sa_cert_path : option bytes;
  sa_cert_data : option bytes;
  sa_privkey_path : option bytes;
  sa_privkey_data : option bytes;
  sa_privkey_type : NC_SSH_KEY_TYPE;
}.

(** What the SSL context of a server was told, with its store of trusted certificates. *)
Record srv_ctx (cert : Type) := SrvCtx {
  sx_cert : option pem_source;
  sx_key : option pem_source;
  sx_chain : list cert;
  sx_trusted : list cert;
  sx_lookups : list crl_source;
}.
Arguments SrvCtx {cert}.
Arguments sx_cert {cert}.
Arguments sx_key {cert}.
Arguments sx_chain {cert}.
Arguments sx_trusted {cert}.
Arguments sx_lookups {cert}.

(** A handshake: OpenSSL calls back with a certificate, or [SSL_accept] returns. *)
Inductive accept_step (cert name : Type) :=
| AccVerify (preverify_ok : bool) (ctx : X509_STORE_CTX cert name)
| AccDone
| AccWantRead
| AccFailed.
Arguments AccVerify {cert name}.
Arguments AccDone {cert name}.
Arguments AccWantRead {cert name}.
Arguments AccFailed {cert name}.

Class TlsSrvEnv (W cert name : Type) := {
  server_cert_clb : option (bytes → W → option server_cert_answer * W);
  server_cert_chain_clb : option (bytes → W → option (list bytes * list bytes) * W);
  trusted_cert_list_clb : option (bytes → W → option (list bytes * list bytes) * W);
  PEM_read_X509 : bytes → W → option cert * W;
  BIO_new_mem_buf : W → bool * W;
  PEM_read_bio_X509 : bytes → W → option cert * W;
  PEM_read_bio_PrivateKey : bytes → W → bool * W;
  srv_CTX_new : W → bool * W;
  srv_CTX_use_certificate : pem_source → W → bool * W;
  srv_CTX_use_PrivateKey : pem_source → W → bool * W;
  srv_CTX_add_extra_chain_cert : cert → W → bool * W;
  X509_STORE_add_cert : cert → W → bool * W;
  srv_STORE_add_lookup : bool → W → bool * W;
  srv_LOOKUP_add : crl_source → W → bool * W;
  srv_SSL_new : srv_ctx cert → W → bool * W;
  srv_SSL_set_fd : Z → W → W;
  SSL_accept : W → accept_step cert name * W;
  SSL_answer : bool → W → accept_step cert name * W;
}.

Section start.
Context {W cert name crl : Type} `{!Env W} `{!SockEnv W} `{!X509 W cert name crl} `{!TlsSrvEnv W cert name}.

Abbreviation XC := (M (srv_ctx cert * W)).
Abbreviation sys := (λ f, on_env (call f)).

(** ** Certificates *)

(** [asprintf] and a memory BIO on its result. *)
Definition mem_bio (text : bytes) : M W bool :=
  ok ← call (malloc_ok (zlen text + 1));
  if negb ok then mret false else call (BIO_new_mem_buf (cert := cert)).

Definition base64der_to_cert (text : option bytes) : M W (option cert) :=
  match text with
  | None => mret None
  | Some t =>
    let buf := str "-----BEGIN CERTIFICATE-----" ++ [nl] ++ t ++ [nl] ++ str "-----END CERTIFICATE-----" in
    ok ← mem_bio buf;
    if negb ok then mret None else call (PEM_read_bio_X509 buf)
  end.

Definition pem_to_cert (path : bytes) : M W (option cert) := call (PEM_read_X509 path).

(** The key as PEM, or [None] when it can not be read; [NULL] for the type is printed as such. *)
Definition base64der_to_privatekey (text key_str : option bytes) : M W (option bytes) :=
  match text with
  | None => mret None
  | Some t =>
    let k := printed key_str in
    let buf := str "-----BEGIN " ++ k ++ str " PRIVATE KEY-----" ++ [nl] ++ t ++ [nl] ++ str "-----END " ++ k ++ str " PRIVATE KEY-----" in
    ok ← mem_bio buf;
    if negb ok then mret None
    else ok ← call (PEM_read_bio_PrivateKey (cert := cert) buf); mret (if ok : bool then Some buf else None)
  end.

Definition tls_load_cert (cert_path cert_data : option bytes) : M W (option cert) :=
  match cert_path with Some p => pem_to_cert p | None => base64der_to_cert cert_data end.

(** ** The certificate of the server *)

Definition upd_srv (f : srv_ctx cert → srv_ctx cert) : XC unit := modify (λ s, (f s.1, s.2)).

Fixpoint add_chain (l : list pem_source) : XC bool :=
  match l with
  | [] => mret true
  | s :: l =>
    c ← on_env (match s with PemPath p => tls_load_cert (Some p) None | PemText t => tls_load_cert None (Some t) end);
    match c with
    | None => mret false
    | Some c =>
      ok ← sys (srv_CTX_add_extra_chain_cert c);
      if negb ok then mret false
      else
        _ ← upd_srv (λ x, SrvCtx (sx_cert x) (sx_key x) (sx_chain x ++ [c]) (sx_trusted x) (sx_lookups x));
        add_chain l
    end
  end.

Definition nc_tls_ctx_set_server_cert_chain (cert_name : bytes) : XC bool :=
  match server_cert_chain_clb with
  | None => mret true
  | Some clb =>
    r ← sys (clb cert_name);
    match r with
    | None => mret false
    | Some (paths, data) => add_chain (map PemPath paths ++ map PemText data)
    end
  end.

(** The certificate: a file, or text that has to be a certificate. *)
Definition use_cert (path data : option bytes) : XC bool :=
  s ← match path with
      | Some p => mret (Some (PemPath p))
      | None => c ← on_env (base64der_to_cert data); mret (match c, data with Some _, Some d => Some (PemText d) | _, _ => None end)
      end;
  match s with
  | None => mret false
  | Some s =>
    ok ← sys (srv_CTX_use_certificate s);
    _ ← upd_srv (λ x, if ok : bool then SrvCtx (Some s) (sx_key x) (sx_chain x) (sx_trusted x) (sx_lookups x) else x);
    mret ok
  end.

Definition use_key (path data : option bytes) (type : NC_SSH_KEY_TYPE) : XC bool :=
  s ← match path with
      | Some p => mret (Some (PemPath p))
      | None => k ← on_env (base64der_to_privatekey data (nc_keytype2str type)); mret (PemText <$> k)
      end;
  match s with
  | None => mret false
  | Some s =>
    ok ← sys (srv_CTX_use_PrivateKey s);
    _ ← upd_srv (λ x, if ok : bool then SrvCtx (sx_cert x) (Some s) (sx_chain x) (sx_trusted x) (sx_lookups x) else x);
    mret ok
  end.

Definition nc_tls_ctx_set_server_cert_key (cert_name : option bytes) : XC bool :=
  match cert_name, server_cert_clb with
  | Some n, Some clb =>
    a ← sys (clb n);
    match a with
    | None => mret false
    | Some a =>
      ok ← use_cert (sa_cert_path a) (sa_cert_data a);
      if negb ok then mret false
      else
        ok ← use_key (sa_privkey_path a) (sa_privkey_data a) (sa_privkey_type a);
        if negb ok then mret false else nc_tls_ctx_set_server_cert_chain n
    end
  | _, _ => mret false
  end.

(** ** Trusted certificates *)

(** One that can not be loaded is left out. *)
Definition tls_store_add_trusted_cert (cert_path cert_data : option bytes) : XC unit :=
  c ← on_env (tls_load_cert cert_path cert_data);
  match c with
  | None => mret tt
  | Some c =>
    ok ← sys (X509_STORE_add_cert c);
    upd_srv (λ x, if ok : bool then SrvCtx (sx_cert x) (sx_key x) (sx_chain x) (sx_trusted x ++ [c]) (sx_lookups x) else x)
  end.

Fixpoint add_trusted (l : list pem_source) : XC unit :=
  match l with
  | [] => mret tt
  | s :: l =>
    _ ← match s with PemPath p => tls_store_add_trusted_cert (Some p) None | PemText t => tls_store_add_trusted_cert None (Some t) end;
    add_trusted l
  end.

Fixpoint trusted_lists (clb : bytes → W → option (list bytes * list bytes) * W) (a : ptrs) (n : nat) (i : Z) : XC bool :=
  match n with
  | O => mret true
  | S n =>
    c ← load a i;
    match c with
    | CLive name =>
      r ← sys (clb name);
      match r with
      | None => mret false
      | Some (paths, data) => _ ← add_trusted (map PemPath paths ++ map PemText data); trusted_lists clb a n (i + 1)
      end
    | _ => crash
    end
  end.

Definition nc_tls_store_set_trusted_certs (a : ptrs) (count : Z) : XC bool :=
  match trusted_cert_list_clb with
  | None => mret false
  | Some clb => trusted_lists clb a (Z.to_nat count) 0
  end.

(** A lookup for the CA file or directory of the options, if there is one. *)
Definition add_ca (p : option bytes) (file : bool) (src : bytes → crl_source) : XC bool :=
  match p with
  | None => mret true
  | Some p =>
    ok ← sys (srv_STORE_add_lookup file);
    if negb ok then mret false
    else
      ok ← sys (srv_LOOKUP_add (src p));
      _ ← upd_srv (λ x, if ok : bool then SrvCtx (sx_cert x) (sx_key x) (sx_chain x) (sx_trusted x) (sx_lookups x ++ [src p]) else x);
      mret ok
  end.

(** The steps of the function up to [SSL_new]. *)
Definition fill_srv_ctx (o : nc_server_tls_opts) : XC bool :=
  ok ← nc_tls_ctx_set_server_cert_key (server_cert o);
  if negb ok then mret false
  else
    ok ← nc_tls_store_set_trusted_certs (trusted_cert_lists o) (trusted_cert_list_count o);
    if negb ok then mret false
    else
      ok ← add_ca (trusted_ca_file o) true CrlFile;
      if negb ok then mret false else add_ca (trusted_ca_dir o) false CrlDir.

(** ** The handshake *)

(** One call of [SSL_accept], with the callbacks it makes for the session. *)
Fixpoint accept_callbacks (n : nat) (o : nc_server_tls_opts) (clb : verify_clb W cert) (s : tls_session cert)
    (step : accept_step cert name) : M W (accept_step cert name * tls_session cert) :=
  match step with
  | AccVerify ok ctx =>
    match n with
    | O => no_fuel
    | S n =>
      '(r, s) ← nc_tlsclb_verify o clb ok ctx s;
      step ← call (SSL_answer (r =? 1));
      accept_callbacks n o clb s step
    end
  | r => mret (r, s)
  end.

(** 1 when the client was accepted, 0 after a timeout, -1. *)
Fixpoint accept_loop (n fuel : nat) (o : nc_server_tls_opts) (clb : verify_clb W cert) (s : tls_session cert) (ts : option timespec)
    : M W (Z * tls_session cert) :=
  match n with
  | O => no_fuel
  | S n =>
    step ← call SSL_accept;
    '(r, s) ← accept_callbacks fuel o clb s step;
    match r with
    | AccDone => mret (1, s)
    | AccWantRead =>
      _ ← modify (usleep NC_TIMEOUT_STEP);
      late ← expired ts;
      if (late : bool) then mret (0, s) else accept_loop n fuel o clb s ts
    | _ => mret (-1, s)
    end
  end.

(** What a session over TLS has become: it failed before it had an SSL session, its SSL session is [NULL], or the
    result and the client's certificate and name. *)
Inductive tls_started :=
| TlsUnstarted
| TlsNull
| TlsRan (rc : Z) (s : tls_session cert).

Definition nc_accept_tls_session (fuel : nat) (o : nc_server_tls_opts) (clb : verify_clb W cert) (sock timeout : Z) : M W tls_started :=
  ok ← call (srv_CTX_new (cert := cert));
  if negb ok then _ ← modify (sock_close sock); mret TlsUnstarted
  else
    '(ok, ctx) ← (λ w, match fill_srv_ctx o (SrvCtx None None [] [] [], w) with
                       | Done (ok, (x, w)) => Done ((ok, x), w)
                       | NoFuel => NoFuel
                       | Crash => Crash
                       end);
    if negb ok then _ ← modify (sock_close sock); mret TlsUnstarted
    else
      ok ← call (srv_SSL_new ctx);
      if negb ok then _ ← modify (sock_close sock); mret TlsNull
      else
        _ ← modify (srv_SSL_set_fd (cert := cert) sock);
        ts ← (if -1 <? timeout then ts ← nc_gettimespec_mono_add timeout; mret (Some ts) else mret None);
        '(r, s) ← accept_loop fuel fuel o clb (TlsSession None None X509_V_OK) ts;
        mret (TlsRan r s).
End start.
Arguments tls_started : clear implicits.
