(* ===== verification/TlsStartProofs.v ===== *)
(** * Starting a TLS session of a server: who was let in

    A client that [nc_accept_tls_session] accepts: every call of OpenSSL for its chain was answered by the verification
    of TlsVerify.v, and the session has the certificate and the name that this verification gave it. *)

From S2P Require Import Prelude Session Env Time Locks IoRead Capabilities PtrArray SshOpts TlsOpts Sockets TlsVerify TlsVerifyProofs SshAuthProofs.
From S2P Require Import Sim TlsCliProofs SshClient SshCliOptsProofs TlsStart.
From Stdlib Require Import ZArith Ascii String Lia.
From stdpp Require Import base list strings gmap numbers.
Open Scope Z_scope.

(** OpenSSL with [SSL_VERIFY_PEER] and [SSL_VERIFY_FAIL_IF_NO_PEER_CERT]: the context of the SSL session, the calls of the callback and
    their answers.  It accepts a client only if no answer was no and the last call was for a certificate that it found in order,
    that of the client itself (depth 0).  The clock, memory and functions on certificates are no part of it. *)
Class TlsAccept (W cert name crl : Type) `{!Env W} `{!X509 W cert name crl} `{!TlsSrvEnv W cert name} := {
  srv_made : W → option (srv_ctx cert);
  calls : W → list (bool * X509_STORE_CTX cert name);
  replies : W → list bool;
  acc_pend (st : accept_step cert name) : list (bool * X509_STORE_CTX cert name) :=
    match st with AccVerify ok ctx => [(ok, ctx)] | _ => [] end;
  acc_done (st : accept_step cert name) w : Prop :=
    st = AccDone → false ∉ replies w ∧ ∃ cs ctx, calls w = cs ++ [(true, ctx)] ∧ ctx_error_depth ctx ≤ 0;
  acc_new x w : let (ok, w') := srv_SSL_new x w in ok = true → srv_made w' = Some x ∧ calls w' = [] ∧ replies w' = [];
  acc_accept w : let (st, w') := SSL_accept w in
    srv_made w' = srv_made w ∧ calls w' = calls w ++ acc_pend st ∧ replies w' = replies w ∧ acc_done st w';
  acc_answer b w : let (st, w') := SSL_answer b w in
    srv_made w' = srv_made w ∧ calls w' = calls w ++ acc_pend st ∧ replies w' = replies w ++ [b] ∧ acc_done st w';
  acc_same w w' := srv_made w' = srv_made w ∧ calls w' = calls w ∧ replies w' = replies w;
  acc_set_fd fd w : acc_same w (srv_SSL_set_fd (cert := cert) fd w);
  acc_usleep n w : acc_same w (usleep n w);
  acc_clock w : acc_same w (clock_mono w).2;
  acc_malloc n w : acc_same w (malloc_ok n w).2;
  acc_oneline n w : acc_same w (X509_NAME_oneline n w).2;
  acc_time t w : acc_same w (X509_cmp_current_time t w).2;
}.

Section accept.
Context {W cert name crl : Type} `{!Env W} `{!SockEnv W} `{X : !X509 W cert name crl} `{!TlsSrvEnv W cert name} `{!TlsAccept W cert name crl}.
Context (o : nc_server_tls_opts) (clb : verify_clb W cert).
(** The application's callback does not touch the handshake. *)
Context (Hclb : ∀ f s w, clb = Some f → acc_same w (f s w).2).
Context (Hdig : ∀ a (c : cert) d, X509_digest a c = Some d → d ≠ []).

Definition outside {A} (m : M W A) : Prop := ∀ w, post m (λ _ w', acc_same w w') w.

Lemma acc_same_trans (w1 w2 w3 : W) : acc_same w1 w2 → acc_same w2 w3 → acc_same w1 w3.
Proof. intros (? & ? & ?) (? & ? & ?). unfold acc_same. split_and!; congruence. Qed.

Lemma outside_bind {A B} (m : M W A) (k : A → M W B) : outside m → (∀ a, outside (k a)) → outside (m ≫= k).
Proof.
  intros Hm Hk w. apply post_bind. eapply post_mono; [apply Hm|]. intros a w1 H1. eapply post_mono; [apply Hk|].
  intros b w2 H2. exact (acc_same_trans _ _ _ H1 H2).
Qed.

Lemma outside_ret {A} (a : A) : outside (mret a).
Proof. intros w. by apply post_ret. Qed.

Lemma outside_crash {A} : outside (A := A) crash.
Proof. done. Qed.

Lemma outside_guarded b : outside (guarded b).
Proof. by destruct b. Qed.

Lemma outside_call {A} (f : W → A * W) : (∀ w, acc_same w (f w).2) → outside (call f).
Proof. intros Hf w. apply post_call, Hf. Qed.

Lemma outside_modify (f : W → W) : (∀ w, acc_same w (f w)) → outside (modify f).
Proof. intros Hf w. apply post_modify, Hf. Qed.

Lemma outside_strdup s : outside (strdup s).
Proof. apply outside_bind; [apply outside_call; intros; apply acc_malloc|]. intros. apply outside_ret. Qed.

Ltac outside_step :=
  match goal with
  | |- outside (mret _) => apply outside_ret
  | |- outside crash => apply outside_crash
  | |- outside (guarded _) => apply outside_guarded
  | |- outside (strdup _) => apply outside_strdup
  | |- outside (call (malloc_ok _)) => apply outside_call; intros; apply acc_malloc
  | |- outside (call (X509_NAME_oneline _)) => apply outside_call; intros; apply acc_oneline
  | |- outside (call (X509_cmp_current_time _)) => apply outside_call; intros; apply acc_time
  | |- outside (_ ≫= _) => apply outside_bind; [|intros ?]
  | |- outside (if ?b then _ else _) => destruct b
  | |- outside (match ?x with _ => _ end) => destruct x eqn:?
  end.
Ltac outside := repeat outside_step.

Lemma outside_cert_to_name l c : outside (nc_tls_cert_to_name l c).
Proof.
  assert (L : ∀ k ds, outside (cert_to_name_loop c ds k)).
  { induction k as [|e k IH]; intros ds; cbn [cert_to_name_loop]; [outside|].
    unfold get_digest, digest_to_str, fingerprint_is. outside; apply IH. }
  unfold nc_tls_cert_to_name. outside; apply L.
Qed.

Lemma outside_username c t : outside (nc_tls_ctn_get_username_from_cert c t).
Proof.
  assert (L : ∀ l, outside (san_username t l)).
  { induction l as [|g l IH]; cbn [san_username]; [outside|]. destruct g; outside; apply IH. }
  unfold nc_tls_ctn_get_username_from_cert. outside; apply L.
Qed.

Lemma outside_verify ok ctx s : outside (nc_tlsclb_verify o clb ok ctx s).
Proof.
  assert (U : ∀ u s, outside (TlsVerify.set_username clb u s)).
  { intros u s0. unfold TlsVerify.set_username. destruct clb as [f|] eqn:E; outside. apply outside_call. intros w. by apply Hclb. }
  unfold nc_tlsclb_verify, get_client_cert, check_crls, check_subject_crl, verify_ctn, ctn_fail. outside; auto using outside_cert_to_name, outside_username.
Qed.

Lemma outside_timespec_add c ms : outside (timespec_add c ms).
Proof. intros w. unfold timespec_add, post, guarded, mbind, M_bind, mret, M_ret. by repeat case_match; simplify_eq. Qed.

Lemma outside_mono_add t : outside (nc_gettimespec_mono_add t).
Proof.
  unfold nc_gettimespec_mono_add. apply outside_bind; [apply outside_call; intros; apply acc_clock|].
  intros [c|]; [apply outside_timespec_add|done].
Qed.

(** What is known after calls that were all accepted. *)
Definition vetted (cs : list (bool * X509_STORE_CTX cert name)) (s : tls_session cert) : Prop :=
  name_granted o clb cs s ∧
  (∀ ctx, (true, ctx) ∈ cs → not_revoked o (ctx_current ctx)) ∧
  (match cs with [] => client_cert s = None | (_, ctx) :: _ => is_Some (client_cert s) ∧ client_cert s = head (ctx_chain ctx) end) ∧
  (∀ cs0 ctx, cs = cs0 ++ [(true, ctx)] → ctx_error_depth ctx ≤ 0 → is_Some (tls_username s) ∨ no_memory (W := W)).

Lemma vetted_step cs ok ctx s s' :
  vetted cs s → accepted o clb ok ctx s s' → vetted (cs ++ [(ok, ctx)]) s'.
Proof.
  intros (H1 & H2 & H3 & H4) Ha. pose proof Ha as (peer & Hp & Hh & Hr & Hu). split; [|split; [|split]].
  - eapply accepted_granted; [exact Ha|apply elem_of_app; right; by left|].
    intros u Eu. destruct (H1 u Eu) as (p & c0 & ? & ? & ?). exists p, c0. split; [done|]. split; [|done]. apply elem_of_app. by left.
  - intros ctx' [Hin|[[= <- <-]|Hin]%elem_of_cons]%elem_of_app; [by apply H2|by apply Hr|by apply not_elem_of_nil in Hin].
  - destruct cs as [|[ok1 ctx1] cs]; cbn [app].
    + rewrite H3 in Hh. split; [by exists peer|done].
    + destruct H3 as [[p1 Hp1] H3]. rewrite Hp1 in Hh. split; [by exists p1|congruence].
  - intros cs0 ctx0 E Hd. apply app_inj_tail in E as [_ [= -> ->]]. destruct (tls_username s) as [u|]; [left; rewrite Hu; eauto|].
    destruct (tls_username s') as [u|]; [left; eauto|]. destruct Hu; [lia|by right].
Qed.

(** The answers so far are those of the verification, unless one was no. *)
Definition acc_inv (x : option (srv_ctx cert)) (st : accept_step cert name) (s : tls_session cert) (w : W) : Prop :=
  srv_made w = x ∧ (∃ cs, calls w = cs ++ acc_pend st ∧ (false ∈ replies w ∨ vetted cs s)) ∧ acc_done st w.

Lemma accept_callbacks_post n x st s (w : W) :
  acc_inv x st s w →
  post (accept_callbacks n o clb s st) (λ r w', acc_pend r.1 = [] ∧ acc_inv x r.1 r.2 w') w.
Proof.
  revert st s w. induction n as [|n IH]; intros st s w Hst; destruct st as [ok ctx| | |]; cbn [accept_callbacks]; try done.
  apply post_bind. destruct Hst as (Hx & (cs & Hc & Hv) & _). pose proof (outside_verify ok ctx s w) as Hout.
  destruct (nc_tlsclb_verify o clb ok ctx s w) as [[[r s1] w1]| |] eqn:Ev; unfold post in Hout |- *; rewrite Ev in Hout |- *; try done.
  destruct Hout as (Hm1 & Hc1 & Hr1). change (post (step ← call (SSL_answer (r =? 1)); accept_callbacks n o clb s1 step)
    (λ r w', acc_pend r.1 = [] ∧ acc_inv x r.1 r.2 w') w1).
  apply post_bind, post_call. pose proof (acc_answer (r =? 1) w1) as Hl. destruct (SSL_answer (r =? 1) w1) as [st w2]. cbn [fst snd].
  destruct Hl as (Hm2 & Hc2 & Hr2 & Hd2). apply IH. split; [congruence|]. split; [|done]. exists (cs ++ [(ok, ctx)]).
  cbn [acc_pend] in Hc. rewrite Hc2, Hc1, Hc. split; [done|]. rewrite Hr2, Hr1. destruct Hv as [Hv|Hv]; [left; apply elem_of_app; by left|].
  destruct (Z.eqb_spec r 1) as [->|]; [right|left; apply elem_of_app; right; by left].
  apply verify_run in Ev; [|by intros ? ?; apply Hdig]. by eapply vetted_step.
Qed.

Lemma accept_loop_post n fuel ts x s (w : W) :
  acc_inv x AccWantRead s w →
  post (accept_loop n fuel o clb s ts) (λ r w', 0 < r.1 → srv_made w' = x ∧ vetted (calls w') r.2 ∧ acc_done AccDone w') w.
Proof.
  revert s w. induction n as [|n IH]; intros s w (Hx & (cs & Hc & Hv) & _); [done|]. cbn [accept_loop]. apply post_bind, post_call.
  pose proof (acc_accept w) as Hl. destruct (SSL_accept w) as [st w1]. cbn [fst snd]. destruct Hl as (Hm1 & Hc1 & Hr1 & Hd1).
  apply post_bind. eapply post_mono; [apply (accept_callbacks_post _ x)|].
  { split; [congruence|]. split; [|done]. exists cs. cbn [acc_pend] in Hc. rewrite app_nil_r in Hc. rewrite Hc1, Hc, Hr1. done. }
  intros [r s1] w2 [Hr (Hx2 & (cs2 & Hc2 & Hv2) & Hd2)]. cbn [fst snd] in *. rewrite Hr, app_nil_r in Hc2. destruct r; try (by apply post_ret).
  - apply post_ret. intros _. cbn [fst snd]. split; [done|]. split; [|by intros _; apply Hd2]. rewrite Hc2.
    destruct Hv2 as [Hv2|Hv2]; [|done]. by destruct (Hd2 eq_refl) as [? _].
  - apply post_bind, post_modify, post_bind. destruct (acc_usleep NC_TIMEOUT_STEP w2) as (Hu1 & Hu2 & Hu3).
    assert (G : ∀ w3, acc_same (usleep NC_TIMEOUT_STEP w2) w3 → acc_inv x AccWantRead s1 w3).
    { intros w3 (Ha & Hb & Hcc). split; [congruence|]. split; [|done]. exists cs2. rewrite app_nil_r, Hb, Hu2, Hcc, Hu3. done. }
    assert (E : outside (expired ts)).
    { unfold expired. destruct ts as [t|]; [|apply outside_ret]. apply outside_bind; [|intros; apply outside_ret].
      apply outside_bind; [apply outside_mono_add|intros; apply outside_ret]. }
    eapply post_mono; [apply E|]. intros [] w3 H3; [by apply post_ret|]. apply IH, G, H3.
Qed.

(** The certificate, the key and the lookups of a context. *)
Definition core (x : srv_ctx cert) : option pem_source * option pem_source * list crl_source := (sx_cert x, sx_key x, sx_lookups x).

Definition keeps_core {A} (m : M (srv_ctx cert * W) A) : Prop := ∀ s, post m (λ _ s', core s'.1 = core s.1) s.

Lemma keeps_core_env {A B} (f : M W A) (k : A → M (srv_ctx cert * W) B) :
  (∀ a, keeps_core (k a)) → keeps_core (a ← on_env f; k a).
Proof.
  intros Hk [x w]. apply post_bind, post_on_env. eapply post_mono; [apply post_any|]. intros a w1 _. apply (Hk a (x, w1)).
Qed.

Lemma keeps_core_upd {B} (f : srv_ctx cert → srv_ctx cert) (k : unit → M (srv_ctx cert * W) B) :
  (∀ x, core (f x) = core x) → keeps_core (k tt) → keeps_core (a ← upd_srv f; k a).
Proof.
  intros Hf Hk [x w]. apply post_bind, post_modify. cbn [fst snd]. eapply post_mono; [apply Hk|]. intros a s Hs. cbn [fst] in *. by rewrite Hs, Hf.
Qed.

Lemma keeps_core_bind {A B} (m : M (srv_ctx cert * W) A) (k : A → M (srv_ctx cert * W) B) :
  keeps_core m → (∀ a, keeps_core (k a)) → keeps_core (m ≫= k).
Proof.
  intros Hm Hk s. apply post_bind. eapply post_mono; [apply Hm|]. intros a s1 H1. eapply post_mono; [apply Hk|]. intros b s2 H2. congruence.
Qed.

Lemma keeps_core_ret {A} (a : A) : keeps_core (mret a).
Proof. intros s. by apply post_ret. Qed.

Lemma chain_keeps n : keeps_core (nc_tls_ctx_set_server_cert_chain (cert := cert) (name := name) n).
Proof.
  assert (L : ∀ l, keeps_core (add_chain (cert := cert) (name := name) l)).
  { induction l as [|p l IH]; cbn [add_chain]; [apply keeps_core_ret|]. apply keeps_core_env. intros [c|]; [|apply keeps_core_ret].
    apply keeps_core_env. intros []; cbn [negb]; [|apply keeps_core_ret]. by apply keeps_core_upd. }
  unfold nc_tls_ctx_set_server_cert_chain. destruct server_cert_chain_clb as [f|]; [|apply keeps_core_ret].
  apply keeps_core_env. intros [[ps ds]|]; [apply L|apply keeps_core_ret].
Qed.

Lemma trusted_keeps a n : keeps_core (nc_tls_store_set_trusted_certs (cert := cert) (name := name) a n).
Proof.
  assert (T : ∀ p d, keeps_core (tls_store_add_trusted_cert (cert := cert) (name := name) p d)).
  { intros p d. unfold tls_store_add_trusted_cert. apply keeps_core_env. intros [c|]; [|apply keeps_core_ret].
    apply keeps_core_env. intros ok [x w]. apply post_modify. by destruct ok. }
  assert (L : ∀ l, keeps_core (add_trusted (cert := cert) (name := name) l)).
  { induction l as [|p l IH]; cbn [add_trusted]; [apply keeps_core_ret|]. apply keeps_core_bind; [by destruct p|done]. }
  unfold nc_tls_store_set_trusted_certs. destruct trusted_cert_list_clb as [f|]; [|apply keeps_core_ret].
  generalize (Z.to_nat n) as k, 0. intros k. induction k as [|k IH]; intros i; cbn [trusted_lists]; [apply keeps_core_ret|].
  apply keeps_core_bind. { unfold load. intros s. by repeat case_match. }
  intros [|nm| |]; try done. apply keeps_core_env. intros [[ps ds]|]; [|apply keeps_core_ret]. by apply keeps_core_bind.
Qed.

Lemma add_ca_post p file src x (w : W) :
  post (add_ca (cert := cert) (name := name) p file src) (λ ok s, ok = true →
    core s.1 = (sx_cert x, sx_key x, sx_lookups x ++ match p with Some p => [src p] | None => [] end)) (x, w).
Proof.
  unfold add_ca. destruct p as [p|]; [|apply post_ret; intros _; cbn; by rewrite app_nil_r].
  apply post_bind, post_on_env, post_call. destruct (srv_STORE_add_lookup file w) as [ok w1]. cbn [fst snd].
  destruct ok; cbn [negb]; [|by apply post_ret]. apply post_bind, post_on_env, post_call.
  destruct (srv_LOOKUP_add (src p) w1) as [ok w2]. cbn [fst snd]. apply post_bind, post_modify, post_ret. by intros ->.
Qed.

Lemma use_cert_post p d x (w : W) :
  post (use_cert (cert := cert) (name := name) p d) (λ ok s, ok = true → is_Some (sx_cert s.1) ∧ sx_lookups s.1 = sx_lookups x) (x, w).
Proof.
  unfold use_cert. apply post_bind. apply post_mono with (Q := λ _ s, s.1 = x).
  { destruct p; [by apply post_ret|]. apply post_bind, post_on_env. eapply post_mono; [apply post_any|]. intros c w1 _. by apply post_ret. }
  intros [s|] [x1 w1] E; cbn [fst] in E; subst x1; [|by apply post_ret]. apply post_bind, post_on_env, post_call.
  apply post_bind, post_modify, post_ret. intros ->. by split; [eexists|].
Qed.

Lemma use_key_post p d ty x (w : W) :
  post (use_key (cert := cert) (name := name) p d ty) (λ ok s, ok = true →
    sx_cert s.1 = sx_cert x ∧ is_Some (sx_key s.1) ∧ sx_lookups s.1 = sx_lookups x) (x, w).
Proof.
  unfold use_key. apply post_bind. apply post_mono with (Q := λ _ s, s.1 = x).
  { destruct p; [by apply post_ret|]. apply post_bind, post_on_env. eapply post_mono; [apply post_any|]. intros c w1 _. by apply post_ret. }
  intros [s|] [x1 w1] E; cbn [fst] in E; subst x1; [|by apply post_ret]. apply post_bind, post_on_env, post_call.
  apply post_bind, post_modify, post_ret. intros ->. by split_and!; [|eexists|].
Qed.

(** The lookups for trusted certificates that the options ask for. *)
Definition wanted_lookups : list crl_source :=
  match trusted_ca_file o with Some p => [CrlFile p] | None => [] end ++ match trusted_ca_dir o with Some p => [CrlDir p] | None => [] end.

Lemma fill_post (w : W) :
  post (fill_srv_ctx (cert := cert) (name := name) o) (λ ok s, ok = true →
    is_Some (sx_cert s.1) ∧ is_Some (sx_key s.1) ∧ sx_lookups s.1 = wanted_lookups) (SrvCtx None None [] [] [], w).
Proof.
  unfold fill_srv_ctx. apply post_bind. apply post_mono with (Q := λ ok s, ok = true →
    is_Some (sx_cert s.1) ∧ is_Some (sx_key s.1) ∧ sx_lookups s.1 = []).
  { unfold nc_tls_ctx_set_server_cert_key. destruct (server_cert o) as [n|]; [|by apply post_ret]. destruct server_cert_clb as [f|]; [|by apply post_ret].
    apply post_bind, post_on_env, post_call. destruct (f n w) as [[a|] w1]; cbn [fst snd]; [|by apply post_ret].
    apply post_bind. eapply post_mono; [apply use_cert_post|]. intros [] [x1 w2] H1; cbn [negb]; [|by apply post_ret].
    apply post_bind. eapply post_mono; [apply use_key_post|]. intros [] [x2 w3] H2; cbn [negb]; [|by apply post_ret].
    eapply post_mono; [apply chain_keeps|]. intros ok [x3 w4] E _. cbn [fst] in *. injection E as -> -> ->.
    destruct (H1 eq_refl) as [? ?]. destruct (H2 eq_refl) as (-> & ? & ->). done. }
  intros [] [x1 w1] H1; cbn [negb]; [|by apply post_ret]. destruct (H1 eq_refl) as (Hc & Hk & Hl). cbn [fst] in *.
  apply post_bind. eapply post_mono; [apply trusted_keeps|]. intros [] [x2 w2] E2; cbn [negb]; [|by apply post_ret]. cbn [fst] in E2.
  injection E2 as E2a E2b E2c. apply post_bind. eapply post_mono; [apply add_ca_post|]. intros [] [x3 w3] E3; cbn [negb]; [|by apply post_ret].
  specialize (E3 eq_refl). cbn [fst] in E3. injection E3 as E3a E3b E3c. eapply post_mono; [apply add_ca_post|]. intros ok [x4 w4] E4 Hok.
  specialize (E4 Hok). cbn [fst] in *. injection E4 as -> -> ->. rewrite E3a, E3b, E3c, E2a, E2b, E2c, Hl. done.
Qed.

(** What is known of a client that was accepted. *)
Definition tls_client (s : tls_session cert) (w' : W) : Prop :=
  (∃ x, srv_made w' = Some x ∧ is_Some (sx_cert x) ∧ is_Some (sx_key x) ∧ sx_lookups x = wanted_lookups) ∧
  (∀ ctx, (true, ctx) ∈ calls w' → not_revoked o (ctx_current ctx)) ∧
  ∃ peer, client_cert s = Some peer ∧ (∃ ok ctx, head (calls w') = Some (ok, ctx) ∧ head (ctx_chain ctx) = Some peer) ∧
    ((∃ u ctx, tls_username s = Some u ∧ (true, ctx) ∈ calls w' ∧ TlsVerifyProofs.granted o clb peer (ctx_current ctx) u)
     ∨ (tls_username s = None ∧ no_memory (W := W))).

Lemma vetted_client s w' :
  (∃ x, srv_made w' = Some x ∧ is_Some (sx_cert x) ∧ is_Some (sx_key x) ∧ sx_lookups x = wanted_lookups) →
  vetted (calls w') s → acc_done AccDone w' → tls_client s w'.
Proof.
  intros Hx (H1 & H2 & H3 & H4) Hd. split; [done|]. split; [done|].
  destruct (Hd eq_refl) as (_ & cs & ctx & Hcs & Hdep). destruct (calls w') as [|[ok1 ctx1] rest] eqn:Ec; [by destruct cs|].
  destruct H3 as [[peer Hp] Hh]. exists peer. split; [done|]. split; [exists ok1, ctx1; split; [done|congruence]|].
  destruct (tls_username s) as [u|] eqn:Eu.
  - left. destruct (H1 u Eu) as (p & ctx' & Ep & Hin & Hg). exists u, ctx'. split; [done|]. split; [done|]. congruence.
  - right. split; [done|]. destruct (H4 cs ctx Hcs Hdep) as [[? ?]|]; done.
Qed.

Lemma tls_session_run fuel sock timeout (w : W) :
  post (nc_accept_tls_session fuel o clb sock timeout) (λ r w', ∀ rc s, r = TlsRan rc s → 0 < rc → tls_client s w') w.
Proof.
  unfold nc_accept_tls_session. apply post_bind, post_call. destruct (srv_CTX_new w) as [ok w1]. cbn [fst snd].
  destruct ok; cbn [negb]; [|by apply post_bind, post_modify, post_ret]. apply post_bind. pose proof (fill_post w1) as Hfill.
  unfold post in Hfill |- * at 1. destruct (fill_srv_ctx o _) as [[ok [x w2]]| |]; try done. cbn [fst] in Hfill.
  destruct ok; cbn [negb]; [|by apply post_bind, post_modify, post_ret]. apply post_bind, post_call. pose proof (acc_new x w2) as Hn.
  destruct (srv_SSL_new x w2) as [ok w3]. cbn [fst snd]. destruct ok; cbn [negb]; [|by apply post_bind, post_modify, post_ret].
  destruct (Hn eq_refl) as (Hm & Hc & Hr). apply post_bind, post_modify. pose proof (acc_set_fd sock w3) as Hfd.
  apply post_bind, post_mono with (Q := λ _ w', acc_same w3 w').
  { destruct (-1 <? timeout); [|by apply post_ret]. apply post_bind.
    eapply post_mono; [apply outside_mono_add|]. intros ts w4 H4. apply post_ret. exact (acc_same_trans _ _ _ Hfd H4). }
  intros ts w5 (Hm5 & Hc5 & Hr5). apply post_bind. eapply post_mono; [apply (accept_loop_post _ _ _ (Some x))|].
  { split; [congruence|]. split; [|done]. exists []. cbn. split; [congruence|]. right. split; [by intros ? ?|].
    split; [by intros ? ?%not_elem_of_nil|]. split; [done|]. by intros [] ? ?. }
  intros [r s1] w6 H6. apply post_ret. intros rc s0 [= -> ->] Hrc. destruct (H6 Hrc) as (Hx & Hv & Hd).
  apply vetted_client; [by exists x; split; [|apply Hfill]|done..].
Qed.

(** C5: A client that [nc_accept_tls_session] accepts.  The SSL session was made from a context with a certificate and a key of
    the server and exactly the lookups for trusted certificates of the endpoint.  No certificate of the client's chain that
    OpenSSL found in order is revoked by the list of its issuer; the certificate kept is the first one of the chain of the
    first call; and the session has the name that the first matching cert-to-name entry of one of the
    certificates gives it and that the application's callback agreed to: only a failed allocation
    leaves it without a name. *)
Theorem tls_session_verified fuel sock timeout (w : W) s w' :
  nc_accept_tls_session fuel o clb sock timeout w = Done (TlsRan 1 s, w') →
  (∃ x, srv_made w' = Some x ∧ is_Some (sx_cert x) ∧ is_Some (sx_key x) ∧ sx_lookups x = wanted_lookups) ∧
  (∀ ctx, (true, ctx) ∈ calls w' → not_revoked o (ctx_current ctx)) ∧
  ∃ peer, client_cert s = Some peer ∧ (∃ ok ctx, head (calls w') = Some (ok, ctx) ∧ head (ctx_chain ctx) = Some peer) ∧
    ((∃ u ctx, tls_username s = Some u ∧ (true, ctx) ∈ calls w' ∧ TlsVerifyProofs.granted o clb peer (ctx_current ctx) u)
     ∨ (tls_username s = None ∧ no_memory (W := W))).
Proof.
  intros E. pose proof (tls_session_run fuel sock timeout w) as G. unfold post in G. rewrite E in G. by apply (G 1 s).
Qed.
End accept.

(** ** A client with a chain of two certificates *)

Record acc_log := AccLog {
  al_ctx : option (srv_ctx demo_cert);
  al_calls : list (bool * X509_STORE_CTX demo_cert bytes);
  al_replies : list bool;
}.

Abbreviation acc_world := (sim true true * acc_log)%type.

Definition leaf_last (l : list (bool * X509_STORE_CTX demo_cert bytes)) : bool :=
  match list.last l with Some (true, ctx) => ctx_error_depth ctx <=? 0 | _ => false end.

Definition acc_next (w : acc_world) : accept_step demo_cert bytes * acc_world :=
  let l := w.2 in
  let ask ctx := (AccVerify true ctx, (w.1, AccLog (al_ctx l) (al_calls l ++ [(true, ctx)]) (al_replies l))) in
  match al_calls l with
  | [] => ask (demo_ctx demo_ca 1)
  | [_] => ask (demo_ctx TlsVerifyProofs.demo_client 0)
  | cs => if leaf_last cs && negb (bool_decide (false ∈ al_replies l)) then (AccDone, w) else (AccFailed, w)
  end.

#[export] Instance demo_srv_tls : TlsSrvEnv acc_world demo_cert bytes := {
  server_cert_clb := Some (λ n w, (Some (ServerCertAnswer (Some n) None (Some (str "key")) None NC_SSH_KEY_RSA), w));
  server_cert_chain_clb := None;
  trusted_cert_list_clb := Some (λ n w, (Some ([n], []), w));
  PEM_read_X509 p w := (Some demo_ca, w);
  BIO_new_mem_buf w := (true, w);
  PEM_read_bio_X509 t w := (None, w);
  PEM_read_bio_PrivateKey t w := (true, w);
  srv_CTX_new w := (true, w);
  srv_CTX_use_certificate s w := (true, w);
  srv_CTX_use_PrivateKey s w := (true, w);
  srv_CTX_add_extra_chain_cert c w := (true, w);
  X509_STORE_add_cert c w := (true, w);
  srv_STORE_add_lookup b w := (true, w);
  srv_LOOKUP_add s w := (true, w);
  srv_SSL_new x w := (true, (w.1, AccLog (Some x) [] []));
  srv_SSL_set_fd fd w := w;
  SSL_accept := acc_next;
  SSL_answer b w := acc_next (w.1, AccLog (al_ctx w.2) (al_calls w.2) (al_replies w.2 ++ [b]));
}.

#[export] Instance acc_socks : SockEnv acc_world := {
  sock_socket _ w := (3, w);
  sock_setsockopt _ _ _ w := (true, w);
  inet_pton_ok _ _ := true;
  sock_bind_inet _ _ _ _ w := (true, w);
  sock_bind_unix _ _ w := (true, w);
  sock_unlink _ w := w;
  sock_chmod _ _ w := (true, w);
  sock_chown _ _ _ w := (true, w);
  sock_listen _ _ w := (true, w);
  sock_close _ w := w;
  sock_poll l _ w := ((zlen l, map (λ _, true) l), w);
  sock_accept _ w := (Some (5, SaInet (str "10.0.0.1") 4000), w);
  sock_set_nonblock _ w := (true, w);
  sock_getsockname_unix _ w := (None, w);
  sock_inet_ntop a w := (Some a, w);
}.

Lemma acc_next_law w :
  let (st, w') := acc_next w in
  al_ctx w'.2 = al_ctx w.2 ∧ al_calls w'.2 = al_calls w.2 ++ match st with AccVerify ok ctx => [(ok, ctx)] | _ => [] end ∧
  al_replies w'.2 = al_replies w.2 ∧
  (st = AccDone → false ∉ al_replies w'.2 ∧ ∃ cs ctx, al_calls w'.2 = cs ++ [(true, ctx)] ∧ ctx_error_depth ctx ≤ 0).
Proof.
  destruct w as [s [x [|a [|b l]] r]]; unfold acc_next; cbn [snd fst al_calls al_replies al_ctx]; [done|done|].
  destruct (leaf_last (a :: b :: l) && _) eqn:E; cbn [fst snd al_calls al_replies al_ctx]; rewrite app_nil_r; split_and!; try done.
  intros _. apply andb_true_iff in E as [E1 E2]. apply negb_true_iff, bool_decide_eq_false in E2. split; [done|].
  unfold leaf_last in E1. destruct (list.last (a :: b :: l)) as [[[] ctx]|] eqn:El; try done. apply list.last_Some in El as [cs El].
  exists cs, ctx. split; [exact El|]. lia.
Qed.

#[export] Instance demo_accept : TlsAccept acc_world demo_cert bytes (list Z).
Proof.
  refine {| srv_made w := al_ctx w.2; calls w := al_calls w.2; replies w := al_replies w.2 |}; try done.
  - intros w. exact (acc_next_law w).
  - intros b w. exact (acc_next_law (w.1, AccLog (al_ctx w.2) (al_calls w.2) (al_replies w.2 ++ [b]))).
Defined.

Definition demo_srv_opts : nc_server_tls_opts :=
  TlsOpts (Some (str "crt")) (Some [CLive (str "list")]) 1 (Some (str "ca.pem")) None (crl_store demo_opts) (ctn demo_opts).

Lemma tls_session_verified_witness :
  ∃ s w', nc_accept_tls_session 10 demo_srv_opts None 3 10000 (Sim (m0 := true) (up := true) [] [] 0, AccLog None [] []) = Done (TlsRan 1 s, w') ∧
    tls_username s = Some (str "joe@example.org") ∧ ∃ peer, client_cert s = Some peer.
Proof.
  destruct (nc_accept_tls_session 10 demo_srv_opts None 3 10000 (Sim (m0 := true) (up := true) [] [] 0, AccLog None [] [])) as [[r w']| |] eqn:E.
  2, 3: exfalso; vm_compute in E; discriminate.
  destruct r as [| |rc s].
  1, 2: exfalso; vm_compute in E; discriminate.
  assert (rc = 1) as -> by (vm_compute in E; by injection E). exists s, w'. split; [reflexivity|]. split.
  - vm_compute in E. injection E as <- _. reflexivity.
  - assert (Hclb : ∀ f (s : tls_session demo_cert) (w : acc_world), (None : verify_clb acc_world demo_cert) = Some f → acc_same w (f s w).2) by (intros; discriminate).
    assert (Hdig : ∀ a (c : demo_cert) d, X509_digest (W := acc_world) (name := bytes) (crl := list Z) a c = Some d → d ≠ []) by (intros a c d [= <-]; discriminate).
    destruct (tls_session_verified demo_srv_opts None Hclb Hdig 10 3 10000 _ s w' E) as (_ & _ & peer & Hp & _). by exists peer.
Defined.
