(* ===== verification/Accept.v ===== *)
(** * Accepting sessions

    src/session_server.c: a server takes a connection on one of its endpoints, or connects to a Call Home client itself, starts
    the transport of the endpoint on it, gives the session a number and exchanges hello messages.  A session over descriptors that
    were given has no transport to start.  What went wrong frees the session.

    The sessions are those of SshAuth.v: a store, with the connection as the environment.  The pointer for the resulting session
    is always given. *)

From S2P Require Import Prelude Session Env Time Locks IoRead IoWrite Capabilities PtrArray SshOpts TlsOpts Sockets Endpoints Connect CallHome.
From S2P Require Import PsQueue PollSession SessionFree UserDb SshAuth TlsVerify SshClient ClientConnect SshStart TlsCliOpts TlsStart.
From Stdlib Require Import ZArith Ascii String Lia.
From stdpp Require Import base list strings gmap numbers.
Open Scope Z_scope.

(** [priv] of the schema node of an RPC, and the nodes that the library looks for in a context. *)
Inductive rpc_priv := PrivNull | PrivUser | PrivGetSchema | PrivCloseSession.

Record rpc_nodes := RpcNodes {
  monitoring_implemented : bool;
  get_schema_node : option rpc_priv;
  close_session_node : option rpc_priv;
}.

(** The members of [server_opts] that accepting uses, the RPC nodes of the context, and the certificates of clients by session. *)
Record accept_srv (cert : Type) := AcceptSrv {
  ac_conf : server_conf;
  new_session_id : Z;
  ac_rpcs : rpc_nodes;
  ac_certs : gmap positive cert;
}.
Arguments AcceptSrv {cert} ac_conf new_session_id ac_rpcs ac_certs.
Arguments ac_conf {cert} a.
Arguments new_session_id {cert} a.
Arguments ac_rpcs {cert} a.
Arguments ac_certs {cert} a.

(** [getsockopt] with [SO_PEERCRED]. *)
Class PeerEnv (W : Type) := so_peercred : Z → W → option Z * W.

(** A callback of the library where there is a node and none is set. *)
Definition default_clb (clb : rpc_priv) (n : option rpc_priv) : option rpc_priv :=
  match n with Some PrivNull => Some clb | n => n end.

Definition nc_server_init_ctx (global_rpc_clb : bool) (n : rpc_nodes) : rpc_nodes :=
  if global_rpc_clb then n
  else RpcNodes (monitoring_implemented n)
         (if monitoring_implemented n then default_clb PrivGetSchema (get_schema_node n) else get_schema_node n)
         (default_clb PrivCloseSession (close_session_node n)).

Definition set_session_start (x : Z) (s : nc_session) : nc_session :=
  set_server (ServerOpts x (last_rpc (server s)) (ntf_status (server s)) (rpc_inuse (server s)) (ssh_auth_attempts (server s))) s.

Definition NC_CH_CONNECT_TIMEOUT : Z := 500.

Section accept.
Context {W key cert name crl node envelope : Type} `{!Env W} `{!Printer node envelope} `{!HelloParser W} `{!SockEnv W} `{!ConnEnv W}.
Context `{!UserDb W} `{!PeerEnv W} `{!ConnectEnv W} `{!SshKeys W key} `{!SshAuthEnv W key} `{!TmpFileEnv W} `{!SshBindEnv W}.
Context `{!X509 W cert name crl} `{!TlsCliEnv W cert} `{!TlsSrvEnv W cert name}.
(** Whether there is a callback for all RPCs, the options for hello messages, and the callback for certificates. *)
Context (global_rpc_clb : bool) (opts : nc_server_opts) (clb : verify_clb W cert) (fuel : nat).

Abbreviation AU := (M (ssh_srv key * W)).
Abbreviation AC := (M (accept_srv cert * (ssh_srv key * W))).

(** ** Parts of the state *)

Definition at_session {A} (p : positive) (m : SM W A) : AU A := λ st,
  match sv_store st.1 !! p with
  | None => Crash
  | Some (s, c) =>
    match m (s, st.2) with
    | Done (a, (s, w)) => Done (a, (SshSrv (<[p := (s, c)]> (sv_store st.1)) (sv_keys st.1) (sv_trace st.1), w))
    | NoFuel => NoFuel
    | Crash => Crash
    end
  end.

Definition on_conf {A} (m : M (server_conf * W) A) : AC A := λ st,
  match m (ac_conf st.1, st.2.2) with
  | Done (a, (c, w)) => Done (a, (AcceptSrv c (new_session_id st.1) (ac_rpcs st.1) (ac_certs st.1), (st.2.1, w)))
  | NoFuel => NoFuel
  | Crash => Crash
  end.

Definition init_ctx : AC unit :=
  modify (λ st, (AcceptSrv (ac_conf st.1) (new_session_id st.1) (nc_server_init_ctx global_rpc_clb (ac_rpcs st.1)) (ac_certs st.1), st.2)).

(** A session that was allocated. *)
Definition add_session (s : nc_session) : AU positive :=
  m ← gets (λ st, sv_store st.1);
  let p := fresh (dom m) in
  _ ← modify (λ st, (SshSrv (<[p := (s, None)]> (sv_store st.1)) (sv_keys st.1) (sv_trace st.1), st.2));
  mret p.

(** [ATOMIC_INC_RELAXED]: the counter has 64 bits, the number of a session 32. *)
Definition assign_sid (p : positive) : AC unit :=
  n ← gets (λ st, new_session_id st.1);
  _ ← modify (λ st, (AcceptSrv (ac_conf st.1) ((n + 1) mod 2 ^ 64) (ac_rpcs st.1) (ac_certs st.1), st.2));
  on_env (upd_session p (set_id (u32 n))).

Definition set_cert (p : positive) (c : option cert) : AC unit :=
  modify (λ st, (AcceptSrv (ac_conf st.1) (new_session_id st.1) (ac_rpcs st.1) (partial_alter (λ _, c) p (ac_certs st.1)), st.2)).

(** ** Freeing a session of a server *)

Definition leave_ssh (p : positive) : AU bool := λ st,
  match release_ssh fuel (sv_store st.1) p with
  | Done (b, m) => Done (b, (SshSrv m (sv_keys st.1) (sv_trace st.1), st.2))
  | NoFuel => NoFuel
  | Crash => Crash
  end.

Definition close_sock (fd : Z) : AU unit := if -1 <? fd then on_env (modify (sock_close fd)) else mret tt.

(** [nc_session_free_transport] *)
Definition srv_free_transport (p : positive) : AU unit :=
  connected ← at_session p (nc_session_is_connected fuel);
  s ← get_session p;
  match ti s with
  | TiNone | TiFd _ _ => mret tt
  | TiUnix sock => close_sock sock
  | TiLibssh _ _ =>
    _ ← (if (connected : bool) then on_env (modify ssh_channel_end) else mret tt);
    r ← at_session p (nc_session_io_lock NC_SESSION_FREE_LOCK_TIMEOUT);
    multisession ← leave_ssh p;
    sock ← (if (multisession : bool) then mret (-1)
            else
              sock ← on_env (call ssh_get_fd);
              _ ← (if (connected : bool) then on_env (modify ssh_disconnect) else mret tt);
              _ ← on_env (modify ssh_free);
              mret (if (connected : bool) then -1 else sock));
    _ ← (if r =? 1 then _ ← at_session p nc_session_io_unlock; mret tt else mret tt);
    close_sock sock
  | TiOpenssl =>
    sock ← on_env (call ssl_get_fd);
    _ ← (if (connected : bool) then on_env (modify SSL_shutdown) else mret tt);
    _ ← on_env (modify (SSL_free (cert := cert)));
    close_sock sock
  end.

(** [nc_session_free] on the side of the server. *)
Definition srv_session_free (p : positive) : AU unit :=
  s ← get_session p;
  if bool_decide (status s = NC_STATUS_CLOSING) then mret tt
  else
    r ← at_session p (nc_session_rpc_lock fuel NC_SESSION_FREE_LOCK_TIMEOUT);
    if r =? -1 then mret tt
    else
      _ ← at_session p (free_callhome fuel);
      _ ← srv_free_transport p;
      _ ← (if r =? 1 then _ ← at_session p (nc_session_rpc_unlock NC_SESSION_LOCK_TIMEOUT); mret tt else mret tt);
      modify (λ st, (SshSrv (delete p (sv_store st.1)) (sv_keys st.1) (sv_trace st.1), st.2)).

(** ** Starting the transport *)

Definition nc_get_uid (sock : Z) : M W (option Z) := call (so_peercred sock).

(** The union with the socket is zero before it is set. *)
Definition nc_accept_unix (p : positive) (sock : Z) : AU Z :=
  _ ← upd_session p (set_ti (TiUnix 0));
  uid ← on_env (nc_get_uid sock);
  match uid with
  | None => _ ← on_env (modify (sock_close sock)); mret (-1)
  | Some uid =>
    pw ← on_env (nc_getpwuid fuel uid 0);
    match pw with
    | None => _ ← on_env (modify (sock_close sock)); mret (-1)
    | Some n =>
      u ← on_env (strdup n);
      match u with
      | None => _ ← on_env (modify (sock_close sock)); mret (-1)
      | Some u =>
        _ ← upd_session p (SshAuth.set_username (Some u));
        _ ← upd_session p (set_ti (TiUnix sock));
        mret 1
      end
    end
  end.

(** A session over TLS gets what the verification found out; functions of OpenSSL on an SSL session that is [NULL] are a crash,
    which freeing the session leads to. *)
Definition accept_tls (p : positive) (o : nc_server_tls_opts) (sock : Z) : AC Z :=
  r ← on_env (on_env (nc_accept_tls_session fuel o clb sock NC_TRANSPORT_TIMEOUT));
  match r with
  | TlsUnstarted => mret (-1)
  | TlsNull => crash
  | TlsRan rc s =>
    _ ← on_env (upd_session p (set_ti TiOpenssl));
    _ ← on_env (upd_session p (SshAuth.set_username (tls_username s)));
    _ ← set_cert p (client_cert s);
    mret rc
  end.

(** The transport of an endpoint; [unix] says whether it may be a UNIX socket.  The options are dereferenced. *)
Definition start_transport (unix : bool) (p : positive) (ti : NC_TRANSPORT_IMPL) (o : endpt_opts) (sock : Z) : AC Z :=
  match ti, o with
  | NC_TI_LIBSSH, OptsSsh o => on_env (nc_accept_ssh_session fuel p o sock NC_TRANSPORT_TIMEOUT)
  | NC_TI_OPENSSL, OptsTls o => accept_tls p o sock
  | NC_TI_LIBSSH, _ | NC_TI_OPENSSL, _ => crash
  | NC_TI_UNIX, _ =>
    if unix then on_env (nc_accept_unix p sock) else _ ← on_env (on_env (modify (sock_close sock))); mret (-1)
  | _, _ => _ ← on_env (on_env (modify (sock_close sock))); mret (-1)
  end.

(** ** The session *)

(** A number, and the hello messages. *)
Definition greet (p : positive) (ctx : ly_ctx) : AC NC_MSG_TYPE :=
  _ ← assign_sid p;
  on_env (at_session p (nc_handshake_io (node := node) (envelope := envelope) (Some ctx) opts fuel)).

Definition set_running (p : positive) : AU unit :=
  ts ← on_env (nc_gettimespec_mono_add 0);
  _ ← upd_session p (set_last_rpc (tv_sec ts));
  ts ← on_env (nc_gettimespec_real_add 0);
  _ ← upd_session p (set_session_start (tv_sec ts));
  upd_session p (set_status NC_STATUS_RUNNING).

(** The message type and the session, after it was freed unless all went well. *)
Definition greeted (p : positive) (ctx : ly_ctx) : AC (NC_MSG_TYPE * option positive) :=
  r ← greet p ctx;
  if negb (bool_decide (r = NC_MSG_HELLO)) then _ ← on_env (srv_session_free p); mret (r, None)
  else _ ← on_env (set_running p); mret (r, Some p).

(** [username] has to be given. *)
Definition nc_accept_inout (fdin fdout : Z) (username : option bytes) (ctx : option ly_ctx) : AC (NC_MSG_TYPE * option positive) :=
  match ctx with
  | None => mret (NC_MSG_ERROR, None)
  | Some ctx =>
    if (fdin <? 0) || (fdout <? 0) || bool_decide (username = None) then mret (NC_MSG_ERROR, None)
    else
      _ ← init_ctx;
      s ← on_env (on_env (nc_new_session NC_SERVER false));
      match s with
      | None => mret (NC_MSG_ERROR, None)
      | Some s =>
        p ← on_env (add_session (set_flags NC_SESSION_SHAREDCTX (set_ti (TiFd fdin fdout) (set_status NC_STATUS_STARTING s))));
        greeted p ctx
      end
  end.

(** The binds as the array [nc_sock_accept_binds] reads and writes. *)
Fixpoint read_binds (n : nat) (i : Z) : M (server_conf * W) (list nc_bind) :=
  match n with
  | O => mret []
  | S n => b ← bind_at i; l ← read_binds n (i + 1); mret (b :: l)
  end.

Fixpoint write_binds (l : list nc_bind) (i : Z) : M (server_conf * W) unit :=
  match l with
  | [] => mret tt
  | b :: l => _ ← put_bind i b; write_binds l (i + 1)
  end.

Definition accept_on_binds (timeout : Z) : M (server_conf * W) (Z * option accepted_info) :=
  s ← conf;
  binds ← read_binds (Z.to_nat (endpt_count s)) 0;
  '(ret, info, binds) ← on_env (nc_sock_accept_binds binds timeout);
  _ ← write_binds binds 0;
  mret (ret, info).

(** Everything with [endpt_lock] held: the session and the result of its transport, or [None] when it was not allocated. *)
Definition start_session (unix : bool) (sock : Z) (h : option bytes) (port : Z) (ti : NC_TRANSPORT_IMPL) (o : endpt_opts)
    : AC (option (positive * Z)) :=
  s ← on_env (on_env (nc_new_session NC_SERVER false));
  match s with
  | None => _ ← on_env (on_env (modify (sock_close sock))); mret None
  | Some s =>
    p ← on_env (add_session (set_host_port h port (set_flags NC_SESSION_SHAREDCTX (set_status NC_STATUS_STARTING s))));
    r ← start_transport unix p ti o sock;
    mret (Some (p, r))
  end.

(** The result for a transport that did not start. *)
Definition not_started (r : Z) : NC_MSG_TYPE := if r <? 0 then NC_MSG_ERROR else NC_MSG_WOULDBLOCK.

Definition nc_accept (timeout : Z) (ctx : option ly_ctx) : AC (NC_MSG_TYPE * option positive) :=
  match ctx with
  | None => mret (NC_MSG_ERROR, None)
  | Some ctx =>
    _ ← init_ctx;
    _ ← on_conf bind_lock;
    c ← on_conf conf;
    if endpt_count c =? 0 then _ ← on_conf bind_unlock; mret (NC_MSG_ERROR, None)
    else
      '(ret, info) ← on_conf (accept_on_binds timeout);
      if ret <? 1 then
        _ ← on_conf bind_unlock;
        mret (if ret =? 0 then NC_MSG_WOULDBLOCK else NC_MSG_ERROR, None)
      else
        _ ← on_conf endpt_lock;
        _ ← on_conf bind_unlock;
        match info with
        | None => crash
        | Some (h, port, i) =>
          e ← on_conf (endpt_at i);
          r ← start_session true ret h port (ep_ti e) (ep_opts e);
          _ ← on_conf endpt_unlock;
          match r with
          | None => mret (NC_MSG_ERROR, None)
          | Some (p, r) =>
            if r <? 1 then _ ← on_env (srv_session_free p); mret (not_started r, None)
            else greeted p ctx
          end
        end
  end.

(** ** Call Home *)

(** The context comes from the application.  The address of the client is a local variable that [nc_sock_connect] may leave
    unset, which the code reads in any case. *)
Definition nc_connect_ch_endpt (acquire_ctx_cb : W → option ly_ctx * W) (release_ctx_cb : W → W) (e : nc_ch_endpt)
    : AC (NC_MSG_TYPE * option positive * nc_ch_endpt) :=
  '(sock, pending, ip_host) ← on_env (on_env (nc_sock_connect (che_address e) (che_port e) NC_CH_CONNECT_TIMEOUT (che_ka e)
                                                (Some (che_sock_pending e)) true));
  let e := set_che_pending (default (-1) pending) e in
  if sock <? 0 then mret (NC_MSG_ERROR, None, e)
  else
    ctx ← on_env (on_env (call acquire_ctx_cb));
    match ip_host with
    | HostUnset => crash
    | HostSet h =>
      match ctx with
      | None => _ ← on_env (on_env (modify (sock_close sock))); mret (NC_MSG_ERROR, None, e)
      | Some ctx =>
        r ← start_session false sock (Some h) (che_port e) (che_ti e) (che_opts e);
        '(t, p) ← match r with
                  | None => mret (NC_MSG_ERROR, None)
                  | Some (p, r) =>
                    if r <? 1 then _ ← on_env (srv_session_free p); mret (not_started r, None)
                    else greeted p ctx
                  end;
        _ ← (match p with None => on_env (on_env (modify release_ctx_cb)) | Some _ => mret tt end);
        mret (t, p, e)
      end
    end.
End accept.
