(* ===== verification/AcceptProofs.v ===== *)
(** * Accepting sessions: whose they are

    A session that [nc_accept] returns has a number of its own and a user that the transport of its endpoint vouched for, and the
    locks of the endpoints are as before. *)

From S2P Require Import Prelude Session Env Time Locks IoRead IoWrite Capabilities SshAuthProofs PtrArray SshOpts TlsOpts Sockets Endpoints.
From S2P Require Import Connect CallHome PsQueue PollSession SessionFree UserDb SshAuth TlsVerify TlsVerifyProofs SshClient ClientConnect.
From S2P Require Import SshStart SshStartProofs Sim Framing IoTheorems Handshake TlsCliProofs TlsCliOpts TlsStart TlsStartProofs Accept.
From Stdlib Require Import ZArith Ascii String Lia.
From stdpp Require Import base list strings gmap numbers.
Open Scope Z_scope.

(** ** Whom a session belongs to

    Reading, writing and the hello exchange of a server change the state of a session, not its number, its user, its flags and its
    transport. *)

Definition identity (s : nc_session) : NC_SIDE * Z * option bytes * Z * transport := (side s, id s, username s, flags s, ti s).

Section keeps.
Context {W : Type} `{!Env W}.

Definition keeps {A} (m : SM W A) : Prop := ∀ st, post m (λ _ st', identity st'.1 = identity st.1) st.

Lemma keeps_id_ret {A} (a : A) : keeps (mret a).
Proof. intros st. by apply post_ret. Qed.

Lemma keeps_id_bind {A B} (m : SM W A) (k : A → SM W B) : keeps m → (∀ a, keeps (k a)) → keeps (m ≫= k).
Proof.
  intros Hm Hk st. apply post_bind. eapply post_mono; [apply Hm|]. intros a st1 H1. eapply post_mono; [apply Hk|]. intros b st2 H2. congruence.
Qed.

Lemma keeps_env {A} (m : M W A) : keeps (env m).
Proof. intros [s w]. apply post_on_env. eapply post_mono; [apply post_any|]. done. Qed.

Lemma keeps_envcall {A} (f : W → A * W) : keeps (envcall f).
Proof. apply (keeps_env (call f)). Qed.

Lemma keeps_upd f : (∀ s, identity (f s) = identity s) → keeps (upd_ses f).
Proof. intros Hf [s w]. apply post_modify. apply Hf. Qed.

Lemma keeps_ses : keeps ses.
Proof. intros st. by apply post_gets. Qed.

Lemma keeps_guarded b : keeps (guarded b).
Proof. intros st. by destruct b. Qed.
End keeps.

(** The structure of a function; calls of functions are left. *)
Ltac keep_step :=
  match goal with
  | |- keeps (mret _) => apply keeps_id_ret
  | |- keeps crash => done
  | |- keeps no_fuel => done
  | |- keeps ses => apply keeps_ses
  | |- keeps (env _) => apply keeps_env
  | |- keeps (envcall _) => apply keeps_envcall
  | |- keeps (guarded _) => apply keeps_guarded
  | |- keeps (upd_ses _) => apply keeps_upd; by intros
  | |- keeps (_ ≫= _) => apply keeps_id_bind; [|intros ?]
  | |- keeps (if ?b then _ else _) => destruct b
  | |- keeps (match ?x with _ => _ end) => destruct x
  | |- keeps (let _ := _ in _) => cbv zeta
  | |- keeps _ => solve [eauto with keeps]
  end.
Ltac keep := intros; repeat keep_step.

Create HintDb keeps.

Section io.
Context {W : Type} `{!Env W}.

Lemma keeps_io_lock t : keeps (W := W) (nc_session_io_lock t).
Proof. unfold nc_session_io_lock, pthread_acquire. keep. Qed.

Lemma keeps_io_unlock : keeps (W := W) nc_session_io_unlock.
Proof. unfold nc_session_io_unlock, pthread_release. keep. Qed.

Lemma keeps_read fuel count t ts room : keeps (W := W) (nc_read fuel count t ts room).
Proof.
  assert (L : ∀ n c t i a r acc, keeps (W := W) (nc_read_loop n c t i a r acc)).
  { induction n as [|n IH]; intros; cbn [nc_read_loop]; [done|]. unfold nc_read_switch, nc_read_elapsed, fail_with. keep; apply IH. }
  unfold nc_read. keep; apply L.
Qed.
#[local] Hint Resolve keeps_io_lock keeps_io_unlock keeps_read : keeps.

Lemma keeps_read_until fuel e l t ts : keeps (W := W) (nc_read_until fuel e l t ts).
Proof.
  assert (L : ∀ n f e l t ts s m c, keeps (W := W) (nc_read_until_loop n f e l t ts s m c)).
  { induction n as [|n IH]; intros; cbn [nc_read_until_loop]; [done|]. keep; apply IH. }
  unfold nc_read_until. keep; apply L.
Qed.
#[local] Hint Resolve keeps_read_until : keeps.

Lemma keeps_read_framed fuel t ts : keeps (W := W) (nc_read_framed fuel t ts).
Proof.
  assert (L : ∀ n f t ts d, keeps (W := W) (nc_read_chunks n f t ts d)).
  { induction n as [|n IH]; intros; cbn [nc_read_chunks]; [done|]. unfold nc_read_chunk. keep; apply IH. }
  unfold nc_read_framed. keep; apply L.
Qed.
#[local] Hint Resolve keeps_read_framed : keeps.

Lemma keeps_read_msg_poll_io fuel t : keeps (W := W) (nc_read_msg_poll_io fuel t).
Proof. unfold nc_read_msg_poll_io, nc_read_msg_io, nc_read_poll, nc_read_poll_result. keep. Qed.

Lemma keeps_is_connected fuel : keeps (W := W) (nc_session_is_connected fuel).
Proof.
  assert (L : ∀ n fd, keeps (W := W) (poll_retry n fd)).
  { induction n as [|n IH]; intros; cbn [poll_retry]; [done|]. keep; apply IH. }
  unfold nc_session_is_connected. keep; apply L.
Qed.
#[local] Hint Resolve keeps_is_connected : keeps.

Lemma keeps_write fuel buf : keeps (W := W) (nc_write fuel buf).
Proof.
  assert (L : ∀ n b w, keeps (W := W) (nc_write_loop n b w)).
  { induction n as [|n IH]; intros; cbn [nc_write_loop]; [done|]. unfold nc_write_switch. keep; apply IH. }
  unfold nc_write. keep; apply L.
Qed.
#[local] Hint Resolve keeps_write : keeps.

Lemma keeps_write_clb fuel wbuf buf x : keeps (W := W) (nc_write_clb fuel wbuf buf x).
Proof.
  assert (L : ∀ buf wbuf r, keeps (W := W) (nc_write_clb_xml fuel wbuf buf r)).
  { induction buf0 as [|c b IH]; intros; cbn [nc_write_clb_xml]; [keep|].
    unfold nc_write_clb_flush, nc_write_starttag_and_msg, buf_append. keep; apply IH. }
  unfold nc_write_clb, nc_write_clb_flush, nc_write_starttag_and_msg, nc_write_endtag, buf_append. keep; apply L.
Qed.
#[local] Hint Resolve keeps_write_clb : keeps.

Context {node envelope : Type} `{!Printer node envelope}.

Lemma keeps_write_hello fuel t caps sid : keeps (W := W) (nc_write_msg_io (node := node) (envelope := envelope) fuel t (OutHello caps sid)).
Proof.
  assert (E : ∀ w d x, keeps (W := W) (emit fuel w d x)) by (unfold emit; keep).
  assert (L : ∀ l w, keeps (W := W) (write_capabilities fuel w l)).
  { induction l as [|c l IH]; intros; cbn [write_capabilities]; keep; auto. }
  unfold nc_write_msg_io. cbn [write_body]. unfold write_hello. keep; auto.
Qed.
#[local] Hint Resolve keeps_write_hello keeps_read_msg_poll_io : keeps.

(** The hello exchange on the side of the server. *)
Lemma server_handshake_keeps `{!HelloParser W} ctx o fuel s (w : W) :
  side s = NC_SERVER →
  post (nc_handshake_io (node := node) (envelope := envelope) ctx o fuel) (λ _ st, identity st.1 = identity s) (s, w).
Proof.
  intros Hs. unfold nc_handshake_io. apply post_bind. apply post_mono with (Q := λ _ st, identity st.1 = identity s).
  { unfold nc_send_hello_io. apply post_bind, post_gets. cbn [fst]. rewrite Hs.
    assert (G : keeps (W := W) (r ← env (nc_server_get_cpblts_version ctx o LYS_VERSION_1_0);
      match r with None => mret NC_MSG_ERROR
      | Some cpblts => send_hello_list (node := node) (envelope := envelope) fuel cpblts (NC_SERVER_HELLO_TIMEOUT * 1000) (Some (id s)) end))
      by (unfold send_hello_list; keep).
    apply (G (s, w)). }
  intros r [s1 w1] E1. destruct (negb _); [by apply post_ret|]. apply post_bind, post_gets. cbn [fst] in *.
  replace (side s1) with NC_SERVER by (injection E1 as ->; done).
  assert (L : ∀ l b, keeps (W := W) (server_hello_loop l b)).
  { induction l as [|n l IH]; intros; cbn [server_hello_loop]; [keep|]. keep; apply IH. }
  assert (G : keeps (W := W) (nc_recv_server_hello_io o fuel)) by (unfold nc_recv_server_hello_io; keep; auto).
  eapply post_mono; [apply (G (s1, w1))|]. intros a st E. cbn [fst] in E. congruence.
Qed.
End io.

(** ** Accepting sessions: whose they are

    A session that [nc_accept] returns has a number of its own and a user that the transport of its endpoint vouched for, and the
    locks of the endpoints are as before. *)

Section accept.
Context {W key cert name crl node envelope : Type} `{!Env W} `{!Printer node envelope} `{!HelloParser W} `{!SockEnv W} `{!ConnEnv W}.
Context `{!UserDb W} `{!PeerEnv W} `{!ConnectEnv W} `{!SshKeys W key} `{!SshAuthEnv W key} `{!AuthDb W key} `{!TmpFileEnv W} `{!SshBindEnv W}.
Context `{X : !X509 W cert name crl} `{!TlsCliEnv W cert} `{!TlsSrvEnv W cert name} `{!TlsAccept W cert name crl}.
Context (global_rpc_clb : bool) (opts : nc_server_opts) (clb : verify_clb W cert) (fuel : nat).
(** The application's callback does not touch the handshake of OpenSSL. *)
Context (Hclb : ∀ f s w, clb = Some f → acc_same w (f s w).2).
Context (Hdig : ∀ a (c : cert) d, X509_digest a c = Some d → d ≠ []).

Abbreviation state := (accept_srv cert * (ssh_srv key * W))%type.

(** The user of a session, as the transport knows them: authenticated for SSH, by the certificate for TLS, and the owner of the peer
    for a UNIX socket. *)
Definition vouched (ti : NC_TRANSPORT_IMPL) (o : endpt_opts) (keys : list authkey) (tr : list (ssh_msg key * ssh_reply)) (peer : option cert)
    (s : nc_session) : Prop :=
  match ti, o with
  | NC_TI_LIBSSH, OptsSsh o => authenticated s = true ∧ SshAuthProofs.granted keys (username s) tr
  | NC_TI_OPENSSL, OptsTls o => ∃ c, peer = Some c ∧
      ((∃ u c', username s = Some u ∧ TlsVerifyProofs.granted o clb c c' u) ∨ (username s = None ∧ no_memory (W := W)))
  | NC_TI_UNIX, _ => ∃ sock (w1 : W) uid n w2 u, (so_peercred sock w1).1 = Some uid ∧ (getpwuid_r uid n w2).1 = DbFound u ∧ username s = Some u
  | _, _ => False
  end.

(** What is vouched for does not depend on more than these. *)
Lemma vouched_eq ti o keys tr peer s s' :
  username s' = username s → flags s' = flags s → vouched ti o keys tr peer s → vouched ti o keys tr peer s'.
Proof.
  intros Eu Ef. unfold vouched, authenticated, has_flag. by rewrite Eu, Ef.
Qed.

(** The session at [p] after its transport was started. *)
Definition started (p : positive) (ti : NC_TRANSPORT_IMPL) (o : endpt_opts) (keys : list authkey) (st : state) : Prop :=
  ∃ s c, sv_store st.2.1 !! p = Some (s, c) ∧ side s = NC_SERVER ∧ vouched ti o keys (sv_trace st.2.1) (ac_certs st.1 !! p) s.

(** What starting a session leaves as it is. *)
Definition rest_same (st st' : state) : Prop := ac_conf st'.1 = ac_conf st.1 ∧ new_session_id st'.1 = new_session_id st.1.

Lemma getpwuid_found uid : ∀ n size (w : W),
  post (nc_getpwuid n uid size) (λ r _, ∀ u, r = Some u → ∃ k w', (getpwuid_r uid k w').1 = DbFound u) w.
Proof.
  induction n as [|n IH]; intros size w; [done|]. cbn [nc_getpwuid]. cbv zeta. apply post_bind, post_call. destruct (negb _); [by apply post_ret|].
  apply post_bind, post_call. destruct (getpwuid_r _ _ _) as [[u| |] w1] eqn:E; cbn [fst snd]; [|apply IH|by apply post_ret].
  apply post_ret. intros ? [= <-]. eexists _, _. by rewrite E.
Qed.

Lemma unix_started p sock a st s c (w : W) keys :
  sv_store st !! p = Some (s, c) → side s = NC_SERVER →
  post (nc_accept_unix fuel p sock) (λ r st', 0 < r → started p NC_TI_UNIX OptsNull keys (a, st')) (st, w).
Proof.
  intros Hs Hd. unfold nc_accept_unix. apply post_bind, post_modify. cbn [fst snd]. apply post_bind, post_on_env, post_call.
  destruct (so_peercred sock w) as [uid w1] eqn:Eu. cbn [fst snd]. destruct uid as [uid|]; [|by apply post_bind, post_on_env, post_modify, post_ret].
  apply post_bind, post_on_env. eapply post_mono; [apply getpwuid_found|]. intros [n|] w2 Hn; [|by apply post_bind, post_on_env, post_modify, post_ret].
  destruct (Hn n eq_refl) as (k & w' & Hk). apply post_bind, post_on_env. apply post_bind, post_call, post_ret.
  destruct (malloc_ok _ w2).1; [|by apply post_bind, post_on_env, post_modify, post_ret].
  apply post_bind, post_modify. apply post_bind, post_modify, post_ret. intros _. cbn [fst snd sv_store].
  eexists _, c. cbn [snd fst sv_store]. rewrite !lookup_alter_eq, Hs. cbn. split; [done|]. split; [done|].
  exists sock, w, uid, k, w', n. by rewrite Eu.
Qed.

Lemma tls_started_ok p o sock (st : state) s c :
  sv_store st.2.1 !! p = Some (s, c) → side s = NC_SERVER →
  post (accept_tls clb fuel p o sock) (λ r st', rest_same st st' ∧ (0 < r →
    started p NC_TI_OPENSSL (OptsTls o) (default [] (authkeys (sv_keys st.2.1))) st')) st.
Proof.
  intros Hs Hd. destruct st as [a [sv w]]. unfold accept_tls. apply post_bind, post_on_env, post_on_env.
  eapply post_mono; [by apply tls_session_run|]. intros [| |rc ts] w1 H1; [by apply post_ret|done|].
  apply post_bind, post_on_env, post_modify. apply post_bind, post_on_env, post_modify. apply post_bind, post_modify, post_ret.
  split; [done|]. intros Hrc. destruct (H1 rc ts eq_refl Hrc) as (_ & _ & peer & Hp & _ & Hu). cbn [fst snd sv_store] in *.
  eexists _, c. cbn [snd fst sv_store ac_certs]. rewrite !lookup_alter_eq, Hs. cbn. split; [done|]. split; [done|].
  exists peer. split; [by rewrite lookup_partial_alter_eq|]. destruct Hu as [(u & ctx & Eu & _ & Hg)|[Eu Hm]]; [left; eauto|by right].
Qed.

Lemma transport_started unix p ti o sock (st : state) s c :
  sv_store st.2.1 !! p = Some (s, c) → side s = NC_SERVER → server s = ServerOpts 0 0 0 false 0 → authenticated s = false →
  post (start_transport clb fuel unix p ti o sock) (λ r st', rest_same st st' ∧ (0 < r →
    started p ti o (default [] (authkeys (sv_keys st.2.1))) st')) st.
Proof.
  intros Hs Hd Hv Ha. assert (Hc : post (_ ← on_env (on_env (modify (sock_close sock))); mret (-1)) (λ r st', rest_same st st' ∧ (0 < r →
    started p ti o (default [] (authkeys (sv_keys st.2.1))) st')) st).
  { destruct st as [a [sv w]]. by apply post_bind, post_on_env, post_on_env, post_modify, post_ret. }
  unfold start_transport. destruct ti; [done|done| | |].
  - destruct unix; [|done]. destruct st as [a [sv w]]. apply post_on_env. eapply post_mono; [by apply (unix_started p sock a sv s c w [])|].
    intros r st' H. split; [done|]. intros Hr. destruct (H Hr) as (s' & c' & ? & ? & Hu). by exists s', c'.
  - destruct o as [|o|o|o]; try done. destruct st as [a [sv w]]. apply post_on_env.
    eapply post_mono; [apply (ssh_session_lets_in fuel p o sock NC_TRANSPORT_TIMEOUT sv s c); [done|by rewrite Hv|done]|].
    intros r [sv' w'] H. split; [done|]. intros Hr. destruct (H Hr) as (s' & c' & Hs' & Hd' & Ha' & Hg). exists s', c'. split; [done|]. split; [congruence|]. done.
  - destruct o as [|o|o|o]; try done. by eapply tls_started_ok.
Qed.

Lemma session_started unix sock h port ti o (st : state) :
  post (start_session clb fuel unix sock h port ti o) (λ r st', rest_same st st' ∧ match r with
    | Some (p, r) => sv_store st.2.1 !! p = None ∧ (0 < r → started p ti o (default [] (authkeys (sv_keys st.2.1))) st')
    | None => True end) st.
Proof.
  destruct st as [a [sv w]]. unfold start_session. apply post_bind, post_on_env, post_on_env.
  eapply (post_mono _ (λ s _, s = None ∨ s = Some (set_io_lock (Some false) (set_side NC_SERVER zero_session)))).
  { unfold nc_new_session. apply post_bind, post_call. destruct (negb _); [apply post_ret; by left|]. cbv zeta. apply post_bind, post_call.
    destruct (negb _); apply post_ret; [by left|by right]. }
  intros ns w1 [-> | ->]; [by apply post_bind, post_on_env, post_on_env, post_modify, post_ret|].
  apply post_bind, post_on_env. apply post_bind, post_gets. cbv zeta. apply post_bind, post_modify, post_ret. cbn [fst snd].
  set (p := fresh _). assert (Hp : sv_store sv !! p = None) by (apply not_elem_of_dom, is_fresh). apply post_bind.
  eapply post_mono; [eapply transport_started; cbn [fst snd sv_store]; [by rewrite lookup_insert_eq|done..]|].
  intros r st' [Hr Hst]. apply post_ret. by split.
Qed.

(** ** The hello exchange *)

Lemma post_at_session {A} p (m : SM W A) (Q : A → ssh_srv key * W → Prop) sv s c w :
  sv_store sv !! p = Some (s, c) →
  post m (λ a sw, Q a (SshSrv (<[p := (sw.1, c)]> (sv_store sv)) (sv_keys sv) (sv_trace sv), sw.2)) (s, w) →
  post (at_session p m) Q (sv, w).
Proof. intros Hs H. unfold post, at_session in *. cbn [fst snd]. rewrite Hs. by destruct (m (s, w)) as [[a [s' w']]| |]. Qed.

(** A session that is ready for use. *)
Definition running (p : positive) (n : Z) (ti : NC_TRANSPORT_IMPL) (o : endpt_opts) (keys : list authkey) (st : state) : Prop :=
  ∃ s c, sv_store st.2.1 !! p = Some (s, c) ∧ status s = NC_STATUS_RUNNING ∧ id s = u32 n ∧
    vouched ti o keys (sv_trace st.2.1) (ac_certs st.1 !! p) s.

Definition greet_result (p : positive) (ti : NC_TRANSPORT_IMPL) (o : endpt_opts) (keys : list authkey) (st : state)
    (r : NC_MSG_TYPE * option positive) (st' : state) : Prop :=
  ac_conf st'.1 = ac_conf st.1 ∧ new_session_id st'.1 = (new_session_id st.1 + 1) mod 2 ^ 64 ∧
  match r.2 with
  | None => r.1 ≠ NC_MSG_HELLO
  | Some q => q = p ∧ r.1 = NC_MSG_HELLO ∧ running p (new_session_id st.1) ti o keys st'
  end.

Lemma set_running_post p s c sv (w : W) :
  sv_store sv !! p = Some (s, c) →
  post (set_running p) (λ _ (st' : ssh_srv key * W), sv_trace st'.1 = sv_trace sv ∧ ∃ s', sv_store st'.1 !! p = Some (s', c) ∧
    status s' = NC_STATUS_RUNNING ∧ identity s' = identity s) (sv, w).
Proof.
  intros Hs. unfold set_running. apply post_bind, post_on_env. eapply post_mono; [apply post_any|]. intros ts w1 _. apply post_bind, post_modify.
  apply post_bind, post_on_env. eapply post_mono; [apply post_any|]. intros ts2 w2 _. apply post_bind, post_modify, post_modify. cbn [fst snd sv_store sv_trace].
  split; [done|]. rewrite !lookup_alter_eq, Hs. cbn. by eexists.
Qed.

Lemma greeted_ok p ctx ti o keys (st : state) :
  started p ti o keys st → post (greeted (node := node) (envelope := envelope) opts fuel p ctx) (greet_result p ti o keys st) st.
Proof.
  destruct st as [a [sv w]]. intros (s & c & Hs & Hd & Hv). cbn [fst snd] in *. unfold greeted, greet. apply post_bind. apply post_bind.
  unfold assign_sid. apply post_bind, post_gets. apply post_bind, post_modify, post_on_env, post_modify. cbn [fst snd].
  set (s1 := set_id (u32 (new_session_id a)) s). set (sv1 := SshSrv _ _ _). apply post_on_env.
  assert (Hs1 : sv_store sv1 !! p = Some (s1, c)) by (cbn [sv1 sv_store]; by rewrite lookup_alter_eq, Hs).
  eapply post_at_session; [exact Hs1|]. eapply post_mono; [by apply (server_handshake_keeps (Some ctx) opts fuel s1 w)|].
  intros r [s2 w2] E2. cbn [fst snd] in *. destruct (bool_decide_reflect (r = NC_MSG_HELLO)) as [->|Hr]; cbn [negb].
  - apply post_bind, post_on_env. eapply post_mono; [eapply (set_running_post p s2 c); cbn [sv_store]; apply lookup_insert_eq|].
    intros [] [sv3 w3] (Ht & s3 & Hs3 & Hr3 & E3). apply post_ret. split; [done|]. split; [done|]. split; [done|]. split; [done|].
    exists s3, c. cbn [fst snd] in *. split; [done|]. split; [done|]. rewrite E2 in E3. injection E3 as Eside Eid Eu Ef Eti.
    split; [done|]. rewrite Ht. eapply vouched_eq; [..|exact Hv]; done.
  - apply post_bind, post_on_env. eapply post_mono; [apply post_any|]. intros [] st3 _. apply post_ret. done.
Qed.

(** ** Accepting *)

(** All but the events of the binds. *)
Definition same_conf (c c' : server_conf) : Prop :=
  endpts c' = endpts c ∧ endpt_count c' = endpt_count c ∧ bind_locked c' = bind_locked c ∧ endpt_locked c' = endpt_locked c.

Lemma post_on_conf {A} (m : M (server_conf * W) A) (Q : A → state → Prop) (a : accept_srv cert) sv w :
  post m (λ x cw, Q x (AcceptSrv cw.1 (new_session_id a) (ac_rpcs a) (ac_certs a), (sv, cw.2))) (ac_conf a, w) →
  post (on_conf m) Q (a, (sv, w)).
Proof. unfold post, on_conf. cbn [fst snd]. by destruct (m _) as [[x [c' w']]| |]. Qed.

Lemma read_binds_same n : ∀ i s, post (read_binds (W := W) n i) (λ _ s', s' = s) s.
Proof.
  induction n as [|n IH]; intros i s; cbn [read_binds]; [done|]. apply post_bind. eapply (post_mono _ (λ _ s', s' = s)).
  { unfold bind_at. apply post_bind, post_gets. by repeat case_match. }
  intros b s1 ->. apply post_bind. eapply post_mono; [apply IH|]. intros l s2 ->. by apply post_ret.
Qed.

Lemma write_binds_same l : ∀ i s, post (write_binds (W := W) l i) (λ _ s', same_conf s.1 s'.1) s.
Proof.
  induction l as [|b l IH]; intros i s; cbn [write_binds]; [done|]. apply post_bind. unfold put_bind. apply post_bind, post_gets, post_modify.
  eapply post_mono; [apply IH|]. intros [] s'. done.
Qed.

Lemma accept_on_binds_same t s : post (accept_on_binds (W := W) t) (λ _ s', same_conf s.1 s'.1) s.
Proof.
  unfold accept_on_binds. apply post_bind, post_gets. apply post_bind. eapply post_mono; [apply read_binds_same|]. intros l s1 ->.
  destruct s as [c w]. apply post_bind, post_on_env. eapply post_mono; [apply post_any|]. intros [[r i] b] w1 _.
  apply post_bind. eapply post_mono; [apply write_binds_same|]. intros [] s' H. by apply post_ret.
Qed.

(** The outcome of [nc_accept]. *)
Definition accept_result (st : state) (r : NC_MSG_TYPE * option positive) (st' : state) : Prop :=
  same_conf (ac_conf st.1) (ac_conf st'.1) ∧
  match r.2 with
  | None => r.1 ≠ NC_MSG_HELLO
  | Some p => r.1 = NC_MSG_HELLO ∧ sv_store st.2.1 !! p = None ∧ new_session_id st'.1 = (new_session_id st.1 + 1) mod 2 ^ 64 ∧
    ∃ l i e, endpts (ac_conf st.1) = Some l ∧ l !! i = Some e ∧
      running p (new_session_id st.1) (ep_ti e) (ep_opts e) (default [] (authkeys (sv_keys st.2.1))) st'
  end.

Lemma endpt_at_post i s : post (endpt_at (W := W) i) (λ e s', s' = s ∧ ∃ l j, endpts s.1 = Some l ∧ l !! j = Some e) s.
Proof.
  unfold endpt_at. apply post_bind, post_gets. destruct (endpts s.1) as [l|] eqn:El; [|done]. destruct (i <? 0); [done|].
  destruct (l !! Z.to_nat i) as [e|] eqn:Ee; [|done]. apply post_ret. eauto.
Qed.

Lemma nc_accept_post timeout ctx (st : state) :
  post (nc_accept (node := node) (envelope := envelope) global_rpc_clb opts clb fuel timeout ctx) (accept_result st) st.
Proof.
  destruct st as [a [sv w]]. unfold nc_accept. destruct ctx as [ctx|]; [|by apply post_ret]. apply post_bind, post_modify.
  apply post_bind, post_on_conf. unfold bind_lock. apply post_bind, post_gets. cbn [fst ac_conf].
  destruct (bind_locked (ac_conf a)) eqn:Eb; [done|]. apply post_modify. apply post_bind, post_on_conf, post_gets. cbn [fst snd ac_conf endpt_count].
  assert (Hun : ∀ c, same_conf (ServerConf (endpts (ac_conf a)) (binds (ac_conf a)) (endpt_count (ac_conf a)) true (endpt_locked (ac_conf a))) c →
    same_conf (ac_conf a) (ServerConf (endpts c) (binds c) (endpt_count c) false (endpt_locked c))).
  { intros c (H1 & H2 & H3 & H4). unfold same_conf. cbn in *. by rewrite Eb. }
  destruct (endpt_count (ac_conf a) =? 0).
  { apply post_bind, post_on_conf, post_modify, post_ret. split; [|done]. by apply Hun. }
  apply post_bind, post_on_conf. eapply post_mono; [apply accept_on_binds_same|]. intros [ret info] [c1 w1] H1. cbn [fst snd] in *.
  destruct (ret <? 1).
  { apply post_bind, post_on_conf, post_modify, post_ret. split; [by apply Hun|]. cbn. by destruct (ret =? 0). }
  apply post_bind, post_on_conf. unfold endpt_lock. apply post_bind, post_gets. cbn [fst ac_conf].
  destruct (endpt_locked c1) eqn:Ee1; [done|]. apply post_modify. apply post_bind, post_on_conf, post_modify. cbn [fst snd ac_conf].
  destruct info as [[[h port] i]|]; [|done]. apply post_bind, post_on_conf. eapply post_mono; [apply endpt_at_post|].
  intros e s' [-> (l & j & Hl & Hj)]. cbn [fst snd endpts new_session_id ac_conf] in *. apply post_bind.
  eapply post_mono; [apply session_started|]. intros r [a2 [sv2 w2]] [(Hc & Hn) Hr]. cbn [fst snd ac_conf new_session_id] in *.
  apply post_bind, post_on_conf, post_modify. cbn [fst snd]. rewrite Hc. cbn [endpts binds endpt_count bind_locked].
  assert (Hend : same_conf (ac_conf a) (ServerConf (endpts c1) (binds c1) (endpt_count c1) false false)).
  { pose proof (Hun c1 H1) as H. by rewrite Ee1 in H. }
  destruct r as [[p r]|]; [|by apply post_ret]. destruct Hr as [Hp Hst]. destruct (Z.ltb_spec r 1) as [Hr|Hr].
  { apply post_bind, post_on_env. eapply post_mono; [apply post_any|]. intros [] st3 _. apply post_ret. split; [done|]. cbn. unfold not_started. by destruct (r <? 0). }
  eapply post_mono; [apply greeted_ok, (Hst ltac:(lia))|]. intros [t q] st3 (Hc3 & Hn3 & Hq). split; [by rewrite Hc3|]. cbn [fst snd] in *.
  destruct q as [q|]; [|done]. destruct Hq as (-> & -> & Hrun). split; [done|]. split; [done|]. split; [by rewrite Hn3; cbn; rewrite Hn|].
  exists l, j, e. split; [by destruct H1 as (E & _); rewrite <- Hl, E|]. split; [done|]. cbn [new_session_id] in Hrun. by rewrite Hn in Hrun.
Qed.


(** C4: Whom [nc_accept] lets in.  Whatever the result is, the endpoints and their locks are as before.  A session comes with the
    result [NC_MSG_HELLO] only, and no other result: it is a new one, its number is the next one, it is running, and its user was
    vouched for by the transport of one of the endpoints: an SSH client was authenticated as that user, a TLS client
    has a certificate whose chain gives it that name, or no name when memory ran out, and the peer of a UNIX socket is a process of
    that user.  The hello exchange has changed none of this. *)
Theorem accept_vouched timeout ctx (a : accept_srv cert) (sv : ssh_srv key) (w : W) t r a' sv' w' :
  nc_accept (node := node) (envelope := envelope) global_rpc_clb opts clb fuel timeout ctx (a, (sv, w)) = Done ((t, r), (a', (sv', w'))) →
  same_conf (ac_conf a) (ac_conf a') ∧ (t = NC_MSG_HELLO ↔ is_Some r) ∧
  ∀ p, r = Some p → sv_store sv !! p = None ∧ new_session_id a' = (new_session_id a + 1) mod 2 ^ 64 ∧
    ∃ l i e s c, endpts (ac_conf a) = Some l ∧ l !! i = Some e ∧ sv_store sv' !! p = Some (s, c) ∧
      status s = NC_STATUS_RUNNING ∧ id s = u32 (new_session_id a) ∧
      vouched (ep_ti e) (ep_opts e) (default [] (authkeys (sv_keys sv))) (sv_trace sv') (ac_certs a' !! p) s.
Proof.
  intros E. pose proof (nc_accept_post timeout ctx (a, (sv, w))) as G. unfold post in G. rewrite E in G. destruct G as [Hc Hr].
  cbn [fst snd] in *. split; [done|]. destruct r as [p|]; cbn in Hr.
  - destruct Hr as (-> & Hp & Hn & l & i & e & Hl & He & s & c & H). split; [done|]. intros ? [= <-]. split; [done|]. split; [done|].
    exists l, i, e, s, c. by destruct H as (? & ? & ? & ?).
  - split; [|done]. split; [done|]. by intros [].
Qed.
End accept.

(** ** An example

    A server with one endpoint for SSH, and a client that logs in as "bob" with the password and opens the subsystem. *)

#[export] Instance acc_hello : HelloParser acc_world := { lyd_parse_hello t := lift (lyd_parse_hello t) }.
#[export] Instance acc_conn : ConnEnv acc_world := {
  sys_getaddrinfo _ _ w := (None, w);
  conn_start _ _ w := (true, w);
  conn_select _ _ w := (SelReady, w);
  conn_error _ w := (Some false, w);
}.
#[export] Instance acc_users : UserDb acc_world := {
  getuid _ := 1000;
  getpw_size_max := -1;
  getpwuid_r _ _ w := (DbFound bob, w);
}.
#[export] Instance acc_peer : PeerEnv acc_world := λ _ w, (Some 1000, w).
#[export] Instance acc_connect : ConnectEnv acc_world := {
  unix_connect _ _ w := (true, w);
  ssh_new w := (true, w);
  ssh_options_set _ w := w;
  ssh_options_get_host w := (None, w);
  ssh_options_get_port w := (830, w);
  ssh_options_get_user w := (None, w);
  ssh_get_fd w := (5, w);
  ssh_channel_end w := w;
  ssh_disconnect w := w;
  ssh_free w := w;
  SSL_shutdown w := w;
}.
#[export] Instance acc_keys : SshKeys acc_world bytes := {
  ssh_pki_import_pubkey_file f w := (None, w);
  ssh_pki_import_pubkey_base64 b t w := (None, w);
  ssh_key_same k k' := bool_decide (k = k');
}.
#[export] Instance acc_auth : SshAuthEnv acc_world bytes := {
  passwd_auth_clb := Some (λ s pw w, (bool_decide (pw = str "secret"), w));
  pubkey_auth_clb := None;
  interactive_auth_clb := None;
  getpwnam_r u n w := (DbNone, w);
  getspnam_r u n w := (DbNone, w);
  sys_time w := (1000000, w);
  crypt_r p h w := (None, w);
  pam_start u w := (PAM_OTHER, w);
  pam_authenticate u w := (PAM_OTHER, w);
  pam_acct_mgmt u w := (PAM_OTHER, w);
  pam_chauthtok u w := (PAM_OTHER, w);
  ssh_message_get w := (Some (SSH_REQUEST_AUTH (Some bob) (SSH_AUTH_METHOD_PASSWORD (str "secret"))), w);
  ssh_queued_messages w := (Some [SSH_REQUEST_CHANNEL_OPEN true; SSH_REQUEST_CHANNEL_SUBSYSTEM 1 (str "netconf")], w);
  ssh_channel_accept w := (Some 1, w);
  ssh_set_auth_methods m w := w;
  ssh_interactive_request p e w := (true, w);
  ssh_kbdint_nanswers w := (0, w);
  ssh_kbdint_answer i w := ([], w);
}.
#[export] Instance acc_db : AuthDb acc_world bytes.
Proof.
  by refine {| pw_db u := None; sp_db u := None; crypt_of p h := None; time0 := 0; pam_knows u := False; pam_allows u := False;
               key_of a := None |}.
Defined.
#[export] Instance acc_files : TmpFileEnv acc_world := {
  tmp_mkstemp _ w := (None, w);
  tmp_fdopen _ w := (true, w);
  tmp_fwrite _ s w := (zlen s, w);
  tmp_fclose _ w := w;
  tmp_unlink _ w := (true, w);
}.
#[export] Instance acc_bind : SshBindEnv acc_world := {
  hostkey_clb := Some (λ n w, (Some (Some n, None, NC_SSH_KEY_UNKNOWN), w));
  ssh_bind_new w := (true, w);
  ssh_bind_set_hostkey _ w := (true, w);
  ssh_bind_accept_fd _ w := (true, w);
  ssh_handle_key_exchange w := (SSH_OK, w);
}.
#[export] Instance acc_tls_client : TlsCliEnv acc_world demo_cert := {
  SSL_CTX_new w := (true, w);
  SSL_CTX_use_certificate_file _ w := (true, w);
  SSL_CTX_use_PrivateKey_file _ w := (true, w);
  SSL_CTX_load_verify_locations _ _ w := (true, w);
  SSL_CTX_set_host _ w := (true, w);
  cli_X509_STORE_new w := (true, w);
  X509_STORE_add_lookup _ w := (true, w);
  X509_LOOKUP_add_dir _ w := (true, w);
  SSL_new _ w := (true, w);
  SSL_set_fd _ w := w;
  SSL_connect w := (SslFailed, w);
  SSL_verified _ w := (SslFailed, w);
  SSL_free w := w;
  SSL_is_init_finished w := (true, w);
}.

Definition acc_conf_demo : server_conf :=
  ServerConf (Some [NcEndpt (Some (str "ssh")) NC_TI_LIBSSH (Keepalives false 1 10 5)
                      (OptsSsh (SshOpts (Some [CLive (str "/etc/key")]) 1 NC_SSH_AUTH_PASSWORD 3 30))])
    (Some [Some (NcBind (Some (str "::")) 830 7 false)]) 1 false false.

Definition acc_start : accept_srv demo_cert * (ssh_srv bytes * acc_world) :=
  (AcceptSrv acc_conf_demo 7 (RpcNodes true (Some PrivNull) (Some PrivNull)) ∅,
   (SshSrv ∅ (AuthkeysState None 0 false) [],
    (Sim (frame10 (hello_payload (node := bytes) (envelope := bytes) [BASE_1_0; BASE_1_1] None)) [] 0, AccLog None [] []))).

Definition acc_fuel : nat := Z.to_nat 3000.

Definition acc_run : outcome ((NC_MSG_TYPE * option positive) * (accept_srv demo_cert * (ssh_srv bytes * acc_world))) :=
  nc_accept (node := bytes) (envelope := bytes) (crl := list Z) false (Handshake.demo_opts NC_WD_UNKNOWN 0) None acc_fuel 1000
    (Some Handshake.demo_ctx) (acc_start.1, (acc_start.2.1, acc_start.2.2)).

(** The session of the result. *)
Definition acc_session : option nc_session :=
  match acc_run with Done ((_, Some p), (_, (sv, _))) => fst <$> sv_store sv !! p | _ => None end.

Lemma acc_session_run x : acc_run = x →
  acc_session = match x with Done ((_, Some p), (_, (sv, _))) => fst <$> sv_store sv !! p | _ => None end.
Proof. unfold acc_session. intros <-. reflexivity. Qed.

Lemma accept_vouched_witness :
  ∃ p a' sv' w', acc_run = Done ((NC_MSG_HELLO, Some p), (a', (sv', w'))) ∧ new_session_id a' = 8 ∧
    ∃ s c, sv_store sv' !! p = Some (s, c) ∧ id s = 7 ∧ username s = Some bob.
Proof.
  assert (Hs : (λ s, (id s, username s)) <$> acc_session = Some (7, Some bob)) by (vm_compute; reflexivity).
  assert (∃ x, acc_run = x) as [x E] by (eexists; reflexivity). rewrite (acc_session_run x E) in Hs.
  destruct x as [[[t [p|]] [a' [sv' w']]]| |]; try discriminate Hs.
  assert (Hclb : ∀ f (s : tls_session demo_cert) (w : acc_world), (None : verify_clb acc_world demo_cert) = Some f → acc_same w (f s w).2) by (intros; discriminate).
  assert (Hdig : ∀ a (c : demo_cert) d, X509_digest (W := acc_world) (name := bytes) (crl := list Z) a c = Some d → d ≠ []) by (intros a c d [= <-]; discriminate).
  destruct (accept_vouched false (Handshake.demo_opts NC_WD_UNKNOWN 0) None acc_fuel Hclb Hdig 1000 (Some Handshake.demo_ctx) acc_start.1 acc_start.2.1 acc_start.2.2 t (Some p) a' sv' w' E)
    as (_ & Ht & H). destruct (H p eq_refl) as (_ & Hn & l & i & e & s & c & _ & _ & Hl & _ & _ & _).
  exists p, a', sv', w'. rewrite <- (proj2 Ht (mk_is_Some _ _ eq_refl)). split; [exact E|]. clear E. split; [done|]. exists s, c. split; [done|]. rewrite Hl in Hs. cbn in Hs. injection Hs as -> ->. done.
Defined.

