(* ===== verification/ChThread.v ===== *)
(** * The thread of a Call Home client

    src/session_server.c, [nc_ch_client_thread]: it connects an endpoint of the client, gives the session to the application, waits for
    its end, and chooses the endpoint that is tried next, after a session that ended and after an attempt that failed.  The
    client is locked while the thread uses it; other threads may change it, and everything else, between these times. *)

From S2P Require Import Prelude Session Env Time Locks IoRead IoWrite Sim Capabilities PtrArray SshOpts TlsOpts Sockets SocketsProofs Endpoints.
From S2P Require Import Connect CallHome PsQueue PollSession SessionFree UserDb SshAuth SshAuthProofs TlsVerify SshClient ClientConnect SshStart.
From S2P Require Import TlsCliOpts TlsStart TlsVerifyProofs TlsCliProofs SshStartProofs TlsStartProofs Accept AcceptProofs Framing IoTheorems Handshake.
From Stdlib Require Import ZArith Ascii String Lia.
From stdpp Require Import base list strings gmap numbers fin_sets.
Open Scope Z_scope.

(** The local variables: failed attempts on the endpoint ([uint8_t]), its index and
    the copy of its name. *)
Record ch_thread := ChThread {
  cur_attempts : Z;
  cur_endpt : Z;
  cur_endpt_name : option bytes;
}.

(** [(time(NULL) - anchor_time) % (period * 60)], or the whole period without an
    anchor, stored in a [uint32_t]; a period of 0 divides by zero. *)
Definition reconnect_in (p : ch_period) (now : Z) : option Z :=
  if negb (per_anchor_time p =? 0) then
    if per_period p =? 0 then None else Some (Z.rem (now - per_anchor_time p) (per_period p * 60) mod 2 ^ 32)
  else Some (per_period p * 60).

Section thread.
Context {W : Type} `{!Env W} `{!SockEnv W}.

Definition thread_endpt (c : nc_ch_client) (j : Z) : M W nc_ch_endpt :=
  match chc_endpts c with
  | None => crash
  | Some l => match l !! Z.to_nat j with Some e => mret e | None => crash end
  end.

(** The loops over the endpoints: the index of the one with the name, or the number
    of endpoints. *)
Fixpoint find_again (n : nat) (j : Z) (c : nc_ch_client) (name : option bytes) : M W Z :=
  match n with
  | O => mret j
  | S n =>
    e ← thread_endpt c j;
    match che_name e, name with
    | Some s, Some nm => if strcmp_eq s nm then mret j else find_again n (j + 1) c name
    | _, _ => crash
    end
  end.

(** The endpoint [next_endpt_index] becomes the current one. *)
Definition go_to (c : nc_ch_client) (attempts next : Z) : M W ch_thread :=
  e ← thread_endpt c next;
  match che_name e with
  | None => crash
  | Some s => n ← strdup s; mret (ChThread attempts next n)
  end.

Definition thread_start (c : nc_ch_client) : M W ch_thread := go_to c 0 0.

(** The session was established and ended; [rnd] is what [rand] returns. *)
Definition after_session (c : nc_ch_client) (t : ch_thread) (rnd : Z) : M W ch_thread :=
  let n := chc_endpt_count c in
  next ← match chc_start_with c with
         | NC_CH_FIRST_LISTED => mret 0
         | NC_CH_LAST_CONNECTED =>
           j ← find_again (Z.to_nat n) 0 c (cur_endpt_name t);
           mret (if n <=? j then 0 else j)
         | NC_CH_RANDOM => if n =? 0 then crash else mret (rnd mod n)
         end;
  go_to c (cur_attempts t) next.

(** Clearing the pending socket of an endpoint. *)
Definition drop_pending (c : nc_ch_client) (j : Z) : M W nc_ch_client :=
  e ← thread_endpt c j;
  if -1 <? che_sock_pending e then
    _ ← modify (sock_close (che_sock_pending e));
    mret (set_chc_endpts ((λ l, <[Z.to_nat j := set_che_pending (-1) e]> l) <$> chc_endpts c) (chc_endpt_count c) c)
  else mret c.

(** The session was not established. *)
Definition after_failure (c : nc_ch_client) (t : ch_thread) : M W (nc_ch_client * ch_thread) :=
  let n := chc_endpt_count c in
  let attempts := (cur_attempts t + 1) mod 2 ^ 8 in
  j ← find_again (Z.to_nat n) 0 c (cur_endpt_name t);
  if n <=? j then t ← go_to c 0 0; mret (c, t)
  else if attempts =? chc_max_attempts c then
    c ← drop_pending c j;
    t ← go_to c 0 (if j <? n - 1 then j + 1 else 0);
    mret (c, t)
  else t ← go_to c attempts j; mret (c, t).

(** [k] attempts that fail. *)
Fixpoint failures (k : nat) (c : nc_ch_client) (t : ch_thread) : M W (nc_ch_client * ch_thread) :=
  match k with
  | O => mret (c, t)
  | S k => '(c, t) ← after_failure c t; failures k c t
  end.
End thread.

(** ** The whole thread *)

Definition NC_CH_NO_ENDPT_WAIT : Z := 1000.

(** [sleep], [rand], waking up who waits for the session, and [pthread_create] for a client. *)
Class ChEnv (W : Type) := {
  sys_sleep : Z → W → W;
  sys_rand : W → Z * W;
  ch_cond_signal : W → W;
  ch_thread_create : bytes → W → Z * W;
}.

Section whole.
Context {W key cert name crl node envelope : Type} `{!Env W} `{!Printer node envelope} `{!HelloParser W} `{!SockEnv W} `{!ConnEnv W}.
Context `{!UserDb W} `{!PeerEnv W} `{!ConnectEnv W} `{!SshKeys W key} `{!SshAuthEnv W key} `{!TmpFileEnv W} `{!SshBindEnv W}.
Context `{!X509 W cert name crl} `{!TlsCliEnv W cert} `{!TlsSrvEnv W cert name} `{!ChEnv W}.
Context (opts : nc_server_opts) (clb : verify_clb W cert) (fuel : nat).
(** The callbacks of the application, and [CALL_HOME_BACKOFF_WAIT] of the build. *)
Context (acquire_ctx_cb : W → option ly_ctx * W) (release_ctx_cb : W → W) (new_session_cb : option bytes → positive → W → Z * W).
Context (NC_CH_ENDPT_BACKOFF_WAIT : Z).

Abbreviation CS := (ch_conf * (accept_srv cert * (ssh_srv key * W)))%type.
Abbreviation CM := (M CS).

(** What other threads do while this one holds no lock on the clients. *)
Context (others : CS → CS).
Definition meanwhile : CM unit := modify others.

Definition on_ch {A} (m : M (ch_conf * W) A) : CM A := λ st,
  match m (st.1, st.2.2.2) with
  | Done (a, (c, w)) => Done (a, (c, (st.2.1, (st.2.2.1, w))))
  | NoFuel => NoFuel
  | Crash => Crash
  end.
Definition on_world {A} (m : M W A) : CM A := on_env (on_env (on_env m)).
Definition on_ses {A} (p : positive) (m : SM W A) : CM A := on_env (on_env (at_session p m)).

(** The client, locked and with an endpoint, or [None] when there is none of the name. *)
Fixpoint nc_server_ch_client_with_endpt_lock (n : nat) (nm : option bytes) : CM (option Z) :=
  match n with
  | O => no_fuel
  | S n =>
    _ ← meanwhile;
    '(c, _) ← on_ch (nc_server_ch_client_lock nm None NC_TI_NONE);
    match c with
    | None => mret None
    | Some i =>
      c ← on_ch (client_at i);
      if negb (chc_endpt_count c =? 0) then mret (Some i)
      else
        _ ← on_ch (nc_server_ch_client_unlock i);
        _ ← on_world (modify (usleep (NC_CH_NO_ENDPT_WAIT * 1000)));
        nc_server_ch_client_with_endpt_lock n nm
    end
  end.

Definition idle_timeout_of (c : nc_ch_client) : CM Z :=
  match chc_conn_type c, chc_period c with
  | NC_CH_PERIOD, Some p => mret (per_idle_timeout p)
  | NC_CH_PERIOD, None => crash
  | _, _ => mret 0
  end.

(** The loop that waits until the session is not running: 0, or 1 when the client was removed, or -1. *)
Fixpoint session_wait (n : nat) (p : positive) (nm : option bytes) : CM Z :=
  match n with
  | O => no_fuel
  | S n =>
    ts ← on_world (nc_gettimespec_real_add NC_CH_NO_ENDPT_WAIT);
    r ← on_world (call (cond_timedwait L_ch ts));
    _ ← meanwhile;
    s ← on_ses p ses;
    if (r =? 0) && negb (bool_decide (status s = NC_STATUS_RUNNING)) then mret 0
    else if negb (r =? 0) && negb (r =? ETIMEDOUT) then mret (-1)
    else
      '(c, _) ← on_ch (nc_server_ch_client_lock nm None NC_TI_NONE);
      match c with
      | None => mret 1
      | Some i =>
        c ← on_ch (client_at i);
        idle_timeout ← idle_timeout_of c;
        ts ← on_world (nc_gettimespec_mono_add 0);
        s ← on_ses p ses;
        _ ← (if (nc_session_get_notif_status s =? 0) && negb (idle_timeout =? 0) && (last_rpc (server s) + idle_timeout <=? tv_sec ts)
             then
               _ ← on_ses p (upd_ses (set_status NC_STATUS_INVALID));
               on_ses p (upd_ses (set_term_reason NC_SESSION_TERM_TIMEOUT))
             else mret tt);
        _ ← on_ch (nc_server_ch_client_unlock i);
        s ← on_ses p ses;
        if bool_decide (status s = NC_STATUS_RUNNING) then session_wait n p nm else mret 0
      end
  end.

Definition set_ch_flag (p : positive) : CM unit := on_ses p (upd_ses (λ s, set_flags (Z.lor (flags s) NC_SESSION_CH_THREAD) s)).
Definition clear_ch_flag (p : positive) : CM unit := on_ses p (upd_ses (λ s, set_flags (Z.ldiff (flags s) NC_SESSION_CH_THREAD) s)).

Definition nc_server_ch_client_thread_session_cond_wait (n : nat) (p : positive) (nm : option bytes) : CM Z :=
  _ ← on_ses p (envcall (mutex_lock L_ch));
  _ ← set_ch_flag p;
  r ← on_world (call (new_session_cb nm p));
  if negb (r =? 0) then
    _ ← clear_ch_flag p;
    _ ← on_ses p (envcall (mutex_unlock L_ch));
    _ ← on_env (on_env (srv_session_free (cert := cert) fuel p));
    _ ← on_world (modify release_ctx_cb);
    mret 0
  else
    ret ← session_wait n p nm;
    _ ← clear_ch_flag p;
    _ ← on_world (modify ch_cond_signal);
    _ ← on_ses p (envcall (mutex_unlock L_ch));
    mret ret.

(** The client of the thread, again; one that was replaced is unlocked and given up. *)
Definition lock_same (n : nat) (nm : option bytes) (client_id : Z) : CM (option Z) :=
  i ← nc_server_ch_client_with_endpt_lock n nm;
  match i with
  | None => mret None
  | Some i =>
    c ← on_ch (client_at i);
    if chc_id c =? client_id then mret (Some i) else _ ← on_ch (nc_server_ch_client_unlock i); mret None
  end.

Definition try_endpt (i : Z) (t : ch_thread) : CM (NC_MSG_TYPE * option positive) :=
  c ← on_ch (client_at i);
  e ← on_world (thread_endpt c (cur_endpt t));
  '(r, p, e) ← on_env (nc_connect_ch_endpt (node := node) (envelope := envelope) opts clb fuel acquire_ctx_cb release_ctx_cb e);
  _ ← on_ch (put_client i (set_chc_endpts ((λ l, <[Z.to_nat (cur_endpt t) := e]> l) <$> chc_endpts c) (chc_endpt_count c) c));
  mret (r, p).

(** The time until a periodic client is connected again, with the client unlocked. *)
Definition wait_period (n : nat) (nm : option bytes) (client_id i : Z) : CM (option Z) :=
  c ← on_ch (client_at i);
  match chc_conn_type c, chc_period c with
  | NC_CH_PERIOD, Some per =>
    now ← (if negb (per_anchor_time per =? 0) then on_world (call sys_time) else mret 0);
    match reconnect_in per now with
    | None => crash
    | Some secs =>
      _ ← on_ch (nc_server_ch_client_unlock i);
      _ ← on_world (modify (sys_sleep secs));
      lock_same n nm client_id
    end
  | NC_CH_PERIOD, None => crash
  | _, _ => mret (Some i)
  end.

(** A session was established: the locked client and the next endpoint, or the end of the thread. *)
Definition session_ended (n : nat) (nm : option bytes) (client_id i : Z) (t : ch_thread) (p : positive) : CM (option (Z * ch_thread)) :=
  _ ← on_ch (nc_server_ch_client_unlock i);
  r ← nc_server_ch_client_thread_session_cond_wait n p nm;
  if negb (r =? 0) then mret None
  else
    i ← lock_same n nm client_id;
    match i with
    | None => mret None
    | Some i =>
      i ← wait_period n nm client_id i;
      match i with
      | None => mret None
      | Some i =>
        c ← on_ch (client_at i);
        rnd ← (if bool_decide (chc_start_with c = NC_CH_RANDOM) then on_world (call sys_rand) else mret 0);
        t ← on_world (after_session c t rnd);
        mret (Some (i, t))
      end
    end.

(** No session was established. *)
Definition attempt_failed (n : nat) (nm : option bytes) (client_id i : Z) (t : ch_thread) : CM (option (Z * ch_thread)) :=
  _ ← on_ch (nc_server_ch_client_unlock i);
  _ ← on_world (modify (sys_sleep NC_CH_ENDPT_BACKOFF_WAIT));
  i ← lock_same n nm client_id;
  match i with
  | None => mret None
  | Some i =>
    c ← on_ch (client_at i);
    '(c, t) ← on_world (after_failure c t);
    _ ← on_ch (put_client i c);
    mret (Some (i, t))
  end.

Fixpoint thread_loop (n : nat) (nm : option bytes) (client_id i : Z) (t : ch_thread) : CM unit :=
  match n with
  | O => no_fuel
  | S n =>
    '(r, p) ← try_endpt i t;
    next ← (if bool_decide (r = NC_MSG_HELLO)
            then match p with Some p => session_ended n nm client_id i t p | None => crash end
            else attempt_failed n nm client_id i t);
    match next with
    | None => mret tt
    | Some (i, t) => thread_loop n nm client_id i t
    end
  end.

Definition nc_ch_client_thread (n : nat) (nm : option bytes) : CM unit :=
  i ← nc_server_ch_client_with_endpt_lock n nm;
  match i with
  | None => mret tt
  | Some i =>
    c ← on_ch (client_at i);
    t ← on_world (thread_start c);
    thread_loop n nm (chc_id c) i t
  end.
End whole.

(** Whether the callbacks were given. *)
Definition nc_connect_ch_client_dispatch {W} `{!Env W} `{!ChEnv W} (client_name : option bytes) (acquire release new_session : bool) : M W Z :=
  match client_name with
  | None => mret (-1)
  | Some nm =>
    if negb acquire || negb release || negb new_session then mret (-1)
    else
      ok ← call (malloc_ok 40);
      if negb ok then mret (-1)
      else
        n ← strdup nm;
        match n with
        | None => mret (-1)
        | Some n => r ← call (ch_thread_create n); mret (if r =? 0 then 0 else -1)
        end
  end.

(** ** Every endpoint gets its attempts *)

Section rotation.
Context {W : Type} `{!Env W} `{!SockEnv W}.

(** A client as [nc_server_ch_client_add_endpt] keeps it: endpoints with different
    names, and at least one. *)
Definition ch_names (c : nc_ch_client) (names : list bytes) : Prop :=
  ∃ l, chc_endpts c = Some l ∧ chc_endpt_count c = zlen l ∧ map che_name l = map Some names ∧ NoDup names.

(** Copies of the names can be allocated. *)
Definition can_copy (names : list bytes) : Prop :=
  ∀ s (w : W), s ∈ names → ∃ w', strdup s w = Done (Some s, w').

Lemma ret_bind {A B} (a : A) (k : A → M W B) (w : W) : (mret a ≫= k) w = k a w.
Proof. done. Qed.

Lemma done_bind {A B} (m : M W A) (k : A → M W B) (w : W) a w' : m w = Done (a, w') → (m ≫= k) w = k a w'.
Proof. unfold mbind, M_bind. by intros ->. Qed.

Lemma names_at c names j s :
  ch_names c names → names !! j = Some s → ∃ l e, chc_endpts c = Some l ∧ l !! j = Some e ∧ che_name e = Some s.
Proof.
  intros (l & E & _ & Hm & _) Hj. assert (H : map che_name l !! j = Some (Some s)).
  { rewrite Hm. change (map Some names) with (Some <$> names). by rewrite list_lookup_fmap, Hj. }
  change (map che_name l) with (che_name <$> l) in H. apply list_lookup_fmap_Some in H as (e & H1 & H2). eauto 6.
Qed.

Lemma names_count c names : ch_names c names → chc_endpt_count c = zlen names.
Proof.
  intros (l & _ & -> & Hm & _). apply (f_equal length) in Hm. rewrite !length_map in Hm. unfold zlen. lia.
Qed.

Lemma thread_endpt_at c names j s :
  ch_names c names → names !! j = Some s → ∃ e, thread_endpt (W := W) c (Z.of_nat j) = mret e ∧ che_name e = Some s.
Proof.
  intros Hc Hj. destruct (names_at c names j s Hc Hj) as (l & e & E & Hl & Hn). exists e. split; [|done].
  unfold thread_endpt. by rewrite E, Nat2Z.id, Hl.
Qed.

Lemma find_again_at c names j s k (w : W) :
  ch_names c names → names !! j = Some s → (k ≤ j)%nat →
  find_again (length names - k) (Z.of_nat k) c (Some s) w = Done (Z.of_nat j, w).
Proof.
  intros Hc Hj. pose proof (lookup_lt_Some _ _ _ Hj) as Hlt. remember (j - k)%nat as d eqn:Hd. revert k Hd.
  induction d as [|d IH]; intros k Hd Hk.
  - assert (k = j) as -> by lia. destruct (length names - j)%nat eqn:E; [lia|]. cbn [find_again].
    destruct (thread_endpt_at c names j s Hc Hj) as (e & -> & Hn). rewrite ret_bind, Hn. unfold strcmp_eq. by rewrite bool_decide_true.
  - destruct (length names - k)%nat as [|n] eqn:E; [lia|]. cbn [find_again].
    destruct (lookup_lt_is_Some_2 names k) as [s' Hs']; [lia|].
    destruct (thread_endpt_at c names k s' Hc Hs') as (e & -> & Hn). rewrite ret_bind, Hn. unfold strcmp_eq.
    rewrite bool_decide_false.
    2: { intros ->. destruct Hc as (l & _ & _ & _ & Hnd). pose proof (NoDup_lookup _ _ _ _ Hnd Hj Hs'). lia. }
    replace n with (length names - S k)%nat by lia. replace (Z.of_nat k + 1) with (Z.of_nat (S k)) by lia. apply IH; lia.
Qed.

Lemma go_to_at c names a j s (w : W) :
  ch_names c names → can_copy names → names !! j = Some s →
  ∃ w', go_to c a (Z.of_nat j) w = Done (ChThread a (Z.of_nat j) (Some s), w').
Proof.
  intros Hc Ha Hj. destruct (thread_endpt_at c names j s Hc Hj) as (e & E & Hn).
  destruct (Ha s w) as [w' Hw]; [by eapply list_elem_of_lookup_2|]. exists w'. unfold go_to. rewrite E. rewrite ret_bind, Hn.
  unfold mbind, M_bind. by rewrite Hw.
Qed.
(** The pending socket of an endpoint does not matter here. *)
Lemma drop_pending_ok c names j (w : W) :
  ch_names c names → (j < length names)%nat →
  ∃ c' w', drop_pending c (Z.of_nat j) w = Done (c', w') ∧ ch_names c' names ∧ chc_max_attempts c' = chc_max_attempts c.
Proof.
  intros Hc Hlt. destruct (lookup_lt_is_Some_2 names j Hlt) as [s Hs].
  destruct (names_at c names j s Hc Hs) as (l & e & E & Hl & Hn). unfold drop_pending, thread_endpt.
  rewrite E, Nat2Z.id, Hl, ret_bind. destruct (_ <? _); [|by exists c, w].
  eexists _, _. split; [reflexivity|]. split; [|done]. destruct Hc as (l' & E' & Hcnt & Hm & Hnd). assert (l' = l) as -> by congruence.
  exists (<[j:=set_che_pending (-1) e]> l). split_and!; try done.
  - unfold zlen in *. cbn [chc_endpt_count set_chc_endpts]. by rewrite length_insert.
  - rewrite <- Hm. change (map che_name) with (fmap (M := list) che_name). rewrite list_fmap_insert.
    apply list_insert_id. by rewrite list_lookup_fmap, Hl.
Qed.

Lemma after_failure_step c names j s a (w : W) :
  ch_names c names → can_copy names → names !! j = Some s → 0 ≤ a < chc_max_attempts c → chc_max_attempts c < 2 ^ 8 →
  ∃ c' w' s', let a' := if a + 1 =? chc_max_attempts c then 0 else a + 1 in
    let j' := if a + 1 =? chc_max_attempts c then (S j mod length names)%nat else j in
    after_failure c (ChThread a (Z.of_nat j) (Some s)) w = Done ((c', ChThread a' (Z.of_nat j') (Some s')), w') ∧
    names !! j' = Some s' ∧ ch_names c' names ∧ chc_max_attempts c' = chc_max_attempts c.
Proof.
  intros Hc Ha Hj Hr Hm. pose proof (lookup_lt_Some _ _ _ Hj) as Hlt.
  unfold after_failure. cbn [cur_attempts cur_endpt_name]. rewrite Z.mod_small by lia. rewrite (names_count c names Hc).
  replace (Z.to_nat (zlen names)) with (length names - 0)%nat by (unfold zlen; lia).
  rewrite (done_bind _ _ w _ _ (find_again_at c names j s 0 w Hc Hj (Nat.le_0_l j))). rewrite (proj2 (Z.leb_gt _ _)) by (unfold zlen; lia).
  destruct (a + 1 =? chc_max_attempts c).
  - destruct (drop_pending_ok c names j w Hc Hlt) as (c' & w' & E & Hc' & Hm'). rewrite (done_bind _ _ _ _ _ E).
    assert (Hj' : (if Z.of_nat j <? zlen names - 1 then Z.of_nat j + 1 else 0) = Z.of_nat (S j mod length names)).
    { unfold zlen. destruct (Z.ltb_spec (Z.of_nat j) (Z.of_nat (length names) - 1)).
      - rewrite Nat.mod_small; lia.
      - assert (S j = length names) as -> by lia. by rewrite Nat.Div0.mod_same. }
    rewrite Hj'. destruct (lookup_lt_is_Some_2 names (S j mod length names)) as [s' Hs']; [apply Nat.mod_upper_bound; lia|].
    destruct (go_to_at c' names 0 _ s' w' Hc' Ha Hs') as [w2 E2]. exists c', w2, s'. by rewrite (done_bind _ _ _ _ _ E2).
  - destruct (go_to_at c names (a + 1) j s w Hc Ha Hj) as [w2 E2]. exists c, w2, s. by rewrite (done_bind _ _ _ _ _ E2).
Qed.

(** The counters after one more failure. *)
Lemma rotate_S (k m n : nat) : (0 < m)%nat → (0 < n)%nat →
  (if (k mod m + 1 =? m)%nat then 0 else k mod m + 1)%nat = (S k mod m)%nat ∧
  (if (k mod m + 1 =? m)%nat then S ((k / m) mod n) mod n else (k / m) mod n)%nat = ((S k / m) mod n)%nat.
Proof.
  intros Hm Hn. pose proof (Nat.div_mod_eq k m) as Hk. pose proof (Nat.mod_upper_bound k m). destruct (Nat.eqb_spec (k mod m + 1) m).
  - assert (S k = (k / m + 1) * m)%nat as -> by nia. rewrite Nat.Div0.mod_mul, Nat.div_mul by lia. split; [done|].
    rewrite <- Nat.add_1_l, Nat.Div0.add_mod_idemp_r. f_equal. lia.
  - assert (S k = (k mod m + 1) + (k / m) * m)%nat as -> by (rewrite (Nat.mul_comm (k / m)); lia).
    rewrite Nat.Div0.mod_add, Nat.div_add, (Nat.mod_small (k mod m + 1)), (Nat.div_small (k mod m + 1)) by lia. done.
Qed.

Lemma failures_rotate names (m : nat) k : ∀ i c s (w : W),
  ch_names c names → can_copy names → chc_max_attempts c = Z.of_nat m → (0 < m < 256)%nat →
  names !! ((i / m) mod length names)%nat = Some s →
  ∃ c' w' s', failures k c (ChThread (Z.of_nat (i mod m)) (Z.of_nat ((i / m) mod length names)) (Some s)) w =
    Done ((c', ChThread (Z.of_nat ((k + i) mod m)) (Z.of_nat (((k + i) / m) mod length names)) (Some s')), w') ∧
    names !! (((k + i) / m) mod length names)%nat = Some s' ∧ ch_names c' names.
Proof.
  induction k as [|k IH]; intros i c s w Hc Ha Hm Hb Hs; [by exists c, w, s|].
  pose proof (lookup_lt_Some _ _ _ Hs) as Hlt. pose proof (Nat.mod_upper_bound i m).
  destruct (after_failure_step c names _ s (Z.of_nat (i mod m)) w Hc Ha Hs) as (c1 & w1 & s1 & E & Hs1 & Hc1 & Hm1); [lia..|].
  destruct (rotate_S i m (length names)) as [R1 R2]; [lia..|].
  assert (Eb : (Z.of_nat (i mod m) + 1 =? chc_max_attempts c) = (i mod m + 1 =? m)%nat)
    by (destruct (Nat.eqb_spec (i mod m + 1) m); lia).
  rewrite Eb, R2 in *. assert (Ez : (if (i mod m + 1 =? m)%nat then 0 else Z.of_nat (i mod m) + 1) = Z.of_nat (S i mod m))
    by (rewrite <- R1; destruct (_ =? _)%nat; lia).
  rewrite Ez in E. cbn [failures]. rewrite (done_bind _ _ _ _ _ E).
  destruct (IH (S i) c1 s1 w1) as (c2 & w2 & s2 & E2 & H2); [done|done|congruence|done|done|].
  replace (S k + i)%nat with (k + S i)%nat by lia. eauto.
Qed.

Lemma bind_inv {A B} (m : M W A) (k : A → M W B) (w : W) b w' :
  (m ≫= k) w = Done (b, w') → ∃ a w1, m w = Done (a, w1) ∧ k a w1 = Done (b, w').
Proof. unfold mbind, M_bind. destruct (m w) as [[a w1]| |]; [eauto|done..]. Qed.

Lemma go_to_attempts c a j (w : W) t w' : go_to c a j w = Done (t, w') → cur_attempts t = a.
Proof.
  intros (e & w1 & _ & H)%bind_inv. destruct (che_name e); [|done]. apply bind_inv in H as (n & w2 & _ & H).
  unfold mret, M_ret in H. by simplify_eq.
Qed.
End rotation.

(** C37: A Call Home thread whose attempts fail tries every endpoint of the client in
    turn, each one [max_attempts] times: after [k] failures the current endpoint is
    number [k / max_attempts], counted round the endpoints, with [k mod max_attempts]
    failures so far. *)
Theorem ch_rotates {W} `{!Env W} `{!SockEnv W} c names (m k : nat) (w : W) :
  ch_names c names → names ≠ [] → can_copy (W := W) names → chc_max_attempts c = Z.of_nat m → (0 < m < 256)%nat →
  ∃ c' w' s, (t ← thread_start c; failures k c t) w =
    Done ((c', ChThread (Z.of_nat (k mod m)) (Z.of_nat ((k / m) mod length names)) (Some s)), w') ∧
    names !! ((k / m) mod length names)%nat = Some s ∧ ch_names c' names.
Proof.
  intros Hc Hne Ha Hm Hb. assert (H0 : names !! 0%nat = Some (default [] (names !! 0%nat))) by (by destruct names).
  destruct (go_to_at c names 0 0 _ w Hc Ha H0) as [w1 E]. rewrite (done_bind _ _ _ _ _ E). pose proof (failures_rotate names m k 0 c (default [] (names !! 0%nat)) w1 Hc Ha Hm Hb) as HF.
  rewrite Nat.Div0.mod_0_l, Nat.Div0.div_0_l, Nat.Div0.mod_0_l, Nat.add_0_r in HF. by apply HF.
Qed.

Definition demo_ch_endpt (name : bytes) : nc_ch_endpt :=
  NcChEndpt (Some name) NC_TI_LIBSSH None 4334 (-1) (Keepalives false 1 10 5) OptsNull.

Definition demo_ch_client : nc_ch_client :=
  NcChClient (Some (str "boss")) (Some [demo_ch_endpt (str "a"); demo_ch_endpt (str "b")]) 2 NC_CH_PERSIST None
    NC_CH_FIRST_LISTED 3 0 true.

Lemma ch_rotates_witness : ∃ c' w' s, (t ← thread_start demo_ch_client; failures 7 demo_ch_client t) (Net (Sim [] [] 0) ∅ []) =
    Done ((c', ChThread 1 0 (Some s)), w') ∧ [str "a"; str "b"] !! 0%nat = Some s ∧ ch_names c' [str "a"; str "b"].
Proof.
  apply (ch_rotates demo_ch_client [str "a"; str "b"] 3 7 (Net (Sim [] [] 0) ∅ [])); [|done| |done|lia].
  - eexists. split; [reflexivity|]. split_and!; [done..|]. by apply (bool_decide_unpack _).
  - intros s w Hs. apply elem_of_cons in Hs as [->|Hs]; [by eexists|]. apply list_elem_of_singleton in Hs as ->. by eexists.
Defined.

(** The attempts counted before a session are not forgotten by it: when an endpoint
    connected after [a] failed attempts, it gets only [max_attempts - a] of them the
    next time before the thread gives it up. *)
Theorem ch_attempts_kept {W} `{!Env W} `{!SockEnv W} c t rnd (w : W) t' w' :
  after_session c t rnd w = Done (t', w') → cur_attempts t' = cur_attempts t.
Proof.
  intros (next & w1 & _ & H)%bind_inv. by eapply go_to_attempts.
Qed.

Lemma ch_attempts_kept_witness : ∃ t', cur_attempts t' = 2.
Proof.
  eexists. apply (ch_attempts_kept (W := net) demo_ch_client (ChThread 2 1 (Some (str "b"))) 0 (Net (Sim [] [] 0) ∅ [])
    (ChThread 2 0 (Some (str "a"))) (Net (Sim [] [] 0) ∅ [])). reflexivity.
Defined.

(** ** The locks of a thread *)

(** No client is locked, and the array of clients is not. *)
Definition unlocked (c : ch_conf) : Prop :=
  ch_readers c = 0%nat ∧ ch_writer c = false ∧ ∀ l, ch_clients c = Some l → Forall (λ x, chc_locked x = false) l.

(** The thread has the array and the client [i], whatever this client says, and nothing else. *)
Definition held (i : Z) (c : ch_conf) : Prop :=
  ch_readers c = 1%nat ∧ ch_writer c = false ∧ ∃ l x, ch_clients c = Some l ∧ l !! Z.to_nat i = Some x ∧
    Forall (λ x, chc_locked x = false) (<[Z.to_nat i := set_chc_locked false x]> l).

Section ch_locks.
Context {W : Type} `{!Env W} `{!SockEnv W}.

Lemma client_at_post i c (w : W) :
  post (client_at i) (λ x s, s = (c, w) ∧ ∃ l, ch_clients c = Some l ∧ l !! Z.to_nat i = Some x) (c, w).
Proof.
  apply post_bind, post_gets. cbn [fst]. destruct (ch_clients c) as [l|] eqn:E; [|done].
  destruct (l !! _) as [x|] eqn:El; [|done]. split; [done|]. eauto.
Qed.

Lemma find_client_post n : ∀ i nm c (w : W), post (find_client n i nm) (λ _ s, s = (c, w)) (c, w).
Proof.
  induction n as [|n IH]; intros i nm c w; [done|]. cbn [find_client]. apply post_bind.
  eapply post_mono; [apply client_at_post|]. intros x s [-> _]. destruct (chc_name x); [|done]. destruct (strcmp_eq _ _); [done|apply IH].
Qed.

Lemma ch_lock_post nm c (w : W) :
  unlocked c → post (nc_server_ch_client_lock nm None NC_TI_NONE)
    (λ r s, match r.1 with None => unlocked s.1 | Some i => held i s.1 end) (c, w).
Proof.
  intros (Hr & Hw & Hl). destruct nm as [nm|]; [|done]. cbn [nc_server_ch_client_lock].
  apply post_bind, post_bind, post_gets. cbn [fst]. rewrite Hw. apply post_modify. cbn [fst snd].
  apply post_bind, post_gets, post_bind. eapply post_mono; [apply find_client_post|]. intros [i|] s ->.
  2:{ apply post_bind, post_modify. split_and!; cbn; [by rewrite Hr|done|done]. }
  apply post_bind. eapply post_mono; [apply client_at_post|]. intros x s (-> & l & E & Ex). cbn [ch_clients] in E.
  rewrite !bool_decide_true by done. cbn [negb andb]. apply post_bind, post_ret. cbn [negb andb]. apply post_bind, post_bind. eapply post_mono; [apply client_at_post|].
  intros x' s (-> & l' & E' & Ex'). cbn [ch_clients] in E'. destruct (chc_locked x'); [done|].
  apply post_bind, post_gets, post_modify. split_and!; cbn; [by rewrite Hr|done|].
  exists (<[Z.to_nat i := set_chc_locked true x']> l'), (set_chc_locked true x'). split; [by rewrite E'|].
  split; [by apply list_lookup_insert_eq, (lookup_lt_Some _ _ x')|]. rewrite list_insert_insert_eq. by apply Forall_insert; [apply Hl|].
Qed.

Lemma ch_unlock_post i c (w : W) : held i c → post (nc_server_ch_client_unlock i) (λ _ s, unlocked s.1) (c, w).
Proof.
  intros (Hr & Hw & l & x & E & Ex & Hl). apply post_bind, post_bind. eapply post_mono; [apply client_at_post|].
  intros x' s (-> & l' & E' & Ex'). simplify_eq. apply post_bind, post_gets, post_modify, post_modify. split_and!; cbn; [by rewrite Hr|done|].
  rewrite E. intros ? [= <-]. done.
Qed.

Lemma put_client_post i x c (w : W) : held i c → post (put_client i x) (λ _ s, held i s.1) (c, w).
Proof.
  intros (Hr & Hw & l & x' & E & Ex & Hl). apply post_bind, post_gets, post_modify. split_and!; cbn; [done..|]. rewrite E.
  exists (<[Z.to_nat i := x]> l), x. split; [done|]. split; [by apply list_lookup_insert_eq, (lookup_lt_Some _ _ x')|].
  rewrite list_insert_insert_eq. rewrite <- (list_insert_insert_eq l _ _ (set_chc_locked false x')). by apply Forall_insert.
Qed.
End ch_locks.

Section ch_thread_locks.
Context {W key cert name crl node envelope : Type} `{!Env W} `{!Printer node envelope} `{!HelloParser W} `{!SockEnv W} `{!ConnEnv W}.
Context `{!UserDb W} `{!PeerEnv W} `{!ConnectEnv W} `{!SshKeys W key} `{!SshAuthEnv W key} `{!TmpFileEnv W} `{!SshBindEnv W}.
Context `{!X509 W cert name crl} `{!TlsCliEnv W cert} `{!TlsSrvEnv W cert name} `{!ChEnv W}.
Context (opts : nc_server_opts) (clb : verify_clb W cert) (fuel : nat).
Context (acquire : W → option ly_ctx * W) (release : W → W) (new_session : option bytes → positive → W → Z * W) (backoff : Z).

Abbreviation CS := (ch_conf * (accept_srv cert * (ssh_srv key * W)))%type.

(** Other threads release the locks they take, if they can take them. *)
Context (others : CS → CS) (Hothers : ∀ st, unlocked st.1 → unlocked (others st).1).

Lemma post_keeps {S A} (P : S → Prop) (m : M (accept_srv cert * (ssh_srv key * W)) A) (st : S * _) :
  P st.1 → post (on_env m) (λ _ s, P s.1) st.
Proof. intros H. destruct st as [c x]. apply post_on_env. eapply post_mono; [apply post_any|]. done. Qed.

Lemma post_on_ch {A} (m : M (ch_conf * W) A) (Q : A → ch_conf → Prop) (st : CS) :
  (∀ w, post m (λ a s, Q a s.1) (st.1, w)) → post (on_ch m) (λ a s, Q a s.1) st.
Proof.
  intros H. specialize (H st.2.2.2). unfold post, on_ch in *. by destruct (m _) as [[a [c w]]| |].
Qed.

Lemma on_ch_client_at i (st : CS) (P : ch_conf → Prop) : P st.1 → post (on_ch (client_at i)) (λ _ s, P s.1) st.
Proof.
  intros H. apply (post_on_ch _ (λ _ c, P c)). intros w. eapply post_mono; [apply client_at_post|]. by intros x s [-> _].
Qed.

Lemma on_ch_lock nm (st : CS) :
  unlocked st.1 → post (on_ch (nc_server_ch_client_lock nm None NC_TI_NONE))
    (λ r s, match r.1 with None => unlocked s.1 | Some i => held i s.1 end) st.
Proof. intros H. apply (post_on_ch _ (λ r c, match r.1 with None => unlocked c | Some i => held i c end)). intros w. by apply ch_lock_post. Qed.

Lemma on_ch_unlock i (st : CS) : held i st.1 → post (on_ch (nc_server_ch_client_unlock i)) (λ _ s, unlocked s.1) st.
Proof. intros H. apply (post_on_ch _ (λ _, unlocked)). intros w. by apply ch_unlock_post. Qed.

Lemma on_ch_put i x (st : CS) : held i st.1 → post (on_ch (put_client i x)) (λ _ s, held i s.1) st.
Proof. intros H. apply (post_on_ch _ (λ _, held i)). intros w. by apply put_client_post. Qed.

(** The thread has the client, or nothing. *)
Definition held_or_none (i : option Z) (st : CS) : Prop := match i with Some i => held i st.1 | None => unlocked st.1 end.

Ltac next := apply post_bind; eapply post_mono; [|intros ? ? ?; cbv beta in *].

Lemma with_endpt_lock_post n nm : ∀ st, unlocked st.1 → post (nc_server_ch_client_with_endpt_lock others n nm) held_or_none st.
Proof.
  induction n as [|n IH]; intros st H; [done|]. cbn [nc_server_ch_client_with_endpt_lock]. apply post_bind, post_modify.
  next; [by apply on_ch_lock, Hothers|]. destruct a as [[i|] j]; cbn in *; [|done].
  next; [by apply (on_ch_client_at _ _ (held i))|]. destruct (negb _); [done|].
  next; [by apply on_ch_unlock|]. next; [by apply (post_keeps unlocked)|]. by apply IH.
Qed.

Lemma lock_same_post n nm id st : unlocked st.1 → post (lock_same others n nm id) held_or_none st.
Proof.
  intros H. unfold lock_same. next; [by apply with_endpt_lock_post|]. destruct a as [i|]; [|done]. cbn in *.
  next; [by apply (on_ch_client_at _ _ (held i))|]. destruct (_ =? _); [done|]. next; [by apply on_ch_unlock|]. done.
Qed.

Lemma session_wait_post n p nm : ∀ st, unlocked st.1 → post (session_wait others n p nm) (λ _ s, unlocked s.1) st.
Proof.
  induction n as [|n IH]; intros st H; [done|]. cbn [session_wait].
  next; [by apply (post_keeps unlocked)|]. next; [by apply (post_keeps unlocked)|]. apply post_bind, post_modify.
  next; [by apply (post_keeps unlocked), Hothers|]. destruct (_ && _); [done|]. destruct (_ && _); [done|].
  next; [by apply on_ch_lock|]. destruct a2 as [[i|] j]; cbn in *; [|done].
  next; [by apply (on_ch_client_at _ _ (held i))|]. next.
  { instantiate (1 := λ _ s, held i s.1). unfold idle_timeout_of. destruct (chc_conn_type _); [done..|]. by destruct (chc_period _). }
  do 2 (next; [by apply (post_keeps (held i))|]). next.
  { instantiate (1 := λ _ s, held i s.1). destruct (_ && _); [|done]. next; by apply (post_keeps (held i)). }
  next; [by apply on_ch_unlock|]. next; [by apply (post_keeps unlocked)|]. destruct (bool_decide _); [by apply IH|done].
Qed.

Lemma cond_wait_post n p nm st :
  unlocked st.1 → post (nc_server_ch_client_thread_session_cond_wait fuel release new_session others n p nm) (λ _ s, unlocked s.1) st.
Proof.
  intros H. unfold nc_server_ch_client_thread_session_cond_wait. do 3 (next; [by apply (post_keeps unlocked)|]). destruct (negb _).
  - do 4 (next; [by apply (post_keeps unlocked)|]). done.
  - next; [by apply session_wait_post|]. do 3 (next; [by apply (post_keeps unlocked)|]). done.
Qed.

Definition next_or_end (r : option (Z * ch_thread)) (st : CS) : Prop := held_or_none (fst <$> r) st.

Lemma session_ended_post n nm id i t p st :
  held i st.1 → post (session_ended fuel release new_session others n nm id i t p) next_or_end st.
Proof.
  intros H. unfold session_ended. next; [by apply on_ch_unlock|]. next; [by apply cond_wait_post|]. destruct (negb _); [done|].
  next; [by apply lock_same_post|]. destruct a1 as [i'|]; [|done]. cbn in *. next.
  { instantiate (1 := held_or_none). unfold wait_period. next; [by apply (on_ch_client_at _ _ (held i'))|].
    destruct (chc_conn_type _); try done. destruct (chc_period _) as [per|]; [|done]. next.
    { instantiate (1 := λ _ s, held i' s.1). destruct (negb _); [by apply (post_keeps (held i'))|done]. }
    destruct (reconnect_in _ _); [|done]. next; [by apply on_ch_unlock|]. next; [by apply (post_keeps unlocked)|]. by apply lock_same_post. }
  destruct a1 as [i2|]; [|done]. cbn in *. next; [by apply (on_ch_client_at _ _ (held i2))|]. next.
  { instantiate (1 := λ _ s, held i2 s.1). destruct (bool_decide _); [by apply (post_keeps (held i2))|done]. }
  next; [by apply (post_keeps (held i2))|]. done.
Qed.

Lemma attempt_failed_post n nm id i t st : held i st.1 → post (attempt_failed backoff others n nm id i t) next_or_end st.
Proof.
  intros H. unfold attempt_failed. next; [by apply on_ch_unlock|]. next; [by apply (post_keeps unlocked)|].
  next; [by apply lock_same_post|]. destruct a1 as [i'|]; [|done]. cbn in *. next; [by apply (on_ch_client_at _ _ (held i'))|].
  next; [by apply (post_keeps (held i'))|]. destruct a2 as [c t']. next; [by apply on_ch_put|]. done.
Qed.

Lemma try_endpt_post i t st :
  held i st.1 → post (try_endpt (node := node) (envelope := envelope) opts clb fuel acquire release i t) (λ _ s, held i s.1) st.
Proof.
  intros H. unfold try_endpt. next; [by apply (on_ch_client_at _ _ (held i))|]. do 2 (next; [by apply (post_keeps (held i))|]).
  destruct a1 as [[r p] e]. next; [by apply on_ch_put|]. done.
Qed.

Lemma thread_loop_post n nm id : ∀ i t st, held i st.1 →
  post (thread_loop (node := node) (envelope := envelope) opts clb fuel acquire release new_session backoff others n nm id i t) (λ _ s, unlocked s.1) st.
Proof.
  induction n as [|n IH]; intros i t st H; [done|]. cbn [thread_loop]. next; [by apply try_endpt_post|]. destruct a as [r p]. next.
  { instantiate (1 := next_or_end). destruct (bool_decide _); [|by apply attempt_failed_post]. destruct p; [|done]. by apply session_ended_post. }
  destruct a as [[i' t']|]; [|done]. by apply IH.
Qed.

End ch_thread_locks.

(** ** The end of a session *)

Section watched.
Context {W key cert name crl : Type} `{!Env W} `{!SockEnv W} `{!ConnectEnv W} `{!SshKeys W key} `{!SshAuthEnv W key}.
Context `{!TlsCliEnv W cert} `{!ChEnv W}.
Context (fuel : nat) (release : W → W) (new_session : option bytes → positive → W → Z * W).

Abbreviation CS := (ch_conf * (accept_srv cert * (ssh_srv key * W)))%type.
Context (others : CS → CS).

Definition session_at (p : positive) (P : nc_session → Prop) (st : CS) : Prop :=
  ∃ s c, sv_store st.2.2.1 !! p = Some (s, c) ∧ P s.

Lemma on_ses_post {A} p (m : SM W A) (P : A → nc_session → Prop) (st : CS) :
  (∀ s c w, sv_store st.2.2.1 !! p = Some (s, c) → post m (λ a x, P a x.1) (s, w)) →
  post (on_ses p m) (λ a st', session_at p (P a) st') st.
Proof.
  intros H. destruct st as [ch [a [sv w]]]. apply post_on_env, post_on_env. unfold post, at_session. cbn [fst snd] in *.
  destruct (sv_store sv !! p) as [[s c]|] eqn:E; [|done]. specialize (H s c w eq_refl). unfold post in H.
  destruct (m (s, w)) as [[x [s' w']]| |]; [|done..]. exists s', c. cbn. by rewrite lookup_insert_eq.
Qed.

Lemma on_world_session {A} p P (m : M W A) (st : CS) : session_at p P st → post (on_world m) (λ _ st', session_at p P st') st.
Proof.
  intros H. destruct st as [ch [a [sv w]]]. apply post_on_env, post_on_env, post_on_env. eapply post_mono; [apply post_any|]. done.
Qed.

Lemma on_ch_session {A} p P (m : M (ch_conf * W) A) (st : CS) : session_at p P st → post (on_ch m) (λ _ st', session_at p P st') st.
Proof. intros H. unfold post, on_ch. by destruct (m _) as [[a [c w]]| |]. Qed.

Lemma on_world_call {A} (f : W → A * W) (P : A → Prop) (st : CS) : (∀ w, P (f w).1) → post (on_world (call f)) (λ a _, P a) st.
Proof. intros H. destruct st as [ch [a [sv w]]]. apply post_on_env, post_on_env, post_on_env, post_call, H. Qed.

Definition not_running (s : nc_session) : Prop := status s ≠ NC_STATUS_RUNNING.

Ltac next := apply post_bind; eapply post_mono; [apply post_any|intros ? ? _].

Lemma session_wait_ends n p nm : ∀ st, post (session_wait others n p nm) (λ r st', r = 0 → session_at p not_running st') st.
Proof.
  induction n as [|n IH]; intros st; [done|]. cbn [session_wait]. do 3 next. apply post_bind.
  eapply post_mono; [apply (on_ses_post _ _ (λ a s, a = s)); done|]. intros s st1 Hs. destruct (_ && _) eqn:E.
  { intros _. destruct Hs as (sx & c & Es & <-). exists s, c. split; [done|]. apply andb_true_iff in E as [_ E].
    apply negb_true_iff, bool_decide_eq_false in E. exact E. }
  clear Hs E. destruct (negb _ && negb _); [apply post_ret; discriminate|]. next.
  destruct a2 as [[i|] j]; [|apply post_ret; discriminate]. do 6 next. apply post_bind.
  eapply post_mono; [apply (on_ses_post _ _ (λ a s, a = s)); done|]. intros s2 st2 (sx & c & Es & <-).
  destruct (bool_decide _) eqn:E2; [apply IH|]. intros _. exists s2, c. split; [done|]. by apply bool_decide_eq_false in E2.
Qed.

Lemma ldiff_land x y : Z.land (Z.ldiff x y) y = 0.
Proof. apply Z.bits_inj'. intros n Hn. rewrite Z.land_spec, Z.ldiff_spec, Z.bits_0. by destruct (Z.testbit x n), (Z.testbit y n). Qed.

(** The Call Home thread goes on to the next connection only when its session is not running any more, and nobody who frees the session has
    to wait for the thread then.  The application took the session. *)
Theorem ch_session_watched n p nm (st : CS) :
  (∀ nm p w, (new_session nm p w).1 = 0) →
  post (nc_server_ch_client_thread_session_cond_wait fuel release new_session others n p nm)
    (λ r, session_at p (λ s, (r = 0 → status s ≠ NC_STATUS_RUNNING) ∧ Z.land (flags s) NC_SESSION_CH_THREAD = 0)) st.
Proof.
  intros Hn. unfold nc_server_ch_client_thread_session_cond_wait. do 2 next. apply post_bind.
  eapply post_mono; [apply (on_world_call _ (λ r, r = 0)), Hn|]. intros r st1 ->. cbn [Z.eqb negb]. apply post_bind.
  eapply post_mono; [apply session_wait_ends|]. intros r st2 Hr. apply post_bind. eapply post_mono.
  { apply (on_ses_post _ _ (λ _ s, (r = 0 → status s ≠ NC_STATUS_RUNNING) ∧ Z.land (flags s) NC_SESSION_CH_THREAD = 0)).
    intros s c w Es. apply post_modify. cbn. split; [|apply ldiff_land]. intros H0. destruct (Hr H0) as (s2 & c2 & E2 & Hs2).
    rewrite Es in E2. by injection E2 as <- <-. }
  intros ? st3 H3. apply post_bind. eapply post_mono; [apply (on_world_session _ _ _ _ H3)|]. intros ? st4 H4. apply post_bind.
  eapply post_mono.
  { apply (on_ses_post _ _ (λ _ s, (r = 0 → status s ≠ NC_STATUS_RUNNING) ∧ Z.land (flags s) NC_SESSION_CH_THREAD = 0)).
    intros s c w Es. destruct H4 as (s2 & c2 & E2 & Hs2). rewrite Es in E2. injection E2 as <- <-.
    unfold post, envcall. cbn. by destruct (mutex_unlock _ _). }
  intros z st5 H5. exact H5.
Qed.
End watched.

(** A client that cannot be reached and is deleted while the thread sleeps after its first attempt. *)
#[export] Instance acc_ch : ChEnv acc_world := {
  sys_sleep n w := (tick n w.1, w.2);
  sys_rand w := (4, w);
  ch_cond_signal w := w;
  ch_thread_create _ w := (0, w);
}.

Definition demo_deleted (st : ch_conf * (accept_srv demo_cert * (ssh_srv bytes * acc_world))) :=
  if 1 <? sim_now st.2.2.2.1 then (ChConf None 0 1 (ch_readers st.1) (ch_writer st.1), st.2) else st.

Definition demo_thread_start : ch_conf * (accept_srv demo_cert * (ssh_srv bytes * acc_world)) :=
  (ChConf (Some [set_chc_locked false demo_ch_client]) 1 1 0 false, acc_start).

Definition demo_thread_run : outcome (unit * (ch_conf * (accept_srv demo_cert * (ssh_srv bytes * acc_world)))) :=
  nc_ch_client_thread (node := bytes) (envelope := bytes) (crl := list Z) (Handshake.demo_opts NC_WD_UNKNOWN 0) None acc_fuel
    (λ w, (Some Handshake.demo_ctx, w)) (λ w, w) (λ _ _ w, (0, w)) 2 demo_deleted 9 (Some (str "boss")) demo_thread_start.

Lemma demo_thread_clients x : demo_thread_run = x →
  match demo_thread_run with Done (_, st) => ch_clients st.1 = None | _ => False end →
  match x with Done (_, st) => ch_clients st.1 = None | _ => False end.
Proof. intros <- H. exact H. Qed.

