(* ===== verification/AcceptChannel.v ===== *)
(** * Accepting further channels

    src/session_server_ssh.c: a client with a NETCONF session opens more channels of its SSH session, and the server starts the sessions
    on them ([nc_session_accept_ssh_channel], [nc_ps_accept_ssh_channel]).  They wait in the ring of sessions (SshAuth.v). *)

From S2P Require Import Prelude Session Env Time Locks IoRead IoWrite Capabilities PsQueue PollSession SessionFree FreeProofs SshAuth SshAuthProofs.
From S2P Require Import Sim Framing IoTheorems Handshake Accept AcceptProofs.
From Stdlib Require Import ZArith Ascii String Lia.
From stdpp Require Import base list strings gmap numbers.
Open Scope Z_scope.

Section channels.
Context {W node envelope : Type} `{!Env W} `{!Printer node envelope} `{!HelloParser W}.
Context (ctx : ly_ctx) (opts : nc_server_opts) (fuel : nat).
Implicit Types m : gmap positive (nc_session * W).

(** A session on a channel with the subsystem, that was not started. *)
Definition channel_ready (s : nc_session) : bool :=
  bool_decide (status s = NC_STATUS_STARTING) && has_channel s && has_flag NC_SESSION_SSH_SUBSYS_NETCONF s.

(** The first such session from [cur] around to [self]. *)
Fixpoint find_ready (n : nat) m (self cur : positive) : outcome (option positive) :=
  match n with
  | O => NoFuel
  | S n =>
    if decide (cur = self) then Done None
    else
      match m !! cur with
      | None => Crash
      | Some (s, _) =>
        if channel_ready s then Done (Some cur)
        else match ssh_next m cur with
             | Done (Some next) => find_ready n m self next
             | Done None | Crash => Crash
             | NoFuel => NoFuel
             end
      end
  end.

(** The one behind a running SSH session with more channels. *)
Definition ready_behind m (p : positive) : outcome (option positive) :=
  match m !! p with
  | None => Crash
  | Some (s, _) =>
    match ti s with
    | TiLibssh _ (Some next) => if bool_decide (status s = NC_STATUS_RUNNING) then find_ready fuel m p next else Done None
    | _ => Done None
    end
  end.

Definition look {A} (f : gmap positive (nc_session * W) → outcome A) : PM W A := λ x,
  match f (pw_store x) with Done a => Done (a, x) | NoFuel => NoFuel | Crash => Crash end.

(** The number [sid] and the hello messages; a session that fails is left as it is. *)
Definition start_channel (sid : Z) (q : positive) : PM W (NC_MSG_TYPE * option positive) :=
  _ ← on_session q (upd_ses (set_id (u32 sid)));
  r ← on_session q (nc_handshake_io (node := node) (envelope := envelope) (Some ctx) opts fuel);
  if negb (bool_decide (r = NC_MSG_HELLO)) then mret (r, None)
  else
    ts ← on_session q (env (nc_gettimespec_real_add 0));
    _ ← on_session q (upd_ses (set_session_start (tv_sec ts)));
    ts ← on_session q (env (nc_gettimespec_mono_add 0));
    _ ← on_session q (upd_ses (set_last_rpc (tv_sec ts)));
    _ ← on_session q (upd_ses (set_status NC_STATUS_RUNNING));
    mret (r, Some q).

(** The message type, the session, and the next number. *)
Definition accept_ready (sid : Z) (q : option positive) : PM W (NC_MSG_TYPE * option positive * Z) :=
  match q with
  | None => mret (NC_MSG_ERROR, None, sid)
  | Some q => r ← start_channel sid q; mret (r, (sid + 1) mod 2 ^ 64)
  end.

Definition nc_session_accept_ssh_channel (sid : Z) (orig_session : option positive) : PM W (NC_MSG_TYPE * option positive * Z) :=
  match orig_session with
  | None => mret (NC_MSG_ERROR, None, sid)
  | Some p => q ← look (λ m, ready_behind m p); accept_ready sid q
  end.

Fixpoint find_entry (l : list nc_ps_session) : PM W (option positive) :=
  match l with
  | [] => mret None
  | e :: l =>
    q ← look (λ m, ready_behind m (pe_session e));
    match q with Some q => mret (Some q) | None => find_entry l end
  end.

Definition nc_ps_accept_ssh_channel (sid : Z) : PM W (NC_MSG_TYPE * option positive * Z) :=
  '(r, q_id) ← nc_ps_lock fuel;
  if negb (r =? 0) then mret (NC_MSG_ERROR, None, sid)
  else
    ps ← ps_get;
    q ← find_entry (ztake (session_count ps) (default [] (sessions ps)));
    _ ← nc_ps_unlock q_id;
    accept_ready sid q.

(** ** The search *)

Definition is_ready m (q : positive) : bool := match m !! q with Some (s, _) => channel_ready s | None => false end.

Lemma find_ready_spec n m p c l :
  chain m c l p → p ∉ c :: l → (S (length l) < n)%nat → find_ready n m p c = Done (List.find (is_ready m) (c :: l)).
Proof.
  revert c n. induction l as [|x l IH]; intros c [|n] Hch Hp Hf; try (simpl in Hf; lia); cbn [find_ready];
    rewrite decide_False by (intros ->; apply Hp; by left).
  - destruct Hch as (s & w & ch & E & Et). cbn [List.find]. unfold is_ready. rewrite E. destruct (channel_ready s); [done|].
    rewrite (ssh_next_is m c (Some p)) by (by exists s, w, ch). destruct n as [|n]; [simpl in Hf; lia|]. cbn [find_ready]. by rewrite decide_True.
  - destruct Hch as [Hn Hch]. pose proof Hn as (s & w & ch & E & Et). cbn [List.find]. unfold is_ready at 1. rewrite E. destruct (channel_ready s); [done|].
    rewrite (ssh_next_is m c (Some x)) by done. apply IH; [done| |simpl in Hf; lia]. intros H. apply Hp. by right.
Qed.

Lemma ready_behind_ring m p l s w :
  ring m p l → l ≠ [] → m !! p = Some (s, w) → status s = NC_STATUS_RUNNING → (S (length l) < fuel)%nat →
  ready_behind m p = Done (List.find (is_ready m) l).
Proof.
  intros [Hch Hnd] Hl Hs Hr Hf. unfold ready_behind. rewrite Hs. destruct l as [|x l]; [done|].
  destruct Hch as [(s0 & w0 & ch & E & Et) Hch]. rewrite Hs in E. injection E as <- <-. rewrite Et, (bool_decide_true _ Hr).
  apply find_ready_spec; [done| |simpl in Hf; lia]. by apply list.NoDup_cons in Hnd as [? _].
Qed.

(** ** The session *)

Lemma post_on_session {A} q (n : SM W A) (Q : A → ps_world W → Prop) x sw :
  pw_store x !! q = Some sw →
  post n (λ a sw', Q a (PsWorld (pw_ps x) (<[q := sw']> (pw_store x)) (pw_glob x))) sw → post (on_session q n) Q x.
Proof. intros Hs H. unfold post, on_session in *. rewrite Hs. by destruct (n sw) as [[a sw']| |]. Qed.

(** What became of the session at [q], and only of it. *)
Definition only_at (q : positive) (R : nc_session → Prop) (x x' : ps_world W) : Prop :=
  (∃ s' w', pw_store x' !! q = Some (s', w') ∧ R s') ∧ ∀ y, y ≠ q → pw_store x' !! y = pw_store x !! y.

Lemma post_upd_at q f (R : nc_session → Prop) x x1 :
  (∀ s, R s → R (f s)) → only_at q R x x1 → post (on_session q (upd_ses f)) (λ _ x2, only_at q R x x2) x1.
Proof.
  intros Hf [(s & w & Hs & HR) Ho]. eapply post_on_session; [done|]. apply post_modify. split; cbn [pw_store].
  - exists (f s), w. rewrite lookup_insert_eq. auto.
  - intros y Hy. rewrite lookup_insert_ne by done. auto.
Qed.

Lemma post_env_at {A} q (n : M W A) (R : nc_session → Prop) x x1 :
  only_at q R x x1 → post (on_session q (env n)) (λ _ x2, only_at q R x x2) x1.
Proof.
  intros [(s & w & Hs & HR) Ho]. eapply post_on_session; [done|]. apply post_on_env. eapply post_mono; [apply post_any|]. intros a w' _. split; cbn [pw_store].
  - exists s, w'. by rewrite lookup_insert_eq.
  - intros y Hy. rewrite lookup_insert_ne by done. auto.
Qed.

Lemma start_channel_post sid q s w x :
  pw_store x !! q = Some (s, w) → side s = NC_SERVER →
  post (start_channel sid q) (λ r x', only_at q (λ s', identity s' = identity (set_id (u32 sid) s)) x x' ∧
    match r.2 with
    | None => r.1 ≠ NC_MSG_HELLO
    | Some q' => q' = q ∧ r.1 = NC_MSG_HELLO ∧ only_at q (λ s', status s' = NC_STATUS_RUNNING) x x'
    end) x.
Proof.
  intros Hs Hd. unfold start_channel. set (R := λ s', identity s' = identity (set_id (u32 sid) s)). apply post_bind.
  eapply post_on_session; [done|]. apply post_modify. cbn [fst snd]. apply post_bind. eapply post_on_session; [apply lookup_insert_eq|].
  eapply post_mono; [by apply (server_handshake_keeps (Some ctx) opts fuel (set_id (u32 sid) s) w)|]. intros r [s1 w1] E1. cbn [fst pw_store] in *.
  rewrite insert_insert_eq. assert (H1 : only_at q R x (PsWorld (pw_ps x) (<[q := (s1, w1)]> (pw_store x)) (pw_glob x))).
  { split; cbn [pw_store]; [exists s1, w1; by rewrite lookup_insert_eq|intros y Hy; by rewrite lookup_insert_ne by done]. }
  destruct (bool_decide_reflect (r = NC_MSG_HELLO)) as [->|Hr]; cbn [negb]; [|by apply post_ret].
  apply post_bind. eapply post_mono; [by apply (post_env_at _ _ R x)|]. intros ts x2 H2. apply post_bind. eapply post_mono; [by apply (post_upd_at _ _ R x)|].
  intros [] x3 H3. apply post_bind. eapply post_mono; [by apply (post_env_at _ _ R x)|]. intros ts2 x4 H4. apply post_bind.
  eapply post_mono; [by apply (post_upd_at _ _ R x)|]. intros [] [ps5 m5 g5] [(s5 & w5 & Hs5 & H5) Ho5]. cbn [pw_store] in *. apply post_bind.
  eapply post_on_session; [exact Hs5|]. apply post_modify, post_ret. cbn [fst snd].
  assert (Ho : ∀ y, y ≠ q → <[q := (set_status NC_STATUS_RUNNING s5, w5)]> m5 !! y = pw_store x !! y).
  { intros y Hy. rewrite lookup_insert_ne by done. auto. }
  split; [|split; [done|split; [done|]]]; (split; [|exact Ho]); eexists _, w5; cbn [pw_store]; (split; [apply lookup_insert_eq|done]).
Qed.

(** C33: A further channel is accepted.  The session that is looked for is the first one behind the running session, along the ring, that is
    ready: not started, on a channel that has the subsystem.  If there is none, nothing happens.  Otherwise it gets the next
    number and keeps its user, its flags and its place in the ring; it is running if the hello messages were exchanged, and only
    then it is returned.  No other session is touched. *)
Theorem channel_accepted sid p l s w (x : ps_world W) :
  ring (pw_store x) p l → l ≠ [] → pw_store x !! p = Some (s, w) → status s = NC_STATUS_RUNNING → (S (length l) < fuel)%nat →
  (∀ q s w, q ∈ l → pw_store x !! q = Some (s, w) → side s = NC_SERVER) →
  match List.find (is_ready (pw_store x)) l with
  | None => nc_session_accept_ssh_channel sid (Some p) x = Done ((NC_MSG_ERROR, None, sid), x)
  | Some q => ∀ t r n x', nc_session_accept_ssh_channel sid (Some p) x = Done ((t, r, n), x') →
    n = (sid + 1) mod 2 ^ 64 ∧ (t = NC_MSG_HELLO ↔ r = Some q) ∧ (∀ y, y ≠ q → pw_store x' !! y = pw_store x !! y) ∧
    ∃ s w s' w', pw_store x !! q = Some (s, w) ∧ pw_store x' !! q = Some (s', w') ∧ id s' = u32 sid ∧ username s' = username s ∧
      flags s' = flags s ∧ ti s' = ti s ∧ (r = Some q → status s' = NC_STATUS_RUNNING)
  end.
Proof.
  intros Hr Hl Hs Hst Hf Hd. pose proof (ready_behind_ring (pw_store x) p l s w Hr Hl Hs Hst Hf) as E.
  destruct (List.find _ l) as [q|] eqn:Eq.
  2: { unfold nc_session_accept_ssh_channel, mbind, M_bind, look. by rewrite E. }
  intros t r n x' Ex. destruct (List.find_some _ _ Eq) as [Hq Hready]. unfold is_ready in Hready.
  destruct (pw_store x !! q) as [[sq wq]|] eqn:Esq; [|done].
  pose proof (start_channel_post sid q sq wq x Esq (Hd q sq wq ltac:(by apply list_elem_of_In) Esq)) as G.
  unfold nc_session_accept_ssh_channel, mbind, M_bind, look in Ex. rewrite E in Ex. unfold accept_ready, mbind, M_bind in Ex. unfold post in G.
  destruct (start_channel sid q x) as [[[t1 r1] x1]| |]; try done. injection Ex as -> -> <- ->. cbn [fst snd] in G.
  destruct G as [[(s' & w' & Hs' & Hi) Ho] Hm]. injection Hi as H1 H2 H3 H4 H5. split; [done|]. split.
  { destruct r as [q'|]; [|by split]. by destruct Hm as (-> & -> & _). }
  split; [done|]. exists sq, wq, s', w'. split_and!; try done. intros ->. destruct Hm as (_ & _ & (s2 & w2 & Hs2 & H) & _). congruence.
Qed.
End channels.

(** ** An example

    A running session, and one on a further channel of its SSH session whose client has sent its hello. *)

Definition ring2 : ps_world (sim true true) :=
  let ses st q ch := set_side NC_SERVER (set_flags (Z.lor NC_SESSION_SSH_AUTHENTICATED NC_SESSION_SSH_SUBSYS_NETCONF)
    (SshAuth.set_username (Some bob) (set_io_lock (Some false) (set_ti (TiLibssh true (Some q)) (set_status st zero_session))))) in
  PsWorld (NcPollsession None 0 0 (PsQueue.PsQueue (repeat 0 NC_PS_QUEUE_SIZE) 0 0))
    {[1%positive := (ses NC_STATUS_RUNNING 2%positive true, Sim [] [] 0);
      2%positive := (ses NC_STATUS_STARTING 1%positive true,
                     Sim (frame10 (hello_payload (node := bytes) (envelope := bytes) [BASE_1_0; BASE_1_1] None)) [] 0)]}
    (Sim [] [] 0).

Definition ring2_run : outcome ((NC_MSG_TYPE * option positive * Z) * ps_world (sim true true)) :=
  nc_session_accept_ssh_channel (node := bytes) (envelope := bytes) Handshake.demo_ctx (Handshake.demo_opts NC_WD_UNKNOWN 0) acc_fuel 5 (Some 1%positive) ring2.

Lemma channel_accepted_witness :
  ∃ t r n x', ring2_run = Done ((t, r, n), x') ∧ n = 6 ∧ ∃ s w, pw_store x' !! 2%positive = Some (s, w) ∧ id s = 5 ∧ username s = Some bob.
Proof.
  assert (Hd : match ring2_run with Done _ => true | _ => false end = true) by (vm_compute; reflexivity).
  assert (∃ x, ring2_run = x) as [x E] by (eexists; reflexivity). rewrite E in Hd. destruct x as [[[[t r] n] x']| |]; try discriminate Hd.
  assert (H : ring (pw_store ring2) 1 [2%positive]).
  { split; [split; eexists _, _, _; (split; [vm_compute; reflexivity|reflexivity])|]. by apply (bool_decide_unpack _). }
  pose proof (channel_accepted (node := bytes) (envelope := bytes) Handshake.demo_ctx (Handshake.demo_opts NC_WD_UNKNOWN 0) acc_fuel 5 1 [2%positive]
    _ _ ring2 H ltac:(discriminate) eq_refl eq_refl ltac:(vm_compute; lia)) as G.
  assert (Hs : ∀ q s w, q ∈ [2%positive] → pw_store ring2 !! q = Some (s, w) → side s = NC_SERVER).
  { intros q s w Hq. apply list_elem_of_singleton in Hq as ->. vm_compute. by intros [= <- _]. }
  specialize (G Hs). change (List.find (is_ready (pw_store ring2)) [2%positive]) with (Some 2%positive) in G.
  destruct (G t r n x' E) as (Hn & _ & _ & s & w & s' & w' & Hs0 & Hs1 & Hi & Hu & _). exists t, r, n, x'. split; [exact E|]. clear E. split; [done|].
  exists s', w'. split; [done|]. split; [done|]. rewrite Hu. vm_compute in Hs0. injection Hs0 as <- _. reflexivity.
Defined.
