(* ===== verification/ServerInit.v ===== *)
(** * Starting and stopping a server

    src/session_server.c: [nc_server_init] and [nc_server_destroy], with the callbacks and data of the application that
    src/session_server_ssh.c and src/session_server_tls.c keep in [server_opts].  Stopping a server deletes its endpoints, its Call Home
    clients, its authorized keys and its capabilities, and calls the application's functions that free its data. *)

From S2P Require Import Prelude Session Env Sim Capabilities PtrArray SshOpts SshOptsProofs TlsOpts TlsOptsProofs Sockets SocketsProofs Endpoints EndpointsProofs EndpointsOps.
From S2P Require Import CallHome CallHomeProofs SshAuthProofs.
From Stdlib Require Import ZArith Ascii String Lia.
From stdpp Require Import base list strings gmap numbers fin_sets.
Open Scope Z_scope.

(** The callbacks that come with data. *)
Inductive clb_slot := ContentId | PasswdAuth | InteractiveAuth | PubkeyAuth | Hostkey | ServerCert | ServerCertChain | TrustedCertList.

#[export] Instance clb_slot_eq_dec : EqDecision clb_slot.
Proof. solve_decision. Defined.

(** Whether the callback and the function that frees are set, and the data (a pointer). *)
Record user_clb := UserClb {
  uc_clb : bool;
  uc_data : option Z;
  uc_free : bool;
}.

Definition no_clb : user_clb := UserClb false None false.

(** [server_opts]; [sv_freed] are the calls of functions that free data, in their order. *)
Record server_all := ServerAll {
  so_conf : server_conf;
  so_ch : ch_conf;
  so_keys : authkeys_state;
  so_capabilities : option (list (option bytes));
  so_session_id : Z;
  so_clbs : clb_slot → user_clb;
  so_pam : option bytes * option bytes;
  so_freed : list (clb_slot * Z);
}.

Definition set_so_conf (c : server_conf) (s : server_all) : server_all :=
  ServerAll c (so_ch s) (so_keys s) (so_capabilities s) (so_session_id s) (so_clbs s) (so_pam s) (so_freed s).
Definition set_so_ch (c : ch_conf) (s : server_all) : server_all :=
  ServerAll (so_conf s) c (so_keys s) (so_capabilities s) (so_session_id s) (so_clbs s) (so_pam s) (so_freed s).
Definition set_so_keys (k : authkeys_state) (s : server_all) : server_all :=
  ServerAll (so_conf s) (so_ch s) k (so_capabilities s) (so_session_id s) (so_clbs s) (so_pam s) (so_freed s).
Definition set_so_capabilities (l : option (list (option bytes))) (s : server_all) : server_all :=
  ServerAll (so_conf s) (so_ch s) (so_keys s) l (so_session_id s) (so_clbs s) (so_pam s) (so_freed s).
Definition set_so_pam (p : option bytes * option bytes) (s : server_all) : server_all :=
  ServerAll (so_conf s) (so_ch s) (so_keys s) (so_capabilities s) (so_session_id s) (so_clbs s) p (so_freed s).
Definition set_clb (k : clb_slot) (c : user_clb) (s : server_all) : server_all :=
  ServerAll (so_conf s) (so_ch s) (so_keys s) (so_capabilities s) (so_session_id s) (λ j, if decide (j = k) then c else so_clbs s j)
    (so_pam s) (so_freed s).

(** ** Callbacks *)

(** The setters that take any callback: [nc_server_set_content_id_clb], [nc_server_ssh_set_passwd_auth_clb] and the like. *)
Definition set_any_clb (k : clb_slot) (clb : bool) (data : option Z) (free : bool) (s : server_all) : server_all :=
  set_clb k (UserClb clb data free) s.

(** Those that refuse [NULL]: host keys, certificates and lists of trusted certificates. *)
Definition set_some_clb (k : clb_slot) (clb : bool) (data : option Z) (free : bool) (s : server_all) : server_all :=
  if negb clb then s else set_clb k (UserClb clb data free) s.

Definition nc_server_ssh_set_passwd_auth_clb := set_any_clb PasswdAuth.
Definition nc_server_ssh_set_interactive_auth_clb := set_any_clb InteractiveAuth.
Definition nc_server_ssh_set_pubkey_auth_clb := set_any_clb PubkeyAuth.
Definition nc_server_ssh_set_hostkey_clb := set_some_clb Hostkey.
Definition nc_server_tls_set_server_cert_clb := set_some_clb ServerCert.
Definition nc_server_tls_set_server_cert_chain_clb := set_some_clb ServerCertChain.
Definition nc_server_tls_set_trusted_cert_list_clb := set_some_clb TrustedCertList.

(** [if (data && data_free) data_free(data)] *)
Definition free_data (k : clb_slot) (s : server_all) : server_all :=
  match uc_data (so_clbs s k), uc_free (so_clbs s k) with
  | Some d, true =>
    ServerAll (so_conf s) (so_ch s) (so_keys s) (so_capabilities s) (so_session_id s) (so_clbs s) (so_pam s) (so_freed s ++ [(k, d)])
  | _, _ => s
  end.

(** The same, and both pointers are [NULL] afterwards. *)
Definition drop_data (k : clb_slot) (s : server_all) : server_all :=
  set_clb k (UserClb (uc_clb (so_clbs s k)) None false) (free_data k s).

(** ** The server *)

(** The functions of pthread for the attributes and the locks: an error code or 0. *)
Class RwlockEnv (W : Type) := {
  rwlockattr_init : W → Z * W;
  rwlockattr_setkind : W → Z * W;
  rwlock_init : W → Z * W;
}.

Section server.
Context {W : Type} `{!Env W} `{!SockEnv W} `{!RwlockEnv W}.

Abbreviation OM := (M (server_all * W)).

(** A computation on a part of the options. *)
Definition zoom {S A} (get : server_all → S) (set : S → server_all → server_all) (m : M (S * W) A) : OM A := λ st,
  match m (get st.1, st.2) with
  | Done (a, (x, w)) => Done (a, (set x st.1, w))
  | NoFuel => NoFuel
  | Crash => Crash
  end.

Definition upd (f : server_all → server_all) : OM unit := modify (λ st, (f st.1, st.2)).

(** The identifiers start from 1, also after an error. *)
Definition nc_server_init : OM Z :=
  _ ← upd (λ s, ServerAll (so_conf s) (ChConf (ch_clients (so_ch s)) (ch_client_count (so_ch s)) 1 (ch_readers (so_ch s)) (ch_writer (so_ch s)))
                  (so_keys s) (so_capabilities s) 1 (so_clbs s) (so_pam s) (so_freed s));
  r ← on_env (call rwlockattr_init);
  if negb (r =? 0) then mret (-1)
  else
    r ← on_env (call rwlockattr_setkind);
    if negb (r =? 0) then mret (-1)
    else
      r ← on_env (call rwlock_init);
      if negb (r =? 0) then mret (-1)
      else
        r ← on_env (call rwlock_init);
        mret (if r =? 0 then 0 else -1).

Definition nc_server_ssh_set_pam_conf_path (conf_name conf_dir : option bytes) : OM Z :=
  _ ← upd (set_so_pam (None, None));
  d ← on_env (strdup_opt conf_dir);
  _ ← upd (λ s, set_so_pam ((so_pam s).1, d) s);
  if bool_decide (is_Some conf_dir) && bool_decide (d = None) then mret (-1)
  else
    n ← on_env (strdup_opt conf_name);
    _ ← upd (λ s, set_so_pam (n, (so_pam s).2) s);
    mret (if bool_decide (is_Some conf_name) && bool_decide (n = None) then -1 else 0).

Definition nc_server_destroy : OM unit :=
  _ ← upd (set_so_capabilities None);
  _ ← upd (free_data ContentId);
  _ ← zoom so_conf set_so_conf (nc_server_del_endpt None NC_TI_NONE);
  _ ← zoom so_ch set_so_ch (nc_server_ch_del_client None);
  _ ← upd (drop_data PasswdAuth);
  _ ← zoom so_keys set_so_keys (nc_server_ssh_del_authkey None None NC_SSH_KEY_UNKNOWN None);
  _ ← upd (drop_data Hostkey);
  _ ← upd (set_so_pam (None, None));
  _ ← upd (drop_data ServerCert);
  upd (drop_data TrustedCertList).
End server.

(** ** Stopping *)

(** The sockets of Call Home endpoints that wait for a connection. *)
Definition pending_fds (e : nc_ch_endpt) : list Z := if che_sock_pending e =? -1 then [] else [che_sock_pending e].
Definition client_fds (c : nc_ch_client) : list Z := concat (pending_fds <$> default [] (chc_endpts c)).
Definition clients_fds (l : list nc_ch_client) : list Z := concat (client_fds <$> l).

(** The options of a Call Home endpoint, as those of an endpoint. *)
Definition as_endpt (e : nc_ch_endpt) : nc_endpt := NcEndpt (che_name e) (che_ti e) (che_ka e) (che_opts e).
Definition ch_opts_ok (c : nc_ch_client) : Prop := Forall (λ e, opts_ok (as_endpt e)) (default [] (chc_endpts c)).

Section stop.
Context {W : Type} `{!Env W} `{!SockEnv W} `{!SockLaws W}.

Lemma wpx_clear_ch_endpt F e (Q : unit → ch_conf * W → Prop) s w :
  opts_ok (as_endpt e) → (∀ w', open_fds w' = open_fds w ∖ list_to_set (pending_fds e) → Q tt (s, w')) → wpx F (clear_ch_endpt e) Q (s, w).
Proof.
  intros Ho HQ. unfold clear_ch_endpt. apply wpx_bind.
  assert (G : ∀ w', open_fds w' = open_fds w ∖ list_to_set (pending_fds e) → wpx F (on_env (clear_ch_opts e)) Q (s, w')).
  { intros w' Hw'. apply wpx_on_env. assert (E : wpx F (clear_opts (as_endpt e)) (λ a w0, Q a (s, w0)) w') by (apply wpx_clear_opts; [done|by apply HQ]).
    unfold clear_opts, as_endpt in E. unfold clear_ch_opts. cbn in E. destruct (che_ti e); exact E. }
  unfold pending_fds in G. destruct (che_sock_pending e =? -1); cbn [negb].
  - apply wpx_ret, G. cbn. by rewrite difference_empty_L.
  - apply wpx_modify, G. cbn. by rewrite close_law, union_empty_r_L.
Qed.

Lemma wpx_clear_ch_endpts F c k s (Q : unit → ch_conf * W → Prop) : ∀ n j w,
  client_holds c k → Forall (λ e, opts_ok (as_endpt e)) k → (j + n = length k)%nat →
  (∀ w', open_fds w' = open_fds w ∖ list_to_set (concat (pending_fds <$> drop j k)) → Q tt (s, w')) →
  wpx F (clear_ch_endpts n (Z.of_nat j) c) Q (s, w).
Proof.
  induction n as [|n IH]; intros j w Hk Hok Hj HQ; cbn [clear_ch_endpts].
  - apply wpx_ret, HQ. rewrite drop_ge by lia. cbn. by rewrite difference_empty_L.
  - destruct (lookup_lt_is_Some_2 k j ltac:(lia)) as [e He]. pose proof Hk as (Ha & _). apply wpx_bind. unfold ch_endpt_at.
    destruct Ha as [->|[-> _]]; [|done]. rewrite Nat2Z.id, He. apply wpx_ret. apply wpx_bind.
    apply wpx_clear_ch_endpt; [by apply (Forall_lookup_1 _ _ _ _ Hok He)|]. intros w' Hw'. replace (Z.of_nat j + 1) with (Z.of_nat (j + 1)) by lia.
    apply IH; [done..|lia|]. intros w'' Hw''. apply HQ. rewrite (drop_S _ _ _ He), fmap_cons. cbn [concat]. rewrite list_to_set_app_L, Hw'', Hw', Nat.add_1_r.
    by rewrite difference_difference_l_L.
Qed.

Lemma wpx_clear_clients F l s (Q : unit → ch_conf * W → Prop) : ∀ n i w,
  array_of (ch_clients s) l → Forall client_ok l → Forall ch_opts_ok l → (i + n = length l)%nat →
  (∀ w', open_fds w' = open_fds w ∖ list_to_set (clients_fds (drop i l)) → Q tt (s, w')) →
  wpx F (clear_clients n (Z.of_nat i)) Q (s, w).
Proof.
  induction n as [|n IH]; intros i w Ha Hc Ho Hi HQ; cbn [clear_clients].
  - apply wpx_ret, HQ. rewrite drop_ge by lia. cbn. by rewrite difference_empty_L.
  - destruct (lookup_lt_is_Some_2 l i ltac:(lia)) as [c Hci]. apply wpx_bind. unfold client_at. apply wpx_bind, wpx_gets. cbn [fst].
    pose proof Ha as [->|[-> _]]; [|done]. rewrite Nat2Z.id, Hci. apply wpx_ret. apply wpx_bind. unfold _nc_server_ch_client_del_endpt. apply wpx_bind.
    destruct (Forall_lookup_1 _ _ _ _ Hc Hci) as (_ & k & Hk). pose proof Hk as (Hak & Hcnt & _). rewrite Hcnt. unfold zlen. rewrite Nat2Z.id.
    assert (Ek : default [] (chc_endpts c) = k) by (by destruct Hak as [->|[-> ->]]).
    apply (wpx_clear_ch_endpts F c k _ _ _ 0); [done| |done|].
    { pose proof (Forall_lookup_1 _ _ _ _ Ho Hci) as H. unfold ch_opts_ok in H. by rewrite Ek in H. }
    intros w' Hw'. apply wpx_ret. replace (Z.of_nat i + 1) with (Z.of_nat (i + 1)) by lia. apply IH; [done..|lia|]. intros w'' Hw''. apply HQ.
    rewrite (drop_S _ _ _ Hci). unfold clients_fds. rewrite fmap_cons. cbn [concat]. rewrite list_to_set_app_L, Hw'', Hw', Nat.add_1_r.
    replace (client_fds c) with (concat (pending_fds <$> k)) by (unfold client_fds; by rewrite Ek). by rewrite drop_0, difference_difference_l_L.
Qed.

Lemma del_all_clients_ok F s l w :
  ch_rep s l 0 → Forall ch_opts_ok l →
  wpx F (nc_server_ch_del_client None) (λ _ st, ch_rep st.1 [] 0 ∧ open_fds st.2 = open_fds w ∖ list_to_set (clients_fds l)) (s, w).
Proof.
  intros (Ha & Hc & Hr & Hw & Hok) Ho. unfold nc_server_ch_del_client, ch_wrlock. apply wpx_bind. apply wpx_bind, wpx_gets. cbn [fst].
  rewrite Hw, Hr. cbn [Nat.eqb negb orb]. apply wpx_modify. apply wpx_bind, wpx_gets. cbn [fst snd ch_client_count]. rewrite Hc.
  replace (Z.to_nat (zlen l)) with (length l) by (unfold zlen; lia).
  apply wpx_bind. apply wpx_bind. apply (wpx_clear_clients F l _ _ _ 0); [done..|]. intros w' Hw'. rewrite drop_0 in Hw'.
  apply wpx_bind, wpx_modify, wpx_ret. apply wpx_bind, wpx_modify, wpx_ret. cbn [fst snd]. split; [|done]. split_and!; try done. by right.
Qed.

(** ** The whole server *)

Lemma wpx_zoom {S A} F get set (m : M (S * W) A) (Q : A → server_all * W → Prop) s w :
  wpx F m (λ a xw, Q a (set xw.1 s, xw.2)) (get s, w) → wpx F (zoom get set m) Q (s, w).
Proof. unfold wpx, zoom. cbn [fst snd]. by destruct (m _) as [[a [x w']]| |]. Qed.

(** What is freed of a slot. *)
Definition freed_of (c : clb_slot → user_clb) (k : clb_slot) : list (clb_slot * Z) :=
  match uc_data (c k), uc_free (c k) with Some d, true => [(k, d)] | _, _ => [] end.

Lemma free_data_eq k s : free_data k s =
  ServerAll (so_conf s) (so_ch s) (so_keys s) (so_capabilities s) (so_session_id s) (so_clbs s) (so_pam s) (so_freed s ++ freed_of (so_clbs s) k).
Proof. unfold free_data, freed_of. destruct (uc_data (so_clbs s k)), (uc_free (so_clbs s k)), s; cbn; by rewrite ?app_nil_r. Qed.

(** The slots whose pointers are cleared, and the data that are freed, in this order. *)
Definition dropped : list clb_slot := [PasswdAuth; Hostkey; ServerCert; TrustedCertList].
Definition freed_by (c : clb_slot → user_clb) : list (clb_slot * Z) := freed_of c ContentId ++ concat (freed_of c <$> dropped).

(** The callbacks afterwards. *)
Definition clbs_after (c : clb_slot → user_clb) (k : clb_slot) : user_clb :=
  if bool_decide (k ∈ dropped) then UserClb (uc_clb (c k)) None false else c k.

(** A server that nobody uses at the moment. *)
Definition idle (s : server_all) (l : list slot) (lc : list nc_ch_client) (w : W) : Prop :=
  rep (so_conf s) l false false ∧ well_formed l (open_fds w) ∧ ch_rep (so_ch s) lc 0 ∧ Forall ch_opts_ok lc ∧
  authkey_held (so_keys s) = false ∧ authkey_count (so_keys s) ≤ zlen (default [] (authkeys (so_keys s))).

(** A server that was stopped. *)
Definition stopped (s : server_all) (l : list slot) (lc : list nc_ch_client) (w : W) (st : server_all * W) : Prop :=
  idle st.1 [] [] st.2 ∧ authkeys (so_keys st.1) = None ∧ so_capabilities st.1 = None ∧ so_pam st.1 = (None, None) ∧
  (∀ k, so_clbs st.1 k = clbs_after (so_clbs s) k) ∧ so_freed st.1 = so_freed s ++ freed_by (so_clbs s) ∧
  open_fds st.2 = others l (open_fds w) ∖ list_to_set (clients_fds lc).

Lemma del_all_keys_ok F k (w : W) :
  authkey_held k = false → authkey_count k ≤ zlen (default [] (authkeys k)) →
  wpx F (nc_server_ssh_del_authkey None None NC_SSH_KEY_UNKNOWN None) (λ _ st, st = (AuthkeysState None 0 false, w)) (k, w).
Proof.
  intros Hh Hc. unfold nc_server_ssh_del_authkey, ak_lock. apply wpx_bind. apply wpx_bind, wpx_gets. cbn [fst]. rewrite Hh. apply wpx_modify.
  apply wpx_bind, wpx_gets. cbn [fst snd authkey_count authkeys]. rewrite (proj2 (Z.leb_le _ _) Hc). apply wpx_bind, wpx_bind, wpx_ret.
  apply wpx_bind, wpx_modify, wpx_ret. by apply wpx_bind, wpx_modify, wpx_ret.
Qed.

Lemma destroy_ok F s l lc w : idle s l lc w → wpx F nc_server_destroy (λ _ st, stopped s l lc w st) (s, w).
Proof.
  intros (H1 & H2 & H3 & H4 & H5 & H6). unfold nc_server_destroy, upd, drop_data. apply wpx_bind, wpx_modify, wpx_bind, wpx_modify. cbn [fst snd].
  rewrite free_data_eq. apply wpx_bind, wpx_zoom. eapply wpx_mono; [by apply del_all_ok|].
  intros r [c2 w2] [(Hr2 & Hw2 & Ho2) _]. cbn [fst snd] in *. apply wpx_bind, wpx_zoom.
  eapply wpx_mono; [by apply del_all_clients_ok|]. intros r2 [h3 w3] [Hr3 Hw3]. cbn [fst snd] in *. apply wpx_bind, wpx_modify. cbn [fst snd].
  rewrite free_data_eq. apply wpx_bind, wpx_zoom. eapply wpx_mono; [by apply del_all_keys_ok|]. intros r3 ? ->.
  do 3 (apply wpx_bind, wpx_modify). apply wpx_modify. cbn [fst snd]. rewrite !free_data_eq. unfold stopped. cbn.
  assert (Hfd : open_fds w2 = others l (open_fds w)). { rewrite <- Ho2. unfold others. cbn. by rewrite difference_empty_L. }
  split.
  { split_and!; try done; cbn. destruct Hw2 as (? & ? & ? & ? & ?). split_and!; try done. by intros ? ?%not_elem_of_nil. }
  do 3 (split; [done|]). split; [by intros []|]. split; [|by rewrite Hw3, Hfd]. unfold freed_by, dropped. cbn. rewrite app_nil_r, !app_assoc. done.
Qed.

(** C36: [nc_server_destroy] on a server that nobody uses always ends, and there is nothing left of its configuration: no endpoint, no Call Home
    client, no authorized key, no capability.  Exactly the descriptors of its endpoints and of pending Call Home connections are closed.  The
    data of five callbacks of the application are freed, each once; those for interactive and public key
    authentication and for certificate chains are not. *)
Theorem server_stopped s l lc (w : W) :
  idle s l lc w → ∃ s' w', nc_server_destroy (s, w) = Done (tt, (s', w')) ∧ stopped s l lc w (s', w').
Proof.
  intros H. destruct (proj1 (wp_total _ _ _) (destroy_ok False s l lc w H)) as ([] & [s' w'] & E & Hs). eauto.
Qed.

(** The data for the callback of the content id are freed by every [nc_server_destroy], since the pointer is kept: a server that is
    stopped, started and stopped again frees them twice. *)
Theorem content_id_freed_twice s l lc (w : W) d :
  idle s l lc w → uc_data (so_clbs s ContentId) = Some d → uc_free (so_clbs s ContentId) = true → so_freed s = [] →
  ∃ s' w' s'' w'', nc_server_destroy (s, w) = Done (tt, (s', w')) ∧ nc_server_destroy (s', w') = Done (tt, (s'', w'')) ∧
    length (filter (λ x, x = (ContentId, d)) (so_freed s'')) = 2%nat.
Proof.
  intros Hi Hd Hf Hn. destruct (proj1 (wp_total _ _ _) (destroy_ok False s l lc w Hi)) as ([] & [s' w'] & E & Hs).
  pose proof Hs as (Hi' & _ & _ & _ & Hc & Hfr & _). cbn [fst snd] in *.
  destruct (proj1 (wp_total _ _ _) (destroy_ok False s' [] [] w' Hi')) as ([] & [s'' w''] & E' & Hs').
  destruct Hs' as (_ & _ & _ & _ & _ & Hfr' & _). cbn [fst] in *. exists s', w', s'', w''. split; [done|]. split; [done|].
  assert (F : ∀ c, uc_data (c ContentId) = Some d → uc_free (c ContentId) = true → length (filter (λ x, x = (ContentId, d)) (freed_by c)) = 1%nat).
  { intros c H1 H2. unfold freed_by. rewrite filter_app. unfold freed_of at 1. rewrite H1, H2. rewrite filter_cons_True by done.
    replace (filter _ (concat (freed_of c <$> dropped))) with (@nil (clb_slot * Z)); [done|]. symmetry. apply elem_of_nil_inv.
    intros x [-> Hx]%list_elem_of_filter. apply list_elem_of_In, in_concat in Hx as (y & Hy & Hxy). apply list_elem_of_In, list_elem_of_fmap in Hy as (k & -> & Hk).
    unfold freed_of in Hxy. destruct (uc_data (c k)), (uc_free (c k)); try done. destruct Hxy as [[= -> _]|[]].
    assert (ContentId ∉ dropped) by (by apply (bool_decide_unpack _)). done. }
  rewrite Hfr', Hfr, Hn. cbn [app]. rewrite filter_app, length_app, !F; [done|by rewrite Hc|by rewrite Hc|done..].
Qed.
End stop.

(** ** An example

    One endpoint that listens, one Call Home client with a pending connection, a key and a content id. *)

Definition stop_state : server_all :=
  ServerAll (ServerConf (Some [NcEndpt (Some (str "e")) NC_TI_LIBSSH (Keepalives false 1 10 5) (OptsSsh new_ssh_opts)])
               (Some [Some (NcBind (Some (str "::")) 830 3 false)]) 1 false false)
    (ChConf (Some [NcChClient (Some (str "c")) (Some [NcChEndpt (Some (str "e")) NC_TI_OPENSSL None 0 4 (Keepalives false 1 10 5)
                                                          (OptsTls new_tls_opts)]) 1 NC_CH_PERSIST None NC_CH_FIRST_LISTED 3 0 false]) 1 1 0 false)
    (AuthkeysState (Some [Authkey None (Some (str "key")) NC_SSH_KEY_RSA (Some bob)]) 1 false) (Some [Some (str "urn:x")]) 5
    (λ k, if decide (k = ContentId) then UserClb true (Some 77) true else no_clb) (None, None) [].

Definition stop_slots : list slot :=
  [(NcEndpt (Some (str "e")) NC_TI_LIBSSH (Keepalives false 1 10 5) (OptsSsh new_ssh_opts), NcBind (Some (str "::")) 830 3 false)].
Definition stop_clients : list nc_ch_client := default [] (ch_clients (so_ch stop_state)).
Definition stop_net : net := Net (Sim [] [] 0) {[3; 4; 9]} [].

Lemma stop_idle : idle stop_state stop_slots stop_clients stop_net.
Proof.
  assert (Ho : holds None 0 []) by (split; [done|by left]). unfold idle. split_and!; cbn; try done.
  - split_and!; cbn; try done; by left.
  - assert (Es : socks stop_slots = [3]) by (vm_compute; reflexivity). unfold well_formed. rewrite Es. split_and!; try done.
    + by apply (bool_decide_unpack _).
    + repeat constructor; cbn; [by eexists|by eexists|lia].
    + by apply (bool_decide_unpack _).
    + intros fd ->%list_elem_of_singleton. by apply (bool_decide_unpack _).
  - split_and!; cbn; try done; [by left|]. repeat constructor; cbn; [by eexists|]. eexists. split_and!; cbn; [by left|done|]. repeat constructor. by eexists.
  - repeat constructor. cbn. by eexists.
Qed.

Lemma server_stopped_witness :
  ∃ s' w', nc_server_destroy (stop_state, stop_net) = Done (tt, (s', w')) ∧ net_fds w' = {[9]} ∧ so_freed s' = [(ContentId, 77)].
Proof.
  destruct (server_stopped stop_state stop_slots stop_clients stop_net stop_idle) as (s' & w' & E & _ & _ & _ & _ & _ & Hf & Hw).
  exists s', w'. split; [exact E|]. split; [|exact Hf]. change (open_fds w' = {[9]}). etrans; [exact Hw|]. vm_compute. reflexivity.
Defined.

Lemma content_id_freed_twice_witness :
  ∃ s' w' s'' w'', nc_server_destroy (stop_state, stop_net) = Done (tt, (s', w')) ∧ nc_server_destroy (s', w') = Done (tt, (s'', w'')) ∧
    length (filter (λ x, x = (ContentId, 77)) (so_freed s'')) = 2%nat.
Proof.
  apply (content_id_freed_twice stop_state stop_slots stop_clients stop_net 77); [apply stop_idle|reflexivity|reflexivity|reflexivity].
Defined.
