(* ===== verification/Replies.v ===== *)
(** * Replies and notifications of a server

    src/messages_server.c: the constructors of replies and notifications, which take data of the application with one of three agreements
    on who frees them, and the functions that free them; and the callback of src/session_server.c for <get-schema>.  Data trees and
    strings are in a heap, so that what is freed and what is left can be told.  A tree that is given has no siblings. *)

From S2P Require Import Prelude Session Env Sim Capabilities Errors ClientRpc.
From Stdlib Require Import ZArith Ascii String Lia.
From stdpp Require Import base list strings gmap numbers.
Open Scope Z_scope.

(** The kinds of schema nodes that matter, and data trees. *)
Inductive node_kind := LYS_RPC | LYS_ACTION | LYS_NOTIF | LYS_OTHER.
Inductive srv_tree := STree (kind : node_kind) (name : bytes) (value : option bytes) (children : list srv_tree).

#[export] Instance node_kind_eq_dec : EqDecision node_kind.
Proof. solve_decision. Defined.

Definition tree_kind (t : srv_tree) : node_kind := let 'STree k _ _ _ := t in k.
Definition tree_children (t : srv_tree) : list srv_tree := let 'STree _ _ _ c := t in c.

(** The search for a notification node in a tree. *)
Fixpoint has_notif (t : srv_tree) : bool :=
  match t with STree k _ _ c => bool_decide (k = LYS_NOTIF) || existsb has_notif c end.

Record heap := Heap {
  h_trees : gmap positive srv_tree;
  h_texts : gmap positive bytes;
  h_errs : gmap positive (list (list err_elem));
}.

(** [struct nc_server_reply] and the larger ones that begin like it; an error of [h_errs] is there with its siblings. *)
Inductive srv_reply :=
| RplOk
| RplData (data : positive) (free : bool) (wd : NC_WD_MODE)
| RplError (err : positive).

Record nc_server_notif := SrvNotif {
  nt_eventtime : option positive;
  nt_ntf : positive;
  nt_free : bool;
}.

(** [struct nc_server_rpc]: the envelope and the operation. *)
Record nc_server_rpc := SrvRpc { sr_envp : option positive; sr_rpc : option positive }.

(** libyang: whether duplicating a tree and creating nodes succeed, and the text of a module or submodule, if it is printed. *)
Inductive LYS_OUTFORMAT := LYS_OUT_YANG | LYS_OUT_YIN.

Class ReplyEnv (W module submodule : Type) := {
  lyd_dup_single_ok : srv_tree → W → bool * W;
  lyd_new_inner_ok : bytes → W → bool * W;
  lyd_new_any_ok : bytes → W → bool * W;
  lyd_new_attr_ok : bytes → W → bool * W;
  lys_print : module + submodule → LYS_OUTFORMAT → W → option bytes * W;
}.

(** The lookups in the context of a session, by name and revision or by name. *)
Record schema_ctx (module submodule : Type) := SchemaCtx {
  ly_ctx_get_module : bytes → bytes → option module;
  ly_ctx_get_submodule : bytes → bytes → option submodule;
  ly_ctx_get_module_implemented : bytes → option module;
  ly_ctx_get_module_latest : bytes → option module;
  ly_ctx_get_submodule_latest : bytes → option submodule;
}.
Arguments SchemaCtx {_ _}.
Arguments ly_ctx_get_module {_ _}.
Arguments ly_ctx_get_submodule {_ _}.
Arguments ly_ctx_get_module_implemented {_ _}.
Arguments ly_ctx_get_module_latest {_ _}.
Arguments ly_ctx_get_submodule_latest {_ _}.

Section replies.
Context {W module submodule : Type} `{!Env W} `{!ReplyEnv W module submodule}.

Abbreviation RM := (M (heap * W)).

Definition tree_at (p : positive) : RM srv_tree :=
  h ← gets fst;
  match h_trees h !! p with Some t => mret t | None => crash end.

Definition map_trees (f : gmap positive srv_tree → gmap positive srv_tree) (s : heap * W) : heap * W :=
  (Heap (f (h_trees s.1)) (h_texts s.1) (h_errs s.1), s.2).
Definition map_texts (f : gmap positive bytes → gmap positive bytes) (s : heap * W) : heap * W :=
  (Heap (h_trees s.1) (f (h_texts s.1)) (h_errs s.1), s.2).
Definition map_errs (f : gmap positive (list (list err_elem)) → gmap positive (list (list err_elem))) (s : heap * W) : heap * W :=
  (Heap (h_trees s.1) (h_texts s.1) (f (h_errs s.1)), s.2).

Definition put_tree (t : srv_tree) : RM positive :=
  h ← gets fst;
  let p := fresh (dom (h_trees h)) in
  _ ← modify (map_trees <[p := t]>);
  mret p.

Definition put_text (t : bytes) : RM positive :=
  h ← gets fst;
  let p := fresh (dom (h_texts h)) in
  _ ← modify (map_texts <[p := t]>);
  mret p.

Definition put_err (e : list err_elem) : RM positive :=
  h ← gets fst;
  let p := fresh (dom (h_errs h)) in
  _ ← modify (map_errs <[p := [e]]>);
  mret p.

Definition text_at (p : positive) : RM bytes :=
  h ← gets fst;
  match h_texts h !! p with Some t => mret t | None => crash end.

Definition errs_at (p : positive) : RM (list (list err_elem)) :=
  h ← gets fst;
  match h_errs h !! p with Some l => mret l | None => crash end.

(** Freeing what is not there is a crash, and freeing [NULL] does nothing. *)
Definition free_tree (p : positive) : RM unit :=
  _ ← tree_at p;
  modify (map_trees (delete p)).

Definition free_opt {S} (free : positive → M S unit) (p : option positive) : M S unit :=
  match p with Some p => free p | None => mret tt end.

Definition free_text (p : positive) : RM unit :=
  _ ← text_at p;
  modify (map_texts (delete p)).

Definition free_errs (p : positive) : RM unit :=
  _ ← errs_at p;
  modify (map_errs (delete p)).

(** [strdup] *)
Definition dup_text (p : positive) : RM (option positive) :=
  t ← text_at p;
  ok ← on_env (call (malloc_ok (zlen t + 1)));
  if negb ok then mret None else q ← put_text t; mret (Some q).

(** [lyd_dup_single] with [LYD_DUP_RECURSIVE] *)
Definition dup_tree (p : positive) : RM (option positive) :=
  t ← tree_at p;
  ok ← on_env (call (lyd_dup_single_ok t));
  if negb ok then mret None else q ← put_tree t; mret (Some q).

(** ** Replies *)

Definition nc_server_reply_ok : M W (option srv_reply) :=
  ok ← call (malloc_ok 4);
  mret (if ok : bool then Some RplOk else None).

Definition nc_server_reply_data (data : option positive) (wd : NC_WD_MODE) (paramtype : NC_PARAMTYPE) : RM (option srv_reply) :=
  match data with
  | None => mret None
  | Some p =>
    t ← tree_at p;
    if negb (bool_decide (tree_kind t = LYS_RPC) || bool_decide (tree_kind t = LYS_ACTION)) then mret None
    else
      ok ← on_env (call (malloc_ok 24));
      if negb ok then mret None
      else
        match paramtype with
        | NC_PARAMTYPE_DUP_AND_FREE =>
          q ← dup_tree p;
          mret ((λ q, RplData q true wd) <$> q)
        | NC_PARAMTYPE_FREE => mret (Some (RplData p true wd))
        | NC_PARAMTYPE_CONST => mret (Some (RplData p false wd))
        end
  end.

Definition nc_server_reply_err (err : option positive) : M W (option srv_reply) :=
  match err with
  | None => mret None
  | Some e => ok ← call (malloc_ok 16); mret (if ok : bool then Some (RplError e) else None)
  end.

(** An opaque node is inserted behind its siblings; the error that is added is another one than those of the reply. *)
Definition nc_server_reply_add_err (reply : option srv_reply) (err : option positive) : RM Z :=
  match reply, err with
  | Some (RplError p), Some e =>
    l ← errs_at p;
    l' ← errs_at e;
    _ ← modify (map_errs (λ m, <[p := l ++ l']> (delete e m)));
    mret 0
  | _, _ => mret (-1)
  end.

(** The last sibling, which the first one points back to. *)
Definition nc_server_reply_get_last_err (reply : option srv_reply) : RM (option (list err_elem)) :=
  match reply with
  | Some (RplError p) => l ← errs_at p; mret (list.last l)
  | _ => mret None
  end.

Definition nc_server_rpc_free (rpc : option nc_server_rpc) : RM unit :=
  match rpc with
  | None => mret tt
  | Some r => _ ← free_opt free_tree (sr_envp r); free_opt free_tree (sr_rpc r)
  end.

Definition nc_server_reply_free (reply : option srv_reply) : RM unit :=
  match reply with
  | Some (RplData p free _) => if free : bool then free_tree p else mret tt
  | Some (RplError p) => free_errs p
  | Some RplOk | None => mret tt
  end.

(** ** Notifications *)

Definition nc_server_notif_new (event eventtime : option positive) (paramtype : NC_PARAMTYPE) : RM (option nc_server_notif) :=
  match event, eventtime with
  | Some p, Some ts =>
    t ← tree_at p;
    if negb (has_notif t) then mret None
    else
      ok ← on_env (call (malloc_ok 24));
      if negb ok then mret None
      else
        match paramtype with
        | NC_PARAMTYPE_DUP_AND_FREE =>
          ts' ← dup_text ts;
          q ← dup_tree p;
          mret ((λ q, SrvNotif ts' q true) <$> q)
        | NC_PARAMTYPE_FREE => mret (Some (SrvNotif (Some ts) p true))
        | NC_PARAMTYPE_CONST => mret (Some (SrvNotif (Some ts) p false))
        end
  | _, _ => mret None
  end.

Definition nc_server_notif_free (notif : option nc_server_notif) : RM unit :=
  match notif with
  | Some n => if nt_free n then _ ← free_tree (nt_ntf n); free_opt free_text (nt_eventtime n) else mret tt
  | None => mret tt
  end.

Definition nc_server_notif_get_time (notif : option nc_server_notif) : option positive := notif ≫= nt_eventtime.

(** ** The default callbacks *)

(** The children that are looked at; the last one of a name counts, and an empty version is none. *)
Record get_schema_args := SchemaArgs { gs_identifier : option bytes; gs_revision : option bytes; gs_format : option bytes }.

Definition schema_arg (a : get_schema_args) (child : srv_tree) : get_schema_args :=
  let 'STree _ name value _ := child in
  if bool_decide (name = str "identifier") then SchemaArgs value (gs_revision a) (gs_format a)
  else if bool_decide (name = str "version") then
    SchemaArgs (gs_identifier a) (match value with Some [] => None | v => v end) (gs_format a)
  else if bool_decide (name = str "format") then SchemaArgs (gs_identifier a) (gs_revision a) value
  else a.

(** The module or submodule; a [NULL] name finds nothing. *)
Definition find_schema (ctx : schema_ctx module submodule) (identifier revision : option bytes) : option (module + submodule) :=
  match identifier, revision with
  | None, _ => None
  | Some i, Some r =>
    match ly_ctx_get_module ctx i r with
    | Some m => Some (inl m)
    | None => inr <$> ly_ctx_get_submodule ctx i r
    end
  | Some i, None =>
    match ly_ctx_get_module_implemented ctx i with
    | Some m => Some (inl m)
    | None =>
      match ly_ctx_get_module_latest ctx i with
      | Some m => Some (inl m)
      | None => inr <$> ly_ctx_get_submodule_latest ctx i
      end
    end
  end.

(** [err = nc_err(...); nc_err_set_msg(err, msg, "en"); return nc_server_reply_err(err);] *)
Definition invalid_value (msg : bytes) : RM (option srv_reply) :=
  e ← on_env (nc_err lyd_new_attr_ok NC_ERR_INVALID_VALUE (ErrArgs NC_ERR_TYPE_APP None None 0));
  match e with
  | None => on_env (nc_server_reply_err None)
  | Some e =>
    '(_, e) ← on_env (nc_err_set_msg lyd_new_attr_ok e (Some msg) (Some (str "en")));
    p ← put_err e;
    on_env (nc_server_reply_err (Some p))
  end.

Definition out_format (format : option bytes) : option LYS_OUTFORMAT :=
  match format with
  | None => Some LYS_OUT_YANG
  | Some f =>
    if bool_decide (f = str "ietf-netconf-monitoring:yang") then Some LYS_OUT_YANG
    else if bool_decide (f = str "ietf-netconf-monitoring:yin") then Some LYS_OUT_YIN
    else None
  end.

(** The reply with the text in [model_data], which the tree takes over. *)
Definition schema_reply (ctx : schema_ctx module submodule) (model_data : positive) : RM (option srv_reply) :=
  ok ← match ly_ctx_get_module_implemented ctx (str "ietf-netconf-monitoring") with
       | None => mret false
       | Some _ => on_env (call (lyd_new_inner_ok (str "get-schema")))
       end;
  if negb ok then _ ← free_text model_data; mret None
  else
    data ← put_tree (STree LYS_RPC (str "get-schema") None []);
    text ← text_at model_data;
    ok ← on_env (call (lyd_new_any_ok text));
    if negb ok then _ ← free_text model_data; _ ← free_tree data; mret None
    else
      _ ← modify (map_texts (delete model_data));
      _ ← modify (map_trees <[data := STree LYS_RPC (str "get-schema") None [STree LYS_OTHER (str "data") (Some text) []]]>);
      nc_server_reply_data (Some data) NC_WD_EXPLICIT NC_PARAMTYPE_FREE.

Definition nc_clb_default_get_schema (ctx : schema_ctx module submodule) (rpc : srv_tree) : RM (option srv_reply) :=
  let a := fold_left schema_arg (tree_children rpc) (SchemaArgs None None None) in
  if match gs_revision a with
     | Some r => negb (zlen r =? 10) && negb (bool_decide (r = str "1.0"))
     | None => false
     end
  then invalid_value (str "The requested version is not supported.")
  else
    match find_schema ctx (gs_identifier a) (gs_revision a) with
    | None => invalid_value (str "The requested module was not found.")
    | Some m =>
      match out_format (gs_format a) with
      | None => invalid_value (str "The requested format is not supported.")
      | Some f =>
        text ← on_env (call (lys_print m f));
        match text with
        | None => mret None
        | Some text => model_data ← put_text text; schema_reply ctx model_data
        end
      end
    end.

Definition nc_clb_default_close_session : M (nc_session * W) (option srv_reply) :=
  _ ← modify (λ s, (set_term_reason NC_SESSION_TERM_CLOSED s.1, s.2));
  on_env nc_server_reply_ok.
End replies.

(** ** Memory *)

Section memory.
Context {W module submodule : Type} `{!Env W} `{!ReplyEnv W module submodule}.

Lemma fresh_lookup {A} (m : gmap positive A) : m !! fresh (dom m) = None.
Proof. apply not_elem_of_dom, is_fresh. Qed.

Lemma wpx_tree_at F p t (Q : srv_tree → heap * W → Prop) h w :
  h_trees h !! p = Some t → Q t (h, w) → wpx F (tree_at p) Q (h, w).
Proof. intros E HQ. unfold tree_at. apply wpx_bind, wpx_gets. cbn [fst]. rewrite E. by apply wpx_ret. Qed.

Lemma wpx_text_at F p t (Q : bytes → heap * W → Prop) h w :
  h_texts h !! p = Some t → Q t (h, w) → wpx F (text_at p) Q (h, w).
Proof. intros E HQ. unfold text_at. apply wpx_bind, wpx_gets. cbn [fst]. rewrite E. by apply wpx_ret. Qed.

Lemma wpx_free_tree F p (Q : unit → heap * W → Prop) h w :
  is_Some (h_trees h !! p) → Q tt (map_trees (delete p) (h, w)) → wpx F (free_tree p) Q (h, w).
Proof. intros [t E] HQ. apply wpx_bind, (wpx_tree_at _ _ t); [done|]. by apply wpx_modify. Qed.

Lemma wpx_free_errs F p (Q : unit → heap * W → Prop) h w :
  is_Some (h_errs h !! p) → Q tt (map_errs (delete p) (h, w)) → wpx F (free_errs p) Q (h, w).
Proof.
  intros [l E] HQ. unfold free_errs, errs_at. apply wpx_bind, wpx_bind, wpx_gets. cbn [fst]. rewrite E.
  by apply wpx_ret, wpx_modify.
Qed.

(** What is put is at an address that was not used. *)
Lemma wpx_put_tree F t (Q : positive → heap * W → Prop) h w :
  (∀ p, h_trees h !! p = None → Q p (map_trees <[p := t]> (h, w))) → wpx F (put_tree t) Q (h, w).
Proof. intros HQ. apply wpx_bind, wpx_gets, wpx_bind, wpx_modify, wpx_ret, HQ, fresh_lookup. Qed.

Lemma wpx_put_text F t (Q : positive → heap * W → Prop) h w :
  (∀ p, h_texts h !! p = None → Q p (map_texts <[p := t]> (h, w))) → wpx F (put_text t) Q (h, w).
Proof. intros HQ. apply wpx_bind, wpx_gets, wpx_bind, wpx_modify, wpx_ret, HQ, fresh_lookup. Qed.

Lemma wpx_put_err F e (Q : positive → heap * W → Prop) h w :
  (∀ p, h_errs h !! p = None → Q p (map_errs <[p := [e]]> (h, w))) → wpx F (put_err e) Q (h, w).
Proof. intros HQ. apply wpx_bind, wpx_gets, wpx_bind, wpx_modify, wpx_ret, HQ, fresh_lookup. Qed.

(** The tree of a reply that was made and freed. *)
Definition after_reply (pt : NC_PARAMTYPE) (p : positive) (h : heap) (made : bool) : heap :=
  if made && bool_decide (pt = NC_PARAMTYPE_FREE) then Heap (delete p (h_trees h)) (h_texts h) (h_errs h) else h.

(** A reply with data that is made and freed leaves the heap as it was, but for data that were given away; data are given away only
    with a reply, so that after a failure they are still the caller's. *)
Theorem reply_memory (pt : NC_PARAMTYPE) (p : positive) (wd : NC_WD_MODE) (h : heap) (w : W) :
  is_Some (h_trees h !! p) →
  ∃ r s, (r ← nc_server_reply_data (Some p) wd pt; _ ← nc_server_reply_free r; mret r) (h, w)
         = Done (r, (after_reply pt p h (bool_decide (is_Some r)), s)).
Proof.
  intros [t Ht]. destruct h as [ht hx he]. cbn [h_trees] in Ht.
  enough (wp (r ← nc_server_reply_data (Some p) wd pt; _ ← nc_server_reply_free r; mret r)
    (λ r s, s.1 = after_reply pt p (Heap ht hx he) (bool_decide (is_Some r))) (Heap ht hx he, w)) as H.
  { destruct (proj1 (wp_total _ _ _) H) as (r & [h' s] & E & Eh). cbn [fst] in Eh. subst h'. eauto. }
  apply wpx_bind, wpx_bind, (wpx_tree_at _ _ t); [done|]. destruct (_ || _); cbn [negb]; [|by do 2 apply wpx_ret].
  apply wpx_bind, wpx_on_env, wpx_call. destruct (malloc_ok 24 w) as [[] w1]; cbn [fst snd negb]; [|by do 2 apply wpx_ret].
  destruct pt.
  - by apply wpx_ret, wpx_ret.
  - apply wpx_ret, wpx_bind, wpx_free_tree; [by eexists|]. by apply wpx_ret.
  - apply wpx_bind, wpx_bind, (wpx_tree_at _ _ t); [done|]. apply wpx_bind, wpx_on_env, wpx_call.
    destruct (lyd_dup_single_ok t w1) as [[] w2]; cbn [fst snd negb]; [|by do 3 apply wpx_ret].
    apply wpx_bind, wpx_put_tree. intros q Hq. apply wpx_ret, wpx_ret, wpx_bind, wpx_free_tree.
    { cbn. rewrite lookup_insert_eq. by eexists. }
    apply wpx_ret. cbn in *. by rewrite delete_insert_id.
Qed.

(** The run of [nc_server_notif_new] that copies, with the answers of [strdup] and [lyd_dup_single]. *)
Lemma notif_copied (p ts : positive) (t : srv_tree) (x : bytes) (h : heap) (w w1 w2 w3 : W) (b1 b2 : bool)
    (Q : option nc_server_notif → heap * W → Prop) :
  h_trees h !! p = Some t → h_texts h !! ts = Some x → has_notif t = true →
  malloc_ok 24 w = (true, w1) → malloc_ok (zlen x + 1) w1 = (b1, w2) → lyd_dup_single_ok t w2 = (b2, w3) →
  (∀ q n, h_texts h !! q = None → h_trees h !! n = None →
    let copied := if b1 then map_texts <[q := x]> (h, w3) else (h, w3) in
    Q (if b2 then Some (SrvNotif (if b1 then Some q else None) n true) else None)
      (if b2 then map_trees <[n := t]> copied else copied)) →
  wp (nc_server_notif_new (Some p) (Some ts) NC_PARAMTYPE_DUP_AND_FREE) Q (h, w).
Proof.
  intros Ht Hx Hn E1 E2 E3 HQ. apply wpx_bind, (wpx_tree_at _ _ t); [done|]. rewrite Hn. cbn [negb].
  apply wpx_bind, wpx_on_env, wpx_call. rewrite E1. cbn [fst snd negb].
  apply wpx_bind, wpx_bind, (wpx_text_at _ _ x); [done|]. apply wpx_bind, wpx_on_env, wpx_call. rewrite E2.
  pose proof (fresh_lookup (h_texts h)) as Hf1. pose proof (fresh_lookup (h_trees h)) as Hf2.
  destruct b1; cbn [fst snd negb].
  - apply wpx_bind, wpx_put_text. intros q Hq. apply wpx_ret, wpx_bind, wpx_bind, (wpx_tree_at _ _ t); [done|].
    apply wpx_bind, wpx_on_env, wpx_call. cbn [map_texts fst snd]. rewrite E3. destruct b2; cbn [fst snd negb].
    + apply wpx_bind, wpx_put_tree. intros n Hn'. by apply wpx_ret, wpx_ret, HQ.
    + by apply wpx_ret, wpx_ret, (HQ q _ Hq Hf2).
  - apply wpx_ret, wpx_bind, wpx_bind, (wpx_tree_at _ _ t); [done|]. apply wpx_bind, wpx_on_env, wpx_call. rewrite E3.
    destruct b2; cbn [fst snd negb].
    + apply wpx_bind, wpx_put_tree. intros n Hn'. by apply wpx_ret, wpx_ret, (HQ _ n Hf1).
    + by apply wpx_ret, wpx_ret, (HQ _ _ Hf1 Hf2).
Qed.

(** When the tree cannot be copied, the copy of the time is left behind, and nobody knows where. *)
Theorem notif_dup_leaks (p ts : positive) (t : srv_tree) (x : bytes) (h : heap) (w w1 w2 w3 : W) :
  h_trees h !! p = Some t → h_texts h !! ts = Some x → has_notif t = true →
  malloc_ok 24 w = (true, w1) → malloc_ok (zlen x + 1) w1 = (true, w2) → lyd_dup_single_ok t w2 = (false, w3) →
  ∃ q, h_texts h !! q = None ∧
    nc_server_notif_new (Some p) (Some ts) NC_PARAMTYPE_DUP_AND_FREE (h, w)
    = Done (None, (Heap (h_trees h) (<[q := x]> (h_texts h)) (h_errs h), w3)).
Proof.
  intros Ht Hx Hn E1 E2 E3.
  destruct (proj1 (wp_total _ _ _) (notif_copied p ts t x h w w1 w2 w3 true false
    (λ r s, r = None ∧ ∃ q, h_texts h !! q = None ∧ s = map_texts <[q := x]> (h, w3)) Ht Hx Hn E1 E2 E3
    (λ q _ Hq _, conj eq_refl (ex_intro _ q (conj Hq eq_refl)))))
    as (r & s & E & -> & q & Hq & ->). eauto.
Qed.

(** When the time cannot be copied, the notification has none. *)
Theorem notif_no_time (p ts : positive) (t : srv_tree) (x : bytes) (h : heap) (w w1 w2 w3 : W) :
  h_trees h !! p = Some t → h_texts h !! ts = Some x → has_notif t = true →
  malloc_ok 24 w = (true, w1) → malloc_ok (zlen x + 1) w1 = (false, w2) → lyd_dup_single_ok t w2 = (true, w3) →
  ∃ n s, nc_server_notif_new (Some p) (Some ts) NC_PARAMTYPE_DUP_AND_FREE (h, w) = Done (Some n, s) ∧
    nc_server_notif_get_time (Some n) = None.
Proof.
  intros Ht Hx Hn E1 E2 E3.
  destruct (proj1 (wp_total _ _ _) (notif_copied p ts t x h w w1 w2 w3 false true
    (λ r _, ∃ n, r = Some n ∧ nc_server_notif_get_time (Some n) = None) Ht Hx Hn E1 E2 E3
    (λ _ _ _ _, ex_intro _ _ (conj eq_refl eq_refl))))
    as (r & s & E & n & -> & Hn'). eauto.
Qed.
End memory.

(** ** What <get-schema> is answered with *)

(** There is memory, and every module can be printed. *)
Class SchemaLaws (W module submodule : Type) `{!Env W} `{!ReplyEnv W module submodule} := {
  print_of : module + submodule → LYS_OUTFORMAT → bytes;
  sl_malloc n (w : W) : 0 < n ≤ 2 ^ 32 → (malloc_ok n w).1 = true;
  sl_opaq n (w : W) : (lyd_new_opaq2 n w).1 = true;
  sl_attr n (w : W) : (lyd_new_attr_ok n w).1 = true;
  sl_inner n (w : W) : (lyd_new_inner_ok n w).1 = true;
  sl_any n (w : W) : (lyd_new_any_ok n w).1 = true;
  sl_print m f (w : W) : (lys_print m f w).1 = Some (print_of m f);
}.

Section schema.
Context {W module submodule : Type} `{!Env W} `{!ReplyEnv W module submodule} `{!SchemaLaws W module submodule}.

(** The answers to a request, a message or a text: the first test that fails gives the message. *)
Definition version_ok (a : get_schema_args) : Prop :=
  ∀ r, gs_revision a = Some r → zlen r = 10 ∨ r = str "1.0".

Inductive answered (ctx : schema_ctx module submodule) (a : get_schema_args) : bytes + bytes → Prop :=
| AnsVersion : ¬ version_ok a → answered ctx a (inl (str "The requested version is not supported."))
| AnsModule : version_ok a → find_schema ctx (gs_identifier a) (gs_revision a) = None →
    answered ctx a (inl (str "The requested module was not found."))
| AnsFormat m : version_ok a → find_schema ctx (gs_identifier a) (gs_revision a) = Some m → out_format (gs_format a) = None →
    answered ctx a (inl (str "The requested format is not supported."))
| AnsText m f : version_ok a → find_schema ctx (gs_identifier a) (gs_revision a) = Some m → out_format (gs_format a) = Some f →
    answered ctx a (inr (print_of m f)).

(** What is in a reply: one error of the tag invalid-value, or a text; the memory of the reply is all that [h'] has and [h] has not. *)
Definition reply_holds (h h' : heap) (r : srv_reply) (x : bytes + bytes) : Prop :=
  match r, x with
  | RplError p, inl msg => ∃ e, h_errs h !! p = None ∧ h' = Heap (h_trees h) (h_texts h) (<[p := [e]]> (h_errs h)) ∧
      nc_err_get_tag e = NC_ERR_INVALID_VALUE ∧ nc_err_get_msg e = Some msg
  | RplData p true NC_WD_EXPLICIT, inr text => h_trees h !! p = None ∧
      h' = Heap (<[p := STree LYS_RPC (str "get-schema") None [STree LYS_OTHER (str "data") (Some text) []]]> (h_trees h))
                (h_texts h) (h_errs h)
  | _, _ => False
  end.

Lemma reply_holds_freed h h' r x (w : W) :
  reply_holds h h' r x → nc_server_reply_free (Some r) (h', w) = Done (tt, (h, w)).
Proof.
  destruct h as [ht hx he]. intros H.
  enough (wp (nc_server_reply_free (Some r)) (λ _ s, s = (Heap ht hx he, w)) (h', w)) as Hw.
  { destruct (proj1 (wp_total _ _ _) Hw) as ([] & s & E & ->). exact E. }
  destruct r as [|p [] []|p], x as [msg|text]; try done; cbn in *.
  - destruct H as (Hp & ->). apply wpx_free_tree; cbn; [rewrite lookup_insert_eq; eauto|]. unfold map_trees. cbn. by rewrite delete_insert_id.
  - destruct H as (e & Hp & -> & _). apply wpx_free_errs; cbn; [rewrite lookup_insert_eq; eauto|]. unfold map_errs. cbn. by rewrite delete_insert_id.
Qed.

Lemma invalid_value_ok msg h w :
  wp (invalid_value msg) (λ r s, ∃ r', r = Some r' ∧ reply_holds h s.1 r' (inl msg)) (h, w).
Proof.
  apply wpx_bind, wpx_on_env. unfold nc_err. rewrite bool_decide_false by done. apply wpx_bind, wpx_call. rewrite sl_opaq.
  cbn [negb err_type a_type]. do 3 (apply wpx_bind, new_elem_ok; [exact sl_opaq|intros ?; cbn [negb]]).
  apply wpx_bind, set_msg_ok; [exact sl_opaq|exact sl_attr|]. intros w4. apply wpx_bind, wpx_ret, wpx_ret.
  apply wpx_bind, wpx_on_env, set_msg_ok; [exact sl_opaq|exact sl_attr|]. intros w5.
  apply wpx_bind, wpx_put_err. intros p Hp. apply wpx_on_env, wpx_bind, wpx_call. rewrite sl_malloc by lia. apply wpx_ret.
  eexists. split; [done|]. eexists. split; [exact Hp|]. split; [done|]. split; vm_compute; done.
Qed.

Lemma schema_reply_ok ctx q text h w :
  is_Some (ly_ctx_get_module_implemented ctx (str "ietf-netconf-monitoring")) → h_texts h !! q = None →
  wp (schema_reply ctx q) (λ r s, ∃ r', r = Some r' ∧ reply_holds h s.1 r' (inr text)) (map_texts <[q := text]> (h, w)).
Proof.
  intros [m0 E] Hq. unfold schema_reply. rewrite E. apply wpx_bind, wpx_on_env, wpx_call. rewrite sl_inner. cbn [negb].
  apply wpx_bind, wpx_put_tree. intros p Hp. apply wpx_bind, (wpx_text_at _ _ text); [apply lookup_insert_eq|].
  apply wpx_bind, wpx_on_env, wpx_call. rewrite sl_any. cbn [negb]. apply wpx_bind, wpx_modify, wpx_bind, wpx_modify.
  eapply wpx_bind, wpx_tree_at; [apply lookup_insert_eq|]. cbn [tree_kind]. rewrite bool_decide_true by done. cbn [orb negb].
  apply wpx_bind, wpx_on_env, wpx_call. rewrite sl_malloc by lia. cbn [negb]. apply wpx_ret.
  eexists. split; [done|]. split; [exact Hp|]. cbn. by rewrite insert_insert_eq, delete_insert_id.
Qed.

Lemma version_test a :
  match gs_revision a with Some r => negb (zlen r =? 10) && negb (bool_decide (r = str "1.0")) | None => false end = true ↔
  ¬ version_ok a.
Proof.
  unfold version_ok. destruct (gs_revision a) as [r|]; [|split; [done|intros H; destruct H; done]].
  rewrite andb_true_iff, !negb_true_iff, Z.eqb_neq, bool_decide_eq_false. split.
  - intros [H1 H2] H. by destruct (H r eq_refl).
  - intros H. split; intros ?; destruct H; intros ? [= <-]; auto.
Qed.

(** C34: When there is memory, the default callback for <get-schema> always answers.  The answer is the printed text of the module or
    submodule that was asked for, in the format that was asked for, or an invalid-value error with the message of the first
    test that failed.  Freeing the reply, as the library does after sending it, gives back everything the callback allocated. *)
Theorem get_schema_served ctx rpc (h : heap) (w : W) :
  is_Some (ly_ctx_get_module_implemented ctx (str "ietf-netconf-monitoring")) →
  ∃ r x h' w', nc_clb_default_get_schema ctx rpc (h, w) = Done (Some r, (h', w')) ∧
    answered ctx (fold_left schema_arg (tree_children rpc) (SchemaArgs None None None)) x ∧ reply_holds h h' r x ∧
    nc_server_reply_free (Some r) (h', w') = Done (tt, (h, w')).
Proof.
  intros Hmon. set (a := fold_left _ _ _).
  enough (wp (nc_clb_default_get_schema ctx rpc)
    (λ r s, ∃ x, answered ctx a x ∧ ∃ r', r = Some r' ∧ reply_holds h s.1 r' x) (h, w)) as H.
  { destruct (proj1 (wp_total _ _ _) H) as (r & [h' w'] & E & x & Hx & r' & -> & Hr). exists r', x, h', w'.
    split; [exact E|]. split; [exact Hx|]. split; [exact Hr|]. by apply (reply_holds_freed _ _ _ x). }
  unfold nc_clb_default_get_schema. fold a. cbv zeta. pose proof (version_test a) as Hv.
  lazymatch type of Hv with ?b = true ↔ _ => destruct b end.
  { eapply wpx_mono; [apply invalid_value_ok|]. intros r s Hr. eexists. split; [apply AnsVersion, Hv; done|exact Hr]. }
  assert (version_ok a) as Hok.
  { destruct (gs_revision a) as [r|] eqn:Er; unfold version_ok in *; rewrite Er in *; [|done]. intros ? [= <-].
    destruct (decide (zlen r = 10)); [by left|]. destruct (decide (r = str "1.0")); [by right|].
    exfalso. assert (false = true); [|done]. apply Hv. intros H. by destruct (H r eq_refl). }
  destruct (find_schema _ _ _) as [m|] eqn:Em.
  2:{ eapply wpx_mono; [apply invalid_value_ok|]. intros r s Hr. eexists. split; [by apply AnsModule|exact Hr]. }
  destruct (out_format _) as [f|] eqn:Ef.
  2:{ eapply wpx_mono; [apply invalid_value_ok|]. intros r s Hr. eexists. split; [by eapply AnsFormat|exact Hr]. }
  apply wpx_bind, wpx_on_env, wpx_call. rewrite sl_print. apply wpx_bind, wpx_put_text. intros q Hq.
  eapply wpx_mono; [by apply schema_reply_ok|]. intros r s Hr. eexists. split; [by eapply AnsText|exact Hr].
Qed.
End schema.

(** ** An example *)

#[export] Instance sim_reply : ReplyEnv (sim true true) bytes bytes := {
  lyd_dup_single_ok _ w := (true, w);
  lyd_new_inner_ok _ w := (true, w);
  lyd_new_any_ok _ w := (true, w);
  lyd_new_attr_ok _ w := (true, w);
  lys_print m f w :=
    (Some ((match f with LYS_OUT_YANG => str "module " | LYS_OUT_YIN => str "<module>" end) ++ match m with inl m | inr m => m end), w);
}.

Definition demo_print (m : bytes + bytes) (f : LYS_OUTFORMAT) : bytes :=
  (match f with LYS_OUT_YANG => str "module " | LYS_OUT_YIN => str "<module>" end) ++ match m with inl m | inr m => m end.

#[export] Instance sim_schema : SchemaLaws (sim true true) bytes bytes.
Proof.
  refine {| print_of := demo_print |}; try done.
  intros n w Hn. cbn. rewrite (proj2 (Z.eqb_neq n 0)) by lia. apply Z.ltb_lt. lia.
Defined.

(** A context with an implemented module [m], the module of get-schema, and a submodule [s] of one revision. *)
Definition reply_ctx : schema_ctx bytes bytes :=
  SchemaCtx (λ _ _, None) (λ n r, if bool_decide (n = str "s" ∧ r = str "2020-01-01") then Some n else None)
    (λ n, if bool_decide (n = str "m" ∨ n = str "ietf-netconf-monitoring") then Some n else None) (λ _, None) (λ _, None).

Definition schema_request (args : list (string * string)) : srv_tree :=
  STree LYS_RPC (str "get-schema") None ((λ '(n, v), STree LYS_OTHER (str n) (Some (str v)) []) <$> args).
Arguments schema_request args%_list_scope.

Lemma get_schema_served_witness :
  ∃ r x h' w', nc_clb_default_get_schema reply_ctx
      (schema_request [("identifier", "s"); ("version", "2020-01-01"); ("format", "ietf-netconf-monitoring:yin")]%string)
      (Heap ∅ ∅ ∅, (Sim [] [] 0 : sim true true)) = Done (Some r, (h', w')) ∧ reply_holds (Heap ∅ ∅ ∅) h' r x ∧ x = inr (str "<module>s").
Proof.
  destruct (get_schema_served reply_ctx
    (schema_request [("identifier", "s"); ("version", "2020-01-01"); ("format", "ietf-netconf-monitoring:yin")]%string)
    (Heap ∅ ∅ ∅) (Sim [] [] 0 : sim true true)) as (r & x & h' & w' & E & Ha & Hr & _); [by vm_compute; eexists|].
  exists r, x, h', w'. split; [exact E|]. split; [exact Hr|]. clear E Hr.
  inversion Ha as [Hv|Hv Hf|m Hv Hf Ho|m f Hv Hf Ho]; subst.
  - destruct Hv. intros ? [= <-]. by left.
  - vm_compute in Hf. discriminate Hf.
  - vm_compute in Ho. discriminate Ho.
  - vm_compute in Hf, Ho. injection Hf as <-. injection Ho as <-. reflexivity.
Defined.
